(* ===== verification/_CoqProject ===== *)
-Q . S2P
Prelude.v
Ordering.v
Sorting.v
BTreeMap.v
Bytes.v
Digits.v
FixedPoint.v
Notional.v
Ids.v
Margin.v
OrderBook.v
Quote.v
Reconcile.v
Store.v
Reconstruct.v
Trust.v
Blocks.v
Sequencer.v
StateImage.v
Publication.v
Ledger.v
LedgerCheckpoint.v
Replay.v
Disk.v
StateStore.v
CheckpointStore.v
Core.v
Runtime.v
Consumer.v
FeatureWindow.v
FeatureSnapshot.v
SimBook.v
Simulator.v
Signals.v
Payloads.v
Records.v
Opaque.v
Markets.v
MarketRegistry.v
Accounts.v
Orders.v
Activations.v
Trades.v
Positions.v
Episodes.v
Liquidations.v
Staking.v
Vaults.v
Flows.v
FlowEvents.v
Composite.v
Samples.v
TradeRun.v
Namespaces.v
Production.v
Trail.v
Coherence.v
Balance.v
OrderRuns.v
ProjectedBook.v
