(* ===== verification/Prelude.v ===== *)
(** * Hyperliquid Alpha Desk: the deterministic core, verified

    The program ([src/], a Rust workspace) turns venue data into a canonical,
    replayable event stream and exact market state. Sources deliver blocks to
    the capture service; source trust decides the lane of each observation; the
    sequencer turns candidate blocks into one contiguous committed stream;
    canonical events and blocks carry content hashes; the core service reads
    the stream from a message bus, applies each block to the canonical ledger,
    commits the state to disk, publishes checkpoints and replays archives; the
    order book and its reconstruction keep level-4 state; quotes,
    reconciliation and margin models compute on fixed-point decimals; feature
    windows and bitemporal snapshots feed signals, and a simulator executes
    them against recorded books.

    This development is a shallow embedding of that core. Pure functions are
    Rocq functions; [Result] is [result]; a [&mut self] method is a computation
    of the state and error monad [st], which keeps the state an early return
    leaves behind; machine integers are [Z] with the range checks of [ity]
    written out; [BTreeMap] is its sorted list of entries. Panics are the
    [Crashed] of [halt] or the [Panic] of [stop], never a default value.
    Definitions are executable and keep the names of the source.

    ** Files

    Shared:
    - [Prelude]: this header, [result], [st], machine integers ([ity]), list
      lemmas, tactics ([inv_ok], [inv_st], [bool_to_prop]).
    - [Ordering], [Sorting], [BTreeMap]: [Ord] as a class with laws; stable
      sorting and ranks; the ordered map and its theory.
    - [Bytes], [Digits]: integer encodings, length-prefixed frames and the
      hash interfaces [Blake3] and [PlainBlake3]; decimal digits.
    - [FixedPoint] (crates/domain-types/src/decimal.rs, shared.rs): [Decimal],
      rounding, text, [ProbabilityPpm]; [Notional]: the 512-bit
      [ExactQuoteNotional].
    - [Ids] (ids.rs, shared.rs): identifiers, sides, directions, addresses.

    Books and margin:
    - [Margin] (crates/margin-models/src): the exact margin arithmetic, the six
      account modes as [MarginModel] records, [evaluate].
    - [OrderBook] (crates/orderbook/src/book.rs): the book's two priority maps
      and identity index, snapshots, diffs, health and the level-2 view.
    - [Quote] (execution.rs), [Reconcile] (reconcile.rs), [Store] (store.rs):
      execution quotes; comparison of derived and observed levels; keys and
      canonical encodings.
    - [Reconstruct] (reconstruct.rs, checkpoint.rs): committed and provisional
      inputs of a level-4 reconstruction, checkpoints.

    Events and capture:
    - [Trust] (crates/hl-protocol/src/trust.rs): trust, classes and lanes.
    - [Blocks] (crates/canonical-events/src): event ids, evidence merging,
      block validation and hashing.
    - [Sequencer] (services/hl-capture/src/sequencer, quarantine.rs): the whole
      canonical sequencer and its runs.

    Ledger and core service:
    - [StateImage] (crates/canonical-ledger/src/state.rs, record_codec.rs):
      state images, their codec and hash.
    - [Ledger] (ledger.rs, reducer.rs, correction.rs, watermark_only.rs): the
      block delta tracker, preparation and commit of blocks over any reducer
      ([EventReducer]).
    - [LedgerCheckpoint] (checkpoint.rs): checkpoint artifacts.
    - [Replay] (crates/replay-engine/src): serial replay of an archive.
    - [Disk]: a file system whose calls may fail or crash half way; [StateStore]
      (crates/canonical-state-store/src/atomic.rs) and [CheckpointStore]
      (lib.rs) run on it; [Core] (services/hl-core/src/lib.rs, replay.rs) uses
      them through the class [AtomicStateStore] with [StoreContract].
    - [Publication] (publication.rs): subjects and the committed block marker;
      [Runtime] (health.rs, input.rs, reconciliation.rs, checkpoint.rs,
      state_runtime.rs, publisher.rs); [Consumer] (consumer.rs): block assembly
      and the consumer loop over any pull source.

    State reducers (crates/canonical-ledger/src), each an [EventReducer]:
    - [Payloads] and [Opaque] (canonical-events, opaque.rs): the payloads of
      events and the amounts in those the ledger decodes itself; [Records]:
      what the codecs of all records share ([StateRecord], the three ways to
      decode).
    - [Markets], [MarketRegistry] (market.rs); [Accounts] (account/); [Orders]
      (order.rs); [Activations] (trigger.rs, twap.rs); [Trades] (trade.rs);
      [Positions], [Episodes], [Liquidations] (position/); [Staking]
      (staking.rs, validator.rs); [Vaults] (vault.rs, relationships.rs,
      borrow_lend.rs).
    - [Composite] (composite.rs): the production reducer, which dispatches an
      event to its owners and merges what they write, and the projection of
      the level-4 book from the state.
    - [Flows], [FlowEvents]: the reducers of money and stake against the
      abstract ledger of postings; [Namespaces]: what each reducer may write.
    - [Samples], [TradeRun]: concrete accounts, events and runs.
    - [Production], [Trail], [Coherence], [Balance], [OrderRuns],
      [ProjectedBook]: theorems over runs of the ledger with the production
      reducer, on money and stake, facts, position pairs, episodes, orders and
      the projected book.

    Features, signals and simulation:
    - [FeatureWindow] (crates/feature-core/src/window.rs): rolling windows.
    - [FeatureSnapshot] (feature.rs, health.rs, snapshot.rs, asof.rs,
      calculator.rs): bitemporal snapshots, as-of queries, the calculator.
    - [SimBook] (crates/execution-sim/src/math.rs, book.rs, fill.rs) and
      [Simulator] (simulator.rs and the models it composes).
    - [Signals] (crates/signal-core/src, and the observations of
      crates/market-intelligence/src/sentiment.rs).

    ** What is proved

    - Decimals and notionals: multiplication and division are the exact result
      rounded in the requested mode; addition and subtraction are exact or
      name their error; equality and order are those of the rationals; text
      round-trips; products never fail.
    - Margin: an assessment is the exact sum its mode defines, its ratio is
      exact, an exact trigger is where requirement and collateral meet.
    - Book: every diff on a reachable healthy book refines a finite map from
      order ids to orders, errors included; reachable books are consistent;
      the level-2 view is the ordered aggregation; a sequence gap fails closed.
    - Quotes: at one quantity scale a quote is an exact fill with exact costs.
    - Reconstruction: a committed input counts once, refused inputs leave no
      record, and a checkpoint restores the book it captured.
    - Blocks: a block is accepted exactly when valid; the hashed bytes
      determine its content; evidence merging is a union or names its cause.
    - Sequencer: over all runs the committed stream is the consecutive heights
      from the first one, drawn from committed-trust candidates; delivered
      heights are committed; gaps, pending blocks and windows are exact and
      bounded; a divergence latches red for good; the provisional lane never
      moves the committed stream.
    - Ledger: applying a block is all or nothing, runs are contiguous, the
      delta view is bounded; state images and artifacts decode to what was
      encoded and nothing else.
    - State: an event writes exactly the union of what its owners write, no
      key twice ([composite_exact]). Over all runs of the production reducer,
      balances move by exactly the postings of the applied events, transfers
      conserve what each pool holds, records of money and stake stay readable
      and are not overdrawn; facts are never changed, and every account event
      has its own; position and episode records agree, and each episode is
      what was opened, bought and sold; orders are filled by exactly their
      fills, ended orders are final, and the projected book holds exactly the
      orders that rest in the state.
    - Durability: over every failure and crash of the file system a commit
      leaves the old or the new state loadable; durable application refines
      the ledger; sessions, restarts and checkpoints resume exactly; a replay
      completes and reports exact progress.
    - Consumer: blocks assemble in any order of delivery, the consumer loop
      refines a replay of the committed blocks, and a message is acknowledged
      only after its block was applied.
    - Features: a window holds exactly the samples its algorithm promises,
      means and quantiles are exact, summaries never index out of range; a
      snapshot is accepted exactly when admissible; a query never sees what
      was not yet known.
    - Simulation: the liquidity walk is the greedy fill of the book within the
      limit; the accounts of a run are those of its fills, fees and funding;
      limits hold; higher fees never raise the result; every run ends.
    - Signals: whatever is proposed, a life cycle only advances and every live
      signal had the evidence, health and confirmation it needs;
      deduplication keys identify the set of originators.
    - Some theorems exhibit defects of the code by a concrete run:
      [quote_overfills_across_scales], [quote_refuses_exact_fill],
      [diff_hash_misses_conflict], [inexact_trigger_outside_range],
      [interrupted_commit_wedges], [committed_state_unloadable],
      [health_forgets_divergence], [oversized_marker_panics],
      [robust_z_never_negative], [failed_update_is_swallowed],
      [provenance_hash_ambiguous], [partial_exit_reports_profit] and those
      beside it at the end of [Simulator], and the section at the end of
      [Signals].

    ** Bounds and fuel

    Recursion is structural except for these loops. [print_int] runs with one
    round more than the binary logarithm of its argument, which bounds the
    number of digits. [drain] runs with one round more than the number of
    pending blocks, and each round removes one ([drain_spec]). The loops of
    the consumer and of replay follow the list of deliveries or manifests.
    [funding_loop] runs with one round more than the number of intervals in
    the holding time; [run_ends] shows that the fuel never runs out. Machine widths and the
    limits of the code (38 decimal places, 512 bits, 2^20 orders, payload and
    key sizes) are those of the source.

    ** Parameters

    [Blake3], [PlainBlake3], [Sha256], [Hex], [Json], [EventsJson],
    [EventPayload] and [EventCodec] stand for hashes, codecs and the payload
    types of other crates; [PayloadWire] for the protobuf decoders of opaque
    payloads and [StateJson], with a class per reducer below it, for the JSON
    of the records in the state; archives, pull sources and stores are classes of
    operations. Theorems that need more than a function assume laws
    ([HexLaws], [JsonLaws], [StoreContract] and the like: decoding inverts
    encoding, a committed state is loaded again), and each file with such a
    theorem gives an instance. [Disk] takes the fate of each call as a
    parameter.

    ** Not modelled

    Sockets, the message bus server, databases, HTTP services, the
    command-line tools and the user interfaces are I/O around this core.
    Accessors, serde derives and the debug text of values have no content of
    their own. The decoders of venue records, the protobuf codec of payloads
    and the formats of the archive are code over external parsers and the file
    system. The signal families, the market and wallet intelligence, much of
    it over floating point, and the entity graph are deterministic code that
    is not modelled. *)

From Stdlib Require Export ZArith Lia.
From stdpp Require Export base option strings.
From stdpp Require Export list.

#[global] Open Scope Z_scope.

(** ** Fallible computations: Rust's [Result<A, E>] *)

Inductive result (E A : Type) : Type :=
| Ok (a : A)
| Err (e : E).
Arguments Ok {E A} a.
Arguments Err {E A} e.

#[global] Instance result_ret {E} : MRet (result E) := fun A a => Ok a.
#[global] Instance result_bind {E} : MBind (result E) :=
  fun A B f m => match m with Ok a => f a | Err e => Err e end.
#[global] Instance result_fmap {E} : FMap (result E) :=
  fun A B f m => match m with Ok a => Ok (f a) | Err e => Err e end.

(** [Result::map_err], [Option::ok_or] and [Result::is_ok]. *)
Definition map_err {E F A} (f : E -> F) (m : result E A) : result F A :=
  match m with Ok a => Ok a | Err e => Err (f e) end.
Definition ok_or {E A} (o : option A) (e : E) : result E A :=
  match o with Some a => Ok a | None => Err e end.
Definition is_ok {E A} (m : result E A) : bool :=
  match m with Ok _ => true | Err _ => false end.

Declare Scope rust_scope.
Delimit Scope rust_scope with rust.
Notation "o ?? e" := (ok_or o e) (at level 46, left associativity) : rust_scope.
#[global] Open Scope rust_scope.

Create HintDb rust.

#[global] Instance Ok_inj {E A} : Inj (=) (=) (@Ok E A).
Proof. by intros x y [=]. Qed.

Section result_lemmas.
Context {E F A B : Type}.

Lemma bind_of_Ok (a : A) (f : A -> result E B) : (Ok a ≫= f) = f a.
Proof. reflexivity. Qed.

Lemma bind_of_Err (e : E) (f : A -> result E B) : (Err e ≫= f) = Err e.
Proof. reflexivity. Qed.

Lemma bind_of_Some (a : A) (f : A -> option B) : (Some a ≫= f) = f a.
Proof. reflexivity. Qed.

Lemma bind_Ok (m : result E A) (f : A -> result E B) b :
  (m ≫= f) = Ok b <-> exists a, m = Ok a /\ f a = Ok b.
Proof.
  destruct m as [a|e]; cbn; split.
  - intros H. exists a. auto.
  - intros (a' & [= <-] & H). exact H.
  - discriminate.
  - intros (a' & H & _). discriminate H.
Qed.

Lemma bind_Err (m : result E A) (f : A -> result E B) e :
  (m ≫= f) = Err e <-> m = Err e \/ exists a, m = Ok a /\ f a = Err e.
Proof.
  destruct m as [a|e']; cbn; split.
  - intros H. right. exists a. auto.
  - intros [H | (a' & [= <-] & H)]; [discriminate | exact H].
  - intros [= ->]. auto.
  - intros [[= ->] | (a' & H & _)]; [reflexivity | discriminate].
Qed.

Lemma fmap_Ok (m : result E A) (f : A -> B) b :
  (f <$> m) = Ok b <-> exists a, m = Ok a /\ f a = b.
Proof.
  destruct m as [a|e]; cbn; split.
  - intros [= <-]. exists a. auto.
  - intros (a' & [= <-] & <-). reflexivity.
  - discriminate.
  - intros (a' & H & _). discriminate H.
Qed.

Lemma map_err_Ok (m : result E A) (f : E -> F) a :
  map_err f m = Ok a <-> m = Ok a.
Proof. destruct m; cbn; split; congruence. Qed.

Lemma map_err_Err (m : result E A) (f : E -> F) e :
  map_err f m = Err e <-> exists e', m = Err e' /\ f e' = e.
Proof. destruct m; cbn; split; [discriminate|by intros (? & ? & ?)|naive_solver|naive_solver]. Qed.

Lemma ok_or_Ok (o : option A) (e : E) a : o ?? e = Ok a <-> o = Some a.
Proof. destruct o; cbn; split; congruence. Qed.

Lemma ok_or_Err (o : option A) (e e' : E) :
  o ?? e = Err e' <-> o = None /\ e = e'.
Proof. destruct o; cbn; split; intros; destruct_and?; split_and?; congruence. Qed.

Lemma if_Err_Ok (b : bool) (e : E) (m : result E A) a :
  (if b then Err e else m) = Ok a <-> b = false /\ m = Ok a.
Proof. destruct b; split; intros; destruct_and?; split_and?; congruence. Qed.

Lemma if_Ok_Err (b : bool) (e : E) (m : result E A) a :
  (if b then m else Err e) = Ok a <-> b = true /\ m = Ok a.
Proof. destruct b; split; intros; destruct_and?; split_and?; congruence. Qed.
End result_lemmas.

#[export] Hint Rewrite @bind_of_Ok @bind_of_Err : rust.

(** ** Mutating methods: [&mut self] with a [Result]

    A method that mutates its receiver and may fail returns both the outcome
    and the receiver's state, which on an error is the partly updated one. *)

Definition st (S E A : Type) : Type := S -> result E A * S.

#[global] Instance st_ret {S E} : MRet (st S E) := fun A a s => (Ok a, s).
#[global] Instance st_bind {S E} : MBind (st S E) := fun A B f m s =>
  match m s with (Ok a, s') => f a s' | (Err e, s') => (Err e, s') end.

Definition st_get {S E} : st S E S := fun s => (Ok s, s).
Definition st_modify {S E} (f : S -> S) : st S E unit := fun s => (Ok tt, f s).
Definition st_throw {S E A} (e : E) : st S E A := fun s => (Err e, s).
Definition st_lift {S E A} (r : result E A) : st S E A := fun s => (r, s).

Section st_lemmas.
Context {S E A B : Type}.
Implicit Types (f : A -> st S E B) (s : S).

Lemma st_bind_get (f : S -> st S E B) s : (st_get ≫= f) s = f s s.
Proof. reflexivity. Qed.

Lemma st_bind_modify (g : S -> S) (f : unit -> st S E B) s :
  (st_modify g ≫= f) s = f tt (g s).
Proof. reflexivity. Qed.

Lemma st_bind_lift_Ok a f s : (st_lift (Ok a) ≫= f) s = f a s.
Proof. reflexivity. Qed.

Lemma st_bind_lift_Err (e : E) f s : (st_lift (Err e) ≫= f) s = (Err e, s).
Proof. reflexivity. Qed.

Lemma st_bind_ret a f s : ((mret a : st S E A) ≫= f) s = f a s.
Proof. reflexivity. Qed.

Lemma st_bind_Ok (m : st S E A) f s a s' : m s = (Ok a, s') -> (m ≫= f) s = f a s'.
Proof. intros M. unfold mbind, st_bind. by rewrite M. Qed.

Lemma st_bind_Err (m : st S E A) f s e s' : m s = (Err e, s') -> (m ≫= f) s = (Err e, s').
Proof. intros M. unfold mbind, st_bind. by rewrite M. Qed.

Lemma st_bind_inv (m : st S E A) f s b s'' :
  (m ≫= f) s = (Ok b, s'') -> exists a s', m s = (Ok a, s') /\ f a s' = (Ok b, s'').
Proof.
  unfold mbind, st_bind. destruct (m s) as [[a|e] s'] eqn:M; [|discriminate]. intros R. eauto.
Qed.

(** A bind ended in its first half or in its second. *)
Lemma st_bind_cases (m : st S E A) f s r s'' :
  (m ≫= f) s = (r, s'') ->
  (exists e, m s = (Err e, s'') /\ r = Err e) \/ exists a s', m s = (Ok a, s') /\ f a s' = (r, s'').
Proof.
  unfold mbind, st_bind. destruct (m s) as [[a|e] s'] eqn:M; intros R; [right|left]; [eauto|].
  injection R as <- <-. eauto.
Qed.

Lemma st_lift_inv (r : result E A) s a s' : st_lift r s = (Ok a, s') -> r = Ok a /\ s' = s.
Proof. unfold st_lift. intros [= -> ->]. done. Qed.

Lemma st_ret_inv (a : A) s b s' : (mret a : st S E A) s = (Ok b, s') -> b = a /\ s' = s.
Proof. unfold mret, st_ret. intros [= <- <-]. done. Qed.

Lemma st_get_inv s a s' : (st_get : st S E S) s = (Ok a, s') -> a = s /\ s' = s.
Proof. unfold st_get. intros [= <- <-]. done. Qed.

Lemma st_modify_inv (g : S -> S) s u s' :
  (st_modify g : st S E unit) s = (Ok u, s') -> s' = g s.
Proof. unfold st_modify. by intros [= _ <-]. Qed.

Lemma st_if_throw_inv (b : bool) (e : E) (m : st S E A) s a s' :
  (if b then st_throw e else m) s = (Ok a, s') -> b = false /\ m s = (Ok a, s').
Proof. destruct b; [discriminate|done]. Qed.
End st_lemmas.

#[export] Hint Rewrite @st_bind_get @st_bind_modify @st_bind_lift_Ok @st_bind_lift_Err
  @st_bind_ret : rust.

(** [inv_ok] takes apart every hypothesis that says a chain of [?]s and early
    returns ended in [Ok]. *)
Ltac inv_ok_step :=
  match goal with
  | H : (_ ≫= _) = Ok _ |- _ =>
      apply bind_Ok in H; let x := fresh "x" in destruct H as (x & ? & H); cbn beta in H
  | H : (_ <$> _) = Ok _ |- _ =>
      apply fmap_Ok in H; let x := fresh "x" in destruct H as (x & ? & ?)
  | H : map_err _ _ = Ok _ |- _ => apply map_err_Ok in H
  | H : (_ ?? _) = Ok _ |- _ => apply ok_or_Ok in H
  | H : (if _ then Err _ else _) = Ok _ |- _ =>
      apply if_Err_Ok in H; let Hb := fresh "Hb" in destruct H as [Hb H]
  | H : (if _ then _ else Err _) = Ok _ |- _ =>
      apply if_Ok_Err in H; let Hb := fresh "Hb" in destruct H as [Hb H]
  | H : Ok _ = Ok _ |- _ => injection H as H; try subst
  | H : Err _ = Ok _ |- _ => discriminate H
  | H : Ok _ = Err _ |- _ => discriminate H
  | H : Err _ = Err _ |- _ => injection H as H; try subst
  end.
Ltac inv_ok := repeat inv_ok_step.

(** A call chain ends early with an error it returns, or because the process
    died: it was stopped, or it panicked. *)
Inductive halt (E : Type) := Failed (e : E) | Crashed.
Arguments Failed {E} e.
Arguments Crashed {E}.

(** The same for a run of a mutating method. *)
Ltac inv_st_step :=
  match goal with
  | H : (_ ≫= _) _ = (Ok _, _) |- _ =>
      apply st_bind_inv in H;
      let x := fresh "x" in let s := fresh "s" in destruct H as (x & s & ? & H); cbn beta in H
  | H : st_lift _ _ = (Ok _, _) |- _ => apply st_lift_inv in H as [H ->]
  | H : mret _ _ = (Ok _, _) |- _ =>
      apply st_ret_inv in H as [H ->];
      first [match type of H with ?x = _ => is_var x; subst x end | injection H as H; try subst | idtac]
  | H : st_get _ = (Ok _, _) |- _ => apply st_get_inv in H as [-> ->]
  | H : st_modify _ _ = (Ok _, _) |- _ => apply st_modify_inv in H as ->
  | H : st_throw _ _ = (Ok _, _) |- _ => discriminate H
  | H : (if _ then st_throw _ else _) _ = (Ok _, _) |- _ =>
      apply st_if_throw_inv in H; let Hb := fresh "Hb" in destruct H as [Hb H]
  end.
Ltac inv_st := repeat (inv_st_step || inv_ok_step).

(** Reflect the boolean guards of the code into propositions. *)
Ltac bool_to_prop :=
  repeat match goal with
  | H : (_ || _)%bool = false |- _ => apply orb_false_iff in H; destruct H
  | H : (_ && _)%bool = true |- _ => apply andb_true_iff in H; destruct H
  | H : (_ || _)%bool = true |- _ => apply orb_true_iff in H
  | H : (_ && _)%bool = false |- _ => apply andb_false_iff in H
  | H : negb _ = true |- _ => apply negb_true_iff in H
  | H : negb _ = false |- _ => apply negb_false_iff in H
  | H : (_ <? _) = true |- _ => apply Z.ltb_lt in H
  | H : (_ <? _) = false |- _ => apply Z.ltb_ge in H
  | H : (_ <=? _) = true |- _ => apply Z.leb_le in H
  | H : (_ <=? _) = false |- _ => apply Z.leb_gt in H
  | H : (_ =? _) = true |- _ => apply Z.eqb_eq in H
  | H : (_ =? _) = false |- _ => apply Z.eqb_neq in H
  | H : bool_decide _ = true |- _ => apply bool_decide_eq_true in H
  | H : bool_decide _ = false |- _ => apply bool_decide_eq_false in H
  end.

(** ** Machine integers

    A value of a machine type is a [Z] in the type's range; each checked
    operation returns [None] exactly when the exact result leaves it. [usize]
    is the 64-bit one of the supported targets. *)

Inductive ity := I64 | I128 | U8 | U16 | U32 | U64 | U128 | USIZE.

Definition ity_min (t : ity) : Z :=
  match t with
  | I64 => -9223372036854775808
  | I128 => -170141183460469231731687303715884105728
  | _ => 0
  end.
Definition ity_max (t : ity) : Z :=
  match t with
  | I64 => 9223372036854775807
  | I128 => 170141183460469231731687303715884105727
  | U8 => 255
  | U16 => 65535
  | U32 => 4294967295
  | U64 | USIZE => 18446744073709551615
  | U128 => 340282366920938463463374607431768211455
  end.

Definition in_ity (t : ity) (z : Z) : bool := (ity_min t <=? z) && (z <=? ity_max t).
Definition ity_wf (t : ity) (z : Z) : Prop := ity_min t <= z <= ity_max t.

Definition int_try (t : ity) (z : Z) : option Z := if in_ity t z then Some z else None.
Definition int_add (t : ity) (a b : Z) : option Z := int_try t (a + b).
Definition int_sub (t : ity) (a b : Z) : option Z := int_try t (a - b).
Definition int_mul (t : ity) (a b : Z) : option Z := int_try t (a * b).
(** [checked_div] and [checked_rem]: truncated division. *)
Definition int_div (t : ity) (a b : Z) : option Z :=
  if b =? 0 then None else int_try t (Z.quot a b).
Definition int_rem (t : ity) (a b : Z) : option Z :=
  if b =? 0 then None
  else if in_ity t (Z.quot a b) then Some (Z.rem a b) else None.
Definition int_saturating_add (t : ity) (a b : Z) : Z :=
  Z.max (ity_min t) (Z.min (ity_max t) (a + b)).
Definition int_saturating_sub (t : ity) (a b : Z) : Z :=
  Z.max (ity_min t) (Z.min (ity_max t) (a - b)).
Definition int_saturating_mul (t : ity) (a b : Z) : Z :=
  Z.max (ity_min t) (Z.min (ity_max t) (a * b)).

Lemma in_ity_true t z : in_ity t z = true <-> ity_wf t z.
Proof. unfold in_ity, ity_wf. rewrite andb_true_iff, !Z.leb_le. reflexivity. Qed.

Lemma in_ity_false t z : in_ity t z = false <-> ~ ity_wf t z.
Proof. rewrite <- in_ity_true. destruct (in_ity t z); split; congruence. Qed.

Lemma int_try_Some t z r : int_try t z = Some r <-> r = z /\ ity_wf t z.
Proof.
  unfold int_try. rewrite <- in_ity_true.
  destruct (in_ity t z); split; intros; destruct_and?; split_and?; congruence.
Qed.

Lemma int_try_wf t z : ity_wf t z -> int_try t z = Some z.
Proof. intros H. apply int_try_Some. auto. Qed.

Lemma int_try_None t z : int_try t z = None <-> ~ ity_wf t z.
Proof.
  unfold int_try. rewrite <- in_ity_true. destruct (in_ity t z); split; congruence.
Qed.

#[export] Hint Resolve int_try_wf : rust.

(** ** Lists *)

Section list_lemmas.
Context {A : Type}.

(** The length of a [Vec] or slice as a [usize]. *)
Definition zlen (l : list A) : Z := Z.of_nat (length l).

Lemma zlen_nonneg l : 0 <= zlen l.
Proof. unfold zlen. lia. Qed.

Lemma zlen_app l k : zlen (l ++ k) = zlen l + zlen k.
Proof. unfold zlen. rewrite length_app. lia. Qed.

Lemma zlen_cons a l : zlen (a :: l) = 1 + zlen l.
Proof. unfold zlen. cbn [length]. lia. Qed.

Lemma zlen_nil : zlen (@nil A) = 0.
Proof. reflexivity. Qed.

Definition is_empty (l : list A) : bool := match l with [] => true | _ => false end.

Lemma existsb_negb (f : A -> bool) l : forallb f l = true -> existsb (fun x => negb (f x)) l = false.
Proof.
  induction l as [|x l IH]; cbn; [done|]. intros [-> F]%andb_true_iff. cbn. auto.
Qed.

Lemma is_empty_true l : is_empty l = true <-> l = [].
Proof. destruct l; split; cbn; congruence. Qed.
End list_lemmas.

#[export] Hint Rewrite @zlen_app @zlen_cons @zlen_nil : rust.
