(* ===== verification/Ordering.v ===== *)
(** * Orders: Rust's [Ord] as a type class with its laws

    [BTreeMap], [BTreeSet] and [sort] only see their keys through [Ord::cmp].
    The class [Ord] is that interface and [OrdLaws] what an implementation
    promises; the map theory of [BTreeMap] is proved against [OrdLaws], and
    [Decimal] discharges it for prices. [LeibnizOrd] marks the keys whose
    order only identifies equal values. *)

From S2P Require Import Prelude.
From Stdlib Require Import Strings.Byte Strings.String.

Class Ord (A : Type) := cmp : A -> A -> comparison.

Class OrdLaws (A : Type) `{Ord A} : Prop := {
  cmp_antisym : forall x y, cmp y x = CompOpp (cmp x y);
  cmp_trans : forall x y z, cmp x y = Lt -> cmp y z = Lt -> cmp x z = Lt;
  cmp_eq_l : forall x y z, cmp x y = Eq -> cmp x z = cmp y z;
}.

Class LeibnizOrd (A : Type) `{Ord A} : Prop :=
  cmp_eq_leibniz : forall x y, cmp x y = Eq -> x = y.

(** The comparison operators of [PartialOrd]. *)
Definition ltb {A} `{Ord A} (x y : A) : bool :=
  match cmp x y with Lt => true | _ => false end.
Definition leb {A} `{Ord A} (x y : A) : bool :=
  match cmp x y with Gt => false | _ => true end.
Definition eqb {A} `{Ord A} (x y : A) : bool :=
  match cmp x y with Eq => true | _ => false end.

Section ord_laws.
Context {A : Type} `{OrdLaws A}.

Lemma cmp_refl x : cmp x x = Eq.
Proof. pose proof (cmp_antisym x x). destruct (cmp x x); cbn in *; congruence. Qed.

Lemma cmp_eq_r x y z : cmp x y = Eq -> cmp z x = cmp z y.
Proof.
  intros E. rewrite (cmp_antisym x z), (cmp_antisym y z). f_equal. by apply cmp_eq_l.
Qed.

Lemma cmp_eq_sym x y : cmp x y = Eq -> cmp y x = Eq.
Proof. intros E. rewrite (cmp_antisym x y), E. reflexivity. Qed.

Lemma cmp_gt_lt x y : cmp x y = Gt <-> cmp y x = Lt.
Proof. rewrite (cmp_antisym x y). destruct (cmp x y); cbn; split; congruence. Qed.

Lemma cmp_lt_gt x y : cmp x y = Lt <-> cmp y x = Gt.
Proof. rewrite (cmp_antisym x y). destruct (cmp x y); cbn; split; congruence. Qed.

Lemma cmp_trans_gt x y z : cmp x y = Gt -> cmp y z = Gt -> cmp x z = Gt.
Proof. rewrite !cmp_gt_lt. intros. by eapply cmp_trans. Qed.

Lemma leb_total x y : leb x y = false -> leb y x = true.
Proof. unfold leb. rewrite (cmp_antisym x y). by destruct (cmp x y). Qed.

Lemma leb_trans x y z : leb x y = true -> leb y z = true -> leb x z = true.
Proof.
  unfold leb. destruct (cmp x y) eqn:Exy, (cmp y z) eqn:Eyz; try discriminate; intros _ _.
  - by rewrite (cmp_eq_l _ _ z Exy), Eyz.
  - by rewrite (cmp_eq_l _ _ z Exy), Eyz.
  - by rewrite <- (cmp_eq_r _ _ x Eyz), Exy.
  - by rewrite (cmp_trans _ _ _ Exy Eyz).
Qed.

Lemma leb_lt_trans x y z : leb x y = true -> cmp y z = Lt -> cmp x z = Lt.
Proof.
  unfold leb. destruct (cmp x y) eqn:E; try discriminate; intros _ L.
  - by rewrite (cmp_eq_l _ _ z E).
  - by eapply cmp_trans.
Qed.

Lemma lt_leb_trans x y z : cmp x y = Lt -> leb y z = true -> cmp x z = Lt.
Proof.
  unfold leb. destruct (cmp y z) eqn:E; try discriminate; intros L _.
  - by rewrite <- (cmp_eq_r _ _ x E).
  - by eapply cmp_trans.
Qed.
End ord_laws.

Section leibniz.
Context {A : Type} `{OrdLaws A} `{!LeibnizOrd A} `{EqDecision A}.

Lemma cmp_eq_iff x y : cmp x y = Eq <-> x = y.
Proof. split; [apply cmp_eq_leibniz | intros ->; apply cmp_refl]. Qed.

Lemma leb_antisym x y : leb x y = true -> leb y x = true -> x = y.
Proof.
  unfold leb. intros L1 L2. apply cmp_eq_iff. destruct (cmp x y) eqn:C; [done| |done].
  apply cmp_lt_gt in C. by rewrite C in L2.
Qed.

Lemma eqb_decide x y : eqb x y = bool_decide (x = y).
Proof.
  unfold eqb. destruct (cmp x y) eqn:E; symmetry.
  - apply cmp_eq_iff in E. by apply bool_decide_eq_true.
  - apply bool_decide_eq_false. intros ->. by rewrite cmp_refl in E.
  - apply bool_decide_eq_false. intros ->. by rewrite cmp_refl in E.
Qed.
End leibniz.

(** ** Instances *)

#[global] Instance Z_Ord : Ord Z := Z.compare.
#[global] Instance Z_OrdLaws : OrdLaws Z.
Proof.
  split; unfold cmp, Z_Ord.
  - intros x y. apply Z.compare_antisym.
  - intros x y z. rewrite !Z.compare_lt_iff. lia.
  - intros x y z E%Z.compare_eq_iff. by subst.
Qed.
#[global] Instance Z_LeibnizOrd : LeibnizOrd Z.
Proof. intros x y. apply Z.compare_eq_iff. Qed.

#[global] Instance N_Ord : Ord N := N.compare.
#[global] Instance N_OrdLaws : OrdLaws N.
Proof.
  split; unfold cmp, N_Ord.
  - intros x y. apply N.compare_antisym.
  - intros x y z. rewrite !N.compare_lt_iff. lia.
  - intros x y z E%N.compare_eq_iff. by subst.
Qed.
#[global] Instance N_LeibnizOrd : LeibnizOrd N.
Proof. intros x y. apply N.compare_eq_iff. Qed.

(** An order pulled back along a function. *)
Section pull.
Context {A B : Type} `{OrdLaws B} (f : A -> B).

Definition pull_cmp (x y : A) : comparison := cmp (f x) (f y).

Lemma pull_OrdLaws : @OrdLaws A pull_cmp.
Proof.
  split; unfold cmp, pull_cmp; intros.
  - apply cmp_antisym.
  - by eapply cmp_trans.
  - by apply cmp_eq_l.
Qed.

Lemma pull_LeibnizOrd `{!LeibnizOrd B} `{!Inj (=) (=) f} : @LeibnizOrd A pull_cmp.
Proof. intros x y E. apply (inj f). by apply cmp_eq_leibniz. Qed.
End pull.

#[global] Instance byte_Ord : Ord byte := pull_cmp Byte.to_N.
#[global] Instance byte_OrdLaws : OrdLaws byte := pull_OrdLaws Byte.to_N.
#[global] Instance byte_to_N_inj : Inj (=) (=) Byte.to_N.
Proof.
  intros x y E. assert (Some x = Some y) as [= ->]; [|done].
  by rewrite <- !Byte.of_to_N, E.
Qed.
#[global] Instance byte_LeibnizOrd : LeibnizOrd byte := pull_LeibnizOrd Byte.to_N.

(** Pairs compare lexicographically, as Rust tuples and derived structs do. *)
#[global] Instance prod_Ord {A B} `{Ord A} `{Ord B} : Ord (A * B) :=
  fun p q => match cmp p.1 q.1 with Eq => cmp p.2 q.2 | c => c end.

Section prod.
Context {A B : Type} `{OrdLaws A} `{OrdLaws B}.

#[global] Instance prod_OrdLaws : OrdLaws (A * B).
Proof.
  split; unfold cmp, prod_Ord; intros [a1 b1] [a2 b2]; cbn.
  - rewrite (cmp_antisym a1 a2). destruct (cmp a1 a2); cbn; [apply cmp_antisym|done..].
  - intros [a3 b3]; cbn. destruct (cmp a1 a2) eqn:E1; [| |discriminate].
    + rewrite (cmp_eq_l _ _ a3 E1). destruct (cmp a2 a3); [|done..]. by apply cmp_trans.
    + intros _. destruct (cmp a2 a3) eqn:E2; intros E3; [| |discriminate].
      * by rewrite <- (cmp_eq_r _ _ a1 E2), E1.
      * by rewrite (cmp_trans _ _ _ E1 E2).
  - intros [a3 b3]; cbn. destruct (cmp a1 a2) eqn:E1; [|discriminate..]. intros E2.
    rewrite (cmp_eq_l _ _ a3 E1). destruct (cmp a2 a3); [|done..]. by apply cmp_eq_l.
Qed.

#[global] Instance prod_LeibnizOrd `{!LeibnizOrd A} `{!LeibnizOrd B} : LeibnizOrd (A * B).
Proof.
  intros [a1 b1] [a2 b2]; unfold cmp, prod_Ord; cbn.
  destruct (cmp a1 a2) eqn:E1; [|discriminate..]. intros E2.
  f_equal; by apply cmp_eq_leibniz.
Qed.
End prod.

Lemma cmp_pair_Eq {A B} `{Ord A} `{Ord B} (p q : A * B) :
  cmp p q = Eq <-> cmp p.1 q.1 = Eq /\ cmp p.2 q.2 = Eq.
Proof.
  unfold cmp at 1, prod_Ord. destruct (cmp p.1 q.1); split; try tauto; try discriminate;
    intros [? _]; discriminate.
Qed.

Lemma leb_pair_fst {A B} `{Ord A} `{Ord B} (p q : A * B) :
  leb p q = true -> leb p.1 q.1 = true.
Proof. unfold leb. unfold cmp at 1, prod_Ord. by destruct (cmp p.1 q.1). Qed.

(** [std::cmp::Reverse]. *)
Record Reverse (A : Type) := mkReverse { reversed : A }.
Arguments mkReverse {A} _.
Arguments reversed {A} _.
#[global] Instance Reverse_Ord {A} `{Ord A} : Ord (Reverse A) :=
  fun x y => cmp (reversed y) (reversed x).
#[global] Instance Reverse_OrdLaws {A} `{OrdLaws A} : OrdLaws (Reverse A).
Proof.
  split; unfold cmp, Reverse_Ord; intros.
  - apply cmp_antisym.
  - by eapply cmp_trans.
  - by apply cmp_eq_r, cmp_eq_sym.
Qed.

(** Slices and strings compare lexicographically, element by element. *)
Fixpoint list_cmp {A} `{Ord A} (l k : list A) : comparison :=
  match l, k with
  | [], [] => Eq
  | [], _ :: _ => Lt
  | _ :: _, [] => Gt
  | x :: l, y :: k => match cmp x y with Eq => list_cmp l k | c => c end
  end.
#[global] Instance list_Ord {A} `{Ord A} : Ord (list A) := list_cmp.

Section list_ord.
Context {A : Type} `{OrdLaws A}.

#[global] Instance list_OrdLaws : OrdLaws (list A).
Proof.
  split; unfold cmp, list_Ord.
  - induction x as [|a l IH]; intros [|b k]; cbn; try done.
    rewrite (cmp_antisym a b). destruct (cmp a b); cbn; [apply IH|done..].
  - induction x as [|a l IH]; intros [|b k] [|c m]; cbn; try done.
    destruct (cmp a b) eqn:E1; [| |discriminate].
    + rewrite (cmp_eq_l _ _ c E1). destruct (cmp b c); [|done..]. apply IH.
    + intros _. destruct (cmp b c) eqn:E2; intros E3; [| |discriminate].
      * by rewrite <- (cmp_eq_r _ _ a E2), E1.
      * by rewrite (cmp_trans _ _ _ E1 E2).
  - induction x as [|a l IH]; intros [|b k] [|c m]; cbn; try done.
    destruct (cmp a b) eqn:E1; [|discriminate..]. intros E2.
    rewrite (cmp_eq_l _ _ c E1). destruct (cmp b c); [|done..]. by apply IH.
Qed.

#[global] Instance list_LeibnizOrd `{!LeibnizOrd A} : LeibnizOrd (list A).
Proof.
  unfold LeibnizOrd, cmp, list_Ord. induction x as [|a l IH]; intros [|b k]; cbn; try done.
  destruct (cmp a b) eqn:E1; [|discriminate..]. intros E2.
  f_equal; [by apply cmp_eq_leibniz | by apply IH].
Qed.
End list_ord.

(** Rust's [str] compares as its UTF-8 bytes; a Rocq [string] is the byte
    sequence. *)
#[global] Instance string_Ord : Ord string := pull_cmp String.list_byte_of_string.
#[global] Instance list_byte_of_string_inj : Inj (=) (=) String.list_byte_of_string.
Proof.
  intros x y E. rewrite <- (String.string_of_list_byte_of_string x).
  by rewrite E, String.string_of_list_byte_of_string.
Qed.
#[global] Instance string_OrdLaws : OrdLaws string := pull_OrdLaws String.list_byte_of_string.
#[global] Instance string_LeibnizOrd : LeibnizOrd string :=
  pull_LeibnizOrd String.list_byte_of_string.
