(* ===== verification/Sorting.v ===== *)
(** * Sorting: [slice::sort]

    The standard library's sort is stable; its result is determined by that,
    so insertion is as good a definition as any. *)

From Stdlib Require Import Sorting.Sorted.
From stdpp Require Import sorting.
From S2P Require Import Prelude Ordering.

Section sort.
Context {A : Type} `{Ord A}.

(** Behind the elements that compare equal. *)
Fixpoint sort_insert (x : A) (l : list A) : list A :=
  match l with
  | [] => [x]
  | y :: l' => if ltb x y then x :: l else y :: sort_insert x l'
  end.

Definition sort (l : list A) : list A := fold_left (fun acc x => sort_insert x acc) l [].
End sort.

(** [Vec::dedup]: of equal neighbours one stays. *)
Fixpoint dedup {A} `{EqDecision A} (l : list A) : list A :=
  match l with
  | [] => []
  | x :: l' =>
      match l' with
      | y :: _ => if bool_decide (x = y) then dedup l' else x :: dedup l'
      | [] => [x]
      end
  end.
Lemma elem_of_dedup {A} `{EqDecision A} (x : A) l : x ∈ dedup l <-> x ∈ l.
Proof.
  induction l as [|y l IH]; [done|]. destruct l as [|z l]; [done|]. cbn [dedup].
  case_bool_decide as E; rewrite ?elem_of_cons, ?IH, ?elem_of_cons; [subst|]; tauto.
Qed.

Section theory.
Context {A : Type} `{OrdLaws A}.
Implicit Types (x y : A) (l k : list A).

Definition sorted l : Prop := StronglySorted (fun x y => leb x y = true) l.

Lemma sort_insert_perm x l : sort_insert x l ≡ₚ x :: l.
Proof.
  induction l as [|y l IH]; cbn; [done|]. destruct (ltb x y); [done|]. rewrite IH. constructor.
Qed.

Lemma ltb_leb x y : ltb x y = true -> leb x y = true.
Proof. unfold ltb, leb. by destruct (cmp x y). Qed.

Lemma ltb_false x y : ltb x y = false -> leb y x = true.
Proof. unfold ltb, leb. rewrite (cmp_antisym x y). by destruct (cmp x y). Qed.

Lemma sort_insert_sorted x l : sorted l -> sorted (sort_insert x l).
Proof.
  induction 1 as [|y l S IH F]; cbn; [by repeat constructor|].
  destruct (ltb x y) eqn:L.
  - apply ltb_leb in L. constructor; [by constructor|]. constructor; [done|].
    eapply Forall_impl; [exact F|]. intros z. by apply leb_trans.
  - apply ltb_false in L. constructor; [done|]. rewrite sort_insert_perm. by constructor.
Qed.

Lemma sort_from_perm l k : fold_left (fun acc x => sort_insert x acc) l k ≡ₚ k ++ l.
Proof.
  revert k. induction l as [|x l IH]; intros k; cbn; [by rewrite app_nil_r|].
  rewrite IH, sort_insert_perm. by rewrite <- Permutation_middle.
Qed.

Lemma sort_perm l : sort l ≡ₚ l.
Proof. apply sort_from_perm. Qed.

Lemma sort_sorted l : sorted (sort l).
Proof.
  unfold sort. assert (sorted ([] : list A)) as S by constructor. revert S.
  generalize ([] : list A). induction l as [|x l IH]; intros k S; cbn; [done|].
  by apply IH, sort_insert_sorted.
Qed.

Lemma sort_length l : length (sort l) = length l.
Proof. by rewrite sort_perm. Qed.

Lemma elem_of_sort x l : x ∈ sort l <-> x ∈ l.
Proof. by rewrite sort_perm. Qed.

(** The elements before an index are not greater, those after not smaller. *)
Lemma sorted_lookup l i j x y :
  sorted l -> l !! i = Some x -> l !! j = Some y -> (i <= j)%nat -> leb x y = true.
Proof.
  intros S. revert i j. induction S as [|z l S IH F]; intros i j Gi Gj L; [done|].
  destruct i as [|i], j as [|j]; cbn in *.
  - injection Gi as <-. injection Gj as <-. unfold leb. by rewrite cmp_refl.
  - injection Gi as <-. rewrite Forall_forall in F. by eapply F, list_elem_of_lookup_2.
  - lia.
  - eapply IH; [done|done|lia].
Qed.


(** Rank: how many elements are not greater, and not smaller, than [v]. *)
Definition at_most v l : nat := length (filter (fun x => leb x v = true) l).
Definition at_least v l : nat := length (filter (fun x => leb v x = true) l).

Lemma length_filter_all (P : A -> Prop) `{forall x, Decision (P x)} l : Forall P l -> length (filter P l) = length l.
Proof. induction 1 as [|x l Px F IH]; [done|]. rewrite filter_cons_True by done. cbn. by rewrite IH. Qed.

Lemma sorted_rank l i v : sorted l -> l !! i = Some v ->
  (S i <= at_most v l)%nat /\ (length l - i <= at_least v l)%nat.
Proof.
  intros So G. pose proof (lookup_lt_Some _ _ _ G) as B. split.
  - unfold at_most. rewrite <- (take_drop (S i) l), filter_app, length_app, length_filter_all.
    + rewrite length_take. lia.
    + apply Forall_lookup. intros j x [Gj L]%lookup_take_Some. eapply sorted_lookup; [done..|lia].
  - unfold at_least. rewrite <- (take_drop i l) at 2. rewrite filter_app, length_app.
    rewrite (length_filter_all _ (drop i l)).
    + rewrite length_drop. lia.
    + apply Forall_lookup. intros j x Gj. rewrite lookup_drop in Gj. eapply sorted_lookup; [done..|lia].
Qed.

Lemma at_most_sort v l : at_most v (sort l) = at_most v l.
Proof. unfold at_most. by rewrite sort_perm. Qed.
Lemma at_least_sort v l : at_least v (sort l) = at_least v l.
Proof. unfold at_least. by rewrite sort_perm. Qed.

(** The last element of a sorted list is a greatest one. *)
Lemma sorted_last l v x : sorted l -> last l = Some v -> x ∈ l -> leb x v = true.
Proof.
  intros S L [i G]%list_elem_of_lookup. rewrite last_lookup in L.
  pose proof (lookup_lt_Some _ _ _ G). eapply sorted_lookup; [done..|lia].
Qed.
End theory.

(** ** Strongly sorted lists *)

Lemma StronglySorted_filter {A} (R : A -> A -> Prop) (P : A -> Prop) `{forall x, Decision (P x)} l :
  StronglySorted R l -> StronglySorted R (filter P l).
Proof.
  induction 1 as [|x l S IH F]; [constructor|]. rewrite filter_cons. destruct (decide (P x)); [|done].
  constructor; [done|]. rewrite Forall_forall in *. intros y [_ I]%list_elem_of_filter. by apply F.
Qed.

Lemma StronglySorted_seqZ a n : StronglySorted Z.lt (seqZ a n).
Proof.
  destruct (Z.le_gt_cases n 0) as [L|L]; [rewrite seqZ_nil by done; constructor|].
  assert (exists k, n = Z.of_nat k) as [k ->] by (exists (Z.to_nat n); lia). clear L.
  induction k as [|k IH]; [constructor|]. rewrite seqZ_S. apply StronglySorted_app_2; [|done|by repeat constructor].
  intros x y X%elem_of_seqZ ->%list_elem_of_singleton. lia.
Qed.

Lemma filter_agree {A} (P Q : A -> Prop) `{forall x, Decision (P x)} `{forall x, Decision (Q x)} (l : list A) :
  (forall x, x ∈ l -> P x <-> Q x) -> filter P l = filter Q l.
Proof.
  induction l as [|x l IH]; intros E; [done|]. rewrite !filter_cons, IH by (intros; apply E; by right).
  pose proof (E x (list_elem_of_here x l)). destruct (decide (P x)), (decide (Q x)); naive_solver.
Qed.

Lemma filter_empty {A} (P : A -> Prop) `{forall x, Decision (P x)} (l : list A) :
  (forall x, x ∈ l -> ~ P x) -> filter P l = [].
Proof.
  induction l as [|x l IH]; intros N; [done|]. rewrite filter_cons_False by (apply N; by left). apply IH.
  intros y I. apply N. by right.
Qed.

Lemma Forall_filter {A} (P Q : A -> Prop) `{forall x, Decision (P x)} (l : list A) : Forall Q l -> Forall Q (filter P l).
Proof. rewrite !Forall_forall. intros F x [_ I]%list_elem_of_filter. by apply F. Qed.
