(* ===== verification/BTreeMap.v ===== *)
(** * [BTreeMap]: the standard library's ordered map

    A [BTreeMap<K, V>] is modelled by its iteration sequence: the list of its
    entries in strictly increasing key order ([bt_sorted]). Keys are compared
    with [Ord::cmp] only, and, as in Rust, inserting under a key that compares
    equal to a stored one replaces the value and keeps the stored key. Every
    component that keeps an ordered map uses these operations and lemmas. *)

From Stdlib Require Import Sorting.Sorted.
From stdpp Require Import sorting.
From S2P Require Import Prelude Ordering.

Definition btmap (K V : Type) : Type := list (K * V).

Section operations.
Context {K V : Type} `{Ord K}.

Fixpoint bt_get (k : K) (m : btmap K V) : option V :=
  match m with
  | [] => None
  | (k', v') :: m => match cmp k k' with Eq => Some v' | _ => bt_get k m end
  end.

Fixpoint bt_insert (k : K) (v : V) (m : btmap K V) : btmap K V :=
  match m with
  | [] => [(k, v)]
  | (k', v') :: m' =>
      match cmp k k' with
      | Lt => (k, v) :: m
      | Eq => (k', v) :: m'
      | Gt => (k', v') :: bt_insert k v m'
      end
  end.

Fixpoint bt_remove (k : K) (m : btmap K V) : btmap K V :=
  match m with
  | [] => []
  | (k', v') :: m' =>
      match cmp k k' with
      | Lt => m
      | Eq => m'
      | Gt => (k', v') :: bt_remove k m'
      end
  end.

(** [get_mut] followed by an assignment through the reference. *)
Fixpoint bt_set (k : K) (v : V) (m : btmap K V) : btmap K V :=
  match m with
  | [] => []
  | (k', v') :: m' =>
      match cmp k k' with Eq => (k', v) :: m' | _ => (k', v') :: bt_set k v m' end
  end.

Definition bt_contains (k : K) (m : btmap K V) : bool :=
  match bt_get k m with Some _ => true | None => false end.
Definition bt_keys (m : btmap K V) : list K := m.*1.
Definition bt_values (m : btmap K V) : list V := m.*2.
Definition bt_len (m : btmap K V) : Z := zlen m.
(** [keys().next()] *)
Definition bt_first_key (m : btmap K V) : option K := head (bt_keys m).
(** [Extend]/[FromIterator]: later entries win. *)
Definition bt_extend (m : btmap K V) (l : list (K * V)) : btmap K V :=
  fold_left (fun m p => bt_insert p.1 p.2 m) l m.

Definition bt_lt (p q : K * V) : Prop := cmp p.1 q.1 = Lt.
Definition bt_sorted (m : btmap K V) : Prop := StronglySorted bt_lt m.
End operations.

Section theory.
Context {K V : Type} `{OrdLaws K}.
Implicit Types (m : btmap K V) (k : K) (v : V).

Lemma bt_sorted_nil : bt_sorted (@nil (K * V)).
Proof. constructor. Qed.

Lemma bt_sorted_inv p m : bt_sorted (p :: m) -> bt_sorted m /\ Forall (bt_lt p) m.
Proof. intros S. by apply StronglySorted_inv in S. Qed.

Lemma bt_get_cmp k k' m : cmp k k' = Eq -> bt_get k m = bt_get k' m.
Proof.
  intros E. induction m as [|[k1 v1] m IH]; cbn; [done|].
  by rewrite (cmp_eq_l _ _ k1 E), IH.
Qed.

Lemma bt_get_lt p m : bt_sorted (p :: m) -> forall k, cmp k p.1 <> Gt -> bt_get k m = None.
Proof.
  intros [_ F]%bt_sorted_inv k Hk. induction F as [|[k1 v1] m L F IH]; cbn; [done|].
  unfold bt_lt in L; cbn in L. destruct (cmp k p.1) eqn:E.
  - by rewrite (cmp_eq_l _ _ k1 E), L.
  - by rewrite (cmp_trans _ _ _ E L).
  - done.
Qed.

Lemma bt_insert_Forall (P : K * V -> Prop) k v m :
  P (k, v) -> (forall k', cmp k k' = Eq -> P (k', v)) ->
  Forall P m -> Forall P (bt_insert k v m).
Proof.
  intros Pk Pe F. induction F as [|[k1 v1] m L F IH]; cbn; [by constructor|].
  destruct (cmp k k1) eqn:E; constructor; auto.
Qed.

Lemma bt_insert_sorted k v m : bt_sorted m -> bt_sorted (bt_insert k v m).
Proof.
  induction m as [|[k1 v1] m IH]; cbn; [repeat constructor|]. intros S.
  destruct (bt_sorted_inv _ _ S) as [S' F]. destruct (cmp k k1) eqn:E.
  - by constructor.
  - constructor; [done|]. constructor; [done|].
    eapply Forall_impl; [exact F|]. intros q L. by eapply cmp_trans.
  - constructor; [by apply IH|]. apply cmp_gt_lt in E.
    apply bt_insert_Forall; [done| |done].
    intros k' E'. unfold bt_lt; cbn. by rewrite <- (cmp_eq_r _ _ k1 E').
Qed.

Lemma bt_remove_Forall (P : K * V -> Prop) k m : Forall P m -> Forall P (bt_remove k m).
Proof.
  intros F. induction F as [|[k1 v1] m L F IH]; cbn; [by constructor|].
  destruct (cmp k k1); auto.
Qed.

Lemma bt_remove_sorted k m : bt_sorted m -> bt_sorted (bt_remove k m).
Proof.
  induction m as [|[k1 v1] m IH]; cbn; [done|]. intros S.
  destruct (bt_sorted_inv _ _ S) as [S' F]. destruct (cmp k k1); [done..|].
  constructor; [by apply IH | by apply bt_remove_Forall].
Qed.

Lemma bt_set_keys k v m : bt_keys (bt_set k v m) = bt_keys m.
Proof.
  unfold bt_keys. induction m as [|[k1 v1] m IH]; cbn; [done|].
  destruct (cmp k k1); cbn; congruence.
Qed.

Lemma bt_sorted_keys m :
  bt_sorted m <-> StronglySorted (fun k1 k2 => cmp k1 k2 = Lt) (bt_keys m).
Proof.
  unfold bt_sorted, bt_keys. induction m as [|p m IH]; cbn.
  - split; constructor.
  - split; intros [S F]%StronglySorted_inv; constructor; try (by apply IH).
    + by rewrite Forall_fmap.
    + by rewrite Forall_fmap in F.
Qed.

Lemma bt_set_sorted k v m : bt_sorted m -> bt_sorted (bt_set k v m).
Proof. by rewrite !bt_sorted_keys, bt_set_keys. Qed.

Lemma bt_set_Forall (P : K * V -> Prop) k v m :
  (forall k' v', (k', v') ∈ m -> cmp k k' = Eq -> P (k', v)) ->
  Forall P m -> Forall P (bt_set k v m).
Proof.
  intros Pe F. induction F as [|[k1 v1] m L F IH]; cbn; [by constructor|].
  assert (forall k' v', (k', v') ∈ m -> cmp k k' = Eq -> P (k', v)) as Pe'
    by (intros k' v' I; apply (Pe k' v'); by right).
  destruct (cmp k k1) eqn:E; constructor; auto. apply (Pe k1 v1); [left|done].
Qed.

(** *** Lookups *)

Lemma bt_get_insert j k v m :
  bt_get j (bt_insert k v m) = if eqb j k then Some v else bt_get j m.
Proof.
  unfold eqb. induction m as [|[k1 v1] m IH]; cbn.
  - by destruct (cmp j k).
  - destruct (cmp k k1) eqn:E; cbn.
    + rewrite (cmp_eq_r _ _ j E). by destruct (cmp j k1).
    + by destruct (cmp j k).
    + rewrite IH. destruct (cmp j k1) eqn:E1; try done.
      apply cmp_eq_sym in E1. destruct (cmp j k) eqn:E2; try done.
      apply cmp_eq_sym in E2. by rewrite (cmp_eq_r _ _ k E1), E2 in E.
Qed.

Lemma bt_get_insert_eq k v m : bt_get k (bt_insert k v m) = Some v.
Proof. rewrite bt_get_insert. unfold eqb. by rewrite cmp_refl. Qed.

Lemma bt_get_insert_ne j k v m : cmp j k <> Eq -> bt_get j (bt_insert k v m) = bt_get j m.
Proof. intros E. rewrite bt_get_insert. unfold eqb. by destruct (cmp j k). Qed.

Lemma bt_get_remove j k m :
  bt_sorted m -> bt_get j (bt_remove k m) = if eqb j k then None else bt_get j m.
Proof.
  unfold eqb. induction m as [|[k1 v1] m IH]; cbn; intros S; [by destruct (cmp j k)|].
  pose proof (bt_get_lt _ _ S) as L; cbn in L. apply bt_sorted_inv in S as [S _].
  destruct (cmp k k1) eqn:E; cbn.
  - rewrite (cmp_eq_r _ _ j E). destruct (cmp j k1) eqn:E1; try done. apply L. congruence.
  - destruct (cmp j k) eqn:E1; try done. rewrite (cmp_eq_l _ _ k1 E1), E.
    apply L. rewrite (cmp_eq_l _ _ k1 E1). congruence.
  - rewrite (IH S). destruct (cmp j k) eqn:E1; [|done..].
    by rewrite (cmp_eq_l _ _ k1 E1), E.
Qed.

Lemma bt_get_remove_eq k m : bt_sorted m -> bt_get k (bt_remove k m) = None.
Proof. intros S. rewrite bt_get_remove by done. unfold eqb. by rewrite cmp_refl. Qed.

Lemma bt_get_remove_ne j k m :
  bt_sorted m -> cmp j k <> Eq -> bt_get j (bt_remove k m) = bt_get j m.
Proof. intros S E. rewrite bt_get_remove by done. unfold eqb. by destruct (cmp j k). Qed.

Lemma bt_get_set j k v m :
  bt_get j (bt_set k v m) =
    if eqb j k then (match bt_get j m with Some _ => Some v | None => None end)
    else bt_get j m.
Proof.
  unfold eqb. induction m as [|[k1 v1] m IH]; cbn; [by destruct (cmp j k)|].
  destruct (cmp k k1) eqn:E; cbn.
  - rewrite (cmp_eq_r _ _ j E). by destruct (cmp j k1).
  - rewrite IH. destruct (cmp j k1) eqn:E1; [|done..].
    destruct (cmp j k) eqn:E2; try done. rewrite <- (cmp_eq_l _ _ k1 E2) in E. congruence.
  - rewrite IH. destruct (cmp j k1) eqn:E1; [|done..].
    destruct (cmp j k) eqn:E2; try done. rewrite <- (cmp_eq_l _ _ k1 E2) in E. congruence.
Qed.

Lemma bt_get_elem k v m : bt_sorted m -> (k, v) ∈ m -> bt_get k m = Some v.
Proof.
  induction m as [|[k1 v1] m IH]; intros S I; [by apply not_elem_of_nil in I|].
  apply bt_sorted_inv in S as [S F]. apply elem_of_cons in I as [[= -> ->]|I]; cbn.
  - by rewrite cmp_refl.
  - rewrite Forall_forall in F. pose proof (F _ I) as L. unfold bt_lt in L; cbn in L.
    apply cmp_lt_gt in L. rewrite L. by apply IH.
Qed.

Lemma bt_get_Some k v m :
  bt_get k m = Some v -> exists k', cmp k k' = Eq /\ (k', v) ∈ m.
Proof.
  induction m as [|[k1 v1] m IH]; cbn; [done|].
  destruct (cmp k k1) eqn:E; intros G.
  - injection G as ->. exists k1. split; [done|left].
  - destruct (IH G) as (k' & E' & I). exists k'. split; [done|by right].
  - destruct (IH G) as (k' & E' & I). exists k'. split; [done|by right].
Qed.

Lemma bt_get_None k m : bt_get k m = None <-> Forall (fun p => cmp k p.1 <> Eq) m.
Proof.
  induction m as [|[k1 v1] m IH]; cbn; [by split; constructor|].
  rewrite Forall_cons, <- IH. cbn. destruct (cmp k k1); naive_solver.
Qed.

Lemma bt_contains_true k m : bt_contains k m = true <-> is_Some (bt_get k m).
Proof. unfold bt_contains. destruct (bt_get k m); split; naive_solver. Qed.

Lemma bt_contains_false k m : bt_contains k m = false <-> bt_get k m = None.
Proof. unfold bt_contains. by destruct (bt_get k m). Qed.

(** *** Contents up to order *)

Lemma bt_insert_perm k v m : bt_get k m = None -> bt_insert k v m ≡ₚ (k, v) :: m.
Proof.
  induction m as [|[k1 v1] m IH]; cbn; [done|].
  destruct (cmp k k1); intros G; [done|done|]. rewrite (IH G). apply Permutation_swap.
Qed.

Lemma bt_remove_perm k v m :
  bt_sorted m -> bt_get k m = Some v ->
  exists k', cmp k k' = Eq /\ m ≡ₚ (k', v) :: bt_remove k m.
Proof.
  induction m as [|[k1 v1] m IH]; cbn; intros S G; [done|].
  destruct (cmp k k1) eqn:E.
  - injection G as ->. by exists k1.
  - rewrite (bt_get_lt _ _ S) in G by (cbn; congruence). done.
  - apply bt_sorted_inv in S as [S _]. destruct (IH S G) as (k' & E' & P).
    exists k'. split; [done|]. rewrite P at 1. apply Permutation_swap.
Qed.

Lemma bt_elem_remove k j v m :
  bt_sorted m -> (j, v) ∈ bt_remove k m -> (j, v) ∈ m /\ cmp k j <> Eq.
Proof.
  intros S I. split.
  - assert (Forall (fun p => p ∈ m) (bt_remove k m)) as F
      by (apply bt_remove_Forall, Forall_forall; done).
    rewrite Forall_forall in F. by apply F.
  - intros E. apply bt_get_elem in I; [|by apply bt_remove_sorted].
    rewrite <- (bt_get_cmp _ _ _ E), bt_get_remove_eq in I by done. done.
Qed.

Lemma bt_remove_elem k j v m :
  bt_sorted m -> (j, v) ∈ m -> cmp k j <> Eq -> (j, v) ∈ bt_remove k m.
Proof.
  induction m as [|[k1 v1] m IH]; cbn; intros S I D; [done|].
  apply bt_sorted_inv in S as [S F].
  destruct (cmp k k1) eqn:E; [|done|]; apply elem_of_cons in I as [[= -> ->]|I]; try done;
    apply elem_of_cons; auto.
Qed.

Lemma bt_insert_elem k j v x m : (j, x) ∈ bt_insert k v m -> (j, x) ∈ m \/ cmp k j = Eq /\ x = v.
Proof.
  induction m as [|[k1 v1] m IH]; cbn; intros I.
  - apply list_elem_of_singleton in I as [= -> ->]. right. by rewrite cmp_refl.
  - destruct (cmp k k1) eqn:E; apply elem_of_cons in I as [[= -> ->]|I]; rewrite ?elem_of_cons;
      try (by auto).
    + right. by rewrite cmp_refl.
    + left. by apply elem_of_cons in I.
    + destruct (IH I); auto.
Qed.

Lemma bt_insert_keys_mono k j v m : j ∈ bt_keys m -> j ∈ bt_keys (bt_insert k v m).
Proof.
  unfold bt_keys. induction m as [|[k1 v1] m IH]; cbn; intros I; [by apply not_elem_of_nil in I|].
  destruct (cmp k k1); cbn; rewrite ?elem_of_cons in *; tauto.
Qed.

Lemma bt_remove_None k m : bt_get k m = None -> bt_remove k m = m.
Proof.
  induction m as [|[k1 v1] m IH]; cbn; [done|].
  destruct (cmp k k1); intros G; [done|done|]. by rewrite (IH G).
Qed.

Lemma bt_len_insert k v m :
  bt_sorted m ->
  bt_len (bt_insert k v m) = if bt_contains k m then bt_len m else bt_len m + 1.
Proof.
  unfold bt_len, bt_contains. induction m as [|[k1 v1] m IH]; cbn; intros S; [done|].
  pose proof (bt_get_lt _ _ S) as L; cbn in L. apply bt_sorted_inv in S as [S _].
  destruct (cmp k k1) eqn:E; autorewrite with rust.
  - lia.
  - rewrite (L k) by congruence. lia.
  - rewrite (IH S). destruct (bt_get k m); lia.
Qed.

Lemma bt_len_remove k m :
  bt_sorted m ->
  bt_len (bt_remove k m) = if bt_contains k m then bt_len m - 1 else bt_len m.
Proof.
  intros S. unfold bt_contains. destruct (bt_get k m) eqn:G.
  - destruct (bt_remove_perm _ _ _ S G) as (k' & _ & P). unfold bt_len, zlen.
    rewrite (Permutation_length P). cbn [length]. lia.
  - by rewrite bt_remove_None.
Qed.

Lemma bt_len_set k v m : bt_len (bt_set k v m) = bt_len m.
Proof.
  unfold bt_len, zlen. rewrite <- (length_fmap fst (bt_set k v m)), <- (length_fmap fst m).
  f_equal. f_equal. apply bt_set_keys.
Qed.

Lemma bt_extend_sorted l m : bt_sorted m -> bt_sorted (bt_extend m l).
Proof.
  unfold bt_extend. revert m. induction l as [|p l IH]; cbn; intros m S; [done|].
  by apply IH, bt_insert_sorted.
Qed.

(** Inserting above every key appends. *)
Lemma bt_insert_last k v m :
  Forall (fun p => cmp p.1 k = Lt) m -> bt_insert k v m = m ++ [(k, v)].
Proof.
  intros F. induction F as [|[k1 v1] m L F IH]; cbn in *; [done|].
  apply cmp_lt_gt in L. rewrite L. by f_equal.
Qed.

Lemma bt_extend_app m l1 l2 : bt_extend m (l1 ++ l2) = bt_extend (bt_extend m l1) l2.
Proof. apply fold_left_app. Qed.

(** Rebuilding a map from its iteration sequence. *)
Lemma bt_extend_sorted_list m l :
  bt_sorted (m ++ l) -> bt_extend m l = m ++ l.
Proof.
  revert m. induction l as [|[k v] l IH]; intros m S; [by rewrite app_nil_r|].
  change (bt_extend m ((k, v) :: l)) with (bt_extend (bt_insert k v m) l).
  assert (bt_insert k v m = m ++ [(k, v)]) as ->.
  { apply bt_insert_last. clear IH. induction m as [|p m IHm]; [constructor|].
    cbn in S. apply bt_sorted_inv in S as [S F]. constructor; [|by apply IHm].
    rewrite Forall_forall in F. apply (F (k, v)). apply elem_of_app. right. left. }
  rewrite IH; by rewrite <- app_assoc.
Qed.

Lemma bt_ext `{!LeibnizOrd K} m1 m2 :
  bt_sorted m1 -> bt_sorted m2 -> (forall k, bt_get k m1 = bt_get k m2) -> m1 = m2.
Proof.
  revert m2. induction m1 as [|[k1 v1] m1 IH]; intros [|[k2 v2] m2] S1 S2 G; [done|..].
  - specialize (G k2). cbn in G. by rewrite cmp_refl in G.
  - specialize (G k1). cbn in G. by rewrite cmp_refl in G.
  - pose proof (bt_get_lt _ _ S1) as L1. pose proof (bt_get_lt _ _ S2) as L2. cbn in L1, L2.
    assert (k1 = k2) as <-.
    { apply cmp_eq_leibniz. destruct (cmp k1 k2) eqn:E; [done|..]; exfalso.
      - specialize (G k1). cbn in G. rewrite cmp_refl, E, L2 in G by congruence. done.
      - apply cmp_gt_lt in E. specialize (G k2). cbn in G.
        rewrite cmp_refl, E, L1 in G by congruence. done. }
    assert (v1 = v2) as <-.
    { specialize (G k1). cbn in G. rewrite cmp_refl in G. congruence. }
    f_equal. apply IH; [by eapply bt_sorted_inv|by eapply bt_sorted_inv|].
    intros k. specialize (G k). cbn in G. destruct (cmp k k1) eqn:E; [|done..].
    rewrite L1, L2 by congruence. done.
Qed.

(** Removing what was inserted. *)
Lemma bt_remove_insert `{!LeibnizOrd K} k v m :
  bt_sorted m -> bt_get k m = None -> bt_remove k (bt_insert k v m) = m.
Proof.
  intros S N. apply bt_ext; auto using bt_remove_sorted, bt_insert_sorted. intros j.
  destruct (cmp j k) eqn:E; [apply cmp_eq_leibniz in E as ->|..].
  - by rewrite bt_get_remove_eq by auto using bt_insert_sorted.
  - by rewrite bt_get_remove_ne, bt_get_insert_ne by (auto using bt_insert_sorted; congruence).
  - by rewrite bt_get_remove_ne, bt_get_insert_ne by (auto using bt_insert_sorted; congruence).
Qed.

Lemma bt_insert_insert `{!LeibnizOrd K} k v v' m :
  bt_sorted m -> bt_insert k v (bt_insert k v' m) = bt_insert k v m.
Proof.
  intros S. apply bt_ext; auto using bt_insert_sorted. intros j.
  rewrite !bt_get_insert. by destruct (eqb j k).
Qed.

(** Collecting entries with distinct keys. *)
Lemma bt_extend_perm `{!LeibnizOrd K} l m :
  NoDup l.*1 -> (forall k, k ∈ l.*1 -> bt_get k m = None) -> bt_extend m l ≡ₚ l ++ m.
Proof.
  revert m. induction l as [|[k v] l IH]; intros m N F; [done|].
  change (bt_extend m ((k, v) :: l)) with (bt_extend (bt_insert k v m) l).
  rewrite fmap_cons in N, F. apply NoDup_cons in N as [Nk N].
  rewrite IH; [|done|].
  - rewrite bt_insert_perm by (apply F; left). by rewrite <- Permutation_middle.
  - intros j J. rewrite bt_get_insert_ne; [apply F; by right|].
    intros E%cmp_eq_leibniz. subst. done.
Qed.

(** A sorted map is determined by its entries. *)
Lemma bt_sorted_elem_eq m1 m2 :
  bt_sorted m1 -> bt_sorted m2 -> (forall p, p ∈ m1 <-> p ∈ m2) -> m1 = m2.
Proof.
  revert m2. induction m1 as [|p1 m1 IH]; intros [|p2 m2] S1 S2 E; [done|..].
  - exfalso. eapply not_elem_of_nil, (E p2). by left.
  - exfalso. eapply not_elem_of_nil, (E p1). by left.
  - apply bt_sorted_inv in S1 as [S1 F1], S2 as [S2 F2].
    assert (p1 = p2) as ->.
    { destruct (proj1 (elem_of_cons m2 p1 p2)) as [->|I2]; [apply E; by left|done|].
      destruct (proj1 (elem_of_cons m1 p2 p1)) as [->|I1]; [apply E; by left|done|].
      eapply Forall_forall in F1, F2; [|done..]. unfold bt_lt in *.
      pose proof (cmp_trans _ _ _ F1 F2) as T. by rewrite cmp_refl in T. }
    f_equal. apply IH; [done..|]. intros p. specialize (E p). rewrite !elem_of_cons in E.
    split; intros I.
    + destruct (proj1 E (or_intror I)) as [->|]; [|done]. eapply Forall_forall in F1; [|exact I].
      unfold bt_lt in F1. by rewrite cmp_refl in F1.
    + destruct (proj2 E (or_intror I)) as [->|]; [|done]. eapply Forall_forall in F2; [|exact I].
      unfold bt_lt in F2. by rewrite cmp_refl in F2.
Qed.

(** *** Sums over the entries *)

Definition bt_sum (f : K * V -> Z) m : Z := foldr (fun e n => f e + n) 0 m.

Lemma bt_sum_perm f m1 m2 : m1 ≡ₚ m2 -> bt_sum f m1 = bt_sum f m2.
Proof. unfold bt_sum. induction 1; cbn in *; lia. Qed.

Lemma bt_sum_insert f k v m : bt_get k m = None -> bt_sum f (bt_insert k v m) = f (k, v) + bt_sum f m.
Proof. intros G. by rewrite (bt_sum_perm f _ _ (bt_insert_perm k v m G)). Qed.

Lemma bt_sum_set `{!LeibnizOrd K} f k v v' m :
  bt_get k m = Some v -> bt_sum f (bt_set k v' m) = bt_sum f m - f (k, v) + f (k, v').
Proof.
  unfold bt_sum. induction m as [|[k1 v1] m IH]; cbn; [done|]. destruct (cmp k k1) eqn:E.
  - apply cmp_eq_leibniz in E as <-. intros [= ->]. cbn. lia.
  - intros G. cbn. rewrite (IH G). lia.
  - intros G. cbn. rewrite (IH G). lia.
Qed.

Lemma bt_sum_put `{!LeibnizOrd K} f k v m : bt_sorted m ->
  bt_sum f (bt_insert k v m) = bt_sum f m + f (k, v) - from_option (fun v => f (k, v)) 0 (bt_get k m).
Proof.
  intros S. destruct (bt_get k m) as [v0|] eqn:G; cbn; [|rewrite bt_sum_insert by done; lia].
  revert S G. unfold bt_sum. induction m as [|[k1 v1] m IH]; cbn; intros S G; [done|]. destruct (cmp k k1) eqn:E; cbn.
  - apply cmp_eq_leibniz in E as <-. injection G as ->. lia.
  - rewrite (bt_get_lt _ _ S) in G by (cbn; congruence). done.
  - apply bt_sorted_inv in S as [S _]. rewrite (IH S G). lia.
Qed.

Lemma bt_sum_remove `{!LeibnizOrd K} f k m : bt_sorted m ->
  bt_sum f (bt_remove k m) = bt_sum f m - from_option (fun v => f (k, v)) 0 (bt_get k m).
Proof.
  intros S. destruct (bt_get k m) as [v|] eqn:G; cbn; [|rewrite bt_remove_None by done; lia].
  destruct (bt_remove_perm k v m S G) as (k' & E & P). apply cmp_eq_leibniz in E as <-.
  rewrite (bt_sum_perm f _ _ P). unfold bt_sum. cbn. lia.
Qed.

Lemma bt_sum_nonneg f m : (forall e, 0 <= f e) -> 0 <= bt_sum f m.
Proof. intros F. unfold bt_sum. induction m as [|e m IH]; cbn; [done|]. specialize (F e). lia. Qed.

Lemma bt_sorted_snoc m k v :
  bt_sorted (m ++ [(k, v)]) <-> bt_sorted m /\ Forall (fun p => cmp p.1 k = Lt) m.
Proof.
  unfold bt_sorted. rewrite StronglySorted_app. setoid_rewrite list_elem_of_singleton. split.
  - intros (L & S & _). split; [done|]. apply Forall_forall. intros p P. by apply (L p (k, v)).
  - intros [S F]. split_and!; [|done|repeat constructor].
    intros p q P ->. rewrite Forall_forall in F. by apply F.
Qed.

Lemma bt_keys_snoc m k v : bt_keys (m ++ [(k, v)]) = bt_keys m ++ [k].
Proof. unfold bt_keys. by rewrite fmap_app. Qed.

(** The last key of a sorted map is above the others. *)
Lemma bt_last_above m k :
  bt_sorted m -> match last (bt_keys m) with Some j => cmp j k = Lt | None => True end ->
  Forall (fun p => cmp p.1 k = Lt) m.
Proof.
  destruct m as [|[j v] m _] using rev_ind; [done|]. intros [_ F]%bt_sorted_snoc.
  rewrite bt_keys_snoc, last_snoc. intros L.
  apply Forall_app. split; [|by repeat constructor].
  eapply Forall_impl; [exact F|]. cbn. intros p P. by eapply cmp_trans.
Qed.

Lemma bt_sorted_NoDup m : bt_sorted m -> NoDup m.
Proof.
  induction 1 as [|p m S IH F]; constructor; [|done].
  intros I. eapply Forall_forall in F; [|exact I]. unfold bt_lt in F. by rewrite cmp_refl in F.
Qed.

(** The first value a predicate accepts has the smallest key among them. *)
Lemma bt_find_first (f : V -> bool) m v :
  bt_sorted m -> find f (bt_values m) = Some v ->
  f v = true /\ exists k, (k, v) ∈ m /\
    forall k' v', (k', v') ∈ m -> f v' = true -> leb k k' = true.
Proof.
  induction m as [|[k1 v1] m IH]; intros S E; [done|]. cbn in E.
  apply bt_sorted_inv in S as [S F]. destruct (f v1) eqn:E1.
  - injection E as <-. split; [done|]. exists k1. split; [by left|].
    intros k' v' I _. unfold leb. apply elem_of_cons in I as [[= -> ->]|I].
    + by rewrite cmp_refl.
    + eapply Forall_forall in F; [|exact I]. unfold bt_lt in F. cbn in F. by rewrite F.
  - destruct (IH S E) as (Fv & k & I & M). split; [done|]. exists k. split; [by right|].
    intros k' v' I' F'. apply elem_of_cons in I' as [[= -> ->]|I']; [congruence|eauto].
Qed.

Lemma bt_find_none (f : V -> bool) m :
  find f (bt_values m) = None <-> forall k v, (k, v) ∈ m -> f v = false.
Proof.
  induction m as [|[k1 v1] m IH]; cbn.
  - split; [|done]. intros _ k v I. by apply not_elem_of_nil in I.
  - destruct (f v1) eqn:E; [split; [done|]|rewrite IH].
    + intros N. rewrite (N k1 v1) in E; [done|by left].
    + setoid_rewrite elem_of_cons. naive_solver.
Qed.
End theory.

#[export] Hint Resolve bt_sorted_nil bt_insert_sorted bt_remove_sorted bt_set_sorted
  bt_extend_sorted : rust.
