(* ===== verification/Bytes.v ===== *)
(** * Byte strings

    [Vec<u8>] and [&[u8]] as lists of bytes: big-endian integers, the bytes of
    a [str], and length-prefixed frames, with the round trips and injectivity
    the codecs rely on. *)

From Stdlib Require Import Strings.Byte Strings.String.
From S2P Require Import Prelude Ordering.

Definition bytes := list byte.
#[global] Instance byte_eq_dec : EqDecision byte := Byte.byte_eq_dec.

Definition as_bytes (s : string) : bytes := String.list_byte_of_string s.

Lemma as_bytes_inj s t : as_bytes s = as_bytes t -> s = t.
Proof. apply (inj String.list_byte_of_string). Qed.

Lemma as_bytes_app s t : as_bytes (s +:+ t) = as_bytes s ++ as_bytes t.
Proof. unfold as_bytes, String.list_byte_of_string. induction s as [|a s IH]; cbn; [done|]. by rewrite <- IH. Qed.

(** The low byte of an integer, and a byte's value. *)
Definition byte_of_Z (z : Z) : byte :=
  match Byte.of_N (Z.to_N (z mod 256)) with Some b => b | None => x00 end.
Definition Z_of_byte (b : byte) : Z := Z.of_N (Byte.to_N b).

Lemma Z_of_byte_range b : 0 <= Z_of_byte b < 256.
Proof. unfold Z_of_byte. pose proof (Byte.to_N_bounded b). lia. Qed.

Lemma Z_of_byte_of_Z z : Z_of_byte (byte_of_Z z) = z mod 256.
Proof.
  unfold Z_of_byte, byte_of_Z. pose proof (Z.mod_pos_bound z 256 ltac:(lia)) as B.
  destruct (Byte.of_N (Z.to_N (z mod 256))) as [b|] eqn:E.
  - apply Byte.to_of_N in E. rewrite E. lia.
  - apply Byte.of_N_None_iff in E. lia.
Qed.

Lemma byte_of_Z_of_byte b : byte_of_Z (Z_of_byte b) = b.
Proof.
  apply (inj Byte.to_N). pose proof (Z_of_byte_of_Z (Z_of_byte b)) as E.
  rewrite Z.mod_small in E by apply Z_of_byte_range. unfold Z_of_byte in E. by apply N2Z.inj in E.
Qed.

(** [to_be_bytes] of an [n]-byte integer, and its inverse. *)
Fixpoint to_be_bytes (n : nat) (z : Z) : bytes :=
  match n with
  | O => []
  | S n => to_be_bytes n (z / 256) ++ [byte_of_Z z]
  end.

(** [to_le_bytes]; a negative integer is in two's complement. *)
Definition to_le_bytes (n : nat) (z : Z) : bytes := reverse (to_be_bytes n z).

Definition from_be_bytes (l : bytes) : Z :=
  fold_left (fun acc b => 256 * acc + Z_of_byte b) l 0.

Lemma to_be_bytes_length n z : length (to_be_bytes n z) = n.
Proof. revert z. induction n as [|n IH]; intros z; cbn; [done|]. rewrite length_app, IH. cbn. lia. Qed.

Lemma from_be_bytes_snoc l b : from_be_bytes (l ++ [b]) = 256 * from_be_bytes l + Z_of_byte b.
Proof. unfold from_be_bytes. by rewrite fold_left_app. Qed.

Lemma from_to_be_bytes n z : 0 <= z < 256 ^ Z.of_nat n -> from_be_bytes (to_be_bytes n z) = z.
Proof.
  revert z. induction n as [|n IH]; intros z B.
  - cbn in *. lia.
  - cbn [to_be_bytes]. rewrite from_be_bytes_snoc, Z_of_byte_of_Z, IH.
    + pose proof (Z.div_mod z 256 ltac:(lia)). lia.
    + rewrite Nat2Z.inj_succ, Z.pow_succ_r in B by lia.
      split; [apply Z.div_pos; lia|]. apply Z.div_lt_upper_bound; lia.
Qed.

Lemma to_be_bytes_inj n x y :
  0 <= x < 256 ^ Z.of_nat n -> 0 <= y < 256 ^ Z.of_nat n ->
  to_be_bytes n x = to_be_bytes n y -> x = y.
Proof. intros Bx By E. rewrite <- (from_to_be_bytes n x), E by done. by apply from_to_be_bytes. Qed.

Lemma from_be_bytes_bound l : 0 <= from_be_bytes l < 256 ^ Z.of_nat (length l).
Proof.
  induction l as [|b l IH] using rev_ind; [cbn; lia|].
  rewrite from_be_bytes_snoc, length_app. cbn [length]. pose proof (Z_of_byte_range b).
  replace (Z.of_nat (length l + 1)) with (Z.succ (Z.of_nat (length l))) by lia.
  rewrite Z.pow_succ_r by lia. lia.
Qed.

Lemma to_from_be_bytes l : to_be_bytes (length l) (from_be_bytes l) = l.
Proof.
  induction l as [|b l IH] using rev_ind; [done|].
  rewrite length_app, Nat.add_comm. cbn [length Nat.add to_be_bytes].
  rewrite from_be_bytes_snoc. pose proof (Z_of_byte_range b).
  replace ((256 * from_be_bytes l + Z_of_byte b) / 256) with (from_be_bytes l)
    by (apply (Z.div_unique _ _ _ (Z_of_byte b)); lia).
  rewrite IH. f_equal. f_equal. apply (inj Byte.to_N).
  pose proof (Z_of_byte_of_Z (256 * from_be_bytes l + Z_of_byte b)) as E.
  replace ((256 * from_be_bytes l + Z_of_byte b) mod 256) with (Z_of_byte b) in E
    by (apply (Z.mod_unique _ _ (from_be_bytes l)); lia).
  unfold Z_of_byte in E. by apply N2Z.inj in E.
Qed.

(** Splitting a concatenation whose first parts have one length. *)
Lemma app_inj_len {A} (a b c d : list A) :
  length a = length c -> a ++ b = c ++ d -> a = c /\ b = d.
Proof. intros L E. by apply app_inj_1. Qed.

(** A length prefix of [n] bytes, then the bytes. *)
Definition frame (n : nat) (l : bytes) : bytes := to_be_bytes n (zlen l) ++ l.

Lemma frame_inj n a b c d :
  zlen a < 256 ^ Z.of_nat n -> zlen c < 256 ^ Z.of_nat n ->
  frame n a ++ b = frame n c ++ d -> a = c /\ b = d.
Proof.
  intros La Lc E. unfold frame in E. rewrite <- !app_assoc in E.
  apply app_inj_len in E as [E1 E2]; [|by rewrite !to_be_bytes_length].
  apply to_be_bytes_inj in E1; [|pose proof (zlen_nonneg a); lia|pose proof (zlen_nonneg c); lia].
  apply app_inj_len in E2; [done|]. unfold zlen in E1. lia.
Qed.

(** ** Hashing

    [blake3] is a parameter: [Hasher::new_derive_key(context)], updated with
    the bytes and finalized. *)
Definition Hash := bytes.
Class Blake3 := derive_key_hash : string -> bytes -> Hash.
(** [Hasher::new()], without a key. *)
Class PlainBlake3 := blake3_hash : bytes -> Hash.

(** A hash for concrete runs: the context followed by the input. *)
Definition sample_blake3 : Blake3 := fun context l => as_bytes context ++ l.
(** A 32-byte hash for concrete runs. *)
Definition short_blake3 : Blake3 := fun context l => take 32 (reverse l ++ replicate 32 x01).
