(* ===== verification/Digits.v ===== *)
(** * Decimal digits: integer printing and parsing of the standard library

    [print_int] is what [{}] writes for an unsigned integer, [pad_left] the
    [{:0width$}] padding, [digits_value] what [parse::<u128>] and
    [BigInt::parse_bytes] read back from a run of ASCII digits. Strings are
    lists of [ascii], one per byte: every operation used here is bytewise. *)

From S2P Require Import Prelude.
From Stdlib Require Import Strings.Ascii.

Definition chr0 : ascii := "0"%char.

Definition is_ascii_digit (c : ascii) : bool :=
  ((48 <=? N_of_ascii c) && (N_of_ascii c <=? 57))%N.
Definition digit_val (c : ascii) : Z := Z.of_N (N_of_ascii c) - 48.
Definition digit_chr (d : Z) : ascii := ascii_of_N (Z.to_N (d + 48)).

Definition all_digits (l : list ascii) : bool := forallb is_ascii_digit l.

Definition digits_value (l : list ascii) : Z :=
  fold_left (fun acc c => acc * 10 + digit_val c) l 0.

(** Least significant digit first, consed onto the accumulator; the fuel is the
    number of binary digits, at least the number of decimal ones. *)
Fixpoint print_go (fuel : nat) (x : Z) (acc : list ascii) : list ascii :=
  match fuel with
  | O => acc
  | S fuel =>
      let acc := digit_chr (x mod 10) :: acc in
      if x / 10 =? 0 then acc else print_go fuel (x / 10) acc
  end.
Definition print_int (x : Z) : list ascii := print_go (S (Z.to_nat (Z.log2 x))) x [].

Definition pad_left (width : nat) (l : list ascii) : list ascii :=
  replicate (width - length l) chr0 ++ l.

(** The digit strings that print without a leading zero. *)
Definition canonical_digits (l : list ascii) : Prop :=
  l = [chr0] \/ exists c t, l = c :: t /\ c <> chr0.

(** ** Single digits *)

Lemma digit_val_range c : is_ascii_digit c = true -> 0 <= digit_val c <= 9.
Proof.
  unfold is_ascii_digit, digit_val. rewrite andb_true_iff, !N.leb_le. lia.
Qed.

Lemma digit_chr_val c : is_ascii_digit c = true -> digit_chr (digit_val c) = c.
Proof.
  intros D. unfold digit_chr, digit_val.
  replace (Z.to_N (Z.of_N (N_of_ascii c) - 48 + 48)) with (N_of_ascii c) by lia.
  apply ascii_N_embedding.
Qed.

Lemma N_of_digit_chr d : 0 <= d <= 9 -> N_of_ascii (digit_chr d) = Z.to_N (d + 48).
Proof. intros D. apply N_ascii_embedding. lia. Qed.

Lemma digit_val_chr d : 0 <= d <= 9 -> digit_val (digit_chr d) = d.
Proof. intros D. unfold digit_val. rewrite N_of_digit_chr by done. lia. Qed.

Lemma is_digit_chr d : 0 <= d <= 9 -> is_ascii_digit (digit_chr d) = true.
Proof.
  intros D. unfold is_ascii_digit. rewrite N_of_digit_chr by done.
  apply andb_true_iff. rewrite !N.leb_le. lia.
Qed.

Lemma digit_val_inj c d :
  is_ascii_digit c = true -> is_ascii_digit d = true -> digit_val c = digit_val d -> c = d.
Proof. intros C D E. by rewrite <- (digit_chr_val c C), E, digit_chr_val. Qed.

Lemma digit_chr_0 : digit_chr 0 = chr0.
Proof. reflexivity. Qed.

(** ** Digit strings *)

Lemma all_digits_cons c l :
  all_digits (c :: l) = true <-> is_ascii_digit c = true /\ all_digits l = true.
Proof. apply andb_true_iff. Qed.

Lemma all_digits_app l k :
  all_digits (l ++ k) = true <-> all_digits l = true /\ all_digits k = true.
Proof. unfold all_digits. rewrite forallb_app. apply andb_true_iff. Qed.

Lemma all_digits_replicate n : all_digits (replicate n chr0) = true.
Proof. by induction n. Qed.

Lemma pow10_pos n : 0 <= n -> 0 < 10 ^ n.
Proof. intros. by apply Z.pow_pos_nonneg. Qed.

Lemma digits_value_acc l a :
  fold_left (fun acc c => acc * 10 + digit_val c) l a = a * 10 ^ zlen l + digits_value l.
Proof.
  unfold digits_value. revert a. induction l as [|c l IH]; intros a; cbn [fold_left].
  - rewrite zlen_nil. cbn. lia.
  - rewrite IH, (IH (0 * 10 + _)), zlen_cons, Z.pow_add_r by (pose proof (zlen_nonneg l); lia).
    lia.
Qed.

Lemma digits_value_app l k :
  digits_value (l ++ k) = digits_value l * 10 ^ zlen k + digits_value k.
Proof. unfold digits_value. rewrite fold_left_app. apply digits_value_acc. Qed.

Lemma digits_value_cons c l :
  digits_value (c :: l) = digit_val c * 10 ^ zlen l + digits_value l.
Proof. apply (digits_value_app [c] l). Qed.

Lemma digits_value_1 c : digits_value [c] = digit_val c.
Proof. reflexivity. Qed.

Lemma digits_value_snoc l c : digits_value (l ++ [c]) = digits_value l * 10 + digit_val c.
Proof. rewrite digits_value_app, digits_value_1. reflexivity. Qed.

Lemma digits_value_replicate n : digits_value (replicate n chr0) = 0.
Proof. induction n as [|n IH]; [done|]. cbn [replicate]. by rewrite digits_value_cons, IH. Qed.

Lemma digits_value_range l : all_digits l = true -> 0 <= digits_value l < 10 ^ zlen l.
Proof.
  induction l as [|c l IH]; [change (true = true -> 0 <= 0 < 1); lia|]. intros [D Dl]%all_digits_cons.
  rewrite digits_value_cons, zlen_cons, Z.pow_add_r by (pose proof (zlen_nonneg l); lia).
  apply digit_val_range in D. specialize (IH Dl). nia.
Qed.

Lemma digits_value_inj l k :
  all_digits l = true -> all_digits k = true -> length l = length k ->
  digits_value l = digits_value k -> l = k.
Proof.
  revert k. induction l as [|c l IH]; intros [|d k]; try done.
  intros [C Cl]%all_digits_cons [D Dk]%all_digits_cons [= L] E.
  rewrite !digits_value_cons in E.
  assert (zlen l = zlen k) as EL by (unfold zlen; lia). rewrite <- EL in E.
  pose proof (digits_value_range l Cl) as Rl. pose proof (digits_value_range k Dk) as Rk.
  rewrite <- EL in Rk.
  assert (digit_val c = digit_val d) as Ecd by nia.
  f_equal; [by apply digit_val_inj | apply IH; [done..|nia]].
Qed.

Lemma canonical_digits_lower l :
  all_digits l = true -> canonical_digits l -> l <> [chr0] -> 10 ^ (zlen l - 1) <= digits_value l.
Proof.
  intros D [->|(c & t & -> & N)] H; [done|]. apply all_digits_cons in D as [C D].
  rewrite digits_value_cons, zlen_cons. replace (1 + zlen t - 1) with (zlen t) by lia.
  pose proof (digits_value_range t D). pose proof (digit_val_range c C).
  assert (digit_val c <> 0) by (intros E; apply N, digit_val_inj; done). nia.
Qed.

(** A canonical digit string is determined by its value. *)
Lemma canonical_digits_inj l k :
  all_digits l = true -> all_digits k = true -> canonical_digits l -> canonical_digits k ->
  digits_value l = digits_value k -> l = k.
Proof.
  intros Dl Dk Cl Ck E. apply digits_value_inj; [done..| |done].
  pose proof (digits_value_range l Dl). pose proof (digits_value_range k Dk).
  pose proof (zlen_nonneg l). pose proof (zlen_nonneg k).
  destruct (decide (l = [chr0])) as [->|Nl], (decide (k = [chr0])) as [->|Nk]; [done|..].
  - pose proof (canonical_digits_lower k Dk Ck Nk). pose proof (pow10_pos (zlen k - 1)).
    change (digits_value [chr0]) with 0 in *. destruct k; [by destruct Ck as [|(?&?&?&?)]|].
    rewrite zlen_cons in *. pose proof (zlen_nonneg k). lia.
  - pose proof (canonical_digits_lower l Dl Cl Nl). pose proof (pow10_pos (zlen l - 1)).
    change (digits_value [chr0]) with 0 in *. destruct l; [by destruct Cl as [|(?&?&?&?)]|].
    rewrite zlen_cons in *. pose proof (zlen_nonneg l). lia.
  - pose proof (canonical_digits_lower k Dk Ck Nk). pose proof (canonical_digits_lower l Dl Cl Nl).
    assert (zlen l - 1 < zlen k) by (apply (Z.pow_lt_mono_r_iff 10); lia).
    assert (zlen k - 1 < zlen l) by (apply (Z.pow_lt_mono_r_iff 10); lia).
    unfold zlen in *. lia.
Qed.

(** ** Printing *)

Record printed (x : Z) (l : list ascii) : Prop := {
  printed_digits : all_digits l = true;
  printed_value : digits_value l = x;
  printed_canonical : canonical_digits l;
}.

Lemma print_go_app fuel x acc : print_go fuel x acc = print_go fuel x [] ++ acc.
Proof.
  revert x acc. induction fuel as [|fuel IH]; intros x acc; cbn; [done|].
  destruct (x / 10 =? 0); [done|]. rewrite IH, (IH _ [_]), <- app_assoc. done.
Qed.

Lemma print_go_printed fuel x :
  (0 < fuel)%nat -> 0 <= x < 10 ^ Z.of_nat fuel -> printed x (print_go fuel x []).
Proof.
  revert x. induction fuel as [|fuel IH]; intros x F R; [lia|]. cbn [print_go].
  assert (0 <= x mod 10 <= 9) as M by (pose proof (Z.mod_pos_bound x 10); lia).
  pose proof (Z.div_mod x 10) as DM.
  destruct (Z.eqb_spec (x / 10) 0) as [E|N].
  - split.
    + cbn. by rewrite is_digit_chr.
    + rewrite digits_value_1, digit_val_chr by done. lia.
    + destruct (decide (x mod 10 = 0)) as [->|N]; [by left|]. right.
      exists (digit_chr (x mod 10)), []. split; [done|]. intros C.
      apply (f_equal digit_val) in C. rewrite digit_val_chr in C by done. done.
  - rewrite Nat2Z.inj_succ, Z.pow_succ_r in R by lia.
    assert (0 < fuel)%nat as F'.
    { destruct fuel; [|lia]. cbn in R. exfalso. apply N. apply Z.div_small. lia. }
    assert (0 <= x / 10 < 10 ^ Z.of_nat fuel) as R'.
    { split; [apply Z.div_pos; lia | apply Z.div_lt_upper_bound; lia]. }
    destruct (IH (x / 10) F' R') as [D V C]. rewrite print_go_app. split.
    + apply all_digits_app. split; [done|]. cbn. by rewrite is_digit_chr.
    + rewrite digits_value_snoc, V, digit_val_chr by done. lia.
    + right. destruct C as [C|(c & t & -> & NC)].
      * rewrite C in V. cbn in V. done.
      * by exists c, (t ++ [digit_chr (x mod 10)]).
Qed.

Lemma print_int_printed x : 0 <= x -> printed x (print_int x).
Proof.
  intros P. apply print_go_printed; [lia|]. split; [done|].
  destruct (decide (x = 0)) as [->|N]; [cbn; lia|].
  rewrite Nat2Z.inj_succ, Z2Nat.id by apply Z.log2_nonneg.
  destruct (Z.log2_spec x) as [_ L]; [lia|].
  eapply Z.lt_le_trans; [exact L|]. apply Z.pow_le_mono_l. lia.
Qed.

Lemma printed_nonempty x l : printed x l -> l <> [].
Proof. intros [_ _ [->|(c & t & -> & _)]]; done. Qed.

Lemma printed_length x l k : printed x l -> x < 10 ^ k -> 1 <= k -> zlen l <= k.
Proof.
  intros [D V C] R K. destruct (decide (l = [chr0])) as [->|N]; [done|].
  pose proof (canonical_digits_lower l D C N).
  assert (zlen l - 1 < k); [|lia]. apply (Z.pow_lt_mono_r_iff 10); lia.
Qed.

(** Printing is a left inverse of reading canonical digits. *)
Lemma print_digits_value l :
  all_digits l = true -> canonical_digits l -> print_int (digits_value l) = l.
Proof.
  intros D C. pose proof (digits_value_range l D).
  destruct (print_int_printed (digits_value l)) as [D' V' C']; [lia|].
  by apply canonical_digits_inj.
Qed.

Lemma pad_left_value w l : digits_value (pad_left w l) = digits_value l.
Proof. unfold pad_left. rewrite digits_value_app, digits_value_replicate. lia. Qed.

Lemma pad_left_digits w l : all_digits l = true -> all_digits (pad_left w l) = true.
Proof. intros D. apply all_digits_app. split; [apply all_digits_replicate | done]. Qed.

Lemma pad_left_length w l : (length l <= w)%nat -> length (pad_left w l) = w.
Proof. intros L. unfold pad_left. rewrite length_app, length_replicate. lia. Qed.

Lemma pad_left_nonempty w l : l <> [] -> pad_left w l <> [].
Proof. intros N E. unfold pad_left in E. by apply app_eq_nil in E as [_ E]. Qed.

(** The padded print is the only digit string of its width and value. *)
Lemma pad_left_print w l :
  all_digits l = true -> length l = w -> (0 < w)%nat ->
  pad_left w (print_int (digits_value l)) = l.
Proof.
  intros D L W. pose proof (digits_value_range l D) as R.
  assert (printed (digits_value l) (print_int (digits_value l))) as P
    by (apply print_int_printed; lia).
  assert (zlen (print_int (digits_value l)) <= zlen l) as PL
    by (eapply printed_length; [exact P|lia|unfold zlen; lia]).
  destruct P as [D' V' _].
  apply digits_value_inj; [by apply pad_left_digits|done| |by rewrite pad_left_value].
  rewrite pad_left_length; [done|]. unfold zlen in PL. lia.
Qed.

(** ** [str::split] on one character *)

Fixpoint split_char (c : ascii) (l : list ascii) : list (list ascii) :=
  match l with
  | [] => [[]]
  | x :: l =>
      if decide (x = c) then [] :: split_char c l
      else match split_char c l with
           | [] => [[x]]
           | part :: parts => (x :: part) :: parts
           end
  end.

Lemma split_char_none c l : c ∉ l -> split_char c l = [l].
Proof.
  induction l as [|x l IH]; cbn; [done|]. rewrite not_elem_of_cons. intros [N I].
  rewrite decide_False by congruence. by rewrite IH.
Qed.

Lemma split_char_app c l k : c ∉ l -> split_char c (l ++ c :: k) = l :: split_char c k.
Proof.
  induction l as [|x l IH]; cbn; [by rewrite decide_True|].
  rewrite not_elem_of_cons. intros [N I].
  rewrite decide_False by congruence. by rewrite IH.
Qed.

Lemma split_char_1 c l p : split_char c l = [p] -> l = p.
Proof.
  revert p. induction l as [|x l IH]; cbn; intros p; [congruence|].
  case_decide; [destruct (split_char c l) eqn:E; [|congruence]|].
  - destruct l; cbn in E; [done|]. case_decide; [done|]. by destruct (split_char c l).
  - destruct (split_char c l) as [|q [|]] eqn:E; try congruence.
    + destruct l; cbn in E; [done|]. case_decide; [done|]. by destruct (split_char c l).
    + intros [= <-]. f_equal. by apply IH.
Qed.

Lemma split_char_2 c l p q : split_char c l = [p; q] -> l = p ++ c :: q.
Proof.
  revert p. induction l as [|x l IH]; cbn; intros p; [congruence|].
  case_decide as E; [|destruct (split_char c l) as [|p' ps] eqn:Es; [congruence|]].
  - intros [= <- Es]. apply split_char_1 in Es. by subst.
  - intros [= <- ->]. cbn. f_equal. by apply IH.
Qed.

Lemma all_digits_not_elem c l : is_ascii_digit c = false -> all_digits l = true -> c ∉ l.
Proof.
  intros N D I. unfold all_digits in D. rewrite forallb_forall in D.
  apply list_elem_of_In, D in I. congruence.
Qed.
