(* ===== verification/FixedPoint.v ===== *)
(** * Checked fixed-point decimals: [crates/domain-types/src/decimal.rs]

    [Decimal] is an [i128] coefficient and a decimal scale of at most 38; every
    money and quantity type of the desk ([Price], [Quantity], [UsdAmount], ...)
    is a transparent wrapper of it. The file holds its operations, its
    conversion to and from text, its equality and order, and the theorems that
    relate each operation to exact rational arithmetic. *)

From Stdlib Require Import Strings.Ascii QArith.
From S2P Require Import Prelude Ordering Digits.
#[local] Open Scope Z_scope.

Definition MAX_DECIMAL_SCALE : Z := 38.

Inductive RoundingMode := TowardZero | Floor | Ceiling | NearestTiesToEven.

#[global] Instance RoundingMode_eq_dec : EqDecision RoundingMode.
Proof. solve_decision. Defined.

Inductive ValueError :=
| Empty
| Invalid
| ExcessPrecision (allowed : Z)
| ScaleOutOfRange (scale maximum : Z)
| ScaleMismatch (left right : Z)
| DownwardExactRescale (source_scale target_scale : Z)
| OutOfRange
| DivisionByZero
| Overflow.

#[global] Instance ValueError_eq_dec : EqDecision ValueError.
Proof. solve_decision. Defined.

(** ** Arbitrary-precision helpers *)

Fixpoint pow10_loop (n : nat) : Z :=
  match n with O => 1 | S n => pow10_loop n * 10 end.
Definition pow10_big (exponent : Z) : Z := pow10_loop (Z.to_nat exponent).

Definition validate_scale (scale : Z) : result ValueError unit :=
  if MAX_DECIMAL_SCALE <? scale then Err (ScaleOutOfRange scale MAX_DECIMAL_SCALE) else Ok tt.

Definition div_round_big (numerator denominator : Z) (mode : RoundingMode)
  : result ValueError Z :=
  if denominator =? 0 then Err DivisionByZero else
  let quotient := Z.quot numerator denominator in
  let remainder := Z.rem numerator denominator in
  if (remainder =? 0) || bool_decide (mode = TowardZero) then Ok quotient else
  let same_sign := Bool.eqb (numerator <? 0) (denominator <? 0) in
  let step := if same_sign then 1 else -1 in
  match mode with
  | TowardZero => Ok quotient
  | Floor => if same_sign then Ok quotient else Ok (quotient - 1)
  | Ceiling => if same_sign then Ok (quotient + 1) else Ok quotient
  | NearestTiesToEven =>
      let twice_remainder := Z.abs remainder * 2 in
      let divisor := Z.abs denominator in
      if (twice_remainder <? divisor)
         || ((twice_remainder =? divisor) && (Z.rem quotient 2 =? 0))
      then Ok quotient else Ok (quotient + step)
  end.

Definition rescale_big (raw source_scale target_scale : Z) (rounding : RoundingMode)
  : result ValueError Z :=
  match Z.compare target_scale source_scale with
  | Eq => Ok raw
  | Gt => Ok (raw * pow10_big (target_scale - source_scale))
  | Lt => div_round_big raw (pow10_big (source_scale - target_scale)) rounding
  end.

Definition big_to_i128 (value : Z) : result ValueError Z := int_try I128 value ?? Overflow.

(** The loop of [canonical_parts] and [canonicalize_notional]: drop trailing
    decimal zeros while the scale is positive. *)
Fixpoint strip_zeros (scale : nat) (raw : Z) : Z * nat :=
  match scale with
  | O => (raw, O)
  | S scale' =>
      if Z.rem raw 10 =? 0 then strip_zeros scale' (Z.quot raw 10) else (raw, scale)
  end.

(** ** [Decimal] *)

Module Decimal.
Record t := mk { raw : Z; scale : Z }.

#[global] Instance t_eq_dec : EqDecision t.
Proof. solve_decision. Defined.

Definition wf (d : t) : Prop := ity_wf I128 (raw d) /\ 0 <= scale d <= MAX_DECIMAL_SCALE.

Definition from_raw (raw scale : Z) : result ValueError t :=
  _ ← validate_scale scale; Ok (mk raw scale).

Definition require_same_scale (self rhs : t) : result ValueError unit :=
  if scale self =? scale rhs then Ok tt else Err (ScaleMismatch (scale self) (scale rhs)).

Definition checked_add (self rhs : t) : result ValueError t :=
  _ ← require_same_scale self rhs;
  sum ← int_add I128 (raw self) (raw rhs) ?? Overflow;
  from_raw sum (scale self).

Definition checked_sub (self rhs : t) : result ValueError t :=
  _ ← require_same_scale self rhs;
  difference ← int_sub I128 (raw self) (raw rhs) ?? Overflow;
  from_raw difference (scale self).

Definition checked_mul (self rhs : t) (output_scale : Z) (rounding : RoundingMode)
  : result ValueError t :=
  _ ← validate_scale output_scale;
  let product := raw self * raw rhs in
  let product_scale := scale self + scale rhs in
  r ← rescale_big product product_scale output_scale rounding;
  r128 ← big_to_i128 r;
  from_raw r128 output_scale.

Definition checked_div (self rhs : t) (output_scale : Z) (rounding : RoundingMode)
  : result ValueError t :=
  _ ← validate_scale output_scale;
  if raw rhs =? 0 then Err DivisionByZero else
  let shift := output_scale + scale rhs - scale self in
  let '(numerator, denominator) :=
    if 0 <=? shift then (raw self * pow10_big shift, raw rhs)
    else (raw self, raw rhs * pow10_big (Z.abs shift)) in
  r ← div_round_big numerator denominator rounding;
  r128 ← big_to_i128 r;
  from_raw r128 output_scale.

Definition rescale (self : t) (target_scale : Z) (rounding : RoundingMode)
  : result ValueError t :=
  _ ← validate_scale target_scale;
  r ← rescale_big (raw self) (scale self) target_scale rounding;
  r128 ← big_to_i128 r;
  from_raw r128 target_scale.

Definition canonical_parts (self : t) : Z * Z :=
  if raw self =? 0 then (0, 0) else
  let '(r, n) := strip_zeros (Z.to_nat (scale self)) (raw self) in (r, Z.of_nat n).

Definition numeric_cmp (self other : t) : comparison :=
  let left := raw self * pow10_big (scale other) in
  let right := raw other * pow10_big (scale self) in
  Z.compare left right.

(** [PartialEq::eq] *)
Definition eq (self other : t) : bool :=
  bool_decide (canonical_parts self = canonical_parts other).

(** [Ord::cmp] *)
#[global] Instance t_Ord : Ord t := numeric_cmp.

(** The sign prefix: [strip_prefix('-')], then [strip_prefix('+')]. *)
Definition strip_sign (input : list ascii) : bool * list ascii :=
  match input with
  | "-"%char :: rest => (true, rest)
  | "+"%char :: rest => (false, rest)
  | _ => (false, input)
  end.

(** The second half of [from_str]: the coefficient of checked digits. *)
Definition assemble (negative : bool) (whole fraction : list ascii) : result ValueError t :=
  scale ← int_try U8 (zlen fraction) ?? ScaleOutOfRange (ity_max U8) MAX_DECIMAL_SCALE;
  _ ← validate_scale scale;
  factor ← int_try U128 (10 ^ scale) ?? Overflow;
  whole ← int_try U128 (digits_value whole) ?? Overflow;
  fractional ← (if is_empty fraction then Ok 0
                else int_try U128 (digits_value fraction) ?? Overflow);
  magnitude ← (value ← int_mul U128 whole factor; int_add U128 value fractional) ?? Overflow;
  let positive_limit := ity_max I128 in
  let negative_limit := positive_limit + 1 in
  raw ← (if negative then
           if negative_limit <? magnitude then Err Overflow
           else if magnitude =? negative_limit then Ok (ity_min I128)
           else Ok (- magnitude)
         else if positive_limit <? magnitude then Err Overflow
         else Ok magnitude);
  from_raw raw scale.

(** [FromStr::from_str], on the bytes of the input. *)
Definition from_chars (input : list ascii) : result ValueError t :=
  if is_empty input then Err Empty else
  let '(negative, unsigned) := strip_sign input in
  if is_empty unsigned then Err Invalid else
  let parts := split_char "."%char unsigned in
  whole ← head parts ?? Invalid;
  fraction ← match tail parts with
             | value :: _ => if is_empty value then Err Invalid else Ok value
             | [] => Ok []
             end;
  if negb (is_empty (tail (tail parts))) || is_empty whole
     || negb (all_digits whole) || negb (all_digits fraction)
  then Err Invalid else
  assemble negative whole fraction.

Definition from_str (input : string) : result ValueError t :=
  from_chars (String.list_ascii_of_string input).

Definition parse_at_scale (input : string) (target : Z) : result ValueError t :=
  _ ← validate_scale target;
  parsed ← from_str input;
  if target <? scale parsed then Err (ExcessPrecision target)
  else rescale parsed target TowardZero.

(** [Display::fmt]; [scale <= 38], so [10_u128.pow(scale)] does not overflow. *)
Definition to_chars (self : t) : list ascii :=
  let factor := 10 ^ scale self in
  let absolute := Z.abs (raw self) in
  let whole := absolute / factor in
  let fraction := absolute mod factor in
  (if raw self <? 0 then ["-"%char] else []) ++
  (if scale self =? 0 then print_int whole
   else print_int whole ++ "."%char :: pad_left (Z.to_nat (scale self)) (print_int fraction)).

Definition to_string (self : t) : string := String.string_of_list_ascii (to_chars self).
End Decimal.

(** The transparent wrappers generated by [decimal_newtype!]. *)
Definition Price := Decimal.t.
Definition Quantity := Decimal.t.
Definition UsdAmount := Decimal.t.
Definition BasisPoints := Decimal.t.

(** [PositionQuantity::checked_rescale_up] *)
Definition checked_rescale_up (self : Decimal.t) (target_scale : Z)
  : result ValueError Decimal.t :=
  _ ← validate_scale target_scale;
  if target_scale <? Decimal.scale self
  then Err (DownwardExactRescale (Decimal.scale self) target_scale)
  else Decimal.rescale self target_scale TowardZero.

(** ** [ProbabilityPpm] *)

Module ProbabilityPpm.
Definition from_ppm (value : Z) : result ValueError Z :=
  if value <=? 1000000 then Ok value else Err OutOfRange.

Definition wf (ppm : Z) : Prop := 0 <= ppm <= 1000000.

Definition checked_scale_i128_toward_zero (self value : Z) : result ValueError Z :=
  let divisor := 1000000 in
  let probability := self in
  whole ← int_div I128 value divisor ?? Overflow;
  remainder ← int_rem I128 value divisor ?? Overflow;
  scaled_whole ← int_mul I128 whole probability ?? Overflow;
  scaled_remainder ←
    (product ← int_mul I128 remainder probability; int_div I128 product divisor) ?? Overflow;
  int_add I128 scaled_whole scaled_remainder ?? Overflow.
End ProbabilityPpm.

Example from_str_ex : Decimal.from_str "-12.50" = Ok (Decimal.mk (-1250) 2).
Proof. vm_compute. reflexivity. Qed.
Example to_string_ex : Decimal.to_string (Decimal.mk (-5) 3) = "-0.005"%string.
Proof. vm_compute. reflexivity. Qed.

(** ** Specification: exact rationals and rounding *)

(** The rational a decimal stands for. *)
Definition dec_value (d : Decimal.t) : Q :=
  Decimal.raw d # Z.to_pos (10 ^ Decimal.scale d).

(** [rounds_to m x n]: the integer [n] is the rational [x] rounded in mode [m]. *)
Definition rounds_to (m : RoundingMode) (x : Q) (n : Z) : Prop :=
  let floor := (inject_Z n <= x)%Q /\ (x < inject_Z (n + 1))%Q in
  let ceiling := (inject_Z (n - 1) < x)%Q /\ (x <= inject_Z n)%Q in
  match m with
  | TowardZero => ((0 <= x)%Q -> floor) /\ ((x <= 0)%Q -> ceiling)
  | Floor => floor
  | Ceiling => ceiling
  | NearestTiesToEven =>
      ((inject_Z (2 * n - 1) <= 2 * x)%Q /\ (2 * x <= inject_Z (2 * n + 1))%Q) /\
      ((2 * x == inject_Z (2 * n - 1))%Q \/ (2 * x == inject_Z (2 * n + 1))%Q ->
         Z.even n = true)
  end.

#[global] Instance rounds_to_proper m : Proper (Qeq ==> eq ==> iff) (rounds_to m).
Proof.
  intros x y E n ? <-. unfold rounds_to. destruct m; rewrite E; reflexivity.
Qed.

Lemma rounds_to_eq m x y n : (x == y)%Q -> rounds_to m y n -> rounds_to m x n.
Proof. intros E. by rewrite E. Qed.

Lemma pow10_loop_spec n : pow10_loop n = 10 ^ Z.of_nat n.
Proof.
  induction n as [|n IH]; [done|]. cbn [pow10_loop].
  rewrite IH, Nat2Z.inj_succ, Z.pow_succ_r by lia. lia.
Qed.

Lemma pow10_big_spec e : 0 <= e -> pow10_big e = 10 ^ e.
Proof. intros P. unfold pow10_big. rewrite pow10_loop_spec. f_equal. lia. Qed.

Lemma pow10_big_pos e : 0 < pow10_big e.
Proof. unfold pow10_big. rewrite pow10_loop_spec. apply pow10_pos. lia. Qed.

Lemma validate_scale_Ok s : s <= MAX_DECIMAL_SCALE -> validate_scale s = Ok tt.
Proof.
  intros L. unfold validate_scale. destruct (Z.ltb_spec MAX_DECIMAL_SCALE s); [lia|done].
Qed.

Lemma validate_scale_inv s u : validate_scale s = Ok u -> s <= MAX_DECIMAL_SCALE.
Proof. unfold validate_scale. intros H. inv_ok. bool_to_prop. lia. Qed.

Lemma from_raw_Ok r s : s <= MAX_DECIMAL_SCALE -> Decimal.from_raw r s = Ok (Decimal.mk r s).
Proof. intros L. unfold Decimal.from_raw. by rewrite validate_scale_Ok. Qed.
Lemma from_raw_inv r s d : Decimal.from_raw r s = Ok d -> d = Decimal.mk r s /\ s <= MAX_DECIMAL_SCALE.
Proof.
  unfold Decimal.from_raw. intros E. inv_ok. split; [done|]. by eapply validate_scale_inv.
Qed.

(** *** Rounded division *)

Lemma div_round_big_opp n d m :
  d <> 0 -> div_round_big (- n) (- d) m = div_round_big n d m.
Proof.
  intros N. unfold div_round_big.
  destruct (Z.eqb_spec d 0) as [|_]; [done|]. destruct (Z.eqb_spec (- d) 0) as [|_]; [lia|].
  rewrite Z.quot_opp_opp, Z.rem_opp_opp, !Z.abs_opp by done.
  destruct (Z.eqb_spec (- Z.rem n d) 0), (Z.eqb_spec (Z.rem n d) 0) as [|NR]; try lia; [done|].
  destruct (bool_decide (m = TowardZero)); [done|].
  assert (n <> 0) by (intros ->; by rewrite Z.rem_0_l in NR).
  replace (- n <? 0) with (negb (n <? 0))
    by (destruct (Z.ltb_spec n 0), (Z.ltb_spec (- n) 0); lia).
  replace (- d <? 0) with (negb (d <? 0))
    by (destruct (Z.ltb_spec d 0), (Z.ltb_spec (- d) 0); lia).
  by destruct (n <? 0), (d <? 0).
Qed.

(** The roundings of [n / d], [d > 0], as integer inequalities. *)
Lemma rounds_to_frac m n d q :
  0 < d ->
  match m with
  | TowardZero => (0 <= n -> q * d <= n < (q + 1) * d) /\ (n <= 0 -> (q - 1) * d < n <= q * d)
  | Floor => q * d <= n < (q + 1) * d
  | Ceiling => (q - 1) * d < n <= q * d
  | NearestTiesToEven =>
      (2 * q - 1) * d <= 2 * n <= (2 * q + 1) * d /\
      (2 * n = (2 * q - 1) * d \/ 2 * n = (2 * q + 1) * d -> Z.even q = true)
  end -> rounds_to m (n # Z.to_pos d) q.
Proof.
  intros P. unfold rounds_to, inject_Z, Qle, Qlt, Qeq; cbn [Qnum Qden Qmult].
  rewrite !Pos2Z.inj_mul, !Z2Pos.id by lia.
  destruct m; rewrite ?Z.mul_1_r, ?Z.mul_1_l; try tauto.
Qed.

(** For a positive divisor the truncated quotient and remainder determine the
    branch taken, and each branch is the rounding its mode names. *)
Lemma div_round_big_pos n d m :
  0 < d -> exists q, div_round_big n d m = Ok q /\ rounds_to m (n # Z.to_pos d) q.
Proof.
  intros P. unfold div_round_big. destruct (Z.eqb_spec d 0); [lia|].
  pose proof (Z.quot_rem' n d) as QR.
  assert (0 <= n -> 0 <= Z.rem n d < d) as R1 by (intros; apply Z.rem_bound_pos; lia).
  assert (n <= 0 -> - d < Z.rem n d <= 0) as R2
    by (intros; pose proof (Z.rem_bound_pos_neg n d); lia).
  set (q := Z.quot n d) in *. set (r := Z.rem n d) in *.
  assert (Z.rem q 2 = 0 <-> Z.even q = true) as EV.
  { rewrite Z.even_spec, Z.rem_divide by lia. split; intros [k K]; exists k; lia. }
  replace (d <? 0) with false by (symmetry; apply Z.ltb_ge; lia).
  rewrite (Z.abs_eq d) by lia.
  destruct (Z.eqb_spec r 0) as [R0|R0]; cbn [orb].
  - exists q. split; [done|]. apply rounds_to_frac; [done|].
    destruct m; [split; intros; lia|lia|lia|]. split; [lia|]. intros [?|?]; lia.
  - case_bool_decide as M; [subst m|].
    { exists q. split; [done|]. apply rounds_to_frac; [done|]. split; intros; lia. }
    destruct (Z.ltb_spec n 0); cbn [Bool.eqb]; destruct m; try done.
    1,2,4,5: eexists; split; [reflexivity|]; apply rounds_to_frac; [done|]; lia.
    1,2: destruct (Z.ltb_spec (Z.abs r * 2) d), (Z.eqb_spec (Z.abs r * 2) d),
           (Z.eqb_spec (Z.rem q 2) 0); cbn [orb andb]; try lia;
         (eexists; split; [reflexivity|]; apply rounds_to_frac; [done|];
          split; [lia|]; intros [?|?]; try lia).
  all: try by apply EV.
  all: rewrite Z.even_add; destruct (Z.even q); [by destruct EV; tauto|done].
Qed.

(** Division of arbitrary signs: always defined for a non-zero divisor. *)
Lemma div_round_big_correct n d m :
  d <> 0 ->
  exists q, div_round_big n d m = Ok q /\ rounds_to m (inject_Z n / inject_Z d) q.
Proof.
  intros N. destruct (decide (0 < d)) as [P|P].
  - destruct (div_round_big_pos n d m P) as (q & E & R). exists q. split; [done|].
    enough (inject_Z n / inject_Z d == n # Z.to_pos d)%Q as -> by done.
    destruct d as [|p|p]; [lia| |lia]. symmetry. apply Qmake_Qdiv.
  - destruct (div_round_big_pos (- n) (- d) m) as (q & E & R); [lia|].
    rewrite div_round_big_opp in E by done. exists q. split; [done|].
    enough (inject_Z n / inject_Z d == - n # Z.to_pos (- d))%Q as -> by done.
    destruct d as [|p|p]; [lia|lia|]. unfold Qeq, Qdiv, Qmult, Qinv, inject_Z.
    change (Z.to_pos (- Z.neg p)) with p. cbn [Qnum Qden]. rewrite Pos.mul_1_l. lia.
Qed.

(** A rounding is a function of the mode and the rational. *)
Lemma rounds_to_unique m x n n' : rounds_to m x n -> rounds_to m x n' -> n = n'.
Proof.
  destruct x as [p d]. unfold rounds_to, inject_Z, Qle, Qlt, Qeq; cbn [Qnum Qden Qmult].
  rewrite ?Pos2Z.inj_mul, ?Z.mul_1_r, ?Z.mul_1_l. pose proof (Pos2Z.is_pos d).
  destruct m.
  - intros [F C] [F' C']. destruct (decide (0 <= p)); [destruct F, F'|destruct C, C']; nia.
  - intros; nia.
  - intros; nia.
  - intros [[L U] T] [[L' U'] T'].
    assert (n - n' <= 1 /\ n' - n <= 1) as [A B] by nia.
    destruct (decide (n = n')) as [|NE]; [done|exfalso].
    assert (n = n' + 1 \/ n' = n + 1) as [-> | ->] by lia.
    + rewrite Z.even_add in T. destruct (Z.even n'); cbn in T.
      * discriminate T; left; nia.
      * discriminate T'; right; nia.
    + rewrite Z.even_add in T'. destruct (Z.even n); cbn in T'.
      * discriminate T'; left; nia.
      * discriminate T; right; nia.
Qed.


Lemma rounds_to_exact m n : rounds_to m (inject_Z n) n.
Proof.
  unfold rounds_to, inject_Z, Qle, Qlt, Qeq; cbn [Qnum Qden Qmult].
  destruct m; repeat split; intros; try lia.
Qed.

(** *** Powers of ten in [Q] *)

Definition pow10Q (s : Z) : Q := inject_Z (10 ^ s).

Lemma pow10Q_nonzero s : 0 <= s -> ~ (pow10Q s == 0)%Q.
Proof. intros P. unfold pow10Q, Qeq, inject_Z; cbn [Qnum Qden]. pose proof (pow10_pos s P). lia. Qed.

Lemma pow10Q_add s t : 0 <= s -> 0 <= t -> (pow10Q (s + t) == pow10Q s * pow10Q t)%Q.
Proof. intros. unfold pow10Q. rewrite Z.pow_add_r by lia. by rewrite inject_Z_mult. Qed.

Lemma dec_value_div d :
  0 <= Decimal.scale d ->
  (dec_value d == inject_Z (Decimal.raw d) / pow10Q (Decimal.scale d))%Q.
Proof.
  intros P. unfold dec_value, pow10Q. rewrite Qmake_Qdiv, Z2Pos.id by (by apply pow10_pos).
  reflexivity.
Qed.

Lemma rescale_big_correct r src tgt m :
  0 <= src -> 0 <= tgt ->
  exists q, rescale_big r src tgt m = Ok q /\
    rounds_to m (inject_Z r * pow10Q tgt / pow10Q src) q.
Proof.
  intros S T. unfold rescale_big. pose proof (pow10Q_nonzero src S).
  destruct (Z.compare_spec tgt src) as [->|L|G].
  - exists r. split; [done|].
    eapply rounds_to_eq; [|apply rounds_to_exact]. by field.
  - destruct (div_round_big_correct r (pow10_big (src - tgt)) m) as (q & E & R);
      [pose proof (pow10_big_pos (src - tgt)); lia|].
    exists q. split; [done|]. rewrite pow10_big_spec in R by lia.
    fold (pow10Q (src - tgt)) in R.
    assert (pow10Q src == pow10Q (src - tgt) * pow10Q tgt)%Q as ->
      by (rewrite <- pow10Q_add by lia; by replace (src - tgt + tgt) with src by lia).
    eapply rounds_to_eq; [|exact R]. field. split; apply pow10Q_nonzero; lia.
  - eexists. split; [done|]. rewrite pow10_big_spec by lia.
    assert (pow10Q tgt == pow10Q (tgt - src) * pow10Q src)%Q as ->
      by (rewrite <- pow10Q_add by lia; by replace (tgt - src + src) with tgt by lia).
    eapply rounds_to_eq; [|apply rounds_to_exact].
    rewrite inject_Z_mult. fold (pow10Q (tgt - src)). by field.
Qed.

(** The common tail of the rounding operations. *)
Lemma finish_i128 q s :
  s <= MAX_DECIMAL_SCALE ->
  (r ← big_to_i128 q; Decimal.from_raw r s) =
    if in_ity I128 q then Ok (Decimal.mk q s) else Err Overflow.
Proof.
  intros L. unfold big_to_i128, int_try. destruct (in_ity I128 q); [|done].
  cbn. by rewrite from_raw_Ok.
Qed.

Section operations.
Context (a b : Decimal.t) (s : Z) (m : RoundingMode).
Context (Ha : Decimal.wf a) (Hb : Decimal.wf b) (Hs : 0 <= s <= MAX_DECIMAL_SCALE).

Lemma checked_mul_spec :
  exists q,
    rounds_to m (dec_value a * dec_value b * pow10Q s) q /\
    Decimal.checked_mul a b s m =
      (if in_ity I128 q then Ok (Decimal.mk q s) else Err Overflow).
Proof using Ha Hb Hs.
  destruct Ha as [_ Sa], Hb as [_ Sb]. unfold Decimal.checked_mul.
  rewrite validate_scale_Ok, bind_of_Ok by lia. cbv zeta.
  destruct (rescale_big_correct (Decimal.raw a * Decimal.raw b)
              (Decimal.scale a + Decimal.scale b) s m) as (q & -> & R); [lia..|].
  exists q. split; [|rewrite bind_of_Ok; apply finish_i128; lia].
  rewrite !dec_value_div by lia. rewrite pow10Q_add, inject_Z_mult in R by lia.
  eapply rounds_to_eq; [|exact R]. field. split; apply pow10Q_nonzero; lia.
Qed.

(** C18. Multiplication of decimals is total up to overflow and correctly
    rounded: the coefficient of [checked_mul] is the exact rational product,
    shifted to the output scale and rounded in the requested mode, and the
    call fails with [Overflow] exactly when that integer is no [i128]. *)
Theorem checked_mul_correct :
  exists q,
    rounds_to m (dec_value a * dec_value b * pow10Q s) q /\
    Decimal.checked_mul a b s m =
      (if in_ity I128 q then Ok (Decimal.mk q s) else Err Overflow).
Proof using Ha Hb Hs. exact checked_mul_spec. Qed.

Lemma checked_div_spec :
  if Decimal.raw b =? 0 then Decimal.checked_div a b s m = Err DivisionByZero
  else exists q,
    rounds_to m (dec_value a / dec_value b * pow10Q s) q /\
    Decimal.checked_div a b s m =
      (if in_ity I128 q then Ok (Decimal.mk q s) else Err Overflow).
Proof using Ha Hb Hs.
  destruct Ha as [_ Sa], Hb as [_ Sb]. unfold Decimal.checked_div.
  rewrite validate_scale_Ok, bind_of_Ok by lia. cbv zeta.
  destruct (Z.eqb_spec (Decimal.raw b) 0) as [|N]; [done|].
  assert (~ inject_Z (Decimal.raw b) == 0)%Q as NQ
    by (unfold Qeq, inject_Z; cbn [Qnum Qden]; lia).
  set (sh := s + Decimal.scale b - Decimal.scale a).
  destruct (Z.leb_spec 0 sh) as [P|P].
  - destruct (div_round_big_correct (Decimal.raw a * pow10_big sh) (Decimal.raw b) m N)
      as (q & -> & R). exists q. split; [|rewrite bind_of_Ok; apply finish_i128; lia].
    rewrite !dec_value_div by lia.
    rewrite pow10_big_spec, inject_Z_mult in R by done. fold (pow10Q sh) in R.
    assert (pow10Q s * pow10Q (Decimal.scale b) == pow10Q sh * pow10Q (Decimal.scale a))%Q as E
      by (rewrite <- !pow10Q_add by lia; unfold sh; by replace (s + Decimal.scale b - Decimal.scale
          a + Decimal.scale a) with (s + Decimal.scale b) by lia).
    eapply rounds_to_eq; [|exact R].
    transitivity (inject_Z (Decimal.raw a) / inject_Z (Decimal.raw b) *
      (pow10Q s * pow10Q (Decimal.scale b)) / pow10Q (Decimal.scale a))%Q.
    + field. repeat split; try done; apply pow10Q_nonzero; lia.
    + rewrite E. field. split; [done|apply pow10Q_nonzero; lia].
  - destruct (div_round_big_correct (Decimal.raw a) (Decimal.raw b * pow10_big (Z.abs sh)) m)
      as (q & -> & R); [pose proof (pow10_big_pos (Z.abs sh)); lia|].
    exists q. split; [|rewrite bind_of_Ok; apply finish_i128; lia].
    rewrite !dec_value_div by lia.
    rewrite pow10_big_spec, inject_Z_mult in R by lia. fold (pow10Q (Z.abs sh)) in R.
    assert (pow10Q s * pow10Q (Decimal.scale b) * pow10Q (Z.abs sh) == pow10Q (Decimal.scale a))%Q as E
      by (rewrite <- !pow10Q_add by lia; unfold sh in *; by replace (s + Decimal.scale b + Z.abs (s
          + Decimal.scale b - Decimal.scale a)) with (Decimal.scale a) by lia).
    eapply rounds_to_eq; [|exact R]. rewrite <- E.
    field. repeat split; try done; apply pow10Q_nonzero; lia.
Qed.

(** Division by a non-zero decimal is likewise the exact quotient rounded
    in the requested mode at the output scale, failing only on overflow;
    division by zero is the error [DivisionByZero]. *)
Theorem checked_div_correct :
  if Decimal.raw b =? 0 then Decimal.checked_div a b s m = Err DivisionByZero
  else exists q,
    rounds_to m (dec_value a / dec_value b * pow10Q s) q /\
    Decimal.checked_div a b s m =
      (if in_ity I128 q then Ok (Decimal.mk q s) else Err Overflow).
Proof using Ha Hb Hs. exact checked_div_spec. Qed.
End operations.

Section rescaling.
Context (a : Decimal.t) (s : Z) (m : RoundingMode).
Context (Ha : Decimal.wf a) (Hs : 0 <= s <= MAX_DECIMAL_SCALE).

(** [rescale] rounds the represented rational at the target scale. *)
Lemma rescale_correct :
  exists q,
    rounds_to m (dec_value a * pow10Q s) q /\
    Decimal.rescale a s m = (if in_ity I128 q then Ok (Decimal.mk q s) else Err Overflow).
Proof using Ha Hs.
  destruct Ha as [_ Sa]. unfold Decimal.rescale.
  rewrite validate_scale_Ok, bind_of_Ok by lia.
  destruct (rescale_big_correct (Decimal.raw a) (Decimal.scale a) s m) as (q & -> & R); [lia..|].
  exists q. split; [|rewrite bind_of_Ok; apply finish_i128; lia].
  rewrite dec_value_div by lia. eapply rounds_to_eq; [|exact R].
  field. apply pow10Q_nonzero. lia.
Qed.

(** Rescaling upwards never rounds, whatever the mode. *)
Lemma rescale_up :
  Decimal.scale a <= s ->
  Decimal.rescale a s m =
    let q := Decimal.raw a * 10 ^ (s - Decimal.scale a) in
    if in_ity I128 q then Ok (Decimal.mk q s) else Err Overflow.
Proof using Ha Hs.
  intros L. destruct Ha as [_ Sa]. unfold Decimal.rescale, rescale_big.
  rewrite validate_scale_Ok, bind_of_Ok by lia.
  destruct (Z.compare_spec s (Decimal.scale a)) as [->|?|?]; [|lia|].
  - rewrite Z.sub_diag, Z.mul_1_r. cbv zeta. rewrite bind_of_Ok. apply finish_i128. lia.
  - rewrite pow10_big_spec, bind_of_Ok by lia. apply finish_i128. lia.
Qed.
End rescaling.

Lemma dec_value_up r s s' :
  0 <= s -> s <= s' ->
  (dec_value (Decimal.mk (r * 10 ^ (s' - s)) s') == dec_value (Decimal.mk r s))%Q.
Proof.
  intros P L. unfold dec_value, Qeq; cbn [Decimal.raw Decimal.scale Qnum Qden].
  rewrite !Z2Pos.id by (apply pow10_pos; lia).
  rewrite <- Z.mul_assoc, <- Z.pow_add_r by lia. by replace (s' - s + s) with s' by lia.
Qed.

(** Exact upward rescaling ([PositionQuantity::checked_rescale_up]) returns
    the same rational at the target scale, rejects every downward target, and
    otherwise fails only when the widened coefficient overflows [i128]. *)
Theorem checked_rescale_up_exact a s :
  Decimal.wf a -> 0 <= s <= MAX_DECIMAL_SCALE ->
  match checked_rescale_up a s with
  | Ok r => Decimal.wf r /\ Decimal.scale r = s /\ (dec_value r == dec_value a)%Q
  | Err (DownwardExactRescale f t) => s < Decimal.scale a /\ f = Decimal.scale a /\ t = s
  | Err e =>
      e = Overflow /\ Decimal.scale a <= s /\
      ~ ity_wf I128 (Decimal.raw a * 10 ^ (s - Decimal.scale a))
  end.
Proof.
  intros Ha Hs. unfold checked_rescale_up. rewrite validate_scale_Ok, bind_of_Ok by lia.
  destruct (Z.ltb_spec s (Decimal.scale a)) as [L|L]; [done|].
  rewrite rescale_up by done. cbv zeta. destruct (in_ity I128 _) eqn:E.
  - apply in_ity_true in E. split; [by split|]. split; [done|]. destruct Ha as [_ Sa].
    destruct a as [r sc]. apply dec_value_up; cbn in *; lia.
  - by apply in_ity_false in E.
Qed.

(** *** Addition and subtraction *)

Definition add_sub_spec (a b : Decimal.t) (exact : Z) (value : Q)
  (res : result ValueError Decimal.t) : Prop :=
  match res with
  | Ok r =>
      Decimal.wf r /\ Decimal.scale r = Decimal.scale a /\ Decimal.scale b = Decimal.scale a /\
      Decimal.raw r = exact /\ (dec_value r == value)%Q
  | Err e =>
      (Decimal.scale a <> Decimal.scale b /\
         e = ScaleMismatch (Decimal.scale a) (Decimal.scale b)) \/
      (Decimal.scale a = Decimal.scale b /\ e = Overflow /\ ~ ity_wf I128 exact)
  end.

Lemma dec_value_add r r' s :
  0 <= s ->
  (dec_value (Decimal.mk (r + r') s) ==
     dec_value (Decimal.mk r s) + dec_value (Decimal.mk r' s))%Q.
Proof.
  intros P. rewrite !dec_value_div by done. cbn [Decimal.raw Decimal.scale].
  rewrite inject_Z_plus. field. by apply pow10Q_nonzero.
Qed.

Lemma dec_value_opp r s :
  (dec_value (Decimal.mk (- r) s) == - dec_value (Decimal.mk r s))%Q.
Proof. reflexivity. Qed.

Lemma checked_add_spec a b :
  Decimal.wf a -> Decimal.wf b ->
  add_sub_spec a b (Decimal.raw a + Decimal.raw b) (dec_value a + dec_value b)
    (Decimal.checked_add a b).
Proof.
  intros [Ra Sa] [Rb Sb]. unfold Decimal.checked_add, Decimal.require_same_scale, int_add, int_try.
  destruct a as [ra s], b as [rb s']; cbn [Decimal.raw Decimal.scale] in *.
  destruct (Z.eqb_spec s s') as [<-|N]; [|by left].
  destruct (in_ity I128 (ra + rb)) eqn:E; cbn [ok_or]; rewrite !bind_of_Ok.
  - apply in_ity_true in E. rewrite from_raw_Ok by lia. split_and!; [by split|done..|].
    apply dec_value_add. lia.
  - right. by apply in_ity_false in E.
Qed.

Lemma checked_sub_spec a b :
  Decimal.wf a -> Decimal.wf b ->
  add_sub_spec a b (Decimal.raw a - Decimal.raw b) (dec_value a - dec_value b)
    (Decimal.checked_sub a b).
Proof.
  intros [Ra Sa] [Rb Sb]. unfold Decimal.checked_sub, Decimal.require_same_scale, int_sub, int_try.
  destruct a as [ra s], b as [rb s']; cbn [Decimal.raw Decimal.scale] in *.
  destruct (Z.eqb_spec s s') as [<-|N]; [|by left].
  destruct (in_ity I128 (ra - rb)) eqn:E; cbn [ok_or]; rewrite !bind_of_Ok.
  - apply in_ity_true in E. rewrite from_raw_Ok by lia. split_and!; [by split|done..|].
    unfold Qminus. rewrite <- dec_value_opp. apply dec_value_add. lia.
  - right. by apply in_ity_false in E.
Qed.

(** [checked_add] and [checked_sub] are exact on the represented rationals:
    they return the exact sum or difference, reject operands of different
    scales, and otherwise fail only when the coefficient leaves [i128]. *)
Theorem checked_add_sub_exact a b :
  Decimal.wf a -> Decimal.wf b ->
  add_sub_spec a b (Decimal.raw a + Decimal.raw b) (dec_value a + dec_value b)
    (Decimal.checked_add a b) /\
  add_sub_spec a b (Decimal.raw a - Decimal.raw b) (dec_value a - dec_value b)
    (Decimal.checked_sub a b).
Proof. intros Ha Hb. split; [by apply checked_add_spec | by apply checked_sub_spec]. Qed.

(** *** Successful operations *)

Section successful.
Context (a b r : Decimal.t) (Ha : Decimal.wf a) (Hb : Decimal.wf b).

Lemma checked_add_Ok : Decimal.checked_add a b = Ok r ->
  Decimal.wf r /\ Decimal.scale r = Decimal.scale a /\ Decimal.scale b = Decimal.scale a /\
  Decimal.raw r = Decimal.raw a + Decimal.raw b.
Proof using Ha Hb.
  intros E. pose proof (checked_add_spec a b Ha Hb) as S. rewrite E in S. destruct S as (? & ? & ? & ? & _). done.
Qed.

Lemma checked_sub_Ok : Decimal.checked_sub a b = Ok r ->
  Decimal.wf r /\ Decimal.scale r = Decimal.scale a /\ Decimal.scale b = Decimal.scale a /\
  Decimal.raw r = Decimal.raw a - Decimal.raw b.
Proof using Ha Hb.
  intros E. pose proof (checked_sub_spec a b Ha Hb) as S. rewrite E in S. destruct S as (? & ? & ? & ? & _). done.
Qed.

Lemma checked_mul_Ok s m : 0 <= s <= MAX_DECIMAL_SCALE -> Decimal.checked_mul a b s m = Ok r ->
  Decimal.wf r /\ Decimal.scale r = s /\ rounds_to m (dec_value a * dec_value b * pow10Q s) (Decimal.raw r).
Proof using Ha Hb.
  intros S E. destruct (checked_mul_spec a b s m Ha Hb S) as (q & R & M). rewrite M in E.
  destruct (in_ity I128 q) eqn:I; [|done]. injection E as <-. apply in_ity_true in I. by split_and!.
Qed.

Lemma checked_div_Ok s m : 0 <= s <= MAX_DECIMAL_SCALE -> Decimal.checked_div a b s m = Ok r ->
  Decimal.raw b <> 0 /\ Decimal.wf r /\ Decimal.scale r = s /\
  rounds_to m (dec_value a / dec_value b * pow10Q s) (Decimal.raw r).
Proof using Ha Hb.
  intros S E. pose proof (checked_div_spec a b s m Ha Hb S) as D.
  destruct (Z.eqb_spec (Decimal.raw b) 0); [congruence|]. destruct D as (q & R & M). rewrite M in E.
  destruct (in_ity I128 q) eqn:I; [|done]. injection E as <-. apply in_ity_true in I. by split_and!.
Qed.
End successful.

Lemma rescale_Ok a s m r : Decimal.wf a -> 0 <= s <= MAX_DECIMAL_SCALE -> Decimal.rescale a s m = Ok r ->
  Decimal.wf r /\ Decimal.scale r = s /\ rounds_to m (dec_value a * pow10Q s) (Decimal.raw r).
Proof.
  intros Ha S E. destruct (rescale_correct a s m Ha S) as (q & R & M). rewrite M in E.
  destruct (in_ity I128 q) eqn:I; [|done]. injection E as <-. apply in_ity_true in I. by split_and!.
Qed.

(** A rounded rational stays between integers that bound it. *)
Lemma rounds_le m x n hi : rounds_to m x n -> (x <= inject_Z hi)%Q -> n <= hi.
Proof.
  destruct x as [p d]. unfold rounds_to, inject_Z, Qle, Qlt, Qeq; cbn [Qnum Qden Qmult].
  intros R U. destruct m; [|nia..]. destruct (Z.le_gt_cases 0 p); [destruct (proj1 R)|destruct (proj2 R)]; nia.
Qed.

Lemma rounds_ge m x n lo : rounds_to m x n -> (inject_Z lo <= x)%Q -> lo <= n.
Proof.
  destruct x as [p d]. unfold rounds_to, inject_Z, Qle, Qlt, Qeq; cbn [Qnum Qden Qmult].
  intros R U. destruct m; [|nia..]. destruct (Z.le_gt_cases 0 p); [destruct (proj1 R)|destruct (proj2 R)]; nia.
Qed.

Lemma rounds_mono m x y n k : rounds_to m x n -> rounds_to m y k -> (x <= y)%Q -> n <= k.
Proof.
  intros Rx Ry L. destruct m.
  - destruct (Qlt_le_dec x 0) as [N|P]; [destruct (Qlt_le_dec y 0) as [N'|P']|].
    + eapply rounds_le; [exact Rx|]. eapply Qle_trans; [exact L|]. by apply Ry, Qlt_le_weak.
    + trans 0; [eapply rounds_le|eapply rounds_ge]; [exact Rx|by apply Qlt_le_weak|exact Ry|done].
    + eapply rounds_ge; [exact Ry|]. eapply Qle_trans; [|exact L]. by apply Rx.
  - eapply rounds_ge; [exact Ry|]. eapply Qle_trans; [apply Rx|exact L].
  - eapply rounds_le; [exact Rx|]. eapply Qle_trans; [exact L|apply Ry].
  - destruct Rx as [[Lx _] Ex], Ry as [[_ Uy] Ey]. destruct (Z.le_gt_cases n k) as [|G]; [done|exfalso].
    assert (2 * x <= 2 * y)%Q as L2 by (by apply Qmult_le_l).
    assert (inject_Z (2 * n - 1) <= inject_Z (2 * k + 1))%Q as B by (eapply Qle_trans; [exact Lx|]; by eapply Qle_trans).
    rewrite <- Zle_Qle in B. assert (n = k + 1) as -> by lia. replace (2 * (k + 1) - 1) with (2 * k + 1) in * by lia.
    assert (Z.even (k + 1) = true) as En by (apply Ex; left; apply Qle_antisym; [by eapply Qle_trans|done]).
    assert (Z.even k = true) as Ek by (apply Ey; right; apply Qle_antisym; [done|by eapply Qle_trans]).
    rewrite Z.even_add, Ek in En. done.
Qed.

(** At one scale decimals compare as their coefficients. *)
Lemma same_scale_leb a b : Decimal.scale a = Decimal.scale b -> leb a b = true <-> Decimal.raw a <= Decimal.raw b.
Proof.
  intros E. unfold leb, cmp, Decimal.t_Ord, Decimal.numeric_cmp. rewrite E.
  pose proof (pow10_big_pos (Decimal.scale b)). destruct (Z.compare_spec (Decimal.raw a * pow10_big (Decimal.scale b))
    (Decimal.raw b * pow10_big (Decimal.scale b))); split; intros; try done; nia.
Qed.

(** *** Equality and order *)

#[global] Instance Decimal_OrdLaws : OrdLaws Decimal.t.
Proof.
  split; unfold cmp, Decimal.t_Ord, Decimal.numeric_cmp.
  - intros x y. apply Z.compare_antisym.
  - intros [x sx] [y sy] [z sz]; cbn. rewrite !Z.compare_lt_iff.
    pose proof (pow10_big_pos sx). pose proof (pow10_big_pos sy). pose proof (pow10_big_pos sz).
    generalize dependent (pow10_big sx); generalize dependent (pow10_big sy);
      generalize dependent (pow10_big sz); intros; nia.
  - intros [x sx] [y sy] [z sz]; cbn. rewrite Z.compare_eq_iff. intros E.
    pose proof (pow10_big_pos sx). pose proof (pow10_big_pos sy). pose proof (pow10_big_pos sz).
    generalize dependent (pow10_big sx); generalize dependent (pow10_big sy);
      generalize dependent (pow10_big sz); intros.
    destruct (Z.compare_spec (y * z0) (z * z1)), (Z.compare_spec (x * z0) (z * z2)); try done; nia.
Qed.

(** [strip_zeros] keeps the value and stops at a coefficient that is not
    divisible by ten, or at scale zero. *)
Lemma strip_zeros_spec n r r' n' :
  strip_zeros n r = (r', n') ->
  (n' <= n)%nat /\ r = r' * 10 ^ Z.of_nat (n - n') /\ (n' = 0%nat \/ Z.rem r' 10 <> 0).
Proof.
  revert r. induction n as [|n IH]; intros r; cbn.
  - intros [= <- <-]. split_and!; [lia|by rewrite Z.mul_1_r|by left].
  - destruct (Z.eqb_spec (Z.rem r 10) 0) as [E|E].
    + intros H. destruct (IH _ H) as (L & V & C). split_and!; [lia| |done].
      pose proof (Z.quot_rem' r 10). replace (S n - n')%nat with (S (n - n')) by lia.
      rewrite Nat2Z.inj_succ, Z.pow_succ_r by lia. lia.
    + intros [= <- <-]. rewrite Nat.sub_diag, Z.mul_1_r. split_and!; [lia|done|by right].
Qed.

Lemma strip_zeros_nonzero n r r' n' : strip_zeros n r = (r', n') -> r <> 0 -> r' <> 0.
Proof. intros H N ->. by destruct (strip_zeros_spec _ _ _ _ H) as (_ & -> & _). Qed.

(** Two stripped forms of the same rational coincide. *)
Lemma stripped_unique_le r1 r2 n1 n2 :
  (n1 <= n2)%nat -> n2 = 0%nat \/ Z.rem r2 10 <> 0 ->
  r1 * 10 ^ Z.of_nat n2 = r2 * 10 ^ Z.of_nat n1 -> r1 = r2 /\ n1 = n2.
Proof.
  intros L C E. assert (0 < 10 ^ Z.of_nat n1) by (apply pow10_pos; lia).
  replace (Z.of_nat n2) with (Z.of_nat (n2 - n1) + Z.of_nat n1) in E by lia.
  rewrite Z.pow_add_r, Z.mul_assoc in E by lia. apply Z.mul_reg_r in E; [|lia].
  destruct (decide (n1 = n2)) as [->|N].
  - rewrite Nat.sub_diag, Z.mul_1_r in E. done.
  - exfalso. destruct C as [C|C]; [lia|]. apply C. apply Z.rem_divide; [lia|].
    replace (n2 - n1)%nat with (S (n2 - n1 - 1)) in E by lia.
    rewrite Nat2Z.inj_succ, Z.pow_succ_r in E by lia.
    exists (r1 * 10 ^ Z.of_nat (n2 - n1 - 1)). lia.
Qed.

Lemma strip_zeros_unique k1 k2 r1 r2 p1 p2 :
  strip_zeros k1 r1 = p1 -> strip_zeros k2 r2 = p2 ->
  (p1 = p2 <-> r1 * 10 ^ Z.of_nat k2 = r2 * 10 ^ Z.of_nat k1).
Proof.
  destruct p1 as [q1 n1], p2 as [q2 n2]. intros H1 H2.
  destruct (strip_zeros_spec _ _ _ _ H1) as (L1 & -> & C1).
  destruct (strip_zeros_spec _ _ _ _ H2) as (L2 & -> & C2).
  assert (q1 * 10 ^ Z.of_nat (k1 - n1) * 10 ^ Z.of_nat k2 =
            q1 * 10 ^ Z.of_nat n2 * 10 ^ Z.of_nat (k1 + k2 - n1 - n2)) as ->
    by (rewrite <- !Z.mul_assoc, <- !Z.pow_add_r by lia; f_equal; f_equal; lia).
  assert (q2 * 10 ^ Z.of_nat (k2 - n2) * 10 ^ Z.of_nat k1 =
            q2 * 10 ^ Z.of_nat n1 * 10 ^ Z.of_nat (k1 + k2 - n1 - n2)) as ->
    by (rewrite <- !Z.mul_assoc, <- !Z.pow_add_r by lia; f_equal; f_equal; lia).
  split; [by intros [= <- <-]|].
  assert (0 < 10 ^ Z.of_nat (k1 + k2 - n1 - n2)) by (apply pow10_pos; lia).
  intros E%Z.mul_reg_r; [|lia].
  destruct (decide (n1 <= n2)%nat) as [L|L].
  - by destruct (stripped_unique_le q1 q2 n1 n2) as [-> ->].
  - destruct (stripped_unique_le q2 q1 n2 n1) as [-> ->]; [lia|done..].
Qed.

Lemma canonical_parts_eq_iff a b :
  Decimal.canonical_parts a = Decimal.canonical_parts b <->
  Decimal.raw a * pow10_big (Decimal.scale b) = Decimal.raw b * pow10_big (Decimal.scale a).
Proof.
  unfold Decimal.canonical_parts. pose proof (pow10_big_pos (Decimal.scale a)).
  pose proof (pow10_big_pos (Decimal.scale b)).
  destruct (strip_zeros _ (Decimal.raw a)) as [q1 n1] eqn:E1.
  destruct (strip_zeros _ (Decimal.raw b)) as [q2 n2] eqn:E2.
  pose proof (strip_zeros_unique _ _ _ _ _ _ E1 E2) as U.
  unfold pow10_big in *. rewrite !pow10_loop_spec in *.
  destruct (Z.eqb_spec (Decimal.raw a) 0) as [Za|Na], (Z.eqb_spec (Decimal.raw b) 0) as [Zb|Nb].
  - by rewrite Za, Zb.
  - apply (strip_zeros_nonzero _ _ _ _ E2) in Nb as Nq. rewrite Za. split; [congruence|nia].
  - apply (strip_zeros_nonzero _ _ _ _ E1) in Na as Nq. rewrite Zb. split; [congruence|nia].
  - rewrite <- U. split; [intros [= -> ->%Nat2Z.inj]; done | by intros [= <- <-]].
Qed.

Lemma decimal_eq_ord_spec a b :
  Decimal.wf a -> Decimal.wf b ->
  cmp a b = (dec_value a ?= dec_value b)%Q /\
  (Decimal.eq a b = true <-> cmp a b = Eq) /\
  (Decimal.eq a b = true <-> (dec_value a == dec_value b)%Q).
Proof.
  intros [_ Sa] [_ Sb].
  assert (cmp a b = (dec_value a ?= dec_value b)%Q) as C.
  { unfold cmp, Decimal.t_Ord, Decimal.numeric_cmp, Qcompare, dec_value; cbn [Qnum Qden].
    by rewrite !Z2Pos.id, !pow10_big_spec by (try apply pow10_pos; lia). }
  assert (Decimal.eq a b = true <-> cmp a b = Eq) as E.
  { unfold Decimal.eq. rewrite bool_decide_eq_true, canonical_parts_eq_iff.
    unfold cmp, Decimal.t_Ord, Decimal.numeric_cmp. by rewrite Z.compare_eq_iff. }
  split_and!; [done..|]. rewrite E, C. symmetry. apply Qeq_alt.
Qed.

(** Equality, hashing and ordering of decimals agree with the rationals
    they represent: [cmp] is the order of the rationals, and [==] (hence the
    hash, computed from the same canonical parts) holds exactly when [cmp]
    returns [Equal], so that a decimal can be the key of an ordered or a
    hashed map whatever its scale. *)
Theorem decimal_eq_ord_consistent a b :
  Decimal.wf a -> Decimal.wf b ->
  cmp a b = (dec_value a ?= dec_value b)%Q /\
  (Decimal.eq a b = true <-> cmp a b = Eq) /\
  (Decimal.eq a b = true <-> (dec_value a == dec_value b)%Q).
Proof. apply decimal_eq_ord_spec. Qed.

(** *** Text *)

Lemma strip_sign_digit c l :
  is_ascii_digit c = true -> Decimal.strip_sign (c :: l) = (false, c :: l).
Proof. by destruct c as [[] [] [] [] [] [] [] []]. Qed.

Definition signed_body (negative : bool) (whole fraction : list ascii) : list ascii :=
  (if negative then ["-"%char] else []) ++
  (if is_empty fraction then whole else whole ++ "."%char :: fraction).

Lemma strip_sign_body negative whole fraction :
  all_digits whole = true -> whole <> [] ->
  Decimal.strip_sign (signed_body negative whole fraction) =
    (negative, signed_body false whole fraction).
Proof.
  intros D N. destruct whole as [|c w]; [done|]. apply all_digits_cons in D as [D _].
  unfold signed_body. destruct negative; [done|]. cbn [app].
  destruct (is_empty fraction); cbn [app]; by apply strip_sign_digit.
Qed.

Lemma split_body whole fraction :
  all_digits whole = true -> all_digits fraction = true ->
  split_char "."%char (signed_body false whole fraction) =
    if is_empty fraction then [whole] else [whole; fraction].
Proof.
  intros Dw Df. unfold signed_body. cbn [app].
  assert ("."%char ∉ whole) by (by apply all_digits_not_elem).
  assert ("."%char ∉ fraction) by (by apply all_digits_not_elem).
  destruct (is_empty fraction); [by apply split_char_none|].
  rewrite split_char_app by done. by rewrite split_char_none.
Qed.

Lemma signed_body_nonempty negative whole fraction :
  whole <> [] -> is_empty (signed_body negative whole fraction) = false.
Proof. intros N. destruct whole, negative, fraction; done. Qed.

(** The coefficient of a literal whose magnitude fits [i128]. *)
Lemma assemble_ok (negative : bool) whole fraction :
  all_digits whole = true -> all_digits fraction = true -> zlen fraction <= MAX_DECIMAL_SCALE ->
  let magnitude := digits_value whole * 10 ^ zlen fraction + digits_value fraction in
  let raw := if negative then - magnitude else magnitude in
  ity_wf I128 raw ->
  Decimal.assemble negative whole fraction = Ok (Decimal.mk raw (zlen fraction)).
Proof.
  intros Dw Df L magnitude raw R. unfold Decimal.assemble, int_mul, int_add.
  pose proof (digits_value_range whole Dw) as Rw. pose proof (digits_value_range fraction Df) as Rf.
  pose proof (zlen_nonneg fraction) as Pf. pose proof (pow10_pos (zlen fraction) Pf) as Pp.
  assert (10 ^ zlen fraction <= 100000000000000000000000000000000000000) as Lp
    by (change (10 ^ zlen fraction <= 10 ^ MAX_DECIMAL_SCALE); apply Z.pow_le_mono_r; lia).
  assert (0 <= magnitude /\ digits_value whole <= magnitude /\
          0 <= digits_value whole * 10 ^ zlen fraction <= magnitude) as (M0 & Lw & Lm)
    by (unfold magnitude; nia).
  assert (magnitude <= ity_max I128 + 1) as M
    by (unfold raw, ity_wf in R; destruct negative; cbn [ity_min ity_max] in *; lia).
  cbn [ity_max] in M. unfold MAX_DECIMAL_SCALE in L.
  rewrite (int_try_wf U8 (zlen fraction)) by (unfold ity_wf; cbn; lia). cbn [ok_or].
  rewrite bind_of_Ok, validate_scale_Ok, bind_of_Ok by (unfold MAX_DECIMAL_SCALE; lia).
  rewrite (int_try_wf U128 (10 ^ zlen fraction)) by (unfold ity_wf; cbn [ity_min ity_max]; lia).
  rewrite (int_try_wf U128 (digits_value whole)) by (unfold ity_wf; cbn [ity_min ity_max]; lia).
  rewrite (int_try_wf U128 (digits_value fraction)) by (unfold ity_wf; cbn [ity_min ity_max]; lia).
  cbn [ok_or]. rewrite !bind_of_Ok.
  replace (if is_empty fraction then Ok 0 else Ok (digits_value fraction))
    with (@Ok ValueError Z (digits_value fraction)) by (by destruct fraction).
  rewrite bind_of_Ok, int_try_wf by (unfold ity_wf; cbn [ity_min ity_max]; lia). rewrite bind_of_Some.
  rewrite (int_try_wf U128 (_ + _)) by (unfold ity_wf; cbn [ity_min ity_max]; fold magnitude; lia).
  cbn [ok_or]. rewrite bind_of_Ok. fold magnitude. unfold raw in *. unfold ity_wf in R.
  cbn [ity_max ity_min] in *. destruct negative.
  - destruct (Z.ltb_spec (170141183460469231731687303715884105727 + 1) magnitude); [lia|].
    destruct (Z.eqb_spec magnitude (170141183460469231731687303715884105727 + 1)) as [->|];
      rewrite bind_of_Ok; by apply from_raw_Ok.
  - destruct (Z.ltb_spec 170141183460469231731687303715884105727 magnitude); [lia|].
    rewrite bind_of_Ok. by apply from_raw_Ok.
Qed.

(** A syntactically valid literal reaches [assemble]. *)
Lemma from_chars_body negative whole fraction :
  all_digits whole = true -> all_digits fraction = true -> whole <> [] ->
  Decimal.from_chars (signed_body negative whole fraction) =
    Decimal.assemble negative whole fraction.
Proof.
  intros Dw Df N. unfold Decimal.from_chars.
  rewrite (signed_body_nonempty negative), strip_sign_body, (signed_body_nonempty false), split_body
    by done.
  assert (is_empty whole = false) as Ew by (by destruct whole).
  destruct fraction as [|c f]; cbn [is_empty head tail ok_or]; rewrite !bind_of_Ok;
    cbn [is_empty negb orb]; by rewrite Ew, Dw, ?Df.
Qed.

Lemma to_chars_body d :
  0 <= Decimal.scale d ->
  let factor := 10 ^ Decimal.scale d in
  Decimal.to_chars d =
    signed_body (Decimal.raw d <? 0) (print_int (Z.abs (Decimal.raw d) / factor))
      (if Decimal.scale d =? 0 then []
       else pad_left (Z.to_nat (Decimal.scale d)) (print_int (Z.abs (Decimal.raw d) mod factor))).
Proof.
  intros P factor. unfold Decimal.to_chars, signed_body. f_equal.
  destruct (Z.eqb_spec (Decimal.scale d) 0); [done|]. fold factor.
  pose proof (pow10_pos (Decimal.scale d) P).
  pose proof (Z.mod_pos_bound (Z.abs (Decimal.raw d)) factor).
  destruct (pad_left _ _) eqn:E; [|done]. exfalso. revert E. apply pad_left_nonempty.
  eapply printed_nonempty, print_int_printed. lia.
Qed.

Lemma decimal_text_spec d :
  Decimal.wf d -> Decimal.from_str (Decimal.to_string d) = Ok d.
Proof.
  intros [R S]. unfold Decimal.from_str, Decimal.to_string.
  rewrite String.list_ascii_of_string_of_list_ascii, to_chars_body by lia.
  pose proof (pow10_pos (Decimal.scale d)) as P10.
  pose proof (Z.mod_pos_bound (Z.abs (Decimal.raw d)) (10 ^ Decimal.scale d)) as MB.
  pose proof (Z.div_mod (Z.abs (Decimal.raw d)) (10 ^ Decimal.scale d)) as DM.
  assert (0 <= Z.abs (Decimal.raw d) / 10 ^ Decimal.scale d) as DP by (apply Z.div_pos; lia).
  pose proof (print_int_printed _ DP) as PW.
  assert (printed (Z.abs (Decimal.raw d) mod 10 ^ Decimal.scale d)
    (print_int (Z.abs (Decimal.raw d) mod 10 ^ Decimal.scale d))) as PF
    by (apply print_int_printed; lia).
  set (fr := if _ =? 0 then _ else _).
  assert (all_digits fr = true /\ zlen fr = Decimal.scale d /\
          digits_value fr = Z.abs (Decimal.raw d) mod 10 ^ Decimal.scale d) as (Df & Lf & Vf).
  { unfold fr. destruct (Z.eqb_spec (Decimal.scale d) 0) as [E|N].
    - rewrite E, Z.mod_1_r. done.
    - split_and!; [apply pad_left_digits, PF| |rewrite pad_left_value; apply PF].
      unfold zlen. rewrite pad_left_length; [lia|].
      assert (zlen (print_int (Z.abs (Decimal.raw d) mod 10 ^ Decimal.scale d)) <= Decimal.scale d)
        as PL by (eapply printed_length; [exact PF|lia|lia]).
      unfold zlen in PL. lia. }
  rewrite from_chars_body; [|apply PW|done|by eapply printed_nonempty].
  rewrite assemble_ok; [|apply PW|done|lia|].
  all: rewrite Lf, Vf, (printed_value _ _ PW); destruct (Z.ltb_spec (Decimal.raw d) 0);
    try (unfold ity_wf in *; lia).
  all: f_equal; destruct d; cbn in *; f_equal; lia.
Qed.

(** Text round trip: parsing what [Display] writes gives back the same
    decimal, coefficient and scale included, for every well-formed decimal
    down to [i128::MIN]. *)
Theorem decimal_text_roundtrip d :
  Decimal.wf d -> Decimal.from_str (Decimal.to_string d) = Ok d.
Proof. apply decimal_text_spec. Qed.

(** Every decimal the parser returns is well formed. *)
Lemma assemble_wf (negative : bool) whole fraction d :
  all_digits whole = true -> all_digits fraction = true ->
  Decimal.assemble negative whole fraction = Ok d -> Decimal.wf d.
Proof.
  intros Dw Df H. unfold Decimal.assemble in H. inv_ok.
  apply int_try_Some in H0 as [-> Hsc]. apply validate_scale_inv in H1.
  destruct (int_mul U128 x2 x1) as [v|] eqn:Em; cbn in H5; [|discriminate].
  assert (0 <= x4) as M by (apply int_try_Some in H5 as [-> W]; apply W).
  unfold Decimal.from_raw in H. inv_ok. split; cbn; [|unfold ity_wf in Hsc; cbn in Hsc; lia].
  unfold ity_wf. destruct negative; inv_ok; bool_to_prop; cbn [ity_min ity_max] in *; [|lia].
  destruct (Z.eqb_spec x4 (170141183460469231731687303715884105727 + 1)); inv_ok; lia.
Qed.

Lemma from_str_wf input d : Decimal.from_str input = Ok d -> Decimal.wf d.
Proof.
  unfold Decimal.from_str, Decimal.from_chars. intros H. inv_ok.
  destruct (Decimal.strip_sign _) as [negative unsigned]. inv_ok. bool_to_prop.
  eapply assemble_wf; [| |exact H]; done.
Qed.

(** [parse_at_scale] is exact: on success the result has the requested
    scale and represents the same rational as the text; text with more
    fractional digits than the scale is rejected as [ExcessPrecision] rather
    than rounded. *)
Theorem parse_at_scale_exact input target p :
  0 <= target <= MAX_DECIMAL_SCALE -> Decimal.from_str input = Ok p ->
  match Decimal.parse_at_scale input target with
  | Ok d =>
      Decimal.scale p <= target /\ Decimal.wf d /\ Decimal.scale d = target /\
      (dec_value d == dec_value p)%Q
  | Err e =>
      (e = ExcessPrecision target /\ target < Decimal.scale p) \/
      (e = Overflow /\ ~ ity_wf I128 (Decimal.raw p * 10 ^ (target - Decimal.scale p)))
  end.
Proof.
  intros T Hp. unfold Decimal.parse_at_scale.
  rewrite validate_scale_Ok, bind_of_Ok, Hp, bind_of_Ok by lia.
  apply from_str_wf in Hp as W. destruct (Z.ltb_spec target (Decimal.scale p)) as [L|L]; [by left|].
  rewrite rescale_up by done. cbv zeta. destruct (in_ity I128 _) eqn:E.
  - apply in_ity_true in E. split_and!; [done|by split|done|]. destruct W as [_ S].
    destruct p as [r s]. apply dec_value_up; cbn in *; lia.
  - right. by apply in_ity_false in E.
Qed.

(** Scaling quotient and remainder apart loses nothing. *)
Lemma quot_scale_split v p d :
  0 <= p -> 0 < d ->
  Z.quot (v * p) d = Z.quot v d * p + Z.quot (Z.rem v d * p) d.
Proof.
  intros P D. pose proof (Z.quot_rem' v d) as QR.
  replace (v * p) with (Z.rem v d * p + Z.quot v d * p * d) by lia.
  rewrite Z.quot_add by (try lia;
    replace (Z.rem v d * p + Z.quot v d * p * d) with (v * p) by lia;
    pose proof (Z.rem_sign_mul v d); nia).
  lia.
Qed.

Lemma quot_scale_bound v p d :
  0 <= p <= d -> 0 < d -> - Z.abs v <= Z.quot (v * p) d <= Z.abs v.
Proof.
  intros P D. pose proof (Z.quot_rem' (v * p) d) as QR.
  destruct (decide (0 <= v)) as [Pv|Nv].
  - pose proof (Z.rem_bound_pos (v * p) d). pose proof (Z.quot_pos (v * p) d). nia.
  - pose proof (Z.rem_bound_pos_neg (v * p) d). nia.
Qed.

(** Scaling by a probability never overflows and is exact truncation: for
    every [i128] value and every valid [ppm] the result is [value * ppm / 10^6]
    rounded toward zero, although the code never forms the 148-bit product. *)
Theorem scale_toward_zero_total ppm value :
  ProbabilityPpm.wf ppm -> ity_wf I128 value ->
  ProbabilityPpm.checked_scale_i128_toward_zero ppm value =
    Ok (Z.quot (value * ppm) 1000000).
Proof.
  intros P V. unfold ProbabilityPpm.wf in P. unfold ity_wf in V. cbn [ity_min ity_max] in V.
  assert (0 < 1000000) as D by lia.
  pose proof (quot_scale_bound value ppm 1000000 P D) as B.
  pose proof (quot_scale_bound (Z.rem value 1000000) ppm 1000000 P D) as BR.
  pose proof (quot_scale_bound value 1 1000000 ltac:(lia) D) as BQ. rewrite Z.mul_1_r in BQ.
  rewrite (quot_scale_split value ppm 1000000) in * by lia.
  pose proof (Z.quot_rem' value 1000000) as QR.
  assert (- 1000000 < Z.rem value 1000000 < 1000000) as RB
    by (pose proof (Z.rem_bound_abs value 1000000); lia).
  assert (0 <= value -> 0 <= Z.rem value 1000000) by (pose proof (Z.rem_bound_pos value 1000000); lia).
  assert (value <= 0 -> Z.rem value 1000000 <= 0) by (pose proof (Z.rem_bound_pos_neg value
      1000000); lia).
  unfold ProbabilityPpm.checked_scale_i128_toward_zero, int_div, int_rem, int_mul, int_add.
  change (1000000 =? 0) with false. cbv zeta iota.
  assert (ity_wf I128 (Z.quot value 1000000)) as W1 by (unfold ity_wf; cbn [ity_min ity_max]; lia).
  rewrite (int_try_wf _ _ W1). apply in_ity_true in W1. rewrite W1. cbn [ok_or].
  rewrite !bind_of_Ok.
  rewrite (int_try_wf I128 (Z.quot value 1000000 * ppm))
    by (unfold ity_wf; cbn [ity_min ity_max]; nia).
  rewrite (int_try_wf I128 (Z.rem value 1000000 * ppm))
    by (unfold ity_wf; cbn [ity_min ity_max]; nia).
  rewrite bind_of_Some. cbn [ok_or]. rewrite bind_of_Ok.
  rewrite (int_try_wf I128 (Z.quot (_ * _) _)) by (unfold ity_wf; cbn [ity_min ity_max]; lia).
  cbn [ok_or]. rewrite bind_of_Ok.
  rewrite int_try_wf by (unfold ity_wf; cbn [ity_min ity_max]; lia). done.
Qed.

(** ** Concrete instances *)

Lemma checked_mul_correct_witness :
  exists q, rounds_to NearestTiesToEven
      (dec_value (Decimal.mk 12345 2) * dec_value (Decimal.mk (-7) 1) * pow10Q 2) q /\
    Decimal.checked_mul (Decimal.mk 12345 2) (Decimal.mk (-7) 1) 2 NearestTiesToEven =
      (if in_ity I128 q then Ok (Decimal.mk q 2) else Err Overflow).
Proof.
  apply (checked_mul_correct (Decimal.mk 12345 2) (Decimal.mk (-7) 1) 2 NearestTiesToEven);
    vm_compute; intuition discriminate.
Defined.

Lemma checked_div_correct_witness :
  Decimal.checked_div (Decimal.mk 1 0) (Decimal.mk 0 3) 4 Floor = Err DivisionByZero.
Proof.
  apply (checked_div_correct (Decimal.mk 1 0) (Decimal.mk 0 3) 4 Floor);
    vm_compute; intuition discriminate.
Defined.

Lemma checked_add_sub_exact_witness :
  add_sub_spec (Decimal.mk 5 1) (Decimal.mk 7 1) 12
    (dec_value (Decimal.mk 5 1) + dec_value (Decimal.mk 7 1)) (Ok (Decimal.mk 12 1)).
Proof.
  apply (checked_add_sub_exact (Decimal.mk 5 1) (Decimal.mk 7 1));
    vm_compute; intuition discriminate.
Defined.

Lemma decimal_eq_ord_consistent_witness :
  Decimal.eq (Decimal.mk 150 2) (Decimal.mk 15 1) = true <->
  (dec_value (Decimal.mk 150 2) == dec_value (Decimal.mk 15 1))%Q.
Proof.
  apply (decimal_eq_ord_consistent (Decimal.mk 150 2) (Decimal.mk 15 1));
    vm_compute; intuition discriminate.
Defined.

Lemma decimal_text_roundtrip_witness :
  Decimal.to_string (Decimal.mk (-1050) 3) = "-1.050"%string /\
  Decimal.from_str (Decimal.to_string (Decimal.mk (-1050) 3)) = Ok (Decimal.mk (-1050) 3).
Proof.
  split; [vm_compute; reflexivity|].
  apply (decimal_text_roundtrip (Decimal.mk (-1050) 3)). vm_compute; intuition discriminate.
Defined.

Lemma parse_at_scale_exact_witness :
  exists d, Decimal.parse_at_scale "12.5" 4 = Ok d /\ (dec_value d == dec_value (Decimal.mk 125 1))%Q.
Proof.
  assert (Decimal.parse_at_scale "12.5" 4 = Ok (Decimal.mk 125000 4)) as E
    by (vm_compute; reflexivity).
  pose proof (parse_at_scale_exact "12.5" 4 (Decimal.mk 125 1)) as H. rewrite E in *.
  exists (Decimal.mk 125000 4). split; [reflexivity|].
  apply H; vm_compute; intuition discriminate.
Defined.
