(* ===== verification/Notional.v ===== *)
(** * Exact quote notionals: [ExactQuoteNotional] of [domain-types/src/decimal.rs]

    The product of a price and a quantity is kept exactly, as a coefficient of
    at most 512 bits and a scale of at most 76, always in lowest terms. The
    file models its constructors, arithmetic, order and canonical text, and
    shows that the representation is unique, the arithmetic exact, and the
    text a bijection. *)

From Stdlib Require Import Strings.Ascii QArith.
From S2P Require Import Prelude Ordering Digits FixedPoint.
#[local] Open Scope Z_scope.

Definition MAX_NOTIONAL_SCALE : Z := 76.
Definition MAX_NOTIONAL_COEFFICIENT_BITS : Z := 512.
Definition MAX_NOTIONAL_DECIMAL_DIGITS : Z := 155.
Definition MAX_NOTIONAL_WIRE_BYTES : Z := 256.

(** [BigInt::bits]: the bit length of the magnitude. *)
Definition bits (z : Z) : Z := if z =? 0 then 0 else Z.log2 (Z.abs z) + 1.

Definition validate_notional_scale (scale : Z) : result ValueError unit :=
  if MAX_NOTIONAL_SCALE <? scale then Err (ScaleOutOfRange scale MAX_NOTIONAL_SCALE) else Ok tt.

Definition validate_notional_coefficient (coefficient : Z) : result ValueError unit :=
  if MAX_NOTIONAL_COEFFICIENT_BITS <? bits coefficient then Err OutOfRange else Ok tt.

Definition canonicalize_notional (coefficient scale : Z) : Z * Z :=
  if coefficient =? 0 then (0, 0) else
  let '(c, n) := strip_zeros (Z.to_nat scale) coefficient in (c, Z.of_nat n).

Module ExactQuoteNotional.
Record t := mk { coefficient : Z; scale : Z }.

#[global] Instance t_eq_dec : EqDecision t.
Proof. solve_decision. Defined.

Definition from_coefficient (coefficient scale : Z) : result ValueError t :=
  _ ← validate_notional_scale scale;
  let '(coefficient, scale) := canonicalize_notional coefficient scale in
  _ ← validate_notional_coefficient coefficient;
  Ok (mk coefficient scale).

Definition checked_product (price : Price) (quantity : Quantity) : result ValueError t :=
  let coefficient := Decimal.raw price * Decimal.raw quantity in
  scale ← int_add U8 (Decimal.scale price) (Decimal.scale quantity) ?? Overflow;
  from_coefficient coefficient scale.

Definition checked_coefficient_at_scale (self : t) (target_scale : Z) : result ValueError Z :=
  _ ← validate_notional_scale target_scale;
  if target_scale <? scale self
  then Err (DownwardExactRescale (scale self) target_scale) else
  let c := coefficient self * pow10_big (target_scale - scale self) in
  _ ← validate_notional_coefficient c;
  Ok c.

Definition checked_add (self rhs : t) : result ValueError t :=
  let target_scale := Z.max (scale self) (scale rhs) in
  left ← checked_coefficient_at_scale self target_scale;
  right ← checked_coefficient_at_scale rhs target_scale;
  from_coefficient (left + right) target_scale.

Definition checked_sub (self rhs : t) : result ValueError t :=
  let target_scale := Z.max (scale self) (scale rhs) in
  left ← checked_coefficient_at_scale self target_scale;
  right ← checked_coefficient_at_scale rhs target_scale;
  from_coefficient (left - right) target_scale.

Definition coefficient_at_scale_for_ordering (self : t) (target_scale : Z) : Z :=
  coefficient self * pow10_big (target_scale - scale self).

(** [Ord::cmp] *)
#[global] Instance t_Ord : Ord t := fun self other =>
  let target_scale := Z.max (scale self) (scale other) in
  Z.compare (coefficient_at_scale_for_ordering self target_scale)
            (coefficient_at_scale_for_ordering other target_scale).

Definition ends_with (c : ascii) (l : list ascii) : bool :=
  match last l with Some x => bool_decide (x = c) | None => false end.
Definition starts_with (c : ascii) (l : list ascii) : bool :=
  match head l with Some x => bool_decide (x = c) | None => false end.

(** The sign prefix: [strip_prefix('-')], and a leading ['+'] is invalid. *)
Definition strip_minus (input : list ascii) : result ValueError (bool * list ascii) :=
  match input with
  | "-"%char :: rest => Ok (true, rest)
  | "+"%char :: _ => Err Invalid
  | _ => Ok (false, input)
  end.

(** The fractional part: absent, or non-empty digits not ending in zero. *)
Definition check_fraction (fraction : option (list ascii)) : result ValueError (list ascii) :=
  match fraction with
  | Some value =>
      if negb (is_empty value) && all_digits value && negb (ends_with chr0 value)
      then Ok value else Err Invalid
  | None => Ok []
  end.

(** [FromStr::from_str], on the bytes of the input. *)
Definition from_chars (input : list ascii) : result ValueError t :=
  if MAX_NOTIONAL_WIRE_BYTES <? zlen input then Err OutOfRange else
  if is_empty input then Err Invalid else
  '(negative, unsigned) ← strip_minus input;
  if is_empty unsigned then Err Invalid else
  let parts := split_char "."%char unsigned in
  whole ← head parts ?? Invalid;
  let fraction := head (tail parts) in
  if negb (is_empty (tail (tail parts))) || is_empty whole || negb (all_digits whole)
     || ((1 <? zlen whole) && starts_with chr0 whole)
  then Err Invalid else
  fraction ← check_fraction fraction;
  if negative && bool_decide (whole = [chr0]) && is_empty fraction then Err Invalid else
  digit_count ← int_add USIZE (zlen whole) (zlen fraction) ?? OutOfRange;
  if MAX_NOTIONAL_DECIMAL_DIGITS <? digit_count then Err OutOfRange else
  scale ← int_try U8 (zlen fraction) ?? OutOfRange;
  _ ← validate_notional_scale scale;
  let digits := whole ++ fraction in
  let c := digits_value digits in
  let c := if (negative : bool) then - c else c in
  from_coefficient c scale.

Definition from_str (input : string) : result ValueError t :=
  from_chars (String.list_ascii_of_string input).

(** [Display::fmt] *)
Definition to_chars (self : t) : list ascii :=
  let digits := print_int (Z.abs (coefficient self)) in
  let scale := Z.to_nat (scale self) in
  (if coefficient self <? 0 then ["-"%char] else []) ++
  (if Nat.eqb scale 0 then digits
   else if Nat.leb (length digits) scale
   then chr0 :: "."%char :: replicate (scale - length digits) chr0 ++ digits
   else let split := (length digits - scale)%nat in
        take split digits ++ "."%char :: drop split digits).

Definition to_string (self : t) : string := String.string_of_list_ascii (to_chars self).

(** Canonical form: lowest terms, within the scale and width limits. *)
Definition wf (n : t) : Prop :=
  0 <= scale n <= MAX_NOTIONAL_SCALE /\
  Z.abs (coefficient n) < 2 ^ MAX_NOTIONAL_COEFFICIENT_BITS /\
  (scale n = 0 \/ Z.rem (coefficient n) 10 <> 0).
End ExactQuoteNotional.

Example notional_text_ex :
  ExactQuoteNotional.from_str "-0.0305" = Ok (ExactQuoteNotional.mk (-305) 4) /\
  ExactQuoteNotional.to_string (ExactQuoteNotional.mk (-305) 4) = "-0.0305"%string.
Proof. vm_compute. done. Qed.

(** ** Specification *)

Definition ntl_value (n : ExactQuoteNotional.t) : Q :=
  ExactQuoteNotional.coefficient n # Z.to_pos (10 ^ ExactQuoteNotional.scale n).

Lemma bits_le c : bits c <= MAX_NOTIONAL_COEFFICIENT_BITS <->
  Z.abs c < 2 ^ MAX_NOTIONAL_COEFFICIENT_BITS.
Proof.
  unfold bits. destruct (Z.eqb_spec c 0) as [->|N]; [done|].
  rewrite (Z.log2_lt_pow2 (Z.abs c)) by lia. unfold MAX_NOTIONAL_COEFFICIENT_BITS. lia.
Qed.

Lemma validate_coefficient_spec c :
  validate_notional_coefficient c =
    if Z.abs c <? 2 ^ MAX_NOTIONAL_COEFFICIENT_BITS then Ok tt else Err OutOfRange.
Proof.
  unfold validate_notional_coefficient. pose proof (bits_le c).
  destruct (Z.ltb_spec MAX_NOTIONAL_COEFFICIENT_BITS (bits c)),
    (Z.ltb_spec (Z.abs c) (2 ^ MAX_NOTIONAL_COEFFICIENT_BITS)); try done; lia.
Qed.

Lemma validate_notional_scale_Ok s :
  s <= MAX_NOTIONAL_SCALE -> validate_notional_scale s = Ok tt.
Proof. intros. unfold validate_notional_scale. by rewrite (proj2 (Z.ltb_ge _ _)). Qed.

Lemma canonicalize_spec c s c' s' :
  0 <= s -> canonicalize_notional c s = (c', s') ->
  0 <= s' <= s /\ (s' = 0 \/ Z.rem c' 10 <> 0) /\ Z.abs c' <= Z.abs c /\
  (ntl_value (ExactQuoteNotional.mk c' s') == ntl_value (ExactQuoteNotional.mk c s))%Q.
Proof.
  intros P. unfold canonicalize_notional. destruct (Z.eqb_spec c 0) as [->|N].
  - intros [= <- <-]. split_and!; [lia|lia|by left|lia|]. reflexivity.
  - destruct (strip_zeros _ c) as [q n] eqn:E. intros [= <- <-].
    destruct (strip_zeros_spec _ _ _ _ E) as (L & V & C).
    assert (0 < 10 ^ Z.of_nat (Z.to_nat s - n)) by (apply pow10_pos; lia).
    split_and!; [lia|lia|destruct C as [->|C]; [by left|by right]|nia|].
    unfold ntl_value, Qeq; cbn [ExactQuoteNotional.coefficient ExactQuoteNotional.scale Qnum Qden].
    rewrite !Z2Pos.id by (apply pow10_pos; lia). rewrite V, <- Z.mul_assoc, <- Z.pow_add_r by lia.
    do 2 f_equal. lia.
Qed.

(** Constructing a notional: the canonical form of the same rational, refused
    only when even the canonical coefficient is too wide. *)
Lemma from_coefficient_spec c s :
  0 <= s <= MAX_NOTIONAL_SCALE ->
  match ExactQuoteNotional.from_coefficient c s with
  | Ok n => ExactQuoteNotional.wf n /\ (ntl_value n == ntl_value (ExactQuoteNotional.mk c s))%Q
  | Err e => e = OutOfRange /\ 2 ^ MAX_NOTIONAL_COEFFICIENT_BITS <= Z.abs c
  end.
Proof.
  intros S. unfold ExactQuoteNotional.from_coefficient.
  rewrite validate_notional_scale_Ok, bind_of_Ok by lia.
  destruct (canonicalize_notional c s) as [c' s'] eqn:E.
  destruct (canonicalize_spec c s c' s') as (S' & C & A & V); [lia|done|].
  rewrite validate_coefficient_spec.
  destruct (Z.ltb_spec (Z.abs c') (2 ^ MAX_NOTIONAL_COEFFICIENT_BITS)); cbn.
  - split; [|done]. split_and!; cbn; [lia|lia|done..].
  - split; [done|lia].
Qed.

Lemma ntl_value_div c s :
  0 <= s -> (ntl_value (ExactQuoteNotional.mk c s) == inject_Z c / pow10Q s)%Q.
Proof. intros P. apply (dec_value_div (Decimal.mk c s)). done. Qed.

Lemma checked_product_spec price quantity :
  Decimal.wf price -> Decimal.wf quantity ->
  exists n,
    ExactQuoteNotional.checked_product price quantity = Ok n /\
    ExactQuoteNotional.wf n /\
    (ntl_value n == dec_value price * dec_value quantity)%Q.
Proof.
  intros [Rp Sp] [Rq Sq]. unfold ExactQuoteNotional.checked_product, int_add.
  unfold MAX_DECIMAL_SCALE, ity_wf in *. cbn [ity_min ity_max] in *.
  rewrite int_try_wf by (unfold ity_wf; cbn; lia). cbn [ok_or]. rewrite bind_of_Ok.
  pose proof (from_coefficient_spec (Decimal.raw price * Decimal.raw quantity)
    (Decimal.scale price + Decimal.scale quantity)) as F.
  destruct (ExactQuoteNotional.from_coefficient _ _) as [n|e].
  - exists n. destruct F as [W V]; [unfold MAX_NOTIONAL_SCALE; lia|]. split_and!; [done..|].
    rewrite V, ntl_value_div, !dec_value_div, pow10Q_add, inject_Z_mult by lia.
    field. split; apply pow10Q_nonzero; lia.
  - exfalso. destruct F as [_ B]; [unfold MAX_NOTIONAL_SCALE; lia|].
    assert (Z.abs (Decimal.raw price * Decimal.raw quantity) <= 2 ^ 127 * 2 ^ 127) as U
      by (rewrite Z.abs_mul; apply Z.mul_le_mono_nonneg; lia).
    change (2 ^ MAX_NOTIONAL_COEFFICIENT_BITS) with (2 ^ 512) in B.
    assert (2 ^ 127 * 2 ^ 127 < 2 ^ 512) by done. lia.
Qed.

(** The notional of an order is exact and always representable: for every
    well-formed price and quantity, [checked_product] succeeds, its result is
    canonical, and its value is the exact rational product. *)
Theorem checked_product_exact price quantity :
  Decimal.wf price -> Decimal.wf quantity ->
  exists n,
    ExactQuoteNotional.checked_product price quantity = Ok n /\
    ExactQuoteNotional.wf n /\
    (ntl_value n == dec_value price * dec_value quantity)%Q.
Proof. apply checked_product_spec. Qed.

(** The coefficient at a wider scale, in exact integers. *)
Definition at_scale (n : ExactQuoteNotional.t) (t : Z) : Z :=
  ExactQuoteNotional.coefficient n * 10 ^ (t - ExactQuoteNotional.scale n).
Definition too_wide (c : Z) : Prop := 2 ^ MAX_NOTIONAL_COEFFICIENT_BITS <= Z.abs c.

(** Widening a coefficient keeps the value. *)
Lemma coefficient_at_scale_spec n t :
  ExactQuoteNotional.wf n -> ExactQuoteNotional.scale n <= t <= MAX_NOTIONAL_SCALE ->
  match ExactQuoteNotional.checked_coefficient_at_scale n t with
  | Ok c => c = at_scale n t /\ (inject_Z c / pow10Q t == ntl_value n)%Q
  | Err e => e = OutOfRange /\ too_wide (at_scale n t)
  end.
Proof.
  intros (S & _ & _) T. unfold ExactQuoteNotional.checked_coefficient_at_scale, at_scale, too_wide.
  rewrite validate_notional_scale_Ok, bind_of_Ok by lia.
  destruct (Z.ltb_spec t (ExactQuoteNotional.scale n)); [lia|]. cbv zeta.
  rewrite validate_coefficient_spec, pow10_big_spec by lia.
  destruct (Z.ltb_spec (Z.abs (ExactQuoteNotional.coefficient n *
    10 ^ (t - ExactQuoteNotional.scale n))) (2 ^ MAX_NOTIONAL_COEFFICIENT_BITS));
    [rewrite bind_of_Ok|by rewrite bind_of_Err]. split; [done|].
  destruct n as [c s]; cbn [ExactQuoteNotional.coefficient ExactQuoteNotional.scale] in *.
  rewrite ntl_value_div, inject_Z_mult by lia. fold (pow10Q (t - s)).
  assert (pow10Q t == pow10Q (t - s) * pow10Q s)%Q as ->
    by (rewrite <- pow10Q_add by lia; by replace (t - s + s) with t by lia).
  field. split; apply pow10Q_nonzero; lia.
Qed.

Lemma notional_add_sub_spec a b :
  ExactQuoteNotional.wf a -> ExactQuoteNotional.wf b ->
  let t := Z.max (ExactQuoteNotional.scale a) (ExactQuoteNotional.scale b) in
  match ExactQuoteNotional.checked_add a b with
  | Ok n => ExactQuoteNotional.wf n /\ (ntl_value n == ntl_value a + ntl_value b)%Q
  | Err e => e = OutOfRange /\
      (too_wide (at_scale a t) \/ too_wide (at_scale b t) \/ too_wide (at_scale a t + at_scale b t))
  end /\
  match ExactQuoteNotional.checked_sub a b with
  | Ok n => ExactQuoteNotional.wf n /\ (ntl_value n == ntl_value a - ntl_value b)%Q
  | Err e => e = OutOfRange /\
      (too_wide (at_scale a t) \/ too_wide (at_scale b t) \/ too_wide (at_scale a t - at_scale b t))
  end.
Proof.
  intros Wa Wb t. unfold ExactQuoteNotional.checked_add, ExactQuoteNotional.checked_sub. cbv zeta.
  fold t. destruct Wa as (Sa & Ca), Wb as (Sb & Cb).
  assert (0 <= t <= MAX_NOTIONAL_SCALE) as T by lia. pose proof (pow10Q_nonzero t (proj1 T)) as NZ.
  assert (ExactQuoteNotional.scale a <= t <= MAX_NOTIONAL_SCALE) as Ta by lia.
  assert (ExactQuoteNotional.scale b <= t <= MAX_NOTIONAL_SCALE) as Tb by lia.
  pose proof (coefficient_at_scale_spec a t (conj Sa Ca) Ta) as Ha.
  pose proof (coefficient_at_scale_spec b t (conj Sb Cb) Tb) as Hb.
  destruct (ExactQuoteNotional.checked_coefficient_at_scale a t) as [l|e];
    [|rewrite !bind_of_Err; by destruct Ha; auto].
  destruct (ExactQuoteNotional.checked_coefficient_at_scale b t) as [r|e];
    [|rewrite !bind_of_Ok, !bind_of_Err; by destruct Hb; auto].
  rewrite !bind_of_Ok. destruct Ha as [-> Ha], Hb as [-> Hb].
  split; [pose proof (from_coefficient_spec (at_scale a t + at_scale b t) t T) as F
         |pose proof (from_coefficient_spec (at_scale a t - at_scale b t) t T) as F];
    (destruct (ExactQuoteNotional.from_coefficient _ t) as [n|e];
      [|destruct F; unfold too_wide; auto]);
    destruct F as [W V]; (split; [done|]); rewrite V, ntl_value_div, <- Ha, <- Hb by lia;
    [rewrite inject_Z_plus|unfold Z.sub; rewrite inject_Z_plus, inject_Z_opp]; by field.
Qed.

(** Adding and subtracting notionals is exact: the result is the canonical
    form of the exact sum or difference. The only failure is [OutOfRange], and
    only when an operand or the result, written at the common scale, needs more
    than 512 bits. *)
Theorem notional_add_sub_exact a b :
  ExactQuoteNotional.wf a -> ExactQuoteNotional.wf b ->
  let t := Z.max (ExactQuoteNotional.scale a) (ExactQuoteNotional.scale b) in
  match ExactQuoteNotional.checked_add a b with
  | Ok n => ExactQuoteNotional.wf n /\ (ntl_value n == ntl_value a + ntl_value b)%Q
  | Err e => e = OutOfRange /\
      (too_wide (at_scale a t) \/ too_wide (at_scale b t) \/ too_wide (at_scale a t + at_scale b t))
  end /\
  match ExactQuoteNotional.checked_sub a b with
  | Ok n => ExactQuoteNotional.wf n /\ (ntl_value n == ntl_value a - ntl_value b)%Q
  | Err e => e = OutOfRange /\
      (too_wide (at_scale a t) \/ too_wide (at_scale b t) \/ too_wide (at_scale a t - at_scale b t))
  end.
Proof. apply notional_add_sub_spec. Qed.

(** Notionals are in one-to-one correspondence with the rationals they
    denote: two canonical notionals with the same value are identical (so the
    derived [PartialEq] and [Hash] are value equality), and [cmp] is the order
    of the values. *)
Theorem notional_canonical_order a b :
  ExactQuoteNotional.wf a -> ExactQuoteNotional.wf b ->
  cmp a b = (ntl_value a ?= ntl_value b)%Q /\ ((ntl_value a == ntl_value b)%Q <-> a = b).
Proof.
  intros (Sa & _ & Ca) (Sb & _ & Cb). destruct a as [ca sa], b as [cb sb].
  cbn [ExactQuoteNotional.coefficient ExactQuoteNotional.scale] in *. split.
  - unfold cmp, ExactQuoteNotional.t_Ord, ExactQuoteNotional.coefficient_at_scale_for_ordering,
      Qcompare, ntl_value; cbn [ExactQuoteNotional.coefficient ExactQuoteNotional.scale Qnum Qden].
    set (t := Z.max sa sb). rewrite !Z2Pos.id, !pow10_big_spec by (try apply pow10_pos; lia).
    assert (0 < 10 ^ (sa + sb - t)) as P by (apply pow10_pos; lia).
    rewrite (Zmult_compare_compat_r _ _ (10 ^ (sa + sb - t))), <- !Z.mul_assoc, <- !Z.pow_add_r by lia.
    f_equal; f_equal; f_equal; lia.
  - split; [|by intros [= -> ->]]. unfold ntl_value, Qeq;
      cbn [ExactQuoteNotional.coefficient ExactQuoteNotional.scale Qnum Qden].
    rewrite !Z2Pos.id by (apply pow10_pos; lia). intros E.
    rewrite <- (Z2Nat.id sa), <- (Z2Nat.id sb) in E by lia.
    destruct (decide (sa <= sb)) as [L|L].
    + destruct (stripped_unique_le ca cb (Z.to_nat sa) (Z.to_nat sb)) as [-> Es]; [lia| |done|].
      * destruct Cb as [->|Cb]; [by left|by right].
      * f_equal. lia.
    + destruct (stripped_unique_le cb ca (Z.to_nat sb) (Z.to_nat sa)) as [-> Es]; [lia| |done|].
      * destruct Ca as [->|Ca]; [by left|by right].
      * f_equal. lia.
Qed.

(** ** Canonical text *)

(** A sign, an integer part without leading zeros and a fraction without
    trailing zeros; zero has no sign. *)
Record text_ok (negative : bool) (whole fraction : list ascii) : Prop := {
  text_whole : all_digits whole = true;
  text_fraction : all_digits fraction = true;
  text_canonical : canonical_digits whole;
  text_trailing : fraction = [] \/ exists f c, fraction = f ++ [c] /\ c <> chr0;
  text_sign : negative = true -> whole = [chr0] -> fraction <> [];
}.

Definition text_value (negative : bool) (whole fraction : list ascii) : Z :=
  let c := digits_value (whole ++ fraction) in if negative then - c else c.


Lemma text_digits negative whole fraction (T : text_ok negative whole fraction) : all_digits (whole
    ++ fraction) = true.
Proof. apply all_digits_app. split; apply T. Qed.

Lemma text_last negative whole fraction (T : text_ok negative whole fraction) : fraction <> [] ->
    Z.rem (text_value negative whole fraction) 10 <> 0.
Proof.
  intros N. destruct (text_trailing _ _ _ T) as [|(f & c & -> & Nc)]; [done|].
  pose proof (text_fraction _ _ _ T) as Df. apply all_digits_app in Df as [_ Dc].
  apply all_digits_cons in Dc as [Dc _].
  pose proof (digits_value_range _ (text_digits _ _ _ T)) as R. rewrite app_assoc in *.
  pose proof (digit_val_range c Dc) as Rc.
  assert (digit_val c <> 0) by (intros E; by apply Nc, digit_val_inj).
  assert (Z.rem (digits_value ((whole ++ f) ++ [c])) 10 = digit_val c) as E.
  { rewrite Z.rem_mod_nonneg, digits_value_snoc, Z.add_comm, Z_mod_plus_full by lia.
    apply Z.mod_small. lia. }
  unfold text_value. rewrite app_assoc.
  destruct negative; rewrite ?Z.rem_opp_l by lia; lia.
Qed.

Lemma text_nonzero negative whole fraction (T : text_ok negative whole fraction) : negative = true
    -> 0 < digits_value (whole ++ fraction).
Proof.
  intros Ng. pose proof (digits_value_range _ (text_digits _ _ _ T)).
  destruct (decide (digits_value (whole ++ fraction) = 0)) as [Z0|]; [exfalso|lia].
  destruct (decide (fraction = [])) as [Ef|Nf].
  - pose proof (text_canonical _ _ _ T) as C. pose proof (text_whole _ _ _ T) as D.
    rewrite Ef, app_nil_r in Z0.
    destruct (decide (whole = [chr0])) as [Ew|Nw]; [by apply (text_sign _ _ _ T Ng Ew)|].
    pose proof (canonical_digits_lower _ D C Nw). pose proof (pow10_pos (zlen whole - 1)).
    destruct C as [|(c & t & Ew & _)]; [done|].
    assert (1 <= zlen whole) by (rewrite Ew, zlen_cons; pose proof (zlen_nonneg t); lia). lia.
  - pose proof (text_last _ _ _ T Nf) as L. unfold text_value in L. rewrite Z0 in L. by destruct
      negative.
Qed.

Lemma text_value_neg negative whole fraction (T : text_ok negative whole fraction) : (text_value
    negative whole fraction <? 0) = negative.
Proof.
  unfold text_value. pose proof (digits_value_range _ (text_digits _ _ _ T)). pose proof
      (text_nonzero _ _ _ T).
  destruct negative; [apply Z.ltb_lt|apply Z.ltb_ge]; lia.
Qed.

Lemma text_value_abs negative whole fraction (T : text_ok negative whole fraction) : Z.abs
    (text_value negative whole fraction) = digits_value (whole ++ fraction).
Proof. unfold text_value. pose proof (digits_value_range _ (text_digits _ _ _ T)). destruct
    negative; lia. Qed.

Lemma text_whole_nonempty negative whole fraction (T : text_ok negative whole fraction) : whole <> [].
Proof. destruct (text_canonical _ _ _ T) as [->|(c & t & -> & _)]; done. Qed.

(** What [Display] writes for the notional of a canonical text. *)
Lemma to_chars_text negative whole fraction (T : text_ok negative whole fraction) :
  ExactQuoteNotional.to_chars
    (ExactQuoteNotional.mk (text_value negative whole fraction) (zlen fraction)) =
  signed_body negative whole fraction.
Proof.
  unfold ExactQuoteNotional.to_chars, signed_body.
  cbn [ExactQuoteNotional.coefficient ExactQuoteNotional.scale]. cbv zeta.
  rewrite (text_value_neg _ _ _ T), (text_value_abs _ _ _ T). f_equal. unfold zlen. rewrite Nat2Z.id.
  destruct fraction as [|x f] eqn:Ef.
  - cbn. rewrite app_nil_r. apply print_digits_value; apply T.
  - rewrite <- Ef in *. assert (fraction <> []) as Nf by (by rewrite Ef).
    replace (is_empty fraction) with false by (by rewrite Ef).
    replace (Nat.eqb (length fraction) 0) with false by (by rewrite Ef).
    destruct (decide (whole = [chr0])) as [Ew|Nw].
    + rewrite Ew, digits_value_app. change (digits_value [chr0]) with 0. rewrite Z.mul_0_l, Z.add_0_l.
      pose proof (text_fraction _ _ _ T) as Df. pose proof (digits_value_range _ Df).
      assert (length (print_int (digits_value fraction)) <= length fraction)%nat as L.
      { assert (zlen (print_int (digits_value fraction)) <= zlen fraction); [|unfold zlen in *; lia].
        eapply printed_length; [apply print_int_printed; lia|lia|]. unfold zlen. rewrite Ef. cbn. lia. }
      rewrite (proj2 (Nat.leb_le _ _) L). cbn [app]. do 2 f_equal.
      apply pad_left_print; [done|done|rewrite Ef; cbn; lia].
    + assert (canonical_digits (whole ++ fraction)) as C.
      { right. destruct (text_canonical _ _ _ T) as [|(c & t & -> & Nc)]; [done|].
        by exists c, (t ++ fraction). }
      rewrite print_digits_value by (done || exact (text_digits _ _ _ T)).
      pose proof (text_whole_nonempty _ _ _ T). rewrite length_app.
      assert (0 < length whole)%nat by (destruct whole; [done|cbn; lia]).
      rewrite (proj2 (Nat.leb_gt _ _)) by lia.
      replace (length whole + length fraction - length fraction)%nat with (length whole) by lia.
      by rewrite take_app_length, drop_app_length.
Qed.

Lemma canonicalize_id c s :
  0 <= s -> s = 0 \/ Z.rem c 10 <> 0 -> canonicalize_notional c s = (c, s).
Proof.
  intros P C. unfold canonicalize_notional. destruct (Z.eqb_spec c 0) as [->|N].
  - destruct C as [->|C]; [done|]. by rewrite Z.rem_0_l in C.
  - destruct (Z.to_nat s) as [|k] eqn:E; cbn [strip_zeros]; [f_equal; lia|].
    destruct (Z.eqb_spec (Z.rem c 10) 0) as [Z0|]; [destruct C; [lia|done]|]. f_equal; lia.
Qed.

(** A coefficient in lowest terms is kept as it is, or refused. *)
Lemma from_coefficient_canonical c s :
  0 <= s <= MAX_NOTIONAL_SCALE -> s = 0 \/ Z.rem c 10 <> 0 ->
  ExactQuoteNotional.from_coefficient c s =
    if Z.abs c <? 2 ^ MAX_NOTIONAL_COEFFICIENT_BITS
    then Ok (ExactQuoteNotional.mk c s) else Err OutOfRange.
Proof.
  intros S C. unfold ExactQuoteNotional.from_coefficient.
  rewrite validate_notional_scale_Ok, bind_of_Ok, canonicalize_id by (lia || done).
  rewrite validate_coefficient_spec. by destruct (_ <? _).
Qed.

Lemma text_stripped negative whole fraction :
  text_ok negative whole fraction ->
  zlen fraction = 0 \/ Z.rem (text_value negative whole fraction) 10 <> 0.
Proof.
  intros T. destruct (decide (fraction = [])) as [->|N]; [by left|right]. by apply text_last.
Qed.

Lemma strip_minus_body negative whole fraction :
  all_digits whole = true -> whole <> [] ->
  ExactQuoteNotional.strip_minus (signed_body negative whole fraction) =
    Ok (negative, signed_body false whole fraction).
Proof.
  intros D N. destruct whole as [|c w]; [done|]. apply all_digits_cons in D as [D _].
  unfold signed_body. destruct negative; [done|]. cbn [app].
  destruct (is_empty fraction), c as [[] [] [] [] [] [] [] []]; done.
Qed.

Lemma check_fraction_ok negative whole fraction :
  text_ok negative whole fraction ->
  ExactQuoteNotional.check_fraction (if is_empty fraction then None else Some fraction)
    = Ok fraction.
Proof.
  intros T. destruct (text_trailing _ _ _ T) as [->|(f & c & -> & N)]; [done|].
  pose proof (text_fraction _ _ _ T) as D.
  assert (is_empty (f ++ [c]) = false) as E by (by destruct f). rewrite E. cbn.
  rewrite E, D. unfold ExactQuoteNotional.ends_with. rewrite last_snoc, bool_decide_false by done.
  done.
Qed.

Lemma canonical_no_leading_zero whole :
  canonical_digits whole ->
  (1 <? zlen whole) && ExactQuoteNotional.starts_with chr0 whole = false.
Proof.
  intros [->|(c & t & -> & N)]; [done|]. unfold ExactQuoteNotional.starts_with. cbn [head].
  rewrite bool_decide_false by done. apply andb_false_r.
Qed.

(** Parsing a canonical text within the limits. *)
Lemma from_chars_text negative whole fraction :
  text_ok negative whole fraction -> zlen fraction <= MAX_NOTIONAL_SCALE ->
  zlen whole + zlen fraction <= MAX_NOTIONAL_DECIMAL_DIGITS ->
  digits_value (whole ++ fraction) < 2 ^ MAX_NOTIONAL_COEFFICIENT_BITS ->
  ExactQuoteNotional.from_chars (signed_body negative whole fraction) =
    Ok (ExactQuoteNotional.mk (text_value negative whole fraction) (zlen fraction)).
Proof.
  intros T Lf Ld B. pose proof (text_whole_nonempty _ _ _ T) as N.
  pose proof (text_whole _ _ _ T) as Dw. pose proof (zlen_nonneg whole). pose proof (zlen_nonneg
      fraction).
  unfold ExactQuoteNotional.from_chars, MAX_NOTIONAL_DECIMAL_DIGITS, MAX_NOTIONAL_SCALE in *.
  assert (zlen (signed_body negative whole fraction) <= 157) as Lb.
  { unfold signed_body. destruct negative, (is_empty fraction); autorewrite with rust; lia. }
  rewrite (proj2 (Z.ltb_ge _ _)) by (unfold MAX_NOTIONAL_WIRE_BYTES; lia).
  rewrite signed_body_nonempty, strip_minus_body, bind_of_Ok, signed_body_nonempty, split_body
    by (done || apply T).
  assert (is_empty whole = false) as Ew by (by destruct whole).
  assert (head (if is_empty fraction then [whole] else [whole; fraction]) = Some whole) as ->
    by (by destruct (is_empty fraction)).
  cbn [ok_or]. rewrite bind_of_Ok.
  assert (tail (tail (if is_empty fraction then [whole] else [whole; fraction])) = []) as ->
    by (by destruct (is_empty fraction)).
  rewrite Ew, Dw, (canonical_no_leading_zero _ (text_canonical _ _ _ T)). cbn [is_empty negb orb].
  assert (head (tail (if is_empty fraction then [whole] else [whole; fraction])) =
            if is_empty fraction then None else Some fraction) as ->
    by (by destruct (is_empty fraction)).
  rewrite (check_fraction_ok _ _ _ T), bind_of_Ok.
  assert (negative && bool_decide (whole = [chr0]) && is_empty fraction = false) as ->.
  { destruct negative; [|done]. case_bool_decide as Ez; [|done].
    pose proof (text_sign _ _ _ T eq_refl Ez). by destruct fraction. }
  unfold int_add.
  rewrite (int_try_wf USIZE) by (unfold ity_wf; cbn [ity_min ity_max]; lia).
  cbn [ok_or]. rewrite bind_of_Ok, (proj2 (Z.ltb_ge _ _)) by lia.
  rewrite int_try_wf by (unfold ity_wf; cbn [ity_min ity_max]; lia).
  cbn [ok_or]. rewrite bind_of_Ok, validate_notional_scale_Ok, bind_of_Ok by done.
  fold (text_value negative whole fraction).
  rewrite from_coefficient_canonical, text_value_abs, (proj2 (Z.ltb_lt _ _))
    by (done || by apply text_stripped). done.
Qed.

(** The digits of a stripped coefficient end in a non-zero digit. *)
Lemma digits_trailing l :
  all_digits l = true -> l <> [] -> Z.rem (digits_value l) 10 <> 0 ->
  exists f c, l = f ++ [c] /\ c <> chr0.
Proof.
  intros D N R. destruct (exists_last N) as (f & c & ->). exists f, c. split; [done|].
  intros ->. apply R. rewrite digits_value_snoc. change (digit_val chr0) with 0.
  rewrite Z.add_0_r. by apply Z.rem_mul.
Qed.

Lemma wf_digit_bound c :
  Z.abs c < 2 ^ MAX_NOTIONAL_COEFFICIENT_BITS -> Z.abs c < 10 ^ MAX_NOTIONAL_DECIMAL_DIGITS.
Proof. intros B. eapply Z.lt_le_trans; [exact B|]. by vm_compute. Qed.

(** Digits of a stripped coefficient, split anywhere after a canonical integer
    part, are a canonical text. *)
Lemma build_text c whole fraction :
  all_digits (whole ++ fraction) = true -> digits_value (whole ++ fraction) = Z.abs c ->
  canonical_digits whole -> (fraction <> [] -> Z.rem c 10 <> 0) ->
  text_ok (c <? 0) whole fraction /\ c = text_value (c <? 0) whole fraction.
Proof.
  intros Da Va Kw C. apply all_digits_app in Da as [Dw Df]. split.
  - split; [done..| |].
    + destruct (decide (fraction = [])) as [|Nf]; [by left|right].
      apply digits_trailing; [done..|]. specialize (C Nf). contradict C.
      apply Z.rem_divide in C; [|lia]. apply Z.rem_divide; [lia|].
      apply Z.divide_abs_r. rewrite <- Va, digits_value_app.
      apply Z.divide_add_r; [|done]. apply Z.divide_mul_r.
      destruct fraction as [|x f]; [done|]. rewrite zlen_cons, Z.pow_add_r
        by (pose proof (zlen_nonneg f); lia). apply Z.divide_factor_l.
    + intros Hn%Z.ltb_lt -> ->. change (digits_value ([chr0] ++ [])) with 0 in Va. lia.
  - unfold text_value. rewrite Va. destruct (Z.ltb_spec c 0); lia.
Qed.

(** Every canonical notional has a canonical text. *)
Lemma wf_text n :
  ExactQuoteNotional.wf n ->
  exists negative whole fraction,
    text_ok negative whole fraction /\ zlen whole + zlen fraction <= MAX_NOTIONAL_DECIMAL_DIGITS /\
    n = ExactQuoteNotional.mk (text_value negative whole fraction) (zlen fraction).
Proof.
  destruct n as [c s]. intros (S & B & C); cbn in *. apply wf_digit_bound in B.
  assert (printed (Z.abs c) (print_int (Z.abs c))) as P by (apply print_int_printed; lia).
  pose proof (printed_length _ _ _ P B ltac:(unfold MAX_NOTIONAL_DECIMAL_DIGITS; lia)) as L.
  destruct P as [D V K]. set (ds := print_int (Z.abs c)) in *. unfold zlen in L.
  set (k := (length ds - Z.to_nat s)%nat).
  set (whole := if decide (zlen ds <= s) then [chr0] else take k ds).
  set (fraction := if decide (s = 0) then []
                   else if decide (zlen ds <= s) then pad_left (Z.to_nat s) ds else drop k ds).
  assert (1 <= zlen ds) as L1.
  { destruct K as [E|(x & t & E & _)]; rewrite E; [done|]. rewrite zlen_cons.
    pose proof (zlen_nonneg t). lia. }
  assert (zlen fraction = s) as Lf.
  { unfold fraction, k, zlen in *. repeat case_decide; [done|rewrite pad_left_length; lia|].
    rewrite length_drop. lia. }
  assert (zlen whole + zlen fraction <= MAX_NOTIONAL_DECIMAL_DIGITS) as Ls.
  { rewrite Lf. unfold whole, k, zlen, MAX_NOTIONAL_DECIMAL_DIGITS, MAX_NOTIONAL_SCALE in *.
    case_decide; [cbn; lia|]. rewrite length_take. lia. }
  destruct (build_text c whole fraction) as [T E].
  5: { exists (c <? 0), whole, fraction. split_and!; [done..|]. by rewrite Lf, <- E. }
  all: unfold whole, fraction, k; repeat case_decide; try lia.
  - apply all_digits_app. split; [done|by apply pad_left_digits].
  - rewrite app_nil_r. rewrite take_ge by (unfold zlen in *; lia). done.
  - by rewrite take_drop.
  - by rewrite digits_value_app, pad_left_value.
  - rewrite app_nil_r. rewrite take_ge by (unfold zlen in *; lia). done.
  - by rewrite take_drop.
  - by left.
  - destruct K as [E|(x & t & E & Nx)]; rewrite E; unfold zlen in *; rewrite E in *; cbn [length] in *.
    + assert (Z.to_nat s = 0%nat) as -> by lia. by left.
    + right. replace (Datatypes.S (length t) - Z.to_nat s)%nat
        with (Datatypes.S (length t - Z.to_nat s)) by lia. cbn. by eexists _, _.
  - intros []. done.
Qed.

(** The parser's checks are exactly canonicity. *)
Lemma text_ok_of_checks negative whole o fraction :
  is_empty whole = false -> all_digits whole = true ->
  (1 <? zlen whole) = false \/ ExactQuoteNotional.starts_with chr0 whole = false ->
  ExactQuoteNotional.check_fraction o = Ok fraction ->
  negative && bool_decide (whole = [chr0]) = false \/ is_empty fraction = false ->
  text_ok negative whole fraction /\ o = if is_empty fraction then None else Some fraction.
Proof.
  intros Ew Dw Z0 Cf Sg.
  assert (canonical_digits whole) as K.
  { destruct whole as [|c w]; [done|]. destruct (decide (c = chr0)) as [->|N]; [|right; by eexists _, _].
    left. destruct Z0 as [Z0|Z0].
    - apply Z.ltb_ge in Z0. rewrite zlen_cons in Z0. destruct w; [done|].
      rewrite zlen_cons in Z0. pose proof (zlen_nonneg w). lia.
    - unfold ExactQuoteNotional.starts_with in Z0. cbn in Z0. by rewrite bool_decide_true in Z0. }
  assert (negative = true -> whole = [chr0] -> fraction <> []) as Sg'.
  { intros -> -> ->. destruct Sg as [Sg|Sg]; [|done]. cbn in Sg. by rewrite bool_decide_true in Sg. }
  destruct o as [v|]; cbn in Cf; inv_ok; bool_to_prop; [|by split; [split; try done; by left|]].
  destruct (is_empty fraction) eqn:Ef; [done|]. split; [|done]. split; try done. right.
  assert (fraction <> []) as Nf by (by destruct fraction).
  destruct (exists_last Nf) as (f & c & ->). exists f, c. split; [done|]. intros ->.
  unfold ExactQuoteNotional.ends_with in *. rewrite last_snoc, bool_decide_true in * by done. done.
Qed.

Lemma strip_minus_inv l negative unsigned :
  ExactQuoteNotional.strip_minus l = Ok (negative, unsigned) ->
  l = (if negative then ["-"%char] else []) ++ unsigned.
Proof.
  destruct l as [|c r]; [by intros [= <- <-]|].
  destruct c as [[] [] [] [] [] [] [] []]; cbn; by intros [= <- <-].
Qed.

(** The texts the parser accepts. *)
Lemma from_chars_inv l n :
  ExactQuoteNotional.from_chars l = Ok n ->
  exists negative whole fraction,
    text_ok negative whole fraction /\ l = signed_body negative whole fraction /\
    zlen fraction <= MAX_NOTIONAL_SCALE /\
    ExactQuoteNotional.from_coefficient (text_value negative whole fraction) (zlen fraction) = Ok n.
Proof.
  unfold ExactQuoteNotional.from_chars. intros H. inv_ok.
  destruct x as [negative unsigned]. inv_ok. bool_to_prop.
  apply strip_minus_inv in H0. set (parts := split_char "."%char unsigned) in *.
  destruct parts as [|whole [|fr [|]]] eqn:Ep; cbn [head tail] in *; simplify_eq.
  all: destruct (text_ok_of_checks negative x _ _ H9 H8 H7 H2 Hb3) as [T Eo].
  all: apply int_try_Some in H4 as [-> _].
  all: assert (zlen x0 <= MAX_NOTIONAL_SCALE) as L
    by (unfold validate_notional_scale in H5; inv_ok; bool_to_prop; done).
  all: exists negative, x, x0; split_and!; [done| |done|done].
  all: unfold signed_body; f_equal; destruct (is_empty x0); simplify_eq.
  - by apply split_char_1 in Ep.
  - by apply split_char_2 in Ep.
Qed.

(** Notional text is canonical in both directions: parsing what [Display]
    writes returns the notional, and every accepted input is exactly what
    [Display] writes for the notional it denotes, so each value has one wire
    spelling. *)
Theorem notional_text_bijective :
  (forall n, ExactQuoteNotional.wf n ->
     ExactQuoteNotional.from_str (ExactQuoteNotional.to_string n) = Ok n) /\
  (forall s n, ExactQuoteNotional.from_str s = Ok n ->
     ExactQuoteNotional.wf n /\ ExactQuoteNotional.to_string n = s).
Proof.
  unfold ExactQuoteNotional.from_str, ExactQuoteNotional.to_string. split.
  - intros n W. destruct (wf_text n W) as (negative & whole & fraction & T & L & ->).
    rewrite String.list_ascii_of_string_of_list_ascii, to_chars_text by done.
    destruct W as (S & B & _). cbn in S, B. rewrite text_value_abs in B by done.
    apply from_chars_text; [done|lia|done..].
  - intros s n H. destruct (from_chars_inv _ _ H) as (negative & whole & fraction & T & E & L & F).
    pose proof (from_coefficient_spec (text_value negative whole fraction) (zlen fraction)
      (conj (zlen_nonneg _) L)) as Sp. rewrite F in Sp. destruct Sp as [W _]. split; [done|].
    rewrite from_coefficient_canonical in F
      by (by apply text_stripped || (split; [apply zlen_nonneg|done])).
    inv_ok. rewrite to_chars_text, <- E by done. apply String.string_of_list_ascii_of_string.
Qed.

(** ** Concrete instances *)

Lemma checked_product_exact_witness :
  exists n, ExactQuoteNotional.checked_product (Decimal.mk 9990 2) (Decimal.mk 2500 3) = Ok n /\
    ExactQuoteNotional.wf n /\
    (ntl_value n == dec_value (Decimal.mk 9990 2) * dec_value (Decimal.mk 2500 3))%Q.
Proof.
  apply (checked_product_exact (Decimal.mk 9990 2) (Decimal.mk 2500 3));
    vm_compute; intuition discriminate.
Defined.

Lemma notional_add_sub_exact_witness :
  match ExactQuoteNotional.checked_sub (ExactQuoteNotional.mk 25 1) (ExactQuoteNotional.mk 5 0) with
  | Ok n => ExactQuoteNotional.wf n /\
      (ntl_value n == ntl_value (ExactQuoteNotional.mk 25 1) - ntl_value (ExactQuoteNotional.mk 5 0))%Q
  | Err _ => False
  end.
Proof.
  pose proof (notional_add_sub_exact (ExactQuoteNotional.mk 25 1) (ExactQuoteNotional.mk 5 0)) as H.
  apply H; vm_compute; intuition discriminate.
Defined.

Lemma notional_canonical_order_witness :
  cmp (ExactQuoteNotional.mk 25 1) (ExactQuoteNotional.mk 3 0) =
    (ntl_value (ExactQuoteNotional.mk 25 1) ?= ntl_value (ExactQuoteNotional.mk 3 0))%Q.
Proof.
  apply (notional_canonical_order (ExactQuoteNotional.mk 25 1) (ExactQuoteNotional.mk 3 0));
    vm_compute; intuition discriminate.
Defined.
