(* ===== verification/Ids.v ===== *)
(** * Identifiers: [domain-types/src/ids.rs] and [shared.rs]

    String identifiers are non-empty and carry no surrounding white space;
    addresses are 20 bytes written as lower-case hexadecimal. The [hex] crate
    is a parameter with its documented laws. *)

From Stdlib Require Import Strings.Ascii Strings.Byte Strings.String.
From S2P Require Import Prelude Ordering Bytes FixedPoint.

(** ** String identifiers *)

(** The UTF-8 encodings of the [White_Space] characters [str::trim] removes. A
    [str] is valid UTF-8, so a character starts or ends it exactly when its
    encoding does. *)
Definition white_space : list bytes :=
  [[x09]; [x0a]; [x0b]; [x0c]; [x0d]; [x20]; [xc2; x85]; [xc2; xa0]; [xe1; x9a; x80];
   [xe2; x80; x80]; [xe2; x80; x81]; [xe2; x80; x82]; [xe2; x80; x83]; [xe2; x80; x84];
   [xe2; x80; x85]; [xe2; x80; x86]; [xe2; x80; x87]; [xe2; x80; x88]; [xe2; x80; x89];
   [xe2; x80; x8a]; [xe2; x80; xa8]; [xe2; x80; xa9]; [xe2; x80; xaf]; [xe2; x81; x9f];
   [xe3; x80; x80]]%byte.

Fixpoint is_prefix (p l : bytes) : bool :=
  match p, l with
  | [], _ => true
  | x :: p, y :: l => Byte.eqb x y && is_prefix p l
  | _ :: _, [] => false
  end.

(** [value.trim() != value] *)
Definition trim_changes (value : string) : bool :=
  existsb (fun w => is_prefix w (as_bytes value) || is_prefix (reverse w) (reverse (as_bytes value)))
    white_space.

Definition string_id_new (value : string) : result ValueError string :=
  if bool_decide (value = EmptyString) || trim_changes value then Err Invalid else Ok value.

Definition id_wf (value : string) : Prop := string_id_new value = Ok value.
#[global] Instance id_wf_dec value : Decision (id_wf value).
Proof.
  unfold id_wf, string_id_new. destruct (_ || _); [right; discriminate|left; reflexivity].
Defined.

Lemma string_id_new_inv v w : string_id_new v = Ok w -> v = w /\ id_wf w.
Proof.
  unfold id_wf. intros E. assert (v = w) as ->; [|done].
  unfold string_id_new in E. inv_ok. done.
Qed.

Definition OrderId := string.
Definition MarketId := string.
Definition ClientOrderId := string.
Definition BlockHeight := Z.

(** ** Order sides *)

Inductive OrderSide := Buy | Sell.
#[global] Instance OrderSide_eq_dec : EqDecision OrderSide.
Proof. solve_decision. Defined.

Definition side_as_wire_name (s : OrderSide) : string := match s with Buy => "buy" | Sell => "sell" end.
Definition side_parse_wire (value : string) : result ValueError OrderSide :=
  if bool_decide (value = "buy"%string) then Ok Buy
  else if bool_decide (value = "sell"%string) then Ok Sell else Err Invalid.

Lemma side_wire_roundtrip s : side_parse_wire (side_as_wire_name s) = Ok s.
Proof. by destruct s. Qed.

(** ** Directions and horizons *)

Inductive Direction := Long | Short | Flat.
#[global] Instance Direction_eq_dec : EqDecision Direction.
Proof. solve_decision. Defined.

(** A [Horizon] is a [u64] of microseconds. *)
Definition Horizon := Z.

(** ** Addresses *)

Definition Address := bytes.
Definition address_wf (a : Address) : Prop := length a = 20%nat.

(** The [hex] crate: [encode] and [decode_to_slice] into [n] bytes. *)
Class Hex := {
  hex_encode : bytes -> string;
  hex_decode_to_slice : nat -> string -> option bytes;
}.

Definition is_ascii_uppercase (b : byte) : bool :=
  (65 <=? Z_of_byte b) && (Z_of_byte b <=? 90).

(** A decimal digit or one of [a] to [f]. *)
Definition is_hex_digit (b : byte) : bool :=
  ((48 <=? Z_of_byte b) && (Z_of_byte b <=? 57)) || ((97 <=? Z_of_byte b) && (Z_of_byte b <=? 102)).

Class HexLaws `{Hex} : Prop := {
  hex_roundtrip : forall l, hex_decode_to_slice (length l) (hex_encode l) = Some l;
  hex_encode_length : forall l, zlen (as_bytes (hex_encode l)) = 2 * zlen l;
  hex_encode_lower : forall l, existsb is_ascii_uppercase (as_bytes (hex_encode l)) = false;
  hex_encode_digits : forall l, forallb is_hex_digit (as_bytes (hex_encode l)) = true;
}.

Section address.
Context `{Hex}.

(** [strip_prefix("0x")] *)
Definition strip_0x (input : string) : option string :=
  match input with
  | String "0" (String "x" rest) => Some rest
  | _ => None
  end%char.

Definition parse_api (input : string) : result ValueError Address :=
  hex_value ← strip_0x input ?? Invalid;
  if negb (zlen (as_bytes hex_value) =? 40) || existsb is_ascii_uppercase (as_bytes hex_value)
  then Err Invalid else
  hex_decode_to_slice 20 hex_value ?? Invalid.

Definition to_api_string (a : Address) : string := "0x" +:+ hex_encode a.

Lemma address_roundtrip `{!HexLaws} a : address_wf a -> parse_api (to_api_string a) = Ok a.
Proof.
  intros L. unfold parse_api, to_api_string. change (strip_0x _) with (Some (hex_encode a)).
  cbn [ok_or]. rewrite bind_of_Ok.
  rewrite hex_encode_length, hex_encode_lower. unfold zlen. rewrite L.
  change (negb (2 * Z.of_nat 20 =? 40) || false) with false. cbv iota.
  rewrite <- L, hex_roundtrip. done.
Qed.
End address.

(** ** A concrete [hex] *)

Definition hex_char (d : Z) : byte := byte_of_Z (if d <? 10 then 48 + d else 87 + d).
Definition hex_value (b : byte) : option Z :=
  let z := Z_of_byte b in
  if (48 <=? z) && (z <=? 57) then Some (z - 48)
  else if (97 <=? z) && (z <=? 102) then Some (z - 87) else None.

Fixpoint hex_encode_bytes (l : bytes) : bytes :=
  match l with
  | [] => []
  | b :: l => hex_char (Z_of_byte b / 16) :: hex_char (Z_of_byte b mod 16) :: hex_encode_bytes l
  end.
Fixpoint hex_decode_bytes (n : nat) (l : bytes) : option bytes :=
  match n, l with
  | O, [] => Some []
  | S n, h :: lo :: l =>
      x ← hex_value h; y ← hex_value lo; rest ← hex_decode_bytes n l;
      Some (byte_of_Z (16 * x + y) :: rest)
  | _, _ => None
  end.

#[local] Instance sample_hex : Hex := {
  hex_encode l := String.string_of_list_byte (hex_encode_bytes l);
  hex_decode_to_slice n s := hex_decode_bytes n (as_bytes s);
}.

Lemma as_bytes_of l : as_bytes (String.string_of_list_byte l) = l.
Proof. apply String.list_byte_of_string_of_list_byte. Qed.

#[local] Instance sample_hex_laws : HexLaws.
Proof.
  split; intros l; unfold hex_encode, hex_decode_to_slice, sample_hex; rewrite as_bytes_of;
    induction l as [|b l IH]; try done.
  - cbn [length hex_encode_bytes hex_decode_bytes]. rewrite IH. by destruct b.
  - cbn [hex_encode_bytes]. rewrite !zlen_cons, IH. lia.
  - cbn [hex_encode_bytes existsb]. rewrite IH. by destruct b.
  - cbn [hex_encode_bytes forallb]. rewrite IH. by destruct b.
Qed.
