(* ===== verification/Margin.v ===== *)
(** * Margin models: [crates/margin-models/src]

    An account's margin requirement from its positions, the oracle prices and
    its mode. The shared arithmetic of [model.rs] either represents a value
    exactly at the scale of the collateral or refuses; the six models of
    [standard.rs], [isolated.rs], [unified.rs], [portfolio.rs], [hip3.rs] and
    [outcome.rs] combine the requirements, and [evaluate] of [lib.rs] selects
    among them. The file models all of it and proves the assessments exact. *)

From Stdlib Require Import Strings.Byte Strings.String QArith Qminmax Lqa.
From S2P Require Import Prelude Ordering BTreeMap Bytes Digits FixedPoint Notional Ids.
Local Open Scope string_scope.
Local Open Scope Z_scope.

(** ** Data *)

Definition DexId := string.
Definition FeeRate := Decimal.t.
Definition PositionQuantity := Decimal.t.
Definition MarginRatio := Decimal.t.

Definition HIP3_RULES_V1 : string := "hip3-margin@1.0.0".
Definition PORTFOLIO_RULES_UNSUPPORTED_EXACT : string :=
  "portfolio margin is not exactly reconstructible from V1 canonical inputs".

Inductive AccountModeMetadata :=
| StandardCross
| StandardIsolated (market_id : MarketId)
| Unified
| Portfolio (rules_version : string)
| Hip3 (dex_id : DexId) (rules_version : string)
| Outcome (market_id : MarketId).

Record PositionState := mkPosition {
  pos_market_id : MarketId;
  pos_quantity : PositionQuantity;
  initial_margin_rate : FeeRate;
  maintenance_margin_rate : FeeRate;
}.

Record MarginInput := mkMarginInput {
  account_id : Address;
  mode : AccountModeMetadata;
  collateral_value : UsdAmount;
  positions : list PositionState;
  oracle_prices : btmap MarketId Price;
  metadata_block : BlockHeight;
}.

Inductive LiquidationEstimate :=
| ExactTrigger (trigger_price : Price)
| RangeEstimate (lower upper : Price) (why : string)
| NotApplicable.

Inductive CalculationConfidence := ExactConfidence | Bounded | Unsupported.
#[global] Instance CalculationConfidence_eq_dec : EqDecision CalculationConfidence.
Proof. solve_decision. Defined.

Record MarginAssessment := mkAssessment {
  initial_margin : UsdAmount;
  maintenance_margin : UsdAmount;
  margin_ratio_of : MarginRatio;
  liquidation : LiquidationEstimate;
  confidence : CalculationConfidence;
  reconciliation_fields : btmap string string;
}.

Inductive MarginError :=
| UnsupportedVersion
| MissingInput (what : string)
| Calculation (why : string).

(** The [MarginModel] trait. *)
Record MarginModel := mkModel {
  model_id : string;
  supports : AccountModeMetadata -> bool;
  model_evaluate : MarginInput -> result MarginError MarginAssessment;
}.

Inductive PositionSide := Long | Short.
#[global] Instance PositionSide_eq_dec : EqDecision PositionSide.
Proof. solve_decision. Defined.

Record PositionRequirement := mkRequirement {
  req_market_id : MarketId;
  req_side : PositionSide;
  oracle : Price;
  req_abs_quantity : Quantity;
  req_initial : UsdAmount;
  req_maintenance : UsdAmount;
}.

(** ** Errors as text: the [Display] of [ValueError] *)

Definition show (z : Z) : string := String.string_of_list_ascii (print_int z).

Definition value_error_text (e : ValueError) : string :=
  match e with
  | Empty => "empty decimal"
  | Invalid => "invalid decimal"
  | ExcessPrecision allowed =>
      "decimal has more than " +:+ show allowed +:+ " fractional digits"
  | ScaleOutOfRange scale maximum =>
      "scale " +:+ show scale +:+ " exceeds maximum " +:+ show maximum
  | ScaleMismatch l r => "scales differ: left=" +:+ show l +:+ ", right=" +:+ show r
  | DownwardExactRescale s t =>
      "exact rescale cannot reduce scale from " +:+ show s +:+ " to " +:+ show t
  | OutOfRange => "value is outside the permitted range"
  | DivisionByZero => "division by zero"
  | Overflow => "fixed-point arithmetic overflow"
  end.

Definition map_value_error (e : ValueError) : MarginError := Calculation (value_error_text e).

(** ** Exact arithmetic *)

Definition pow10 (exponent : Z) : result MarginError Z := Ok (10 ^ exponent).

Definition div_rem (numerator denominator : Z) : result MarginError (Z * Z) :=
  if denominator =? 0 then Err (Calculation "division by zero") else
  let quotient := Z.quot numerator denominator in
  Ok (quotient, numerator - quotient * denominator).

Definition rescale_exact (coefficient from_scale to_scale : Z) : result MarginError Z :=
  if from_scale =? to_scale then Ok coefficient else
  if from_scale <? to_scale
  then factor ← pow10 (to_scale - from_scale); Ok (coefficient * factor) else
  divisor ← pow10 (from_scale - to_scale);
  qr ← div_rem coefficient divisor;
  if negb (qr.2 =? 0)
  then Err (Calculation "usd conversion is not exact at the collateral scale")
  else Ok qr.1.

Definition usd_from_notional_rate (notional : ExactQuoteNotional.t) (rate : FeeRate) (usd_scale : Z)
  : result MarginError UsdAmount :=
  let coefficient := ExactQuoteNotional.coefficient notional * Decimal.raw rate in
  scale ← int_add U32 (ExactQuoteNotional.scale notional) (Decimal.scale rate)
            ?? Calculation "notional rate scale overflowed";
  scaled ← rescale_exact coefficient scale usd_scale;
  raw ← int_try I128 scaled ?? Calculation "usd amount overflowed i128";
  map_err map_value_error (Decimal.from_raw raw usd_scale).

Definition abs_quantity (quantity : PositionQuantity) : result MarginError Quantity :=
  let raw := Decimal.raw quantity in
  if raw =? ity_min I128
  then Err (Calculation "position quantity absolute value overflowed")
  else map_err map_value_error (Decimal.from_raw (Z.abs raw) (Decimal.scale quantity)).

Definition margin_ratio (collateral maintenance : UsdAmount) : result MarginError MarginRatio :=
  if negb (Decimal.scale collateral =? Decimal.scale maintenance)
  then Err (Calculation "ratio operands must share a scale") else
  if Decimal.raw maintenance =? 0 then
    if Decimal.raw collateral <? 0
    then Err (Calculation "negative collateral with zero maintenance is undefined")
    else map_err map_value_error (Decimal.from_raw 0 (Decimal.scale collateral)) else
  factor ← pow10 (Decimal.scale collateral);
  qr ← div_rem (Decimal.raw collateral * factor) (Decimal.raw maintenance);
  if negb (qr.2 =? 0)
  then Err (Calculation "margin ratio is not an exact fixed-point value") else
  raw ← int_try I128 qr.1 ?? Calculation "margin ratio overflowed i128";
  map_err map_value_error (Decimal.from_raw raw (Decimal.scale collateral)).

Fixpoint sum_from (total : UsdAmount) (values : list UsdAmount) : result MarginError UsdAmount :=
  match values with
  | [] => Ok total
  | value :: values =>
      total ← map_err map_value_error (Decimal.checked_add total value);
      sum_from total values
  end.

Definition sum_usd (values : list UsdAmount) (scale : Z) : result MarginError UsdAmount :=
  total ← map_err map_value_error (Decimal.from_raw 0 scale);
  sum_from total values.

Definition max_usd (l r : UsdAmount) : result MarginError UsdAmount :=
  if negb (Decimal.scale l =? Decimal.scale r)
  then Err (Calculation "usd amounts must share a scale")
  else if Decimal.raw r <=? Decimal.raw l then Ok l else Ok r.

(** ** Requirements *)

Definition requirement_of (usd_scale : Z) (oracles : btmap MarketId Price) (position : PositionState)
  : result MarginError PositionRequirement :=
  if (Decimal.raw (initial_margin_rate position) <? 0) ||
     (Decimal.raw (maintenance_margin_rate position) <? 0)
  then Err (Calculation "margin rates must be nonnegative") else
  oracle ← bt_get (pos_market_id position) oracles
             ?? MissingInput ("oracle:" +:+ pos_market_id position);
  if Decimal.raw oracle <=? 0 then Err (Calculation "oracle price must be positive") else
  abs_quantity ← abs_quantity (pos_quantity position);
  notional ← map_err map_value_error (ExactQuoteNotional.checked_product oracle abs_quantity);
  let side := if 0 <? Decimal.raw (pos_quantity position) then Long else Short in
  initial ← usd_from_notional_rate notional (initial_margin_rate position) usd_scale;
  maintenance ← usd_from_notional_rate notional (maintenance_margin_rate position) usd_scale;
  Ok (mkRequirement (pos_market_id position) side oracle abs_quantity initial maintenance).

(** The loop over the positions, skipping flat ones. *)
Fixpoint requirements_loop (usd_scale : Z) (oracles : btmap MarketId Price)
  (l : list PositionState) : result MarginError (list PositionRequirement) :=
  match l with
  | [] => Ok []
  | position :: l =>
      if Decimal.raw (pos_quantity position) =? 0 then requirements_loop usd_scale oracles l else
      r ← requirement_of usd_scale oracles position;
      rs ← requirements_loop usd_scale oracles l;
      Ok (r :: rs)
  end.

Definition requirements (input : MarginInput) : result MarginError (list PositionRequirement) :=
  requirements_loop (Decimal.scale (collateral_value input)) (oracle_prices input) (positions input).

(** ** Liquidation estimates *)

Definition exact_trigger_price (requirement : PositionRequirement) (collateral : UsdAmount)
  : result MarginError LiquidationEstimate :=
  let rate := req_maintenance requirement in
  if Decimal.raw rate =? 0 then Ok NotApplicable else
  qr ← div_rem (Decimal.raw collateral * Decimal.raw (oracle requirement)) (Decimal.raw rate);
  if negb (qr.2 =? 0)
  then Ok (RangeEstimate (oracle requirement) (oracle requirement)
             "liquidation trigger is not an exact fixed-point price") else
  trigger ← int_try I128 qr.1 ?? Calculation "liquidation trigger overflowed i128";
  trigger_price ← map_err map_value_error
    (Decimal.from_raw trigger (Decimal.scale (oracle requirement)));
  if Decimal.raw trigger_price <=? 0 then Ok NotApplicable else Ok (ExactTrigger trigger_price).

Definition single_market_liquidation (requirement : PositionRequirement) (collateral : UsdAmount)
  : result MarginError LiquidationEstimate :=
  if Decimal.raw (req_maintenance requirement) =? 0 then Ok NotApplicable else
  if Decimal.eq collateral (req_maintenance requirement)
  then Ok (ExactTrigger (oracle requirement))
  else exact_trigger_price requirement collateral.

(** [Iterator::min] keeps the first of equal elements, [max] the last. *)
Definition min_price (x : Price) (l : list Price) : Price :=
  fold_left (fun m y => if ltb y m then y else m) l x.
Definition max_price (x : Price) (l : list Price) : Price :=
  fold_left (fun m y => if ltb y m then m else y) l x.

Definition oracle_range (r : PositionRequirement) (rs : list PositionRequirement) (why : string)
  : LiquidationEstimate :=
  RangeEstimate (min_price (oracle r) (oracle <$> rs)) (max_price (oracle r) (oracle <$> rs)) why.

(** The [match] of the cross and HIP-3 models. *)
Definition cross_liquidation (required : list PositionRequirement) (collateral : UsdAmount)
  (why : string) : result MarginError LiquidationEstimate :=
  match required with
  | [] => Ok NotApplicable
  | [single] => single_market_liquidation single collateral
  | r :: rs => Ok (oracle_range r rs why)
  end.

Section models.
Context `{Hex}.

Definition assessment (input : MarginInput) (initial maintenance : UsdAmount)
  (liq : LiquidationEstimate) (conf : CalculationConfidence) (extra : btmap string string)
  : result MarginError MarginAssessment :=
  if match liq with ExactTrigger _ => negb (bool_decide (conf = ExactConfidence)) | _ => false end
  then Err (Calculation "exact liquidation requires exact confidence") else
  let fields := bt_insert "account_id" (to_api_string (account_id input)) extra in
  let fields := bt_insert "metadata_block" (show (metadata_block input)) fields in
  ratio ← margin_ratio (collateral_value input) maintenance;
  Ok (mkAssessment initial maintenance ratio liq conf fields).

Definition require_supported (id : string) (supports : AccountModeMetadata -> bool)
  (input : MarginInput) : result MarginError unit :=
  if supports (mode input) then Ok tt
  else Err (Calculation (id +:+ " does not support the supplied account mode")).

(** Both margins of a set of requirements. *)
Definition total_margins (required : list PositionRequirement) (scale : Z)
  : result MarginError (UsdAmount * UsdAmount) :=
  initial ← sum_usd (req_initial <$> required) scale;
  maintenance ← sum_usd (req_maintenance <$> required) scale;
  Ok (initial, maintenance).

Definition collect (l : list (string * string)) : btmap string string := bt_extend [] l.
Definition of_market (m : MarketId) (rs : list PositionRequirement) : list PositionRequirement :=
  List.filter (fun r => bool_decide (req_market_id r = m)) rs.
Definition of_side (s : PositionSide) (rs : list PositionRequirement) : list PositionRequirement :=
  List.filter (fun r => bool_decide (req_side r = s)) rs.

(** [standard.rs] *)
Definition cross_id : string := "hyperliquid-alpha-desk-margin-standard-cross@1.0.0".
Definition cross_supports (m : AccountModeMetadata) : bool :=
  match m with StandardCross => true | _ => false end.
Definition cross_evaluate (input : MarginInput) : result MarginError MarginAssessment :=
  _ ← require_supported cross_id cross_supports input;
  required ← requirements input;
  sums ← total_margins required (Decimal.scale (collateral_value input));
  liq ← cross_liquidation required (collateral_value input)
          "cross liquidation is not a single-market exact price";
  assessment input sums.1 sums.2 liq ExactConfidence (collect [("model_id", cross_id)]).
Definition StandardCrossMarginModel : MarginModel := mkModel cross_id cross_supports cross_evaluate.

(** [isolated.rs] *)
Definition isolated_id : string := "hyperliquid-alpha-desk-margin-isolated@1.0.0".
Definition isolated_supports (m : AccountModeMetadata) : bool :=
  match m with StandardIsolated _ => true | _ => false end.
Definition isolated_evaluate (input : MarginInput) : result MarginError MarginAssessment :=
  _ ← require_supported isolated_id isolated_supports input;
  match mode input with
  | StandardIsolated market =>
      all ← requirements input;
      match of_market market all with
      | [] => Err (MissingInput ("isolated position:" +:+ market))
      | [single] =>
          sums ← total_margins [single] (Decimal.scale (collateral_value input));
          liq ← single_market_liquidation single (collateral_value input);
          assessment input sums.1 sums.2 liq ExactConfidence
            (collect [("model_id", isolated_id); ("isolated_market", market)])
      | _ => Err (Calculation "isolated mode requires exactly one position for the named market")
      end
  | _ => Err UnsupportedVersion
  end.
Definition IsolatedMarginModel : MarginModel :=
  mkModel isolated_id isolated_supports isolated_evaluate.

(** [unified.rs]: longs and shorts offset, the larger side counts. *)
Definition unified_id : string := "hyperliquid-alpha-desk-margin-unified@1.0.0".
Definition unified_supports (m : AccountModeMetadata) : bool :=
  match m with Unified => true | _ => false end.
Definition unified_evaluate (input : MarginInput) : result MarginError MarginAssessment :=
  _ ← require_supported unified_id unified_supports input;
  required ← requirements input;
  let scale := Decimal.scale (collateral_value input) in
  initial ← sum_usd (req_initial <$> required) scale;
  long_mm ← sum_usd (req_maintenance <$> of_side Long required) scale;
  short_mm ← sum_usd (req_maintenance <$> of_side Short required) scale;
  maintenance ← max_usd long_mm short_mm;
  let liq := match required with
             | [] => NotApplicable
             | r :: rs => oracle_range r rs
                 "unified netting does not yield a single exact liquidation price"
             end in
  assessment input initial maintenance liq ExactConfidence
    (collect [("model_id", unified_id); ("long_maintenance", Decimal.to_string long_mm);
              ("short_maintenance", Decimal.to_string short_mm)]).
Definition UnifiedMarginModel : MarginModel := mkModel unified_id unified_supports unified_evaluate.

(** [portfolio.rs]: a bound only. *)
Definition portfolio_id : string := "hyperliquid-alpha-desk-margin-portfolio@1.0.0".
Definition portfolio_supports (m : AccountModeMetadata) : bool :=
  match m with Portfolio _ => true | _ => false end.
Definition portfolio_evaluate (input : MarginInput) : result MarginError MarginAssessment :=
  _ ← require_supported portfolio_id portfolio_supports input;
  match mode input with
  | Portfolio rules_version =>
      required ← requirements input;
      sums ← total_margins required (Decimal.scale (collateral_value input));
      liq ← match required with
            | [] =>
                zero ← map_err map_value_error (Decimal.from_raw 0 0);
                Ok (RangeEstimate zero zero PORTFOLIO_RULES_UNSUPPORTED_EXACT)
            | r :: rs => Ok (oracle_range r rs PORTFOLIO_RULES_UNSUPPORTED_EXACT)
            end;
      assessment input sums.1 sums.2 liq Bounded
        (collect [("model_id", portfolio_id); ("rules_version", rules_version)])
  | _ => Err UnsupportedVersion
  end.
Definition PortfolioMarginModel : MarginModel :=
  mkModel portfolio_id portfolio_supports portfolio_evaluate.

(** [hip3.rs]: the cross rules under a known rules version. *)
Definition hip3_id : string := "hyperliquid-alpha-desk-margin-hip3@1.0.0".
Definition hip3_supports (m : AccountModeMetadata) : bool :=
  match m with Hip3 _ _ => true | _ => false end.
Definition hip3_evaluate (input : MarginInput) : result MarginError MarginAssessment :=
  _ ← require_supported hip3_id hip3_supports input;
  match mode input with
  | Hip3 dex_id rules_version =>
      if negb (bool_decide (rules_version = HIP3_RULES_V1)) then Err UnsupportedVersion else
      required ← requirements input;
      sums ← total_margins required (Decimal.scale (collateral_value input));
      liq ← cross_liquidation required (collateral_value input)
              "hip3 multi-market liquidation is not a single exact price";
      assessment input sums.1 sums.2 liq ExactConfidence
        (collect [("model_id", hip3_id); ("dex_id", dex_id); ("rules_version", rules_version)])
  | _ => Err UnsupportedVersion
  end.
Definition Hip3MarginModel : MarginModel := mkModel hip3_id hip3_supports hip3_evaluate.

(** [outcome.rs] *)
Definition outcome_id : string := "hyperliquid-alpha-desk-margin-outcome@1.0.0".
Definition outcome_supports (m : AccountModeMetadata) : bool :=
  match m with Outcome _ => true | _ => false end.
Definition outcome_evaluate (input : MarginInput) : result MarginError MarginAssessment :=
  _ ← require_supported outcome_id outcome_supports input;
  match mode input with
  | Outcome market =>
      all ← requirements input;
      let required := of_market market all in
      if is_empty required then Err (MissingInput ("outcome position:" +:+ market)) else
      sums ← total_margins required (Decimal.scale (collateral_value input));
      assessment input sums.1 sums.2 NotApplicable ExactConfidence
        (collect [("model_id", outcome_id); ("outcome_market", market)])
  | _ => Err UnsupportedVersion
  end.
Definition OutcomeMarginModel : MarginModel := mkModel outcome_id outcome_supports outcome_evaluate.

(** [lib.rs] *)
Definition evaluate (input : MarginInput) : result MarginError MarginAssessment :=
  match mode input with
  | StandardCross => model_evaluate StandardCrossMarginModel input
  | StandardIsolated _ => model_evaluate IsolatedMarginModel input
  | Unified => model_evaluate UnifiedMarginModel input
  | Portfolio _ => model_evaluate PortfolioMarginModel input
  | Hip3 _ _ => model_evaluate Hip3MarginModel input
  | Outcome _ => model_evaluate OutcomeMarginModel input
  end.
End models.

(** ** Exact arithmetic, as rationals *)

Lemma div_rem_exact n d q r :
  div_rem n d = Ok (q, r) -> d <> 0 /\ r = Z.rem n d /\ (r = 0 -> n = q * d).
Proof.
  unfold div_rem. destruct (Z.eqb_spec d 0) as [|D]; [done|]. intros [= <- <-].
  pose proof (Z.quot_rem' n d). split_and!; [done|lia|lia].
Qed.

(** A successful conversion is exact, at the target scale. *)
Lemma rescale_exact_spec c s t r :
  0 <= s -> 0 <= t -> rescale_exact c s t = Ok r -> r * 10 ^ s = c * 10 ^ t.
Proof.
  intros Ps Pt. unfold rescale_exact, pow10. destruct (Z.eqb_spec s t) as [->|D]; [by intros [= ->]|].
  destruct (Z.ltb_spec s t).
  - rewrite bind_of_Ok. intros [= <-]. rewrite <- Z.mul_assoc, <- Z.pow_add_r by lia.
    do 2 f_equal. lia.
  - rewrite bind_of_Ok. intros E. apply bind_Ok in E as ([q x] & E & K).
    apply div_rem_exact in E as (_ & _ & E). apply if_Err_Ok in K as [X K]. cbn [fst snd] in *.
    injection K as <-. bool_to_prop. rewrite E by lia.
    rewrite <- Z.mul_assoc, <- Z.pow_add_r by lia. do 2 f_equal. lia.
Qed.

Lemma scaled_value r s c t :
  0 <= s -> 0 <= t -> r * 10 ^ t = c * 10 ^ s ->
  (inject_Z r / pow10Q s == inject_Z c / pow10Q t)%Q.
Proof.
  intros Ps Pt E. pose proof (pow10Q_nonzero s Ps) as Ns. pose proof (pow10Q_nonzero t Pt) as Nt.
  assert (inject_Z r * pow10Q t == inject_Z c * pow10Q s)%Q as EQ
    by (unfold pow10Q; rewrite <- !inject_Z_mult, E; reflexivity).
  field_simplify_eq; [rewrite EQ; ring|by split].
Qed.

Lemma mapped_from_raw_inv raw s d :
  ity_wf I128 raw -> 0 <= s -> map_err map_value_error (Decimal.from_raw raw s) = Ok d ->
  d = Decimal.mk raw s /\ Decimal.wf d.
Proof.
  intros W P E. apply map_err_Ok in E. unfold Decimal.from_raw in E.
  apply bind_Ok in E as (u & V & E). injection E as <-. split; [done|]. split; [done|].
  cbn [Decimal.scale]. split; [done|]. unfold validate_scale in V. apply if_Err_Ok in V as [V _].
  bool_to_prop. lia.
Qed.

(** The usd amount of a notional at a rate is their exact product. *)
Lemma usd_from_notional_rate_spec n rate s u :
  ExactQuoteNotional.wf n -> Decimal.wf rate -> 0 <= s ->
  usd_from_notional_rate n rate s = Ok u ->
  Decimal.wf u /\ Decimal.scale u = s /\ (dec_value u == ntl_value n * dec_value rate)%Q.
Proof.
  intros (Sn & _) (Rr & Sr) P E. unfold usd_from_notional_rate in E. cbv zeta in E.
  apply bind_Ok in E as (sc & Esc & E). apply ok_or_Ok, int_try_Some in Esc as [-> _].
  apply bind_Ok in E as (x & Ex & E). apply bind_Ok in E as (raw & Er & E).
  apply ok_or_Ok, int_try_Some in Er as [-> Wx].
  apply mapped_from_raw_inv in E as [-> W]; [|done..]. split_and!; [done..|].
  apply rescale_exact_spec in Ex; [|lia|done].
  destruct n as [c ns], rate as [rr rs]. cbn [ExactQuoteNotional.scale ExactQuoteNotional.coefficient
    Decimal.raw Decimal.scale] in *.
  rewrite dec_value_div, ntl_value_div, dec_value_div by (cbn [Decimal.scale]; lia).
  cbn [Decimal.raw Decimal.scale].
  rewrite (scaled_value x s (c * rr) (ns + rs)) by lia.
  rewrite pow10Q_add, inject_Z_mult by lia.
  field. split; apply pow10Q_nonzero; lia.
Qed.

Lemma abs_quantity_spec q a :
  Decimal.wf q -> abs_quantity q = Ok a ->
  Decimal.wf a /\ Decimal.raw a = Z.abs (Decimal.raw q) /\ Decimal.scale a = Decimal.scale q.
Proof.
  intros [R S] E. unfold abs_quantity in E. cbv zeta in E. apply if_Err_Ok in E as [D E].
  unfold ity_wf in R. bool_to_prop. cbn [ity_min ity_max] in *.
  apply mapped_from_raw_inv in E as [-> W]; [done| |lia]. unfold ity_wf. cbn [ity_min ity_max]. lia.
Qed.

(** ** What a requirement says of its position *)

Section specification.
Local Open Scope Q_scope.

(** The absolute exposure of a position at a price and a rate. *)
Definition charge (p : PositionState) (price rate : Decimal.t) : Q :=
  (Z.abs (Decimal.raw (pos_quantity p)) # Z.to_pos (10 ^ Decimal.scale (pos_quantity p))) *
  dec_value price * dec_value rate.

Definition sumQ (l : list Q) : Q := foldr Qplus 0 l.

(** The oracle price of a position; [requirements] refuses when there is none. *)
Definition oracle_of (input : MarginInput) (p : PositionState) : Price :=
  default (Decimal.mk 0 0) (bt_get (pos_market_id p) (oracle_prices input)).

Definition position_wf (p : PositionState) : Prop :=
  Decimal.wf (pos_quantity p) /\ Decimal.wf (initial_margin_rate p) /\
  Decimal.wf (maintenance_margin_rate p).

Definition input_wf (input : MarginInput) : Prop :=
  Decimal.wf (collateral_value input) /\ Forall position_wf (positions input) /\
  Forall (fun e => Decimal.wf e.2) (oracle_prices input).

Record describes (input : MarginInput) (p : PositionState) (r : PositionRequirement) : Prop := {
  desc_market : req_market_id r = pos_market_id p;
  desc_side : req_side r = (if (0 <? Decimal.raw (pos_quantity p))%Z then Long else Short);
  desc_oracle : bt_get (pos_market_id p) (oracle_prices input) = Some (oracle r);
  desc_positive : (0 < Decimal.raw (oracle r))%Z;
  desc_oracle_wf : Decimal.wf (oracle r);
  desc_rates : (0 <= Decimal.raw (initial_margin_rate p))%Z /\
               (0 <= Decimal.raw (maintenance_margin_rate p))%Z;
  desc_wf : Decimal.wf (req_initial r) /\ Decimal.wf (req_maintenance r);
  desc_scales : Decimal.scale (req_initial r) = Decimal.scale (collateral_value input) /\
                Decimal.scale (req_maintenance r) = Decimal.scale (collateral_value input);
  desc_initial : dec_value (req_initial r) == charge p (oracle r) (initial_margin_rate p);
  desc_maintenance :
    dec_value (req_maintenance r) == charge p (oracle r) (maintenance_margin_rate p);
}.
End specification.

Lemma requirement_of_spec input p r :
  input_wf input -> position_wf p ->
  requirement_of (Decimal.scale (collateral_value input)) (oracle_prices input) p = Ok r ->
  describes input p r.
Proof.
  intros ((_ & Sc) & _ & Wo) (Wq & Wi & Wm) E. unfold requirement_of in E.
  apply if_Err_Ok in E as [Rt E]. apply bind_Ok in E as (o & Eo & E). apply ok_or_Ok in Eo.
  apply if_Err_Ok in E as [Po E]. apply bind_Ok in E as (a & Ea & E).
  apply bind_Ok in E as (n & En & E). apply map_err_Ok in En. cbv zeta in E.
  apply bind_Ok in E as (i & Ei & E). apply bind_Ok in E as (m & Em & E). injection E as <-.
  assert (Decimal.wf o) as Wp.
  { apply bt_get_Some in Eo as (k & _ & J). rewrite Forall_forall in Wo. by apply (Wo (k, o)). }
  apply abs_quantity_spec in Ea as (Wa & Ra & Sa); [|done].
  destruct (checked_product_spec o a Wp Wa) as (n' & En' & Wn & Vn).
  rewrite En in En'. injection En' as <-.
  apply usd_from_notional_rate_spec in Ei as (Wi' & Si & Vi); [|done|done|lia].
  apply usd_from_notional_rate_spec in Em as (Wm' & Sm & Vm); [|done|done|lia].
  apply orb_false_iff in Rt as [R1 R2]. bool_to_prop.
  assert (forall rate, ntl_value n * dec_value rate == charge p o rate)%Q as V.
  { intros rate. rewrite Vn. unfold charge. unfold dec_value at 2. rewrite Ra, Sa. ring. }
  split; cbn [req_market_id req_side oracle req_initial req_maintenance]; try done; try lia.
  - by rewrite Vi, V.
  - by rewrite Vm, V.
Qed.

Lemma Forall2_filter {A B} (R : A -> B -> Prop) (f : A -> bool) (g : B -> bool) l k :
  Forall2 R l k -> (forall x y, R x y -> f x = g y) ->
  Forall2 R (List.filter f l) (List.filter g k).
Proof.
  intros F E. induction F as [|x y l k Rxy F IH]; [constructor|]. cbn.
  rewrite (E x y Rxy). destruct (g y); [by constructor|done].
Qed.

Definition is_open (p : PositionState) : bool := negb (Decimal.raw (pos_quantity p) =? 0).

Lemma requirements_spec input rs :
  input_wf input -> requirements input = Ok rs ->
  Forall2 (describes input) (List.filter is_open (positions input)) rs.
Proof.
  intros W. unfold requirements. assert (W' := W). destruct W' as (_ & Wp & _).
  revert rs. induction Wp as [|p l Pp Wp IH]; intros rs E; cbn [requirements_loop List.filter] in *.
  { injection E as <-. constructor. }
  unfold is_open at 1. destruct (Decimal.raw (pos_quantity p) =? 0); cbn [negb]; [by apply IH|].
  apply bind_Ok in E as (r & Er & E). apply bind_Ok in E as (rs' & Ers & E). injection E as <-.
  constructor; [by apply requirement_of_spec|by apply IH].
Qed.

Lemma sum_from_spec vs t u :
  Decimal.wf t -> Forall (fun v => Decimal.wf v) vs -> sum_from t vs = Ok u ->
  Decimal.wf u /\ Decimal.scale u = Decimal.scale t /\
  (dec_value u == dec_value t + sumQ (dec_value <$> vs))%Q.
Proof.
  intros Wt F. revert t Wt. induction F as [|v vs Wv F IH]; intros t Wt E; cbn [sum_from] in E.
  { injection E as <-. split_and!; [done..|]. cbn. ring. }
  apply bind_Ok in E as (t' & Et & E). apply map_err_Ok in Et.
  pose proof (checked_add_spec t v Wt Wv) as A. rewrite Et in A.
  destruct A as (Wt' & St & _ & _ & Vt). apply IH in E as (Wu & Su & Vu); [|done].
  split_and!; [done|congruence|]. rewrite Vu, Vt. cbn [fmap list_fmap sumQ foldr]. fold (sumQ (dec_value <$> vs)). ring.
Qed.

Lemma sum_usd_spec vs s u :
  0 <= s -> Forall (fun v => Decimal.wf v) vs -> sum_usd vs s = Ok u ->
  Decimal.wf u /\ Decimal.scale u = s /\ (dec_value u == sumQ (dec_value <$> vs))%Q.
Proof.
  intros P F E. unfold sum_usd in E. apply bind_Ok in E as (z & Ez & E).
  apply mapped_from_raw_inv in Ez as [-> Wz]; [|done..].
  apply sum_from_spec in E as (Wu & Su & Vu); [|done..]. split_and!; [done..|].
  rewrite Vu. unfold dec_value at 1. cbn [Decimal.raw]. unfold Qeq, Qplus; cbn. lia.
Qed.

Lemma max_usd_spec l r m :
  Decimal.wf l -> Decimal.wf r -> max_usd l r = Ok m ->
  (m = l \/ m = r) /\ (dec_value m == Qmax (dec_value l) (dec_value r))%Q.
Proof.
  intros [_ Sl] [_ Sr] E. unfold max_usd in E. apply if_Err_Ok in E as [S E]. bool_to_prop.
  pose proof (pow10_pos (Decimal.scale l) ltac:(lia)) as Pp.
  assert (forall x y, (Decimal.raw x <= Decimal.raw y) -> Decimal.scale x = Decimal.scale y ->
    Decimal.scale x = Decimal.scale l -> (dec_value x <= dec_value y)%Q) as Mono.
  { intros x y L Sxy Sx. unfold dec_value, Qle; cbn. rewrite <- Sxy, Sx. nia. }
  destruct (Z.leb_spec (Decimal.raw r) (Decimal.raw l)) as [L|L]; injection E as <-;
    (split; [by auto|]); symmetry.
  - apply Q.max_l, Mono; congruence.
  - apply Q.max_r, Mono; [lia|done..].
Qed.

(** An accepted ratio times the maintenance margin is the collateral. *)
Lemma margin_ratio_spec c m r :
  Decimal.wf c -> Decimal.wf m -> margin_ratio c m = Ok r ->
  Decimal.scale r = Decimal.scale c /\
  if Decimal.raw m =? 0 then 0 <= Decimal.raw c /\ Decimal.raw r = 0
  else (dec_value r * dec_value m == dec_value c)%Q.
Proof.
  intros [Rc Sc] [Rm Sm] E. unfold margin_ratio, pow10 in E. apply if_Err_Ok in E as [S E].
  bool_to_prop. destruct (Z.eqb_spec (Decimal.raw m) 0) as [Z|Z].
  - apply if_Err_Ok in E as [N E]. bool_to_prop. apply mapped_from_raw_inv in E as [-> _]; [done..|lia].
  - rewrite bind_of_Ok in E. apply bind_Ok in E as ([q x] & D & E). apply div_rem_exact in D as (_ & _ & D).
    apply if_Err_Ok in E as [X E]. cbn [fst snd] in *. apply bind_Ok in E as (raw & Er & E).
    apply ok_or_Ok, int_try_Some in Er as [-> W]. apply mapped_from_raw_inv in E as [-> _]; [|done|lia].
    bool_to_prop. split; [done|]. rewrite !dec_value_div by (cbn [Decimal.scale]; lia).
    cbn [Decimal.raw Decimal.scale]. rewrite <- S.
    pose proof (pow10Q_nonzero (Decimal.scale c) ltac:(lia)) as N.
    assert (inject_Z q * inject_Z (Decimal.raw m) ==
      inject_Z (Decimal.raw c) * pow10Q (Decimal.scale c))%Q as EQ
      by (unfold pow10Q; rewrite <- !inject_Z_mult, (D ltac:(lia)); reflexivity).
    set (P := pow10Q (Decimal.scale c)) in *.
    transitivity (inject_Z q * inject_Z (Decimal.raw m) / (P * P))%Q; [by field|].
    rewrite EQ. by field.
Qed.

(** ** Every model as selection, totals and estimate *)

(** The requirements a mode counts, its maintenance total and its estimate. *)
Definition select (m : AccountModeMetadata) (rs : list PositionRequirement) : list PositionRequirement :=
  match m with
  | StandardIsolated market | Outcome market => of_market market rs
  | _ => rs
  end.

Definition maintenance_total (m : AccountModeMetadata) (rs : list PositionRequirement) (scale : Z)
  : result MarginError UsdAmount :=
  match m with
  | Unified =>
      long_mm ← sum_usd (req_maintenance <$> of_side Long rs) scale;
      short_mm ← sum_usd (req_maintenance <$> of_side Short rs) scale;
      max_usd long_mm short_mm
  | _ => sum_usd (req_maintenance <$> rs) scale
  end.

(** What an estimate may be, given the requirements behind it. *)
Definition estimate_ok (rs : list PositionRequirement) (c : UsdAmount) (e : LiquidationEstimate) : Prop :=
  match e with
  | ExactTrigger t => exists r, rs = [r] /\ single_market_liquidation r c = Ok (ExactTrigger t)
  | RangeEstimate lower upper _ =>
      match rs with
      | [] => lower = upper
      | r :: rs => lower = min_price (oracle r) (oracle <$> rs) /\
                   upper = max_price (oracle r) (oracle <$> rs)
      end
  | NotApplicable => True
  end.

Lemma single_market_ok r c e : single_market_liquidation r c = Ok e -> estimate_ok [r] c e.
Proof.
  intros E. destruct e as [t|lower upper why|]; [by exists r| |done].
  unfold single_market_liquidation in E. destruct (_ =? 0); [done|]. destruct (Decimal.eq _ _); [done|].
  unfold exact_trigger_price in E. destruct (_ =? 0); [done|]. apply bind_Ok in E as (qr & _ & E).
  destruct (negb _); [by injection E as <- <- _|].
  apply bind_Ok in E as (t & _ & E). apply bind_Ok in E as (p & _ & E). by destruct (_ <=? 0).
Qed.

Lemma cross_liquidation_ok rs c why e : cross_liquidation rs c why = Ok e -> estimate_ok rs c e.
Proof.
  intros E. destruct rs as [|r [|r' rs]]; cbn [cross_liquidation] in E.
  - by injection E as <-.
  - by apply single_market_ok.
  - by injection E as <-.
Qed.

Section inversion.
Context `{Hex}.

Record assessed (input : MarginInput) (a : MarginAssessment) (rs : list PositionRequirement) : Prop := {
  as_initial : sum_usd (req_initial <$> rs) (Decimal.scale (collateral_value input)) =
                 Ok (initial_margin a);
  as_maintenance : maintenance_total (mode input) rs (Decimal.scale (collateral_value input)) =
                     Ok (maintenance_margin a);
  as_ratio : margin_ratio (collateral_value input) (maintenance_margin a) = Ok (margin_ratio_of a);
  as_estimate : estimate_ok rs (collateral_value input) (liquidation a);
  as_confidence : forall t, liquidation a = ExactTrigger t -> confidence a = ExactConfidence;
}.

Lemma assessment_ok input i m liq conf extra a rs :
  assessment input i m liq conf extra = Ok a ->
  sum_usd (req_initial <$> rs) (Decimal.scale (collateral_value input)) = Ok i ->
  maintenance_total (mode input) rs (Decimal.scale (collateral_value input)) = Ok m ->
  estimate_ok rs (collateral_value input) liq -> assessed input a rs.
Proof.
  intros E Ei Em Ee. unfold assessment in E. apply if_Err_Ok in E as [C E]. cbv zeta in E.
  apply bind_Ok in E as (ratio & Er & E). injection E as <-. split; cbn; try done.
  intros t ->. by apply negb_false_iff, bool_decide_eq_true in C.
Qed.

Lemma total_margins_Ok rs s sums :
  total_margins rs s = Ok sums ->
  sum_usd (req_initial <$> rs) s = Ok sums.1 /\ sum_usd (req_maintenance <$> rs) s = Ok sums.2.
Proof.
  intros E. unfold total_margins in E. apply bind_Ok in E as (i & Ei & E).
  apply bind_Ok in E as (m & Em & E). by injection E as <-.
Qed.

Lemma evaluate_assessed input a :
  evaluate input = Ok a ->
  exists all, requirements input = Ok all /\ assessed input a (select (mode input) all).
Proof.
  intros E. unfold evaluate in E. destruct (mode input) as [|market| |rules|dex rules|market] eqn:M;
    cbn [model_evaluate StandardCrossMarginModel IsolatedMarginModel UnifiedMarginModel
      PortfolioMarginModel Hip3MarginModel OutcomeMarginModel] in E; cbn [select].
  - unfold cross_evaluate in E. apply bind_Ok in E as (u & _ & E). apply bind_Ok in E as (rs & Er & E).
    apply bind_Ok in E as (sums & Es & E). apply bind_Ok in E as (liq & El & E).
    apply total_margins_Ok in Es as [Ei Em]. exists rs. split; [done|].
    eapply assessment_ok; [exact E|done| |by eapply cross_liquidation_ok]. by rewrite M.
  - unfold isolated_evaluate in E. apply bind_Ok in E as (u & _ & E). rewrite M in E.
    apply bind_Ok in E as (rs & Er & E). exists rs. split; [done|].
    destruct (of_market market rs) as [|r [|]]; [done| |done].
    apply bind_Ok in E as (sums & Es & E). apply bind_Ok in E as (liq & El & E).
    apply total_margins_Ok in Es as [Ei Em].
    eapply assessment_ok; [exact E|done| |by eapply single_market_ok]. by rewrite M.
  - unfold unified_evaluate in E. apply bind_Ok in E as (u & _ & E). apply bind_Ok in E as (rs & Er & E).
    cbv zeta in E. apply bind_Ok in E as (i & Ei & E). apply bind_Ok in E as (lm & Elm & E).
    apply bind_Ok in E as (sm & Esm & E). apply bind_Ok in E as (m & Em & E). exists rs. split; [done|].
    eapply assessment_ok; [exact E|done| |by destruct rs].
    rewrite M. cbn [maintenance_total]. by rewrite Elm, bind_of_Ok, Esm, bind_of_Ok.
  - unfold portfolio_evaluate in E. apply bind_Ok in E as (u & _ & E). rewrite M in E.
    apply bind_Ok in E as (rs & Er & E). apply bind_Ok in E as (sums & Es & E).
    apply bind_Ok in E as (liq & El & E). apply total_margins_Ok in Es as [Ei Em]. exists rs.
    split; [done|]. eapply assessment_ok; [exact E|done|by rewrite M|].
    destruct rs; [|by injection El as <-]. apply bind_Ok in El as (z & _ & El). by injection El as <-.
  - unfold hip3_evaluate in E. apply bind_Ok in E as (u & _ & E). rewrite M in E.
    apply if_Err_Ok in E as [_ E].
    apply bind_Ok in E as (rs & Er & E). apply bind_Ok in E as (sums & Es & E).
    apply bind_Ok in E as (liq & El & E). apply total_margins_Ok in Es as [Ei Em]. exists rs.
    split; [done|]. eapply assessment_ok; [exact E|done|by rewrite M|by eapply cross_liquidation_ok].
  - unfold outcome_evaluate in E. apply bind_Ok in E as (u & _ & E). rewrite M in E.
    apply bind_Ok in E as (rs & Er & E). cbv zeta in E. apply if_Err_Ok in E as [_ E].
    apply bind_Ok in E as (sums & Es & E). apply total_margins_Ok in Es as [Ei Em]. exists rs.
    split; [done|]. eapply assessment_ok; [exact E|done|by rewrite M|done].
Qed.
End inversion.

(** ** Theorems *)

Section theorems.
Context `{Hex}.

(** The positions a mode charges for. *)
Definition counted (input : MarginInput) : list PositionState :=
  let l := List.filter is_open (positions input) in
  match mode input with
  | StandardIsolated market | Outcome market =>
      List.filter (fun p => bool_decide (pos_market_id p = market)) l
  | _ => l
  end.

Definition is_side (s : PositionSide) (p : PositionState) : bool :=
  bool_decide ((if 0 <? Decimal.raw (pos_quantity p) then Long else Short) = s).

Definition initial_charge (input : MarginInput) (p : PositionState) : Q :=
  charge p (oracle_of input p) (initial_margin_rate p).
Definition maintenance_charge (input : MarginInput) (p : PositionState) : Q :=
  charge p (oracle_of input p) (maintenance_margin_rate p).

(** The maintenance margin the rules of a mode call for. *)
Definition maintenance_due (input : MarginInput) : Q :=
  match mode input with
  | Unified =>
      Qmax (sumQ (maintenance_charge input <$> List.filter (is_side Long) (counted input)))
           (sumQ (maintenance_charge input <$> List.filter (is_side Short) (counted input)))
  | _ => sumQ (maintenance_charge input <$> counted input)
  end.

Lemma select_spec input all :
  input_wf input -> requirements input = Ok all ->
  Forall2 (describes input) (counted input) (select (mode input) all).
Proof.
  intros W E. apply requirements_spec in E; [|done]. unfold counted, select.
  destruct (mode input); try done;
    (apply Forall2_filter; [done|]; intros p r D; by rewrite (desc_market _ _ _ D)).
Qed.

Lemma describes_oracle input p r : describes input p r -> oracle_of input p = oracle r.
Proof. intros D. unfold oracle_of. by rewrite (desc_oracle _ _ _ D). Qed.

Lemma sum_initial input ps rs :
  Forall2 (describes input) ps rs ->
  (sumQ (dec_value <$> (req_initial <$> rs)) == sumQ (initial_charge input <$> ps))%Q.
Proof.
  intros F. induction F as [|p r ps rs D F IH]; [reflexivity|].
  cbn [fmap list_fmap sumQ foldr]. unfold sumQ in IH. rewrite IH, (desc_initial _ _ _ D).
  unfold initial_charge at 2. by rewrite (describes_oracle _ _ _ D).
Qed.

Lemma sum_maintenance input ps rs :
  Forall2 (describes input) ps rs ->
  (sumQ (dec_value <$> (req_maintenance <$> rs)) == sumQ (maintenance_charge input <$> ps))%Q.
Proof.
  intros F. induction F as [|p r ps rs D F IH]; [reflexivity|].
  cbn [fmap list_fmap sumQ foldr]. unfold sumQ in IH. rewrite IH, (desc_maintenance _ _ _ D).
  unfold maintenance_charge at 2. by rewrite (describes_oracle _ _ _ D).
Qed.

Lemma requirements_wf input ps rs :
  Forall2 (describes input) ps rs ->
  Forall (fun v => Decimal.wf v) (req_initial <$> rs) /\
  Forall (fun v => Decimal.wf v) (req_maintenance <$> rs).
Proof.
  intros F. induction F as [|p r ps rs D F [IH1 IH2]]; [by split; constructor|].
  destruct (desc_wf _ _ _ D). by split; constructor.
Qed.

Lemma maintenance_total_spec input rs m :
  input_wf input -> Forall2 (describes input) (counted input) rs ->
  maintenance_total (mode input) rs (Decimal.scale (collateral_value input)) = Ok m ->
  Decimal.wf m /\ Decimal.scale m = Decimal.scale (collateral_value input) /\
  (dec_value m == maintenance_due input)%Q.
Proof.
  intros ((_ & Sc) & _) F E. destruct (requirements_wf _ _ _ F) as [_ Wm].
  assert (forall s, Forall2 (describes input) (List.filter (is_side s) (counted input))
            (of_side s rs)) as Fs.
  { intros s. apply Forall2_filter; [done|]. intros p r D. unfold is_side.
    by rewrite (desc_side _ _ _ D). }
  unfold maintenance_total, maintenance_due in *. destruct (mode input);
    try (apply sum_usd_spec in E as (W & S & V); [|lia|done]; split_and!; try done;
         by rewrite V, sum_maintenance).
  apply bind_Ok in E as (lm & El & E). apply bind_Ok in E as (sm & Es & E).
  apply sum_usd_spec in El as (Wl & Sl & Vl); [|lia|by eapply requirements_wf].
  apply sum_usd_spec in Es as (Ws & Ss & Vs); [|lia|by eapply requirements_wf].
  apply max_usd_spec in E as [O V]; [|done..].
  rewrite !sum_maintenance in Vl, Vs by done.
  split_and!; [by destruct O as [-> | ->]..|]. by rewrite V, Vl, Vs.
Qed.


(** *** Estimates *)

Lemma min_price_spec x l : min_price x l ∈ x :: l /\ Forall (fun y => leb (min_price x l) y = true) (x :: l).
Proof.
  unfold min_price. revert x. induction l as [|y l IH]; intros x; cbn [fold_left].
  { split; [left|]. constructor; [|constructor]. unfold leb. by rewrite cmp_refl. }
  set (m := if ltb y x then y else x). destruct (IH m) as [I F]. apply Forall_cons in F as [Fm F].
  assert (leb m x = true /\ leb m y = true /\ (m = x \/ m = y)) as (Lx & Ly & O).
  { unfold m, ltb, leb. destruct (cmp y x) eqn:E; rewrite ?cmp_refl, ?(cmp_antisym y x), ?E;
      split_and!; auto. }
  split.
  - rewrite !elem_of_cons in *. destruct I as [->|I]; [destruct O as [-> | ->]; auto|auto].
  - repeat constructor; [by eapply leb_trans..|done].
Qed.

Lemma max_price_spec x l : max_price x l ∈ x :: l /\ Forall (fun y => leb y (max_price x l) = true) (x :: l).
Proof.
  unfold max_price. revert x. induction l as [|y l IH]; intros x; cbn [fold_left].
  { split; [left|]. constructor; [|constructor]. unfold leb. by rewrite cmp_refl. }
  set (m := if ltb y x then x else y). destruct (IH m) as [I F]. apply Forall_cons in F as [Fm F].
  assert (leb x m = true /\ leb y m = true /\ (m = x \/ m = y)) as (Lx & Ly & O).
  { unfold m, ltb, leb. destruct (cmp y x) eqn:E; rewrite ?cmp_refl, ?(cmp_antisym y x), ?E;
      split_and!; auto. }
  split.
  - rewrite !elem_of_cons in *. destruct I as [->|I]; [destruct O as [-> | ->]; auto|auto].
  - repeat constructor; [by eapply leb_trans..|done].
Qed.

Lemma leb_value x y :
  Decimal.wf x -> Decimal.wf y -> leb x y = true -> (dec_value x <= dec_value y)%Q.
Proof.
  intros Wx Wy L. destruct (decimal_eq_ord_spec x y Wx Wy) as (C & _). unfold leb in L. rewrite C in L.
  apply Qnot_lt_le. intros G. apply Qgt_alt in G. by rewrite G in L.
Qed.

Lemma oracle_range_spec input ps r rs :
  Forall2 (describes input) ps (r :: rs) ->
  forall p, p ∈ ps ->
  (dec_value (min_price (oracle r) (oracle <$> rs)) <= dec_value (oracle_of input p) /\
   dec_value (oracle_of input p) <= dec_value (max_price (oracle r) (oracle <$> rs)))%Q.
Proof.
  intros F p I. assert (Forall (fun o => Decimal.wf o) (oracle <$> (r :: rs))) as W.
  { clear I. induction F as [|p' r' ps' rs' D F IH]; constructor; [apply D|done]. }
  apply list_elem_of_lookup in I as [i I]. eapply Forall2_lookup_l in F as (x & J & D); [|exact I].
  rewrite (describes_oracle _ _ _ D). apply list_elem_of_lookup_2 in J.
  apply (list_elem_of_fmap_2 oracle) in J. cbn [fmap list_fmap] in J, W.
  destruct (min_price_spec (oracle r) (oracle <$> rs)) as [Im Fm].
  destruct (max_price_spec (oracle r) (oracle <$> rs)) as [IM FM].
  rewrite Forall_forall in Fm, FM, W. split; apply leb_value; auto.
Qed.

(** The trigger of a single position is where its requirement meets the collateral. *)
Lemma single_market_trigger input p r t :
  input_wf input -> describes input p r ->
  single_market_liquidation r (collateral_value input) = Ok (ExactTrigger t) ->
  0 < Decimal.raw t /\
  (charge p t (maintenance_margin_rate p) == dec_value (collateral_value input))%Q.
Proof.
  intros ((Rc & Sc) & _) D E. pose proof (desc_positive _ _ _ D) as Po.
  destruct (desc_oracle_wf _ _ _ D) as [_ So]. destruct (desc_wf _ _ _ D) as [_ Wm].
  destruct (desc_scales _ _ _ D) as [_ Sm]. pose proof (desc_maintenance _ _ _ D) as V.
  unfold single_market_liquidation in E. destruct (_ =? 0); [done|].
  destruct (Decimal.eq _ _) eqn:Eq.
  { injection E as <-. split; [done|]. rewrite <- V.
    apply decimal_eq_ord_spec in Eq; [by rewrite Eq|by split|done]. }
  unfold exact_trigger_price in E. destruct (_ =? 0); [done|].
  apply bind_Ok in E as ([q x] & Ed & E). apply div_rem_exact in Ed as (Nm & _ & Ed).
  cbn [fst snd] in E. destruct (Z.eqb_spec x 0) as [X|X]; cbn [negb] in E; [|done].
  apply bind_Ok in E as (raw & Er & E). apply ok_or_Ok, int_try_Some in Er as [-> W].
  apply bind_Ok in E as (tp & Et & E). apply mapped_from_raw_inv in Et as [-> _]; [|done|lia].
  cbn [Decimal.raw] in E. destruct (Z.leb_spec q 0); [done|]. injection E as <-. split; [done|].
  specialize (Ed X).
  assert (~ inject_Z (Decimal.raw (oracle r)) == 0)%Q as No by (unfold Qeq; cbn; lia).
  pose proof (pow10Q_nonzero (Decimal.scale (oracle r)) ltac:(lia)) as Ns.
  pose proof (pow10Q_nonzero (Decimal.scale (collateral_value input)) ltac:(lia)) as Nc.
  assert (inject_Z q * inject_Z (Decimal.raw (req_maintenance r)) ==
    inject_Z (Decimal.raw (collateral_value input)) * inject_Z (Decimal.raw (oracle r)))%Q as EQ
    by (rewrite <- !inject_Z_mult, Ed; reflexivity).
  unfold charge in *. set (n := (_ # _)%Q) in *. set (k := dec_value (maintenance_margin_rate p)) in *.
  rewrite !dec_value_div in V |- * by (cbn [Decimal.scale]; lia). cbn [Decimal.raw Decimal.scale].
  rewrite Sm in V. apply (Qmult_inj_r _ _ (inject_Z (Decimal.raw (oracle r))) No).
  transitivity (inject_Z q * (n * (inject_Z (Decimal.raw (oracle r)) /
    pow10Q (Decimal.scale (oracle r))) * k))%Q; [by field|]. rewrite <- V.
  transitivity (inject_Z q * inject_Z (Decimal.raw (req_maintenance r)) /
    pow10Q (Decimal.scale (collateral_value input)))%Q; [by field|]. rewrite EQ. by field.
Qed.

(** Liquidation estimates say what they claim. An exact trigger comes with
    exact confidence, is positive, belongs to an account with a single counted
    position, and is the price at which that position's maintenance requirement
    equals the collateral. A range spans the oracle prices of all counted
    positions. *)
Theorem liquidation_estimate_sound input a :
  input_wf input -> evaluate input = Ok a ->
  match liquidation a with
  | ExactTrigger t =>
      confidence a = ExactConfidence /\ 0 < Decimal.raw t /\
      exists p, counted input = [p] /\
        (charge p t (maintenance_margin_rate p) == dec_value (collateral_value input))%Q
  | RangeEstimate lower upper _ =>
      forall p, p ∈ counted input ->
        (dec_value lower <= dec_value (oracle_of input p) /\
         dec_value (oracle_of input p) <= dec_value upper)%Q
  | NotApplicable => True
  end.
Proof.
  intros W E. apply evaluate_assessed in E as (all & Er & A).
  pose proof (select_spec input all W Er) as F. destruct A as [_ _ _ Ae Ac].
  destruct (liquidation a) as [t|lower upper why|]; [| |done].
  - destruct Ae as (r & Es & El). rewrite Es in F.
    apply Forall2_cons_inv_r in F as (p & ps & D & F & Ep). apply Forall2_nil_inv_r in F as ->.
    destruct (single_market_trigger input p r t W D El) as [Pt V].
    split_and!; [by apply (Ac t)|done|]. by exists p.
  - cbn [estimate_ok] in Ae. destruct (select (mode input) all) as [|r rs].
    + apply Forall2_nil_inv_r in F as ->. by intros p I%not_elem_of_nil.
    + destruct Ae as [-> ->]. by apply oracle_range_spec.
Qed.
End theorems.

(** ** Concrete accounts *)

Definition one_account (price quantity rate collateral : Decimal.t) : MarginInput :=
  mkMarginInput (replicate 20 x01) StandardCross collateral
    [mkPosition "perp:BTC" quantity rate rate] [("perp:BTC", price)] 7.

(** One unit at 10.000 with a rate of 0.100, and 1.001 of collateral. *)
Definition near_boundary : MarginInput :=
  one_account (Decimal.mk 10000 3) (Decimal.mk 1 0) (Decimal.mk 100 3) (Decimal.mk 1001 3).

Lemma near_boundary_wf : input_wf near_boundary.
Proof. split_and!; repeat constructor; vm_compute; discriminate. Qed.


Lemma liquidation_estimate_sound_witness :
  exists a p, @evaluate sample_hex near_boundary = Ok a /\ counted near_boundary = [p] /\
    (charge p (Decimal.mk 10010 3) (maintenance_margin_rate p) ==
       dec_value (collateral_value near_boundary))%Q.
Proof.
  destruct (@evaluate sample_hex near_boundary) as [a|e] eqn:E; [|vm_compute in E; discriminate].
  pose proof (@liquidation_estimate_sound sample_hex near_boundary a near_boundary_wf E) as T.
  assert (liquidation a = ExactTrigger (Decimal.mk 10010 3)) as L.
  { vm_compute in E. injection E as <-. reflexivity. }
  rewrite L in T. destruct T as (_ & _ & p & C & V). exists a, p. split; [reflexivity|by split].
Defined.

(** 0.008 at 10 with a rate of 0.1, and 0.001 of collateral: the requirement is
    0.008 and meets the collateral at 1.25, which scale 0 cannot express. *)
Definition inexact_trigger : MarginInput :=
  one_account (Decimal.mk 10 0) (Decimal.mk 8 3) (Decimal.mk 1 1) (Decimal.mk 1 3).

(** When the trigger of a single position is not a price of the oracle's
    scale, the estimate is a range that misses it: with exact confidence the
    account above is given the range from 10 to 10, while the only price at
    which its requirement equals the collateral is 1.25. *)
Theorem inexact_trigger_outside_range `{Hex} :
  exists a why, evaluate inexact_trigger = Ok a /\ confidence a = ExactConfidence /\
    liquidation a = RangeEstimate (Decimal.mk 10 0) (Decimal.mk 10 0) why /\
    forall p t, counted inexact_trigger = [p] ->
      (charge p t (maintenance_margin_rate p) == dec_value (collateral_value inexact_trigger))%Q ->
      (dec_value t == 125 # 100 /\ dec_value t < dec_value (Decimal.mk 10 0))%Q.
Proof.
  eexists. eexists. split_and!; try reflexivity.
  intros p t [= <-] V. assert (dec_value t == 125 # 100)%Q as T.
  { unfold charge in V. set (x := dec_value t) in *.
    assert ((8 # 1000) * x * (1 # 10) == 1 # 1000)%Q as V' by exact V. lra. }
  split; [exact T|]. rewrite T. reflexivity.
Qed.
