(* ===== verification/OrderBook.v ===== *)
(** * The level-4 order book: [crates/orderbook/src/book.rs]

    An [OrderBook] keeps the resting orders of one market in price-time order,
    one [BTreeMap] per side, with an index from order id to the side, price and
    time priority under which the order is stored. Snapshots rebuild it, diffs
    change it one order at a time, and any inconsistency empties it and marks
    it red until the next snapshot. The file models every operation, states
    the representation invariant, and proves that the two maps and the index
    implement a finite map from order ids to orders. *)

From Stdlib Require Import Sorting.Sorted.
From S2P Require Import Prelude Ordering BTreeMap Bytes FixedPoint Ids.

Definition DEFAULT_MAX_ORDERS : Z := 1048576.

Inductive BookHealth :=
| Healthy
| AwaitingSnapshot (reason : string)
| Red (reason : string).
#[global] Instance BookHealth_eq_dec : EqDecision BookHealth.
Proof. solve_decision. Defined.

Inductive TriggerKind :=
| NoTrigger
| Untriggered (tpsl : bool) (trigger_px : Price)
| Activated (trigger_px : Price).

Definition is_untriggered (t : TriggerKind) : bool :=
  match t with Untriggered _ _ => true | _ => false end.

Record RestingOrder := mkRestingOrder {
  order_id : OrderId;
  side : OrderSide;
  price : Price;
  remaining : Quantity;
  original : Quantity;
  sequence : Z;
  account_id : option Address;
  client_order_id : option string;
  time_millis : option Z;
  trigger : TriggerKind;
}.

Module RestingOrder.
Definition new (id : OrderId) (sd : OrderSide) (p : Price) (q : Quantity) (sq : Z) : RestingOrder :=
  mkRestingOrder id sd p q q sq None None None NoTrigger.
Definition with_original (q : Quantity) (o : RestingOrder) : RestingOrder :=
  mkRestingOrder (order_id o) (side o) (price o) (remaining o) q (sequence o) (account_id o)
    (client_order_id o) (time_millis o) (trigger o).
Definition with_account (a : Address) (o : RestingOrder) : RestingOrder :=
  mkRestingOrder (order_id o) (side o) (price o) (remaining o) (original o) (sequence o) (Some a)
    (client_order_id o) (time_millis o) (trigger o).
Definition with_client_order_id (c : string) (o : RestingOrder) : RestingOrder :=
  mkRestingOrder (order_id o) (side o) (price o) (remaining o) (original o) (sequence o)
    (account_id o) (Some c) (time_millis o) (trigger o).
Definition with_time_millis (t : Z) (o : RestingOrder) : RestingOrder :=
  mkRestingOrder (order_id o) (side o) (price o) (remaining o) (original o) (sequence o)
    (account_id o) (client_order_id o) (Some t) (trigger o).
Definition with_trigger (t : TriggerKind) (o : RestingOrder) : RestingOrder :=
  mkRestingOrder (order_id o) (side o) (price o) (remaining o) (original o) (sequence o)
    (account_id o) (client_order_id o) (time_millis o) t.
End RestingOrder.

Definition time_priority (o : RestingOrder) : Z := default (sequence o) (time_millis o).
Definition rests_on_l2 (o : RestingOrder) : bool := negb (is_untriggered (trigger o)).

(** Assignments to the mutable fields. *)
Definition set_remaining (q : Quantity) (o : RestingOrder) : RestingOrder :=
  mkRestingOrder (order_id o) (side o) (price o) q (original o) (sequence o) (account_id o)
    (client_order_id o) (time_millis o) (trigger o).
Definition set_price (p : Price) (o : RestingOrder) : RestingOrder :=
  mkRestingOrder (order_id o) (side o) p (remaining o) (original o) (sequence o) (account_id o)
    (client_order_id o) (time_millis o) (trigger o).

Inductive BookDiff :=
| Add (order : RestingOrder)
| Update (id : OrderId) (new_remaining : Quantity) (new_price : Price)
| Cancel (id : OrderId)
| Fill (id : OrderId) (fill_quantity : Quantity).

Record L2Level := mkL2Level { level_price : Price; level_quantity : Quantity; order_count : Z }.

Inductive LifecycleKind := Added | Updated | Filled | Cancelled.
Record LifecycleEvent := mkLifecycleEvent {
  event_order_id : OrderId;
  kind : LifecycleKind;
  event_sequence : Z;
}.

Record OrderIndex := mkOrderIndex {
  ix_side : OrderSide;
  ix_price : Price;
  ix_time_priority : Z;
}.

Definition BidKey : Type := Reverse Price * Z * OrderId.
Definition AskKey : Type := Price * Z * OrderId.
#[global] Instance Price_Ord : Ord Price := Decimal.t_Ord.
#[global] Instance Price_OrdLaws : OrdLaws Price := Decimal_OrdLaws.

Record OrderBook := mkOrderBook {
  market_id : MarketId;
  book_sequence : Z;
  as_of_block : BlockHeight;
  health : BookHealth;
  max_orders : Z;
  bids : btmap BidKey RestingOrder;
  asks : btmap AskKey RestingOrder;
  by_id : btmap OrderId OrderIndex;
  lifecycle : list LifecycleEvent;
}.

Definition set_bids x b := mkOrderBook (market_id b) (book_sequence b) (as_of_block b) (health b)
  (max_orders b) x (asks b) (by_id b) (lifecycle b).
Definition set_asks x b := mkOrderBook (market_id b) (book_sequence b) (as_of_block b) (health b)
  (max_orders b) (bids b) x (by_id b) (lifecycle b).
Definition set_by_id x b := mkOrderBook (market_id b) (book_sequence b) (as_of_block b) (health b)
  (max_orders b) (bids b) (asks b) x (lifecycle b).
Definition set_health x b := mkOrderBook (market_id b) (book_sequence b) (as_of_block b) x
  (max_orders b) (bids b) (asks b) (by_id b) (lifecycle b).
Definition set_lifecycle x b := mkOrderBook (market_id b) (book_sequence b) (as_of_block b) (health b)
  (max_orders b) (bids b) (asks b) (by_id b) x.
Definition set_position sq blk b := mkOrderBook (market_id b) sq blk (health b)
  (max_orders b) (bids b) (asks b) (by_id b) (lifecycle b).

Definition awaiting_snapshot_bounded (market : string) (blk : BlockHeight) (max : Z) : OrderBook :=
  mkOrderBook market 0 blk (AwaitingSnapshot "empty book requires a verified snapshot") max
    [] [] [] [].
Definition awaiting_snapshot (market : string) (blk : BlockHeight) : OrderBook :=
  awaiting_snapshot_bounded market blk DEFAULT_MAX_ORDERS.

Definition active_order_count (b : OrderBook) : Z := bt_len (by_id b).
Definition active_orders (b : OrderBook) : list RestingOrder :=
  bt_values (bids b) ++ bt_values (asks b).

(** ** Keys *)

Definition bid_key (o : RestingOrder) : BidKey := (mkReverse (price o), time_priority o, order_id o).
Definition ask_key (o : RestingOrder) : AskKey := (price o, time_priority o, order_id o).
Definition bid_index_key (ix : OrderIndex) (id : OrderId) : BidKey :=
  (mkReverse (ix_price ix), ix_time_priority ix, id).
Definition ask_index_key (ix : OrderIndex) (id : OrderId) : AskKey :=
  (ix_price ix, ix_time_priority ix, id).
Definition index_of (o : RestingOrder) : OrderIndex :=
  mkOrderIndex (side o) (price o) (time_priority o).

(** ** Level-2 aggregation *)

Definition aggregate_step (levels : btmap Price (Quantity * Z)) (order : RestingOrder)
  : result string (btmap Price (Quantity * Z)) :=
  if negb (rests_on_l2 order) then Ok levels else
  levels ← match bt_get (price order) levels with
           | None =>
               zero ← map_err (fun _ => "invalid quantity scale"%string)
                        (Decimal.from_raw 0 (Decimal.scale (remaining order)));
               Ok (bt_insert (price order) (zero, 0) levels)
           | Some _ => Ok levels
           end;
  entry ← bt_get (price order) levels ?? "l2 level index is inconsistent"%string;
  quantity ← map_err (fun _ => "l2 aggregation overflow"%string)
               (Decimal.checked_add entry.1 (remaining order));
  count ← int_add U32 entry.2 1 ?? "l2 order count overflow"%string;
  Ok (bt_set (price order) (quantity, count) levels).

Fixpoint aggregate_loop (levels : btmap Price (Quantity * Z)) (orders : list RestingOrder)
  : result string (btmap Price (Quantity * Z)) :=
  match orders with
  | [] => Ok levels
  | order :: orders => levels ← aggregate_step levels order; aggregate_loop levels orders
  end.

Definition aggregate_l2 (orders : list RestingOrder) (for_bids : bool)
  : result string (list L2Level) :=
  levels ← aggregate_loop [] orders;
  let out := (fun p : Price * (Quantity * Z) => mkL2Level p.1 p.2.1 p.2.2) <$> levels in
  Ok (if for_bids then reverse out else out).

Definition unwrap_or_default {E A} (r : result E (list A)) : list A :=
  match r with Ok l => l | Err _ => [] end.
Definition l2_bids (b : OrderBook) : list L2Level :=
  unwrap_or_default (aggregate_l2 (bt_values (bids b)) true).
Definition l2_asks (b : OrderBook) : list L2Level :=
  unwrap_or_default (aggregate_l2 (bt_values (asks b)) false).

Definition best_bid (b : OrderBook) : option RestingOrder := find rests_on_l2 (bt_values (bids b)).
Definition best_ask (b : OrderBook) : option RestingOrder := find rests_on_l2 (bt_values (asks b)).

(** ** Health *)

Definition assert_invariants (b : OrderBook) : result string unit :=
  if negb (bt_len (by_id b) =? bt_len (bids b) + bt_len (asks b))
  then Err "active index is inconsistent"%string else
  _ ← match best_bid b, best_ask b with
      | Some bid, Some ask =>
          if negb (ltb (price bid) (price ask)) then Err "crossed or locked book"%string else Ok tt
      | _, _ => Ok tt
      end;
  _ ← aggregate_l2 (bt_values (bids b)) true;
  _ ← aggregate_l2 (bt_values (asks b)) false;
  Ok tt.

Definition mark_red (reason : string) (b : OrderBook) : OrderBook :=
  set_health (Red reason) (set_by_id [] (set_asks [] (set_bids [] b))).

(** ** Mutations of the active set *)

Abbreviation book_op := (st OrderBook string).

Definition push_lifecycle (id : OrderId) (k : LifecycleKind) : book_op unit :=
  st_modify (fun b => set_lifecycle (lifecycle b ++ [mkLifecycleEvent id k (book_sequence b)]) b).

(** The [match order.side] that stores an order under its side's key. *)
Definition store_order (o : RestingOrder) : book_op unit :=
  match side o with
  | Buy => st_modify (fun b => set_bids (bt_insert (bid_key o) o (bids b)) b)
  | Sell => st_modify (fun b => set_asks (bt_insert (ask_key o) o (asks b)) b)
  end.

Definition insert_active (order : RestingOrder) (from_snapshot : bool) : book_op unit :=
  b ← st_get;
  if (Decimal.raw (remaining order) <=? 0) || (Decimal.raw (price order) <=? 0)
     || (Decimal.raw (original order) <=? 0)
  then st_throw "negative or non-positive order quantity or price"%string else
  if bt_contains (order_id order) (by_id b) then st_throw "duplicate order id"%string else
  if max_orders b <=? bt_len (by_id b) then st_throw "order count bound"%string else
  _ ← store_order order;
  _ ← st_modify (fun b => set_by_id (bt_insert (order_id order) (index_of order) (by_id b)) b);
  if from_snapshot then mret tt else push_lifecycle (order_id order) Added.

Definition take_active (id : OrderId) (ix : OrderIndex) : book_op (option RestingOrder) :=
  b ← st_get;
  match bt_get id (by_id b) with
  | None => mret None
  | Some _ =>
      _ ← st_modify (fun b => set_by_id (bt_remove id (by_id b)) b);
      match ix_side ix with
      | Buy =>
          _ ← st_modify (fun b => set_bids (bt_remove (bid_index_key ix id) (bids b)) b);
          mret (bt_get (bid_index_key ix id) (bids b))
      | Sell =>
          _ ← st_modify (fun b => set_asks (bt_remove (ask_index_key ix id) (asks b)) b);
          mret (bt_get (ask_index_key ix id) (asks b))
      end
  end.

Definition update_active (id : OrderId) (new_remaining : Quantity) (new_price : Price)
  : book_op unit :=
  if (Decimal.raw new_remaining <? 0) || (Decimal.raw new_price <=? 0)
  then st_throw "negative or non-positive order quantity or price"%string else
  b ← st_get;
  match bt_get id (by_id b) with
  | None => st_throw "order id is not active"%string
  | Some ix =>
      taken ← take_active id ix;
      order ← st_lift (taken ?? "order index is inconsistent"%string);
      let order := set_price new_price (set_remaining new_remaining order) in
      if Decimal.raw new_remaining =? 0 then push_lifecycle id Filled else
      _ ← store_order order;
      _ ← st_modify (fun b => set_by_id (bt_insert id (index_of order) (by_id b)) b);
      push_lifecycle id Updated
  end.

Definition remove_active (id : OrderId) (k : LifecycleKind) : book_op unit :=
  b ← st_get;
  match bt_get id (by_id b) with
  | None => st_throw "order id is not active"%string
  | Some ix =>
      taken ← take_active id ix;
      _ ← st_lift (taken ?? "order index is inconsistent"%string);
      push_lifecycle id k
  end.

(** [apply_fill_qty] mutates the order in place only when it succeeds. *)
Definition apply_fill_qty (order : RestingOrder) (fill_quantity : Quantity)
  : result string (Quantity * RestingOrder) :=
  rest ← map_err (fun _ => "fill exceeds remaining quantity"%string)
           (Decimal.checked_sub (remaining order) fill_quantity);
  if Decimal.raw rest <? 0 then Err "negative remaining quantity"%string
  else Ok (rest, set_remaining rest order).

Definition fill_active (id : OrderId) (fill_quantity : Quantity) : book_op unit :=
  if Decimal.raw fill_quantity <=? 0 then st_throw "fill quantity must be positive"%string else
  b ← st_get;
  match bt_get id (by_id b) with
  | None => st_throw "order id is not active"%string
  | Some ix =>
      rest ← match ix_side ix with
             | Buy =>
                 order ← st_lift (bt_get (bid_index_key ix id) (bids b)
                                    ?? "bid index is inconsistent"%string);
                 r ← st_lift (apply_fill_qty order fill_quantity);
                 _ ← st_modify (fun b => set_bids (bt_set (bid_index_key ix id) r.2 (bids b)) b);
                 mret r.1
             | Sell =>
                 order ← st_lift (bt_get (ask_index_key ix id) (asks b)
                                    ?? "ask index is inconsistent"%string);
                 r ← st_lift (apply_fill_qty order fill_quantity);
                 _ ← st_modify (fun b => set_asks (bt_set (ask_index_key ix id) r.2 (asks b)) b);
                 mret r.1
             end;
      if Decimal.raw rest =? 0 then remove_active id Filled else push_lifecycle id Filled
  end.

Definition apply_healthy_diff (diff : BookDiff) : book_op unit :=
  match diff with
  | Add order => insert_active order false
  | Update id new_remaining new_price => update_active id new_remaining new_price
  | Cancel id => remove_active id Cancelled
  | Fill id fill_quantity => fill_active id fill_quantity
  end.

(** ** Public mutations *)

Fixpoint insert_all (orders : list RestingOrder) : book_op unit :=
  match orders with
  | [] => mret tt
  | order :: orders => _ ← insert_active order true; insert_all orders
  end.

Definition settle (r : result string unit * OrderBook) : OrderBook :=
  let '(outcome, b) := r in
  match outcome with
  | Err reason => mark_red reason b
  | Ok _ => match assert_invariants b with Err reason => mark_red reason b | Ok _ => b end
  end.

Definition apply_snapshot (sq : Z) (blk : BlockHeight) (orders : list RestingOrder)
  (b : OrderBook) : OrderBook :=
  let b := set_health Healthy (set_position sq blk
             (set_lifecycle [] (set_by_id [] (set_asks [] (set_bids [] b))))) in
  if max_orders b <? zlen orders then mark_red "order count bound" b
  else settle (insert_all orders b).

Definition apply_diff (sq : Z) (blk : BlockHeight) (diff : BookDiff) (b : OrderBook) : OrderBook :=
  if negb (bool_decide (health b = Healthy))
  then mark_red "diff applied while book is not healthy" b else
  if negb (sq =? int_saturating_add U64 (book_sequence b) 1)
  then mark_red "sequence gap" b
  else settle (apply_healthy_diff diff (set_position sq blk b)).

(** ** The representation invariant *)

(** One side of the book against the id index. [ikey] is the side's key as a
    function of an index entry and an id. *)
Section side_theory.
Context {K : Type} `{OrdLaws K} (ikey : OrderIndex -> OrderId -> K) (sd : OrderSide).

Record side_ok (ids : btmap OrderId OrderIndex) (m : btmap K RestingOrder) : Prop := {
  side_sorted : bt_sorted m;
  side_entry : forall k o, (k, o) ∈ m ->
    k = ikey (index_of o) (order_id o) /\ side o = sd /\
    bt_get (order_id o) ids = Some (index_of o);
  side_index : forall id ix, bt_get id ids = Some ix -> ix_side ix = sd ->
    is_Some (bt_get (ikey ix id) m);
}.

Context (ikey_id : forall ix id ix' id', cmp (ikey ix id) (ikey ix' id') = Eq -> id = id').
Implicit Types (ids : btmap OrderId OrderIndex) (m : btmap K RestingOrder).

Lemma side_ok_nil : side_ok [] [].
Proof. split; [constructor| |done]. intros k o I. by apply not_elem_of_nil in I. Qed.

Lemma side_get ids m id ix o :
  side_ok ids m -> bt_get id ids = Some ix -> bt_get (ikey ix id) m = Some o ->
  order_id o = id /\ index_of o = ix /\ side o = sd.
Proof.
  intros W Gi Go. apply bt_get_Some in Go as (k' & E & (-> & Sd & G)%(side_entry _ _ W)).
  apply ikey_id in E as ->. rewrite Gi in G. by injection G as ->.
Qed.

Lemma side_get_elem ids m id ix o :
  side_ok ids m -> bt_get id ids = Some ix -> ix_side ix = sd ->
  bt_get (ikey ix id) m = Some o <-> o ∈ bt_values m /\ order_id o = id.
Proof.
  intros W Gi Sd. unfold bt_values. split.
  - intros Go. pose proof (side_get _ _ _ _ _ W Gi Go) as (Hid & _). split; [|done].
    apply bt_get_Some in Go as (k' & _ & I). apply list_elem_of_fmap. by exists (k', o).
  - intros [I <-]. apply list_elem_of_fmap in I as ([k' o'] & -> & I). cbn in *.
    destruct (side_entry _ _ W _ _ I) as (-> & _ & G). rewrite Gi in G. injection G as ->.
    by apply bt_get_elem; [apply W|].
Qed.

Lemma side_fresh ids m o :
  side_ok ids m -> bt_get (order_id o) ids = None ->
  bt_get (ikey (index_of o) (order_id o)) m = None.
Proof.
  intros W G. destruct (bt_get _ m) as [o'|] eqn:Go; [|done]. exfalso.
  apply bt_get_Some in Go as (k' & E & (-> & _ & G')%(side_entry _ _ W)).
  apply ikey_id in E. congruence.
Qed.

Lemma side_ok_insert ids m o :
  side_ok ids m -> bt_get (order_id o) ids = None -> side o = sd ->
  side_ok (bt_insert (order_id o) (index_of o) ids)
    (bt_insert (ikey (index_of o) (order_id o)) o m).
Proof.
  intros W G Sd. pose proof (side_fresh _ _ _ W G) as F. split.
  - apply bt_insert_sorted, W.
  - intros k o'. rewrite (bt_insert_perm _ _ _ F), elem_of_cons. intros [[= -> ->]|I].
    + by rewrite bt_get_insert_eq.
    + destruct (side_entry _ _ W _ _ I) as (-> & -> & G'). split_and!; [done..|].
      rewrite bt_get_insert_ne, G'; [done|]. rewrite cmp_eq_iff. intros E. congruence.
  - intros id ix. rewrite bt_get_insert, eqb_decide. case_bool_decide as E.
    + intros [= <-] _. subst id. rewrite bt_get_insert_eq. eauto.
    + intros Gi Si. rewrite bt_get_insert_ne; [by eapply side_index|].
      intros E'. by apply ikey_id in E'.
Qed.

Lemma side_ok_insert_other ids m o :
  side_ok ids m -> bt_get (order_id o) ids = None -> side o <> sd ->
  side_ok (bt_insert (order_id o) (index_of o) ids) m.
Proof.
  intros W G Sd. split; [apply W|..].
  - intros k o' I. destruct (side_entry _ _ W _ _ I) as (-> & -> & G'). split_and!; [done..|].
    rewrite bt_get_insert_ne, G'; [done|]. rewrite cmp_eq_iff. intros E. congruence.
  - intros id ix. rewrite bt_get_insert, eqb_decide. case_bool_decide as E.
    + intros [= <-] Si. done.
    + by eapply side_index.
Qed.

Lemma side_ok_remove ids m id ix :
  bt_sorted ids -> side_ok ids m -> bt_get id ids = Some ix -> ix_side ix = sd ->
  side_ok (bt_remove id ids) (bt_remove (ikey ix id) m).
Proof.
  intros Si W G Sd. split.
  - apply bt_remove_sorted, W.
  - intros k o I.
    assert ((k, o) ∈ m) as I'.
    { eapply (Forall_forall (fun p => p ∈ m)); [apply bt_remove_Forall|exact I].
      by apply Forall_forall. }
    destruct (side_entry _ _ W _ _ I') as (-> & -> & G'). split_and!; [done..|].
    rewrite bt_get_remove_ne, G'; [done|done|]. rewrite cmp_eq_iff. intros E.
    rewrite E, G in G'. injection G' as ->. rewrite E in I.
    apply bt_get_elem in I; [|apply bt_remove_sorted, W].
    rewrite bt_get_remove_eq in I; [done|apply W].
  - intros id' ix'. rewrite bt_get_remove, eqb_decide by done. case_bool_decide as E; [done|].
    intros G' S'. rewrite bt_get_remove_ne; [by eapply side_index|apply W|].
    intros E'. by apply ikey_id in E'.
Qed.

Lemma side_ok_remove_other ids m id ix :
  bt_sorted ids -> side_ok ids m -> bt_get id ids = Some ix -> ix_side ix <> sd ->
  side_ok (bt_remove id ids) m.
Proof.
  intros Si W G Sd. split; [apply W|..].
  - intros k o I. destruct (side_entry _ _ W _ _ I) as (-> & So & G'). split_and!; [done..|].
    rewrite bt_get_remove_ne, G'; [done|done|]. rewrite cmp_eq_iff. intros E.
    rewrite E, G in G'. injection G' as ->. done.
  - intros id' ix'. rewrite bt_get_remove, eqb_decide by done. case_bool_decide as E; [done|].
    by eapply side_index.
Qed.

(** An in-place change that keeps the indexed fields. *)
Lemma side_ok_set ids m id ix o o' :
  side_ok ids m -> bt_get id ids = Some ix -> bt_get (ikey ix id) m = Some o ->
  order_id o' = order_id o -> index_of o' = index_of o ->
  side_ok ids (bt_set (ikey ix id) o' m).
Proof.
  intros W G Go Eid Eix. destruct (side_get _ _ _ _ _ W G Go) as (Hid & Hix & Hs). split.
  - apply bt_set_sorted, W.
  - intros k o1 I.
    eapply (Forall_forall (fun p => p.1 = ikey (index_of p.2) (order_id p.2) /\ side p.2 = sd /\
      bt_get (order_id p.2) ids = Some (index_of p.2))) in I; [done|].
    apply bt_set_Forall; [|apply Forall_forall; intros [k2 o2] I2; by apply (side_entry _ _ W)].
    intros k' v' I' E. cbn. rewrite Eid, Eix, Hid, Hix.
    destruct (side_entry _ _ W _ _ I') as (-> & _ & G').
    pose proof E as ->%ikey_id. rewrite G in G'. injection G' as ->.
    split_and!; [done| |done]. by injection Eix as -> _ _.
  - intros id' ix' G' S'. rewrite bt_get_set. destruct (side_index _ _ W _ _ G' S') as [v Gv].
    rewrite Gv. destruct (eqb _ _); eauto.
Qed.
End side_theory.

Lemma bid_index_key_id ix id ix' id' :
  cmp (bid_index_key ix id) (bid_index_key ix' id') = Eq -> id = id'.
Proof. intros [_ E]%cmp_pair_Eq. by apply cmp_eq_leibniz in E. Qed.

Lemma ask_index_key_id ix id ix' id' :
  cmp (ask_index_key ix id) (ask_index_key ix' id') = Eq -> id = id'.
Proof. intros [_ E]%cmp_pair_Eq. by apply cmp_eq_leibniz in E. Qed.
#[export] Hint Resolve bid_index_key_id ask_index_key_id : rust.

(** The maps and the index describe the same set of orders. *)
Record index_wf (b : OrderBook) : Prop := {
  by_id_sorted : bt_sorted (by_id b);
  bids_ok : side_ok bid_index_key Buy (by_id b) (bids b);
  asks_ok : side_ok ask_index_key Sell (by_id b) (asks b);
  index_len : bt_len (by_id b) = bt_len (bids b) + bt_len (asks b);
}.

(** The abstract value: the order stored under an id. *)
Definition lookup_order (b : OrderBook) (id : OrderId) : option RestingOrder :=
  ix ← bt_get id (by_id b);
  match ix_side ix with
  | Buy => bt_get (bid_index_key ix id) (bids b)
  | Sell => bt_get (ask_index_key ix id) (asks b)
  end.

(** ** The abstract book: a partial map from ids to orders *)

Definition book_map := OrderId -> option RestingOrder.
Definition map_put (id : OrderId) (o : RestingOrder) (m : book_map) : book_map :=
  fun j => if bool_decide (j = id) then Some o else m j.
Definition map_drop (id : OrderId) (m : book_map) : book_map :=
  fun j => if bool_decide (j = id) then None else m j.

Definition order_positive (o : RestingOrder) : Prop :=
  0 < Decimal.raw (remaining o) /\ 0 < Decimal.raw (price o) /\ 0 < Decimal.raw (original o).
#[global] Instance order_positive_dec o : Decision (order_positive o).
Proof. unfold order_positive. apply _. Defined.

(** What a diff means: the new map and the lifecycle event it records, or the
    reason it is refused. [count] and [max] are the number of active orders
    and its bound. *)
Definition spec_diff (count max : Z) (m : book_map) (d : BookDiff)
  : result string (book_map * (OrderId * LifecycleKind)) :=
  match d with
  | Add o =>
      if decide (order_positive o) then
        match m (order_id o) with
        | Some _ => Err "duplicate order id"%string
        | None => if count <? max then Ok (map_put (order_id o) o m, (order_id o, Added))
                  else Err "order count bound"%string
        end
      else Err "negative or non-positive order quantity or price"%string
  | Update id q p =>
      if decide (0 <= Decimal.raw q /\ 0 < Decimal.raw p) then
        match m id with
        | None => Err "order id is not active"%string
        | Some o =>
            if decide (Decimal.raw q = 0) then Ok (map_drop id m, (id, Filled))
            else Ok (map_put id (set_price p (set_remaining q o)) m, (id, Updated))
        end
      else Err "negative or non-positive order quantity or price"%string
  | Cancel id =>
      match m id with
      | None => Err "order id is not active"%string
      | Some _ => Ok (map_drop id m, (id, Cancelled))
      end
  | Fill id q =>
      if decide (0 < Decimal.raw q) then
        match m id with
        | None => Err "order id is not active"%string
        | Some o =>
            match Decimal.checked_sub (remaining o) q with
            | Err _ => Err "fill exceeds remaining quantity"%string
            | Ok rest =>
                if decide (Decimal.raw rest < 0) then Err "negative remaining quantity"%string
                else if decide (Decimal.raw rest = 0) then Ok (map_drop id m, (id, Filled))
                else Ok (map_put id (set_remaining rest o) m, (id, Filled))
            end
        end
      else Err "fill quantity must be positive"%string
  end.

(** ** The maps implement the abstract book *)

Definition put_order (o : RestingOrder) (b : OrderBook) : OrderBook :=
  set_by_id (bt_insert (order_id o) (index_of o) (by_id b))
    match side o with
    | Buy => set_bids (bt_insert (bid_key o) o (bids b)) b
    | Sell => set_asks (bt_insert (ask_key o) o (asks b)) b
    end.

Definition drop_order (id : OrderId) (ix : OrderIndex) (b : OrderBook) : OrderBook :=
  set_by_id (bt_remove id (by_id b))
    match ix_side ix with
    | Buy => set_bids (bt_remove (bid_index_key ix id) (bids b)) b
    | Sell => set_asks (bt_remove (ask_index_key ix id) (asks b)) b
    end.

Definition replace_order (id : OrderId) (ix : OrderIndex) (o : RestingOrder) (b : OrderBook)
  : OrderBook :=
  match ix_side ix with
  | Buy => set_bids (bt_set (bid_index_key ix id) o (bids b)) b
  | Sell => set_asks (bt_set (ask_index_key ix id) o (asks b)) b
  end.

Lemma lookup_index b id ix :
  index_wf b -> bt_get id (by_id b) = Some ix ->
  exists o, lookup_order b id = Some o /\ order_id o = id /\ index_of o = ix.
Proof.
  intros W G. unfold lookup_order. rewrite G, bind_of_Some. destruct (ix_side ix) eqn:Sd.
  - destruct (side_index _ _ _ _ (bids_ok _ W) _ _ G Sd) as [o Go]. exists o.
    split; [done|]. edestruct (side_get bid_index_key) as (? & ? & _);
      eauto using bids_ok with rust.
  - destruct (side_index _ _ _ _ (asks_ok _ W) _ _ G Sd) as [o Go]. exists o.
    split; [done|]. edestruct (side_get ask_index_key) as (? & ? & _);
      eauto using asks_ok with rust.
Qed.

Lemma lookup_order_Some b id o :
  index_wf b -> lookup_order b id = Some o ->
  bt_get id (by_id b) = Some (index_of o) /\ order_id o = id.
Proof.
  intros W L. destruct (bt_get id (by_id b)) as [ix|] eqn:G.
  - destruct (lookup_index _ _ _ W G) as (o' & L' & Hid & <-). by simplify_eq.
  - unfold lookup_order in L. by rewrite G in L.
Qed.

Lemma lookup_order_None b id :
  index_wf b -> lookup_order b id = None <-> bt_get id (by_id b) = None.
Proof.
  intros W. split; intros G.
  - destruct (bt_get id (by_id b)) as [ix|] eqn:Gi; [|done].
    destruct (lookup_index _ _ _ W Gi) as (o & L & _). congruence.
  - unfold lookup_order. by rewrite G.
Qed.

Lemma index_len_put b o :
  index_wf b -> bt_get (order_id o) (by_id b) = None ->
  bt_len (by_id (put_order o b)) = bt_len (by_id b) + 1 /\
  bt_len (bids (put_order o b)) + bt_len (asks (put_order o b)) = bt_len (by_id b) + 1.
Proof.
  intros W G. rewrite (index_len _ W). unfold put_order.
  assert (bt_contains (order_id o) (by_id b) = false) as C by by apply bt_contains_false.
  destruct (side o) eqn:Sd; cbn; rewrite !bt_len_insert, C;
    try apply W; try apply (side_sorted _ _ _ _ (bids_ok _ W));
    try apply (side_sorted _ _ _ _ (asks_ok _ W)).
  - replace (bt_contains (bid_key o) (bids b)) with false; [rewrite (index_len _ W); lia|].
    symmetry. apply bt_contains_false.
    eapply (side_fresh bid_index_key Buy); eauto using bids_ok with rust.
  - replace (bt_contains (ask_key o) (asks b)) with false; [rewrite (index_len _ W); lia|].
    symmetry. apply bt_contains_false.
    eapply (side_fresh ask_index_key Sell); eauto using asks_ok with rust.
Qed.

Lemma put_order_wf b o :
  index_wf b -> bt_get (order_id o) (by_id b) = None -> index_wf (put_order o b).
Proof.
  intros W G. destruct (index_len_put _ _ W G) as [L1 L2].
  pose proof (bids_ok _ W) as B. pose proof (asks_ok _ W) as A.
  split; [| | |congruence]; unfold put_order; destruct (side o) eqn:Sd; cbn.
  1,2: apply bt_insert_sorted, W.
  - by apply (side_ok_insert bid_index_key); eauto with rust.
  - apply side_ok_insert_other; congruence.
  - apply side_ok_insert_other; congruence.
  - by apply (side_ok_insert ask_index_key); eauto with rust.
Qed.

Lemma lookup_put b o id :
  index_wf b -> bt_get (order_id o) (by_id b) = None ->
  lookup_order (put_order o b) id = map_put (order_id o) o (lookup_order b) id.
Proof.
  intros W G. unfold lookup_order, map_put, put_order.
  assert (forall P Q : book_map, (id = order_id o -> P id = Some o) ->
    (id <> order_id o -> P id = Q id) ->
    P id = if bool_decide (id = order_id o) then Some o else Q id) as R.
  { intros P Q P1 P2. case_bool_decide; auto. }
  apply (R (fun id => _) (fun id => _)); clear R.
  - intros ->. destruct (side o) eqn:Sd; cbn; rewrite bt_get_insert_eq, bind_of_Some; cbn;
      rewrite Sd; apply bt_get_insert_eq.
  - intros N. destruct (side o) eqn:Sd; cbn;
      (rewrite bt_get_insert_ne; [|by rewrite cmp_eq_iff]);
      destruct (bt_get id (by_id b)) as [ix|]; rewrite ?bind_of_Some; try done;
      destruct (ix_side ix); try done; apply bt_get_insert_ne.
    + by intros E%(bid_index_key_id ix id (index_of o)).
    + by intros E%(ask_index_key_id ix id (index_of o)).
Qed.

Lemma drop_order_wf b id ix :
  index_wf b -> bt_get id (by_id b) = Some ix -> index_wf (drop_order id ix b).
Proof.
  intros W G. destruct (lookup_index _ _ _ W G) as (o & L & _).
  unfold lookup_order in L. rewrite G, bind_of_Some in L.
  pose proof (by_id_sorted _ W) as S. pose proof (bids_ok _ W) as B.
  pose proof (asks_ok _ W) as A. pose proof (index_len _ W) as N.
  assert (bt_contains id (by_id b) = true) as C by (apply bt_contains_true; eauto).
  split; unfold drop_order; destruct (ix_side ix) eqn:Sd; cbn.
  1,2: by apply bt_remove_sorted.
  - by apply (side_ok_remove bid_index_key); eauto with rust.
  - eapply side_ok_remove_other; [done|done|exact G|congruence].
  - eapply side_ok_remove_other; [done|done|exact G|congruence].
  - by apply (side_ok_remove ask_index_key); eauto with rust.
  - rewrite !bt_len_remove, C by (done || apply B).
    replace (bt_contains _ (bids b)) with true; [lia|]. symmetry. apply bt_contains_true. eauto.
  - rewrite !bt_len_remove, C by (done || apply A).
    replace (bt_contains _ (asks b)) with true; [lia|]. symmetry. apply bt_contains_true. eauto.
Qed.

Lemma lookup_drop b id ix j :
  index_wf b -> lookup_order (drop_order id ix b) j = map_drop id (lookup_order b) j.
Proof.
  intros W. pose proof (by_id_sorted _ W) as S. unfold lookup_order, map_drop, drop_order.
  case_bool_decide as E.
  - subst j. destruct (ix_side ix); cbn; by rewrite bt_get_remove_eq.
  - destruct (ix_side ix); cbn;
      (rewrite bt_get_remove_ne; [|done|by rewrite cmp_eq_iff]);
      destruct (bt_get j (by_id b)) as [ix'|]; rewrite ?bind_of_Some; try done;
      destruct (ix_side ix'); try done.
    + apply bt_get_remove_ne; [apply W|]. by intros E'%bid_index_key_id.
    + apply bt_get_remove_ne; [apply W|]. by intros E'%ask_index_key_id.
Qed.

Lemma replace_order_wf b id o o' :
  index_wf b -> lookup_order b id = Some o ->
  order_id o' = order_id o -> index_of o' = index_of o ->
  index_wf (replace_order id (index_of o) o' b).
Proof.
  intros W L Eid Eix. destruct (lookup_order_Some _ _ _ W L) as [G Hid].
  unfold lookup_order in L. rewrite G, bind_of_Some in L. unfold replace_order.
  destruct (ix_side (index_of o)) eqn:Sd; split; cbn; try apply W;
    rewrite ?bt_len_set; try apply W.
  - by eapply (side_ok_set bid_index_key); eauto using bids_ok with rust.
  - by eapply (side_ok_set ask_index_key); eauto using asks_ok with rust.
Qed.

Lemma lookup_replace b id o o' j :
  index_wf b -> lookup_order b id = Some o ->
  lookup_order (replace_order id (index_of o) o' b) j = map_put id o' (lookup_order b) j.
Proof.
  intros W L. destruct (lookup_order_Some _ _ _ W L) as [G Hid].
  unfold lookup_order in L. rewrite G, bind_of_Some in L.
  unfold lookup_order, map_put, replace_order. case_bool_decide as E.
  - subst j. destruct (ix_side (index_of o)) eqn:Sd; cbn [by_id bids asks set_bids set_asks];
      rewrite G, bind_of_Some, Sd, bt_get_set, L; unfold eqb; by rewrite cmp_refl.
  - destruct (ix_side (index_of o)) eqn:Sd; cbn [by_id bids asks set_bids set_asks];
      destruct (bt_get j (by_id b)) as [ix'|]; rewrite ?bind_of_Some; try done;
      destruct (ix_side ix') eqn:Sd'; try done; rewrite bt_get_set; unfold eqb;
      destruct (cmp _ _) eqn:C; try done.
    + by apply bid_index_key_id in C.
    + by apply ask_index_key_id in C.
Qed.

(** Lifecycle events do not touch the maps. *)
Definition record_event (id : OrderId) (k : LifecycleKind) (b : OrderBook) : OrderBook :=
  set_lifecycle (lifecycle b ++ [mkLifecycleEvent id k (book_sequence b)]) b.

Lemma record_event_wf id k b : index_wf (record_event id k b) <-> index_wf b.
Proof. split; intros []; by split. Qed.

(** The fields no diff handler assigns. *)
Definition same_position (b b' : OrderBook) : Prop :=
  market_id b' = market_id b /\ book_sequence b' = book_sequence b /\
  as_of_block b' = as_of_block b /\ health b' = health b /\ max_orders b' = max_orders b.

Definition bounded (b : OrderBook) : Prop := active_order_count b <= max_orders b.

(** [b'] represents the abstract effect ([m'], with event [k] on [id]) on [b]. *)
Record implements (b : OrderBook) (m' : book_map) (id : OrderId) (k : LifecycleKind)
  (b' : OrderBook) : Prop := {
  impl_wf : index_wf b';
  impl_lookup : forall j, lookup_order b' j = m' j;
  impl_position : same_position b b';
  impl_lifecycle : lifecycle b' = lifecycle b ++ [mkLifecycleEvent id k (book_sequence b)];
  impl_bounded : bounded b -> bounded b';
}.

Lemma put_order_frame b o :
  same_position b (put_order o b) /\ lifecycle (put_order o b) = lifecycle b.
Proof. unfold put_order. by destruct (side o). Qed.

Lemma drop_order_frame b id ix :
  same_position b (drop_order id ix b) /\ lifecycle (drop_order id ix b) = lifecycle b.
Proof. unfold drop_order. by destruct (ix_side ix). Qed.

Lemma replace_order_frame b id ix o :
  same_position b (replace_order id ix o b) /\ lifecycle (replace_order id ix o b) = lifecycle b /\
  by_id (replace_order id ix o b) = by_id b.
Proof. unfold replace_order. by destruct (ix_side ix). Qed.

Lemma same_position_trans b1 b2 b3 :
  same_position b1 b2 -> same_position b2 b3 -> same_position b1 b3.
Proof. unfold same_position. intuition congruence. Qed.

Lemma put_order_count b o :
  index_wf b -> lookup_order b (order_id o) = None ->
  active_order_count (put_order o b) = active_order_count b + 1.
Proof. intros W G%lookup_order_None; [|done]. by apply index_len_put. Qed.

Lemma drop_order_count b id ix :
  index_wf b -> bt_get id (by_id b) = Some ix ->
  active_order_count (drop_order id ix b) = active_order_count b - 1.
Proof.
  intros W G. unfold active_order_count, drop_order.
  assert (bt_contains id (by_id b) = true) as C by (apply bt_contains_true; eauto).
  destruct (ix_side ix); cbn; by rewrite bt_len_remove, C by apply W.
Qed.

Lemma record_event_implements b b' m' id k :
  index_wf b' -> (forall j, lookup_order b' j = m' j) ->
  same_position b b' -> lifecycle b' = lifecycle b -> (bounded b -> bounded b') ->
  implements b m' id k (record_event id k b').
Proof.
  intros W L P Y B. split; [by apply record_event_wf|exact L|exact P| |exact B].
  cbn. rewrite Y. by destruct P as (_ & -> & _).
Qed.

(** *** The handlers on a consistent book *)

Lemma insert_active_eq b o fs :
  index_wf b ->
  insert_active o fs b =
    if decide (order_positive o) then
      match lookup_order b (order_id o) with
      | Some _ => (Err "duplicate order id"%string, b)
      | None =>
          if active_order_count b <? max_orders b then
            (Ok tt, if fs then put_order o b else record_event (order_id o) Added (put_order o b))
          else (Err "order count bound"%string, b)
      end
    else (Err "negative or non-positive order quantity or price"%string, b).
Proof.
  intros W. unfold insert_active. rewrite st_bind_get. case_decide as P.
  - destruct P as (P1 & P2 & P3). rewrite !(proj2 (Z.leb_gt _ _)) by done. cbn [orb].
    unfold bt_contains. destruct (lookup_order b (order_id o)) as [o'|] eqn:L.
    + by apply lookup_order_Some in L as [-> _].
    + apply lookup_order_None in L as ->; [|done].
      unfold active_order_count. rewrite Z.ltb_antisym. destruct (_ <=? _); [done|].
      unfold store_order, put_order, record_event. by destruct (side o), fs.
  - destruct (_ || _)%bool eqn:E; [done|]. bool_to_prop. by destruct P.
Qed.

Lemma take_active_eq b id o :
  index_wf b -> lookup_order b id = Some o ->
  take_active id (index_of o) b = (Ok (Some o), drop_order id (index_of o) b).
Proof.
  intros W L. destruct (lookup_order_Some _ _ _ W L) as [G _].
  unfold lookup_order in L. rewrite G, bind_of_Some in L. unfold take_active, drop_order.
  rewrite st_bind_get, G, st_bind_modify.
  destruct (ix_side (index_of o)); rewrite st_bind_modify, L; done.
Qed.

Lemma remove_active_eq b id k :
  index_wf b ->
  remove_active id k b =
    match lookup_order b id with
    | None => (Err "order id is not active"%string, b)
    | Some o => (Ok tt, record_event id k (drop_order id (index_of o) b))
    end.
Proof.
  intros W. unfold remove_active. rewrite st_bind_get.
  destruct (lookup_order b id) as [o|] eqn:L.
  - destruct (lookup_order_Some _ _ _ W L) as [-> _].
    by rewrite (st_bind_Ok _ _ _ _ _ (take_active_eq _ _ _ W L)).
  - by apply lookup_order_None in L as ->.
Qed.

Lemma drop_implements b id o k :
  index_wf b -> lookup_order b id = Some o ->
  implements b (map_drop id (lookup_order b)) id k
    (record_event id k (drop_order id (index_of o) b)).
Proof.
  intros W L. destruct (lookup_order_Some _ _ _ W L) as [G _].
  destruct (drop_order_frame b id (index_of o)) as [P Y].
  apply record_event_implements; [by apply drop_order_wf|intros j; by apply lookup_drop|done|done|].
  unfold bounded. rewrite drop_order_count by done. destruct P as (_ & _ & _ & _ & ->). lia.
Qed.

Lemma put_implements b b' o k :
  index_wf b' -> lookup_order b' (order_id o) = None ->
  same_position b b' -> lifecycle b' = lifecycle b ->
  (bounded b -> active_order_count b' < max_orders b) ->
  implements b (map_put (order_id o) o (lookup_order b')) (order_id o) k
    (record_event (order_id o) k (put_order o b')).
Proof.
  intros W L P Y B. pose proof (proj1 (lookup_order_None _ _ W) L) as G.
  destruct (put_order_frame b' o) as [P' Y'].
  apply record_event_implements; [by apply put_order_wf|intros j; by apply lookup_put|..].
  - by eapply same_position_trans.
  - congruence.
  - intros B'%B. unfold bounded. rewrite put_order_count by done.
    destruct P' as (_ & _ & _ & _ & ->), P as (_ & _ & _ & _ & ->). lia.
Qed.

Lemma update_active_eq b id q p :
  index_wf b ->
  update_active id q p b =
    if decide (0 <= Decimal.raw q /\ 0 < Decimal.raw p) then
      match lookup_order b id with
      | None => (Err "order id is not active"%string, b)
      | Some o =>
          let b' := drop_order id (index_of o) b in
          (Ok tt, if decide (Decimal.raw q = 0) then record_event id Filled b'
                  else record_event id Updated (put_order (set_price p (set_remaining q o)) b'))
      end
    else (Err "negative or non-positive order quantity or price"%string, b).
Proof.
  intros W. unfold update_active. case_decide as P.
  - destruct P as [P1 P2]. rewrite (proj2 (Z.ltb_ge _ _)), (proj2 (Z.leb_gt _ _)) by done.
    cbn [orb]. rewrite st_bind_get. destruct (lookup_order b id) as [o|] eqn:L.
    + destruct (lookup_order_Some _ _ _ W L) as [-> Hid].
      rewrite (st_bind_Ok _ _ _ _ _ (take_active_eq _ _ _ W L)). cbn [ok_or].
      rewrite st_bind_lift_Ok. destruct (Z.eqb_spec (Decimal.raw q) 0); case_decide; try done.
      unfold store_order, put_order, record_event. cbn [side set_price set_remaining order_id].
      rewrite Hid. by destruct (side o).
    + by apply lookup_order_None in L as ->.
  - destruct (_ || _)%bool eqn:E; [done|]. bool_to_prop. by destruct P.
Qed.

Lemma fill_active_eq b id q :
  index_wf b ->
  fill_active id q b =
    if decide (0 < Decimal.raw q) then
      match lookup_order b id with
      | None => (Err "order id is not active"%string, b)
      | Some o =>
          match apply_fill_qty o q with
          | Err e => (Err e, b)
          | Ok (rest, o') =>
              let b' := replace_order id (index_of o) o' b in
              if decide (Decimal.raw rest = 0) then remove_active id Filled b'
              else (Ok tt, record_event id Filled b')
          end
      end
    else (Err "fill quantity must be positive"%string, b).
Proof.
  intros W. unfold fill_active. case_decide as P.
  - rewrite (proj2 (Z.leb_gt _ _)) by done. rewrite st_bind_get.
    destruct (lookup_order b id) as [o|] eqn:L; [|by apply lookup_order_None in L as ->].
    destruct (lookup_order_Some _ _ _ W L) as [G Hid].
    unfold lookup_order in L. rewrite G, bind_of_Some in L. rewrite G. unfold replace_order.
    destruct (ix_side (index_of o)); rewrite L; unfold mbind at 1, st_bind at 1;
      cbn [ok_or]; rewrite st_bind_lift_Ok;
      (destruct (apply_fill_qty o q) as [[rest o']|e];
        [rewrite st_bind_lift_Ok, st_bind_modify; cbn [fst snd mret st_ret]|
         by rewrite st_bind_lift_Err]);
      by destruct (Z.eqb_spec (Decimal.raw rest) 0); case_decide.
  - by rewrite (proj2 (Z.leb_le _ _)) by lia.
Qed.

Lemma implements_ext b m m' id k b' :
  (forall j, m j = m' j) -> implements b m id k b' -> implements b m' id k b'.
Proof. intros E []. split; [done| |done..]. intros j. by rewrite <- E. Qed.

Lemma replace_implements b id o o' k :
  index_wf b -> lookup_order b id = Some o ->
  order_id o' = order_id o -> index_of o' = index_of o ->
  implements b (map_put id o' (lookup_order b)) id k
    (record_event id k (replace_order id (index_of o) o' b)).
Proof.
  intros W L Ei Ex. destruct (replace_order_frame b id (index_of o) o') as (P & Y & I).
  apply record_event_implements;
    [by apply replace_order_wf|intros j; by apply lookup_replace|done|done|].
  unfold bounded, active_order_count. rewrite I. by destruct P as (_ & _ & _ & _ & ->).
Qed.

(** A fill that exhausts its order updates it in place and then removes it. *)
Lemma replace_drop_implements b id o o' k :
  index_wf b -> lookup_order b id = Some o ->
  order_id o' = order_id o -> index_of o' = index_of o ->
  implements b (map_drop id (lookup_order b)) id k
    (record_event id k (drop_order id (index_of o') (replace_order id (index_of o) o' b))).
Proof.
  intros W L Ei Ex. destruct (replace_order_frame b id (index_of o) o') as (P & Y & I).
  pose proof (replace_order_wf _ _ _ _ W L Ei Ex) as W'.
  assert (lookup_order (replace_order id (index_of o) o' b) id = Some o') as L'.
  { rewrite lookup_replace by done. unfold map_put. by case_bool_decide. }
  pose proof (drop_implements _ _ _ k W' L') as D. split.
  - apply D.
  - intros j. rewrite (impl_lookup _ _ _ _ _ D). unfold map_drop.
    case_bool_decide as E; [done|]. rewrite lookup_replace by done. unfold map_put.
    by case_bool_decide.
  - eapply same_position_trans; [exact P|apply D].
  - rewrite (impl_lifecycle _ _ _ _ _ D), Y. by destruct P as (_ & -> & _).
  - intros B. apply D. unfold bounded, active_order_count in *. rewrite I.
    by destruct P as (_ & _ & _ & _ & ->).
Qed.

Lemma apply_fill_qty_cases o q :
  apply_fill_qty o q =
    match Decimal.checked_sub (remaining o) q with
    | Err _ => Err "fill exceeds remaining quantity"%string
    | Ok rest => if decide (Decimal.raw rest < 0) then Err "negative remaining quantity"%string
                 else Ok (rest, set_remaining rest o)
    end.
Proof.
  unfold apply_fill_qty. destruct (Decimal.checked_sub _ _) as [rest|e]; cbn; [|done].
  destruct (Z.ltb_spec (Decimal.raw rest) 0); case_decide; done || lia.
Qed.

Lemma healthy_diff_refines b d :
  index_wf b ->
  match spec_diff (active_order_count b) (max_orders b) (lookup_order b) d with
  | Err e => apply_healthy_diff d b = (Err e, b)
  | Ok (m', (id, k)) => exists b', apply_healthy_diff d b = (Ok tt, b') /\ implements b m' id k b'
  end.
Proof.
  intros W. destruct d as [o|id q p|id|id q]; cbn [spec_diff apply_healthy_diff].
  - rewrite insert_active_eq by done. case_decide; [|done].
    destruct (lookup_order b (order_id o)) eqn:L; [done|].
    destruct (Z.ltb_spec (active_order_count b) (max_orders b)); [|done].
    eexists. split; [done|]. by apply put_implements.
  - rewrite update_active_eq by done. case_decide; [|done].
    destruct (lookup_order b id) as [o|] eqn:L; [|done]. cbn zeta.
    destruct (lookup_order_Some _ _ _ W L) as [G Hid].
    case_decide; eexists; (split; [done|]); [by apply drop_implements|].
    destruct (drop_order_frame b id (index_of o)) as [P Y].
    set (o' := set_price p (set_remaining q o)).
    assert (order_id o' = id) as Hid' by done. rewrite <- Hid'.
    eapply implements_ext; [|apply put_implements].
    + intros j. unfold map_put. case_bool_decide; [done|]. rewrite Hid', lookup_drop by done.
      unfold map_drop. case_bool_decide; congruence.
    + rewrite Hid'. by apply drop_order_wf.
    + rewrite Hid', lookup_drop by done. unfold map_drop. by case_bool_decide.
    + by rewrite Hid'.
    + by rewrite Hid'.
    + unfold bounded. rewrite Hid', drop_order_count by done. lia.
  - rewrite remove_active_eq by done. destruct (lookup_order b id) as [o|] eqn:L; [|done].
    eexists. split; [done|]. by apply drop_implements.
  - rewrite fill_active_eq by done. case_decide; [|done].
    destruct (lookup_order b id) as [o|] eqn:L; [|done]. rewrite apply_fill_qty_cases.
    destruct (Decimal.checked_sub (remaining o) q) as [rest|e]; [|done].
    case_decide; [done|]. case_decide.
    + pose proof (replace_order_wf _ _ _ (set_remaining rest o) W L eq_refl eq_refl) as W'.
      rewrite remove_active_eq by done. rewrite lookup_replace by done. unfold map_put at 1.
      rewrite bool_decide_eq_true_2 by done. eexists. split; [done|].
      by apply replace_drop_implements.
    + eexists. split; [done|]. by apply replace_implements.
Qed.

(** ** The invariant of every reachable book *)

Definition is_cleared (b : OrderBook) : Prop := bids b = [] /\ asks b = [] /\ by_id b = [].

Record book_wf (b : OrderBook) : Prop := {
  wf_index : index_wf b;
  wf_positive : forall id o, lookup_order b id = Some o -> order_positive o;
  wf_bounded : bounded b;
  wf_health : if decide (health b = Healthy) then assert_invariants b = Ok tt else is_cleared b;
}.

Inductive reachable : OrderBook -> Prop :=
| reach_new market blk max :
    0 <= max -> reachable (awaiting_snapshot_bounded market blk max)
| reach_snapshot sq blk orders b : reachable b -> reachable (apply_snapshot sq blk orders b)
| reach_diff sq blk d b : reachable b -> reachable (apply_diff sq blk d b).

Lemma cleared_index b : is_cleared b -> index_wf b.
Proof.
  intros (E1 & E2 & E3). split; rewrite ?E1, ?E2, ?E3; [constructor| | |done];
    apply side_ok_nil.
Qed.

Lemma cleared_wf b : is_cleared b -> health b <> Healthy -> 0 <= max_orders b -> book_wf b.
Proof.
  intros C N M. split; [by apply cleared_index|..].
  - destruct C as (E1 & E2 & E3). unfold lookup_order. by rewrite E3.
  - destruct C as (E1 & E2 & E3). unfold bounded, active_order_count. by rewrite E3.
  - by case_decide.
Qed.

Lemma mark_red_wf e b : 0 <= max_orders b -> book_wf (mark_red e b).
Proof. intros M. by apply cleared_wf. Qed.

Lemma settle_wf r :
  0 <= max_orders r.2 ->
  (r.1 = Ok tt -> health r.2 = Healthy /\ index_wf r.2 /\ bounded r.2 /\
     (forall id o, lookup_order r.2 id = Some o -> order_positive o)) ->
  book_wf (settle r).
Proof.
  destruct r as [[[]|e] b]; cbn; intros M H; [|by apply mark_red_wf].
  destruct (assert_invariants b) as [[]|e] eqn:A; [|by apply mark_red_wf].
  destruct H as (Hh & W & B & P); [done|]. split; [done..|]. by rewrite decide_True.
Qed.

Lemma spec_diff_positive count max m d m' ev :
  (forall id o, m id = Some o -> order_positive o) ->
  spec_diff count max m d = Ok (m', ev) -> forall id o, m' id = Some o -> order_positive o.
Proof.
  intros P. destruct d as [o|i q p|i|i q]; cbn; intros E; repeat case_match; simplify_eq;
    intros id' o'; unfold map_put, map_drop; case_bool_decide; simplify_eq;
    intros E'; simplify_eq; try done; eauto.
  - match goal with H : m i = Some ?r |- _ => destruct (P _ _ H) as (A & B & C) end.
    unfold order_positive. cbn. lia.
  - match goal with H : m i = Some ?r |- _ => destruct (P _ _ H) as (A & B & C) end.
    unfold order_positive. cbn. lia.
Qed.

(** *** Snapshots *)

Lemma insert_all_position orders b :
  index_wf b ->
  same_position b (insert_all orders b).2 /\ lifecycle (insert_all orders b).2 = lifecycle b.
Proof.
  revert b. induction orders as [|o orders IH]; intros b W; [done|]. cbn [insert_all].
  pose proof (insert_active_eq b o true W) as E.
  destruct (put_order_frame b o) as [P Y].
  repeat case_match; try (by erewrite st_bind_Err by exact E).
  erewrite st_bind_Ok by exact E. destruct (IH (put_order o b)) as [P' Y'].
  - apply put_order_wf; [done|]. by apply lookup_order_None.
  - split; [by eapply same_position_trans|congruence].
Qed.

Lemma insert_all_iff orders b :
  index_wf b -> bounded b ->
  (insert_all orders b).1 = Ok tt <->
    Forall order_positive orders /\ NoDup (order_id <$> orders) /\
    Forall (fun o => lookup_order b (order_id o) = None) orders /\
    active_order_count b + zlen orders <= max_orders b.
Proof.
  revert b. induction orders as [|o orders IH]; intros b W B.
  { unfold bounded in B. rewrite zlen_nil. cbn. split; [|done]. intros _.
    split_and!; [constructor..|lia]. }
  cbn [insert_all fmap list_fmap]. rewrite zlen_cons, !Forall_cons, NoDup_cons.
  pose proof (zlen_nonneg orders) as N. pose proof (insert_active_eq b o true W) as E.
  case_decide as P; [|erewrite st_bind_Err by exact E; cbn; naive_solver].
  destruct (lookup_order b (order_id o)) eqn:L;
    [erewrite st_bind_Err by exact E; cbn; naive_solver|].
  destruct (Z.ltb_spec (active_order_count b) (max_orders b)) as [C|C];
    [|erewrite st_bind_Err by exact E; cbn; split; [done|lia]].
  erewrite st_bind_Ok by exact E. pose proof (proj1 (lookup_order_None _ _ W) L) as G.
  destruct (put_order_frame b o) as [(_ & _ & _ & _ & Pm) _].
  assert (bounded (put_order o b)) as B'.
  { unfold bounded. rewrite put_order_count, Pm by done. lia. }
  rewrite (IH _ (put_order_wf _ _ W G) B'), put_order_count, Pm by done.
  assert (Forall (fun o' => lookup_order (put_order o b) (order_id o') = None) orders <->
    order_id o ∉ order_id <$> orders /\
    Forall (fun o' => lookup_order b (order_id o') = None) orders) as ->; [|naive_solver lia].
  rewrite list_elem_of_fmap, !Forall_forall. setoid_rewrite lookup_put; [|done..].
  unfold map_put. split.
  - intros F. split.
    + intros (o' & Eo & I). specialize (F _ I). by rewrite bool_decide_eq_true_2 in F.
    + intros o' I. specialize (F _ I). by case_bool_decide.
  - intros [F1 F2] o' I. case_bool_decide; [|by apply F2]. destruct F1. eauto.
Qed.

Lemma insert_all_lookup orders b :
  index_wf b -> bounded b -> (insert_all orders b).1 = Ok tt ->
  let b' := (insert_all orders b).2 in
  index_wf b' /\ bounded b' /\
  forall id o, lookup_order b' id = Some o <->
    (o ∈ orders /\ order_id o = id) \/ lookup_order b id = Some o.
Proof.
  revert b. induction orders as [|o orders IH]; intros b W B O; cbn zeta.
  { split_and!; [done..|]. intros id o. rewrite elem_of_nil. cbn. tauto. }
  destruct (proj1 (insert_all_iff _ _ W B) O) as (F1 & F2 & F3 & F4).
  apply Forall_cons in F1 as [P F1], F3 as [L F3]. rewrite zlen_cons in F4.
  pose proof (zlen_nonneg orders) as N.
  pose proof (insert_active_eq b o true W) as E. rewrite decide_True, L in E by done.
  rewrite (proj2 (Z.ltb_lt _ _)) in E by lia.
  cbn [insert_all] in *. erewrite st_bind_Ok in * by exact E.
  pose proof (proj1 (lookup_order_None _ _ W) L) as G.
  destruct (put_order_frame b o) as [(_ & _ & _ & _ & Pm) _].
  destruct (IH (put_order o b)) as (W' & B' & L'); [by apply put_order_wf| |done|].
  { unfold bounded. rewrite put_order_count, Pm by done. lia. }
  split_and!; [done..|]. intros id o'. rewrite L', elem_of_cons, lookup_put by done.
  unfold map_put. case_bool_decide as Ei; [|naive_solver].
  subst id. split; [naive_solver|]. intros [[[->|I] Ei]|?]; [by right|by left|congruence].
Qed.

(** The state [apply_snapshot] loads the orders into. *)
Definition cleared_at (sq : Z) (blk : BlockHeight) (b : OrderBook) : OrderBook :=
  set_health Healthy (set_position sq blk
    (set_lifecycle [] (set_by_id [] (set_asks [] (set_bids [] b))))).

Lemma cleared_at_wf sq blk b : index_wf (cleared_at sq blk b).
Proof. by apply cleared_index. Qed.

Lemma apply_snapshot_wf sq blk orders b : 0 <= max_orders b -> book_wf (apply_snapshot sq blk orders b).
Proof.
  intros M. unfold apply_snapshot. fold (cleared_at sq blk b).
  destruct (_ <? _); [by apply mark_red_wf|].
  pose proof (cleared_at_wf sq blk b) as W.
  destruct (insert_all_position orders _ W) as [(_ & _ & _ & Ph & Pm) _].
  apply settle_wf; [by rewrite Pm|]. intros O.
  destruct (proj1 (insert_all_iff orders _ W M) O) as (F & _).
  destruct (insert_all_lookup orders _ W M O) as (W' & B' & L).
  split_and!; [done..|]. intros id o [[I _]|]%L; [|done]. by eapply Forall_forall in F.
Qed.

Lemma set_position_wf sq blk b : book_wf b -> book_wf (set_position sq blk b).
Proof. intros [[] ? ? ?]. by split. Qed.

Lemma apply_diff_wf sq blk d b : 0 <= max_orders b -> book_wf b -> book_wf (apply_diff sq blk d b).
Proof.
  intros M W0. unfold apply_diff. destruct (decide (health b = Healthy)) as [Hh|Hh].
  2: { rewrite bool_decide_eq_false_2 by done. by apply mark_red_wf. }
  rewrite bool_decide_eq_true_2 by done. cbn [negb]. destruct (negb _); [by apply mark_red_wf|].
  apply (set_position_wf sq blk) in W0. destruct W0 as [W P B _].
  set (b1 := set_position sq blk b) in *. pose proof (healthy_diff_refines b1 d W) as R.
  destruct (spec_diff _ _ _ _) as [[m' [id k]]|e] eqn:Sp.
  - destruct R as (b' & E & [W' L' (_ & _ & _ & Ph & Pm) _ B']). rewrite E.
    apply settle_wf; cbn [fst snd]; [by rewrite Pm|]. intros _.
    split_and!; [by rewrite Ph|done|by apply B'|]. intros i o. rewrite L'.
    by eapply spec_diff_positive.
  - rewrite R. by apply mark_red_wf.
Qed.

(** *** Level-2 aggregation *)

Definition at_price (p : Price) (orders : list RestingOrder) : list RestingOrder :=
  List.filter (fun o => rests_on_l2 o && eqb (price o) p) orders.
Definition sum_raw (orders : list RestingOrder) : Z :=
  foldr Z.add 0 ((fun o => Decimal.raw (remaining o)) <$> orders).

Definition level_ok (orders : list RestingOrder) (e : Quantity * Z) : Prop :=
  orders <> [] /\ Decimal.raw e.1 = sum_raw orders /\ e.2 = zlen orders /\
  Forall (fun o => Decimal.scale (remaining o) = Decimal.scale e.1) orders.

Definition levels_ok (orders : list RestingOrder) (levels : btmap Price (Quantity * Z)) : Prop :=
  bt_sorted levels /\
  forall p, match bt_get p levels with
            | None => at_price p orders = []
            | Some e => level_ok (at_price p orders) e
            end.

Lemma at_price_snoc p orders o :
  at_price p (orders ++ [o]) =
    at_price p orders ++ (if rests_on_l2 o && eqb (price o) p then [o] else []).
Proof. unfold at_price. rewrite List.filter_app. cbn. by destruct (_ && _). Qed.

Lemma at_price_cmp p p' orders : cmp p p' = Eq -> at_price p orders = at_price p' orders.
Proof.
  intros E. unfold at_price. induction orders as [|o orders IH]; cbn; [done|].
  unfold eqb in *. by rewrite (cmp_eq_r _ _ (price o) E), IH.
Qed.

Lemma sum_raw_snoc orders o : sum_raw (orders ++ [o]) = sum_raw orders + Decimal.raw (remaining o).
Proof. unfold sum_raw. induction orders as [|o' orders IH]; cbn in *; lia. Qed.

Lemma checked_add_inv a b c :
  Decimal.checked_add a b = Ok c ->
  Decimal.scale a = Decimal.scale b /\ Decimal.raw c = Decimal.raw a + Decimal.raw b /\
  Decimal.scale c = Decimal.scale a.
Proof.
  unfold Decimal.checked_add, Decimal.require_same_scale, Decimal.from_raw, int_add.
  intros E. inv_ok.
  bool_to_prop. match goal with H : int_try _ _ = Some _ |- _ => apply int_try_Some in H as [-> _] end.
  done.
Qed.

Lemma level_ok_snoc orders (e : Quantity * Z) o q c :
  (orders = [] /\ Decimal.raw e.1 = 0 /\ e.2 = 0) \/ level_ok orders e ->
  Decimal.checked_add e.1 (remaining o) = Ok q -> int_add U32 e.2 1 = Some c ->
  level_ok (orders ++ [o]) (q, c).
Proof.
  intros L (Es & Er & Eq)%checked_add_inv [-> _]%int_try_Some.
  unfold level_ok. cbn [fst snd]. rewrite sum_raw_snoc, Er, zlen_app, Forall_app, Forall_singleton, Eq.
  split; [by destruct orders|].
  destruct L as [(-> & -> & ->) | (_ & -> & -> & F)]; cbn; rewrite ?zlen_cons, ?zlen_nil; split_and!;
    try done; try lia.
Qed.

Lemma aggregate_step_ok orders levels o levels' :
  levels_ok orders levels -> aggregate_step levels o = Ok levels' ->
  levels_ok (orders ++ [o]) levels'.
Proof.
  intros [S L] E. unfold aggregate_step in E. destruct (rests_on_l2 o) eqn:R; cbn [negb] in E.
  2: { inv_ok. split; [done|]. intros p. rewrite at_price_snoc, R. cbn. rewrite app_nil_r. apply L. }
  apply bind_Ok in E as (lv1 & E1 & E). apply bind_Ok in E as (e & Ge & E).
  apply ok_or_Ok in Ge. inv_ok.
  assert (bt_sorted lv1 /\ (forall p, cmp p (price o) <> Eq -> bt_get p lv1 = bt_get p levels) /\
    ((at_price (price o) orders = [] /\ Decimal.raw e.1 = 0 /\ e.2 = 0) \/
     level_ok (at_price (price o) orders) e)) as (S1 & G1 & L1).
  { specialize (L (price o)). destruct (bt_get (price o) levels) as [e0|] eqn:G; inv_ok.
    - split_and!; [done..|]. right. congruence.
    - unfold Decimal.from_raw in *. inv_ok. rewrite bt_get_insert_eq in Ge. injection Ge as <-.
      split_and!; [by apply bt_insert_sorted|intros p N; by apply bt_get_insert_ne|by left]. }
  split; [by apply bt_set_sorted|]. intros p. rewrite bt_get_set, at_price_snoc, R. unfold eqb.
  rewrite (cmp_antisym p (price o)).
  destruct (cmp p (price o)) eqn:C; cbn [CompOpp andb];
    try (rewrite app_nil_r, G1 by congruence; apply L).
  rewrite (bt_get_cmp _ _ _ C), Ge, (at_price_cmp _ _ orders C).
  by eapply level_ok_snoc.
Qed.

Lemma aggregate_loop_ok orders orders' levels levels' :
  levels_ok orders levels -> aggregate_loop levels orders' = Ok levels' ->
  levels_ok (orders ++ orders') levels'.
Proof.
  revert orders levels. induction orders' as [|o orders' IH]; intros orders levels L E.
  - cbn in E. inv_ok. by rewrite app_nil_r.
  - cbn [aggregate_loop] in E. inv_ok. rewrite (cons_middle o orders orders'), app_assoc.
    eapply IH; [|done]. by eapply aggregate_step_ok.
Qed.

(** What an ascending level-2 view says about the orders it aggregates. *)
Record l2_describes (orders : list RestingOrder) (levels : list L2Level) : Prop := {
  l2_ascending :
    StronglySorted (fun x y => cmp (level_price x) (level_price y) = Lt) levels;
  l2_complete : forall o, o ∈ orders -> rests_on_l2 o = true ->
    exists l, l ∈ levels /\ cmp (price o) (level_price l) = Eq;
  l2_exact : forall l, l ∈ levels ->
    level_ok (at_price (level_price l) orders) (level_quantity l, order_count l);
}.

Lemma aggregate_l2_describes orders for_bids levels :
  aggregate_l2 orders for_bids = Ok levels ->
  l2_describes orders (if for_bids then reverse levels else levels).
Proof.
  unfold aggregate_l2. intros E. inv_ok. rename x into lv.
  match goal with H : aggregate_loop _ _ = _ |- _ => rename H into A end.
  apply (aggregate_loop_ok [] orders [] lv) in A as [S L]; [|split; [constructor|done]].
  cbn [app] in L. set (f := fun p : Price * (Quantity * Z) => mkL2Level p.1 p.2.1 p.2.2) in *.
  replace (if for_bids then _ else _) with (f <$> lv)
    by (destruct for_bids; [by rewrite reverse_involutive|done]). split.
  - clear L. induction S as [|p m S IH F]; cbn; constructor; [done|].
    apply Forall_fmap. eapply Forall_impl; [exact F|]. done.
  - intros o I R. specialize (L (price o)). destruct (bt_get (price o) lv) as [e|] eqn:G.
    + apply bt_get_Some in G as (k & C & Ik). exists (f (k, e)). split; [|done].
      by apply list_elem_of_fmap_2.
    + exfalso. assert (o ∈ at_price (price o) orders) as I'; [|by rewrite L, elem_of_nil in I'].
      unfold at_price. apply list_elem_of_In, filter_In. split; [by apply list_elem_of_In|].
      unfold eqb. by rewrite R, cmp_refl.
  - intros l I. apply list_elem_of_fmap in I as ([p [q c]] & -> & I). cbn.
    specialize (L p). by rewrite (bt_get_elem _ _ _ S I) in L.
Qed.

(** *** Reading the sides as sets of orders *)

Lemma bids_elem b k o :
  index_wf b -> (k, o) ∈ bids b ->
  k = bid_key o /\ side o = Buy /\ lookup_order b (order_id o) = Some o.
Proof.
  intros W I. destruct (side_entry _ _ _ _ (bids_ok _ W) _ _ I) as (-> & Sd & G).
  split_and!; [done..|]. unfold lookup_order. rewrite G, bind_of_Some. cbn. rewrite Sd.
  by apply bt_get_elem; [apply W|].
Qed.

Lemma asks_elem b k o :
  index_wf b -> (k, o) ∈ asks b ->
  k = ask_key o /\ side o = Sell /\ lookup_order b (order_id o) = Some o.
Proof.
  intros W I. destruct (side_entry _ _ _ _ (asks_ok _ W) _ _ I) as (-> & Sd & G).
  split_and!; [done..|]. unfold lookup_order. rewrite G, bind_of_Some. cbn. rewrite Sd.
  by apply bt_get_elem; [apply W|].
Qed.

Lemma lookup_side b id o :
  index_wf b -> lookup_order b id = Some o ->
  match side o with Buy => (bid_key o, o) ∈ bids b | Sell => (ask_key o, o) ∈ asks b end.
Proof.
  intros W L. destruct (lookup_order_Some _ _ _ W L) as [G <-].
  unfold lookup_order in L. rewrite G, bind_of_Some in L. cbn in L.
  destruct (side o); apply bt_get_Some in L as (k & _ & I).
  - by destruct (bids_elem _ _ _ W I) as (-> & _).
  - by destruct (asks_elem _ _ _ W I) as (-> & _).
Qed.

(** Every listed order is exactly what its id looks up. *)
Lemma active_orders_lookup b o :
  index_wf b -> o ∈ active_orders b <-> lookup_order b (order_id o) = Some o.
Proof.
  intros W. unfold active_orders, bt_values. rewrite elem_of_app, !list_elem_of_fmap. split.
  - intros [([k o'] & -> & I)|([k o'] & -> & I)]; cbn.
    + by eapply bids_elem.
    + by eapply asks_elem.
  - intros L%(lookup_side _ _ _ W). destruct (side o); [left; by exists (bid_key o, o)|right; by
      exists (ask_key o, o)].
Qed.

Lemma bids_values_lookup b o :
  index_wf b -> o ∈ bt_values (bids b) <-> side o = Buy /\ lookup_order b (order_id o) = Some o.
Proof.
  intros W. unfold bt_values. rewrite list_elem_of_fmap. split.
  - intros ([k o'] & -> & I). by apply bids_elem in I as (_ & ? & ?).
  - intros [Sd L]. apply (lookup_side _ _ _ W) in L. rewrite Sd in L. by exists (bid_key o, o).
Qed.

Lemma asks_values_lookup b o :
  index_wf b -> o ∈ bt_values (asks b) <-> side o = Sell /\ lookup_order b (order_id o) = Some o.
Proof.
  intros W. unfold bt_values. rewrite list_elem_of_fmap. split.
  - intros ([k o'] & -> & I). by apply asks_elem in I as (_ & ? & ?).
  - intros [Sd L]. apply (lookup_side _ _ _ W) in L. rewrite Sd in L. by exists (ask_key o, o).
Qed.

Lemma best_bid_first b o :
  index_wf b -> best_bid b = Some o ->
  (side o = Buy /\ rests_on_l2 o = true /\ lookup_order b (order_id o) = Some o) /\
  forall id o', lookup_order b id = Some o' -> side o' = Buy -> rests_on_l2 o' = true ->
    leb (bid_key o) (bid_key o') = true.
Proof.
  intros W B. apply bt_find_first in B as (R & k & I & M); [|apply W].
  destruct (bids_elem _ _ _ W I) as (-> & Sd & L). split; [done|].
  intros id o' L' Sd' R'. apply lookup_side in L'; [|done]. rewrite Sd' in L'. by eapply M.
Qed.

Lemma best_ask_first b o :
  index_wf b -> best_ask b = Some o ->
  (side o = Sell /\ rests_on_l2 o = true /\ lookup_order b (order_id o) = Some o) /\
  forall id o', lookup_order b id = Some o' -> side o' = Sell -> rests_on_l2 o' = true ->
    leb (ask_key o) (ask_key o') = true.
Proof.
  intros W B. apply bt_find_first in B as (R & k & I & M); [|apply W].
  destruct (asks_elem _ _ _ W I) as (-> & Sd & L). split; [done|].
  intros id o' L' Sd' R'. apply lookup_side in L'; [|done]. rewrite Sd' in L'. by eapply M.
Qed.

Lemma best_bid_None b :
  index_wf b -> best_bid b = None ->
  forall id o, lookup_order b id = Some o -> side o = Buy -> rests_on_l2 o = false.
Proof.
  intros W N id o L Sd. apply (lookup_side _ _ _ W) in L. rewrite Sd in L.
  by eapply bt_find_none in N.
Qed.

Lemma best_ask_None b :
  index_wf b -> best_ask b = None ->
  forall id o, lookup_order b id = Some o -> side o = Sell -> rests_on_l2 o = false.
Proof.
  intros W N id o L Sd. apply (lookup_side _ _ _ W) in L. rewrite Sd in L.
  by eapply bt_find_none in N.
Qed.

Definition uncrossed (b : OrderBook) : Prop :=
  forall i j x y, lookup_order b i = Some x -> lookup_order b j = Some y ->
    side x = Buy -> side y = Sell -> rests_on_l2 x = true -> rests_on_l2 y = true ->
    cmp (price x) (price y) = Lt.

Lemma bid_key_leb x y : leb (bid_key x) (bid_key y) = true -> leb (price y) (price x) = true.
Proof. intros E%leb_pair_fst%leb_pair_fst. exact E. Qed.

Lemma ask_key_leb x y : leb (ask_key x) (ask_key y) = true -> leb (price x) (price y) = true.
Proof. intros E%leb_pair_fst%leb_pair_fst. exact E. Qed.

Lemma uncrossed_iff b :
  index_wf b ->
  uncrossed b <->
  match best_bid b, best_ask b with
  | Some bid, Some ask => cmp (price bid) (price ask) = Lt
  | _, _ => True
  end.
Proof.
  intros W. unfold uncrossed. destruct (best_bid b) as [bid|] eqn:B.
  2: { split; [done|]. intros _ i j x y Lx Ly Sx Sy Rx Ry.
       by rewrite (best_bid_None _ W B _ _ Lx Sx) in Rx. }
  destruct (best_ask b) as [ask|] eqn:A.
  2: { split; [done|]. intros _ i j x y Lx Ly Sx Sy Rx Ry.
       by rewrite (best_ask_None _ W A _ _ Ly Sy) in Ry. }
  destruct (best_bid_first _ _ W B) as [(S1 & R1 & L1) M1].
  destruct (best_ask_first _ _ W A) as [(S2 & R2 & L2) M2]. split.
  - intros U. by eapply U.
  - intros C i j x y Lx Ly Sx Sy Rx Ry.
    eapply leb_lt_trans; [by eapply bid_key_leb, M1|].
    eapply lt_leb_trans; [exact C|]. by eapply ask_key_leb, M2.
Qed.

(** The checks of [assert_invariants] on a consistent book: its first one
    always passes. *)
Lemma assert_invariants_Ok b :
  index_wf b ->
  assert_invariants b = Ok tt <->
  uncrossed b /\ is_ok (aggregate_l2 (bt_values (bids b)) true) = true /\
  is_ok (aggregate_l2 (bt_values (asks b)) false) = true.
Proof.
  intros W. rewrite (uncrossed_iff _ W). unfold assert_invariants.
  rewrite (index_len _ W), Z.eqb_refl. cbn [negb]. unfold ltb.
  destruct (best_bid b) as [bid|], (best_ask b) as [ask|];
    try destruct (cmp (price bid) (price ask));
    destruct (aggregate_l2 (bt_values (bids b)) true),
      (aggregate_l2 (bt_values (asks b)) false); cbn; naive_solver.
Qed.

(** ** Theorems *)

Lemma apply_snapshot_max sq blk orders b : max_orders (apply_snapshot sq blk orders b) = max_orders b.
Proof.
  unfold apply_snapshot. fold (cleared_at sq blk b). destruct (_ <? _); [done|].
  destruct (insert_all_position orders _ (cleared_at_wf sq blk b)) as [(_ & _ & _ & _ & Pm) _].
  unfold settle. destruct (insert_all _ _) as [[[]|e] b']; cbn in *; [|done].
  by destruct (assert_invariants b').
Qed.

Lemma settle_max r : max_orders (settle r) = max_orders r.2.
Proof. destruct r as [[[]|e] b]; cbn; [by destruct (assert_invariants b)|done]. Qed.

Lemma apply_diff_max sq blk d b : book_wf b -> max_orders (apply_diff sq blk d b) = max_orders b.
Proof.
  intros W. unfold apply_diff. destruct (negb _); [done|]. destruct (negb _); [done|].
  rewrite settle_max. apply (set_position_wf sq blk) in W. destruct W as [W _ _ _].
  pose proof (healthy_diff_refines _ d W) as R.
  destruct (spec_diff _ _ _ _) as [[m' [id k]]|e]; [|by rewrite R].
  destruct R as (b' & -> & I). cbn [snd]. by destruct (impl_position _ _ _ _ _ I) as (_ & _ & _ & _
      & ->).
Qed.

Lemma reachable_wf b : reachable b -> book_wf b /\ 0 <= max_orders b.
Proof.
  induction 1 as [market blk max M|sq blk orders b R [W M]|sq blk d b R [W M]].
  - split; [|done]. by apply cleared_wf.
  - split; [by apply apply_snapshot_wf|by rewrite apply_snapshot_max].
  - split; [by apply apply_diff_wf|by rewrite apply_diff_max].
Qed.

(** C19. Every book reachable from an empty one by snapshots and diffs, in any
    order and with any content, is consistent. The bid map, the ask map and the
    id index describe the same orders under the same keys. Every resting order
    has positive price, quantity and original quantity, and there are at most
    [max_orders] of them. A healthy book is not crossed or locked and both
    level-2 aggregations succeed; a book that is not healthy is empty. *)
Theorem reachable_book_consistent b :
  reachable b ->
  index_wf b /\ bounded b /\
  (forall o, o ∈ active_orders b <-> lookup_order b (order_id o) = Some o) /\
  (forall o, o ∈ active_orders b -> order_positive o) /\
  (health b = Healthy ->
     uncrossed b /\ is_ok (aggregate_l2 (bt_values (bids b)) true) = true /\
     is_ok (aggregate_l2 (bt_values (asks b)) false) = true) /\
  (health b <> Healthy -> is_cleared b).
Proof.
  intros [[W P B H] _]%reachable_wf. split_and!; [done..| | | |].
  - intros o. by apply active_orders_lookup.
  - intros o L%active_orders_lookup; [|done]. by eapply P.
  - intros Hh. rewrite decide_True in H by done. by apply assert_invariants_Ok.
  - intros Hh. by rewrite decide_False in H.
Qed.

(** C1. On a healthy reachable book a diff with the next sequence number does
    exactly what the abstract map of orders says. When the abstract diff is
    refused, the book turns red with the same reason. When it is accepted, the
    new book holds the new map with the one lifecycle event, and stays healthy
    unless the resulting orders cross or cannot be aggregated, in which case it
    turns red. The index inconsistencies the handlers check for never occur. *)
Theorem apply_diff_refines b sq blk d :
  reachable b -> health b = Healthy ->
  sq = int_saturating_add U64 (book_sequence b) 1 ->
  match spec_diff (active_order_count b) (max_orders b) (lookup_order b) d with
  | Err e => apply_diff sq blk d b = mark_red e (set_position sq blk b)
  | Ok (m', (id, k)) =>
      exists b', implements (set_position sq blk b) m' id k b' /\
        apply_diff sq blk d b =
          match assert_invariants b' with Ok _ => b' | Err e => mark_red e b' end /\
        (assert_invariants b' = Ok tt <->
           uncrossed b' /\ is_ok (aggregate_l2 (bt_values (bids b')) true) = true /\
           is_ok (aggregate_l2 (bt_values (asks b')) false) = true)
  end.
Proof.
  intros [W _]%reachable_wf Hh ->. apply (set_position_wf (int_saturating_add U64 (book_sequence b)
      1) blk) in W.
  destruct W as [W _ _ _]. pose proof (healthy_diff_refines _ d W) as R.
  unfold apply_diff. rewrite Hh, bool_decide_eq_true_2, Z.eqb_refl by done. cbn [negb].
  change (active_order_count (set_position _ _ b)) with (active_order_count b) in R.
  change (max_orders (set_position _ _ b)) with (max_orders b) in R.
  change (lookup_order (set_position _ _ b)) with (lookup_order b) in R.
  destruct (spec_diff _ _ _ _) as [[m' [id k]]|e].
  - destruct R as (b' & E & I). exists b'. split_and!; [done| |by apply assert_invariants_Ok, I].
    by rewrite E.
  - by rewrite R.
Qed.

Lemma l2_view_describes b :
  reachable b -> health b = Healthy ->
  l2_describes (bt_values (bids b)) (reverse (l2_bids b)) /\
  l2_describes (bt_values (asks b)) (l2_asks b).
Proof.
  intros [[W _ _ H] _]%reachable_wf Hh. rewrite decide_True in H by done.
  apply assert_invariants_Ok in H as (_ & Hb & Ha); [|done]. unfold l2_bids, l2_asks. split.
  - destruct (aggregate_l2 (bt_values (bids b)) true) eqn:E; [|done].
    by apply aggregate_l2_describes in E.
  - destruct (aggregate_l2 (bt_values (asks b)) false) eqn:E; [|done].
    by apply aggregate_l2_describes in E.
Qed.

(** A healthy reachable book's level-2 view is exact. Levels are strictly
    ordered by price, bids descending and asks ascending. Every resting order
    outside untriggered triggers belongs to a level, and each level's quantity
    and count are the exact sum and number of the orders at its price. *)
Theorem l2_view_exact b :
  reachable b -> health b = Healthy ->
  l2_describes (bt_values (bids b)) (reverse (l2_bids b)) /\
  l2_describes (bt_values (asks b)) (l2_asks b).
Proof. apply l2_view_describes. Qed.

(** Price-time priority: the best bid of a reachable book is an active
    triggered-or-plain buy order that no other such order precedes in price,
    then time, then id; the best ask likewise; and a missing best means the
    side has no such order. *)
Theorem best_is_first_in_priority b :
  reachable b ->
  match best_bid b with
  | Some o => (side o = Buy /\ rests_on_l2 o = true /\ o ∈ active_orders b) /\
      forall o', o' ∈ active_orders b -> side o' = Buy -> rests_on_l2 o' = true ->
        leb (bid_key o) (bid_key o') = true
  | None => forall o, o ∈ active_orders b -> side o = Buy -> rests_on_l2 o = false
  end /\
  match best_ask b with
  | Some o => (side o = Sell /\ rests_on_l2 o = true /\ o ∈ active_orders b) /\
      forall o', o' ∈ active_orders b -> side o' = Sell -> rests_on_l2 o' = true ->
        leb (ask_key o) (ask_key o') = true
  | None => forall o, o ∈ active_orders b -> side o = Sell -> rests_on_l2 o = false
  end.
Proof.
  intros [[W _ _ _] _]%reachable_wf.
  assert (forall o, o ∈ active_orders b <-> lookup_order b (order_id o) = Some o) as A
    by (intros o; by apply active_orders_lookup).
  split.
  - destruct (best_bid b) as [o|] eqn:B; setoid_rewrite A.
    + destruct (best_bid_first _ _ W B) as [? M]. split; [done|]. intros o' L. by eapply M.
    + intros o L. by eapply best_bid_None.
  - destruct (best_ask b) as [o|] eqn:B; setoid_rewrite A.
    + destruct (best_ask_first _ _ W B) as [? M]. split; [done|]. intros o' L. by eapply M.
    + intros o L. by eapply best_ask_None.
Qed.

(** A snapshot replaces the book. It ends healthy only if the orders fit
    the bound, all are positive and no id repeats; the book then holds exactly
    those orders, with an empty lifecycle, the given position and no crossing.
    A snapshot whose orders pass these checks is refused only for crossing or
    for an aggregation that does not fit. *)
Theorem apply_snapshot_loads b sq blk orders :
  reachable b ->
  let b' := apply_snapshot sq blk orders b in
  let valid := zlen orders <= max_orders b /\ Forall order_positive orders /\
               NoDup (order_id <$> orders) in
  (health b' = Healthy ->
     valid /\ uncrossed b' /\ lifecycle b' = [] /\ book_sequence b' = sq /\ as_of_block b' = blk /\
     forall id o, lookup_order b' id = Some o <-> o ∈ orders /\ order_id o = id) /\
  (valid -> exists loaded, index_wf loaded /\ health loaded = Healthy /\
     (forall id o, lookup_order loaded id = Some o <-> o ∈ orders /\ order_id o = id) /\
     b' = match assert_invariants loaded with Ok _ => loaded | Err e => mark_red e loaded end).
Proof.
  intros [_ M]%reachable_wf. cbn zeta. unfold apply_snapshot. fold (cleared_at sq blk b).
  change (max_orders (cleared_at sq blk b)) with (max_orders b).
  pose proof (cleared_at_wf sq blk b) as W.
  destruct (insert_all_position orders _ W) as [(_ & Ps & Pb & Ph & _) Py].
  pose proof (insert_all_iff orders _ W M) as I. pose proof (insert_all_lookup orders _ W M) as L.
  change (max_orders (cleared_at sq blk b)) with (max_orders b) in I.
  change (active_order_count (cleared_at sq blk b)) with 0 in I.
  destruct (Z.ltb_spec (max_orders b) (zlen orders)) as [C|C]; [split; [done|lia]|].
  destruct (insert_all orders (cleared_at sq blk b)) as [[[]|e] b1]; cbn [fst snd settle] in *.
  - destruct (L eq_refl) as (W' & _ & L'). destruct (proj1 I eq_refl) as (F1 & F2 & _).
    assert (forall id o, lookup_order b1 id = Some o <-> o ∈ orders /\ order_id o = id) as L1.
    { intros id o. rewrite L'. cbn. naive_solver. }
    split; [|intros _; by exists b1].
    destruct (assert_invariants b1) as [[]|e] eqn:A; [|done]. intros _.
    split_and!; try done. by apply assert_invariants_Ok.
  - split; [done|]. intros (_ & F1 & F2). discriminate (proj2 I). split_and!; [done..| |lia].
    by apply Forall_forall.
Qed.

Definition run_diffs (b : OrderBook) (ds : list (Z * BlockHeight * BookDiff)) : OrderBook :=
  fold_left (fun b '(sq, blk, d) => apply_diff sq blk d b) ds b.

Lemma unhealthy_absorbing b ds :
  health b <> Healthy -> is_cleared b ->
  health (run_diffs b ds) <> Healthy /\ is_cleared (run_diffs b ds) /\
  lifecycle (run_diffs b ds) = lifecycle b.
Proof.
  unfold run_diffs. revert b. induction ds as [|[[sq blk] d] ds IH]; intros b N C; [done|].
  cbn [fold_left]. unfold apply_diff at 2 4 6. rewrite bool_decide_eq_false_2 by done.
  by apply (IH (mark_red _ b)).
Qed.

(** A gap in the diff sequence fails closed: the book turns red, drops
    every order and records nothing, and no later run of diffs, whatever their
    sequence numbers, makes it healthy or non-empty again. *)
Theorem sequence_gap_fails_closed b sq blk d ds :
  sq <> int_saturating_add U64 (book_sequence b) 1 ->
  let b' := run_diffs (apply_diff sq blk d b) ds in
  health b' <> Healthy /\ active_orders b' = [] /\ lifecycle b' = lifecycle b.
Proof.
  intros N. cbn zeta. destruct (unhealthy_absorbing (apply_diff sq blk d b) ds) as (H & C & Y).
  1,2: unfold apply_diff; destruct (negb _); [done|];
    rewrite (proj2 (Z.eqb_neq _ _)) by done; done.
  split; [done|]. destruct C as (C1 & C2 & _). unfold active_orders. rewrite C1, C2, Y.
  split; [done|]. unfold apply_diff. destruct (negb _); [done|].
  by rewrite (proj2 (Z.eqb_neq _ _)).
Qed.

(** ** Concrete instances *)

Definition sample_order (id : OrderId) (sd : OrderSide) (p q sq : Z) : RestingOrder :=
  RestingOrder.new id sd (Decimal.mk p 2) (Decimal.mk q 3) sq.
Definition sample_new : OrderBook := awaiting_snapshot_bounded "BTC" 90 8.
Definition sample_orders : list RestingOrder :=
  [sample_order "a" Buy 9990 5000 1; sample_order "b" Buy 9990 2500 2;
   sample_order "c" Sell 10010 4000 3].
Definition sample_book : OrderBook := apply_snapshot 7 100 sample_orders sample_new.

Lemma sample_new_reachable : reachable sample_new.
Proof. apply reach_new. lia. Defined.
Lemma sample_book_reachable : reachable sample_book.
Proof. apply reach_snapshot, sample_new_reachable. Defined.

Lemma reachable_book_consistent_witness :
  health sample_book = Healthy /\ active_order_count sample_book = 3 /\ uncrossed sample_book.
Proof.
  split_and!; [vm_compute; reflexivity..|].
  apply (reachable_book_consistent sample_book sample_book_reachable). vm_compute; reflexivity.
Defined.

Lemma apply_diff_refines_witness :
  exists b', implements (set_position 8 101 sample_book)
      (map_put "a" (set_remaining (Decimal.mk 4000 3) (sample_order "a" Buy 9990 5000 1))
        (lookup_order sample_book)) "a" Filled b' /\
    apply_diff 8 101 (Fill "a" (Decimal.mk 1000 3)) sample_book = b'.
Proof.
  pose proof (apply_diff_refines sample_book 8 101 (Fill "a" (Decimal.mk 1000 3))
    sample_book_reachable ltac:(vm_compute; reflexivity) ltac:(vm_compute; reflexivity)) as R.
  assert (lookup_order sample_book "a" = Some (sample_order "a" Buy 9990 5000 1)) as L
    by (vm_compute; reflexivity).
  unfold spec_diff in R. rewrite decide_True, L in R by (vm_compute; reflexivity).
  change (Decimal.checked_sub _ _) with (@Ok ValueError _ (Decimal.mk 4000 3)) in R. cbv iota beta in R.
  rewrite !decide_False in R by (vm_compute; discriminate).
  destruct R as (b' & I & A & _). exists b'. split; [exact I|].
  assert (health (apply_diff 8 101 (Fill "a" (Decimal.mk 1000 3)) sample_book) = Healthy) as H
    by (vm_compute; reflexivity).
  rewrite A in *. destruct (assert_invariants b'); [reflexivity|discriminate H].
Defined.

Lemma l2_view_exact_witness :
  health sample_book = Healthy /\
  l2_describes (bt_values (bids sample_book)) (reverse (l2_bids sample_book)) /\
  level_quantity <$> l2_bids sample_book = [Decimal.mk 7500 3].
Proof.
  split_and!; [vm_compute; reflexivity| |vm_compute; reflexivity].
  apply (l2_view_exact sample_book sample_book_reachable). vm_compute; reflexivity.
Defined.

Lemma best_is_first_in_priority_witness :
  order_id <$> best_bid sample_book = Some "a"%string /\
  forall o, o ∈ active_orders sample_book -> side o = Sell -> rests_on_l2 o = true ->
    leb (ask_key (sample_order "c" Sell 10010 4000 3)) (ask_key o) = true.
Proof.
  split; [vm_compute; reflexivity|].
  destruct (best_is_first_in_priority sample_book sample_book_reachable) as [_ A].
  destruct (best_ask sample_book) as [o|] eqn:E; vm_compute in E; [|discriminate E].
  injection E as <-. exact (proj2 A).
Defined.

Lemma apply_snapshot_loads_witness :
  NoDup (order_id <$> sample_orders) /\ uncrossed (apply_snapshot 7 100 sample_orders sample_new).
Proof.
  pose proof (proj1 (apply_snapshot_loads sample_new 7 100 sample_orders sample_new_reachable)
    ltac:(vm_compute; reflexivity)) as ((_ & _ & N) & U & _).
  exact (conj N U).
Defined.

Lemma sequence_gap_fails_closed_witness :
  health sample_book = Healthy /\
  active_orders (run_diffs (apply_diff 9 101 (Cancel "a") sample_book)
    [(10, 102, Cancel "b")]) = [].
Proof.
  split; [vm_compute; reflexivity|].
  apply (sequence_gap_fails_closed sample_book 9 101 (Cancel "a") [(10, 102, Cancel "b")]).
  vm_compute. discriminate.
Defined.
