(* ===== verification/Quote.v ===== *)
(** * Execution quotes: [crates/orderbook/src/execution.rs]

    [quote_execution] walks the opposite level-2 side of a healthy book, takes
    the requested quantity level by level and reports fill, average price,
    spread, impact and exit cost as exact decimals or an error. *)

From Stdlib Require Import QArith.
From S2P Require Import Prelude Ordering BTreeMap FixedPoint Notional Ids OrderBook.
#[local] Open Scope Z_scope.

Definition FEE_SCHEDULE_NONE : string := "none".
Definition FEE_SCHEDULE_TAKER_100BPS_V1 : string := "taker-100bps@1.0.0".

Record LatencyDistribution := mkLatency {
  p10_micros : Z; p50_micros : Z; p90_micros : Z; p99_micros : Z;
}.

Record ExecutionRequest := mkExecutionRequest {
  req_market_id : MarketId;
  req_side : OrderSide;
  quantity : Quantity;
  max_participation : Z;
  fee_schedule_id : string;
  exit_stress_multiplier : Z;
}.

Record ExecutionEstimate := mkExecutionEstimate {
  fill_probability : Z;
  expected_fill_quantity : Quantity;
  p10_vwap : Price;
  p50_vwap : Price;
  p90_vwap : Price;
  spread_bps : BasisPoints;
  impact_bps : BasisPoints;
  queue_uncertainty : Z;
  time_to_fill : LatencyDistribution;
  normal_exit_cost_bps : BasisPoints;
  stressed_exit_cost_bps : BasisPoints;
  capacity_by_cost : btmap BasisPoints UsdAmount;
  est_as_of_block : BlockHeight;
}.

Inductive ExecutionError :=
| BookNotHealthy
| MarketMismatch
| InvalidQuantity
| InsufficientLiquidity
| UnsupportedAssumption (what : string)
| InexactMetric.

(** ** Exact metrics *)

Definition latency_is_point_estimate (l : LatencyDistribution) : bool :=
  (p10_micros l =? p50_micros l) && (p50_micros l =? p90_micros l) && (p90_micros l =? p99_micros l).

Definition taker_fee_bps (schedule : string) : result ExecutionError BasisPoints :=
  raw ← (if bool_decide (schedule = FEE_SCHEDULE_NONE) then Ok 0
         else if bool_decide (schedule = FEE_SCHEDULE_TAKER_100BPS_V1) then Ok 100
         else Err (UnsupportedAssumption "unknown fee schedule"));
  map_err (fun _ => InexactMetric) (Decimal.from_raw raw 0).

(** [i128::try_from(&BigInt)] *)
Definition big_try_i128 (value : Z) : result ExecutionError Z := int_try I128 value ?? InexactMetric.

Definition scale_i128 (value probability : Z) : result ExecutionError Z :=
  let product := value * probability in
  let denominator := 1000000 in
  let quotient := Z.quot product denominator in
  let remainder := product - quotient * denominator in
  if negb (remainder =? 0) then Err InexactMetric else big_try_i128 quotient.

Definition scale_quantity (q : Quantity) (participation : Z) : result ExecutionError Quantity :=
  raw ← scale_i128 (Decimal.raw q) participation;
  if raw <=? 0 then Err InvalidQuantity else
  map_err (fun _ => InvalidQuantity) (Decimal.from_raw raw (Decimal.scale q)).

Definition scale_bps (bps : BasisPoints) (stress : Z) : result ExecutionError BasisPoints :=
  raw ← scale_i128 (Decimal.raw bps) stress;
  map_err (fun _ => InexactMetric) (Decimal.from_raw raw (Decimal.scale bps)).

Definition usd_from_notional (n : ExactQuoteNotional.t) : result ExecutionError UsdAmount :=
  raw ← big_try_i128 (ExactQuoteNotional.coefficient n);
  map_err (fun _ => InexactMetric) (Decimal.from_raw raw (ExactQuoteNotional.scale n)).

Definition exact_vwap (notional : option ExactQuoteNotional.t) (filled : Quantity)
  : result ExecutionError Price :=
  notional ← notional ?? InsufficientLiquidity;
  if Decimal.raw filled =? 0 then Err InvalidQuantity else
  let numerator := ExactQuoteNotional.coefficient notional in
  let denominator := Decimal.raw filled in
  let quotient := Z.quot numerator denominator in
  let remainder := numerator - Z.quot numerator denominator * denominator in
  if negb (remainder =? 0) then Err InexactMetric else
  vwap_scale ← int_sub U8 (ExactQuoteNotional.scale notional) (Decimal.scale filled) ?? InexactMetric;
  raw ← big_try_i128 quotient;
  map_err (fun _ => InexactMetric) (Decimal.from_raw raw vwap_scale).

Definition ratio_to_bps (numerator denominator times : Z) : result ExecutionError BasisPoints :=
  if denominator =? 0 then Err InexactMetric else
  let product := numerator * times in
  let quotient := Z.quot product denominator in
  let remainder := product - quotient * denominator in
  if negb (remainder =? 0) then Err InexactMetric else
  raw ← big_try_i128 quotient;
  map_err (fun _ => InexactMetric) (Decimal.from_raw raw 0).

Definition exact_spread_bps (bid ask : Price) : result ExecutionError BasisPoints :=
  if negb (Decimal.scale bid =? Decimal.scale ask) then Err InexactMetric else
  diff ← map_err (fun _ => InexactMetric) (Decimal.checked_sub ask bid);
  sum ← map_err (fun _ => InexactMetric) (Decimal.checked_add ask bid);
  ratio_to_bps (Decimal.raw diff) (Decimal.raw sum) 20000.

Definition exact_impact_bps (vwap bid ask : Price) : result ExecutionError BasisPoints :=
  if negb (Decimal.scale vwap =? Decimal.scale bid) || negb (Decimal.scale vwap =? Decimal.scale ask)
  then Err InexactMetric else
  twice_vwap ← int_mul I128 (Decimal.raw vwap) 2 ?? InexactMetric;
  sum ← int_add I128 (Decimal.raw ask) (Decimal.raw bid) ?? InexactMetric;
  numer ← int_sub I128 twice_vwap sum ?? InexactMetric;
  ratio_to_bps numer sum 10000.

(** ** The walk over the opposite side *)

Record Walk := mkWalk {
  w_remaining : Quantity;
  w_filled : Quantity;
  w_notional : option ExactQuoteNotional.t;
  w_capacity : btmap BasisPoints UsdAmount;
}.

(** One iteration of the [for level in opposite] loop, after its [break]. *)
Definition walk_level (best_bid best_ask : Price) (level : L2Level) (w : Walk)
  : result ExecutionError Walk :=
  let take := if Decimal.raw (w_remaining w) <=? Decimal.raw (level_quantity level)
              then w_remaining w else level_quantity level in
  level_notional ← map_err (fun _ => InsufficientLiquidity)
    (ExactQuoteNotional.checked_product (level_price level) take);
  notional ← match w_notional w with
             | Some existing => map_err (fun _ => InsufficientLiquidity)
                 (ExactQuoteNotional.checked_add existing level_notional)
             | None => Ok level_notional
             end;
  filled ← map_err (fun _ => InsufficientLiquidity) (Decimal.checked_add (w_filled w) take);
  remaining ← map_err (fun _ => InsufficientLiquidity) (Decimal.checked_sub (w_remaining w) take);
  prefix_vwap ← exact_vwap (Some notional) filled;
  prefix_impact ← exact_impact_bps prefix_vwap best_bid best_ask;
  prefix_usd ← usd_from_notional notional;
  Ok (mkWalk remaining filled (Some notional) (bt_insert prefix_impact prefix_usd (w_capacity w))).

Fixpoint walk_levels (best_bid best_ask : Price) (levels : list L2Level) (w : Walk)
  : result ExecutionError Walk :=
  match levels with
  | [] => Ok w
  | level :: levels =>
      if Decimal.raw (w_remaining w) =? 0 then Ok w else
      w ← walk_level best_bid best_ask level w;
      walk_levels best_bid best_ask levels w
  end.

Definition opposite_levels (book : OrderBook) (s : OrderSide) : list L2Level :=
  match s with Buy => l2_asks book | Sell => l2_bids book end.

Definition quote_execution (book : OrderBook) (request : ExecutionRequest)
  (latency : LatencyDistribution) : result ExecutionError ExecutionEstimate :=
  if negb (bool_decide (health book = Healthy)) then Err BookNotHealthy else
  if negb (bool_decide (req_market_id request = market_id book)) then Err MarketMismatch else
  if Decimal.raw (quantity request) <=? 0 then Err InvalidQuantity else
  if negb (latency_is_point_estimate latency)
  then Err (UnsupportedAssumption "latency-dependent fill times are unmodeled") else
  fee_bps ← taker_fee_bps (fee_schedule_id request);
  quantity ← scale_quantity (quantity request) (max_participation request);
  '(best_bid, best_ask) ←
    match best_bid book, best_ask book with
    | Some bid, Some ask => Ok (price bid, price ask)
    | _, _ => Err (UnsupportedAssumption "spread and impact require a two-sided book")
    end;
  zero ← map_err (fun _ => InvalidQuantity) (Decimal.from_raw 0 (Decimal.scale quantity));
  w ← walk_levels best_bid best_ask (opposite_levels book (req_side request))
        (mkWalk quantity zero None []);
  if negb (Decimal.raw (w_remaining w) =? 0) then Err InsufficientLiquidity else
  vwap ← exact_vwap (w_notional w) (w_filled w);
  spread_bps ← exact_spread_bps best_bid best_ask;
  impact_bps ← exact_impact_bps vwap best_bid best_ask;
  if is_empty (w_capacity w) then Err InexactMetric else
  normal_exit_cost_bps ← map_err (fun _ => InexactMetric) (Decimal.checked_add spread_bps fee_bps);
  stressed_exit_cost_bps ← scale_bps normal_exit_cost_bps (exit_stress_multiplier request);
  Ok (mkExecutionEstimate 1000000 (w_filled w) vwap vwap vwap spread_bps impact_bps 0 latency
        normal_exit_cost_bps stressed_exit_cost_bps (w_capacity w) (as_of_block book)).

(** ** Specification: the fill a request describes *)

(** Taking [q] units from the levels in order, all at one scale. *)
Fixpoint plan (q : Z) (levels : list L2Level) : list (L2Level * Z) :=
  match levels with
  | [] => []
  | level :: levels =>
      if q =? 0 then [] else
      let t := Z.min q (Decimal.raw (level_quantity level)) in
      (level, t) :: plan (q - t) levels
  end.

Definition plan_total (p : list (L2Level * Z)) : Z := foldr Z.add 0 (snd <$> p).

(** The exact cost of a plan at quantity scale [s]. *)
Definition plan_cost (s : Z) (p : list (L2Level * Z)) : Q :=
  foldr (fun '(level, t) acc => dec_value (level_price level) * dec_value (Decimal.mk t s) + acc)%Q
    0%Q p.

Definition level_wf (s : Z) (level : L2Level) : Prop :=
  Decimal.wf (level_price level) /\ Decimal.wf (level_quantity level) /\
  Decimal.scale (level_quantity level) = s.

Definition notional_value (n : option ExactQuoteNotional.t) : Q :=
  match n with Some n => ntl_value n | None => 0%Q end.
Definition notional_wf (n : option ExactQuoteNotional.t) : Prop :=
  match n with Some n => ExactQuoteNotional.wf n | None => True end.

(** ** Exactness of each metric *)

Lemma big_try_i128_Ok v r : big_try_i128 v = Ok r -> r = v /\ ity_wf I128 v.
Proof. unfold big_try_i128. intros E. inv_ok. by apply int_try_Some. Qed.

Lemma scale_i128_Ok v p r : scale_i128 v p = Ok r -> r * 1000000 = v * p /\ ity_wf I128 r.
Proof.
  unfold scale_i128. intros E. inv_ok. apply big_try_i128_Ok in E as [-> W].
  bool_to_prop. split; [lia|done].
Qed.

Lemma exact_vwap_Ok n f p :
  exact_vwap (Some n) f = Ok p ->
  Decimal.raw p * Decimal.raw f = ExactQuoteNotional.coefficient n /\
  Decimal.scale p = ExactQuoteNotional.scale n - Decimal.scale f /\
  Decimal.wf p /\ Decimal.raw f <> 0.
Proof.
  unfold exact_vwap. cbn [ok_or]. rewrite bind_of_Ok. intros E. inv_ok.
  apply from_raw_inv in E as [-> S]. bool_to_prop.
  match goal with H : big_try_i128 _ = _ |- _ => apply big_try_i128_Ok in H as [-> W] end.
  match goal with H : int_sub _ _ _ = _ |- _ => apply int_try_Some in H as [-> Ws] end.
  unfold ity_wf in Ws. cbn [ity_min ity_max] in Ws. cbn [Decimal.raw Decimal.scale].
  split_and!; [lia|done|split; cbn; [done|lia]|done].
Qed.

Lemma exact_vwap_value n f p :
  ExactQuoteNotional.wf n -> Decimal.wf f -> exact_vwap (Some n) f = Ok p ->
  (dec_value p * dec_value f == ntl_value n)%Q.
Proof.
  intros ((N1 & N2) & _) [_ F] E. apply exact_vwap_Ok in E as (R & S & [_ P] & _).
  destruct n as [c sn], p as [rp sp], f as [rf sf]. cbn in *. subst c sp.
  rewrite ntl_value_div, !dec_value_div by (cbn; lia). cbn [Decimal.raw Decimal.scale].
  assert (pow10Q sn == pow10Q (sn - sf) * pow10Q sf)%Q as ->
    by (rewrite <- pow10Q_add by lia; by replace (sn - sf + sf) with sn by lia).
  rewrite inject_Z_mult. field. split; apply pow10Q_nonzero; lia.
Qed.

Lemma ratio_to_bps_Ok n d t r :
  ratio_to_bps n d t = Ok r -> Decimal.scale r = 0 /\ Decimal.raw r * d = n * t.
Proof.
  unfold ratio_to_bps. intros E. inv_ok. apply from_raw_inv in E as [-> _].
  match goal with H : big_try_i128 _ = _ |- _ => apply big_try_i128_Ok in H as [-> _] end.
  bool_to_prop. cbn. split; [done|lia].
Qed.

(** ** The walk takes exactly the plan *)

Record walk_state (s q f : Z) (n : Q) (w : Walk) : Prop := {
  ws_remaining : w_remaining w = Decimal.mk q s;
  ws_filled : w_filled w = Decimal.mk f s;
  ws_wf : Decimal.wf (w_remaining w) /\ Decimal.wf (w_filled w) /\ notional_wf (w_notional w);
  ws_notional : (notional_value (w_notional w) == n)%Q;
}.

Lemma checked_add_wf a b c : Decimal.wf a -> Decimal.checked_add a b = Ok c -> Decimal.wf c.
Proof.
  intros [_ S] E. unfold Decimal.checked_add, int_add in E. inv_ok.
  apply from_raw_inv in E as [-> _].
  match goal with H : int_try _ _ = Some _ |- _ => apply int_try_Some in H as [-> W] end.
  by split.
Qed.

Lemma checked_sub_wf a b c :
  Decimal.wf a -> Decimal.checked_sub a b = Ok c ->
  Decimal.wf c /\ Decimal.scale b = Decimal.scale a /\
  c = Decimal.mk (Decimal.raw a - Decimal.raw b) (Decimal.scale a).
Proof.
  intros [_ S] E. unfold Decimal.checked_sub, Decimal.require_same_scale, int_sub in E. inv_ok.
  apply from_raw_inv in E as [-> _]. bool_to_prop.
  match goal with H : int_try _ _ = Some _ |- _ => apply int_try_Some in H as [-> W] end.
  split_and!; [by split|done|done].
Qed.

Lemma walk_level_spec bid ask s level q f n w w' :
  level_wf s level -> walk_state s q f n w -> walk_level bid ask level w = Ok w' ->
  let t := Z.min q (Decimal.raw (level_quantity level)) in
  walk_state s (q - t) (f + t)
    (n + dec_value (level_price level) * dec_value (Decimal.mk t s)) w' /\
  w_notional w' <> None /\ w_capacity w' <> [].
Proof.
  intros (Wp & Wq & Sq) [Er Ef (Wr & Wf & Wn) En] E. cbn zeta. unfold walk_level in E.
  set (t := Z.min _ _). rewrite Er in *. cbn [Decimal.raw] in E.
  replace (if q <=? _ then _ else _) with (Decimal.mk t s) in E.
  2: { unfold t. destruct (Z.leb_spec q (Decimal.raw (level_quantity level))).
       - by rewrite Z.min_l.
       - rewrite Z.min_r, <- Sq by lia. by destruct (level_quantity level). }
  assert (Decimal.wf (Decimal.mk t s)) as Wt.
  { destruct Wr as [Wr Ss], Wq as [Wq _]. unfold Decimal.wf, ity_wf in *. cbn in *. split; [lia|done]. }
  apply bind_Ok in E as (ln & El & E). apply map_err_Ok in El.
  destruct (checked_product_spec _ _ Wp Wt) as (ln' & El' & Wl & Vl). rewrite El in El'. injection
      El' as <-.
  apply bind_Ok in E as (nn & Enn & E).
  assert (ExactQuoteNotional.wf nn /\ (ntl_value nn == n + ntl_value ln)%Q) as [Wnn Vnn].
  { destruct (w_notional w) as [ex|]; cbn in *.
    - apply map_err_Ok in Enn. pose proof (notional_add_sub_spec ex ln Wn Wl) as [A _].
      rewrite Enn in A. destruct A as [A1 A2]. split; [done|]. by rewrite A2, En.
    - inv_ok. split; [done|]. rewrite <- En. ring. }
  inv_ok. rewrite Ef in *.
  match goal with H : Decimal.checked_add _ _ = Ok _ |- _ =>
    pose proof (checked_add_wf _ _ _ Wf H) as Wf'; apply checked_add_inv in H as (_ & Ra & Sa) end.
  match goal with H : Decimal.checked_sub _ _ = Ok _ |- _ =>
    destruct (checked_sub_wf _ _ _ Wr H) as (Wr' & _ & ->) end.
  split_and!; [|done|]. 2: { cbn. by destruct (w_capacity w) as [|[]]; cbn; repeat case_match. }
  split; cbn [w_remaining w_filled w_notional].
  - done.
  - cbn [Decimal.raw Decimal.scale] in *. destruct x as [rx sx]; cbn in *. by subst.
  - by split_and!.
  - cbn. by rewrite Vnn, Vl.
Qed.

Lemma plan_cost_cons s level t p :
  plan_cost s ((level, t) :: p) =
  (dec_value (level_price level) * dec_value (Decimal.mk t s) + plan_cost s p)%Q.
Proof. reflexivity. Qed.

Lemma walk_levels_spec bid ask s levels q f n w w' :
  Forall (level_wf s) levels -> walk_state s q f n w ->
  walk_levels bid ask levels w = Ok w' ->
  walk_state s (q - plan_total (plan q levels)) (f + plan_total (plan q levels))
    (n + plan_cost s (plan q levels)) w'.
Proof.
  intros F. revert q f n w. induction F as [|level levels L F IH]; intros q f n w W E.
  - cbn in *. inv_ok. destruct W. split; cbn; rewrite ?Z.sub_0_r, ?Z.add_0_r; try done.
    rewrite ws_notional0. cbn. ring.
  - cbn [walk_levels plan] in *. rewrite (ws_remaining _ _ _ _ _ W) in E. cbn [Decimal.raw] in E.
    destruct (Z.eqb_spec q 0) as [->|Nz].
    + inv_ok. destruct W. split; cbn; rewrite ?Z.sub_0_r, ?Z.add_0_r; try done.
      rewrite ws_notional0. ring.
    + inv_ok. rename x into w1.
      match goal with H : walk_level _ _ _ _ = _ |- _ =>
        destruct (walk_level_spec _ _ _ _ _ _ _ _ _ L W H) as (W1 & _) end.
      apply (IH _ _ _ _ W1) in E. rewrite plan_cost_cons.
      set (t := Z.min q (Decimal.raw (level_quantity level))) in *.
      change (plan_total ((level, t) :: ?p)) with (t + plan_total p).
      destruct E as [E1 E2 E3 E4]. split.
      * rewrite E1. f_equal. lia.
      * rewrite E2. f_equal. lia.
      * done.
      * rewrite E4. ring.
Qed.

(** No level is asked for more than it shows. *)
Lemma plan_within q levels :
  0 <= q -> Forall (fun l => 0 <= Decimal.raw (level_quantity l)) levels ->
  Forall (fun '(l, t) => 0 <= t <= Decimal.raw (level_quantity l)) (plan q levels) /\
  plan_total (plan q levels) <= q.
Proof.
  intros Q F. revert q Q. induction F as [|l ls L F IH]; intros q Q; cbn [plan].
  - split; [constructor|done].
  - destruct (Z.eqb_spec q 0); [split; [constructor|done]|]. cbn zeta.
    set (t := Z.min q (Decimal.raw (level_quantity l))).
    destruct (IH (q - t)) as [A B]; [lia|]. split; [constructor; [lia|done]|].
    change (plan_total ((l, t) :: plan (q - t) ls)) with (t + plan_total (plan (q - t) ls)). lia.
Qed.

Lemma sum_raw_pos orders :
  orders <> [] -> Forall order_positive orders -> 0 < sum_raw orders.
Proof.
  intros N F. assert (0 <= sum_raw orders /\ (orders <> [] -> 0 < sum_raw orders)) as [_ P]; [|auto].
  clear N. unfold sum_raw. induction F as [|o os [P _] F [IH _]]; cbn; [split; [lia|done]|].
  split; [|intros _]; lia.
Qed.

Lemma l2_describes_positive orders levels :
  Forall order_positive orders -> l2_describes orders levels ->
  Forall (fun l => 0 < Decimal.raw (level_quantity l)) levels.
Proof.
  intros F D. apply Forall_forall. intros l I.
  destruct (l2_exact _ _ D _ I) as (N & R & _). cbn in R. rewrite R. apply sum_raw_pos; [done|].
  apply Forall_forall. intros o Io. apply list_elem_of_In, filter_In in Io as [Io _].
  apply list_elem_of_In in Io. by eapply Forall_forall in F.
Qed.

Lemma opposite_positive b sd :
  reachable b -> health b = Healthy ->
  Forall (fun l => 0 < Decimal.raw (level_quantity l)) (opposite_levels b sd).
Proof.
  intros R Hh. destruct (l2_view_describes b R Hh) as [Db Da].
  destruct (reachable_wf b R) as [[W P _ _] _]. destruct sd; cbn.
  - eapply l2_describes_positive; [|exact Da]. apply Forall_forall.
    intros o [_ L]%asks_values_lookup; [|done]. by eapply P.
  - apply Forall_reverse. eapply l2_describes_positive; [|exact Db]. apply Forall_forall.
    intros o [_ L]%bids_values_lookup; [|done]. by eapply P.
Qed.

(** Everything a successful quote went through. *)
Lemma quote_execution_inv book request latency est :
  quote_execution book request latency = Ok est ->
  health book = Healthy /\ req_market_id request = market_id book /\
  exists fee q w bid ask,
    taker_fee_bps (fee_schedule_id request) = Ok fee /\
    scale_quantity (quantity request) (max_participation request) = Ok q /\
    best_bid book = Some bid /\ best_ask book = Some ask /\
    walk_levels (price bid) (price ask) (opposite_levels book (req_side request))
      (mkWalk q (Decimal.mk 0 (Decimal.scale q)) None []) = Ok w /\
    Decimal.raw (w_remaining w) = 0 /\ w_capacity w <> [] /\
    expected_fill_quantity est = w_filled w /\
    exact_vwap (w_notional w) (w_filled w) = Ok (p50_vwap est) /\
    p10_vwap est = p50_vwap est /\ p90_vwap est = p50_vwap est /\
    exact_spread_bps (price bid) (price ask) = Ok (spread_bps est) /\
    exact_impact_bps (p50_vwap est) (price bid) (price ask) = Ok (impact_bps est) /\
    Decimal.checked_add (spread_bps est) fee = Ok (normal_exit_cost_bps est) /\
    scale_bps (normal_exit_cost_bps est) (exit_stress_multiplier request) =
      Ok (stressed_exit_cost_bps est) /\
    as_of_block book = est_as_of_block est.
Proof.
  unfold quote_execution. intros E.
  apply if_Err_Ok in E as [Hh E]. apply if_Err_Ok in E as [Hm E].
  apply if_Err_Ok in E as [_ E]. apply if_Err_Ok in E as [_ E].
  apply bind_Ok in E as (fee & Ef & E). apply bind_Ok in E as (q & Eq & E).
  apply bind_Ok in E as ([bb ba] & Eb & E).
  apply bind_Ok in E as (z & Ez & E). apply map_err_Ok, from_raw_inv in Ez as [-> _].
  apply bind_Ok in E as (w & Ew & E). apply if_Err_Ok in E as [Hr E].
  apply bind_Ok in E as (vw & Ev & E). apply bind_Ok in E as (sp & Es & E).
  apply bind_Ok in E as (im & Ei & E). apply if_Err_Ok in E as [Hc E].
  apply bind_Ok in E as (no & En & E). apply map_err_Ok in En.
  apply bind_Ok in E as (st & Est & E). injection E as <-. bool_to_prop.
  destruct (best_bid book) as [bid|]; [|done]. destruct (best_ask book) as [ask|]; [|done].
  injection Eb as <- <-. split_and!; [done..|]. exists fee, q, w, bid, ask. cbn.
  split_and!; try done. by destruct (w_capacity w).
Qed.

Lemma scale_quantity_Ok q p q' :
  scale_quantity q p = Ok q' ->
  Decimal.scale q' = Decimal.scale q /\ Decimal.raw q' * 1000000 = Decimal.raw q * p /\
  0 < Decimal.raw q' /\ ity_wf I128 (Decimal.raw q').
Proof.
  unfold scale_quantity. intros E. inv_ok. apply from_raw_inv in E as [-> _]. bool_to_prop.
  match goal with H : scale_i128 _ _ = _ |- _ => apply scale_i128_Ok in H as [? ?] end. done.
Qed.

(** C39. A quote that succeeds against levels of the request's quantity scale is
    an exact fill of the visible book. The filled quantity is exactly the
    requested quantity times the participation; it is taken level by level from
    the best price on, never more than a level shows; and the reported average
    price times the quantity is the exact cost of those takes. *)
Theorem quote_fill_exact book request latency est :
  reachable book -> Decimal.wf (quantity request) ->
  let s := Decimal.scale (quantity request) in
  let levels := opposite_levels book (req_side request) in
  Forall (level_wf s) levels ->
  quote_execution book request latency = Ok est ->
  exists q, let fills := plan q levels in
    0 < q /\ q * 1000000 = Decimal.raw (quantity request) * max_participation request /\
    expected_fill_quantity est = Decimal.mk q s /\
    plan_total fills = q /\
    Forall (fun '(l, t) => 0 <= t <= Decimal.raw (level_quantity l)) fills /\
    (dec_value (p50_vwap est) * dec_value (Decimal.mk q s) == plan_cost s fills)%Q /\
    p10_vwap est = p50_vwap est /\ p90_vwap est = p50_vwap est.
Proof.
  intros R Wq s levels F E.
  apply quote_execution_inv in E as (Hh & _ & fee & q & w & bid & ask & _ & Eq & _ & _ & Ew & Hr &
    Hc & Ef & Ev & E10 & E90 & _).
  apply scale_quantity_Ok in Eq as (Sq & Rq & Pq & Iq). destruct q as [q sq]. cbn in *. subst sq.
  assert (walk_state s q 0 0 (mkWalk (Decimal.mk q s) (Decimal.mk 0 s) None [])) as W0.
  { split; try done. split_and!; [split; [done|apply Wq]|split; [by vm_compute|apply Wq]|done]. }
  apply (walk_levels_spec _ _ s _ q 0 0%Q _ w F W0) in Ew as [Er Efl (_ & Wf & Wn) En].
  rewrite Er in Hr. cbn in Hr. fold levels in Hr, Efl, En. rewrite Efl in *.
  destruct (plan_within q levels) as [P1 _]; [lia| |].
  { eapply Forall_impl; [apply (opposite_positive book _ R Hh)|]. cbn. lia. }
  exists q. cbn zeta. replace (plan_total (plan q levels)) with q in * by lia.
  rewrite Z.add_0_l in *. split_and!; try done.
  destruct (w_notional w) as [n|]; [|done]. cbn in *.
  rewrite (exact_vwap_value _ _ _ Wn Wf Ev), En. ring.
Qed.

Lemma exact_spread_bps_Ok bid ask r :
  exact_spread_bps bid ask = Ok r ->
  Decimal.scale bid = Decimal.scale ask /\ Decimal.scale r = 0 /\
  Decimal.raw r * (Decimal.raw ask + Decimal.raw bid) = 20000 * (Decimal.raw ask - Decimal.raw bid).
Proof.
  unfold exact_spread_bps. intros E. inv_ok. bool_to_prop.
  apply ratio_to_bps_Ok in E as [S E].
  match goal with H : Decimal.checked_add _ _ = Ok _ |- _ => apply checked_add_inv in H as (_ & Ra &
      _) end.
  match goal with H : Decimal.checked_sub ask bid = Ok _ |- _ =>
    unfold Decimal.checked_sub, int_sub in H; inv_ok; apply from_raw_inv in H as [-> _] end.
  match goal with H : int_try _ _ = Some _ |- _ => apply int_try_Some in H as [-> _] end.
  cbn in *. rewrite Ra in E. split_and!; [done..|lia].
Qed.

Lemma exact_impact_bps_Ok vwap bid ask r :
  exact_impact_bps vwap bid ask = Ok r ->
  Decimal.scale vwap = Decimal.scale bid /\ Decimal.scale vwap = Decimal.scale ask /\
  Decimal.scale r = 0 /\
  Decimal.raw r * (Decimal.raw ask + Decimal.raw bid) =
    10000 * (2 * Decimal.raw vwap - (Decimal.raw ask + Decimal.raw bid)).
Proof.
  unfold exact_impact_bps, int_mul, int_add, int_sub. intros E. inv_ok. bool_to_prop.
  apply ratio_to_bps_Ok in E as [S E].
  repeat match goal with H : int_try _ _ = Some _ |- _ => apply int_try_Some in H as [-> _] end.
  split_and!; [done..|lia].
Qed.

Lemma taker_fee_bps_Ok s f :
  taker_fee_bps s = Ok f -> Decimal.scale f = 0 /\ (Decimal.raw f = 0 \/ Decimal.raw f = 100).
Proof.
  unfold taker_fee_bps. intros E. inv_ok. apply from_raw_inv in E as [-> _]. cbn.
  repeat case_bool_decide; inv_ok; auto.
Qed.

(** The costs of a successful quote are exact integers of basis points:
    the spread is the gap between best ask and best bid over their midpoint
    and is positive, the impact is the distance of the average price from the
    midpoint, the exit cost adds the schedule's fee of 0 or 100, and the
    stressed cost is exactly that times the stress multiplier. *)
Theorem quote_cost_exact book request latency est :
  reachable book -> quote_execution book request latency = Ok est ->
  exists bid ask fee,
    best_bid book = Some bid /\ best_ask book = Some ask /\
    Decimal.scale (price bid) = Decimal.scale (price ask) /\
    Decimal.scale (p50_vwap est) = Decimal.scale (price ask) /\
    let mid2 := Decimal.raw (price ask) + Decimal.raw (price bid) in
    Decimal.raw (spread_bps est) * mid2 =
      20000 * (Decimal.raw (price ask) - Decimal.raw (price bid)) /\
    0 < Decimal.raw (spread_bps est) /\
    Decimal.raw (impact_bps est) * mid2 = 10000 * (2 * Decimal.raw (p50_vwap est) - mid2) /\
    (fee = 0 \/ fee = 100) /\
    Decimal.raw (normal_exit_cost_bps est) = Decimal.raw (spread_bps est) + fee /\
    Decimal.raw (stressed_exit_cost_bps est) * 1000000 =
      Decimal.raw (normal_exit_cost_bps est) * exit_stress_multiplier request.
Proof.
  intros [[W P _ H] _]%reachable_wf E.
  apply quote_execution_inv in E as (Hh & _ & fee & q & w & bid & ask & Efee & _ & Eb & Ea & _ & _ &
    _ & _ & _ & _ & _ & Es & Ei & En & Est & _).
  rewrite decide_True in H by done. apply assert_invariants_Ok in H as [U _]; [|done].
  apply uncrossed_iff in U; [|done]. rewrite Eb, Ea in U.
  destruct (best_bid_first _ _ W Eb) as [(_ & _ & Lb) _], (best_ask_first _ _ W Ea) as [(_ & _ & La) _].
  apply P in Lb as (_ & Pb & _), La as (_ & Pa & _).
  apply exact_spread_bps_Ok in Es as (Sc & _ & Rs). apply exact_impact_bps_Ok in Ei as (_ & Sv & _ & Ri).
  apply taker_fee_bps_Ok in Efee as [_ Rf]. apply checked_add_inv in En as (_ & Rn & _).
  unfold scale_bps in Est. inv_ok. apply from_raw_inv in Est as [Est _].
  match goal with H : scale_i128 _ _ = _ |- _ => apply scale_i128_Ok in H as [Rst _] end.
  exists bid, ask, (Decimal.raw fee). rewrite Est. cbn zeta. split_and!; try done.
  assert (Decimal.raw (price bid) < Decimal.raw (price ask)).
  { unfold cmp, Price_Ord, Decimal.t_Ord, Decimal.numeric_cmp in U. rewrite Sc in U.
    apply Z.compare_lt_iff in U.
    by apply Z.mul_lt_mono_pos_r in U; [|apply pow10_big_pos]. }
  nia.
Qed.

(** ** Where the code falls short of its meaning *)

Definition small_book : OrderBook :=
  apply_snapshot 1 1
    [RestingOrder.new "b" Buy (Decimal.mk 1 0) (Decimal.mk 10 3) 1;
     RestingOrder.new "a" Sell (Decimal.mk 3 0) (Decimal.mk 10 3) 2]
    (awaiting_snapshot "BTC" 0).
Definition buy_request (q : Quantity) : ExecutionRequest :=
  mkExecutionRequest "BTC" Buy q 1000000 FEE_SCHEDULE_NONE 1000000.
Definition point_latency : LatencyDistribution := mkLatency 1 1 1 1.
Definition visible (levels : list L2Level) : Q :=
  foldr (fun l acc => dec_value (level_quantity l) + acc)%Q 0%Q levels.

Lemma small_book_reachable : reachable small_book.
Proof. apply reach_snapshot, reach_new. vm_compute. discriminate. Defined.

(** The comparison [remaining.raw() <= level.quantity.raw()] ignores scales:
    against 0.010 of visible depth a request for 5 (scale 0) is quoted as
    completely filled. *)
Theorem quote_overfills_across_scales :
  exists est,
    quote_execution small_book (buy_request (Decimal.mk 5 0)) point_latency = Ok est /\
    fill_probability est = 1000000 /\
    (visible (opposite_levels small_book Buy) < dec_value (expected_fill_quantity est))%Q.
Proof. eexists. split_and!; vm_compute; reflexivity. Qed.

(** A notional is stored without trailing zeros, and [exact_vwap] divides that
    stripped coefficient: buying all of 0.010 at 3 has the exact average price
    3, yet the quote is refused as inexact. *)
Theorem quote_refuses_exact_fill :
  quote_execution small_book (buy_request (Decimal.mk 10 3)) point_latency = Err InexactMetric /\
  plan_total (plan 10 (opposite_levels small_book Buy)) = 10 /\
  (plan_cost 3 (plan 10 (opposite_levels small_book Buy)) ==
     dec_value (Decimal.mk 3 0) * dec_value (Decimal.mk 10 3))%Q.
Proof. split_and!; vm_compute; reflexivity. Qed.

(** ** Concrete instances *)

Definition small_estimate : ExecutionEstimate :=
  Eval vm_compute in
  match quote_execution small_book (buy_request (Decimal.mk 5 3)) point_latency with
  | Ok est => est
  | Err _ => mkExecutionEstimate 0 (Decimal.mk 0 0) (Decimal.mk 0 0) (Decimal.mk 0 0) (Decimal.mk 0 0)
      (Decimal.mk 0 0) (Decimal.mk 0 0) 0 point_latency (Decimal.mk 0 0) (Decimal.mk 0 0) [] 0
  end.

Lemma quote_fill_exact_witness :
  exists q, 0 < q /\ expected_fill_quantity small_estimate = Decimal.mk q 3 /\
    plan_total (plan q (opposite_levels small_book Buy)) = q.
Proof.
  destruct (quote_fill_exact small_book (buy_request (Decimal.mk 5 3)) point_latency small_estimate
    small_book_reachable) as (q & P & _ & E & T & _).
  - vm_compute. intuition discriminate.
  - replace (opposite_levels small_book (req_side (buy_request (Decimal.mk 5 3))))
      with [mkL2Level (Decimal.mk 3 0) (Decimal.mk 10 3) 1] by (vm_compute; reflexivity).
    repeat constructor; vm_compute; discriminate.
  - vm_compute. reflexivity.
  - exists q. split; [exact P|]. split; [exact E|exact T].
Defined.

Lemma quote_cost_exact_witness :
  exists bid ask, best_bid small_book = Some bid /\ best_ask small_book = Some ask /\
    0 < Decimal.raw (spread_bps small_estimate).
Proof.
  destruct (quote_cost_exact small_book (buy_request (Decimal.mk 5 3)) point_latency small_estimate
    small_book_reachable) as (bid & ask & fee & B & A & _ & _ & _ & S & _).
  - vm_compute. reflexivity.
  - exists bid, ask. split; [exact B|]. split; [exact A|exact S].
Defined.
