(* ===== verification/Reconcile.v ===== *)
(** * Level-2 reconciliation: [crates/orderbook/src/reconcile.rs]

    The level-2 view derived from the level-4 book is compared with the one
    the exchange publishes: clocks, level counts, prices, sizes, order counts,
    and alignment of the published values to the market's tick and lot. *)

From Stdlib Require Import QArith.
From S2P Require Import Prelude Ordering Digits FixedPoint OrderBook.
#[local] Open Scope Z_scope.

Definition L2_RECONCILE_POLICY_V1 : string := "hyperliquid-alpha-desk/l2-reconcile-policy/v1".
Definition L2_RECONCILE_MAX_TIME_SKEW_MILLIS_V1 : Z := 1000.

Record L2ReconcilePolicyV1 := mkPolicy {
  version : string;
  max_time_skew_millis : Z;
  tick_size : option Price;
  lot_size : option Quantity;
}.

Definition policy_exact : L2ReconcilePolicyV1 := mkPolicy L2_RECONCILE_POLICY_V1 0 None None.
Definition policy_for_market (tick : Price) (lot : Quantity) : L2ReconcilePolicyV1 :=
  mkPolicy L2_RECONCILE_POLICY_V1 L2_RECONCILE_MAX_TIME_SKEW_MILLIS_V1 (Some tick) (Some lot).

Inductive L2ReconcileDecision :=
| Match
| Quarantine (reason : string).

Definition timing_ok (derived official : option Z) (policy : L2ReconcilePolicyV1)
  : result string unit :=
  match derived, official with
  | None, None => Ok tt
  | Some _, None | None, Some _ => Err "official l2 clock is not comparable"%string
  | Some x, Some y =>
      if max_time_skew_millis policy <? Z.abs (x - y)
      then Err "official l2 timing skew exceeds policy"%string else Ok tt
  end.

(** [10_i128.checked_pow(exp).unwrap_or(0)] *)
Definition pow10 (e : Z) : Z := default 0 (int_try I128 (10 ^ e)).

Definition aligned (value unit value_scale unit_scale : Z) : bool :=
  if unit <=? 0 then false else
  let '(lhs, rhs, scale_ok) :=
    match Z.compare value_scale unit_scale with
    | Eq => (value, unit, true)
    | Gt => let factor := pow10 (value_scale - unit_scale) in
            (value, int_saturating_mul I128 unit factor, negb (factor =? 0))
    | Lt => let factor := pow10 (unit_scale - value_scale) in
            (int_saturating_mul I128 value factor, unit, negb (factor =? 0))
    end in
  scale_ok && negb (rhs =? 0) && (Z.rem lhs rhs =? 0).

Definition unaligned (d : Decimal.t) (unit : option Decimal.t) : bool :=
  match unit with
  | Some u => negb (aligned (Decimal.raw d) (Decimal.raw u) (Decimal.scale d) (Decimal.scale u))
  | None => false
  end.

(** One iteration of the loop over the zipped levels. *)
Definition level_check (sd : string) (policy : L2ReconcilePolicyV1) (want got : L2Level)
  : result string unit :=
  if negb (Decimal.eq (level_price want) (level_price got)) then Err (sd +:+ " price diverges") else
  if negb (Decimal.eq (level_quantity want) (level_quantity got)) then Err (sd +:+ " size diverges") else
  if negb (order_count want =? order_count got) then Err (sd +:+ " order count diverges") else
  if unaligned (level_price got) (tick_size policy) then Err (sd +:+ " price is not tick aligned") else
  if unaligned (level_quantity got) (lot_size policy) then Err (sd +:+ " size is not lot aligned")
  else Ok tt.

Fixpoint level_checks (sd : string) (policy : L2ReconcilePolicyV1) (l : list (L2Level * L2Level))
  : result string unit :=
  match l with
  | [] => Ok tt
  | (want, got) :: l => _ ← level_check sd policy want got; level_checks sd policy l
  end.

Definition levels_match (derived official : list L2Level) (sd : string)
  (policy : L2ReconcilePolicyV1) : result string unit :=
  if negb (zlen derived =? zlen official) then Err (sd +:+ " level count diverges")
  else level_checks sd policy (zip derived official).

Definition reconcile_derived_l2 (derived_bids derived_asks official_bids official_asks : list L2Level)
  (derived_time official_time : option Z) (policy : L2ReconcilePolicyV1) : L2ReconcileDecision :=
  match timing_ok derived_time official_time policy with
  | Err reason => Quarantine reason
  | Ok _ =>
      match levels_match derived_bids official_bids "bid" policy with
      | Err reason => Quarantine reason
      | Ok _ =>
          match levels_match derived_asks official_asks "ask" policy with
          | Err reason => Quarantine reason
          | Ok _ => Match
          end
      end
  end.

(** ** What a match means *)

Definition clocks_agree (policy : L2ReconcilePolicyV1) (derived official : option Z) : Prop :=
  match derived, official with
  | None, None => True
  | Some x, Some y => Z.abs (x - y) <= max_time_skew_millis policy
  | _, _ => False
  end.

(** [d] is an integer multiple of the unit, if there is one. *)
Definition multiple_of (unit : option Decimal.t) (d : Decimal.t) : Prop :=
  match unit with
  | Some u => 0 < Decimal.raw u /\ exists k, (dec_value d == inject_Z k * dec_value u)%Q
  | None => True
  end.

(** Neither operand of the alignment test saturates. *)
Definition in_reach (unit : option Decimal.t) (d : Decimal.t) : Prop :=
  match unit with
  | Some u =>
      Decimal.wf u /\
      ity_wf I128 (Decimal.raw d * 10 ^ Z.max 0 (Decimal.scale u - Decimal.scale d)) /\
      ity_wf I128 (Decimal.raw u * 10 ^ Z.max 0 (Decimal.scale d - Decimal.scale u))
  | None => True
  end.

Definition level_agrees (policy : L2ReconcilePolicyV1) (want got : L2Level) : Prop :=
  (dec_value (level_price want) == dec_value (level_price got))%Q /\
  (dec_value (level_quantity want) == dec_value (level_quantity got))%Q /\
  order_count want = order_count got /\
  multiple_of (tick_size policy) (level_price got) /\
  multiple_of (lot_size policy) (level_quantity got).

Definition level_typed (policy : L2ReconcilePolicyV1) (l : L2Level) : Prop :=
  Decimal.wf (level_price l) /\ Decimal.wf (level_quantity l) /\
  in_reach (tick_size policy) (level_price l) /\ in_reach (lot_size policy) (level_quantity l).

Lemma pow10_in_range e : 0 <= e <= MAX_DECIMAL_SCALE -> pow10 e = 10 ^ e /\ 0 < 10 ^ e.
Proof.
  intros [L U]. unfold pow10, MAX_DECIMAL_SCALE in *. pose proof (pow10_pos e L).
  rewrite int_try_wf; [done|]. unfold ity_wf. cbn [ity_min ity_max].
  assert (10 ^ e <= 10 ^ 38) by (apply Z.pow_le_mono_r; lia).
  assert (10 ^ 38 <= 170141183460469231731687303715884105727) by (vm_compute; discriminate). lia.
Qed.

Lemma saturating_mul_exact a b : ity_wf I128 (a * b) -> int_saturating_mul I128 a b = a * b.
Proof. unfold ity_wf, int_saturating_mul. lia. Qed.

(** Being a multiple, at the wider of the two scales. *)
Lemma multiple_at_scale d u x y :
  Decimal.wf d -> Decimal.wf u -> 0 < Decimal.raw u ->
  Decimal.scale d + x = Decimal.scale u + y -> 0 <= x -> 0 <= y ->
  Z.rem (Decimal.raw d * 10 ^ x) (Decimal.raw u * 10 ^ y) = 0 <->
  exists k, (dec_value d == inject_Z k * dec_value u)%Q.
Proof.
  intros [_ Sd] [_ Su] Pu E X Y. pose proof (pow10_pos x X). pose proof (pow10_pos y Y).
  assert (0 < 10 ^ Decimal.scale d) by (apply pow10_pos; lia).
  assert (0 < 10 ^ Decimal.scale u) by (apply pow10_pos; lia).
  assert (10 ^ Decimal.scale d * 10 ^ x = 10 ^ Decimal.scale u * 10 ^ y) as P
    by (rewrite <- !Z.pow_add_r by lia; by f_equal).
  assert (forall k, (dec_value d == inject_Z k * dec_value u)%Q <->
    Decimal.raw d * 10 ^ x = k * (Decimal.raw u * 10 ^ y)) as K.
  { intros k. unfold Qeq, dec_value, Qmult, inject_Z. cbn [Qnum Qden].
    rewrite !Z2Pos.id, Pos.mul_1_l, Z2Pos.id by done.
    set (D := 10 ^ Decimal.scale d) in *. set (U := 10 ^ Decimal.scale u) in *.
    set (X' := 10 ^ x) in *. set (Y' := 10 ^ y) in *. split; intros A.
    - apply (Z.mul_reg_l _ _ U); [lia|].
      transitivity (Decimal.raw d * U * X'); [ring|]. rewrite A.
      transitivity (k * Decimal.raw u * (D * X')); [ring|]. rewrite P. ring.
    - apply (Z.mul_reg_l _ _ Y'); [lia|].
      transitivity (Decimal.raw d * (U * Y')); [ring|]. rewrite <- P.
      transitivity (Decimal.raw d * X' * D); [ring|]. rewrite A. ring. }
  setoid_rewrite K. rewrite Z.rem_divide by nia. unfold Z.divide. done.
Qed.

Lemma aligned_iff unit d :
  Decimal.wf d -> in_reach unit d -> unaligned d unit = false <-> multiple_of unit d.
Proof.
  destruct unit as [u|]; cbn [unaligned multiple_of in_reach]; [|done].
  intros Wd (Wu & R1 & R2). rewrite negb_false_iff. unfold aligned.
  destruct (Z.leb_spec (Decimal.raw u) 0) as [N|P]; [split; [done|intros [? _]; lia]|].
  pose proof Wd as [_ Sd]. pose proof Wu as [_ Su]. unfold MAX_DECIMAL_SCALE in *.
  destruct (Z.compare_spec (Decimal.scale d) (Decimal.scale u)) as [E|L|L].
  - rewrite <- (multiple_at_scale d u 0 0) by (done || lia).
    rewrite !Z.pow_0_r, !Z.mul_1_r. cbn [andb]. rewrite (proj2 (Z.eqb_neq (Decimal.raw u) 0)) by lia.
    cbn [andb negb]. rewrite Z.eqb_eq. intuition.
  - destruct (pow10_in_range (Decimal.scale u - Decimal.scale d)) as [-> F];
      [unfold MAX_DECIMAL_SCALE; lia|].
    rewrite Z.max_r in R1 by lia. rewrite saturating_mul_exact by done.
    rewrite <- (multiple_at_scale d u (Decimal.scale u - Decimal.scale d) 0) by (done || lia).
    rewrite Z.pow_0_r, Z.mul_1_r, (proj2 (Z.eqb_neq (10 ^ _) 0)), (proj2 (Z.eqb_neq (Decimal.raw u)
        0)) by lia.
    cbn [andb negb]. rewrite Z.eqb_eq. intuition.
  - destruct (pow10_in_range (Decimal.scale d - Decimal.scale u)) as [-> F];
      [unfold MAX_DECIMAL_SCALE; lia|].
    rewrite Z.max_r in R2 by lia. rewrite saturating_mul_exact by done.
    rewrite <- (multiple_at_scale d u 0 (Decimal.scale d - Decimal.scale u)) by (done || lia).
    rewrite Z.pow_0_r, Z.mul_1_r, (proj2 (Z.eqb_neq (10 ^ _) 0)) by lia.
    rewrite (proj2 (Z.eqb_neq (Decimal.raw u * _) 0)) by nia.
    cbn [andb negb]. rewrite Z.eqb_eq. intuition.
Qed.

Lemma level_check_iff sd policy want got :
  level_typed policy want -> level_typed policy got ->
  level_check sd policy want got = Ok tt <-> level_agrees policy want got.
Proof.
  intros (Wp & Wq & _ & _) (Gp & Gq & Rt & Rl). unfold level_check, level_agrees.
  destruct (decimal_eq_ord_spec _ _ Wp Gp) as (_ & _ & <-).
  destruct (decimal_eq_ord_spec _ _ Wq Gq) as (_ & _ & <-).
  rewrite <- (aligned_iff _ _ Gp Rt), <- (aligned_iff _ _ Gq Rl).
  destruct (Decimal.eq (level_price want) _), (Decimal.eq (level_quantity want) _),
    (Z.eqb_spec (order_count want) (order_count got)),
    (unaligned _ (tick_size policy)), (unaligned _ (lot_size policy)); cbn; naive_solver.
Qed.

Lemma levels_match_iff sd policy derived official :
  Forall (level_typed policy) derived -> Forall (level_typed policy) official ->
  levels_match derived official sd policy = Ok tt <->
  Forall2 (level_agrees policy) derived official.
Proof.
  intros Fd. unfold levels_match, zlen. revert official.
  induction Fd as [|want derived W Fd IH]; intros [|got official] Fo; cbn.
  - split; [constructor|done].
  - split; [done|]. intros F. inversion F.
  - split; [done|]. intros F. inversion F.
  - apply Forall_cons in Fo as [G Fo]. rewrite Forall2_cons, <- (level_check_iff sd policy _ _ W G).
    rewrite <- (IH _ Fo).
    destruct (Z.eqb_spec (Z.of_nat (length derived)) (Z.of_nat (length official))) as [E|E],
      (Z.eqb_spec (Z.of_nat (S (length derived))) (Z.of_nat (S (length official)))) as [E'|E'];
      try lia; cbn [negb]; [|naive_solver].
    destruct (level_check sd policy want got) as [[]|e]; cbn; naive_solver.
Qed.

(** A derived book matches the official one exactly when the clocks agree
    within the policy's skew and the levels agree pairwise: same number, same
    rational prices and sizes whatever their scales, same order counts, and
    official prices and sizes that are integer multiples of the market's tick
    and lot. The alignment operands must not saturate [i128]. *)
Theorem reconcile_match_iff policy derived_bids derived_asks official_bids official_asks dt ot :
  Forall (level_typed policy) (derived_bids ++ derived_asks ++ official_bids ++ official_asks) ->
  reconcile_derived_l2 derived_bids derived_asks official_bids official_asks dt ot policy = Match <->
  clocks_agree policy dt ot /\
  Forall2 (level_agrees policy) derived_bids official_bids /\
  Forall2 (level_agrees policy) derived_asks official_asks.
Proof.
  rewrite !Forall_app. intros (F1 & F2 & F3 & F4).
  rewrite <- (levels_match_iff "bid" policy derived_bids official_bids F1 F3),
    <- (levels_match_iff "ask" policy derived_asks official_asks F2 F4).
  assert (clocks_agree policy dt ot <-> timing_ok dt ot policy = Ok tt) as ->.
  { destruct dt as [x|], ot as [y|]; cbn; try naive_solver.
    destruct (Z.ltb_spec (max_time_skew_millis policy) (Z.abs (x - y))); naive_solver lia. }
  unfold reconcile_derived_l2.
  destruct (timing_ok dt ot policy) as [[]|], (levels_match derived_bids _ _ _) as [[]|],
    (levels_match derived_asks _ _ _) as [[]|]; naive_solver.
Qed.

Lemma reconcile_match_iff_witness :
  reconcile_derived_l2 [mkL2Level (Decimal.mk 9990 2) (Decimal.mk 75 1) 2] []
    [mkL2Level (Decimal.mk 999 1) (Decimal.mk 750 2) 2] [] (Some 1000) (Some 1400)
    (policy_for_market (Decimal.mk 1 1) (Decimal.mk 5 1)) = Match /\
  clocks_agree (policy_for_market (Decimal.mk 1 1) (Decimal.mk 5 1)) (Some 1000) (Some 1400).
Proof.
  split; [vm_compute; reflexivity|].
  apply (reconcile_match_iff (policy_for_market (Decimal.mk 1 1) (Decimal.mk 5 1))
    [mkL2Level (Decimal.mk 9990 2) (Decimal.mk 75 1) 2] []
    [mkL2Level (Decimal.mk 999 1) (Decimal.mk 750 2) 2] [] (Some 1000) (Some 1400)).
  - repeat constructor; vm_compute; discriminate.
  - vm_compute; reflexivity.
Defined.
