(* ===== verification/Store.v ===== *)
(** * Level-4 record store: [crates/orderbook/src/store.rs]

    Records are written as canonical JSON: decoding re-encodes what it read and
    refuses bytes that are not the canonical ones. Keys are sequences of
    length-prefixed parts. [serde_json] and [blake3] are parameters, the
    former with the round trip its derived codecs document. *)

From Stdlib Require Import Strings.Byte Strings.String.
From S2P Require Import Prelude Ordering Bytes FixedPoint Ids OrderBook.

Definition L4_STORE_SCHEMA : string := "hyperliquid-alpha-desk/l4-rocksdb-encoding/v1".
Definition L4_CHECKPOINT_SCHEMA : string := "hyperliquid-alpha-desk/l4-checkpoint/v1".
Definition L4_HASH_CONTEXT : string := "hyperliquid-alpha-desk/l4-checkpoint-hash/v1".
Definition L4_INPUT_HASH_CONTEXT : string := "hyperliquid-alpha-desk/l4-input-hash/v1".
Definition MAX_RECORD_BYTES : Z := 16 * 1024 * 1024.

Inductive L4StoreError :=
| Codec | NonCanonical | InvalidRecord | LimitExceeded | Unhealthy | HashMismatch.

(** ** Parameters: [serde_json] and [blake3] *)

(** [serde_json::to_vec] and [from_slice] at a wire type. *)
Class Json (T : Type) := {
  to_vec : T -> option bytes;
  from_slice : bytes -> option T;
}.

Class JsonLaws (T : Type) `{Json T} : Prop := {
  json_roundtrip : forall v l, to_vec v = Some l -> from_slice l = Some v;
  json_nonempty : forall v, to_vec v <> Some [];
}.

Definition content_hash `{Blake3} (l : bytes) : Hash := derive_key_hash L4_INPUT_HASH_CONTEXT l.
Definition state_hash `{Blake3} (l : bytes) : Hash := derive_key_hash L4_HASH_CONTEXT l.

(** ** Keys *)

Fixpoint framed (parts : list bytes) : bytes :=
  match parts with
  | [] => []
  | part :: parts => to_be_bytes 8 (zlen part) ++ part ++ framed parts
  end.

Definition l4_order_key (market : MarketId) (id : OrderId) : bytes :=
  framed [as_bytes market; as_bytes id].
Definition l2_book_key (market : MarketId) : bytes := framed [as_bytes market].
Definition checkpoint_key (market : MarketId) (blk : BlockHeight) : bytes :=
  framed [as_bytes market; to_be_bytes 8 blk].

(** ** Canonical encoding *)

Section canonical.
Context {T : Type} `{Json T}.

Definition encode_canonical (value : T) : result L4StoreError bytes :=
  l ← to_vec value ?? Codec;
  if MAX_RECORD_BYTES <? zlen l then Err LimitExceeded else Ok l.

Definition decode_canonical (l : bytes) : result L4StoreError T :=
  if is_empty l || (MAX_RECORD_BYTES <? zlen l) then Err LimitExceeded else
  value ← from_slice l ?? Codec;
  encoded ← encode_canonical value;
  if negb (bool_decide (encoded = l)) then Err NonCanonical else Ok value.
End canonical.

(** ** Wire types *)

Inductive TriggerWire :=
| WNone
| WUntriggered (tpsl : bool) (trigger_px : string)
| WActivated (trigger_px : string).

Record RestingWire := mkRestingWire {
  w_schema : string;
  w_order_id : string;
  w_side : string;
  w_price : string;
  w_remaining : string;
  w_original : string;
  w_sequence : Z;
  w_account_id : option string;
  w_client_order_id : option string;
  w_time_millis : option Z;
  w_trigger : TriggerWire;
}.

Record LevelWire := mkLevelWire { lw_price : string; lw_quantity : string; lw_order_count : Z }.
Record L2Wire := mkL2Wire { l2_schema : string; l2w_bids : list LevelWire; l2w_asks : list LevelWire }.

Definition trigger_from_kind (k : TriggerKind) : TriggerWire :=
  match k with
  | NoTrigger => WNone
  | Untriggered tpsl px => WUntriggered tpsl (Decimal.to_string px)
  | Activated px => WActivated (Decimal.to_string px)
  end.

(** [parse().map_err(|_| InvalidRecord)] *)
Definition parse_dec (s : string) : result L4StoreError Decimal.t :=
  map_err (fun _ => InvalidRecord) (Decimal.from_str s).

Definition trigger_into_kind (w : TriggerWire) : result L4StoreError TriggerKind :=
  match w with
  | WNone => Ok NoTrigger
  | WUntriggered tpsl px => px ← parse_dec px; Ok (Untriggered tpsl px)
  | WActivated px => px ← parse_dec px; Ok (Activated px)
  end.

Section wire.
Context `{Hex}.

Definition from_order (o : RestingOrder) : result L4StoreError RestingWire :=
  Ok (mkRestingWire L4_STORE_SCHEMA (order_id o) (side_as_wire_name (side o))
        (Decimal.to_string (price o)) (Decimal.to_string (remaining o))
        (Decimal.to_string (original o)) (sequence o) (to_api_string <$> account_id o)
        (client_order_id o) (time_millis o) (trigger_from_kind (trigger o))).

Definition invalid {A} (r : result ValueError A) : result L4StoreError A :=
  map_err (fun _ => InvalidRecord) r.

Definition into_order (w : RestingWire) : result L4StoreError RestingOrder :=
  if negb (bool_decide (w_schema w = L4_STORE_SCHEMA)) then Err InvalidRecord else
  id ← invalid (string_id_new (w_order_id w));
  sd ← invalid (side_parse_wire (w_side w));
  p ← parse_dec (w_price w);
  q ← parse_dec (w_remaining w);
  orig ← parse_dec (w_original w);
  trig ← trigger_into_kind (w_trigger w);
  let order := RestingOrder.with_trigger trig
                 (RestingOrder.with_original orig (RestingOrder.new id sd p q (w_sequence w))) in
  order ← match w_account_id w with
          | Some account => a ← invalid (parse_api account); Ok (RestingOrder.with_account a order)
          | None => Ok order
          end;
  order ← match w_client_order_id w with
          | Some cloid => c ← invalid (string_id_new cloid);
                          Ok (RestingOrder.with_client_order_id c order)
          | None => Ok order
          end;
  Ok match w_time_millis w with
     | Some t => RestingOrder.with_time_millis t order
     | None => order
     end.

Context `{Json RestingWire}.

Definition encode_resting_order (o : RestingOrder) : result L4StoreError bytes :=
  wire ← from_order o; encode_canonical wire.
Definition decode_resting_order (l : bytes) : result L4StoreError RestingOrder :=
  wire ← decode_canonical l; into_order wire.
End wire.

Definition encode_levels (levels : list L2Level) : list LevelWire :=
  (fun l => mkLevelWire (Decimal.to_string (level_price l)) (Decimal.to_string (level_quantity l))
              (order_count l)) <$> levels.

Fixpoint decode_levels (levels : list LevelWire) : result L4StoreError (list L2Level) :=
  match levels with
  | [] => Ok []
  | l :: levels =>
      p ← parse_dec (lw_price l);
      q ← parse_dec (lw_quantity l);
      rest ← decode_levels levels;
      Ok (mkL2Level p q (lw_order_count l) :: rest)
  end.

Section l2_book.
Context `{Json L2Wire}.

Definition encode_l2_book (bids asks : list L2Level) : result L4StoreError bytes :=
  encode_canonical (mkL2Wire L4_STORE_SCHEMA (encode_levels bids) (encode_levels asks)).

Definition decode_l2_book (l : bytes) : result L4StoreError (list L2Level * list L2Level) :=
  wire ← decode_canonical l;
  if negb (bool_decide (l2_schema wire = L4_STORE_SCHEMA)) then Err InvalidRecord else
  bids ← decode_levels (l2w_bids wire);
  asks ← decode_levels (l2w_asks wire);
  Ok (bids, asks).
End l2_book.

(** ** Theorems *)

Lemma canonical_roundtrip {T} `{JsonLaws T} (v : T) l :
  encode_canonical v = Ok l -> decode_canonical l = Ok v.
Proof.
  intros E. pose proof E as E'. unfold encode_canonical in E'. inv_ok. unfold decode_canonical.
  match goal with H : to_vec v = Some _ |- _ => pose proof H as Hv end.
  destruct l as [|b l]; [by apply json_nonempty in Hv|]. cbn [is_empty orb].
  rewrite Hb, (json_roundtrip _ _ Hv). cbn [ok_or]. rewrite bind_of_Ok, E, bind_of_Ok.
  by rewrite bool_decide_eq_true_2.
Qed.

Lemma canonical_unique {T} `{Json T} (v : T) l :
  decode_canonical l = Ok v -> encode_canonical v = Ok l.
Proof. unfold decode_canonical. intros E. inv_ok. bool_to_prop. by subst. Qed.

Lemma framed_inj ps qs :
  Forall (fun p => zlen p < 256 ^ 8) ps -> Forall (fun p => zlen p < 256 ^ 8) qs ->
  framed ps = framed qs -> ps = qs.
Proof.
  intros Fp. revert qs. induction Fp as [|p ps Lp Fp IH]; intros [|q qs] Fq E; [done|..].
  - cbn [framed] in E. symmetry in E. apply app_eq_nil in E as [E _].
    apply (f_equal length) in E. by rewrite to_be_bytes_length in E.
  - cbn [framed] in E. apply app_eq_nil in E as [E _].
    apply (f_equal length) in E. by rewrite to_be_bytes_length in E.
  - apply Forall_cons in Fq as [Lq Fq]. cbn [framed] in E. rewrite !app_assoc in E.
    apply frame_inj in E as [-> E]; [|done..]. f_equal. by apply IH.
Qed.

(** Store keys identify their parts: within one column family two keys are
    equal only for the same market and order, market, or market and block. *)
Theorem store_keys_injective m m' i i' k k' :
  Forall (fun s => zlen (as_bytes s) < 256 ^ 8) [m; m'; i; i'] -> ity_wf U64 k -> ity_wf U64 k' ->
  (l4_order_key m i = l4_order_key m' i' <-> m = m' /\ i = i') /\
  (l2_book_key m = l2_book_key m' <-> m = m') /\
  (checkpoint_key m k = checkpoint_key m' k' <-> m = m' /\ k = k').
Proof.
  rewrite !Forall_cons. intros (Lm & Lm' & Li & Li' & _) Wk Wk'.
  unfold l4_order_key, l2_book_key, checkpoint_key. split_and!; (split; [|naive_solver]); intros E.
  - apply framed_inj in E; [|by repeat constructor..]. by injection E as ->%as_bytes_inj ->%as_bytes_inj.
  - apply framed_inj in E; [|by repeat constructor..]. by injection E as ->%as_bytes_inj.
  - assert (forall z, zlen (to_be_bytes 8 z) < 256 ^ 8) as L.
    { intros z. unfold zlen. by rewrite to_be_bytes_length. }
    apply framed_inj in E; [|by repeat constructor..].
    pose proof (f_equal (fun l => nth 0 l []) E) as ->%as_bytes_inj.
    apply (f_equal (fun l => nth 1 l [])) in E. cbn [nth] in E.
    apply (to_be_bytes_inj 8) in E; [done|..]; unfold ity_wf in *; cbn in *; lia.
Qed.

(** What the Rust types of an order guarantee. *)
Definition trigger_typed (t : TriggerKind) : Prop :=
  match t with NoTrigger => True | Untriggered _ px | Activated px => Decimal.wf px end.
Record order_typed (o : RestingOrder) : Prop := {
  typed_id : id_wf (order_id o);
  typed_price : Decimal.wf (price o);
  typed_remaining : Decimal.wf (remaining o);
  typed_original : Decimal.wf (original o);
  typed_account : default True (address_wf <$> account_id o);
  typed_cloid : default True (id_wf <$> client_order_id o);
  typed_trigger : trigger_typed (trigger o);
}.

Lemma parse_dec_to_string d : Decimal.wf d -> parse_dec (Decimal.to_string d) = Ok d.
Proof. intros W. unfold parse_dec. by rewrite decimal_text_spec. Qed.

Lemma trigger_roundtrip t : trigger_typed t -> trigger_into_kind (trigger_from_kind t) = Ok t.
Proof. destruct t; cbn; intros W; [done|..]; by rewrite parse_dec_to_string. Qed.

Lemma order_wire_roundtrip `{HexLaws} o :
  order_typed o -> exists w, from_order o = Ok w /\ into_order w = Ok o.
Proof.
  intros [Ti Tp Tr To Ta Tc Tt]. eexists. split; [reflexivity|].
  unfold into_order, invalid. cbn -[RestingOrder.with_trigger RestingOrder.with_original].
  rewrite Ti, side_wire_roundtrip, !parse_dec_to_string, trigger_roundtrip by done.
  destruct o as [oid sd p q orig sq acct cloid tm trig]; cbn in *.
  destruct acct as [a|]; cbn in *; [rewrite address_roundtrip by done; cbn|];
    (destruct cloid as [c|]; cbn in *; [rewrite Tc; cbn|]); by destruct tm.
Qed.

(** Stored orders round trip: decoding the bytes of a well-typed order
    returns that order, and any bytes that decode are the canonical encoding of
    their record, so no two byte strings hold the same record. *)
Theorem resting_order_roundtrip `{HexLaws} `{JsonLaws RestingWire} o l :
  order_typed o -> encode_resting_order o = Ok l ->
  decode_resting_order l = Ok o /\
  forall l' w, decode_canonical l' = Ok w -> from_order o = Ok w -> l' = l.
Proof.
  intros T E. unfold encode_resting_order in E. destruct (order_wire_roundtrip o T) as (w & F & I).
  rewrite F, bind_of_Ok in E. split.
  - unfold decode_resting_order. by rewrite (canonical_roundtrip _ _ E), bind_of_Ok.
  - intros l' w' D F'. apply canonical_unique in D. rewrite F in F'. injection F' as <-. congruence.
Qed.

(** ** Concrete instances *)

#[global] Instance TriggerWire_eq_dec : EqDecision TriggerWire.
Proof. solve_decision. Defined.
#[global] Instance RestingWire_eq_dec : EqDecision RestingWire.
Proof. solve_decision. Defined.

(** A codec that knows one record. *)
Definition one_json {T} `{EqDecision T} (v0 : T) : Json T := {|
  to_vec v := if decide (v = v0) then Some [x7b; x7d] else None;
  from_slice l := if decide (l = [x7b; x7d]) then Some v0 else None;
|}.
Lemma one_json_laws {T} `{EqDecision T} (v0 : T) : @JsonLaws T (one_json v0).
Proof.
  split; cbn.
  - intros v l. case_decide as E; [|done]. intros [= <-]. by rewrite decide_True, E.
  - intros v. by case_decide.
Qed.

Definition sample_wire : RestingWire :=
  Eval vm_compute in
  mkRestingWire L4_STORE_SCHEMA "a" "buy" "99.90" "5.000" "5.000" 1 None None None WNone.

Lemma store_keys_injective_witness :
  l4_order_key "BTC" "1" = l4_order_key "BTC" "1" <-> "BTC"%string = "BTC"%string /\ "1"%string =
      "1"%string.
Proof.
  apply (store_keys_injective "BTC" "BTC" "1" "1" 7 8);
    [repeat constructor; vm_compute; reflexivity|vm_compute; intuition discriminate..].
Defined.

Lemma resting_order_roundtrip_witness :
  @decode_resting_order sample_hex (one_json sample_wire) [x7b; x7d] =
    Ok (sample_order "a" Buy 9990 5000 1).
Proof.
  apply (@resting_order_roundtrip sample_hex sample_hex_laws (one_json sample_wire)
    (one_json_laws sample_wire) (sample_order "a" Buy 9990 5000 1) [x7b; x7d]);
    [split; vm_compute; intuition discriminate|vm_compute; reflexivity].
Defined.
