(* ===== verification/Reconstruct.v ===== *)
(** * Level-4 reconstruction and checkpoints:
      [crates/orderbook/src/reconstruct.rs] and [checkpoint.rs]

    Committed inputs are identified by an id and a content hash: a repeated
    input is recognised, a different one under the same id is a conflict, and
    only committed inputs reach the book. A checkpoint captures a healthy book
    and restores it through a snapshot, checked by its state hash. *)

From Stdlib Require Import Strings.Byte Strings.String Sorting.Sorted.
From S2P Require Import Prelude Ordering BTreeMap Bytes FixedPoint Ids OrderBook Store.

Definition DEFAULT_MAX_PROVISIONAL : Z := 4096.

Inductive L4Error :=
| Conflict (id : string)
| ProvisionalRefused (what : string)
| L4Unhealthy (reason : string).

Record L4Reconstruction := mkL4 {
  book : OrderBook;
  committed : btmap string Hash;
  provisional : btmap string Hash;
  max_provisional : Z;
}.

Definition set_book b r := mkL4 b (committed r) (provisional r) (max_provisional r).
Definition set_committed c r := mkL4 (book r) c (provisional r) (max_provisional r).
Definition set_provisional p r := mkL4 (book r) (committed r) p (max_provisional r).

Definition l4_awaiting_snapshot_bounded (market : MarketId) (blk : BlockHeight) (max_o max_p : Z)
  : L4Reconstruction :=
  mkL4 (awaiting_snapshot_bounded market blk max_o) [] [] max_p.
Definition l4_awaiting_snapshot (market : MarketId) (blk : BlockHeight) : L4Reconstruction :=
  l4_awaiting_snapshot_bounded market blk DEFAULT_MAX_ORDERS DEFAULT_MAX_PROVISIONAL.
Definition provisional_count (r : L4Reconstruction) : Z := bt_len (provisional r).

Abbreviation l4_op := (st L4Reconstruction L4Error).

Definition already_committed (id : string) (hash : Hash) (r : L4Reconstruction) : result L4Error bool :=
  match bt_get id (committed r) with
  | Some existing => if bool_decide (existing = hash) then Ok true else Err (Conflict id)
  | None => Ok false
  end.

Definition require_healthy (r : L4Reconstruction) : result L4Error unit :=
  match health (book r) with
  | Healthy => Ok tt
  | AwaitingSnapshot reason | Red reason => Err (L4Unhealthy reason)
  end.

(** The rest of both [apply_committed_*]: apply to the book unless the input
    was committed before, then record it if the book is healthy. *)
Definition commit_input (id : string) (hash : Hash) (apply : OrderBook -> OrderBook) : l4_op unit :=
  r ← st_get;
  seen ← st_lift (already_committed id hash r);
  if seen : bool then st_lift (require_healthy r) else
  _ ← st_modify (fun r => set_book (apply (book r)) r);
  r ← st_get;
  _ ← st_lift (require_healthy r);
  st_modify (fun r => set_committed (bt_insert id hash (committed r)) r).

Definition observe_provisional (id : string) (payload_hash : Hash) : l4_op unit :=
  r ← st_get;
  match bt_get id (provisional r) with
  | Some existing =>
      if bool_decide (existing = payload_hash) then mret tt else st_throw (Conflict id)
  | None =>
      if max_provisional r <=? bt_len (provisional r)
      then st_throw (ProvisionalRefused "unmatched provisional bound")
      else st_modify (fun r => set_provisional (bt_insert id payload_hash (provisional r)) r)
  end.

Section hashed.
Context `{Hex} `{Json RestingWire} `{Blake3}.

Definition canonical_order_bytes (o : RestingOrder) : result L4Error bytes :=
  map_err (fun _ => L4Unhealthy "committed input is not canonical") (encode_resting_order o).

Fixpoint orders_bytes (orders : list RestingOrder) : result L4Error bytes :=
  match orders with
  | [] => Ok []
  | o :: orders =>
      l ← canonical_order_bytes o;
      rest ← orders_bytes orders;
      Ok (l ++ rest)
  end.

(** What [snapshot_hash] feeds the hasher. *)
Definition snapshot_material (sq : Z) (blk : BlockHeight) (orders : list RestingOrder)
  : result L4Error bytes :=
  body ← orders_bytes orders;
  Ok (to_be_bytes 8 sq ++ to_be_bytes 8 blk ++ to_be_bytes 8 (zlen orders) ++ body).

Definition snapshot_hash (sq : Z) (blk : BlockHeight) (orders : list RestingOrder)
  : result L4Error Hash :=
  material ← snapshot_material sq blk orders;
  Ok (derive_key_hash L4_INPUT_HASH_CONTEXT material).

Definition diff_material (sq : Z) (blk : BlockHeight) (diff : BookDiff) : result L4Error bytes :=
  body ← match diff with
         | Add order => l ← canonical_order_bytes order; Ok (as_bytes "add" ++ l)
         | Update id q p =>
             Ok (as_bytes "update" ++ as_bytes id ++ as_bytes (Decimal.to_string q) ++
                 as_bytes (Decimal.to_string p))
         | Cancel id => Ok (as_bytes "cancel" ++ as_bytes id)
         | Fill id q => Ok (as_bytes "fill" ++ as_bytes id ++ as_bytes (Decimal.to_string q))
         end;
  Ok (to_be_bytes 8 sq ++ to_be_bytes 8 blk ++ body).

Definition diff_hash (sq : Z) (blk : BlockHeight) (diff : BookDiff) : result L4Error Hash :=
  material ← diff_material sq blk diff; Ok (content_hash material).

Definition apply_committed_snapshot (id : string) (sq : Z) (blk : BlockHeight)
  (orders : list RestingOrder) : l4_op unit :=
  hash ← st_lift (snapshot_hash sq blk orders);
  commit_input id hash (apply_snapshot sq blk orders).

Definition apply_committed_diff (id : string) (sq : Z) (blk : BlockHeight) (diff : BookDiff)
  : l4_op unit :=
  hash ← st_lift (diff_hash sq blk diff);
  commit_input id hash (apply_diff sq blk diff).
End hashed.

(** ** Checkpoints *)

Record L4CheckpointV1 := mkCheckpoint {
  c_market_id : MarketId;
  c_sequence : Z;
  c_as_of_block : BlockHeight;
  c_max_orders : Z;
  c_orders : list RestingOrder;
  c_state_hash : Hash;
}.

Record CheckpointWire := mkCheckpointWire {
  cw_schema : string;
  cw_market_id : string;
  cw_sequence : Z;
  cw_as_of_block : Z;
  cw_max_orders : Z;
  cw_orders : list bytes;
  cw_state_hash : string;
}.

(** [orders.sort_by(|l, r| l.order_id.cmp(r.order_id))]: a stable sort. *)
Fixpoint insert_by_id (o : RestingOrder) (l : list RestingOrder) : list RestingOrder :=
  match l with
  | [] => [o]
  | x :: l' =>
      match cmp (order_id o) (order_id x) with Gt => x :: insert_by_id o l' | _ => o :: l end
  end.
Definition sort_by_id (l : list RestingOrder) : list RestingOrder := foldr insert_by_id [] l.

Section checkpoint.
Context `{Hex} `{Json RestingWire} `{Json CheckpointWire} `{Blake3}.

Fixpoint encode_orders (orders : list RestingOrder) : result L4StoreError (list bytes) :=
  match orders with
  | [] => Ok []
  | o :: orders =>
      l ← encode_resting_order o;
      rest ← encode_orders orders;
      Ok (l :: rest)
  end.

Definition checkpoint_wire (c : L4CheckpointV1) : result L4StoreError CheckpointWire :=
  orders ← encode_orders (c_orders c);
  Ok (mkCheckpointWire L4_CHECKPOINT_SCHEMA (c_market_id c) (c_sequence c) (c_as_of_block c)
        (c_max_orders c) orders (hex_encode (c_state_hash c))).

Definition checkpoint_canonical_bytes (c : L4CheckpointV1) : result L4StoreError bytes :=
  w ← checkpoint_wire c;
  encode_canonical (mkCheckpointWire (cw_schema w) (cw_market_id w) (cw_sequence w)
    (cw_as_of_block w) (cw_max_orders w) (cw_orders w) "").

Definition capture (b : OrderBook) : result L4StoreError L4CheckpointV1 :=
  if negb (bool_decide (health b = Healthy)) then Err Unhealthy else
  let c := mkCheckpoint (market_id b) (book_sequence b) (as_of_block b) (max_orders b)
             (sort_by_id (active_orders b)) (replicate 32 x00) in
  l ← checkpoint_canonical_bytes c;
  Ok (mkCheckpoint (c_market_id c) (c_sequence c) (c_as_of_block c) (c_max_orders c) (c_orders c)
        (state_hash l)).

Definition restore (c : L4CheckpointV1) : result L4StoreError OrderBook :=
  if bool_decide (c_market_id c = EmptyString) then Err InvalidRecord else
  let b := apply_snapshot (c_sequence c) (c_as_of_block c) (c_orders c)
             (awaiting_snapshot_bounded (c_market_id c) (c_as_of_block c) (c_max_orders c)) in
  if negb (bool_decide (health b = Healthy)) then Err Unhealthy else
  restored ← capture b;
  if negb (bool_decide (c_state_hash restored = c_state_hash c)) then Err HashMismatch else Ok b.

Definition checkpoint_encode (c : L4CheckpointV1) : result L4StoreError bytes :=
  w ← checkpoint_wire c;
  l ← encode_canonical w;
  if MAX_RECORD_BYTES <? zlen l then Err LimitExceeded else Ok l.

Fixpoint decode_orders (l : list bytes) : result L4StoreError (list RestingOrder) :=
  match l with
  | [] => Ok []
  | e :: l =>
      o ← decode_resting_order e;
      rest ← decode_orders l;
      Ok (o :: rest)
  end.

Definition checkpoint_decode (l : bytes) : result L4StoreError L4CheckpointV1 :=
  wire ← (decode_canonical l : result L4StoreError CheckpointWire);
  if negb (bool_decide (cw_schema wire = L4_CHECKPOINT_SCHEMA)) then Err InvalidRecord else
  market ← invalid (string_id_new (cw_market_id wire));
  orders ← decode_orders (cw_orders wire);
  hash ← hex_decode_to_slice 32 (cw_state_hash wire) ?? InvalidRecord;
  let c := mkCheckpoint market (cw_sequence wire) (cw_as_of_block wire) (cw_max_orders wire)
             orders hash in
  expected ← checkpoint_canonical_bytes c;
  if negb (bool_decide (state_hash expected = hash)) then Err HashMismatch else Ok c.
End checkpoint.

(** ** Committed inputs *)

Lemma commit_input_Ok id h f r r' :
  commit_input id h f r = (Ok tt, r') ->
  health (book r') = Healthy /\ bt_get id (committed r') = Some h /\
  ((r' = r /\ bt_get id (committed r) = Some h) \/
   (bt_get id (committed r) = None /\
    r' = set_committed (bt_insert id h (committed r)) (set_book (f (book r)) r))).
Proof.
  unfold commit_input. rewrite st_bind_get. unfold already_committed.
  destruct (bt_get id (committed r)) as [h0|] eqn:G.
  - case_bool_decide as E; [|by rewrite st_bind_lift_Err]. rewrite st_bind_lift_Ok.
    unfold st_lift, require_healthy. subst h0.
    destruct (health (book r)) eqn:Hh; intros [= <-]. auto.
  - rewrite st_bind_lift_Ok, st_bind_modify, st_bind_get. unfold require_healthy. cbn [book set_book].
    destruct (health (f (book r))) eqn:Hh; rewrite ?st_bind_lift_Ok, ?st_bind_lift_Err; try done.
    intros [= <-]. cbn. rewrite bt_get_insert_eq. auto.
Qed.

Lemma commit_input_seen id h h' f r :
  bt_get id (committed r) = Some h -> health (book r) = Healthy ->
  commit_input id h' f r = if bool_decide (h = h') then (Ok tt, r) else (Err (Conflict id), r).
Proof.
  intros G Hh. unfold commit_input. rewrite st_bind_get. unfold already_committed. rewrite G.
  case_bool_decide; rewrite ?st_bind_lift_Ok, ?st_bind_lift_Err; [|done].
  unfold st_lift, require_healthy. by rewrite Hh.
Qed.

Lemma commit_input_Err id h f r r' e :
  commit_input id h f r = (Err e, r') ->
  committed r' = committed r /\ provisional r' = provisional r /\
  (r' = r \/ (book r' = f (book r) /\ health (book r') <> Healthy)).
Proof.
  unfold commit_input. rewrite st_bind_get. unfold already_committed.
  destruct (bt_get id (committed r)) as [h0|] eqn:G.
  - case_bool_decide; rewrite ?st_bind_lift_Ok, ?st_bind_lift_Err; [|intros [= _ <-]; auto].
    unfold st_lift. intros [= _ <-]. auto.
  - rewrite st_bind_lift_Ok, st_bind_modify, st_bind_get. unfold require_healthy. cbn [book set_book].
    destruct (health (f (book r))) eqn:Hh; rewrite ?st_bind_lift_Ok, ?st_bind_lift_Err; [done|..];
      intros [= _ <-]; cbn; rewrite Hh; auto.
Qed.

Section committed_inputs.
Context `{Hex} `{Json RestingWire} `{Blake3}.

(** One committed input: a snapshot or a diff at a position. *)
Inductive Input :=
| SnapshotInput (sq : Z) (blk : BlockHeight) (orders : list RestingOrder)
| DiffInput (sq : Z) (blk : BlockHeight) (diff : BookDiff).

Definition input_hash (i : Input) : result L4Error Hash :=
  match i with
  | SnapshotInput sq blk orders => snapshot_hash sq blk orders
  | DiffInput sq blk diff => diff_hash sq blk diff
  end.
Definition input_effect (i : Input) : OrderBook -> OrderBook :=
  match i with
  | SnapshotInput sq blk orders => apply_snapshot sq blk orders
  | DiffInput sq blk diff => apply_diff sq blk diff
  end.
Definition apply_input (id : string) (i : Input) : l4_op unit :=
  match i with
  | SnapshotInput sq blk orders => apply_committed_snapshot id sq blk orders
  | DiffInput sq blk diff => apply_committed_diff id sq blk diff
  end.

Lemma apply_input_eq id i r :
  apply_input id i r =
    match input_hash i with
    | Ok h => commit_input id h (input_effect i) r
    | Err e => (Err e, r)
    end.
Proof.
  destruct i; cbn; unfold apply_committed_snapshot, apply_committed_diff.
  - destruct (snapshot_hash _ _ _); [by rewrite st_bind_lift_Ok|by rewrite st_bind_lift_Err].
  - destruct (diff_hash _ _ _); [by rewrite st_bind_lift_Ok|by rewrite st_bind_lift_Err].
Qed.

(** Committed inputs are applied once. After an input succeeded under an
    id, the book is healthy, repeating the input succeeds and changes nothing,
    and any input with another hash under that id is refused as a conflict and
    changes nothing. *)
Theorem committed_input_applied_once id i r r' :
  apply_input id i r = (Ok tt, r') ->
  health (book r') = Healthy /\
  apply_input id i r' = (Ok tt, r') /\
  forall j hi hj, input_hash i = Ok hi -> input_hash j = Ok hj -> hi <> hj ->
    apply_input id j r' = (Err (Conflict id), r').
Proof.
  rewrite !apply_input_eq. destruct (input_hash i) as [h|e] eqn:Hi; [|done]. intros E.
  destruct (commit_input_Ok _ _ _ _ _ E) as (Hh & G & _). split_and!; [done|..].
  - rewrite (commit_input_seen _ _ _ _ _ G Hh). by rewrite bool_decide_eq_true_2.
  - intros j hi hj [= <-] Hj N. rewrite apply_input_eq, Hj, (commit_input_seen _ _ _ _ _ G Hh).
    by rewrite bool_decide_eq_false_2.
Qed.

(** ** Reachable reconstructions *)

Inductive l4_reachable : L4Reconstruction -> Prop :=
| l4_new market blk max_o max_p :
    0 <= max_o -> 0 <= max_p -> l4_reachable (l4_awaiting_snapshot_bounded market blk max_o max_p)
| l4_input id i r : l4_reachable r -> l4_reachable (apply_input id i r).2
| l4_provisional id h r : l4_reachable r -> l4_reachable (observe_provisional id h r).2.

Definition l4_invariant (r : L4Reconstruction) : Prop :=
  reachable (book r) /\ bt_sorted (committed r) /\ bt_sorted (provisional r) /\
  provisional_count r <= max_provisional r.

Lemma input_effect_reachable i b : reachable b -> reachable (input_effect i b).
Proof. intros R. destruct i; by constructor. Qed.

Lemma commit_input_invariant id h i r :
  l4_invariant r -> l4_invariant (commit_input id h (input_effect i) r).2.
Proof.
  intros (R & C & P & L). destruct (commit_input id h (input_effect i) r) as [[[]|e] r'] eqn:E; cbn.
  - apply commit_input_Ok in E as (_ & _ & [[-> _]|[_ ->]]); [done|].
    split_and!; [by apply input_effect_reachable|by apply bt_insert_sorted|done|done].
  - pose proof (commit_input_Err _ _ _ _ _ _ E) as (_ & _ & [->|[B _]]); [done|].
    unfold commit_input in E. rewrite st_bind_get in E.
    destruct (already_committed id h r) as [[]|];
      rewrite ?st_bind_lift_Ok, ?st_bind_lift_Err in E; try (injection E as _ <-; done).
    rewrite st_bind_modify, st_bind_get in E. destruct (require_healthy _) as [[]|];
      rewrite ?st_bind_lift_Ok, ?st_bind_lift_Err in E; [done|]. injection E as _ <-.
    split_and!; [by apply input_effect_reachable|done..].
Qed.

Lemma observe_provisional_frame id h r :
  book (observe_provisional id h r).2 = book r /\
  committed (observe_provisional id h r).2 = committed r.
Proof.
  unfold observe_provisional. rewrite st_bind_get. destruct (bt_get id (provisional r)).
  - by case_bool_decide.
  - by destruct (_ <=? _).
Qed.

Lemma observe_provisional_invariant id h r :
  l4_invariant r -> l4_invariant (observe_provisional id h r).2.
Proof.
  intros (R & C & P & L). unfold observe_provisional. rewrite st_bind_get.
  destruct (bt_get id (provisional r)) eqn:G; [by case_bool_decide|].
  destruct (Z.leb_spec (max_provisional r) (bt_len (provisional r))); [done|].
  split_and!; cbn; [done..|by apply bt_insert_sorted|].
  unfold provisional_count in *. cbn. rewrite bt_len_insert by done.
  replace (bt_contains id (provisional r)) with false by (symmetry; by apply bt_contains_false). lia.
Qed.

Lemma l4_reachable_invariant r : l4_reachable r -> l4_invariant r.
Proof.
  induction 1 as [market blk max_o max_p O P|id i r R IH|id h r R IH].
  - split_and!; [by constructor|constructor|constructor|done].
  - rewrite apply_input_eq. destruct (input_hash i); [by apply commit_input_invariant|done].
  - by apply observe_provisional_invariant.
Qed.

(** In every reachable reconstruction the book is a reachable order book
    and provisional observations stay within their bound. Observing one never
    changes the book or the committed inputs. A refused input records nothing:
    the state is unchanged, or the book is empty and unhealthy and the id may
    be retried. *)
Theorem reconstruction_fails_closed r :
  l4_reachable r ->
  l4_invariant r /\
  (forall id h, book (observe_provisional id h r).2 = book r /\
     committed (observe_provisional id h r).2 = committed r) /\
  forall id i e r', apply_input id i r = (Err e, r') ->
    committed r' = committed r /\ provisional r' = provisional r /\
    (r' = r \/ health (book r') <> Healthy /\ active_orders (book r') = []).
Proof.
  intros R. pose proof (l4_reachable_invariant r R) as I. split_and!; [done|..].
  - intros. apply observe_provisional_frame.
  - intros id i e r'. rewrite apply_input_eq. destruct (input_hash i) as [h|e'];
      [|intros [= _ <-]; auto].
    intros (C & P & E)%commit_input_Err. split_and!; [done..|].
    destruct E as [->|[B N]]; [by left|right]. split; [done|].
    destruct (reachable_wf (book r')) as [[_ _ _ W] _].
    { rewrite B. apply input_effect_reachable, I. }
    rewrite decide_False in W by done. destruct W as (W1 & W2 & _).
    unfold active_orders. by rewrite W1, W2.
Qed.
End committed_inputs.

(** ** A conflict the content hash misses

    [diff_hash] concatenates id, quantity and price without separators, so for
    every hash function the update of [o] to 12 at price 3 and its update to 1
    at price 23 have one hash. The second, sent under the first one's id, is
    taken for a repetition: it succeeds, changes nothing and is no conflict,
    although applied on its own it gives another book. *)

Definition ambiguous_start : L4Reconstruction :=
  mkL4 (apply_snapshot 1 1
          [RestingOrder.new "o" Buy (Decimal.mk 99 0) (Decimal.mk 20 0) 1]
          (awaiting_snapshot "BTC" 0)) [] [] 8.
Definition update_12_at_3 : BookDiff := Update "o" (Decimal.mk 12 0) (Decimal.mk 3 0).
Definition update_1_at_23 : BookDiff := Update "o" (Decimal.mk 1 0) (Decimal.mk 23 0).

(** Whatever the hash function, the update of [o] to 12 at 3 and its update
    to 1 at 23 are one input to the reconstruction: sent second under the same
    id, the other update succeeds without effect instead of being refused as a
    conflict, though alone it gives another book. *)
Theorem diff_hash_misses_conflict `{Hex} `{Json RestingWire} `{Blake3} :
  exists r',
    apply_committed_diff "x" 2 2 update_12_at_3 ambiguous_start = (Ok tt, r') /\
    apply_committed_diff "x" 2 2 update_1_at_23 r' = (Ok tt, r') /\
    book (apply_committed_diff "x" 2 2 update_1_at_23 ambiguous_start).2 <> book r'.
Proof.
  set (h := derive_key_hash L4_INPUT_HASH_CONTEXT (to_be_bytes 8 2 ++ to_be_bytes 8 2 ++
    as_bytes "updateo123")).
  assert (diff_hash 2 2 update_12_at_3 = Ok h) as E1 by reflexivity.
  assert (diff_hash 2 2 update_1_at_23 = Ok h) as E2 by reflexivity.
  pose proof (apply_input_eq "x" (DiffInput 2 2 update_12_at_3)) as A1.
  pose proof (apply_input_eq "x" (DiffInput 2 2 update_1_at_23)) as A2.
  cbn [apply_input input_hash input_effect] in A1, A2. rewrite E1 in A1. rewrite E2 in A2.
  assert (forall f, health (f (book ambiguous_start)) = Healthy ->
    commit_input "x" h f ambiguous_start =
      (Ok tt, set_committed [("x"%string, h)] (set_book (f (book ambiguous_start))
          ambiguous_start))) as C.
  { intros f Hf. unfold commit_input. rewrite st_bind_get.
    change (already_committed "x" h ambiguous_start) with (@Ok L4Error bool false).
    rewrite st_bind_lift_Ok, st_bind_modify, st_bind_get. unfold require_healthy.
    cbn [book set_book]. by rewrite Hf, st_bind_lift_Ok. }
  eexists. split_and!.
  - rewrite A1. apply C. vm_compute. reflexivity.
  - rewrite A2. erewrite commit_input_seen; [by rewrite bool_decide_eq_true_2|reflexivity|].
    vm_compute. reflexivity.
  - rewrite A2, C by (vm_compute; reflexivity). cbn [snd book set_committed set_book].
    intros E. apply (f_equal (fun b => price <$> best_bid b)) in E. vm_compute in E. discriminate E.
Qed.

(** ** Checkpoints restore the book *)

Lemma insert_by_id_perm o l : insert_by_id o l ≡ₚ o :: l.
Proof.
  induction l as [|x l IH]; cbn; [done|]. destruct (cmp _ _); [done..|].
  rewrite IH. apply Permutation_swap.
Qed.

Lemma sort_by_id_perm l : sort_by_id l ≡ₚ l.
Proof. induction l as [|o l IH]; cbn; [done|]. by rewrite insert_by_id_perm, IH. Qed.

Lemma by_id_lookup b id : index_wf b -> bt_get id (by_id b) = index_of <$> lookup_order b id.
Proof.
  intros W. destruct (lookup_order b id) as [o|] eqn:L.
  - by apply lookup_order_Some in L as [-> _].
  - by apply lookup_order_None in L.
Qed.

(** The maps of a consistent book are determined by its abstract value. *)
Lemma book_maps_ext b1 b2 :
  index_wf b1 -> index_wf b2 -> (forall id, lookup_order b1 id = lookup_order b2 id) ->
  bids b1 = bids b2 /\ asks b1 = asks b2 /\ by_id b1 = by_id b2.
Proof.
  intros W1 W2 L. split_and!.
  - apply bt_sorted_elem_eq; [apply W1|apply W2|]. intros [k o]. split; intros I.
    + destruct (bids_elem _ _ _ W1 I) as (-> & Sd & Lo). rewrite L in Lo.
      apply lookup_side in Lo; [|done]. by rewrite Sd in Lo.
    + destruct (bids_elem _ _ _ W2 I) as (-> & Sd & Lo). rewrite <- L in Lo.
      apply lookup_side in Lo; [|done]. by rewrite Sd in Lo.
  - apply bt_sorted_elem_eq; [apply W1|apply W2|]. intros [k o]. split; intros I.
    + destruct (asks_elem _ _ _ W1 I) as (-> & Sd & Lo). rewrite L in Lo.
      apply lookup_side in Lo; [|done]. by rewrite Sd in Lo.
    + destruct (asks_elem _ _ _ W2 I) as (-> & Sd & Lo). rewrite <- L in Lo.
      apply lookup_side in Lo; [|done]. by rewrite Sd in Lo.
  - apply bt_ext; [apply W1|apply W2|]. intros id. by rewrite !by_id_lookup, L.
Qed.

Lemma active_ids_NoDup b : index_wf b -> NoDup (order_id <$> active_orders b).
Proof.
  intros W. apply NoDup_fmap_2_strong.
  - intros x y Ix Iy E. apply active_orders_lookup in Ix, Iy; [|done..]. congruence.
  - unfold active_orders, bt_values. apply NoDup_app. split_and!.
    + apply NoDup_fmap_2_strong; [|by apply bt_sorted_NoDup, bids_ok].
      intros [k x] [k' y] Ix Iy. cbn. intros <-.
      by destruct (bids_elem _ _ _ W Ix) as (-> & _), (bids_elem _ _ _ W Iy) as (-> & _).
    + intros o Ib Ia. apply list_elem_of_fmap in Ib as ([k x] & -> & Ib).
      apply list_elem_of_fmap in Ia as ([k' y] & E & Ia). cbn in E. subst y.
      destruct (bids_elem _ _ _ W Ib) as (_ & S1 & _), (asks_elem _ _ _ W Ia) as (_ & S2 & _).
      congruence.
    + apply NoDup_fmap_2_strong; [|by apply bt_sorted_NoDup, asks_ok].
      intros [k x] [k' y] Ix Iy. cbn. intros <-.
      by destruct (asks_elem _ _ _ W Ix) as (-> & _), (asks_elem _ _ _ W Iy) as (-> & _).
Qed.

Lemma active_orders_len b : index_wf b -> zlen (active_orders b) = active_order_count b.
Proof.
  intros W. unfold active_orders, active_order_count, bt_values. rewrite (index_len _ W), zlen_app.
  unfold bt_len, zlen. by rewrite !length_fmap.
Qed.

(** Loading a healthy book's own orders, in any order, gives the book back. *)
Lemma snapshot_of_book b orders b0 :
  book_wf b -> health b = Healthy -> orders ≡ₚ active_orders b ->
  market_id b0 = market_id b -> max_orders b0 = max_orders b ->
  apply_snapshot (book_sequence b) (as_of_block b) orders b0 = set_lifecycle [] b.
Proof.
  intros [W P B H] Hh Pm Em Ex. rewrite decide_True in H by done.
  assert (zlen orders = active_order_count b) as Lo.
  { rewrite <- active_orders_len by done. unfold zlen. by rewrite Pm. }
  unfold bounded in B. pose proof (zlen_nonneg orders) as N.
  unfold apply_snapshot. set (c := set_health Healthy _).
  change (max_orders c) with (max_orders b0). rewrite Ex.
  destruct (Z.ltb_spec (max_orders b) (zlen orders)); [lia|].
  assert (index_wf c) as Wc by by apply cleared_index.
  assert (active_order_count c = 0 /\ max_orders c = max_orders b) as [Ac Mc] by done.
  assert (bounded c) as Bc by (unfold bounded; lia).
  assert ((insert_all orders c).1 = Ok tt) as O.
  { apply insert_all_iff; [done..|]. split_and!.
    - rewrite Pm. apply Forall_forall. intros o L%active_orders_lookup; [|done]. by eapply P.
    - rewrite Pm. by apply active_ids_NoDup.
    - by apply Forall_forall.
    - lia. }
  destruct (insert_all_lookup orders c Wc Bc O) as (W1 & _ & L1).
  destruct (insert_all_position orders c Wc) as [(Q1 & Q2 & Q3 & Q4 & Q5) Y].
  destruct (insert_all orders c) as [r1 b1]. cbn [fst snd] in *. subst r1.
  assert (forall id, lookup_order b1 id = lookup_order b id) as L.
  { intros id. apply option_eq. intros o. rewrite L1, Pm, active_orders_lookup by done. split.
    - intros [[Lo' <-]|]; done.
    - intros Lo'. left. by destruct (lookup_order_Some _ _ _ W Lo') as [_ <-]. }
  destruct (book_maps_ext b1 b W1 W L) as (Eb & Ea & Ei).
  assert (b1 = set_lifecycle [] b) as ->.
  { destruct b1, b. unfold set_lifecycle in *. cbn in *. by subst. }
  unfold settle. change (assert_invariants (set_lifecycle [] b)) with (assert_invariants b).
  by rewrite H.
Qed.

Section restore.
Context `{Hex} `{Json RestingWire} `{Json CheckpointWire} `{Blake3}.

(** Restoring a checkpoint of a reachable healthy book succeeds, for every
    hash function, and gives back that book with its orders, keys, index,
    position and bound; only the lifecycle history is dropped. *)
Theorem checkpoint_restores_book b c :
  reachable b -> market_id b <> EmptyString ->
  capture b = Ok c -> restore c = Ok (set_lifecycle [] b).
Proof.
  intros [W _]%reachable_wf M E. pose proof E as E'. unfold capture in E. cbv zeta in E. inv_ok.
  bool_to_prop. unfold restore. cbn [c_market_id c_sequence c_as_of_block c_max_orders c_orders].
  rewrite bool_decide_eq_false_2 by done. cbv zeta.
  rewrite (snapshot_of_book b) by (done || apply sort_by_id_perm).
  rewrite bool_decide_eq_true_2 by done. cbn [negb].
  change (capture (set_lifecycle [] b)) with (capture b). rewrite E', bind_of_Ok.
  by rewrite bool_decide_eq_true_2.
Qed.
End restore.

(** ** Concrete instances *)

#[global] Instance CheckpointWire_eq_dec : EqDecision CheckpointWire.
Proof. solve_decision. Defined.

Definition one_book : OrderBook :=
  apply_snapshot 7 100 [sample_order "a" Buy 9990 5000 1] sample_new.
Definition one_checkpoint_wire : CheckpointWire :=
  mkCheckpointWire L4_CHECKPOINT_SCHEMA "BTC" 7 100 8 [[x7b; x7d]] "".
Definition sample_input : Input := SnapshotInput 7 100 [sample_order "a" Buy 9990 5000 1].
Definition sample_l4 : L4Reconstruction := l4_awaiting_snapshot_bounded "BTC" 90 8 2.
Definition sample_apply : string -> Input -> st L4Reconstruction L4Error unit :=
  @apply_input sample_hex (one_json sample_wire) sample_blake3.

Lemma committed_input_applied_once_witness :
  exists r', sample_apply "s1" sample_input sample_l4 = (Ok tt, r') /\
    sample_apply "s1" sample_input r' = (Ok tt, r').
Proof.
  destruct (sample_apply "s1" sample_input sample_l4) as [o r'] eqn:E.
  assert (o = Ok tt) as ->.
  { apply (f_equal fst) in E. cbn [fst] in E. rewrite <- E. vm_compute. reflexivity. }
  exists r'. split; [reflexivity|].
  apply (@committed_input_applied_once sample_hex (one_json sample_wire) sample_blake3
    "s1" sample_input sample_l4 r' E).
Defined.

Lemma reconstruction_fails_closed_witness :
  @l4_invariant (sample_apply "s1" sample_input sample_l4).2 /\
  health (book (sample_apply "s1" sample_input sample_l4).2) = Healthy.
Proof.
  split; [|vm_compute; reflexivity].
  apply (@reconstruction_fails_closed sample_hex (one_json sample_wire) sample_blake3).
  apply l4_input, l4_new; vm_compute; discriminate.
Defined.

Lemma checkpoint_restores_book_witness :
  exists c, @capture sample_hex (one_json sample_wire) (one_json one_checkpoint_wire) sample_blake3
      one_book = Ok c /\
    @restore sample_hex (one_json sample_wire) (one_json one_checkpoint_wire) sample_blake3 c =
      Ok (set_lifecycle [] one_book).
Proof.
  destruct (@capture sample_hex (one_json sample_wire) (one_json one_checkpoint_wire) sample_blake3
    one_book) as [c|e] eqn:E.
  - exists c. split; [reflexivity|].
    apply (@checkpoint_restores_book sample_hex (one_json sample_wire)
      (one_json one_checkpoint_wire) sample_blake3 one_book c);
      [apply reach_snapshot, sample_new_reachable|vm_compute; discriminate|exact E].
  - exfalso. apply (f_equal is_ok) in E. vm_compute in E. discriminate E.
Defined.
