(* ===== verification/Trust.v ===== *)
(** * Source trust: [crates/hl-protocol/src/trust.rs]

    What a source may contribute is decided once, from its configured trust
    and the class of what it observes: the publication lane of an admission is
    derived, never supplied. *)

From S2P Require Import Prelude.

Inductive SourceTrust :=
| LocallyVerifiedCommitted
| IndependentCommitted
| ReconciledSnapshotTrust
| RecoveryOnly
| ThirdPartyProvisional
| MempoolProvisional.

Inductive ObservationClass :=
| CommittedBlock
| AuxiliaryOrderStatus
| AuxiliaryBookDiff
| AuxiliaryLedger
| Snapshot
| HistoricalBlock
| PublicMarketData
| ProvisionalFeed
| ProvisionalMempool.

Inductive PublicationLane :=
| CommittedCandidate
| Reconciliation
| Recovery
| Provisional
| Mempool.

Inductive SourceTrustError := IncompatibleObservationClass.

Record SourceAdmission := mkAdmission {
  trust : SourceTrust;
  observation_class : ObservationClass;
  publication_lane : PublicationLane;
}.

Module SourceAdmission.
Definition lane_of (t : SourceTrust) (c : ObservationClass) : result SourceTrustError PublicationLane :=
  match t with
  | LocallyVerifiedCommitted | IndependentCommitted =>
      match c with
      | CommittedBlock => Ok CommittedCandidate
      | AuxiliaryOrderStatus | AuxiliaryBookDiff | AuxiliaryLedger => Ok Reconciliation
      | _ => Err IncompatibleObservationClass
      end
  | ReconciledSnapshotTrust =>
      match c with Snapshot => Ok Reconciliation | _ => Err IncompatibleObservationClass end
  | RecoveryOnly =>
      match c with HistoricalBlock => Ok Recovery | _ => Err IncompatibleObservationClass end
  | ThirdPartyProvisional =>
      match c with
      | PublicMarketData | ProvisionalFeed => Ok Provisional
      | _ => Err IncompatibleObservationClass
      end
  | MempoolProvisional =>
      match c with ProvisionalMempool => Ok Mempool | _ => Err IncompatibleObservationClass end
  end.

Definition new (t : SourceTrust) (c : ObservationClass) : result SourceTrustError SourceAdmission :=
  lane ← lane_of t c; Ok (mkAdmission t c lane).

Definition can_advance_committed_watermark (a : SourceAdmission) : bool :=
  match publication_lane a with CommittedCandidate => true | _ => false end.
End SourceAdmission.
