(* ===== verification/Blocks.v ===== *)
(** * Canonical events and blocks:
      [canonical-events/src/event_id.rs], [lib.rs] (event envelope and evidence)
      and [block.rs]

    A block groups the canonical events of one height. Its constructor checks
    their identity and order, and its hash covers their canonical content but
    not the source evidence, so that evidence from several sources can be
    merged into one block. The typed event payload, a sum of some sixty
    record types, enters only through its kind and its equality and is a type
    parameter here. *)

From Stdlib Require Import Strings.Byte Strings.String Sorting.Sorted.
From S2P Require Import Prelude Ordering Sorting BTreeMap Bytes FixedPoint Ids.

Definition ChainId := string.
Definition SourceId := string.
Definition EventId := string.
Definition TransactionId := string.
Definition ProtocolTime := Z.
Definition KnownTime := Z.

Definition EVENT_ID_CONTEXT : string := "hyperliquid-alpha-desk/event-id/v1".
Definition BLOCK_HASH_CONTEXT : string := "hyperliquid-alpha-desk/canonical-block/v1".
Definition SCHEMA_MAJOR : Z := 1.

Inductive ConfirmationClass :=
| ProvisionalSource | CommittedPrimary | CommittedIndependent | ReconciledSnapshot | Corrected
| Expired.
#[global] Instance ConfirmationClass_eq_dec : EqDecision ConfirmationClass.
Proof. solve_decision. Defined.

Inductive EventKind :=
| OrderAccepted | OrderRested | OrderModified | OrderPartiallyFilled | OrderFilled
| OrderCancelled | OrderRejected | TriggerOrderActivated | TwapStarted | TwapSliceFilled
| TwapCompleted | TradeMatched | DepositCredited | WithdrawalDebited | SpotTransfer
| PerpTransfer | SubaccountTransfer | VaultDeposit | VaultWithdrawal | FeeCharged
| BuilderFeeCharged | FundingPaid | FundingReceived | ReferralReward | AccountModeChanged
| MarginModeChanged | LeverageChanged | LiquidationStarted | LiquidationFill
| BackstopLiquidation | PositionSettled | MarketHalted | MarketResumed | OpenInterestCapChanged
| MarginTableChanged | MarketCreated | MarketMetadataChanged | OracleUpdated
| FundingRateUpdated | AssetContextUpdated | DexCreated | OutcomeCreated | OutcomeResolved
| NonUserOrderCancelled | InternalTransfer | AccountClassTransfer | VaultCreated
| VaultDistribution | VaultLeaderCommissionPaid | RewardClaimed | SpotGenesisApplied
| StakingDeposit | StakingDelegated | StakingUndelegated | StakingWithdrawalQueued
| StakingWithdrawalCompleted | ValidatorRewardPaid.

Definition as_wire_name (k : EventKind) : string :=
  match k with
  | OrderAccepted => "OrderAccepted" | OrderRested => "OrderRested"
  | OrderModified => "OrderModified" | OrderPartiallyFilled => "OrderPartiallyFilled"
  | OrderFilled => "OrderFilled" | OrderCancelled => "OrderCancelled"
  | OrderRejected => "OrderRejected" | TriggerOrderActivated => "TriggerOrderActivated"
  | TwapStarted => "TwapStarted" | TwapSliceFilled => "TwapSliceFilled"
  | TwapCompleted => "TwapCompleted" | TradeMatched => "TradeMatched"
  | DepositCredited => "DepositCredited" | WithdrawalDebited => "WithdrawalDebited"
  | SpotTransfer => "SpotTransfer" | PerpTransfer => "PerpTransfer"
  | SubaccountTransfer => "SubaccountTransfer" | VaultDeposit => "VaultDeposit"
  | VaultWithdrawal => "VaultWithdrawal" | FeeCharged => "FeeCharged"
  | BuilderFeeCharged => "BuilderFeeCharged" | FundingPaid => "FundingPaid"
  | FundingReceived => "FundingReceived" | ReferralReward => "ReferralReward"
  | AccountModeChanged => "AccountModeChanged" | MarginModeChanged => "MarginModeChanged"
  | LeverageChanged => "LeverageChanged" | LiquidationStarted => "LiquidationStarted"
  | LiquidationFill => "LiquidationFill" | BackstopLiquidation => "BackstopLiquidation"
  | PositionSettled => "PositionSettled" | MarketHalted => "MarketHalted"
  | MarketResumed => "MarketResumed" | OpenInterestCapChanged => "OpenInterestCapChanged"
  | MarginTableChanged => "MarginTableChanged" | MarketCreated => "MarketCreated"
  | MarketMetadataChanged => "MarketMetadataChanged" | OracleUpdated => "OracleUpdated"
  | FundingRateUpdated => "FundingRateUpdated" | AssetContextUpdated => "AssetContextUpdated"
  | DexCreated => "DexCreated" | OutcomeCreated => "OutcomeCreated"
  | OutcomeResolved => "OutcomeResolved" | NonUserOrderCancelled => "NonUserOrderCancelled"
  | InternalTransfer => "InternalTransfer" | AccountClassTransfer => "AccountClassTransfer"
  | VaultCreated => "VaultCreated" | VaultDistribution => "VaultDistribution"
  | VaultLeaderCommissionPaid => "VaultLeaderCommissionPaid" | RewardClaimed => "RewardClaimed"
  | SpotGenesisApplied => "SpotGenesisApplied" | StakingDeposit => "StakingDeposit"
  | StakingDelegated => "StakingDelegated" | StakingUndelegated => "StakingUndelegated"
  | StakingWithdrawalQueued => "StakingWithdrawalQueued"
  | StakingWithdrawalCompleted => "StakingWithdrawalCompleted"
  | ValidatorRewardPaid => "ValidatorRewardPaid"
  end.

(** The typed payload: what the envelope and the block use of it. *)
Class EventPayload (P : Type) := {
  payload_kind : P -> EventKind;
  payload_eq_dec :: EqDecision P;
}.

(** ** Source evidence *)

Record SourceEvidence := mkEvidence {
  source_id : SourceId;
  source_version : string;
  source_offset : string;
  content_hash : Hash;
  source_event_index : option Z;
}.
#[global] Instance SourceEvidence_eq_dec : EqDecision SourceEvidence.
Proof. solve_decision. Defined.

Inductive EvidenceMergeError :=
| CanonicalContentMismatch
| SourceEvidenceConflict (source : SourceId) (existing_hash conflicting_hash : Hash).

Definition same_evidence_locator (l r : SourceEvidence) : bool :=
  bool_decide (source_id l = source_id r) && bool_decide (source_version l = source_version r) &&
  bool_decide (source_offset l = source_offset r) &&
  bool_decide (source_event_index l = source_event_index r).

(** [Option<u32>::cmp]: [None] is smallest. *)
#[global] Instance option_Ord {A} `{Ord A} : Ord (option A) := fun x y =>
  match x, y with
  | None, None => Eq
  | None, Some _ => Lt
  | Some _, None => Gt
  | Some a, Some b => cmp a b
  end.

(** [compare_source_evidence]: the fields in turn. *)
Definition evidence_key (e : SourceEvidence) : string * string * string * option Z * bytes :=
  (source_id e, source_version e, source_offset e, source_event_index e, content_hash e).
#[global] Instance SourceEvidence_Ord : Ord SourceEvidence := pull_cmp evidence_key.

(** ** Event envelopes *)

Record CanonicalEventEnvelope {P : Type} := mkEvent {
  schema_version : string;
  ev_chain_id : ChainId;
  ev_block_height : BlockHeight;
  ev_block_time : ProtocolTime;
  transaction_id : TransactionId;
  transaction_index : Z;
  event_index : Z;
  event_id : EventId;
  market_ids : list MarketId;
  account_ids : list Address;
  source_evidence : list SourceEvidence;
  ev_confirmation_class : ConfirmationClass;
  observed_at : KnownTime;
  ingested_at : KnownTime;
  canonicalized_at : KnownTime;
  payload_hash : Hash;
  parser_version : string;
  payload : P;
  encoded_payload : bytes;
  superseded_event_id : option EventId;
}.
Arguments CanonicalEventEnvelope P : clear implicits.

Definition set_source_evidence {P} (l : list SourceEvidence) (e : CanonicalEventEnvelope P)
  : CanonicalEventEnvelope P :=
  mkEvent P (schema_version e) (ev_chain_id e) (ev_block_height e) (ev_block_time e)
    (transaction_id e) (transaction_index e) (event_index e) (event_id e) (market_ids e)
    (account_ids e) l (ev_confirmation_class e) (observed_at e) (ingested_at e)
    (canonicalized_at e) (payload_hash e) (parser_version e) (payload e) (encoded_payload e)
    (superseded_event_id e).

(** [hash_bytes]: a [u64] length prefix and the bytes. *)
Definition hash_bytes (l : bytes) : bytes := frame 8 l.

(** ** Identity and content *)

Section events.
Context {P : Type} `{EventPayload P} `{Hex} `{Blake3}.

Definition event_id_material (chain : ChainId) (height : BlockHeight) (tx : TransactionId)
  (index : Z) (kind : EventKind) (major : Z) : bytes :=
  hash_bytes (as_bytes chain) ++ to_be_bytes 8 height ++ hash_bytes (as_bytes tx) ++
  to_be_bytes 4 index ++ hash_bytes (as_bytes (as_wire_name kind)) ++ to_be_bytes 8 major.

Definition compute_event_id (chain : ChainId) (height : BlockHeight) (tx : TransactionId)
  (index : Z) (kind : EventKind) (major : Z) : EventId :=
  "evt_" +:+ hex_encode (derive_key_hash EVENT_ID_CONTEXT
                           (event_id_material chain height tx index kind major)).

Definition event_kind (e : CanonicalEventEnvelope P) : EventKind := payload_kind (payload e).

Definition expected_event_id (e : CanonicalEventEnvelope P) : EventId :=
  compute_event_id (ev_chain_id e) (ev_block_height e) (transaction_id e) (event_index e)
    (event_kind e) SCHEMA_MAJOR.

Definition has_same_canonical_content (l r : CanonicalEventEnvelope P) : bool :=
  bool_decide (schema_version l = schema_version r) && bool_decide (ev_chain_id l = ev_chain_id r) &&
  (ev_block_height l =? ev_block_height r) && (ev_block_time l =? ev_block_time r) &&
  bool_decide (transaction_id l = transaction_id r) &&
  (transaction_index l =? transaction_index r) && (event_index l =? event_index r) &&
  bool_decide (event_id l = event_id r) && bool_decide (market_ids l = market_ids r) &&
  bool_decide (account_ids l = account_ids r) && bool_decide (payload_hash l = payload_hash r) &&
  bool_decide (payload l = payload r) && bool_decide (encoded_payload l = encoded_payload r) &&
  bool_decide (superseded_event_id l = superseded_event_id r).

(** The nested search for a locator with two contents, in loop order. *)
Fixpoint evidence_conflict_with (existing : SourceEvidence) (others : list SourceEvidence)
  : option EvidenceMergeError :=
  match others with
  | [] => None
  | c :: others =>
      if same_evidence_locator existing c && negb (bool_decide (content_hash existing = content_hash c))
      then Some (SourceEvidenceConflict (source_id existing) (content_hash existing) (content_hash c))
      else evidence_conflict_with existing others
  end.

Fixpoint evidence_conflict (existing others : list SourceEvidence) : option EvidenceMergeError :=
  match existing with
  | [] => None
  | e :: existing =>
      match evidence_conflict_with e others with
      | Some err => Some err
      | None => evidence_conflict existing others
      end
  end.

Definition merge_matching_source_evidence (self other : CanonicalEventEnvelope P)
  : result EvidenceMergeError (CanonicalEventEnvelope P) :=
  if negb (has_same_canonical_content self other) then Err CanonicalContentMismatch else
  match evidence_conflict (source_evidence self) (source_evidence other) with
  | Some err => Err err
  | None =>
      Ok (set_source_evidence (dedup (sort (source_evidence self ++ source_evidence other))) self)
  end.
End events.

(** ** Blocks *)

Inductive BlockError :=
| MissingSourceBlockHashes
| MixedChain
| MixedHeight
| MixedTime
| MixedConfirmation
| DuplicateEventId (id : EventId)
| InvalidEventId (actual expected : EventId)
| InvalidEventOrder (reason : string).

Record BlockEnvelope {P : Type} := mkBlock {
  chain_id : ChainId;
  block_height : BlockHeight;
  block_time : ProtocolTime;
  confirmation_class : ConfirmationClass;
  events : list (CanonicalEventEnvelope P);
  source_block_hashes : btmap SourceId Hash;
  canonical_block_hash : Hash;
}.
Arguments BlockEnvelope P : clear implicits.

Section blocks.
Context {P : Type} `{EventPayload P} `{Hex} `{Blake3}.

(** The position of the previous event: transaction index, event index and
    transaction identity. *)
Definition position (e : CanonicalEventEnvelope P) : Z * Z * TransactionId :=
  (transaction_index e, event_index e, transaction_id e).

Definition validate_order (previous : option (Z * Z * TransactionId)) (e : CanonicalEventEnvelope P)
  : result BlockError unit :=
  match previous with
  | None =>
      if event_index e =? 0 then Ok tt
      else Err (InvalidEventOrder "the first canonical event in a transaction must have index zero")
  | Some (previous_transaction, previous_event, previous_identity) =>
      match Z.compare (transaction_index e) previous_transaction with
      | Lt => Err (InvalidEventOrder "transaction index regressed")
      | Eq =>
          if negb (bool_decide (transaction_id e = previous_identity))
          then Err (InvalidEventOrder "one transaction index contains multiple transaction identities")
          else if bool_decide (int_add U32 previous_event 1 = Some (event_index e)) then Ok tt
          else Err (InvalidEventOrder
                      "canonical event indices are not contiguous within a transaction")
      | Gt =>
          if event_index e =? 0 then Ok tt
          else Err (InvalidEventOrder "a new transaction must begin with canonical event index zero")
      end
  end.

(** The loop of [validate_events], from the ids seen and the previous position. *)
Fixpoint validate_from (seen : list EventId) (previous : option (Z * Z * TransactionId))
  (chain : ChainId) (height : BlockHeight) (time : ProtocolTime) (conf : ConfirmationClass)
  (l : list (CanonicalEventEnvelope P)) : result BlockError unit :=
  match l with
  | [] => Ok tt
  | e :: l =>
      if negb (bool_decide (ev_chain_id e = chain)) then Err MixedChain else
      if negb (ev_block_height e =? height) then Err MixedHeight else
      if negb (ev_block_time e =? time) then Err MixedTime else
      if negb (bool_decide (ev_confirmation_class e = conf)) then Err MixedConfirmation else
      if bool_decide (event_id e ∈ seen) then Err (DuplicateEventId (event_id e)) else
      if negb (bool_decide (event_id e = expected_event_id e))
      then Err (InvalidEventId (event_id e) (expected_event_id e)) else
      _ ← validate_order previous e;
      validate_from (event_id e :: seen) (Some (position e)) chain height time conf l
  end.

Definition validate_events (l : list (CanonicalEventEnvelope P)) (chain : ChainId)
  (height : BlockHeight) (time : ProtocolTime) (conf : ConfirmationClass) : result BlockError unit :=
  validate_from [] None chain height time conf l.

(** ** The bytes a block hash covers *)

Definition hash_count (n : Z) : bytes := to_be_bytes 8 n.

Fixpoint hash_list (l : list bytes) : bytes :=
  match l with [] => [] | x :: l => hash_bytes x ++ hash_list l end.

Definition event_material (e : CanonicalEventEnvelope P) : bytes :=
  to_be_bytes 4 (transaction_index e) ++ to_be_bytes 4 (event_index e) ++
  hash_bytes (as_bytes (event_id e)) ++ hash_bytes (as_bytes (as_wire_name (event_kind e))) ++
  hash_bytes (as_bytes (schema_version e)) ++
  hash_count (zlen (market_ids e)) ++ hash_list (as_bytes <$> market_ids e) ++
  hash_count (zlen (account_ids e)) ++ hash_list (account_ids e) ++
  payload_hash e.

Fixpoint events_material (l : list (CanonicalEventEnvelope P)) : bytes :=
  match l with [] => [] | e :: l => event_material e ++ events_material l end.

Definition block_material (chain : ChainId) (height : BlockHeight) (time : ProtocolTime)
  (l : list (CanonicalEventEnvelope P)) : bytes :=
  hash_bytes (as_bytes chain) ++ to_be_bytes 8 height ++ to_be_bytes 8 time ++
  to_be_bytes 8 (zlen l) ++ events_material l.

Definition compute_block_hash (chain : ChainId) (height : BlockHeight) (time : ProtocolTime)
  (l : list (CanonicalEventEnvelope P)) : Hash :=
  derive_key_hash BLOCK_HASH_CONTEXT (block_material chain height time l).

Definition block_try_new (chain : ChainId) (height : BlockHeight) (time : ProtocolTime)
  (conf : ConfirmationClass) (l : list (CanonicalEventEnvelope P)) (sources : btmap SourceId Hash)
  : result BlockError (BlockEnvelope P) :=
  if is_empty sources then Err MissingSourceBlockHashes else
  _ ← validate_events l chain height time conf;
  Ok (mkBlock P chain height time conf l sources (compute_block_hash chain height time l)).

(** ** What a valid block is *)

(** The events follow each other: indices count up from zero within each
    transaction, transactions have one identity and increase. *)
Fixpoint follows (previous : option (Z * Z * TransactionId)) (l : list (CanonicalEventEnvelope P))
  : Prop :=
  match l with
  | [] => True
  | e :: l =>
      match previous with
      | None => event_index e = 0
      | Some (t, i, x) =>
          (t < transaction_index e /\ event_index e = 0) \/
          (transaction_index e = t /\ transaction_id e = x /\ event_index e = i + 1)
      end /\ follows (Some (position e)) l
  end.

Record events_valid (chain : ChainId) (height : BlockHeight) (time : ProtocolTime)
  (conf : ConfirmationClass) (l : list (CanonicalEventEnvelope P)) : Prop := {
  valid_members : forall e, e ∈ l ->
    ev_chain_id e = chain /\ ev_block_height e = height /\ ev_block_time e = time /\
    ev_confirmation_class e = conf /\ event_id e = expected_event_id e;
  valid_ids : NoDup (event_id <$> l);
  valid_order : follows None l;
}.

Definition event_typed (e : CanonicalEventEnvelope P) : Prop :=
  ity_wf U32 (transaction_index e) /\ ity_wf U32 (event_index e).
End blocks.

(** ** Theorems *)

Section block_theory.
Context {P : Type} `{EventPayload P} `{Hex} `{Blake3}.
Implicit Types (e : CanonicalEventEnvelope P) (l : list (CanonicalEventEnvelope P)).

Definition previous_typed (previous : option (Z * Z * TransactionId)) : Prop :=
  match previous with Some (_, i, _) => 0 <= i | None => True end.

Lemma validate_order_Ok previous e :
  previous_typed previous -> event_typed e ->
  validate_order previous e = Ok tt <->
  match previous with
  | None => event_index e = 0
  | Some (t, i, x) =>
      (t < transaction_index e /\ event_index e = 0) \/
      (transaction_index e = t /\ transaction_id e = x /\ event_index e = i + 1)
  end.
Proof.
  intros Tp [_ Te]. unfold validate_order. destruct previous as [[[t i] x]|].
  - assert (int_add U32 i 1 = Some (event_index e) <-> event_index e = i + 1) as A.
    { unfold int_add. rewrite int_try_Some. unfold previous_typed, ity_wf in *. cbn in *. split; lia. }
    destruct (Z.compare_spec (transaction_index e) t) as [E|L|L].
    + case_bool_decide as X; cbn [negb]; [|split; [done|intros [[? ?]|(? & ? & ?)]; [lia|done]]].
      case_bool_decide as Y; rewrite A in Y; split; try done; try (intros; right; done).
      intros [[? ?]|(? & ? & ?)]; [lia|done].
    + split; [done|]. intros [[? ?]|(? & ? & ?)]; lia.
    + destruct (Z.eqb_spec (event_index e) 0); split; try done; try (intros; left; lia).
      intros [[? ?]|(? & ? & ?)]; [done|lia].
  - destruct (Z.eqb_spec (event_index e) 0); split; done.
Qed.

Lemma validate_from_Ok seen previous chain height time conf l :
  previous_typed previous -> Forall event_typed l ->
  validate_from seen previous chain height time conf l = Ok tt <->
  (forall e, e ∈ l ->
     ev_chain_id e = chain /\ ev_block_height e = height /\ ev_block_time e = time /\
     ev_confirmation_class e = conf /\ event_id e = expected_event_id e) /\
  NoDup (event_id <$> l) /\ (forall e, e ∈ l -> event_id e ∉ seen) /\ follows previous l.
Proof.
  revert seen previous. induction l as [|e l IH]; intros seen previous Tp Tl.
  - cbn. split; [intros _|done]. split_and!; [|apply NoDup_nil_2| |done];
      intros e I; by apply not_elem_of_nil in I.
  - apply Forall_cons in Tl as [Te Tl]. cbn [validate_from follows fmap list_fmap].
    rewrite <- (validate_order_Ok _ _ Tp Te), NoDup_cons.
    setoid_rewrite elem_of_cons. rewrite list_elem_of_fmap.
    assert (previous_typed (Some (position e))) as Tp' by (destruct Te as [_ [Te _]]; exact Te).
    pose proof (IH (event_id e :: seen) _ Tp' Tl) as I. clear IH. setoid_rewrite elem_of_cons in I.
    repeat case_bool_decide; cbn [negb];
      repeat match goal with |- context [?x =? ?y] => destruct (Z.eqb_spec x y) end; cbn [negb];
      destruct (validate_order previous e) as [[]|]; cbn;
      rewrite ?I; clear I; naive_solver.
Qed.

Lemma validate_events_Ok l chain height time conf :
  Forall event_typed l ->
  validate_events l chain height time conf = Ok tt <-> events_valid chain height time conf l.
Proof.
  intros T. unfold validate_events. rewrite validate_from_Ok by done. split.
  - intros (M & N & _ & F). by split.
  - intros [M N F]. split_and!; [done..| |done]. intros e _. apply not_elem_of_nil.
Qed.

(** *** Order of the events *)

Definition before (x y : CanonicalEventEnvelope P) : Prop :=
  transaction_index x < transaction_index y \/
  (transaction_index x = transaction_index y /\ transaction_id x = transaction_id y /\
   event_index x < event_index y).

Lemma before_trans x y z : before x y -> before y z -> before x z.
Proof. unfold before. intros [?|(? & ? & ?)] [?|(? & ? & ?)]; [left; lia..|right; intuition
    congruence || lia]. Qed.

Lemma follows_before e l : follows (Some (position e)) l -> Forall (before e) l.
Proof.
  revert e. induction l as [|x l IH]; intros e F; [constructor|]. destruct F as [F1 F2].
  assert (before e x) as B.
  { unfold before. cbn in F1. destruct F1 as [[? ?]|(? & ? & ?)]; [by left|right].
    split_and!; [lia|congruence|lia]. }
  constructor; [done|]. eapply Forall_impl; [by apply IH|]. intros y. by apply before_trans.
Qed.

Lemma follows_sorted previous l : follows previous l -> StronglySorted before l.
Proof.
  revert previous. induction l as [|e l IH]; intros previous F; constructor.
  - destruct F as [_ F]. by eapply IH.
  - destruct F as [_ F]. by apply follows_before.
Qed.

Lemma follows_predecessor previous l e :
  follows previous l -> e ∈ l -> 0 < event_index e ->
  (exists t i x, previous = Some (t, i, x) /\ t = transaction_index e /\ i = event_index e - 1) \/
  exists p, p ∈ l /\ transaction_index p = transaction_index e /\ event_index p = event_index e - 1.
Proof.
  revert previous. induction l as [|y l IH]; intros previous F I Ni; [by apply not_elem_of_nil in I|].
  destruct F as [F1 F2]. apply elem_of_cons in I as [->|I].
  - destruct previous as [[[t i] x]|]; [|lia]. destruct F1 as [[? ?]|(? & ? & ?)]; [lia|].
    left. exists t, i, x. split_and!; [done|lia|lia].
  - right. destruct (IH _ F2 I Ni) as [(t & i & x & [= <- <- <-] & Et & Ei)|(p & Ip & Ep)].
    + exists y. split_and!; [by left|done|done].
    + exists p. split; [by right|done].
Qed.

(** [BlockEnvelope::try_new] accepts exactly the valid blocks, and stores
    the hash of their canonical content: at least one source, every event of
    the block's chain, height, time and confirmation with its own computed id,
    no id twice, and events in order. In an accepted block the events are
    strictly ordered by transaction and index, one transaction index has one
    identity, and every event of positive index has its predecessor. *)
Theorem block_try_new_iff chain height time conf l sources b :
  Forall event_typed l ->
  (block_try_new chain height time conf l sources = Ok b <->
   sources <> [] /\ events_valid chain height time conf l /\
   b = mkBlock P chain height time conf l sources (compute_block_hash chain height time l)) /\
  (block_try_new chain height time conf l sources = Ok b ->
   StronglySorted before (events b) /\
   forall e, e ∈ events b -> 0 < event_index e ->
     exists p, p ∈ events b /\ transaction_index p = transaction_index e /\
       event_index p = event_index e - 1).
Proof.
  intros T. pose proof (validate_events_Ok l chain height time conf T) as V.
  assert (block_try_new chain height time conf l sources = Ok b <->
   sources <> [] /\ events_valid chain height time conf l /\
   b = mkBlock P chain height time conf l sources (compute_block_hash chain height time l)) as I.
  { unfold block_try_new. rewrite <- V. destruct sources; cbn [is_empty]; [naive_solver|].
    destruct (validate_events l chain height time conf) as [[]|]; cbn; naive_solver. }
  split; [done|]. intros (_ & [_ _ F] & ->)%I. cbn [events]. split; [by eapply follows_sorted|].
  intros e Ie Pe. destruct (follows_predecessor _ _ _ F Ie Pe) as [(? & ? & ? & ? & _)|]; done.
Qed.
End block_theory.

(** *** The hash covers the canonical content *)

Definition all_kinds : list EventKind :=
  [OrderAccepted; OrderRested; OrderModified; OrderPartiallyFilled; OrderFilled; OrderCancelled;
   OrderRejected; TriggerOrderActivated; TwapStarted; TwapSliceFilled; TwapCompleted; TradeMatched;
   DepositCredited; WithdrawalDebited; SpotTransfer; PerpTransfer; SubaccountTransfer; VaultDeposit;
   VaultWithdrawal; FeeCharged; BuilderFeeCharged; FundingPaid; FundingReceived; ReferralReward;
   AccountModeChanged; MarginModeChanged; LeverageChanged; LiquidationStarted; LiquidationFill;
   BackstopLiquidation; PositionSettled; MarketHalted; MarketResumed; OpenInterestCapChanged;
   MarginTableChanged; MarketCreated; MarketMetadataChanged; OracleUpdated; FundingRateUpdated;
   AssetContextUpdated; DexCreated; OutcomeCreated; OutcomeResolved; NonUserOrderCancelled;
   InternalTransfer; AccountClassTransfer; VaultCreated; VaultDistribution;
   VaultLeaderCommissionPaid; RewardClaimed; SpotGenesisApplied; StakingDeposit; StakingDelegated;
   StakingUndelegated; StakingWithdrawalQueued; StakingWithdrawalCompleted; ValidatorRewardPaid].

(** [EventKind::try_from(&str)] *)
Definition kind_try_from (value : string) : option EventKind :=
  find (fun k => String.eqb (as_wire_name k) value) all_kinds.

Lemma kind_roundtrip k : kind_try_from (as_wire_name k) = Some k.
Proof. destruct k; vm_compute; reflexivity. Qed.

Lemma as_wire_name_inj k k' : as_wire_name k = as_wire_name k' -> k = k'.
Proof. intros E. pose proof (kind_roundtrip k) as R. rewrite E, kind_roundtrip in R. by injection R. Qed.

Definition framable (l : bytes) : Prop := zlen l < 256 ^ Z.of_nat 8.

Lemma hash_bytes_inj a b c d :
  framable a -> framable c -> hash_bytes a ++ b = hash_bytes c ++ d -> a = c /\ b = d.
Proof. apply frame_inj. Qed.

Lemma be_inj n x y a b :
  0 <= x < 256 ^ Z.of_nat n -> 0 <= y < 256 ^ Z.of_nat n ->
  to_be_bytes n x ++ a = to_be_bytes n y ++ b -> x = y /\ a = b.
Proof.
  intros X Y E. apply app_inj_len in E as [E ->]; [|by rewrite !to_be_bytes_length].
  by apply to_be_bytes_inj in E.
Qed.

(** A counted list of frames is determined by its bytes. *)
Lemma hash_list_inj l l' a b :
  Forall framable l -> Forall framable l' -> length l = length l' ->
  hash_list l ++ a = hash_list l' ++ b -> l = l' /\ a = b.
Proof.
  intros F. revert l'. induction F as [|x l Fx F IH]; intros [|y l'] F' L E; try done.
  apply Forall_cons in F' as [Fy F']. cbn [hash_list] in E. rewrite <- !app_assoc in E.
  apply hash_bytes_inj in E as [-> E]; [|done..].
  apply IH in E as [-> ->]; [done..|]. by injection L.
Qed.

Lemma counted_inj l l' a b :
  Forall framable l -> Forall framable l' ->
  zlen l < 256 ^ Z.of_nat 8 -> zlen l' < 256 ^ Z.of_nat 8 ->
  hash_count (zlen l) ++ hash_list l ++ a = hash_count (zlen l') ++ hash_list l' ++ b ->
  l = l' /\ a = b.
Proof.
  intros F F' L L' E. unfold hash_count in E. pose proof (zlen_nonneg l). pose proof (zlen_nonneg l').
  apply be_inj in E as [El E]; [|lia..]. apply hash_list_inj in E; [done..|].
  unfold zlen in El. lia.
Qed.

Section material.
Context {P : Type} `{EventPayload P} `{Hex} `{Blake3}.

(** Field sizes every Rust value has. *)
Record event_sized (e : CanonicalEventEnvelope P) : Prop := {
  sized_typed : event_typed e;
  sized_id : framable (as_bytes (event_id e));
  sized_schema : framable (as_bytes (schema_version e));
  sized_markets : Forall framable (as_bytes <$> market_ids e);
  sized_market_count : zlen (market_ids e) < 256 ^ Z.of_nat 8;
  sized_accounts : Forall framable (account_ids e);
  sized_account_count : zlen (account_ids e) < 256 ^ Z.of_nat 8;
  sized_payload_hash : length (payload_hash e) = 32%nat;
}.

Definition same_hashed_content (x y : CanonicalEventEnvelope P) : Prop :=
  transaction_index x = transaction_index y /\ event_index x = event_index y /\
  event_id x = event_id y /\ event_kind x = event_kind y /\ schema_version x = schema_version y /\
  market_ids x = market_ids y /\ account_ids x = account_ids y /\ payload_hash x = payload_hash y.

Lemma wire_name_framable k : framable (as_bytes (as_wire_name k)).
Proof. destruct k; vm_compute; reflexivity. Qed.

Lemma event_material_inj x y a b :
  event_sized x -> event_sized y -> event_material x ++ a = event_material y ++ b ->
  same_hashed_content x y /\ a = b.
Proof.
  intros [[Tx Ix] X1 X2 X3 X4 X5 X6 X7] [[Ty Iy] Y1 Y2 Y3 Y4 Y5 Y6 Y7] E.
  unfold event_material in E. rewrite <- !app_assoc in E.
  apply be_inj in E as [E1 E]; [|unfold ity_wf in *; cbn in *; lia..].
  apply be_inj in E as [E2 E]; [|unfold ity_wf in *; cbn in *; lia..].
  apply hash_bytes_inj in E as [E3%as_bytes_inj E]; [|done..].
  apply hash_bytes_inj in E as [E4%as_bytes_inj%as_wire_name_inj E]; [|apply wire_name_framable..].
  apply hash_bytes_inj in E as [E5%as_bytes_inj E]; [|done..].
  replace (zlen (market_ids x)) with (zlen (as_bytes <$> market_ids x)) in *
    by (unfold zlen; by rewrite length_fmap).
  replace (zlen (market_ids y)) with (zlen (as_bytes <$> market_ids y)) in *
    by (unfold zlen; by rewrite length_fmap).
  apply counted_inj in E as [E6 E]; [|done..]. apply counted_inj in E as [E7 E]; [|done..].
  apply app_inj_len in E as [E8 ->]; [|congruence].
  split; [|done]. split_and!; try done. revert E6. apply list_fmap_eq_inj. exact as_bytes_inj.
Qed.

Lemma events_material_inj l l' :
  Forall event_sized l -> Forall event_sized l' -> length l = length l' ->
  events_material l = events_material l' -> Forall2 same_hashed_content l l'.
Proof.
  intros F. revert l'. induction F as [|x l Fx F IH]; intros [|y l'] F' L E; try done.
  apply Forall_cons in F' as [Fy F']. cbn [events_material] in E.
  apply event_material_inj in E as [S E]; [|done..]. constructor; [done|]. apply IH; [done| |done].
  by injection L.
Qed.

(** The bytes under a block's hash determine the block's canonical content:
    equal bytes mean equal chain, height and time, and the same events in the
    same order by position, id, kind, schema, markets, accounts and payload
    hash. Two different canonical blocks can only share a hash through a
    collision of the hash function. *)
Theorem block_material_injective c c' h h' t t' l l' :
  framable (as_bytes c) -> framable (as_bytes c') -> ity_wf U64 h -> ity_wf U64 h' ->
  0 <= t <= ity_max I64 -> 0 <= t' <= ity_max I64 ->
  Forall event_sized l -> Forall event_sized l' ->
  zlen l < 256 ^ Z.of_nat 8 -> zlen l' < 256 ^ Z.of_nat 8 ->
  block_material c h t l = block_material c' h' t' l' ->
  c = c' /\ h = h' /\ t = t' /\ Forall2 same_hashed_content l l'.
Proof.
  intros Fc Fc' Wh Wh' Wt Wt' Sl Sl' L L' E. unfold block_material in E.
  unfold ity_wf in *. cbn [ity_min ity_max] in *.
  apply hash_bytes_inj in E as [->%as_bytes_inj E]; [|done..].
  apply be_inj in E as [-> E]; [|cbn; lia..]. apply be_inj in E as [-> E]; [|cbn; lia..].
  pose proof (zlen_nonneg l). pose proof (zlen_nonneg l').
  apply be_inj in E as [El E]; [|lia..].
  split_and!; [done..|]. apply events_material_inj; [done..| |done]. unfold zlen in El. lia.
Qed.

(** *** Merging evidence *)

Lemma evidence_conflict_Some l r err :
  evidence_conflict l r = Some err ->
  exists x y, x ∈ l /\ y ∈ r /\ same_evidence_locator x y = true /\
    content_hash x <> content_hash y /\
    err = SourceEvidenceConflict (source_id x) (content_hash x) (content_hash y).
Proof.
  induction l as [|x l IH]; cbn; [done|].
  assert (forall r err, evidence_conflict_with x r = Some err -> exists y, y ∈ r /\
    same_evidence_locator x y = true /\ content_hash x <> content_hash y /\
    err = SourceEvidenceConflict (source_id x) (content_hash x) (content_hash y)) as W.
  { clear. induction r as [|y r IH]; cbn; [done|]. intros err.
    destruct (same_evidence_locator x y) eqn:L; cbn; [case_bool_decide|]; cbn.
    - intros (z & I & R)%IH. exists z. split; [by right|done].
    - intros [= <-]. exists y. split_and!; [by left|done..].
    - intros (z & I & R)%IH. exists z. split; [by right|done]. }
  destruct (evidence_conflict_with x r) as [e|] eqn:E.
  - intros [= <-]. apply W in E as (y & I & R). exists x, y. split; [by left|done].
  - intros (x' & y & I & R)%IH. exists x', y. split; [by right|done].
Qed.

Lemma evidence_conflict_None l r :
  evidence_conflict l r = None <->
  forall x y, x ∈ l -> y ∈ r -> same_evidence_locator x y = true -> content_hash x = content_hash y.
Proof.
  assert (forall x r, evidence_conflict_with x r = None <->
    forall y, y ∈ r -> same_evidence_locator x y = true -> content_hash x = content_hash y) as W.
  { intros x. clear. induction r as [|y r IH]; cbn.
    - split; [|done]. intros _ y I. by apply not_elem_of_nil in I.
    - setoid_rewrite elem_of_cons. destruct (same_evidence_locator x y) eqn:L; cbn;
        [case_bool_decide as C|]; cbn; rewrite ?IH.
      + split; [intros A z [->|I]|]; auto.
      + split; [done|]. intros A. destruct C. apply A; auto.
      + split; [intros A z [->|I]|]; [congruence|auto..]. }
  induction l as [|x l IH]; cbn.
  - split; [|done]. intros _ x y I. by apply not_elem_of_nil in I.
  - setoid_rewrite elem_of_cons. pose proof (W x r) as Wx.
    destruct (evidence_conflict_with x r) as [err|] eqn:E; [|rewrite IH].
    + split; [done|]. intros A. discriminate (proj2 Wx). intros y. apply A. auto.
    + split; [|auto]. intros A z y [->|I]; [by apply Wx|by apply A].
Qed.
End material.

Section merging.
Context {P : Type} `{EventPayload P} `{Hex} `{Blake3}.
Implicit Types (x y : CanonicalEventEnvelope P).

Lemma merge_Ok x y m :
  merge_matching_source_evidence x y = Ok m ->
  m = set_source_evidence (source_evidence m) x /\
  (forall s, s ∈ source_evidence m <-> s ∈ source_evidence x \/ s ∈ source_evidence y) /\
  has_same_canonical_content x y = true.
Proof.
  unfold merge_matching_source_evidence. intros E. apply if_Err_Ok in E as [C E].
  destruct (evidence_conflict _ _); [done|]. injection E as <-. bool_to_prop.
  split_and!; [done| |done]. intros s. cbn. by rewrite elem_of_dedup, elem_of_sort, elem_of_app.
Qed.

Lemma evidence_merge_material x y m :
  merge_matching_source_evidence x y = Ok m -> event_material m = event_material x.
Proof. intros (-> & _)%merge_Ok. done. Qed.

(** Merging the evidence of two events is exact. It succeeds when their
    canonical content is the same and no evidence locator carries two content
    hashes; the result is the first event with the union of both evidence sets,
    and hashes to the same bytes. A refusal names its cause: different content,
    or a locator with two contents and the hashes found under it. *)
Theorem evidence_merge_exact x y :
  match merge_matching_source_evidence x y with
  | Ok m =>
      has_same_canonical_content x y = true /\
      (exists l, m = set_source_evidence l x /\
         forall s, s ∈ l <-> s ∈ source_evidence x \/ s ∈ source_evidence y) /\
      event_material m = event_material x /\
      forall a b, a ∈ source_evidence x -> b ∈ source_evidence y ->
        same_evidence_locator a b = true -> content_hash a = content_hash b
  | Err CanonicalContentMismatch => has_same_canonical_content x y = false
  | Err (SourceEvidenceConflict s h h') =>
      exists a b, a ∈ source_evidence x /\ b ∈ source_evidence y /\
        same_evidence_locator a b = true /\ s = source_id a /\ h = content_hash a /\
        h' = content_hash b /\ h <> h'
  end.
Proof.
  destruct (merge_matching_source_evidence x y) as [m|err] eqn:E.
  - pose proof E as (Em & U & C)%merge_Ok. split_and!; [done|by eexists| |].
    + by rewrite Em.
    + unfold merge_matching_source_evidence in E. rewrite C in E. cbn in E.
      destruct (evidence_conflict _ _) eqn:N; [done|]. by apply evidence_conflict_None.
  - unfold merge_matching_source_evidence in E.
    destruct (has_same_canonical_content x y); cbn in E; [|by injection E as <-].
    destruct (evidence_conflict _ _) as [err'|] eqn:N; [|done]. injection E as ->.
    apply evidence_conflict_Some in N as (a & b & Ia & Ib & L & Ne & ->).
    by exists a, b.
Qed.
End merging.

(** ** Concrete blocks *)

#[global] Instance unit_payload : EventPayload unit := {| payload_kind _ := OrderAccepted |}.

Definition sample_evidence (source : SourceId) : SourceEvidence :=
  mkEvidence source "v1" "0" (replicate 32 x07) (Some 0).

Definition sample_event (height index : Z) (source : SourceId) (conf : ConfirmationClass)
  : CanonicalEventEnvelope unit :=
  mkEvent unit "1.0.0" "hl" height 1000 "tx" 0 index
    (@compute_event_id sample_hex sample_blake3 "hl" height "tx" index OrderAccepted SCHEMA_MAJOR)
    ["BTC"] [replicate 20 x01] [sample_evidence source] conf 1000 1001 1002 (replicate 32 x09) "p1"
    tt [x7b; x7d] None.

Definition sample_events (height : Z) (source : SourceId) (conf : ConfirmationClass)
  : list (CanonicalEventEnvelope unit) :=
  [sample_event height 0 source conf; sample_event height 1 source conf].

Definition sample_block (height : Z) (source : SourceId) (conf : ConfirmationClass)
  : BlockEnvelope unit :=
  mkBlock unit "hl" height 1000 conf (sample_events height source conf)
    [(source, replicate 32 x05)]
    (@compute_block_hash unit unit_payload sample_blake3 "hl" height 1000
       (sample_events height source conf)).

Lemma block_try_new_iff_witness :
  @block_try_new unit _ sample_hex sample_blake3 "hl" 5 1000 CommittedPrimary
    (sample_events 5 "node" CommittedPrimary) [("node", replicate 32 x05)] =
    Ok (sample_block 5 "node" CommittedPrimary) /\
  StronglySorted before (events (sample_block 5 "node" CommittedPrimary)).
Proof.
  assert (@block_try_new unit _ sample_hex sample_blake3 "hl" 5 1000 CommittedPrimary
    (sample_events 5 "node" CommittedPrimary) [("node", replicate 32 x05)] =
    Ok (sample_block 5 "node" CommittedPrimary)) as E by (vm_compute; reflexivity).
  split; [exact E|].
  apply (@block_try_new_iff unit _ sample_hex sample_blake3 "hl" 5 1000 CommittedPrimary
    (sample_events 5 "node" CommittedPrimary) [("node", replicate 32 x05)]); [|exact E].
  repeat constructor; vm_compute; discriminate.
Defined.

Lemma block_material_injective_witness :
  Forall2 same_hashed_content (sample_events 5 "node" CommittedPrimary)
    (sample_events 5 "indexer" CommittedIndependent).
Proof.
  apply (block_material_injective "hl" "hl" 5 5 1000 1000);
    try (vm_compute; first [reflexivity | split; discriminate]).
  all: repeat constructor; vm_compute; try discriminate; reflexivity.
Defined.
