(* ===== verification/Sequencer.v ===== *)
(** * The canonical sequencer: [services/hl-capture/src/sequencer] and
      [quarantine.rs]

    Block candidates arrive from several sources in any order. The sequencer
    commits heights one after the other from its first height, holds later
    blocks as pending, reports the gap in front of them, merges the evidence of
    repeated blocks and latches red at the first divergence. The file models
    every transition and proves what a whole run of observations can do. *)

From Stdlib Require Import Strings.Byte Strings.String Sorting.Sorted.
From stdpp Require Import list_numbers.
From S2P Require Import Prelude Ordering Sorting BTreeMap Bytes FixedPoint Ids Trust Blocks.

Definition GAP_INCIDENT_CONTEXT : string := "hyperliquid-alpha-desk/committed-gap/v1".
Definition INCIDENT_CONTEXT : string := "hyperliquid-alpha-desk/source-divergence/v1".

(** ** Configuration, records and decisions *)

Inductive CandidateError :=
| MissingSourceBlockHash
| ConfirmationMismatch
| UnexpectedEventSourceEvidence
| UnsupportedPublicationLane.

Inductive SequencerError :=
| InvalidCapacity (field : string)
| ChainMismatch (expected actual : ChainId)
| PendingCapacityExceeded (limit : Z)
| InvalidMergedBlock (e : BlockError)
| InvalidMergedEvidence (id : option EventId) (reason : string)
| Candidate (e : CandidateError).

Record SequencerConfig := mkConfig {
  cfg_chain_id : ChainId;
  first_height : BlockHeight;
  max_pending_blocks : Z;
  retained_committed_blocks : Z;
}.

Definition config_try_new (chain : ChainId) (first : BlockHeight) (max_pending retained : Z)
  : result SequencerError SequencerConfig :=
  if max_pending =? 0 then Err (InvalidCapacity "max_pending_blocks") else
  if retained =? 0 then Err (InvalidCapacity "retained_committed_blocks") else
  Ok (mkConfig chain first max_pending retained).

Inductive QuarantineReason :=
| ConflictingCanonicalBlock (existing_hash conflicting_hash : Hash)
| ConflictingSourceBlockHash (source : SourceId) (existing_hash conflicting_hash : Hash)
| ConflictingEventSourceEvidence (event : EventId) (source : SourceId)
    (existing_hash conflicting_hash : Hash).

Record QuarantineRecord := mkQuarantine {
  incident_id : string;
  q_chain_id : ChainId;
  q_block_height : BlockHeight;
  existing_source_ids : list SourceId;
  conflicting_source_id : SourceId;
  reason : QuarantineReason;
}.

Record GapRange := mkGap { gap_start : BlockHeight; gap_end_inclusive : BlockHeight }.
#[global] Instance GapRange_eq_dec : EqDecision GapRange.
Proof. solve_decision. Defined.

Inductive SequencerDecision {P : Type} :=
| Commit (b : BlockEnvelope P)
| RecordDuplicate (height : BlockHeight) (source : SourceId)
| RequestGap (incident : string) (start end_inclusive : BlockHeight)
| Quarantine (r : QuarantineRecord)
| PublishProvisional (b : BlockEnvelope P)
| VerifyHistoricalBlock (height : BlockHeight) (source : SourceId) (canonical_hash : Hash)
| AwaitOperatorResolution (incident : string)
| AwaitMoreEvidence.
Arguments SequencerDecision P : clear implicits.

Inductive SequencerHealth :=
| Green
| RedGap (incident : string) (start end_inclusive : BlockHeight)
| RedHealth (incident : string).

Record BlockCandidate {P : Type} := mkCandidate {
  cand_source_id : SourceId;
  cand_admission : SourceAdmission;
  cand_block : BlockEnvelope P;
}.
Arguments BlockCandidate P : clear implicits.

Definition expected_confirmation (a : SourceAdmission) : result CandidateError ConfirmationClass :=
  match publication_lane a with
  | CommittedCandidate =>
      match trust a with
      | LocallyVerifiedCommitted => Ok CommittedPrimary
      | IndependentCommitted => Ok CommittedIndependent
      | _ => Err UnsupportedPublicationLane
      end
  | Provisional =>
      match trust a with
      | ThirdPartyProvisional => Ok ProvisionalSource
      | _ => Err UnsupportedPublicationLane
      end
  | Reconciliation | Recovery | Mempool => Err UnsupportedPublicationLane
  end.

Definition validate_confirmation (a : SourceAdmission) (c : ConfirmationClass)
  : result CandidateError unit :=
  expected ← expected_confirmation a;
  if bool_decide (c = expected) then Ok tt else Err ConfirmationMismatch.

Definition candidate_try_new {P} (source : SourceId) (a : SourceAdmission) (b : BlockEnvelope P)
  : result CandidateError (BlockCandidate P) :=
  if negb (bt_len (source_block_hashes b) =? 1) || negb (bt_contains source (source_block_hashes b))
  then Err MissingSourceBlockHash else
  if existsb (fun e => existsb (fun s => negb (bool_decide (source_id s = source)))
                         (source_evidence e)) (events b)
  then Err UnexpectedEventSourceEvidence else
  _ ← validate_confirmation a (confirmation_class b);
  Ok (mkCandidate P source a b).

(** ** Incidents *)

Section incidents.
Context `{Hex} `{Blake3}.

Definition gap_incident_id (chain : ChainId) (gap : GapRange) : string :=
  "inc_" +:+ hex_encode (derive_key_hash GAP_INCIDENT_CONTEXT
    (to_be_bytes 8 (zlen (as_bytes chain)) ++ as_bytes chain ++
     to_be_bytes 8 (gap_start gap) ++ to_be_bytes 8 (gap_end_inclusive gap))).

Definition compute_incident_id (chain : ChainId) (height : BlockHeight)
  (existing : list SourceId) (conflicting : SourceId) (reason_code : string)
  (detail : option string) (first_hash second_hash : Hash) : string :=
  let all_sources := dedup (sort (existing ++ [conflicting])) in
  "inc_" +:+ hex_encode (derive_key_hash INCIDENT_CONTEXT
    (hash_bytes (as_bytes chain) ++ to_be_bytes 8 height ++ hash_bytes (as_bytes reason_code) ++
     hash_bytes (match detail with Some d => as_bytes d | None => [] end) ++
     hash_list (as_bytes <$> all_sources) ++ first_hash ++ second_hash)).

(** The two hashes of an incident, smaller first. *)
Definition order_hashes (x y : Hash) : Hash * Hash := if leb x y then (x, y) else (y, x).

Definition canonical_block_divergence (chain : ChainId) (height : BlockHeight)
  (existing : list SourceId) (conflicting : SourceId) (existing_hash conflicting_hash : Hash)
  : QuarantineRecord :=
  let existing := dedup (sort existing) in
  let '(first_hash, second_hash) := order_hashes existing_hash conflicting_hash in
  mkQuarantine
    (compute_incident_id chain height existing conflicting "sequencer.conflicting_canonical_block"
       None first_hash second_hash)
    chain height existing conflicting (ConflictingCanonicalBlock existing_hash conflicting_hash).

Definition source_block_hash_divergence (chain : ChainId) (height : BlockHeight) (source : SourceId)
  (existing_hash conflicting_hash : Hash) : QuarantineRecord :=
  let '(first_hash, second_hash) := order_hashes existing_hash conflicting_hash in
  mkQuarantine
    (compute_incident_id chain height [source] source "sequencer.conflicting_source_block_hash"
       None first_hash second_hash)
    chain height [source] source (ConflictingSourceBlockHash source existing_hash conflicting_hash).

Definition event_source_evidence_divergence (chain : ChainId) (height : BlockHeight)
  (event : EventId) (source : SourceId) (existing_hash conflicting_hash : Hash) : QuarantineRecord :=
  let '(first_hash, second_hash) := order_hashes existing_hash conflicting_hash in
  mkQuarantine
    (compute_incident_id chain height [source] source
       "sequencer.conflicting_event_source_evidence" (Some event) first_hash second_hash)
    chain height [source] source
    (ConflictingEventSourceEvidence event source existing_hash conflicting_hash).
End incidents.

(** ** Watermarks: [watermark.rs] *)

Record Watermark {P : Type} := mkWatermark {
  current : option BlockHeight;
  retained : btmap BlockHeight (BlockEnvelope P);
  retained_limit : Z;
}.
Arguments Watermark P : clear implicits.

(** The eviction loop of [advance]: the oldest key is the first one. *)
Fixpoint evict {P} (limit : Z) (m : btmap BlockHeight (BlockEnvelope P))
  : btmap BlockHeight (BlockEnvelope P) :=
  match m with
  | [] => []
  | _ :: m' => if limit <? bt_len m then evict limit m' else m
  end.

Definition watermark_new {P} (limit : Z) : Watermark P := mkWatermark P None [] limit.
Definition advance {P} (b : BlockEnvelope P) (w : Watermark P) : Watermark P :=
  mkWatermark P (Some (block_height b))
    (evict (retained_limit w) (bt_insert (block_height b) b (retained w))) (retained_limit w).

(** ** Comparing and merging a repeated block *)

Inductive MergeError :=
| Divergence (r : QuarantineRecord)
| InvalidBlock (e : BlockError)
| InvalidEvidence (id : option EventId) (reason : string).

Section sequencer.
Context {P : Type} `{EventPayload P} `{Hex} `{Blake3}.

(** The candidate's own source hash is present by [candidate_try_new]. *)
Definition source_hash_conflict (chain : ChainId) (height : BlockHeight)
  (existing : btmap SourceId Hash) (c : BlockCandidate P) : option QuarantineRecord :=
  candidate_hash ← bt_get (cand_source_id c) (source_block_hashes (cand_block c));
  existing_hash ← bt_get (cand_source_id c) existing;
  if negb (bool_decide (existing_hash = candidate_hash))
  then Some (source_block_hash_divergence chain height (cand_source_id c) existing_hash candidate_hash)
  else None.

(** The loop over the zipped events. *)
Fixpoint merge_events (existing : BlockEnvelope P)
  (l : list (CanonicalEventEnvelope P * CanonicalEventEnvelope P))
  : result MergeError (list (CanonicalEventEnvelope P)) :=
  match l with
  | [] => Ok []
  | (existing_event, candidate_event) :: l =>
      match merge_matching_source_evidence existing_event candidate_event with
      | Ok merged => rest ← merge_events existing l; Ok (merged :: rest)
      | Err (SourceEvidenceConflict source existing_hash conflicting_hash) =>
          Err (Divergence (event_source_evidence_divergence (chain_id existing)
            (block_height existing) (event_id existing_event) source existing_hash conflicting_hash))
      | Err CanonicalContentMismatch =>
          Err (InvalidEvidence (Some (event_id existing_event))
            "matching canonical block hash contains different event content")
      end
  end.

(** On success the new value of [*existing]. *)
Definition compare_and_merge (existing : BlockEnvelope P) (c : BlockCandidate P)
  : result MergeError (BlockEnvelope P) :=
  if negb (bool_decide (canonical_block_hash existing = canonical_block_hash (cand_block c)))
  then Err (Divergence (canonical_block_divergence (chain_id existing) (block_height existing)
              (bt_keys (source_block_hashes existing)) (cand_source_id c)
              (canonical_block_hash existing) (canonical_block_hash (cand_block c)))) else
  match source_hash_conflict (chain_id existing) (block_height existing)
          (source_block_hashes existing) c with
  | Some record => Err (Divergence record)
  | None =>
      let source_hashes := bt_extend (source_block_hashes existing)
                             (source_block_hashes (cand_block c)) in
      if negb (zlen (events existing) =? zlen (events (cand_block c)))
      then Err (InvalidEvidence None
                  "matching canonical block hashes contain different event counts") else
      merged_events ← merge_events existing (zip (events existing) (events (cand_block c)));
      map_err InvalidBlock
        (block_try_new (chain_id existing) (block_height existing) (block_time existing)
           (confirmation_class existing) merged_events source_hashes)
  end.

(** ** State *)

Record CanonicalSequencer := mkSequencer {
  config : SequencerConfig;
  committed : Watermark P;
  provisional : Watermark P;
  pending : btmap BlockHeight (BlockEnvelope P);
  outstanding_gap : option GapRange;
  red_incident_id : option string;
  quarantines : list QuarantineRecord;
}.

Definition set_committed w s := mkSequencer (config s) w (provisional s) (pending s)
  (outstanding_gap s) (red_incident_id s) (quarantines s).
Definition set_provisional w s := mkSequencer (config s) (committed s) w (pending s)
  (outstanding_gap s) (red_incident_id s) (quarantines s).
Definition set_pending p s := mkSequencer (config s) (committed s) (provisional s) p
  (outstanding_gap s) (red_incident_id s) (quarantines s).
Definition set_gap g s := mkSequencer (config s) (committed s) (provisional s) (pending s)
  g (red_incident_id s) (quarantines s).
Definition set_red i q s := mkSequencer (config s) (committed s) (provisional s) (pending s)
  (outstanding_gap s) i q.

Definition sequencer_new (cfg : SequencerConfig) : CanonicalSequencer :=
  mkSequencer cfg (watermark_new (retained_committed_blocks cfg))
    (watermark_new (retained_committed_blocks cfg)) [] None None [].

Definition committed_watermark (s : CanonicalSequencer) : option BlockHeight := current (committed s).
Definition provisional_watermark (s : CanonicalSequencer) : option BlockHeight :=
  current (provisional s).
Definition pending_block_count (s : CanonicalSequencer) : Z := bt_len (pending s).

Definition health (s : CanonicalSequencer) : SequencerHealth :=
  match red_incident_id s, outstanding_gap s with
  | Some i, _ => RedHealth i
  | None, Some gap => RedGap (gap_incident_id (cfg_chain_id (config s)) gap) (gap_start gap)
                        (gap_end_inclusive gap)
  | None, None => Green
  end.

Definition next_committed_height (s : CanonicalSequencer) : option BlockHeight :=
  match current (committed s) with
  | Some height => int_add U64 height 1
  | None => Some (first_height (config s))
  end.

Abbreviation seq_op := (st CanonicalSequencer SequencerError).
Abbreviation Decision := (SequencerDecision P).

(** ** Transitions *)

Definition latch_divergence (record : QuarantineRecord) : seq_op Decision :=
  s ← st_get;
  _ ← match red_incident_id s with
      | None => st_modify (fun s => set_red (Some (incident_id record)) (quarantines s ++ [record]) s)
      | Some _ => mret tt
      end;
  mret (Quarantine record).

(** The arms of the [match] on [compare_and_merge]; [store] puts the merged
    block back where it was borrowed from. *)
Definition resolve_merge (r : result MergeError (BlockEnvelope P))
  (store : BlockEnvelope P -> CanonicalSequencer -> CanonicalSequencer)
  (height : BlockHeight) (source : SourceId) : seq_op (list Decision) :=
  match r with
  | Ok merged => _ ← st_modify (store merged); mret [RecordDuplicate height source]
  | Err (Divergence record) => d ← latch_divergence record; mret [d]
  | Err (InvalidBlock e) => st_throw (InvalidMergedBlock e)
  | Err (InvalidEvidence id why) => st_throw (InvalidMergedEvidence id why)
  end.

Definition set_retained (h : BlockHeight) (b : BlockEnvelope P) (w : Watermark P) : Watermark P :=
  mkWatermark P (current w) (bt_set h b (retained w)) (retained_limit w).

Definition observe_retained (c : BlockCandidate P) (is_committed : bool) : seq_op (list Decision) :=
  s ← st_get;
  let watermark := if is_committed : bool then committed s else provisional s in
  let height := block_height (cand_block c) in
  match bt_get height (retained watermark) with
  | None => mret [VerifyHistoricalBlock height (cand_source_id c)
                    (canonical_block_hash (cand_block c))]
  | Some existing =>
      resolve_merge (compare_and_merge existing c)
        (fun merged s =>
           if is_committed then set_committed (set_retained height merged (committed s)) s
           else set_provisional (set_retained height merged (provisional s)) s)
        height (cand_source_id c)
  end.

(** The [while] loop of [drain_contiguous]; every iteration removes a pending
    block, so [pending.len() + 1] rounds of fuel are enough. *)
Fixpoint drain (fuel : nat) (s : CanonicalSequencer) : list Decision * CanonicalSequencer :=
  match fuel with
  | O => ([], s)
  | S fuel =>
      match next_committed_height s with
      | None => ([], s)
      | Some next =>
          match bt_get next (pending s) with
          | None => ([], s)
          | Some b =>
              let s := set_committed (advance b (committed s))
                         (set_pending (bt_remove next (pending s)) s) in
              let '(decisions, s) := drain fuel s in
              (Commit b :: decisions, s)
          end
      end
  end.

Definition drain_contiguous : seq_op (list Decision) := fun s =>
  let '(decisions, s) := drain (S (length (pending s))) s in (Ok decisions, s).

(** The gap the state calls for. *)
Definition gap_of (s : CanonicalSequencer) : option GapRange :=
  next ← next_committed_height s;
  height ← bt_first_key (pending s);
  if next <? height then Some (mkGap next (int_saturating_sub U64 height 1)) else None.

Definition refresh_gap (decisions : list Decision) : seq_op (list Decision) :=
  s ← st_get;
  match next_committed_height s with
  | None => _ ← st_modify (set_gap None); mret decisions
  | Some _ =>
      let gap := gap_of s in
      if bool_decide (gap = outstanding_gap s) then mret decisions else
      _ ← st_modify (set_gap gap);
      mret (decisions ++
        match gap with
        | Some g => [RequestGap (gap_incident_id (cfg_chain_id (config s)) g) (gap_start g)
                       (gap_end_inclusive g)]
        | None => []
        end)
  end.

Definition observe_committed (c : BlockCandidate P) : seq_op (list Decision) :=
  s ← st_get;
  match red_incident_id s with
  | Some i => mret [AwaitOperatorResolution i]
  | None =>
      let height := block_height (cand_block c) in
      if (height <? first_height (config s)) ||
         match current (committed s) with Some w => height <=? w | None => false end
      then observe_retained c true else
      match bt_get height (pending s) with
      | Some existing =>
          resolve_merge (compare_and_merge existing c)
            (fun merged s => set_pending (bt_set height merged (pending s)) s)
            height (cand_source_id c)
      | None =>
          if (max_pending_blocks (config s) <=? bt_len (pending s)) &&
             negb (bool_decide (Some height = next_committed_height s))
          then st_throw (PendingCapacityExceeded (max_pending_blocks (config s))) else
          _ ← st_modify (fun s => set_pending (bt_insert height (cand_block c) (pending s)) s);
          decisions ← drain_contiguous;
          decisions ← refresh_gap decisions;
          mret (if is_empty decisions then [AwaitMoreEvidence] else decisions)
      end
  end.

Definition observe_provisional (c : BlockCandidate P) : seq_op (list Decision) :=
  s ← st_get;
  let height := block_height (cand_block c) in
  if match current (provisional s) with Some w => height <=? w | None => false end
  then observe_retained c false else
  _ ← st_modify (fun s => set_provisional (advance (cand_block c) (provisional s)) s);
  mret [PublishProvisional (cand_block c)].

Definition observe (c : BlockCandidate P) : seq_op (list Decision) :=
  s ← st_get;
  if negb (bool_decide (chain_id (cand_block c) = cfg_chain_id (config s)))
  then st_throw (ChainMismatch (cfg_chain_id (config s)) (chain_id (cand_block c))) else
  match publication_lane (cand_admission c) with
  | CommittedCandidate => observe_committed c
  | Provisional => observe_provisional c
  | Reconciliation | Recovery | Mempool => st_throw (Candidate UnsupportedPublicationLane)
  end.
End sequencer.
Arguments CanonicalSequencer P : clear implicits.

(** ** Merging keeps the canonical block *)

Section merge_theory.
Context {P : Type} `{EventPayload P} `{Hex} `{Blake3}.

(** What [BlockEnvelope::try_new] and the Rust types give of a block. *)
Definition block_wf (b : BlockEnvelope P) : Prop :=
  ity_wf U64 (block_height b) /\
  canonical_block_hash b =
    compute_block_hash (chain_id b) (block_height b) (block_time b) (events b).

Lemma merge_events_material existing l merged :
  merge_events existing l = Ok merged ->
  events_material merged = events_material (fst <$> l) /\ length merged = length l.
Proof.
  revert merged. induction l as [|[x y] l IH]; intros merged E; cbn [merge_events] in E.
  - by injection E as <-.
  - destruct (merge_matching_source_evidence x y) as [m|[]] eqn:M; [|done..]. inv_ok.
    match goal with H : merge_events _ _ = Ok _ |- _ => destruct (IH _ H) as [Em El] end.
    pose proof (evidence_merge_material x y m M) as Mm.
    cbn [fmap list_fmap fst events_material length]. by rewrite Em, El, Mm.
Qed.

Lemma compare_and_merge_Ok existing c m :
  block_wf existing -> compare_and_merge existing c = Ok m ->
  block_wf m /\ chain_id m = chain_id existing /\ block_height m = block_height existing /\
  block_time m = block_time existing /\ confirmation_class m = confirmation_class existing /\
  canonical_block_hash m = canonical_block_hash existing /\
  canonical_block_hash (cand_block c) = canonical_block_hash existing /\
  source_block_hashes m =
    bt_extend (source_block_hashes existing) (source_block_hashes (cand_block c)).
Proof.
  intros [Wh Wb] E. unfold compare_and_merge in E. apply if_Err_Ok in E as [D E].
  destruct (source_hash_conflict _ _ _ _); [done|]. cbv zeta in E.
  apply if_Err_Ok in E as [L E]. apply bind_Ok in E as (me & Em & E). apply map_err_Ok in E.
  unfold block_try_new in E. apply if_Err_Ok in E as [_ E]. apply bind_Ok in E as (u & _ & E).
  injection E as <-. bool_to_prop.
  apply merge_events_material in Em as [Mm Ml].
  assert (compute_block_hash (chain_id existing) (block_height existing) (block_time existing) me =
    canonical_block_hash existing) as Hm.
  { rewrite Wb. unfold compute_block_hash, block_material.
    assert (length (events existing) = length (events (cand_block c))) as Le
      by (unfold zlen in L; lia).
    assert (zlen me = zlen (events existing)) as Lz
      by (unfold zlen; rewrite Ml, length_zip_with; lia).
    by rewrite Mm, fst_zip, Lz by lia. }
  cbn. split_and!; try done.
Qed.
End merge_theory.

(** ** Retained windows *)

Lemma drop_seqZ (k : nat) m n : Z.of_nat k <= n -> drop k (seqZ m n) = seqZ (m + Z.of_nat k) (n -
    Z.of_nat k).
Proof.
  intros L. replace n with (Z.of_nat k + (n - Z.of_nat k)) at 1 by lia.
  rewrite seqZ_app by lia. apply drop_app_length'. rewrite length_seqZ. lia.
Qed.

Section windows.
Context {P : Type} `{EventPayload P} `{Hex} `{Blake3}.

Lemma evict_drop limit (m : btmap BlockHeight (BlockEnvelope P)) :
  0 <= limit -> evict limit m = drop (Z.to_nat (bt_len m - limit)) m.
Proof.
  intros L. unfold bt_len. induction m as [|p m IH]; [by rewrite drop_nil|]. cbn [evict].
  unfold bt_len, zlen in *. cbn [length]. destruct (Z.ltb_spec limit (Z.of_nat (S (length m)))).
  - replace (Z.to_nat (Z.of_nat (S (length m)) - limit)) with
      (S (Z.to_nat (Z.of_nat (length m) - limit))) by lia. by rewrite IH.
  - replace (Z.to_nat (Z.of_nat (S (length m)) - limit)) with 0%nat by lia. done.
Qed.

(** The window holds the last [limit] committed blocks below [n]. *)
Record window (first limit n : Z) (w : Watermark P) : Prop := {
  win_limit : retained_limit w = limit;
  win_len : bt_len (retained w) = Z.min limit (n - first);
  win_keys : bt_keys (retained w) = seqZ (n - bt_len (retained w)) (bt_len (retained w));
  win_blocks : forall h b, (h, b) ∈ retained w -> block_height b = h /\ block_wf b;
}.

Lemma window_advance first limit n w b :
  0 < limit -> first <= n -> window first limit n w -> block_height b = n -> block_wf b ->
  window first limit (n + 1) (advance b w).
Proof.
  intros Pl Fn [L Len K B] Hb Wb. unfold advance. rewrite Hb, L.
  assert (bt_insert (n : BlockHeight) b (retained w) = retained w ++ [(n, b)]) as ->.
  { apply bt_insert_last, Forall_forall. intros p I. apply Z.compare_lt_iff.
    apply (list_elem_of_fmap_2 fst) in I. change (p.1 ∈ bt_keys (retained w)) in I.
    rewrite K in I. apply elem_of_seqZ in I. lia. }
  rewrite evict_drop by lia.
  set (r := retained w) in *. set (k := Z.to_nat (bt_len (r ++ [(n, b)]) - limit)).
  assert (bt_len (r ++ [(n, b)]) = bt_len r + 1) as La by (unfold bt_len; rewrite zlen_app; done).
  assert (bt_len (drop k (r ++ [(n, b)])) = bt_len r + 1 - Z.of_nat k) as Ld.
  { unfold bt_len, zlen in *. rewrite length_drop. lia. }
  assert (Z.of_nat k = Z.max 0 (bt_len r + 1 - limit)) as Ek by (unfold k; rewrite La; lia).
  pose proof (zlen_nonneg r) as Nr. change (zlen r) with (bt_len r) in Nr.
  split; cbn [retained retained_limit].
  - done.
  - rewrite Ld. lia.
  - rewrite Ld. unfold bt_keys in *. rewrite fmap_drop, fmap_app, K. cbn [fmap list_fmap fst].
    transitivity (drop k (seqZ (n - bt_len r) (bt_len r + 1))).
    + f_equal. rewrite seqZ_app by lia. f_equal. rewrite seqZ_cons by lia. f_equal. lia.
    + rewrite drop_seqZ by lia. f_equal; lia.
  - intros h x I. apply (subseteq_drop k) in I.
    apply elem_of_app in I as [I|I]; [by apply B|]. apply list_elem_of_singleton in I as [= -> ->]. done.
Qed.

Lemma window_set first limit n w h b m :
  window first limit n w -> bt_get h (retained w) = Some b ->
  block_height m = block_height b -> block_wf m -> window first limit n (set_retained h m w).
Proof.
  intros [L Len K B] G Hm Wm. unfold set_retained.
  assert (bt_len (bt_set h m (retained w)) = bt_len (retained w)) as E by apply bt_len_set.
  split; cbn [retained retained_limit]; rewrite ?E; [done..|by rewrite bt_set_keys|].
  intros k x I. eapply (Forall_forall (fun p => block_height p.2 = p.1 /\ block_wf p.2)) in I; [done|].
  apply bt_set_Forall; [|apply Forall_forall; intros [k' x'] I'; by apply B].
  intros k' v' I' E'. cbn. split; [|done]. rewrite Hm. apply cmp_eq_leibniz in E' as <-.
  apply bt_get_Some in G as (k2 & E2 & I2). apply cmp_eq_leibniz in E2 as <-. by apply B.
Qed.
End windows.

(** ** Draining *)

Section draining.
Context {P : Type} `{EventPayload P} `{Hex} `{Blake3}.
Implicit Types s : CanonicalSequencer P.

(** The height the committed stream continues at, before the overflow check. *)
Definition nxt s : BlockHeight :=
  match current (committed s) with Some w => w + 1 | None => first_height (config s) end.

Definition config_wf (c : SequencerConfig) : Prop :=
  ity_wf U64 (first_height c) /\ 0 < max_pending_blocks c /\ 0 < retained_committed_blocks c.

(** What every state between two transitions, and inside the drain loop, satisfies. *)
Record core s : Prop := {
  core_config : config_wf (config s);
  core_cur : forall w, current (committed s) = Some w -> ity_wf U64 w /\ first_height (config s) <= w;
  core_win : window (first_height (config s)) (retained_committed_blocks (config s)) (nxt s)
               (committed s);
  core_sorted : bt_sorted (pending s);
  core_pending : forall h b, (h, b) ∈ pending s -> block_height b = h /\ block_wf b /\ nxt s <= h;
}.

(** Nothing pending can be committed. *)
Definition settled s : Prop := Forall (fun p => nxt s < p.1) (pending s).

Definition commit_heights (ds : list (SequencerDecision P)) : list Z :=
  omap (fun d => match d with Commit b => Some (block_height b) | _ => None end) ds.

Lemma nxt_first s : core s -> first_height (config s) <= nxt s.
Proof.
  intros C. unfold nxt. destruct (current _) as [w|] eqn:E; [|lia].
  apply (core_cur s C) in E as [_ E]. lia.
Qed.

Lemma next_committed_spec s : core s -> next_committed_height s = int_try U64 (nxt s).
Proof.
  intros C. unfold next_committed_height, nxt. destruct (current _) as [w|] eqn:E; [done|].
  destruct (core_config s C) as [F _]. by rewrite int_try_wf.
Qed.

Lemma next_pending s h b :
  core s -> (h, b) ∈ pending s -> next_committed_height s = Some (nxt s).
Proof.
  intros C I. rewrite next_committed_spec by done.
  destruct (core_pending s C h b I) as (E & [W _] & L). pose proof (nxt_first s C).
  destruct (core_config s C) as [F _]. rewrite E in W. apply int_try_wf. unfold ity_wf in *. lia.
Qed.

Lemma pending_at_next s b :
  core s -> bt_get (nxt s) (pending s) = Some b ->
  (nxt s, b) ∈ pending s /\ block_height b = nxt s /\ block_wf b.
Proof.
  intros C G. apply bt_get_Some in G as (k & E & I). apply cmp_eq_leibniz in E as <-.
  by destruct (core_pending s C _ _ I) as (? & ? & _).
Qed.

(** One iteration of the loop. *)
Definition drain_step b s : CanonicalSequencer P :=
  set_committed (advance b (committed s)) (set_pending (bt_remove (nxt s) (pending s)) s).

Lemma drain_step_core s b :
  core s -> bt_get (nxt s) (pending s) = Some b ->
  core (drain_step b s) /\ nxt (drain_step b s) = nxt s + 1 /\
  bt_len (pending (drain_step b s)) = bt_len (pending s) - 1.
Proof.
  intros C G. destruct (pending_at_next s b C G) as (I & Hb & Wb).
  assert (nxt (drain_step b s) = nxt s + 1) as N by (unfold nxt at 1; cbn; lia).
  split_and!; [|done|].
  - pose proof (nxt_first s C) as L.
    destruct C as [Cf Cc Cw Cs Cp]. assert (Cf' := Cf). destruct Cf' as (F & _ & R). split; try done.
    + intros w [= <-]. destruct Wb as [Wb _]. rewrite Hb in *. by split.
    + rewrite N. by apply window_advance.
    + by apply bt_remove_sorted.
    + intros h x J. rewrite N. apply bt_elem_remove in J as [J D]; [|done].
      apply Cp in J as (? & ? & ?). split_and!; [done..|]. cut (h <> nxt s); [lia|].
      intros ->. by rewrite cmp_refl in D.
  - cbn. rewrite bt_len_remove by apply C. unfold bt_contains. by rewrite G.
Qed.

(** [s'] differs from [s] in the committed stream only. *)
Definition same_outside_commits s s' : Prop :=
  config s' = config s /\ provisional s' = provisional s /\ outstanding_gap s' = outstanding_gap s /\
  red_incident_id s' = red_incident_id s /\ quarantines s' = quarantines s.

Lemma drain_spec fuel s :
  core s -> bt_len (pending s) < Z.of_nat fuel ->
  let '(ds, s') := drain fuel s in
  core s' /\ settled s' /\ same_outside_commits s s' /\
  nxt s <= nxt s' /\ commit_heights ds = seqZ (nxt s) (nxt s' - nxt s) /\
  bt_len (pending s') = bt_len (pending s) - (nxt s' - nxt s) /\
  (forall p, p ∈ pending s' -> p ∈ pending s) /\
  (forall p, p ∈ pending s -> p ∈ pending s' \/ p.1 < nxt s') /\
  Forall (fun d => exists b, d = Commit b /\ (block_height b, b) ∈ pending s) ds.
Proof.
  revert s. induction fuel as [|fuel IH]; intros s C L.
  { pose proof (zlen_nonneg (pending s)). unfold bt_len in L. lia. }
  assert (settled s -> core s /\ settled s /\ same_outside_commits s s /\ nxt s <= nxt s /\
    commit_heights [] = seqZ (nxt s) (nxt s - nxt s) /\
    bt_len (pending s) = bt_len (pending s) - (nxt s - nxt s) /\
    (forall p, p ∈ pending s -> p ∈ pending s) /\
    (forall p, p ∈ pending s -> p ∈ pending s \/ p.1 < nxt s) /\
    Forall (fun d => exists b, d = Commit b /\ (block_height b, b) ∈ pending s) []) as Stop.
  { intros St. rewrite Z.sub_diag. split_and!; try done; try lia; by auto. }
  cbn [drain]. destruct (next_committed_height s) as [next|] eqn:En.
  2: { apply Stop, Forall_forall. intros [h b] I. by rewrite (next_pending s h b C I) in En. }
  rewrite next_committed_spec in En by done. apply int_try_Some in En as [-> _].
  destruct (bt_get (nxt s) (pending s)) as [b|] eqn:G.
  2: { apply Stop, Forall_forall. intros [h b] I. apply bt_get_None in G.
       destruct (core_pending s C h b I) as (_ & _ & ?). rewrite Forall_forall in G.
       apply G in I as D. cbn in *. cut (h <> nxt s); [lia|]. intros ->. by rewrite cmp_refl in D. }
  destruct (drain_step_core s b C G) as (C' & N' & L').
  destruct (pending_at_next s b C G) as (I & Hb & _).
  specialize (IH (drain_step b s) C' ltac:(lia)). fold (drain_step b s).
  destruct (drain fuel (drain_step b s)) as [ds s'].
  destruct IH as (IHc & IHs & IHo & IHn & IHh & IHl & IHp & IHk & IHf). rewrite N', L' in *.
  assert (forall p, p ∈ pending (drain_step b s) -> p ∈ pending s) as Sub.
  { intros [h x] J. eapply bt_elem_remove in J; [|by apply C]. by destruct J. }
  split_and!; try done; try lia; [|by auto|..].
  - change (commit_heights (Commit b :: ds)) with (block_height b :: commit_heights ds).
    rewrite Hb, IHh, (seqZ_cons (nxt s)) by lia. f_equal. f_equal; lia.
  - intros [h x] J. destruct (decide (h = nxt s)) as [->|D]; [right; cbn; lia|].
    apply IHk. apply bt_remove_elem; [apply C|done|]. intros E. by apply cmp_eq_leibniz in E.
  - constructor; [exists b; by rewrite Hb|]. eapply Forall_impl; [exact IHf|].
    intros d (x & -> & J). eauto.
Qed.
End draining.

(** ** Every observation *)

Section steps.
Context {P : Type} `{EventPayload P} `{Hex} `{Blake3}.
Implicit Types (s : CanonicalSequencer P) (c : BlockCandidate P) (ds : list (SequencerDecision P)).

(** The latch and its records go together. *)
Definition latch_wf s : Prop :=
  match red_incident_id s with
  | Some i => exists r, quarantines s = [r] /\ incident_id r = i
  | None => quarantines s = []
  end.

(** The provisional window is bounded and holds blocks [BlockEnvelope::try_new] made. *)
Definition window_bounded (limit : Z) (w : Watermark P) : Prop :=
  retained_limit w = limit /\ bt_len (retained w) <= limit /\
  forall h b, (h, b) ∈ retained w -> block_height b = h /\ block_wf b.

Record seq_inv s : Prop := {
  inv_core : core s;
  inv_settled : settled s;
  inv_capacity : bt_len (pending s) <= max_pending_blocks (config s);
  inv_gap : outstanding_gap s = gap_of s;
  inv_latch : latch_wf s;
  inv_provisional : window_bounded (retained_committed_blocks (config s)) (provisional s);
}.

(** The hashes the pending blocks may have, by height. *)
Definition pending_from (Q : BlockHeight -> Hash -> Prop) s : Prop :=
  forall h b, (h, b) ∈ pending s -> Q h (canonical_block_hash b).

Definition commits_from (Q : BlockHeight -> Hash -> Prop) ds : Prop :=
  Forall (fun d => match d with Commit b => Q (block_height b) (canonical_block_hash b) | _ => True end)
    ds.

(** The height was committed or waits for its turn. *)
Definition accounted (h : BlockHeight) s : Prop := h < nxt s \/ h ∈ bt_keys (pending s).

(** What one observation does to the committed stream. *)
Record step_ok (Q : BlockHeight -> Hash -> Prop) s ds s' : Prop := {
  step_inv : seq_inv s';
  step_config : config s' = config s;
  step_nxt : nxt s <= nxt s';
  step_commits : commit_heights ds = seqZ (nxt s) (nxt s' - nxt s);
  step_pending : pending_from Q s';
  step_from : commits_from Q ds;
  step_keeps : forall h, accounted h s -> accounted h s';
}.

Definition is_commit (d : SequencerDecision P) : bool :=
  match d with Commit _ => true | _ => false end.

Lemma no_commits Q ds : Forall (fun d => is_commit d = false) ds ->
  commit_heights ds = [] /\ commits_from Q ds.
Proof.
  intros F. induction F as [|d ds E F [IH1 IH2]]; [split; [done|constructor]|].
  destruct d; try done; (split; [done|by constructor]).
Qed.

(** An observation that commits nothing. *)
Lemma step_stay Q s ds s' :
  seq_inv s' -> config s' = config s -> current (committed s') = current (committed s) ->
  bt_keys (pending s') = bt_keys (pending s) ->
  pending_from Q s' -> Forall (fun d => is_commit d = false) ds -> step_ok Q s ds s'.
Proof.
  intros I C W K F D. destruct (no_commits Q ds D) as [E1 E2].
  assert (nxt s' = nxt s) as N by (unfold nxt; by rewrite W, C).
  split; try done; [lia|by rewrite N, Z.sub_diag, E1|]. unfold accounted. by rewrite N, K.
Qed.

Lemma gap_of_ext s s' :
  config s' = config s -> current (committed s') = current (committed s) ->
  bt_keys (pending s') = bt_keys (pending s) -> gap_of s' = gap_of s.
Proof.
  intros C W K. unfold gap_of, next_committed_height, bt_first_key. by rewrite C, W, K.
Qed.

Lemma core_ext s s' :
  config s' = config s -> committed s' = committed s -> pending s' = pending s -> core s -> core s'.
Proof.
  intros C W K [A1 A2 A3 A4 A5].
  assert (nxt s' = nxt s) as N by (unfold nxt; by rewrite C, W).
  split; rewrite ?C, ?W, ?K, ?N; try done.
Qed.

Lemma latch_inv s r :
  seq_inv s -> exists s', latch_divergence r s = (Ok (Quarantine r), s') /\ seq_inv s' /\
    config s' = config s /\ committed s' = committed s /\ pending s' = pending s /\
    provisional s' = provisional s /\ outstanding_gap s' = outstanding_gap s /\
    red_incident_id s' = Some (default (incident_id r) (red_incident_id s)) /\
    (red_incident_id s <> None -> s' = s).
Proof.
  intros [A1 A2 A3 A4 A5 A6]. unfold latch_divergence. rewrite st_bind_get.
  destruct (red_incident_id s) as [i|] eqn:R; eexists; (split; [reflexivity|]); cbn.
  - split_and!; done.
  - split_and!; try done. split; cbn; try done; [by eapply core_ext; last exact A1|].
    unfold latch_wf in *. rewrite R in A5. cbn. rewrite A5. by exists r.
Qed.

(** Replacing a pending block by one of the same height and hash. *)
Lemma set_pending_inv Q s h b m :
  seq_inv s -> pending_from Q s -> bt_get h (pending s) = Some b ->
  block_wf m -> block_height m = block_height b ->
  canonical_block_hash m = canonical_block_hash b ->
  seq_inv (set_pending (bt_set h m (pending s)) s) /\
  pending_from Q (set_pending (bt_set h m (pending s)) s).
Proof.
  intros [A1 A2 A3 A4 A5 A6] F G Wm Hm Cm.
  apply bt_get_Some in G as (k & E & I). apply cmp_eq_leibniz in E as <-.
  destruct (core_pending s A1 _ _ I) as (Hb & _ & L).
  assert (forall (Pr : BlockHeight * BlockEnvelope P -> Prop), Pr (h, m) -> Forall Pr (pending s) ->
    Forall Pr (bt_set h m (pending s))) as Each.
  { intros Pr Ph Fa. apply bt_set_Forall; [|done]. intros k' v' _ E'.
    by apply cmp_eq_leibniz in E' as <-. }
  split.
  - split; cbn; try done.
    + destruct A1 as [B1 B2 B3 B4 B5]. split; cbn; try done; [by apply bt_set_sorted|].
      cut (Forall (fun p => block_height p.2 = p.1 /\ block_wf p.2 /\ nxt s <= p.1)
             (bt_set h m (pending s))).
      { intros Fa k x J. rewrite Forall_forall in Fa. by apply (Fa (k, x)). }
      apply Each; [cbn; by rewrite Hm|]. apply Forall_forall. intros [k x] J. by apply B5.
    + unfold settled. cbn. apply Each; [|done]. unfold settled in A2. rewrite Forall_forall in A2.
      by apply A2 in I.
    + by rewrite bt_len_set.
    + rewrite A4. symmetry. apply gap_of_ext; [done..|]. apply bt_set_keys.
  - intros k x J. cbn in J. cut (Forall (fun p => Q p.1 (canonical_block_hash p.2))
      (bt_set h m (pending s))).
    { intros Fa. rewrite Forall_forall in Fa. by apply (Fa (k, x)). }
    apply Each; [cbn; rewrite Cm; by apply F|]. apply Forall_forall. intros [k' x'] J'. by apply F.
Qed.

(** Replacing a retained block by one of the same height. *)
Lemma set_committed_inv s h b m :
  seq_inv s -> bt_get h (retained (committed s)) = Some b -> block_wf m ->
  block_height m = block_height b -> seq_inv (set_committed (set_retained h m (committed s)) s).
Proof.
  intros [[B1 B2 B3 B4 B5] A2 A3 A4 A5 A6] G Wm Hm. split; try done. split; try done. cbn.
  by apply (window_set _ _ _ _ h b m).
Qed.

Lemma set_provisional_inv s w :
  seq_inv s -> window_bounded (retained_committed_blocks (config s)) w ->
  seq_inv (set_provisional w s).
Proof. intros [A1 A2 A3 A4 A5 A6] W. split; try done. by eapply core_ext; last exact A1. Qed.

Lemma window_bounded_set limit w h b m :
  window_bounded limit w -> bt_get h (retained w) = Some b -> block_height m = block_height b ->
  block_wf m -> window_bounded limit (set_retained h m w).
Proof.
  intros (L & N & B) G Hm Wm. split_and!; [done|cbn; by rewrite bt_len_set|].
  apply bt_get_Some in G as (k & E & I). apply cmp_eq_leibniz in E as <-.
  intros k x J. cbn in J.
  cut (Forall (fun p => block_height p.2 = p.1 /\ block_wf p.2) (bt_set h m (retained w))).
  { intros Fa. rewrite Forall_forall in Fa. by apply (Fa (k, x)). }
  apply bt_set_Forall; [|apply Forall_forall; intros [k' x'] J'; by apply B].
  intros k' v' _ E. apply cmp_eq_leibniz in E as <-. cbn. rewrite Hm. by split; [apply B|].
Qed.

Lemma window_bounded_advance limit w b :
  0 <= limit -> window_bounded limit w -> block_wf b -> window_bounded limit (advance b w).
Proof.
  intros Pl (L & N & B) Wb. unfold advance. rewrite L. split_and!; [done|..]; cbn;
    rewrite evict_drop by done.
  - unfold bt_len, zlen in *. rewrite length_drop. lia.
  - intros h x I. apply subseteq_drop in I. apply bt_insert_elem in I as [I|[E ->]]; [by apply B|].
    by apply cmp_eq_leibniz in E as <-.
Qed.

Definition decisions_of {E} (r : result E (list (SequencerDecision P))) : list (SequencerDecision P) :=
  match r with Ok ds => ds | Err _ => [] end.

(** A repeated block: merged, quarantined or refused, and never committed. *)
Lemma resolve_merge_ok Q s r store h source :
  seq_inv s -> pending_from Q s ->
  (forall m, r = Ok m -> seq_inv (store m s) /\ config (store m s) = config s /\
     current (committed (store m s)) = current (committed s) /\
     bt_keys (pending (store m s)) = bt_keys (pending s) /\ pending_from Q (store m s)) ->
  let '(res, s') := resolve_merge r store h source s in step_ok Q s (decisions_of res) s'.
Proof.
  intros I F M. unfold resolve_merge. destruct r as [m|[rec|e|id why]].
  - destruct (M m eq_refl) as (I' & C' & W' & K' & F'). cbn. apply step_stay; try done. by repeat
      constructor.
  - destruct (latch_inv s rec I) as (s' & E & I' & C' & W' & P' & _).
    rewrite (st_bind_Ok _ _ _ _ _ E). cbn. apply step_stay; try done;
      [by rewrite W'|by rewrite P'| |by repeat constructor].
    intros h' b' J. rewrite P' in J. by apply F.
  - cbn. by apply step_stay.
  - cbn. by apply step_stay.
Qed.

Lemma observe_retained_ok Q s c is_committed :
  seq_inv s -> pending_from Q s ->
  let '(res, s') := observe_retained c is_committed s in step_ok Q s (decisions_of res) s'.
Proof.
  intros I F. unfold observe_retained. rewrite st_bind_get. cbv zeta.
  destruct (bt_get _ _) as [b|] eqn:G.
  2: { apply step_stay; try done. by repeat constructor. }
  apply resolve_merge_ok; try done. intros m M.
  assert (block_wf b) as Wb.
  { destruct (inv_provisional s I) as (_ & _ & V).
    apply bt_get_Some in G as (k & _ & J). destruct is_committed; [|by apply V in J as []].
    apply (win_blocks _ _ _ _ (core_win s (inv_core s I))) in J. by destruct J. }
  destruct (compare_and_merge_Ok b c m Wb M) as (Wm & _ & Hm & _). destruct is_committed.
  - split_and!; try done. by apply (set_committed_inv s _ b).
  - split_and!; try done. apply set_provisional_inv; [done|].
    apply (window_bounded_set _ _ _ b); try done. apply I.
Qed.

Lemma refresh_gap_eq ds s :
  exists tail, refresh_gap ds s = (Ok (ds ++ tail), set_gap (gap_of s) s) /\
    Forall (fun d => is_commit d = false) tail.
Proof.
  unfold refresh_gap. rewrite st_bind_get.
  destruct (next_committed_height s) as [next|] eqn:N.
  2: { exists []. rewrite app_nil_r. split; [|constructor]. unfold gap_of. by rewrite N. }
  case_bool_decide as E.
  - exists []. rewrite app_nil_r, E. split; [by destruct s|constructor].
  - eexists. split; [reflexivity|]. destruct (gap_of s); by repeat constructor.
Qed.

Lemma insert_core s h b :
  core s -> nxt s <= h -> block_height b = h -> block_wf b ->
  core (set_pending (bt_insert h b (pending s)) s).
Proof.
  intros [B1 B2 B3 B4 B5] L Hb Wb. split; cbn; try done; [by apply bt_insert_sorted|].
  intros k x J. apply bt_insert_elem in J as [J|[E ->]]; [by apply B5|].
  by apply cmp_eq_leibniz in E as <-.
Qed.

(** The insertion path of [observe_committed] as one function. *)
Definition admitted_block c s : list (SequencerDecision P) * CanonicalSequencer P :=
  let h := block_height (cand_block c) in
  let s1 := set_pending (bt_insert h (cand_block c) (pending s)) s in
  let '(ds, s2) := drain (S (length (pending s1))) s1 in
  match refresh_gap ds s2 with
  | (Ok ds', s3) => (if is_empty ds' then [AwaitMoreEvidence] else ds', s3)
  | (Err _, s3) => ([], s3)
  end.

Lemma admitted_block_eq c s :
  (_ ← st_modify (fun s => set_pending
           (bt_insert (block_height (cand_block c)) (cand_block c) (pending s)) s);
   decisions ← drain_contiguous;
   decisions ← refresh_gap decisions;
   mret (if is_empty decisions then [AwaitMoreEvidence] else decisions)) s =
  (Ok (admitted_block c s).1, (admitted_block c s).2) :> result SequencerError _ * _.
Proof.
  rewrite st_bind_modify. unfold admitted_block. cbv zeta. unfold drain_contiguous at 1.
  set (s1 := set_pending _ s). destruct (drain _ s1) as [ds s2] eqn:D.
  rewrite (st_bind_Ok _ _ s1 ds s2) by (by rewrite D).
  destruct (refresh_gap_eq ds s2) as (tail & E & _). rewrite E.
  by rewrite (st_bind_Ok _ _ _ _ _ E).
Qed.

Lemma decisions_tail Q ds tail :
  Forall (fun d => is_commit d = false) tail ->
  let out := if is_empty (ds ++ tail) then [AwaitMoreEvidence] else ds ++ tail in
  commit_heights out = commit_heights ds /\ (commits_from Q ds -> commits_from Q out).
Proof.
  intros F. destruct (no_commits Q tail F) as [E1 E2]. cbv zeta.
  destruct (is_empty (ds ++ tail)) eqn:E.
  - apply is_empty_true, app_nil in E as [-> _]. split; [done|by repeat constructor].
  - split; [|intros; by apply Forall_app].
    unfold commit_heights in *. by rewrite omap_app, E1, app_nil_r.
Qed.

Lemma admitted_block_ok Q c s :
  seq_inv s -> pending_from Q s -> block_wf (cand_block c) ->
  Q (block_height (cand_block c)) (canonical_block_hash (cand_block c)) ->
  nxt s <= block_height (cand_block c) ->
  bt_get (block_height (cand_block c)) (pending s) = None ->
  bt_len (pending s) < max_pending_blocks (config s) \/ block_height (cand_block c) = nxt s ->
  step_ok Q s (admitted_block c s).1 (admitted_block c s).2 /\
  accounted (block_height (cand_block c)) (admitted_block c s).2.
Proof.
  intros I F Wb Qc L G Cap. unfold admitted_block. set (h := block_height (cand_block c)) in *.
  set (b := cand_block c) in *. set (s1 := set_pending (bt_insert h b (pending s)) s).
  assert (core s1) as C1 by (apply insert_core; try done; apply I).
  assert (bt_len (pending s1) = bt_len (pending s) + 1) as L1.
  { cbn. rewrite bt_len_insert by apply I. unfold bt_contains. by rewrite G. }
  assert (forall p, p ∈ pending s1 -> Q p.1 (canonical_block_hash p.2)) as F1.
  { intros [k x] J. apply bt_insert_elem in J as [J|[E ->]]; [by apply F|].
    by apply cmp_eq_leibniz in E as <-. }
  pose proof (drain_spec (S (length (pending s1))) s1 C1) as D.
  destruct (drain _ s1) as [ds s2].
  destruct D as (C2 & S2 & (O1 & O2 & O3 & O4 & O5) & N2 & Hd & L2 & Sub & Keep & Fd);
    [unfold bt_len, zlen; lia|].
  destruct (refresh_gap_eq ds s2) as (tail & -> & Ft).
  change (nxt s1) with (nxt s) in *.
  assert (forall k, k ∈ bt_keys (pending s1) -> accounted k s2) as Acc.
  { intros k J. apply list_elem_of_fmap in J as ([k' x] & -> & J).
    apply Keep in J as [J|J]; [right; by apply (list_elem_of_fmap_2 fst) in J|by left]. }
  assert (accounted h s2) as Ah.
  { apply Acc. pose proof (bt_get_insert_eq h b (pending s)) as J.
    apply bt_get_Some in J as (k & Ek & J). apply cmp_eq_leibniz in Ek as <-.
    by apply (list_elem_of_fmap_2 fst) in J. }
  assert (h = nxt s -> nxt s < nxt s2) as Adv.
  { intros E. destruct Ah as [J|J]; [lia|]. apply list_elem_of_fmap in J as ([k x] & Ek & J).
    unfold settled in S2. rewrite Forall_forall in S2. apply S2 in J.
    change (nxt s2 < k) in J. change (h = k) in Ek. lia. }
  destruct (decisions_tail Q ds tail Ft) as [Et Ct]. cbn [fst snd].
  split; [|done]. split; try done.
  - split; try done.
    + by eapply core_ext; last exact C2.
    + cbn. rewrite O1. change (config s1) with (config s). pose proof (inv_capacity s I).
      destruct Cap as [Cap|Cap%Adv]; lia.
    + unfold latch_wf. cbn. rewrite O4, O5. apply I.
    + cbn. rewrite O1, O2. apply I.
  - rewrite Et, Hd. done.
  - intros k x J. by apply (F1 (k, x)), Sub.
  - apply Ct. eapply Forall_impl; [exact Fd|]. intros d (x & -> & J). by apply F1 in J.
  - intros k [J|J]; [left; change (k < nxt s2); lia|].
    by apply Acc, bt_insert_keys_mono.
Qed.

(** The height was released before, or never will be. *)
Definition is_past s (h : BlockHeight) : bool :=
  (h <? first_height (config s)) ||
  match current (committed s) with Some w => h <=? w | None => false end.

Lemma is_past_false s h : core s -> is_past s h = false -> nxt s <= h.
Proof.
  intros C E. unfold is_past in E. apply orb_false_iff in E as [E1 E2]. unfold nxt.
  destruct (current _); lia.
Qed.

Lemma capacity_false s h :
  core s ->
  (max_pending_blocks (config s) <=? bt_len (pending s)) &&
    negb (bool_decide (Some h = next_committed_height s)) = false ->
  bt_len (pending s) < max_pending_blocks (config s) \/ h = nxt s.
Proof.
  intros C [Cap|Cap]%andb_false_iff; [left; lia|right].
  apply negb_false_iff, bool_decide_eq_true in Cap.
  rewrite next_committed_spec in Cap by done. symmetry in Cap. by apply int_try_Some in Cap as [].
Qed.

Lemma observe_committed_ok Q s c :
  seq_inv s -> pending_from Q s -> block_wf (cand_block c) ->
  Q (block_height (cand_block c)) (canonical_block_hash (cand_block c)) ->
  let '(res, s') := observe_committed c s in step_ok Q s (decisions_of res) s'.
Proof.
  intros I F Wb Qc. unfold observe_committed. rewrite st_bind_get.
  destruct (red_incident_id s) as [i|]; [apply step_stay; try done; by repeat constructor|]. cbv zeta.
  fold (is_past s (block_height (cand_block c))).
  destruct (is_past s _) eqn:Past; [by apply observe_retained_ok|].
  apply is_past_false in Past; [|apply I].
  destruct (bt_get _ (pending s)) as [b|] eqn:G.
  - apply resolve_merge_ok; try done. intros m M.
    apply bt_get_Some in G as G'. destruct G' as (k & _ & J).
    apply (core_pending s (inv_core s I)) in J as (_ & Wx & _).
    destruct (compare_and_merge_Ok b c m Wx M) as (Wm & _ & Hm & _ & _ & Cm & _).
    destruct (set_pending_inv Q s _ b m I F G Wm Hm Cm). split_and!; try done. apply bt_set_keys.
  - destruct (_ && _) eqn:Cap; [by apply step_stay|]. rewrite admitted_block_eq.
    apply (admitted_block_ok Q); try done.
    apply capacity_false; [apply I|done].
Qed.

Lemma observe_provisional_ok Q s c :
  seq_inv s -> pending_from Q s -> block_wf (cand_block c) ->
  let '(res, s') := observe_provisional c s in step_ok Q s (decisions_of res) s'.
Proof.
  intros I F Wb. unfold observe_provisional. rewrite st_bind_get. cbv zeta.
  destruct (match current (provisional s) with Some _ => _ | None => _ end);
    [by apply observe_retained_ok|].
  apply step_stay; try done; [|by repeat constructor].
  apply set_provisional_inv; [done|]. apply window_bounded_advance; [|apply I|done].
  destruct (core_config s (inv_core s I)) as (_ & _ & ?). lia.
Qed.

Lemma observe_ok Q s c :
  seq_inv s -> pending_from Q s -> block_wf (cand_block c) ->
  (publication_lane (cand_admission c) = CommittedCandidate ->
   Q (block_height (cand_block c)) (canonical_block_hash (cand_block c))) ->
  let '(res, s') := observe c s in step_ok Q s (decisions_of res) s'.
Proof.
  intros I F Wb Qc. unfold observe. rewrite st_bind_get.
  destruct (negb _); [by apply step_stay|].
  destruct (publication_lane _); [|by apply step_stay..|by apply observe_provisional_ok|by apply
      step_stay].
  apply observe_committed_ok; auto.
Qed.

Lemma sequencer_new_inv cfg : config_wf cfg -> seq_inv (sequencer_new (P := P) cfg).
Proof.
  intros W. assert (W' := W). destruct W' as (F & M & R). split; try done; cbn; try lia.
  - assert (forall (h : BlockHeight) (b : BlockEnvelope P), (h, b) ∈ [] -> False) as No
      by (intros h b; apply not_elem_of_nil).
    split; try done; [|constructor|by intros h b I%No]. cbn.
    split; cbn; try done; [unfold nxt, bt_len, zlen; cbn [current committed sequencer_new
        watermark_new config length]; lia|by intros h b I%No].
  - constructor.
  - change (bt_len _) with 0. lia.
  - split_and!; [done|change (bt_len _) with 0; cbn; lia|]. by intros h b I%not_elem_of_nil.
Qed.

(** ** Runs *)

(** A run of observations; an observation that fails contributes no decision
    and leaves the state [observe] left. *)
Fixpoint run (cs : list (BlockCandidate P)) s : list (SequencerDecision P) * CanonicalSequencer P :=
  match cs with
  | [] => ([], s)
  | c :: cs =>
      let '(res, s) := observe c s in
      let '(ds, s) := run cs s in (decisions_of res ++ ds, s)
  end.

Lemma step_trans Q s1 ds1 s2 ds2 s3 :
  step_ok Q s1 ds1 s2 -> step_ok Q s2 ds2 s3 -> step_ok Q s1 (ds1 ++ ds2) s3.
Proof.
  intros [A1 A2 A3 A4 A5 A6 A7] [B1 B2 B3 B4 B5 B6 B7].
  split; try done; [congruence|lia| |by apply Forall_app|by auto].
  unfold commit_heights in *. rewrite omap_app, A4, B4.
  replace (nxt s3 - nxt s1) with ((nxt s2 - nxt s1) + (nxt s3 - nxt s2)) by lia.
  rewrite seqZ_app by lia. f_equal. f_equal. lia.
Qed.

Lemma run_ok Q cs s :
  seq_inv s -> pending_from Q s -> Forall (fun c => block_wf (cand_block c)) cs ->
  Forall (fun c => publication_lane (cand_admission c) = CommittedCandidate ->
     Q (block_height (cand_block c)) (canonical_block_hash (cand_block c))) cs ->
  let '(ds, s') := run cs s in step_ok Q s ds s'.
Proof.
  revert s. induction cs as [|c cs IH]; intros s I F W Qc; [by apply step_stay|].
  apply Forall_cons in W as [Wc W]. apply Forall_cons in Qc as [Qc Qcs]. cbn [run].
  pose proof (observe_ok Q s c I F Wc Qc) as St. destruct (observe c s) as [res s1].
  pose proof (IH s1 (step_inv _ _ _ _ St) (step_pending _ _ _ _ St) W Qcs) as Sr.
  destruct (run cs s1) as [ds s2]. by eapply step_trans.
Qed.
End steps.

(** ** What a run promises *)

Section promises.
Context {P : Type} `{EventPayload P} `{Hex} `{Blake3}.
Implicit Types (s : CanonicalSequencer P) (c : BlockCandidate P) (ds : list (SequencerDecision P)).

(** A candidate as the capture service builds it: the block from
    [BlockEnvelope::try_new], the admission from [SourceAdmission::new] and
    both through [BlockCandidate::try_new]. *)
Definition built_candidate c : Prop :=
  (exists chain h t k evs hashes, ity_wf U64 h /\
     block_try_new chain h t k evs hashes = Ok (cand_block c)) /\
  (exists t k, SourceAdmission.new t k = Ok (cand_admission c)) /\
  candidate_try_new (cand_source_id c) (cand_admission c) (cand_block c) = Ok c.

Lemma block_try_new_wf chain h t k evs hashes (b : BlockEnvelope P) :
  ity_wf U64 h -> block_try_new chain h t k evs hashes = Ok b -> block_wf b.
Proof.
  intros W E. unfold block_try_new in E. apply if_Err_Ok in E as [_ E].
  apply bind_Ok in E as (u & _ & E). injection E as <-. by split.
Qed.

Lemma built_wf c : built_candidate c -> block_wf (cand_block c).
Proof. intros [(chain & h & t & k & evs & hashes & W & E) _]. by eapply block_try_new_wf. Qed.

Lemma built_committed c :
  built_candidate c -> publication_lane (cand_admission c) = CommittedCandidate ->
  observation_class (cand_admission c) = CommittedBlock /\
  (trust (cand_admission c), confirmation_class (cand_block c)) ∈
    [(LocallyVerifiedCommitted, CommittedPrimary); (IndependentCommitted, CommittedIndependent)].
Proof.
  intros (_ & (t & k & A) & E) L. unfold SourceAdmission.new in A.
  apply bind_Ok in A as (lane & A & A'). injection A' as A'.
  unfold candidate_try_new in E. apply if_Err_Ok in E as [_ E]. apply if_Err_Ok in E as [_ E].
  apply bind_Ok in E as (u & V & _). unfold validate_confirmation in V.
  apply bind_Ok in V as (x & V & Vx). case_bool_decide as D; [|done]. rewrite D.
  unfold expected_confirmation in V. rewrite L in V. rewrite <- A' in *. cbn in *. subst lane.
  destruct t; try done; destruct k; try done; injection V as <-; split; try done;
    rewrite !elem_of_cons; auto.
Qed.

Lemma config_try_new_wf chain first mp ret cfg :
  ity_wf U64 first -> 0 <= mp -> 0 <= ret -> config_try_new chain first mp ret = Ok cfg ->
  config_wf cfg /\ first_height cfg = first /\ max_pending_blocks cfg = mp /\
  retained_committed_blocks cfg = ret.
Proof.
  intros F M R E. unfold config_try_new in E. apply if_Err_Ok in E as [Em E].
  apply if_Err_Ok in E as [Er E]. injection E as <-. split_and!; cbn; try done. split_and!; cbn; try
      done; lia.
Qed.

Lemma run_new Q cfg (cs : list (BlockCandidate P)) :
  config_wf cfg -> Forall built_candidate cs ->
  Forall (fun c => publication_lane (cand_admission c) = CommittedCandidate ->
     Q (block_height (cand_block c)) (canonical_block_hash (cand_block c))) cs ->
  let '(ds, s) := run cs (sequencer_new cfg) in step_ok Q (sequencer_new cfg) ds s.
Proof.
  intros W B F. apply run_ok; [by apply sequencer_new_inv| | |done].
  - by intros h b I%not_elem_of_nil.
  - eapply Forall_impl; [exact B|]. apply built_wf.
Qed.

(** C3. Whatever candidates arrive, in whatever order and from whatever lanes,
    the committed stream is exactly the heights from the configured first one
    on, each once and in order; the watermark is the last of them; and every
    committed block has the height and canonical hash of an observed candidate
    whose source is trusted with committed blocks. *)
Theorem commits_contiguous chain first mp ret cfg (cs : list (BlockCandidate P)) :
  ity_wf U64 first -> 0 <= mp -> 0 <= ret -> config_try_new chain first mp ret = Ok cfg ->
  Forall built_candidate cs ->
  let '(ds, s) := run cs (sequencer_new cfg) in
  exists n, 0 <= n /\ commit_heights ds = seqZ first n /\
    committed_watermark s = (if n =? 0 then None else Some (first + n - 1)) /\
    forall b, Commit b ∈ ds -> exists c, c ∈ cs /\
      block_height (cand_block c) = block_height b /\
      canonical_block_hash (cand_block c) = canonical_block_hash b /\
      observation_class (cand_admission c) = CommittedBlock /\
      (trust (cand_admission c) = LocallyVerifiedCommitted \/
       trust (cand_admission c) = IndependentCommitted).
Proof.
  intros Wf Wm Wr E B. destruct (config_try_new_wf _ _ _ _ _ Wf Wm Wr E) as (W & F & _).
  set (Q h x := exists c, c ∈ cs /\ block_height (cand_block c) = h /\
    canonical_block_hash (cand_block c) = x /\
    publication_lane (cand_admission c) = CommittedCandidate).
  pose proof (run_new Q cfg cs W B) as St.
  destruct (run cs (sequencer_new cfg)) as [ds s].
  destruct St as [I C N Hc _ Fr _]. { apply Forall_forall. intros c J L. by exists c. }
  change (nxt (sequencer_new cfg)) with (first_height cfg) in *. rewrite F in *.
  exists (nxt s - first). split_and!; [lia|done|..].
  - unfold committed_watermark, nxt in *. destruct (current (committed s)) as [w|] eqn:Ew.
    + apply (core_cur s (inv_core s I)) in Ew as [_ Ew]. rewrite C in Ew. cbn in Ew.
      destruct (Z.eqb_spec (w + 1 - first) 0); [lia|]. f_equal. lia.
    + rewrite C. cbn. rewrite F, Z.sub_diag. done.
  - intros b J. unfold commits_from in Fr. rewrite Forall_forall in Fr.
    destruct (Fr _ J) as (c & Jc & Eh & Ec & L). exists c. split_and!; try done;
      rewrite Forall_forall in B; destruct (built_committed c (B c Jc) L) as [? T]; [done|].
    rewrite !elem_of_cons in T. destruct T as [[= -> _]|[[= -> _]|T%not_elem_of_nil]]; auto. done.
Qed.

Lemma settled_gap s :
  seq_inv s ->
  match outstanding_gap s with
  | None => pending s = []
  | Some g => gap_start g = nxt s /\ bt_first_key (pending s) = Some (gap_end_inclusive g + 1) /\
              gap_start g <= gap_end_inclusive g
  end.
Proof.
  intros [C S _ -> _ _]. unfold gap_of.
  destruct (pending s) as [|[k b] p] eqn:Ep.
  { cbn. by destruct (next_committed_height s). }
  assert ((k, b) ∈ pending s) as I by (rewrite Ep; left).
  rewrite (next_pending s k b C I). cbn.
  unfold settled in S. rewrite Forall_forall in S. apply S in I as L. change (nxt s < k) in L.
  destruct (core_pending s C k b I) as (Hb & [Wb _] & _). pose proof (nxt_first s C) as Fn.
  destruct (core_config s C) as [Wf _]. unfold ity_wf in *. cbn [ity_min ity_max] in *.
  rewrite (proj2 (Z.ltb_lt _ _) L). unfold int_saturating_sub.
  cbn [gap_start gap_end_inclusive ity_min ity_max].
  split_and!; [done|f_equal; lia|lia].
Qed.

(** C20. At every point of every run: no more than [max_pending_blocks] blocks
    wait; the outstanding gap is exactly the heights between the watermark and
    the first waiting block, and there is none only when nothing waits; the
    retained committed window is the last [retained_committed_blocks] heights;
    at most one incident is recorded; and health is green exactly when nothing
    waits and nothing was quarantined. *)
Theorem sequencer_invariant chain first mp ret cfg (cs : list (BlockCandidate P)) :
  ity_wf U64 first -> 0 <= mp -> 0 <= ret -> config_try_new chain first mp ret = Ok cfg ->
  Forall built_candidate cs ->
  let s := (run cs (sequencer_new cfg)).2 in
  pending_block_count s <= mp /\
  match outstanding_gap s with
  | None => pending s = []
  | Some g => gap_start g = nxt s /\ bt_first_key (pending s) = Some (gap_end_inclusive g + 1) /\
              gap_start g <= gap_end_inclusive g
  end /\
  (let len := Z.min ret (nxt s - first) in bt_keys (retained (committed s)) = seqZ (nxt s - len) len) /\
  zlen (quarantines s) <= 1 /\
  (health s = Green <-> pending s = [] /\ quarantines s = []).
Proof.
  intros Wf Wm Wr E B. destruct (config_try_new_wf _ _ _ _ _ Wf Wm Wr E) as (W & <- & <- & <-).
  pose proof (run_new (fun _ _ => True) cfg cs W B) as St.
  destruct (run cs (sequencer_new cfg)) as [ds s]. cbn [snd].
  destruct St as [I C _ _ _ _ _]. { by apply Forall_forall. }
  change (config (sequencer_new cfg)) with cfg in C. pose proof (settled_gap s I) as G.
  destruct (core_win s (inv_core s I)) as [_ Wl Wk _]. rewrite C in Wl.
  pose proof (inv_latch s I) as La. unfold latch_wf in La. split_and!.
  - rewrite <- C. apply I.
  - done.
  - cbv zeta. by rewrite <- Wl.
  - destruct (red_incident_id s); [destruct La as (r & -> & _)|rewrite La]; done.
  - unfold health. destruct (red_incident_id s) as [i|].
    + destruct La as (r & -> & _). split; [done|by intros []].
    + destruct (outstanding_gap s) as [g|]; [|by split].
      destruct G as (_ & G & _). split; [done|]. intros [Ep _]. by rewrite Ep in G.
Qed.

(** Nothing but the provisional window differs. *)
Definition frozen s s' : Prop :=
  config s' = config s /\ committed s' = committed s /\ pending s' = pending s /\
  outstanding_gap s' = outstanding_gap s /\ red_incident_id s' = red_incident_id s /\
  quarantines s' = quarantines s.

Lemma frozen_trans s1 s2 s3 : frozen s1 s2 -> frozen s2 s3 -> frozen s1 s3.
Proof. unfold frozen. intuition congruence. Qed.

(** The provisional path, up to the latch. *)
Lemma observe_provisional_frozen c s :
  let '(res, s') := observe_provisional c s in
  Forall (fun d => is_commit d = false) (decisions_of res) /\
  (frozen s s' \/ exists r, red_incident_id s = None /\ res = Ok [Quarantine r] /\
     s' = set_red (Some (incident_id r)) (quarantines s ++ [r]) s).
Proof.
  unfold observe_provisional. rewrite st_bind_get. cbv zeta.
  assert (forall w, frozen s (set_provisional w s)) as Fz by done.
  destruct (match current (provisional s) with Some _ => _ | None => _ end).
  2: { split; [by repeat constructor|left; apply Fz]. }
  unfold observe_retained. rewrite st_bind_get. cbv zeta.
  destruct (bt_get _ _) as [b|]; [|split; [by repeat constructor|by left]].
  unfold resolve_merge. destruct (compare_and_merge b c) as [m|[rec|e|id why]].
  - split; [by repeat constructor|left; apply Fz].
  - unfold latch_divergence. destruct (red_incident_id s) eqn:R.
    + rewrite (st_bind_Ok _ _ s (Quarantine rec) s) by (rewrite st_bind_get, R; done).
      split; [by repeat constructor|by left].
    + rewrite (st_bind_Ok _ _ s (Quarantine rec)
        (set_red (Some (incident_id rec)) (quarantines s ++ [rec]) s))
        by (rewrite st_bind_get, R; done).
      split; [by repeat constructor|right; by exists rec].
  - by split; [constructor|left].
  - by split; [constructor|left].
Qed.

Lemma observe_red i c s :
  red_incident_id s = Some i ->
  let '(res, s') := observe c s in
  frozen s s' /\ Forall (fun d => is_commit d = false) (decisions_of res).
Proof.
  intros R. unfold observe. rewrite st_bind_get. destruct (negb _); [by split|].
  destruct (publication_lane _); try by split.
  - unfold observe_committed. rewrite st_bind_get, R. by split; [|repeat constructor].
  - pose proof (observe_provisional_frozen c s) as O. destruct (observe_provisional c s) as [res s'].
    destruct O as [O [F|(r & N & _)]]; [by split|congruence].
Qed.

Lemma run_red i (cs : list (BlockCandidate P)) s :
  red_incident_id s = Some i ->
  let '(ds, s') := run cs s in frozen s s' /\ Forall (fun d => is_commit d = false) ds.
Proof.
  revert s. induction cs as [|c cs IH]; intros s R; cbn [run]; [by split|].
  pose proof (observe_red i c s R) as O. destruct (observe c s) as [res s1]. destruct O as [F N].
  assert (red_incident_id s1 = Some i) as R1 by (rewrite <- R; apply F).
  specialize (IH s1 R1). destruct (run cs s1) as [ds s2]. destruct IH as [F2 N2].
  split; [by eapply frozen_trans|by apply Forall_app].
Qed.

(** Once a divergence latched red, nothing is committed any more: whatever
    is observed afterwards, the decisions hold no commit and the committed
    watermark and window, the pending blocks, the gap, the incident and its
    record stay as they were; a committed candidate of the right chain is
    answered with the incident to resolve. *)
Theorem red_latches i (cs : list (BlockCandidate P)) s :
  red_incident_id s = Some i ->
  (let '(ds, s') := run cs s in
   commit_heights ds = [] /\ committed s' = committed s /\ pending s' = pending s /\
   outstanding_gap s' = outstanding_gap s /\ red_incident_id s' = Some i /\
   quarantines s' = quarantines s) /\
  (forall c, chain_id (cand_block c) = cfg_chain_id (config s) ->
    publication_lane (cand_admission c) = CommittedCandidate ->
    observe c s = (Ok [AwaitOperatorResolution i], s)).
Proof.
  intros R. split.
  - pose proof (run_red i cs s R) as O. destruct (run cs s) as [ds s'].
    destruct O as [(_ & F1 & F2 & F3 & F4 & F5) N].
    destruct (no_commits (fun _ _ => True) ds N) as [-> _]. by rewrite F4.
  - intros c Ec L. unfold observe. rewrite st_bind_get, bool_decide_true by done. rewrite L.
    unfold observe_committed. cbn [negb]. by rewrite st_bind_get, R.
Qed.

(** The block a committed candidate of height [h] is compared with. *)
Definition held_block s (h : BlockHeight) : option (BlockEnvelope P) :=
  if is_past s h then bt_get h (retained (committed s)) else bt_get h (pending s).

Definition committed_observation c s : Prop :=
  chain_id (cand_block c) = cfg_chain_id (config s) /\
  publication_lane (cand_admission c) = CommittedCandidate /\ red_incident_id s = None.

Lemma observe_committed_eq c s :
  committed_observation c s -> observe c s = observe_committed c s.
Proof.
  intros (Ec & L & _). unfold observe. rewrite st_bind_get, bool_decide_true by done.
  cbn [negb]. by rewrite L.
Qed.

Lemma observe_held c s b :
  committed_observation c s -> held_block s (block_height (cand_block c)) = Some b ->
  observe c s = resolve_merge (compare_and_merge b c)
    (fun m s' => if is_past s (block_height (cand_block c))
                 then set_committed (set_retained (block_height (cand_block c)) m (committed s')) s'
                 else set_pending (bt_set (block_height (cand_block c)) m (pending s')) s')
    (block_height (cand_block c)) (cand_source_id c) s.
Proof.
  intros O G. rewrite observe_committed_eq by done. destruct O as (_ & _ & R).
  unfold observe_committed. rewrite st_bind_get, R. cbv zeta.
  fold (is_past s (block_height (cand_block c))). unfold held_block in G.
  destruct (is_past s _); [|by rewrite G].
  unfold observe_retained. by rewrite st_bind_get, G.
Qed.

Lemma order_hashes_comm x y : order_hashes x y = order_hashes y x.
Proof.
  unfold order_hashes, leb. destruct (cmp x y) eqn:E.
  - apply cmp_eq_leibniz in E as ->. by rewrite cmp_refl.
  - by rewrite (proj2 (cmp_gt_lt y x) E).
  - apply cmp_gt_lt in E. by rewrite E.
Qed.

Lemma sort_two_comm (a b : SourceId) : sort [a; b] = sort [b; a].
Proof.
  cbn. unfold ltb. destruct (cmp a b) eqn:E.
  - apply cmp_eq_leibniz in E as ->. by rewrite cmp_refl.
  - by rewrite (proj2 (cmp_gt_lt b a) E).
  - apply cmp_gt_lt in E. by rewrite E.
Qed.

(** An incident is named by the disagreement, not by the order of arrival:
    two sources that report different canonical blocks for a height, or two
    different block hashes of one source, give the same incident id whichever
    came first. *)
Theorem incident_id_symmetric chain h (a b : SourceId) x y :
  incident_id (canonical_block_divergence chain h [a] b x y) =
    incident_id (canonical_block_divergence chain h [b] a y x) /\
  incident_id (source_block_hash_divergence chain h a x y) =
    incident_id (source_block_hash_divergence chain h a y x) /\
  forall e, incident_id (event_source_evidence_divergence chain h e a x y) =
    incident_id (event_source_evidence_divergence chain h e a y x).
Proof.
  unfold canonical_block_divergence, source_block_hash_divergence, event_source_evidence_divergence.
  rewrite (order_hashes_comm y x). destruct (order_hashes x y) as [p q]. split_and!; [|done..].
  cbn [incident_id]. unfold compute_incident_id.
  change (dedup (sort [a]) ++ [b]) with [a; b]. change (dedup (sort [b]) ++ [a]) with [b; a].
  by rewrite sort_two_comm.
Qed.

(** Two canonical blocks for one height never pass: when a committed
    candidate disagrees in canonical hash with the pending or retained block
    of its height, the observation commits nothing, quarantines exactly that
    conflict and latches the state red with its incident, leaving the first
    block, the watermark and the pending blocks in place. *)
Theorem conflicting_block_latches c s b :
  committed_observation c s -> held_block s (block_height (cand_block c)) = Some b ->
  canonical_block_hash b <> canonical_block_hash (cand_block c) ->
  exists r s', observe c s = (Ok [Quarantine r], s') /\
    reason r = ConflictingCanonicalBlock (canonical_block_hash b) (canonical_block_hash (cand_block
        c)) /\
    q_block_height r = block_height b /\ conflicting_source_id r = cand_source_id c /\
    health s' = RedHealth (incident_id r) /\ quarantines s' = quarantines s ++ [r] /\
    committed s' = committed s /\ pending s' = pending s.
Proof.
  intros O G D. rewrite (observe_held c s b O G). destruct O as (_ & _ & R).
  unfold compare_and_merge. rewrite bool_decide_false by done. cbn [negb resolve_merge].
  set (r := canonical_block_divergence _ _ _ _ _ _).
  exists r, (set_red (Some (incident_id r)) (quarantines s ++ [r]) s). split.
  - unfold latch_divergence.
    rewrite (st_bind_Ok _ _ s (Quarantine r) (set_red (Some (incident_id r)) (quarantines s ++ [r]) s))
      by (rewrite st_bind_get, R; done). done.
  - unfold r, canonical_block_divergence. destruct (order_hashes _ _). by split_and!.
Qed.

(** A committed candidate that agrees with the block held for its height
    is recorded as a duplicate without committing anything: the held block
    keeps its canonical hash, height and time, and afterwards also carries the
    candidate's source block hash. *)
Theorem duplicate_keeps_block c s s' b ds :
  seq_inv s -> committed_observation c s ->
  held_block s (block_height (cand_block c)) = Some b ->
  observe c s = (Ok ds, s') -> red_incident_id s' = None ->
  ds = [RecordDuplicate (block_height (cand_block c)) (cand_source_id c)] /\
  committed_watermark s' = committed_watermark s /\
  exists m, held_block s' (block_height (cand_block c)) = Some m /\
    canonical_block_hash m = canonical_block_hash b /\
    canonical_block_hash m = canonical_block_hash (cand_block c) /\
    block_height m = block_height b /\ block_time m = block_time b /\
    source_block_hashes m =
      bt_extend (source_block_hashes b) (source_block_hashes (cand_block c)).
Proof.
  intros I O G E R'. rewrite (observe_held c s b O G) in E.
  assert (block_wf b) as Wb.
  { unfold held_block in G. destruct (is_past s _); apply bt_get_Some in G as (k & _ & J).
    - apply (win_blocks _ _ _ _ (core_win s (inv_core s I))) in J. by destruct J.
    - by apply (core_pending s (inv_core s I)) in J as (_ & ? & _). }
  destruct (compare_and_merge b c) as [m|[rec|e|id why]] eqn:M; cbn [resolve_merge] in E; try done.
  - destruct (compare_and_merge_Ok b c m Wb M) as (_ & _ & Hm & Ht & _ & Hc & Hd & Hs).
    rewrite st_bind_modify in E. injection E as <- <-. split; [done|].
    unfold held_block in *. destruct (is_past s _) eqn:Ps; (split; [done|]); exists m.
    + change (is_past (set_committed _ s) _) with (is_past s (block_height (cand_block c))).
      rewrite Ps. cbn [retained set_retained committed set_committed].
      rewrite bt_get_set, G. unfold eqb. rewrite cmp_refl. split_and!; congruence.
    + change (is_past (set_pending _ s) _) with (is_past s (block_height (cand_block c))).
      rewrite Ps. cbn [pending set_pending].
      rewrite bt_get_set, G. unfold eqb. rewrite cmp_refl. split_and!; congruence.
  - destruct (latch_inv s rec I) as (s2 & L & _ & _ & _ & _ & _ & _ & R & _).
    rewrite (st_bind_Ok _ _ _ _ _ L) in E. injection E as <- <-. congruence.
Qed.

(** The provisional lane cannot move the committed stream: any run of
    observations of which none is on the committed lane commits nothing and
    leaves the committed watermark and window, the pending blocks and the gap
    as they were. *)
Theorem provisional_never_commits (cs : list (BlockCandidate P)) s :
  Forall (fun c => publication_lane (cand_admission c) <> CommittedCandidate) cs ->
  let '(ds, s') := run cs s in
  commit_heights ds = [] /\ committed s' = committed s /\ pending s' = pending s /\
  outstanding_gap s' = outstanding_gap s.
Proof.
  revert s. induction cs as [|c cs IH]; intros s F; [done|].
  apply Forall_cons in F as [L F]. cbn [run].
  assert (let '(res, s') := observe c s in commit_heights (decisions_of res) = [] /\
    committed s' = committed s /\ pending s' = pending s /\ outstanding_gap s' = outstanding_gap s)
        as St.
  { unfold observe. rewrite st_bind_get. destruct (negb _); [done|].
    destruct (publication_lane _); try done.
    pose proof (observe_provisional_frozen c s) as O. destruct (observe_provisional c s) as [res s'].
    destruct O as [O Z]. destruct (no_commits (fun _ _ => True) _ O) as [-> _].
    destruct Z as [(_ & -> & -> & -> & _)|(r & _ & _ & ->)]; done. }
  destruct (observe c s) as [res s1]. destruct St as (N & <- & <- & <-).
  specialize (IH s1 F). destruct (run cs s1) as [ds s2]. destruct IH as (N2 & -> & -> & ->).
  unfold commit_heights in *. by rewrite omap_app, N, N2.
Qed.

(** *** Progress *)

(** Every observation of a run answered without an error. *)
Fixpoint run_clean (cs : list (BlockCandidate P)) s : Prop :=
  match cs with
  | [] => True
  | c :: cs =>
      match observe c s with
      | (Ok _, s') => run_clean cs s'
      | (Err _, _) => False
      end
  end.

Lemma observe_accounts c s ds s' :
  seq_inv s -> block_wf (cand_block c) ->
  publication_lane (cand_admission c) = CommittedCandidate ->
  observe c s = (Ok ds, s') -> red_incident_id s' = None -> first_height (config s) <= block_height
      (cand_block c) ->
  accounted (block_height (cand_block c)) s'.
Proof.
  intros I W L E R' Fh.
  assert (chain_id (cand_block c) = cfg_chain_id (config s)) as Ch.
  { unfold observe in E. rewrite st_bind_get in E. case_bool_decide as D; [done|by cbn in E]. }
  destruct (red_incident_id s) as [i|] eqn:R.
  { pose proof (observe_red i c s R) as O. rewrite E in O. destruct O as [(_ & _ & _ & _ & O & _) _].
    congruence. }
  assert (committed_observation c s) as O by done.
  pose proof (observe_ok (fun _ _ => True) s c I) as St. rewrite E in St.
  specialize (St ltac:(done) W ltac:(done)). destruct St as [_ _ _ _ _ _ Keep].
  rewrite observe_committed_eq in E by done. unfold observe_committed in E.
  rewrite st_bind_get, R in E. cbv zeta in E. fold (is_past s (block_height (cand_block c))) in E.
  destruct (is_past s (block_height (cand_block c))) eqn:Ps.
  { apply Keep. left. unfold is_past in Ps. unfold nxt. apply orb_true_iff in Ps as [Ps|Ps]; [lia|].
    destruct (current _); [lia|done]. }
  destruct (bt_get _ (pending s)) as [b|] eqn:G.
  { apply Keep. right. apply bt_get_Some in G as (k & Ek & J). apply cmp_eq_leibniz in Ek as ->.
    by apply (list_elem_of_fmap_2 fst) in J. }
  destruct (_ && _) eqn:Cap; [done|]. rewrite admitted_block_eq in E. injection E as _ <-.
  apply (admitted_block_ok (fun _ _ => True)); try done; [apply is_past_false; [apply I|done]|].
  apply capacity_false; [apply I|done].
Qed.

Lemma run_decisions_account (cs : list (BlockCandidate P)) s :
  seq_inv s -> Forall (fun c => block_wf (cand_block c)) cs -> run_clean cs s ->
  red_incident_id (run cs s).2 = None ->
  forall h, accounted h s \/
    (first_height (config s) <= h /\ exists c, c ∈ cs /\ block_height (cand_block c) = h /\
       publication_lane (cand_admission c) = CommittedCandidate) ->
  accounted h (run cs s).2.
Proof.
  revert s. induction cs as [|c cs IH]; intros s I W Cl R h A.
  { destruct A as [A|(_ & c & J%not_elem_of_nil & _)]; done. }
  apply Forall_cons in W as [Wc W]. cbn [run run_clean] in *.
  pose proof (observe_ok (fun _ _ => True) s c I ltac:(done) Wc ltac:(done)) as St.
  destruct (observe c s) as [[ds|e] s1] eqn:E; [|done].
  assert (red_incident_id s1 = None) as R1.
  { destruct (red_incident_id s1) as [i|] eqn:Ri; [|done].
    pose proof (run_red i cs s1 Ri) as O. destruct (run cs s1). cbn [snd] in R.
    destruct O as [(_ & _ & _ & _ & O & _) _]. congruence. }
  specialize (IH s1 (step_inv _ _ _ _ St) W Cl). destruct (run cs s1) as [ds2 s2]. cbn [snd] in *.
  apply IH; [done|]. rewrite (step_config _ _ _ _ St).
  destruct A as [A|(Fh & x & J & Eh & L)]; [left; by apply (step_keeps _ _ _ _ St)|].
  apply elem_of_cons in J as [->|J]; [|right; split; [done|by exists x]].
  left. rewrite <- Eh in *. by eapply observe_accounts.
Qed.

(** C37. Progress, whatever the order: if a run met no error and no divergence
    and the committed lane delivered every one of the first [n] heights, then
    all of them are committed. *)
Theorem delivered_heights_commit chain first mp ret cfg (cs : list (BlockCandidate P)) n :
  ity_wf U64 first -> 0 <= mp -> 0 <= ret -> config_try_new chain first mp ret = Ok cfg ->
  Forall built_candidate cs -> run_clean cs (sequencer_new cfg) ->
  red_incident_id (run cs (sequencer_new cfg)).2 = None -> 0 < n ->
  (forall h, first <= h < first + n -> exists c, c ∈ cs /\ block_height (cand_block c) = h /\
     publication_lane (cand_admission c) = CommittedCandidate) ->
  exists w, committed_watermark (run cs (sequencer_new cfg)).2 = Some w /\ first + n - 1 <= w.
Proof.
  intros Wf Wm Wr E B Cl R Pn D. destruct (config_try_new_wf _ _ _ _ _ Wf Wm Wr E) as (W & F & _).
  assert (Forall (fun c => block_wf (cand_block c)) cs) as Bw
    by (eapply Forall_impl; [exact B|apply built_wf]).
  pose proof (run_decisions_account cs _ (sequencer_new_inv cfg W) Bw Cl R) as A.
  pose proof (run_new (fun _ _ => True) cfg cs W B ltac:(by apply Forall_forall)) as St.
  destruct (run cs (sequencer_new cfg)) as [ds s]. cbn [snd] in *.
  change (first_height (config (sequencer_new cfg))) with (first_height cfg) in A. rewrite F in A.
  pose proof (step_nxt _ _ _ _ St) as N. change (nxt (sequencer_new cfg)) with (first_height cfg) in N.
  assert (first + n <= nxt s) as L.
  { destruct (Z.le_gt_cases (first + n) (nxt s)) as [|Lt]; [done|]. exfalso.
    destruct (A (nxt s)) as [X|X]; [right; split; [lia|apply D; lia]|lia|].
    apply list_elem_of_fmap in X as ([k b] & Ek & X). change (nxt s = k) in Ek.
    pose proof (inv_settled s (step_inv _ _ _ _ St)) as S. unfold settled in S.
    rewrite Forall_forall in S. apply S in X. change (nxt s < k) in X. lia. }
  unfold committed_watermark, nxt in *. destruct (current (committed s)) as [w|].
  - exists w. split; [done|lia].
  - rewrite (step_config _ _ _ _ St) in L. change (first + n <= first_height cfg) in L. lia.
Qed.
End promises.

(** ** Concrete runs *)

Definition sample_cfg : SequencerConfig := mkConfig "hl" 5 3 2.
Definition primary_admission : SourceAdmission :=
  mkAdmission LocallyVerifiedCommitted CommittedBlock CommittedCandidate.
Definition feed_admission : SourceAdmission :=
  mkAdmission ThirdPartyProvisional ProvisionalFeed Provisional.
Definition primary (height : Z) : BlockCandidate unit :=
  mkCandidate unit "node" primary_admission (sample_block height "node" CommittedPrimary).
Definition feed (height : Z) : BlockCandidate unit :=
  mkCandidate unit "feed" feed_admission (sample_block height "feed" ProvisionalSource).

(** The block of [height] without its events, from another node. *)
Definition rival (height : Z) : BlockCandidate unit :=
  mkCandidate unit "other" primary_admission
    (mkBlock unit "hl" height 1000 CommittedPrimary [] [("other", replicate 32 x06)]
       (@compute_block_hash unit unit_payload sample_blake3 "hl" height 1000 [])).

(** Two heights out of order, the first again, and a provisional block. *)
Definition sample_candidates : list (BlockCandidate unit) := [primary 6; feed 9; primary 5; primary 5].
Definition sample_run (cs : list (BlockCandidate unit)) : list (SequencerDecision unit) * _ :=
  @run unit _ sample_hex sample_blake3 cs (sequencer_new sample_cfg).

Lemma primary_built h : ity_wf U64 h -> h = 5 \/ h = 6 ->
  @built_candidate unit _ sample_hex sample_blake3 (primary h).
Proof.
  intros W E. split_and!.
  - exists "hl", h, 1000, CommittedPrimary, (sample_events h "node" CommittedPrimary),
      [("node", replicate 32 x05)]. split; [done|]. destruct E as [-> | ->]; vm_compute; reflexivity.
  - by exists LocallyVerifiedCommitted, CommittedBlock.
  - destruct E as [-> | ->]; vm_compute; reflexivity.
Qed.

Lemma feed_built : @built_candidate unit _ sample_hex sample_blake3 (feed 9).
Proof.
  split_and!.
  - exists "hl", 9, 1000, ProvisionalSource, (sample_events 9 "feed" ProvisionalSource),
      [("feed", replicate 32 x05)]. split; [done|]. vm_compute; reflexivity.
  - by exists ThirdPartyProvisional, ProvisionalFeed.
  - vm_compute; reflexivity.
Qed.

Lemma sample_built : Forall (@built_candidate unit _ sample_hex sample_blake3) sample_candidates.
Proof. repeat constructor; first [apply feed_built | apply primary_built; [done|auto]]. Qed.

Lemma commits_contiguous_witness :
  let '(ds, s) := sample_run sample_candidates in
  exists n, 0 <= n /\ commit_heights ds = seqZ 5 n /\
    committed_watermark s = (if n =? 0 then None else Some (5 + n - 1)).
Proof.
  pose proof (@commits_contiguous unit _ sample_hex sample_blake3 "hl" 5 3 2 sample_cfg
    sample_candidates ltac:(done) ltac:(done) ltac:(done) eq_refl sample_built) as T.
  unfold sample_run. destruct (run sample_candidates (sequencer_new sample_cfg)) as [ds s].
  destruct T as (n & N & C & W & _). by exists n.
Defined.

Lemma sequencer_invariant_witness :
  pending_block_count (sample_run sample_candidates).2 <= 3 /\
  zlen (quarantines (sample_run sample_candidates).2) <= 1.
Proof.
  pose proof (@sequencer_invariant unit _ sample_hex sample_blake3 "hl" 5 3 2 sample_cfg
    sample_candidates ltac:(done) ltac:(done) ltac:(done) eq_refl sample_built) as T.
  cbv zeta in T. destruct T as (A & _ & _ & B & _). by split.
Defined.

Lemma red_latches_witness :
  red_incident_id (sample_run [primary 6; rival 6]).2 <> None /\
  pending (sample_run [primary 6; rival 6; primary 5]).2 =
    pending (sample_run [primary 6; rival 6]).2.
Proof.
  split; [vm_compute; discriminate|].
  destruct (red_incident_id (sample_run [primary 6; rival 6]).2) as [i|] eqn:R;
    [|vm_compute in R; discriminate].
  pose proof (@red_latches unit _ sample_hex sample_blake3 i [primary 5] _ R) as [T _].
  vm_compute in T |- *. apply T.
Defined.

Definition held_6 : CanonicalSequencer unit := (sample_run [primary 6]).2.

Lemma conflicting_block_latches_witness :
  exists r s', @observe unit _ sample_hex sample_blake3 (rival 6) held_6 = (Ok [Quarantine r], s') /\
    committed_watermark s' = None.
Proof.
  destruct (@conflicting_block_latches unit _ sample_hex sample_blake3 (rival 6) held_6
    (sample_block 6 "node" CommittedPrimary)) as (r & s' & E & _ & _ & _ & _ & _ & C & _).
  - by repeat split; vm_compute.
  - vm_compute. reflexivity.
  - vm_compute. discriminate.
  - exists r, s'. split; [exact E|]. unfold committed_watermark. rewrite C. vm_compute. reflexivity.
Defined.

Definition mirror (height : Z) : BlockCandidate unit :=
  mkCandidate unit "mirror" primary_admission (sample_block height "mirror" CommittedPrimary).

Lemma held_6_inv : @seq_inv unit _ sample_blake3 held_6.
Proof.
  pose proof (@run_new unit _ sample_hex sample_blake3 (fun _ _ => True) sample_cfg [primary 6]
    ltac:(done) (Forall_cons_2 _ _ _ (primary_built 6 ltac:(done) ltac:(by right)) (Forall_nil_2 _))
    ltac:(by repeat constructor)) as R.
  unfold held_6, sample_run. destruct (run [primary 6] (sequencer_new sample_cfg)) as [ds s].
  apply R.
Qed.

Lemma duplicate_keeps_block_witness :
  exists s', @observe unit _ sample_hex sample_blake3 (mirror 6) held_6 =
      (Ok [RecordDuplicate 6 "mirror"], s') /\
    exists m, held_block s' 6 = Some m /\ bt_keys (source_block_hashes m) = ["mirror"; "node"].
Proof.
  destruct (@observe unit _ sample_hex sample_blake3 (mirror 6) held_6) as [[ds|e] s'] eqn:E.
  2: { apply (f_equal fst) in E. vm_compute in E. discriminate. }
  assert (red_incident_id s' = None) as R.
  { apply (f_equal snd) in E. cbn [snd] in E. rewrite <- E. vm_compute. reflexivity. }
  pose proof (@duplicate_keeps_block unit _ sample_hex sample_blake3 (mirror 6) held_6 s'
    (sample_block 6 "node" CommittedPrimary) ds held_6_inv ltac:(by repeat split; vm_compute)
    ltac:(vm_compute; reflexivity) E R) as (-> & _ & m & Hm & _ & _ & _ & _ & Hs).
  exists s'. split; [reflexivity|]. exists m. split; [exact Hm|].
  rewrite Hs. vm_compute. reflexivity.
Defined.

Lemma provisional_never_commits_witness :
  commit_heights (sample_run [feed 9; feed 4]).1 = [].
Proof.
  pose proof (@provisional_never_commits unit _ sample_hex sample_blake3 [feed 9; feed 4]
    (sequencer_new sample_cfg) ltac:(repeat constructor; vm_compute; discriminate)) as T.
  unfold sample_run. destruct (run _ _) as [ds s]. apply T.
Defined.

Lemma delivered_heights_commit_witness :
  exists w, committed_watermark (sample_run sample_candidates).2 = Some w /\ 6 <= w.
Proof.
  apply (@delivered_heights_commit unit _ sample_hex sample_blake3 "hl" 5 3 2 sample_cfg
    sample_candidates 2 ltac:(done) ltac:(done) ltac:(done) eq_refl sample_built).
  - vm_compute. exact I.
  - vm_compute. reflexivity.
  - lia.
  - intros h L. assert (h = 5 \/ h = 6) as [-> | ->] by lia;
      [exists (primary 5)|exists (primary 6)]; (split; [|by split]);
      unfold sample_candidates; rewrite !elem_of_cons; auto.
Defined.
