(* ===== verification/StateImage.v ===== *)
(** * State images: [crates/canonical-ledger/src/state.rs],
      [record_codec.rs] and the validation helpers of [error.rs]

    The ledger's state is an ordered map from namespaced keys to bytes, with
    the chain, the reducer version and the last applied block. Its canonical
    bytes are what the state hash covers and what a checkpoint stores; the
    decoder accepts nothing else. *)

From Stdlib Require Import Strings.Byte Strings.String Sorting.Sorted.
From stdpp Require Import sorting.
From S2P Require Import Prelude Ordering BTreeMap Bytes FixedPoint Ids Store Blocks.

Definition STATE_IMAGE_SCHEMA : bytes := as_bytes "hyperliquid-alpha-desk/state-image/v1".
Definition STATE_HASH_CONTEXT : string := "hyperliquid-alpha-desk/state-hash/v1".
Definition MAX_ABSOLUTE_KEY_BYTES : Z := 64 * 1024.
Definition MAX_NAMESPACE_BYTES : Z := 96.

(** ** Characters *)

Definition byte_between (lo hi : Z) (b : byte) : bool := (lo <=? Z_of_byte b) && (Z_of_byte b <=? hi).
Definition is_ascii_lowercase (b : byte) : bool := byte_between 97 122 b.
Definition is_ascii_number (b : byte) : bool := byte_between 48 57 b.
Definition is_ascii_alphanumeric (b : byte) : bool :=
  byte_between 48 57 b || byte_between 65 90 b || byte_between 97 122 b.

(** [bytes.first().is_some_and(..)] and [bytes.last().is_some_and(..)] *)
Definition first_is (f : byte -> bool) (l : bytes) : bool :=
  match head l with Some b => f b | None => false end.
Definition last_is (f : byte -> bool) (l : bytes) : bool :=
  match last l with Some b => f b | None => false end.

Definition valid_namespace (value : string) : bool :=
  let l := as_bytes value in
  negb (is_empty l) && (zlen l <=? MAX_NAMESPACE_BYTES) && first_is is_ascii_lowercase l &&
  last_is is_ascii_alphanumeric l &&
  forallb (fun b => is_ascii_lowercase b || is_ascii_number b ||
                    existsb (Byte.eqb b) [x2e; x2d; x5f]) l.

Definition valid_reducer_version (value : string) : bool :=
  let l := as_bytes value in
  negb (is_empty l) && (zlen l <=? 128) && first_is is_ascii_alphanumeric l &&
  last_is is_ascii_alphanumeric l &&
  forallb (fun b => is_ascii_alphanumeric b ||
                    existsb (Byte.eqb b) [x2e; x2d; x5f; x2b; x40]) l.

(** [str::from_utf8]: the well-formed byte sequences of the Unicode standard. *)
Definition continues (b : byte) : bool := byte_between 128 191 b.

Fixpoint utf8_valid (l : bytes) : bool :=
  match l with
  | [] => true
  | b :: l1 =>
      if byte_between 0 127 b then utf8_valid l1 else
      match l1 with
      | [] => false
      | c1 :: l2 =>
          if byte_between 194 223 b then continues c1 && utf8_valid l2 else
          match l2 with
          | [] => false
          | c2 :: l3 =>
              if byte_between 224 239 b then
                (if byte_between 224 224 b then byte_between 160 191 c1
                 else if byte_between 237 237 b then byte_between 128 159 c1 else continues c1) &&
                continues c2 && utf8_valid l3 else
              match l3 with
              | [] => false
              | c3 :: l4 =>
                  byte_between 240 244 b &&
                  (if byte_between 240 240 b then byte_between 144 191 c1
                   else if byte_between 244 244 b then byte_between 128 143 c1 else continues c1) &&
                  continues c2 && continues c3 && utf8_valid l4
              end
          end
      end
  end.

(** ** Errors and limits *)

Inductive StateKeyError := InvalidNamespace | InvalidKey.

Inductive StateImageError :=
| InvalidLimits
| LimitExceeded
| Truncated
| InvalidSchema
| InvalidField (field : string)
| NonCanonicalOrder
| TrailingBytes.

Record StateImageLimits := mkImageLimits {
  max_state_bytes : Z;
  max_entries : Z;
  lim_key_bytes : Z;
  lim_value_bytes : Z;
}.

Definition image_limits_try_new (state_bytes entries key_bytes value_bytes : Z)
  : result StateImageError StateImageLimits :=
  if (state_bytes =? 0) || (entries =? 0) || (key_bytes =? 0) || (value_bytes =? 0) ||
     (MAX_ABSOLUTE_KEY_BYTES <? key_bytes)
  then Err InvalidLimits
  else Ok (mkImageLimits state_bytes entries key_bytes value_bytes).

Definition image_limits_production : StateImageLimits :=
  mkImageLimits (4 * 1024 * 1024 * 1024) 50000000 (4 * 1024) (16 * 1024 * 1024).

(** ** Keys, mutations and the image *)

Record StateKey := mkKey { namespace : string; key_bytes : bytes }.

Definition key_pair (k : StateKey) : string * bytes := (namespace k, key_bytes k).
#[global] Instance key_pair_inj : Inj (=) (=) key_pair.
Proof. intros [n k] [n' k'] [= -> ->]. done. Qed.
(** The derived order: namespace, then key. *)
#[global] Instance StateKey_Ord : Ord StateKey := pull_cmp key_pair.
#[global] Instance StateKey_OrdLaws : OrdLaws StateKey := pull_OrdLaws key_pair.
#[global] Instance StateKey_LeibnizOrd : LeibnizOrd StateKey := pull_LeibnizOrd key_pair.
#[global] Instance StateKey_eq_dec : EqDecision StateKey.
Proof. solve_decision. Defined.

Definition key_try_new (ns : string) (key : bytes) : result StateKeyError StateKey :=
  if negb (valid_namespace ns) then Err InvalidNamespace else
  if is_empty key || (MAX_ABSOLUTE_KEY_BYTES <? zlen key) then Err InvalidKey
  else Ok (mkKey ns key).

Definition key_wf (k : StateKey) : Prop := key_try_new (namespace k) (key_bytes k) = Ok k.

Inductive StateMutation :=
| Put (key : StateKey) (value : bytes)
| Delete (key : StateKey).

Definition mutation_key (m : StateMutation) : StateKey :=
  match m with Put key _ | Delete key => key end.
Definition mutation_value (m : StateMutation) : option bytes :=
  match m with Put _ value => Some value | Delete _ => None end.

Record AppliedMutation := mkApplied {
  applied_key : StateKey;
  applied_previous : option bytes;
  applied_current : option bytes;
}.

Record StateWatermark := mkStateWatermark {
  wm_height : BlockHeight;
  wm_hash : Hash;
}.

Abbreviation Entries := (btmap StateKey bytes).

Record StateImage := mkImage {
  img_chain_id : ChainId;
  img_first_height : BlockHeight;
  reducer_set_version : string;
  img_watermark : option StateWatermark;
  img_entries : Entries;
}.

Definition image_empty (chain : ChainId) (first : BlockHeight) (version : string) : StateImage :=
  mkImage chain first version None [].

Definition image_commit (w : StateWatermark) (es : Entries) (i : StateImage) : StateImage :=
  mkImage (img_chain_id i) (img_first_height i) (reducer_set_version i) (Some w) es.

(** ** Canonical bytes *)

Definition extend_count (count : Z) : bytes := to_be_bytes 8 count.

Definition watermark_bytes (w : option StateWatermark) : bytes :=
  match w with
  | Some w => [x01] ++ to_be_bytes 8 (wm_height w) ++ wm_hash w
  | None => [x00]
  end.

Definition entry_bytes (e : StateKey * bytes) : bytes :=
  frame 8 (as_bytes (namespace e.1)) ++ frame 8 (key_bytes e.1) ++ frame 8 e.2.

Fixpoint entries_bytes (es : Entries) : bytes :=
  match es with [] => [] | e :: es => entry_bytes e ++ entries_bytes es end.

Definition canonical_bytes (i : StateImage) : bytes :=
  frame 8 STATE_IMAGE_SCHEMA ++ frame 8 (as_bytes (img_chain_id i)) ++
  to_be_bytes 8 (img_first_height i) ++ frame 8 (as_bytes (reducer_set_version i)) ++
  watermark_bytes (img_watermark i) ++ extend_count (bt_len (img_entries i)) ++
  entries_bytes (img_entries i).

Definition image_state_hash `{Blake3} (i : StateImage) : Hash :=
  derive_key_hash STATE_HASH_CONTEXT (canonical_bytes i).

(** ** The decoder *)

Record StateCursor := mkCursor { cur_bytes : bytes; offset : Z }.
Abbreviation cur_op := (st StateCursor StateImageError).

(** [bytes.get(from..to)] *)
Definition slice (from to : Z) (l : bytes) : option bytes :=
  if (from <=? to) && (to <=? zlen l)
  then Some (take (Z.to_nat (to - from)) (drop (Z.to_nat from) l)) else None.

Definition cur_take (length : Z) : cur_op bytes :=
  c ← st_get;
  finish ← st_lift (int_add USIZE (offset c) length ?? LimitExceeded);
  value ← st_lift (slice (offset c) finish (cur_bytes c) ?? Truncated);
  _ ← st_modify (fun c => mkCursor (cur_bytes c) finish);
  mret value.

Definition cur_byte : cur_op byte := l ← cur_take 1; mret (default x00 (head l)).
Definition cur_u64 : cur_op Z := l ← cur_take 8; mret (from_be_bytes l).
Definition cur_hash : cur_op Hash := cur_take 32.

Definition cur_frame (max_bytes : Z) : cur_op bytes :=
  raw ← cur_u64;
  length ← st_lift (int_try USIZE raw ?? LimitExceeded);
  if max_bytes <? length then st_throw LimitExceeded else cur_take length.

Definition cur_count (max_count : Z) : cur_op Z :=
  raw ← cur_u64;
  count ← st_lift (int_try USIZE raw ?? LimitExceeded);
  if max_count <? count then st_throw LimitExceeded else mret count.

Definition decode_text (l : bytes) (field : string) : result StateImageError string :=
  if utf8_valid l then Ok (String.string_of_list_byte l) else Err (InvalidField field).

Definition decode_watermark (first : BlockHeight) : cur_op (option StateWatermark) :=
  present ← cur_byte;
  if Byte.eqb present x00 then mret None else
  if Byte.eqb present x01 then
    height ← cur_u64;
    if height <? first then st_throw (InvalidField "block_height") else
    hash ← cur_hash;
    mret (Some (mkStateWatermark height hash))
  else st_throw (InvalidField "watermark_present").

(** The entry loop: [n] entries left, the previous key and the map so far. *)
Fixpoint decode_entries (n : nat) (limits : StateImageLimits) (previous : option StateKey)
  (es : Entries) : cur_op Entries :=
  match n with
  | O => mret es
  | S n =>
      raw ← cur_frame MAX_NAMESPACE_BYTES;
      ns ← st_lift (decode_text raw "state namespace");
      k ← cur_frame (lim_key_bytes limits);
      key ← st_lift (map_err (fun _ => InvalidField "state key") (key_try_new ns k));
      if match previous with Some prior => leb key prior | None => false end
      then st_throw NonCanonicalOrder else
      value ← cur_frame (lim_value_bytes limits);
      decode_entries n limits (Some key) (bt_insert key value es)
  end.

Definition decode_fields (limits : StateImageLimits) : cur_op StateImage :=
  schema ← cur_frame 128;
  if negb (bool_decide (schema = STATE_IMAGE_SCHEMA)) then st_throw InvalidSchema else
  raw ← cur_frame 256;
  text ← st_lift (decode_text raw "chain_id");
  chain ← st_lift (map_err (fun _ => InvalidField "chain_id") (string_id_new text));
  first ← cur_u64;
  raw ← cur_frame 128;
  version ← st_lift (decode_text raw "reducer_set_version");
  if negb (valid_reducer_version version) then st_throw (InvalidField "reducer_set_version") else
  watermark ← decode_watermark first;
  count ← cur_count (max_entries limits);
  if match watermark with None => negb (count =? 0) | Some _ => false end
  then st_throw (InvalidField "uncheckpointed state entries") else
  es ← decode_entries (Z.to_nat count) limits None [];
  c ← st_get;
  if negb (offset c =? zlen (cur_bytes c)) then st_throw TrailingBytes else
  mret (mkImage chain first version watermark es).

Definition decode_image (l : bytes) (limits : StateImageLimits) : result StateImageError StateImage :=
  if max_state_bytes limits <? zlen l then Err LimitExceeded
  else (decode_fields limits (mkCursor l 0)).1.

(** ** Records of reducers: [record_codec.rs] *)

Inductive RecordCodecError :=
| InvalidRecordKey
| Codec
| NonCanonical
| InvalidRecord
| KeyMismatch
| RecordLimitExceeded.

Definition RECORD_BYTES : Z := 16 * 1024.
Definition MAX_STATE_KEY_BYTES : Z := 64 * 1024.
Definition KEY_FRAME_BYTES : Z := 8.

Fixpoint framed_len (total : Z) (identities : list bytes) : result RecordCodecError Z :=
  match identities with
  | [] => Ok total
  | identity :: identities =>
      if is_empty identity then Err InvalidRecordKey else
      t ← (int_add USIZE total KEY_FRAME_BYTES ≫= fun l => int_add USIZE l (zlen identity))
            ?? InvalidRecordKey;
      framed_len t identities
  end.

Definition framed_key (ns : string) (identities : list bytes) : result RecordCodecError StateKey :=
  encoded_len ← framed_len 0 identities;
  if MAX_STATE_KEY_BYTES <? encoded_len then Err InvalidRecordKey else
  map_err (fun _ => InvalidRecordKey) (key_try_new ns (concat (frame 8 <$> identities))).

Section records.
Context {T : Type} `{Json T}.

Definition encode_json (wire : T) : result RecordCodecError bytes :=
  l ← to_vec wire ?? Codec;
  if RECORD_BYTES <? zlen l then Err RecordLimitExceeded else Ok l.

Definition decode_json (l : bytes) : result RecordCodecError T :=
  if is_empty l || (RECORD_BYTES <? zlen l) then Err RecordLimitExceeded else
  value ← from_slice l ?? Codec;
  again ← encode_json value;
  if negb (bool_decide (again = l)) then Err NonCanonical else Ok value.
End records.

(** ** Text *)

Lemma ascii_utf8 l : forallb (byte_between 0 127) l = true -> utf8_valid l = true.
Proof.
  induction l as [|b l IH]; [done|]. cbn. intros [B R]%andb_true_iff. rewrite B. auto.
Qed.

(** A text whose characters pass an ASCII test is UTF-8. *)
Lemma ascii_text_utf8 (f : byte -> bool) l :
  (forall b, f b = true -> byte_between 0 127 b = true) -> forallb f l = true -> utf8_valid l = true.
Proof.
  intros F A. apply ascii_utf8. rewrite forallb_forall in A |- *. auto.
Qed.

Lemma valid_namespace_utf8 s : valid_namespace s = true -> utf8_valid (as_bytes s) = true.
Proof.
  unfold valid_namespace. intros H. bool_to_prop. eapply ascii_text_utf8; [|done].
  intros b. by destruct b.
Qed.

Lemma valid_reducer_version_utf8 s :
  valid_reducer_version s = true -> utf8_valid (as_bytes s) = true.
Proof.
  unfold valid_reducer_version. intros H. bool_to_prop. eapply ascii_text_utf8; [|done].
  intros b. by destruct b.
Qed.

Lemma decode_text_Ok l field s :
  decode_text l field = Ok s <-> as_bytes s = l /\ utf8_valid l = true.
Proof.
  unfold decode_text. split.
  - intros D. inv_ok. by rewrite as_bytes_of.
  - intros [<- ->]. f_equal. apply as_bytes_inj. apply as_bytes_of.
Qed.

Lemma key_try_new_Ok ns l k : key_try_new ns l = Ok k <-> k = mkKey ns l /\ key_wf k.
Proof.
  unfold key_wf. split.
  - intros K. assert (k = mkKey ns l) as ->; [|done]. unfold key_try_new in K. by inv_ok.
  - by intros [-> K].
Qed.

Lemma key_wf_bounds k : key_wf k ->
  valid_namespace (namespace k) = true /\ zlen (as_bytes (namespace k)) <= MAX_NAMESPACE_BYTES /\
  zlen (key_bytes k) <= MAX_ABSOLUTE_KEY_BYTES.
Proof.
  unfold key_wf, key_try_new. intros K. inv_ok. bool_to_prop. split_and!; try done.
  unfold valid_namespace in *. bool_to_prop. done.
Qed.

(** ** The codec

    [consumes c l c']: the cursor moves from [c] to [c'] over the bytes [l];
    [parses p a l]: wherever [l] comes next, [p] reads [a] from it. *)

Definition remaining (c : StateCursor) : bytes := drop (Z.to_nat (offset c)) (cur_bytes c).
Definition cur_ok (c : StateCursor) : Prop :=
  0 <= offset c <= zlen (cur_bytes c) /\ zlen (cur_bytes c) <= ity_max USIZE.
Definition consumes (c : StateCursor) (l : bytes) (c' : StateCursor) : Prop :=
  cur_ok c' /\ remaining c = l ++ remaining c'.
Definition parses {A} (p : cur_op A) (a : A) (l : bytes) : Prop :=
  forall c r, cur_ok c -> remaining c = l ++ r -> exists c', p c = (Ok a, c') /\ cur_ok c' /\ remaining c' = r.

Lemma consumes_nil c : cur_ok c -> consumes c [] c.
Proof. by split. Qed.

Lemma consumes_app c l c' k c'' : consumes c l c' -> consumes c' k c'' -> consumes c (l ++ k) c''.
Proof. intros [_ R] [O' R']. split; [done|]. by rewrite R, R', app_assoc. Qed.

Lemma consumes_ok c l c' : consumes c l c' -> cur_ok c'.
Proof. by intros []. Qed.

Lemma cur_take_at c l r : cur_ok c -> remaining c = l ++ r ->
  cur_take (zlen l) c = (Ok l, mkCursor (cur_bytes c) (offset c + zlen l)) /\
  cur_ok (mkCursor (cur_bytes c) (offset c + zlen l)) /\
  remaining (mkCursor (cur_bytes c) (offset c + zlen l)) = r.
Proof.
  intros [O L] R. unfold remaining in R. cbn.
  assert (zlen (cur_bytes c) = offset c + zlen l + zlen r) as E.
  { apply (f_equal length) in R. rewrite length_drop, length_app in R. unfold zlen in *. lia. }
  pose proof (zlen_nonneg l). pose proof (zlen_nonneg r). split_and!.
  - unfold cur_take. rewrite st_bind_get. unfold int_add.
    rewrite int_try_wf by (split; [change (0 <= offset c + zlen l)|]; lia). cbn [ok_or]. rewrite st_bind_lift_Ok.
    unfold slice. rewrite (proj2 (Z.leb_le _ _)), (proj2 (Z.leb_le _ _)) by lia. cbn [andb ok_or].
    rewrite st_bind_lift_Ok, st_bind_modify. unfold mret, st_ret. do 2 f_equal.
    rewrite R. unfold zlen. replace (Z.to_nat _) with (length l) by lia. apply take_app_length.
  - unfold cur_ok. cbn [offset cur_bytes]. lia.
  - unfold remaining. cbn [offset cur_bytes]. rewrite Z2Nat.inj_add by lia.
    rewrite <- drop_drop, R. unfold zlen. rewrite Nat2Z.id. apply drop_app_length.
Qed.

Lemma cur_take_parses l : parses (cur_take (zlen l)) l l.
Proof. intros c r O R. eexists. by apply cur_take_at. Qed.

Lemma cur_take_inv n c l c' : cur_ok c -> cur_take n c = (Ok l, c') -> 0 <= n ->
  zlen l = n /\ consumes c l c'.
Proof.
  intros O T N. assert (n <= zlen (remaining c)) as B.
  { unfold cur_take in T. rewrite st_bind_get in T. unfold int_add in T.
    destruct (int_try USIZE (offset c + n)) as [e|] eqn:E; [|discriminate T].
    apply int_try_Some in E as [-> _]. cbn [ok_or] in T. rewrite st_bind_lift_Ok in T.
    unfold slice in T. destruct (_ && _) eqn:G; [|discriminate T]. bool_to_prop.
    unfold remaining, zlen in *. rewrite length_drop. unfold cur_ok, zlen in O. lia. }
  set (k := take (Z.to_nat n) (remaining c)).
  assert (zlen k = n) as Lk. { unfold k, zlen in *. rewrite length_take. lia. }
  destruct (cur_take_at c k (drop (Z.to_nat n) (remaining c)) O) as (E & O' & R).
  { symmetry. apply take_drop. }
  rewrite Lk in *. rewrite T in E. injection E as -> ->. split; [done|]. split; [done|].
  rewrite R. symmetry. apply take_drop.
Qed.

(** *** Reading forwards *)

Lemma parses_bind {A B} (p : cur_op A) (f : A -> cur_op B) a b l k :
  parses p a l -> parses (f a) b k -> parses (p ≫= f) b (l ++ k).
Proof.
  intros P F c r O R. rewrite <- app_assoc in R. destruct (P c _ O R) as (c' & E & O' & R').
  rewrite (st_bind_Ok _ _ _ _ _ E). by apply F.
Qed.

Lemma parses_lift_bind {A B} (r : result StateImageError A) (f : A -> cur_op B) a b l :
  r = Ok a -> parses (f a) b l -> parses (st_lift r ≫= f) b l.
Proof. intros -> F. exact F. Qed.

Lemma parses_ret {A} (a : A) : parses (mret a) a [].
Proof. intros c r O R. by exists c. Qed.

Lemma parses_guard {A} (b : bool) e (p : cur_op A) a l :
  b = false -> parses p a l -> parses (if b then st_throw e else p) a l.
Proof. by intros ->. Qed.

Lemma parses_map {A B} (p : cur_op A) (f : A -> B) a b l :
  parses p a l -> f a = b -> parses (x ← p; mret (f x)) b l.
Proof. intros P <-. rewrite <- (app_nil_r l). eapply parses_bind; [done|apply parses_ret]. Qed.

Lemma cur_byte_parses b : parses cur_byte b [b].
Proof. unfold cur_byte. apply (parses_map _ _ [b]); [apply (cur_take_parses [b])|done]. Qed.

Lemma cur_u64_parses z : ity_wf U64 z -> parses cur_u64 z (to_be_bytes 8 z).
Proof.
  intros [L H]. cbn in L, H. eapply parses_map.
  - pose proof (cur_take_parses (to_be_bytes 8 z)) as P. unfold zlen in P.
    rewrite to_be_bytes_length in P. exact P.
  - apply from_to_be_bytes. cbn. lia.
Qed.

Lemma cur_hash_parses h : length h = 32%nat -> parses cur_hash h h.
Proof. intros L. pose proof (cur_take_parses h) as P. unfold zlen in P. by rewrite L in P. Qed.

Lemma zlen_USIZE {A} (l : list A) n : zlen l <= n -> n <= ity_max USIZE -> ity_wf USIZE (zlen l).
Proof. intros. pose proof (zlen_nonneg l). split; [change (0 <= zlen l)|]; lia. Qed.

Lemma cur_frame_parses n l :
  n <= ity_max USIZE -> zlen l <= n -> parses (cur_frame n) l (frame 8 l).
Proof.
  intros N L. pose proof (zlen_USIZE l n L N) as W. unfold cur_frame, frame.
  eapply parses_bind; [by apply cur_u64_parses|]. eapply parses_lift_bind.
  - by rewrite int_try_wf.
  - apply parses_guard; [apply Z.ltb_ge; lia|apply cur_take_parses].
Qed.

Lemma cur_count_parses n z : ity_wf USIZE z -> z <= n -> parses (cur_count n) z (extend_count z).
Proof.
  intros W L. unfold cur_count, extend_count. rewrite <- (app_nil_r (to_be_bytes 8 z)).
  eapply parses_bind; [by apply cur_u64_parses|]. eapply parses_lift_bind.
  - by rewrite int_try_wf.
  - apply parses_guard; [apply Z.ltb_ge; lia|apply parses_ret].
Qed.

(** *** Reading backwards *)

Lemma cur_byte_inv c b c' : cur_ok c -> cur_byte c = (Ok b, c') -> consumes c [b] c'.
Proof.
  intros O T. unfold cur_byte in T. inv_st. eapply cur_take_inv in H as [L C]; [|done|lia].
  destruct x as [|y [|? ?]]; try discriminate L; [done|]. unfold zlen in L. cbn in L. lia.
Qed.

Lemma cur_u64_inv c z c' : cur_ok c -> cur_u64 c = (Ok z, c') ->
  consumes c (to_be_bytes 8 z) c' /\ ity_wf U64 z.
Proof.
  intros O T. unfold cur_u64 in T. inv_st. eapply cur_take_inv in H as [L C]; [|done|lia].
  assert (length x = 8%nat) as L8 by (unfold zlen in L; lia). split.
  - rewrite <- L8, to_from_be_bytes. done.
  - pose proof (from_be_bytes_bound x) as B. rewrite L8 in B. unfold ity_wf. cbn in B |- *. lia.
Qed.

Lemma cur_hash_inv c h c' : cur_ok c -> cur_hash c = (Ok h, c') -> consumes c h c' /\ length h = 32%nat.
Proof.
  intros O T. eapply cur_take_inv in T as [L C]; [|done|lia]. split; [done|]. unfold zlen in L. lia.
Qed.

Lemma cur_frame_inv n c l c' : cur_ok c -> cur_frame n c = (Ok l, c') ->
  consumes c (frame 8 l) c' /\ zlen l <= n.
Proof.
  intros O T. unfold cur_frame in T. inv_st. apply cur_u64_inv in H as [C _]; [|done].
  apply int_try_Some in H0 as [-> W]. bool_to_prop.
  eapply cur_take_inv in T as [<- C']; [|by eapply consumes_ok|apply W].
  split; [|done]. by eapply consumes_app.
Qed.

Lemma cur_count_inv n c z c' : cur_ok c -> cur_count n c = (Ok z, c') ->
  consumes c (extend_count z) c' /\ 0 <= z <= n.
Proof.
  intros O T. unfold cur_count in T. inv_st. apply cur_u64_inv in H as [C W]; [|done].
  apply int_try_Some in H0 as [-> _]. bool_to_prop. split; [done|]. split; [apply W|done].
Qed.

(** *** The image *)

Definition watermark_wf (first : BlockHeight) (w : option StateWatermark) : Prop :=
  match w with
  | None => True
  | Some w => ity_wf U64 (wm_height w) /\ first <= wm_height w /\ length (wm_hash w) = 32%nat
  end.

Definition image_wf (i : StateImage) : Prop :=
  (id_wf (img_chain_id i) /\ utf8_valid (as_bytes (img_chain_id i)) = true) /\
  ity_wf U64 (img_first_height i) /\ valid_reducer_version (reducer_set_version i) = true /\
  watermark_wf (img_first_height i) (img_watermark i) /\
  (img_watermark i = None -> img_entries i = []) /\
  bt_sorted (img_entries i) /\ Forall (fun e => key_wf e.1) (img_entries i).

Definition entry_fits (limits : StateImageLimits) (e : StateKey * bytes) : Prop :=
  zlen (key_bytes e.1) <= lim_key_bytes limits /\ zlen e.2 <= lim_value_bytes limits.

Definition image_fits (limits : StateImageLimits) (i : StateImage) : Prop :=
  zlen (canonical_bytes i) <= max_state_bytes limits /\
  zlen (as_bytes (img_chain_id i)) <= 256 /\ bt_len (img_entries i) <= max_entries limits /\
  Forall (entry_fits limits) (img_entries i).

(** The limits are [usize]s. *)
Definition limits_wf (limits : StateImageLimits) : Prop :=
  ity_wf USIZE (max_state_bytes limits) /\ ity_wf USIZE (max_entries limits) /\
  ity_wf USIZE (lim_key_bytes limits) /\ ity_wf USIZE (lim_value_bytes limits).

Lemma decode_watermark_parses first w :
  watermark_wf first w -> parses (decode_watermark first) w (watermark_bytes w).
Proof.
  intros W. unfold decode_watermark, watermark_bytes. destruct w as [[h hash]|].
  - destruct W as (Wh & Lh & L). cbn [wm_height wm_hash] in *.
    eapply parses_bind; [apply cur_byte_parses|]. cbn [Byte.eqb].
    eapply parses_bind; [by apply cur_u64_parses|]. apply parses_guard; [apply Z.ltb_ge; lia|].
    eapply parses_map; [by apply cur_hash_parses|done].
  - eapply (parses_bind _ _ _ _ [x00] []); [apply cur_byte_parses|]. apply parses_ret.
Qed.

Lemma decode_watermark_inv first c w c' : cur_ok c -> decode_watermark first c = (Ok w, c') ->
  consumes c (watermark_bytes w) c' /\ watermark_wf first w.
Proof.
  intros O D. unfold decode_watermark in D. inv_st_step. apply cur_byte_inv in H as C; [|done].
  destruct (Byte.eqb x x00) eqn:E0; [apply byte_dec_bl in E0; subst; by inv_st|].
  destruct (Byte.eqb x x01) eqn:E1; [apply byte_dec_bl in E1; subst|by inv_st].
  inv_st. apply cur_u64_inv in H0 as [C1 W]; [|by eapply consumes_ok].
  apply cur_hash_inv in H1 as [C2 L]; [|by eapply consumes_ok]. bool_to_prop.
  split; [|done]. eapply consumes_app; [done|]. by eapply consumes_app.
Qed.

Lemma decode_entries_parses limits m es :
  limits_wf limits -> bt_sorted (es ++ m) ->
  Forall (fun e => key_wf e.1) m -> Forall (entry_fits limits) m ->
  parses (decode_entries (length m) limits (last (bt_keys es)) es) (es ++ m) (entries_bytes m).
Proof.
  intros (_ & _ & [_ Lk] & [_ Lv]). revert es.
  induction m as [|[k v] m IH]; intros es S W F.
  { rewrite app_nil_r. apply parses_ret. }
  apply Forall_cons in W as [Wk W]. apply Forall_cons in F as [[Fk Fv] F]. cbn in Wk, Fk, Fv.
  destruct (key_wf_bounds k Wk) as (V & Ln & _).
  rewrite (cons_middle (k, v) es m), app_assoc in S |- *.
  pose proof (StronglySorted_app_1_l _ _ _ S) as [_ A]%bt_sorted_snoc.
  cbn [decode_entries length entries_bytes]. unfold entry_bytes. cbn [fst snd].
  rewrite <- !app_assoc.
  eapply parses_bind; [by apply cur_frame_parses|].
  eapply parses_lift_bind; [apply decode_text_Ok; split; [done|by apply valid_namespace_utf8]|].
  eapply parses_bind; [by apply cur_frame_parses|].
  eapply parses_lift_bind; [rewrite Wk; done|]. apply parses_guard.
  - destruct (last (bt_keys es)) as [j|] eqn:L; [|done]. unfold leb.
    apply last_Some_elem_of, list_elem_of_fmap in L as ([j' v'] & -> & E). cbn.
    rewrite Forall_forall in A. apply A, cmp_lt_gt in E. cbn in E. by rewrite E.
  - eapply parses_bind; [by apply cur_frame_parses|]. rewrite bt_insert_last by done.
    specialize (IH (es ++ [(k, v)]) S W F). by rewrite bt_keys_snoc, last_snoc, <- app_assoc in IH.
Qed.

Lemma decode_entries_inv limits n es c r c' :
  cur_ok c -> bt_sorted es -> decode_entries n limits (last (bt_keys es)) es c = (Ok r, c') ->
  exists m, r = es ++ m /\ length m = n /\ bt_sorted r /\ Forall (fun e => key_wf e.1) m /\
    Forall (entry_fits limits) m /\ consumes c (entries_bytes m) c'.
Proof.
  revert es c. induction n as [|n IH]; intros es c O S D; cbn [decode_entries] in D.
  { inv_st. exists []. rewrite app_nil_r. split_and!; try done. }
  inv_st. apply cur_frame_inv in H as [C1 _]; [|done].
  apply decode_text_Ok in H0 as [<- U].
  apply cur_frame_inv in H1 as [C2 Fk]; [|by eapply consumes_ok].
  apply key_try_new_Ok in H2 as [-> W].
  apply cur_frame_inv in H3 as [C3 Fv]; [|by eapply consumes_ok].
  set (k := mkKey x0 x1) in *.
  assert (Forall (fun p => cmp p.1 k = Lt) es) as A.
  { apply bt_last_above; [done|]. destruct (last _) as [j|]; [|done]. unfold leb in Hb.
    destruct (cmp k j) eqn:E; try done. by apply cmp_gt_lt. }
  rewrite bt_insert_last in D by done.
  replace (Some k) with (last (bt_keys (es ++ [(k, x3)]))) in D
    by (by rewrite bt_keys_snoc, last_snoc).
  apply IH in D as (m & -> & L & S' & Wm & F & C4);
    [|by eapply consumes_ok|by apply bt_sorted_snoc].
  exists ((k, x3) :: m). rewrite <- app_assoc in *. cbn [app length]. split_and!; try done.
  - by f_equal.
  - by constructor.
  - by constructor.
  - cbn [entries_bytes]. unfold entry_bytes. cbn [fst snd]. rewrite <- !app_assoc.
    do 3 (eapply consumes_app; [done|]). done.
Qed.

Lemma finished_remaining c : cur_ok c -> offset c = zlen (cur_bytes c) <-> remaining c = [].
Proof.
  intros [O _]. unfold remaining. split.
  - intros E. apply drop_ge. unfold zlen in *. lia.
  - intros E. apply (f_equal length) in E. rewrite length_drop in E. unfold zlen in *. cbn in E. lia.
Qed.

(** [ends p a l]: when exactly [l] is left, [p] reads [a] from it. *)
Definition ends {A} (p : cur_op A) (a : A) (l : bytes) : Prop :=
  forall c, cur_ok c -> remaining c = l -> exists c', p c = (Ok a, c').

Lemma ends_bind {A B} (p : cur_op A) (f : A -> cur_op B) a b l k :
  parses p a l -> ends (f a) b k -> ends (p ≫= f) b (l ++ k).
Proof.
  intros P F c O R. destruct (P c _ O R) as (c' & E & O' & R').
  rewrite (st_bind_Ok _ _ _ _ _ E). by apply F.
Qed.

Lemma ends_lift_bind {A B} (r : result StateImageError A) (f : A -> cur_op B) a b l :
  r = Ok a -> ends (f a) b l -> ends (st_lift r ≫= f) b l.
Proof. intros -> F. exact F. Qed.

Lemma ends_guard {A} (b : bool) e (p : cur_op A) a l :
  b = false -> ends p a l -> ends (if b then st_throw e else p) a l.
Proof. by intros ->. Qed.

Lemma decode_fields_ends limits i :
  limits_wf limits -> image_wf i -> image_fits limits i ->
  ends (decode_fields limits) i (canonical_bytes i).
Proof.
  intros LW W F. pose proof LW as (_ & [_ Le] & _). destruct i as [chain first version w es].
  destruct W as ([Wc Uc] & Wf & Wv & Ww & Wn & Ws & Wk), F as (_ & Fc & Fe & Fs).
  unfold canonical_bytes, decode_fields.
  cbn [img_chain_id img_first_height reducer_set_version img_watermark img_entries] in *.
  assert (zlen (as_bytes version) <= 128) as Lv by (unfold valid_reducer_version in Wv; by bool_to_prop).
  eapply ends_bind; [by apply cur_frame_parses|]. apply ends_guard; [by rewrite bool_decide_true|].
  eapply ends_bind; [by apply cur_frame_parses|].
  eapply ends_lift_bind; [by apply decode_text_Ok|]. eapply ends_lift_bind; [by rewrite Wc|].
  eapply ends_bind; [by apply cur_u64_parses|]. eapply ends_bind; [by apply cur_frame_parses|].
  eapply ends_lift_bind; [apply decode_text_Ok; split; [done|by apply valid_reducer_version_utf8]|].
  apply ends_guard; [by rewrite Wv|]. eapply ends_bind; [by apply decode_watermark_parses|].
  eapply ends_bind; [apply cur_count_parses; [by eapply zlen_USIZE|done]|].
  apply ends_guard; [destruct w; [done|]; by rewrite Wn|].
  rewrite <- (app_nil_r (entries_bytes es)). unfold bt_len, zlen. rewrite Nat2Z.id.
  eapply ends_bind; [by apply (decode_entries_parses limits es [])|].
  intros c O R. exists c. rewrite st_bind_get. apply finished_remaining in R; [|done].
  by rewrite R, Z.eqb_refl.
Qed.

Lemma decode_fields_inv limits c i c' : cur_ok c -> decode_fields limits c = (Ok i, c') ->
  remaining c = canonical_bytes i /\ image_wf i /\ zlen (as_bytes (img_chain_id i)) <= 256 /\
  bt_len (img_entries i) <= max_entries limits /\ Forall (entry_fits limits) (img_entries i).
Proof.
  intros O D. unfold decode_fields in D. inv_st.
  apply cur_frame_inv in H as [C1 _]; [|done].
  apply cur_frame_inv in H0 as [C2 Fc]; [|by eapply consumes_ok].
  apply decode_text_Ok in H1 as [<- Uc]. apply string_id_new_inv in H2 as [-> Wc].
  apply cur_u64_inv in H3 as [C3 Wf]; [|by eapply consumes_ok].
  apply cur_frame_inv in H4 as [C4 _]; [|by eapply consumes_ok].
  apply decode_text_Ok in H5 as [<- _].
  apply decode_watermark_inv in H6 as [C5 Ww]; [|by eapply consumes_ok].
  apply cur_count_inv in H7 as [C6 Le]; [|by eapply consumes_ok].
  apply (decode_entries_inv _ _ []) in H8 as (m & -> & Lm & S & Wm & Fm & C7);
    [|by eapply consumes_ok|constructor].
  bool_to_prop. apply finished_remaining in Hb2; [|by eapply consumes_ok]. subst x.
  assert (bt_len m = x7) as Lx by (unfold bt_len, zlen; rewrite Lm; lia).
  unfold canonical_bytes, image_wf. cbn [img_chain_id img_first_height reducer_set_version
    img_watermark img_entries app] in *. rewrite Lx.
  split; [|split_and!; try done; try lia].
  - rewrite <- (app_nil_r (entries_bytes m)), <- Hb2.
    destruct C1 as [_ ->], C2 as [_ ->], C3 as [_ ->], C4 as [_ ->], C5 as [_ ->], C6 as [_ ->],
      C7 as [_ ->]. done.
  - intros ->. bool_to_prop. destruct m; [done|]. unfold bt_len, zlen in Lx. cbn in Lx. lia.
Qed.

Lemma decode_image_iff limits l i :
  limits_wf limits ->
  decode_image l limits = Ok i <-> image_wf i /\ image_fits limits i /\ canonical_bytes i = l.
Proof.
  intros LW. pose proof LW as ([_ Ls] & _). unfold decode_image. split.
  - intros D. inv_ok. bool_to_prop.
    destruct (decode_fields limits (mkCursor l 0)) as [r c'] eqn:E. cbn in D. subst r.
    apply decode_fields_inv in E as (R & W & Fc & Fe & Fs).
    + change (l = canonical_bytes i) in R. subst l. unfold image_fits. done.
    + unfold cur_ok. cbn [offset cur_bytes]. pose proof (zlen_nonneg l). lia.
  - intros (W & F & <-). pose proof F as [Fl _]. rewrite (proj2 (Z.ltb_ge _ _)) by done.
    destruct (decode_fields_ends limits i LW W F (mkCursor (canonical_bytes i) 0)) as [c' E].
    + unfold cur_ok. cbn [offset cur_bytes]. pose proof (zlen_nonneg (canonical_bytes i)). lia.
    + done.
    + by rewrite E.
Qed.

Lemma decode_image_inv limits l i :
  limits_wf limits -> decode_image l limits = Ok i -> image_wf i /\ canonical_bytes i = l.
Proof. intros L (W & _ & E)%decode_image_iff; done. Qed.

(** C21. The decoder of state images accepts exactly the canonical bytes: within
    the limits, some bytes decode to an image if and only if the image is well
    formed (a valid chain, reducer version and watermark, keys in strictly
    increasing order, no entries before the first block) and they are the
    bytes it encodes to. So encoding then decoding gives the image back, no
    image has two encodings, and anything reordered, truncated or extended is
    refused. *)
Theorem state_image_codec limits l i :
  limits_wf limits ->
  decode_image l limits = Ok i <-> image_wf i /\ image_fits limits i /\ canonical_bytes i = l.
Proof. apply decode_image_iff. Qed.

(** Two images with the same bytes are the same image. *)
Lemma canonical_bytes_inj limits limits' i j :
  limits_wf limits -> limits_wf limits' -> image_wf i -> image_wf j ->
  image_fits limits i -> image_fits limits' j -> canonical_bytes i = canonical_bytes j -> i = j.
Proof.
  intros L L' Wi Wj Fi Fj E. remember (ity_max USIZE) as max eqn:Em.
  assert (limits_wf (mkImageLimits max max max max)) as Lm by (unfold limits_wf, ity_wf; rewrite Em; cbn; lia).
  assert (forall lims k, limits_wf lims -> image_fits lims k ->
    image_fits (mkImageLimits max max max max) k) as Fm.
  { intros lims k ([_ ?] & [_ ?] & [_ ?] & [_ ?]) (? & ? & ? & F). rewrite <- Em in *.
    unfold image_fits, entry_fits. cbn [max_state_bytes max_entries lim_key_bytes lim_value_bytes].
    split_and!; [lia|done|lia|]. eapply Forall_impl; [exact F|]. intros e [? ?]. lia. }
  pose proof (proj2 (decode_image_iff _ (canonical_bytes i) i Lm) (conj Wi (conj (Fm _ _ L Fi) eq_refl))) as Di.
  pose proof (proj2 (decode_image_iff _ (canonical_bytes j) j Lm) (conj Wj (conj (Fm _ _ L' Fj) eq_refl))) as Dj.
  rewrite E in Di. congruence.
Qed.

(** ** A concrete image *)

Definition sample_limits : StateImageLimits := mkImageLimits 512 4 16 16.
Definition sample_image : StateImage :=
  mkImage "hyperliquid" 5 "reducers@1.0" (Some (mkStateWatermark 7 (repeat x07 32)))
    [(mkKey "market.book" [x01], [x0a; x0b]); (mkKey "market.book" [x01; x00], []);
     (mkKey "order" [x00], [xff])].

Lemma sample_image_wf : image_wf sample_image.
Proof.
  unfold image_wf. cbn [img_watermark img_entries sample_image]. split_and!; try by vm_compute.
  - repeat (constructor; [|by repeat constructor]). constructor.
  - by repeat constructor.
Qed.

Lemma state_image_codec_witness :
  decode_image (canonical_bytes sample_image) sample_limits = Ok sample_image.
Proof.
  apply (state_image_codec sample_limits (canonical_bytes sample_image) sample_image).
  - unfold limits_wf, ity_wf. cbn. lia.
  - split; [apply sample_image_wf|]. split; [|reflexivity].
    split_and!; [by vm_compute..|]. by repeat constructor.
Defined.
