(* ===== verification/Publication.v ===== *)
(** * Publications: [services/hl-core/src/publication.rs]

    The subjects of the canonical stream and the committed-block marker, the
    message that announces a block and lists the events the consumer must find
    before it may apply it. The event envelope's wire encoding (protobuf code
    the build generates) and SHA-256 are parameters. *)

From Stdlib Require Import Strings.Byte Strings.String.
From stdpp Require Import sorting.
From S2P Require Import Prelude Ordering BTreeMap Bytes FixedPoint Ids Blocks StateImage.

(** The [sha2] crate, and [CanonicalEventEnvelope]'s wire encoding. *)
Class Sha256 := sha256 : bytes -> Hash.
Class EventCodec (P : Type) := {
  encode_to_vec : CanonicalEventEnvelope P -> option bytes;
  event_decode : bytes -> option (CanonicalEventEnvelope P);
}.

Definition BLOCK_COMMITTED_SUBJECT : string := "hl.v1.block.committed".
Definition BLOCK_PROVISIONAL_SUBJECT : string := "hl.v1.block.provisional".
Definition SNAPSHOT_ACCOUNT_SUBJECT : string := "hl.v1.snapshot.account".
Definition SNAPSHOT_MARKET_SUBJECT : string := "hl.v1.snapshot.market".
Definition SNAPSHOT_ECOSYSTEM_SUBJECT : string := "hl.v1.snapshot.ecosystem".
Definition HEALTH_SOURCE_SUBJECT : string := "hl.v1.health.source".
Definition BLOCK_MARKER_SCHEMA_V1 : string := "hyperliquid-alpha-desk/block-publication/v1".
Definition MAX_IDENTITY_BYTES : Z := 512.
Definition MAX_PUBLICATION_PAYLOAD_BYTES : Z := 7500000.

Inductive BlockMarkerError :=
| Malformed
| UnsupportedSchema
| NotCommitted
| UnexpectedSubject
| Provisional
| PayloadSize
| InvalidIdentity.

#[global] Instance as_wire_name_Inj : Inj (=) (=) as_wire_name.
Proof. exact as_wire_name_inj. Qed.
#[global] Instance EventKind_eq_dec : EqDecision EventKind := inj_eq_dec as_wire_name.

(** ** Subjects *)

Inductive CanonicalSubject :=
| BlockCommitted | EventFill | EventOrder | EventLedger | EventMarketMeta | EventOracle.
#[global] Instance CanonicalSubject_eq_dec : EqDecision CanonicalSubject.
Proof. solve_decision. Defined.

Definition subject_as_str (s : CanonicalSubject) : string :=
  match s with
  | BlockCommitted => BLOCK_COMMITTED_SUBJECT
  | EventFill => "hl.v1.event.fill"
  | EventOrder => "hl.v1.event.order"
  | EventLedger => "hl.v1.event.ledger"
  | EventMarketMeta => "hl.v1.event.market_meta"
  | EventOracle => "hl.v1.event.oracle"
  end.

Definition subject_parse (value : string) : result BlockMarkerError CanonicalSubject :=
  let equals := String.eqb value in
  if equals BLOCK_COMMITTED_SUBJECT then Ok BlockCommitted else
  if equals "hl.v1.event.fill" then Ok EventFill else
  if equals "hl.v1.event.order" then Ok EventOrder else
  if equals "hl.v1.event.ledger" then Ok EventLedger else
  if equals "hl.v1.event.market_meta" then Ok EventMarketMeta else
  if equals "hl.v1.event.oracle" then Ok EventOracle else
  if equals BLOCK_PROVISIONAL_SUBJECT || equals SNAPSHOT_ACCOUNT_SUBJECT ||
     equals SNAPSHOT_MARKET_SUBJECT || equals SNAPSHOT_ECOSYSTEM_SUBJECT
  then Err Provisional else Err UnexpectedSubject.

Definition subject_for_event_kind (k : EventKind) : CanonicalSubject :=
  match k with
  | OrderPartiallyFilled | OrderFilled | TwapSliceFilled | TradeMatched | LiquidationFill
  | BackstopLiquidation => EventFill
  | OrderAccepted | OrderRested | OrderModified | OrderCancelled | NonUserOrderCancelled
  | OrderRejected | TriggerOrderActivated | TwapStarted | TwapCompleted => EventOrder
  | OracleUpdated | FundingRateUpdated => EventOracle
  | MarketHalted | MarketResumed | OpenInterestCapChanged | MarginTableChanged | MarketCreated
  | MarketMetadataChanged | AssetContextUpdated | DexCreated | OutcomeCreated
  | OutcomeResolved => EventMarketMeta
  | DepositCredited | WithdrawalDebited | SpotTransfer | PerpTransfer | SubaccountTransfer
  | VaultDeposit | VaultWithdrawal | FeeCharged | BuilderFeeCharged | FundingPaid | FundingReceived
  | ReferralReward | AccountModeChanged | MarginModeChanged | LeverageChanged | LiquidationStarted
  | PositionSettled | InternalTransfer | AccountClassTransfer | VaultCreated | VaultDistribution
  | VaultLeaderCommissionPaid | RewardClaimed | SpotGenesisApplied | StakingDeposit
  | StakingDelegated | StakingUndelegated | StakingWithdrawalQueued | StakingWithdrawalCompleted
  | ValidatorRewardPaid => EventLedger
  end.

(** ** Markers *)

Record MarkerEvent := mkMarkerEvent {
  listed_event_id : string;
  listed_event_kind : EventKind;
  listed_payload_hash : Hash;
  envelope_sha256 : Hash;
}.

Record CommittedBlockMarker := mkMarker {
  marker_chain_id : ChainId;
  marker_block_height : BlockHeight;
  marker_block_time : ProtocolTime;
  marker_confirmation_class : ConfirmationClass;
  marker_canonical_block_hash : Hash;
  marker_receipt_id : string;
  marker_manifest_id : string;
  marker_manifest_sha256 : Hash;
  marker_schema_fingerprint : Hash;
  marker_source_block_hashes : btmap SourceId Hash;
  marker_events : list MarkerEvent;
}.

(** [storage_ports::ArchiveReceipt] *)
Record ArchiveReceipt := mkArchiveReceipt {
  receipt_id : string;
  receipt_manifest_id : string;
  receipt_block_height : BlockHeight;
  receipt_canonical_block_hash : Hash;
  receipt_object_sha256 : Hash;
  receipt_manifest_sha256 : Hash;
  receipt_schema_fingerprint : Hash;
  durable_at : KnownTime;
}.

(** *** Writing *)

Definition push_count (count : Z) : result BlockMarkerError bytes :=
  count ← int_try U64 count ?? Malformed; Ok (to_be_bytes 8 count).
Definition push_bytes (value : bytes) : result BlockMarkerError bytes :=
  len ← push_count (zlen value); Ok (len ++ value).
Definition push_str (value : string) : result BlockMarkerError bytes := push_bytes (as_bytes value).

Definition validate_payload_size (actual : Z) : result BlockMarkerError unit :=
  if (actual =? 0) || (MAX_PUBLICATION_PAYLOAD_BYTES <? actual) then Err PayloadSize else Ok tt.

Fixpoint push_sources (l : btmap SourceId Hash) : result BlockMarkerError bytes :=
  match l with
  | [] => Ok []
  | (source, hash) :: l => s ← push_str source; rest ← push_sources l; Ok (s ++ hash ++ rest)
  end.

Definition class_byte (c : ConfirmationClass) : result BlockMarkerError byte :=
  match c with
  | CommittedPrimary => Ok x02
  | CommittedIndependent => Ok x03
  | _ => Err NotCommitted
  end.

Section writing.
Context {P : Type} `{EventPayload P} `{EventCodec P} `{Sha256}.

Fixpoint push_events (l : list (CanonicalEventEnvelope P)) : result BlockMarkerError bytes :=
  match l with
  | [] => Ok []
  | e :: l =>
      id ← push_str (event_id e);
      kind ← push_str (as_wire_name (event_kind e));
      encoded ← encode_to_vec e ?? Malformed;
      rest ← push_events l;
      Ok (id ++ kind ++ payload_hash e ++ sha256 encoded ++ rest)
  end.

Definition encode_committed_block_marker (b : BlockEnvelope P) (r : ArchiveReceipt)
  : result BlockMarkerError bytes :=
  if negb (receipt_block_height r =? block_height b) ||
     negb (bool_decide (receipt_canonical_block_hash r = canonical_block_hash b))
  then Err Malformed else
  class ← class_byte (confirmation_class b);
  schema ← push_str BLOCK_MARKER_SCHEMA_V1;
  chain ← push_str (chain_id b);
  receipt ← push_str (receipt_id r);
  manifest ← push_str (receipt_manifest_id r);
  source_count ← push_count (bt_len (source_block_hashes b));
  sources ← push_sources (source_block_hashes b);
  event_count ← push_count (zlen (events b));
  listed ← push_events (events b);
  let output :=
    schema ++ chain ++ to_be_bytes 8 (block_height b) ++ to_be_bytes 8 (block_time b) ++ [class] ++
    canonical_block_hash b ++ receipt ++ manifest ++ receipt_manifest_sha256 r ++
    receipt_schema_fingerprint r ++ source_count ++ sources ++ event_count ++ listed in
  _ ← validate_payload_size (zlen output);
  Ok output.

Definition encode_event_payload (e : CanonicalEventEnvelope P) : result BlockMarkerError bytes :=
  payload ← encode_to_vec e ?? Malformed;
  _ ← validate_payload_size (zlen payload);
  Ok payload.
End writing.

(** *** Reading: the cursor is the rest of the bytes *)

Abbreviation read_op := (st bytes (halt BlockMarkerError)).
Definition refuse {A} (e : BlockMarkerError) : read_op A := st_throw (Failed e).

Definition read_chunk (n : nat) : read_op bytes :=
  l ← st_get;
  if (length l <? n)%nat then refuse Malformed else
  _ ← st_modify (drop n);
  mret (take n l).

Definition read_u8 : read_op byte := l ← read_chunk 1; mret (default x00 (head l)).
Definition read_u64 : read_op Z := l ← read_chunk 8; mret (from_be_bytes l).
(** [i64::from_be_bytes]: two's complement. *)
Definition read_i64 : read_op Z :=
  l ← read_chunk 8;
  let z := from_be_bytes l in mret (if z <? 2 ^ 63 then z else z - 2 ^ 64).
Definition read_hash32 : read_op Hash := read_chunk 32.
Definition read_usize : read_op Z :=
  z ← read_u64; st_lift (map_err Failed (int_try USIZE z ?? Malformed)).

Definition read_counted : read_op bytes :=
  len ← read_usize;
  l ← st_get;
  if zlen l <? len then refuse Malformed else
  _ ← st_modify (drop (Z.to_nat len));
  mret (take (Z.to_nat len) l).

(** [char::is_control] in a UTF-8 text: U+0000-U+001F, U+007F and
    U+0080-U+009F, the last encoded with lead byte [c2]. *)
Fixpoint has_control (l : bytes) : bool :=
  match l with
  | [] => false
  | b :: l1 =>
      byte_between 0 31 b || byte_between 127 127 b ||
      (Byte.eqb b xc2 && match l1 with c :: _ => byte_between 128 159 c | [] => false end) ||
      has_control l1
  end.

Definition invalid_identity (value : string) : bool :=
  bool_decide (value = EmptyString) || trim_changes value ||
  (MAX_IDENTITY_BYTES <? zlen (as_bytes value)) || has_control (as_bytes value).

Definition read_utf8 : read_op string :=
  l ← read_counted;
  if negb (utf8_valid l) then refuse Malformed else
  let value := String.string_of_list_byte l in
  if invalid_identity value then refuse InvalidIdentity else mret value.

Fixpoint read_sources (n : nat) (m : btmap SourceId Hash) : read_op (btmap SourceId Hash) :=
  match n with
  | O => mret m
  | S n =>
      text ← read_utf8;
      source ← st_lift (map_err (fun _ => Failed Malformed) (string_id_new text));
      hash ← read_hash32;
      if bt_contains source m then refuse Malformed else read_sources n (bt_insert source hash m)
  end.

Fixpoint read_events (n : nat) (l : list MarkerEvent) : read_op (list MarkerEvent) :=
  match n with
  | O => mret l
  | S n =>
      id ← read_utf8;
      text ← read_utf8;
      kind ← st_lift (map_err Failed (kind_try_from text ?? Malformed));
      hash ← read_hash32;
      envelope ← read_hash32;
      read_events n (l ++ [mkMarkerEvent id kind hash envelope])
  end.

(** [Vec::with_capacity(n)] panics when the buffer would exceed [isize::MAX]
    bytes; a [MarkerEvent] takes 96. *)
Definition MARKER_EVENT_SIZE : Z := 96.
Definition with_capacity (n : Z) : read_op unit :=
  if ity_max I64 <? n * MARKER_EVENT_SIZE then st_throw Crashed else mret tt.

Definition read_class : read_op ConfirmationClass :=
  b ← read_u8;
  if Byte.eqb b x02 then mret CommittedPrimary else
  if Byte.eqb b x03 then mret CommittedIndependent else refuse NotCommitted.

Definition read_time : read_op ProtocolTime :=
  t ← read_i64; if t <? 0 then refuse Malformed else mret t.

Definition read_marker : read_op CommittedBlockMarker :=
  schema ← read_utf8;
  if negb (String.eqb schema BLOCK_MARKER_SCHEMA_V1) then refuse UnsupportedSchema else
  text ← read_utf8;
  chain ← st_lift (map_err (fun _ => Failed Malformed) (string_id_new text));
  height ← read_u64;
  time ← read_time;
  class ← read_class;
  hash ← read_hash32;
  receipt ← read_utf8;
  manifest ← read_utf8;
  manifest_sha256 ← read_hash32;
  fingerprint ← read_hash32;
  source_count ← read_usize;
  sources ← read_sources (Z.to_nat source_count) [];
  event_count ← read_usize;
  _ ← with_capacity event_count;
  listed ← read_events (Z.to_nat event_count) [];
  rest ← st_get;
  if negb (is_empty rest) then refuse Malformed else
  mret (mkMarker chain height time class hash receipt manifest manifest_sha256 fingerprint sources listed).

Definition decode_committed_block_marker (l : bytes) : result (halt BlockMarkerError) CommittedBlockMarker :=
  (read_marker l).1.

(** ** Reading back what was written

    [reads_back p a l]: wherever [l] comes next, [p] reads [a] from it. *)

Definition reads_back {A} (p : read_op A) (a : A) (l : bytes) : Prop :=
  forall rest, p (l ++ rest) = (Ok a, rest).

Lemma reads_bind {A B} (p : read_op A) (f : A -> read_op B) a b l k :
  reads_back p a l -> reads_back (f a) b k -> reads_back (p ≫= f) b (l ++ k).
Proof. intros Rp Rf rest. rewrite <- app_assoc, (st_bind_Ok _ _ _ _ _ (Rp _)). apply Rf. Qed.

Lemma reads_lift {A B} (r : result (halt BlockMarkerError) A) (f : A -> read_op B) a b l :
  r = Ok a -> reads_back (f a) b l -> reads_back (st_lift r ≫= f) b l.
Proof. intros -> Rf rest. rewrite st_bind_lift_Ok. apply Rf. Qed.

Lemma reads_guard {A} (b : bool) (q p : read_op A) a l :
  b = false -> reads_back p a l -> reads_back (if b then q else p) a l.
Proof. by intros ->. Qed.

Lemma reads_ret {A} (a : A) : reads_back (mret a) a [].
Proof. done. Qed.

Lemma reads_map {A B} (p : read_op A) (f : A -> B) a b l :
  reads_back p a l -> f a = b -> reads_back (x ← p; mret (f x)) b l.
Proof. intros Rp <- rest. by rewrite (st_bind_Ok _ _ _ _ _ (Rp _)). Qed.

Lemma reads_chunk n l : length l = n -> reads_back (read_chunk n) l l.
Proof.
  intros <- rest. unfold read_chunk. rewrite st_bind_get, length_app.
  rewrite (proj2 (Nat.ltb_ge _ _)) by lia. rewrite st_bind_modify. cbn.
  unfold mret, st_ret. by rewrite take_app_length, drop_app_length.
Qed.

Lemma reads_u8 b : reads_back read_u8 b [b].
Proof. unfold read_u8. by eapply reads_map; [by apply reads_chunk|]. Qed.

Lemma reads_u64 z : ity_wf U64 z -> reads_back read_u64 z (to_be_bytes 8 z).
Proof.
  intros [L U]. cbn in L, U. unfold read_u64.
  eapply reads_map; [apply reads_chunk, to_be_bytes_length|]. apply from_to_be_bytes. lia.
Qed.

Lemma reads_usize z : ity_wf U64 z -> reads_back read_usize z (to_be_bytes 8 z).
Proof.
  intros W. rewrite <- (app_nil_r (to_be_bytes 8 z)). eapply reads_bind; [by apply reads_u64|].
  rewrite int_try_wf by done. done.
Qed.

Lemma reads_time z : ity_wf I64 z -> 0 <= z -> reads_back read_time z (to_be_bytes 8 z).
Proof.
  intros [_ U] L. cbn in U. rewrite <- (app_nil_r (to_be_bytes 8 z)). eapply reads_bind.
  - unfold read_i64. eapply reads_map; [apply reads_chunk, to_be_bytes_length|]. cbn zeta.
    rewrite from_to_be_bytes by lia. by rewrite (proj2 (Z.ltb_lt z _)) by lia.
  - apply reads_guard; [lia|apply reads_ret].
Qed.

Lemma reads_counted l : ity_wf U64 (zlen l) -> reads_back read_counted l (frame 8 l).
Proof.
  intros W. unfold frame. eapply reads_bind; [by apply reads_usize|]. intros rest.
  rewrite st_bind_get, zlen_app. pose proof (zlen_nonneg rest).
  rewrite (proj2 (Z.ltb_ge _ _)) by lia. rewrite st_bind_modify. unfold mret, st_ret, zlen.
  by rewrite Nat2Z.id, take_app_length, drop_app_length.
Qed.

(** A text the reader accepts. *)
Definition identity_ok (value : string) : Prop :=
  utf8_valid (as_bytes value) = true /\ invalid_identity value = false.

Lemma reads_utf8 v : identity_ok v -> reads_back read_utf8 v (frame 8 (as_bytes v)).
Proof.
  intros [U I]. rewrite <- (app_nil_r (frame 8 _)). eapply reads_bind.
  - apply reads_counted. unfold invalid_identity in I. bool_to_prop.
    unfold MAX_IDENTITY_BYTES in *. pose proof (zlen_nonneg (as_bytes v)). split; cbn; lia.
  - apply reads_guard; [by rewrite U|]. unfold as_bytes. rewrite string_of_list_byte_of_string.
    apply reads_guard; [done|apply reads_ret].
Qed.

Lemma push_count_Ok n l : push_count n = Ok l -> l = to_be_bytes 8 n /\ ity_wf U64 n.
Proof.
  unfold push_count. intros E. inv_ok.
  match goal with E : int_try _ _ = Some _ |- _ => by apply int_try_Some in E as [-> W] end.
Qed.

Lemma push_str_Ok v l : push_str v = Ok l -> l = frame 8 (as_bytes v).
Proof.
  unfold push_str, push_bytes. intros E. inv_ok.
  match goal with E : push_count _ = Ok _ |- _ => by apply push_count_Ok in E as [-> _] end.
Qed.

Lemma reads_sources m l x :
  push_sources l = Ok x -> bt_sorted (m ++ l) ->
  Forall (fun p => identity_ok p.1 /\ id_wf p.1 /\ length p.2 = 32%nat) l ->
  reads_back (read_sources (length l) m) (m ++ l) x.
Proof.
  revert m x. induction l as [|[k v] l IH]; intros m x Pu So F; cbn [push_sources] in Pu.
  { injection Pu as <-. rewrite app_nil_r. apply reads_ret. }
  apply Forall_cons in F as [(Ik & Wk & Lv) F]. cbn in Ik, Wk, Lv. inv_ok.
  match goal with E : push_str _ = Ok _ |- _ => apply push_str_Ok in E as -> end.
  rewrite (cons_middle (k, v) m l), app_assoc in So |- *.
  pose proof (StronglySorted_app_1_l _ _ _ So) as [_ A]%bt_sorted_snoc.
  cbn [read_sources length].
  eapply reads_bind; [by apply reads_utf8|]. eapply reads_lift; [by rewrite Wk|].
  eapply reads_bind; [by apply reads_chunk|]. apply reads_guard.
  - apply bt_contains_false, bt_get_None. eapply Forall_impl; [exact A|]. cbn.
    intros p Lt E. apply cmp_lt_gt in Lt. congruence.
  - rewrite bt_insert_last by done. by apply IH.
Qed.

(** [reads_all p a l]: [p] reads [a] from [l] and leaves nothing. *)
Definition reads_all {A} (p : read_op A) (a : A) (l : bytes) : Prop := p l = (Ok a, []).

Lemma reads_all_bind {A B} (p : read_op A) (f : A -> read_op B) a b l k :
  reads_back p a l -> reads_all (f a) b k -> reads_all (p ≫= f) b (l ++ k).
Proof. intros Rp Rf. unfold reads_all. by rewrite (st_bind_Ok _ _ _ _ _ (Rp _)). Qed.

Lemma reads_all_lift {A B} (r : result (halt BlockMarkerError) A) (f : A -> read_op B) a b l :
  r = Ok a -> reads_all (f a) b l -> reads_all (st_lift r ≫= f) b l.
Proof. intros -> Rf. unfold reads_all. by rewrite st_bind_lift_Ok. Qed.

Lemma reads_all_guard {A} (b : bool) (q p : read_op A) a l :
  b = false -> reads_all p a l -> reads_all (if b then q else p) a l.
Proof. by intros ->. Qed.

Section reading_back.
Context {P : Type} `{EventPayload P} `{EventCodec P} `{Sha256}.

Definition marker_event (e : CanonicalEventEnvelope P) : MarkerEvent :=
  mkMarkerEvent (event_id e) (event_kind e) (payload_hash e) (sha256 (default [] (encode_to_vec e))).

Definition marker_of (b : BlockEnvelope P) (r : ArchiveReceipt) : CommittedBlockMarker :=
  mkMarker (chain_id b) (block_height b) (block_time b) (confirmation_class b) (canonical_block_hash b)
    (receipt_id r) (receipt_manifest_id r) (receipt_manifest_sha256 r) (receipt_schema_fingerprint r)
    (source_block_hashes b) (marker_event <$> events b).

(** Hashes are 32 bytes. *)
Definition sha256_sized : Prop := forall l, length (sha256 l) = 32%nat.

Lemma wire_name_identity k : identity_ok (as_wire_name k).
Proof. by destruct k. Qed.

Lemma reads_events acc l x :
  push_events l = Ok x -> sha256_sized ->
  Forall (fun e => identity_ok (event_id e) /\ length (payload_hash e) = 32%nat) l ->
  reads_back (read_events (length l) acc) (acc ++ (marker_event <$> l)) x.
Proof.
  intros Pu Sh F. revert acc x Pu. induction F as [|e l [Ie Lh] F IH]; intros acc x Pu; cbn [push_events] in Pu.
  { injection Pu as <-. rewrite app_nil_r. apply reads_ret. }
  inv_ok. repeat match goal with E : push_str _ = Ok _ |- _ => apply push_str_Ok in E as -> end.
  cbn [read_events length fmap list_fmap].
  eapply reads_bind; [by apply reads_utf8|]. eapply reads_bind; [apply reads_utf8, wire_name_identity|].
  eapply reads_lift; [by rewrite kind_roundtrip|].
  eapply reads_bind; [by apply reads_chunk|]. eapply reads_bind; [by apply reads_chunk|].
  rewrite (cons_middle (marker_event e) acc), app_assoc. unfold marker_event at 1.
  match goal with E : encode_to_vec e = Some _ |- _ => rewrite E end. by apply IH.
Qed.
(** A block and a receipt as the types they have in the code make them: machine
    integers, 32-byte hashes, identifiers the reader accepts. *)
Record publishable (b : BlockEnvelope P) (r : ArchiveReceipt) : Prop := {
  pb_chain : identity_ok (chain_id b) /\ id_wf (chain_id b);
  pb_height : ity_wf U64 (block_height b);
  pb_time : ity_wf I64 (block_time b) /\ 0 <= block_time b;
  pb_hash : length (canonical_block_hash b) = 32%nat;
  pb_receipt : identity_ok (receipt_id r);
  pb_manifest : identity_ok (receipt_manifest_id r);
  pb_manifest_hash : length (receipt_manifest_sha256 r) = 32%nat;
  pb_fingerprint : length (receipt_schema_fingerprint r) = 32%nat;
  pb_sorted : bt_sorted (source_block_hashes b);
  pb_sources : Forall (fun p => identity_ok p.1 /\ id_wf p.1 /\ length p.2 = 32%nat)
                 (source_block_hashes b);
  pb_events : Forall (fun e => identity_ok (event_id e) /\ length (payload_hash e) = 32%nat) (events b);
}.

Lemma reads_class c x : class_byte c = Ok x -> reads_back read_class c [x].
Proof.
  intros E. rewrite <- (app_nil_r [x]). eapply reads_bind; [apply reads_u8|].
  destruct c; cbn in E; inv_ok; apply reads_ret.
Qed.

(** What the encoder writes, field by field. *)
Lemma encode_marker_Ok b r l : encode_committed_block_marker b r = Ok l ->
  exists class sources listed,
    receipt_block_height r = block_height b /\ receipt_canonical_block_hash r = canonical_block_hash b /\
    class_byte (confirmation_class b) = Ok class /\ push_sources (source_block_hashes b) = Ok sources /\
    push_events (events b) = Ok listed /\
    ity_wf U64 (bt_len (source_block_hashes b)) /\ ity_wf U64 (zlen (events b)) /\
    zlen l <= MAX_PUBLICATION_PAYLOAD_BYTES /\
    l = frame 8 (as_bytes BLOCK_MARKER_SCHEMA_V1) ++ frame 8 (as_bytes (chain_id b)) ++
      to_be_bytes 8 (block_height b) ++ to_be_bytes 8 (block_time b) ++ [class] ++
      canonical_block_hash b ++ frame 8 (as_bytes (receipt_id r)) ++
      frame 8 (as_bytes (receipt_manifest_id r)) ++ receipt_manifest_sha256 r ++
      receipt_schema_fingerprint r ++ to_be_bytes 8 (bt_len (source_block_hashes b)) ++ sources ++
      to_be_bytes 8 (zlen (events b)) ++ listed.
Proof.
  unfold encode_committed_block_marker, validate_payload_size. intros E. inv_ok. bool_to_prop.
  repeat match goal with
  | E : push_str _ = Ok _ |- _ => apply push_str_Ok in E as ->
  | E : push_count _ = Ok _ |- _ => apply push_count_Ok in E as [-> ?]
  end.
  do 3 eexists. split_and!; done.
Qed.
Lemma push_events_len (l : list (CanonicalEventEnvelope P)) x :
  push_events l = Ok x -> zlen l <= zlen x.
Proof.
  revert x. induction l as [|e l IH]; intros x E; cbn [push_events] in E; inv_ok; [done|].
  match goal with E : push_events l = Ok _ |- _ => apply IH in E end.
  match goal with E : push_str (event_id e) = Ok _ |- _ => apply push_str_Ok in E as -> end.
  assert (forall z, zlen (to_be_bytes 8 z) = 8) as Z8 by (intros; unfold zlen; by rewrite to_be_bytes_length).
  unfold frame. rewrite !zlen_app, zlen_cons, Z8.
  repeat match goal with |- context [zlen ?l] => lazymatch goal with
    | _ : 0 <= zlen l |- _ => fail | _ => pose proof (zlen_nonneg l) end end.
  lia.
Qed.

Lemma decode_encoded_marker b r l :
  sha256_sized -> publishable b r -> encode_committed_block_marker b r = Ok l ->
  decode_committed_block_marker l = Ok (marker_of b r).
Proof.
  intros Sh [[Ic Wc] Hh [Ht Hn] Hc Ir Im Hm Hf So Fs Fe] E.
  apply encode_marker_Ok in E as (class & sources & listed & _ & _ & Ec & Es & El & Ws & We & Le & Eq).
  assert (ity_max I64 <? zlen (events b) * MARKER_EVENT_SIZE = false) as Cap.
  { apply push_events_len in El. assert (zlen listed <= zlen l).
    { rewrite Eq, !app_assoc, (zlen_app _ listed).
      match goal with |- _ <= zlen ?x + _ => pose proof (zlen_nonneg x) end. lia. }
    unfold MAX_PUBLICATION_PAYLOAD_BYTES, MARKER_EVENT_SIZE in *. cbn. lia. }
  enough (reads_all read_marker (marker_of b r) l) as Rd
    by (unfold decode_committed_block_marker; by rewrite Rd).
  rewrite Eq. unfold read_marker.
  eapply reads_all_bind; [by apply reads_utf8|]. apply reads_all_guard; [done|].
  eapply reads_all_bind; [by apply reads_utf8|]. eapply reads_all_lift; [by rewrite Wc|].
  eapply reads_all_bind; [by apply reads_u64|].
  eapply reads_all_bind; [by apply reads_time|].
  eapply reads_all_bind; [by apply reads_class|].
  eapply reads_all_bind; [by apply reads_chunk|].
  do 2 (eapply reads_all_bind; [by apply reads_utf8|]).
  do 2 (eapply reads_all_bind; [by apply reads_chunk|]).
  eapply reads_all_bind; [by apply reads_usize|].
  eapply reads_all_bind; [unfold bt_len, zlen; rewrite Nat2Z.id; by apply reads_sources|].
  eapply reads_all_bind; [by apply reads_usize|].
  unfold with_capacity. rewrite Cap. eapply (reads_all_bind _ _ _ _ [] listed); [apply reads_ret|].
  rewrite <- (app_nil_r listed).
  eapply reads_all_bind; [unfold zlen; rewrite Nat2Z.id; by apply reads_events|].
  done.
Qed.

End reading_back.

(** ** Concrete publications *)

(** A 32-byte digest of the whole input. *)
Definition mixing (l : bytes) : Hash :=
  to_be_bytes 32 (fold_left (fun a b => (257 * a + Z_of_byte b + 1) mod 2 ^ 64) l 0).
Definition mixing_blake3 : Blake3 := fun context l => mixing (as_bytes context ++ l).
#[local] Instance mixing_sha256 : Sha256 := mixing.

Definition published_event (height index : Z) : CanonicalEventEnvelope unit :=
  mkEvent unit "1.0.0" "hl" height 1000 "tx" 0 index
    (@compute_event_id sample_hex mixing_blake3 "hl" height "tx" index OrderAccepted SCHEMA_MAJOR)
    ["BTC"] [replicate 20 x01] [sample_evidence "node"] CommittedPrimary 1000 1001 1002
    (replicate 32 x09) "p1" tt [x7b; x7d] None.
Definition published_block (height : Z) : BlockEnvelope unit :=
  let l := [published_event height 0; published_event height 1] in
  mkBlock unit "hl" height 1000 CommittedPrimary l [("node"%string, replicate 32 x05)]
    (@compute_block_hash unit unit_payload mixing_blake3 "hl" height 1000 l).

(** A codec of these events. *)
#[global] Instance published_codec : EventCodec unit := {
  encode_to_vec e := Some (to_be_bytes 8 (ev_block_height e) ++ to_be_bytes 4 (event_index e));
  event_decode l := Some (published_event (from_be_bytes (take 8 l)) (from_be_bytes (drop 8 l)));
}.

Definition published_receipt (height : Z) : ArchiveReceipt :=
  mkArchiveReceipt "receipt" "manifest" height (canonical_block_hash (published_block height))
    (replicate 32 x0a) (replicate 32 x0b) (replicate 32 x0c) 2000.

Lemma mixing_sized : sha256_sized.
Proof. intros l. apply to_be_bytes_length. Qed.

Lemma published_publishable h : h = 5 \/ h = 6 -> publishable (published_block h) (published_receipt h).
Proof.
  assert (forall h, length (canonical_block_hash (published_block h)) = 32%nat) as Hl
    by (intros; apply to_be_bytes_length).
  intros Hh. assert (ity_wf U64 h) as Wh by (destruct Hh as [->| ->]; by vm_compute).
  assert (identity_ok "hl" /\ id_wf "hl" /\ identity_ok "node" /\ id_wf "node" /\
    identity_ok "receipt" /\ identity_ok "manifest") as (? & ? & ? & ? & ? & ?)
    by (unfold identity_ok, id_wf; split_and!; vm_compute; reflexivity).
  split; try done; [by repeat constructor|by apply Forall_singleton|].
  repeat (apply Forall_cons; split); try apply Forall_nil_2; (split; [|done]);
    destruct Hh as [->| ->]; unfold identity_ok; split; vm_compute; reflexivity.
Qed.

Definition unwrap {E A} (d : A) (r : result E A) : A := match r with Ok a => a | Err _ => d end.
Definition published_marker : bytes :=
  unwrap [] (encode_committed_block_marker (published_block 5) (published_receipt 5)).
Lemma published_encodes :
  encode_committed_block_marker (published_block 5) (published_receipt 5) = Ok published_marker.
Proof. vm_compute. reflexivity. Qed.


(** A marker up to its event count, which claims 2^63 events. *)
Definition oversized_marker : bytes :=
  frame 8 (as_bytes BLOCK_MARKER_SCHEMA_V1) ++ frame 8 (as_bytes "hl") ++
  to_be_bytes 8 5 ++ to_be_bytes 8 1000 ++ [x02] ++ replicate 32 x00 ++
  frame 8 (as_bytes "receipt") ++ frame 8 (as_bytes "manifest") ++ replicate 32 x00 ++
  replicate 32 x00 ++ to_be_bytes 8 0 ++ to_be_bytes 8 (2 ^ 63).

(** A truncated marker is refused as malformed, unless it claims so many
    events that the capacity the reader reserves for them overflows: then it
    panics. *)
Theorem oversized_marker_panics :
  decode_committed_block_marker oversized_marker = Err Crashed /\
  decode_committed_block_marker (take 200 oversized_marker) = Err (Failed Malformed).
Proof. split; vm_compute; reflexivity. Qed.
