(* ===== verification/Ledger.v ===== *)
(** * The canonical ledger: [crates/canonical-ledger/src/ledger.rs],
      [reducer.rs], [correction.rs], [watermark_only.rs] and the ledger's
      errors in [error.rs]

    The ledger applies committed blocks in height order. A block's events go
    through a reducer, whose mutations build a candidate state; the block is
    then validated as a whole and either becomes the new state or changes
    nothing. The reducer is a type class, as the trait is in the code: what
    is proved of the ledger holds for every instance. *)

From Stdlib Require Import Strings.Byte Strings.String Sorting.Sorted.
From stdpp Require Import sorting.
From S2P Require Import Prelude Ordering BTreeMap Bytes FixedPoint Ids Blocks StateImage.

(** ** Errors *)

Definition is_ascii_control (b : byte) : bool := byte_between 0 31 b || byte_between 127 127 b.

Definition valid_reason_code (value : string) : bool :=
  let l := as_bytes value in
  negb (is_empty l) && (zlen l <=? 128) && first_is is_ascii_lowercase l &&
  last_is is_ascii_alphanumeric l &&
  forallb (fun b => is_ascii_lowercase b || is_ascii_number b || existsb (Byte.eqb b) [x2e; x5f]) l.

Definition valid_message (value : string) : bool :=
  let l := as_bytes value in
  negb (is_empty l) && (zlen l <=? 512) && negb (trim_changes value) &&
  negb (existsb is_ascii_control l).

Record ReducerError := mkReducerError { reason_code : string; message : string }.

Inductive LedgerError :=
| InvalidLedgerLimits
| InvalidReducerVersion
| ReducerVersionDrift
| InvalidReducerError
| ChainMismatch
| NonCommittedBlock
| CorrectionUnimplemented
| HeightDiscontinuity (expected actual : BlockHeight)
| CanonicalDivergence
| HeightExhausted
| UnsupportedEvent (kind : EventKind) (version : string)
| ReducerFailed (source : ReducerError)
| MutationLimitExceeded
| InvalidMutation (reason : string)
| PreparedStateDrift.

Definition ledger_reason_code (e : LedgerError) : string :=
  match e with
  | InvalidLedgerLimits => "ledger.invalid_limits"
  | InvalidReducerVersion => "ledger.invalid_reducer_version"
  | ReducerVersionDrift => "ledger.reducer_version_drift"
  | InvalidReducerError => "ledger.invalid_reducer_error"
  | ChainMismatch => "ledger.chain_mismatch"
  | NonCommittedBlock => "ledger.non_committed_block"
  | CorrectionUnimplemented => "ledger.correction_unimplemented"
  | HeightDiscontinuity _ _ => "ledger.height_discontinuity"
  | CanonicalDivergence => "ledger.canonical_divergence"
  | HeightExhausted => "ledger.height_exhausted"
  | UnsupportedEvent _ _ => "ledger.unsupported_event"
  | ReducerFailed _ => "ledger.reducer_failed"
  | MutationLimitExceeded => "ledger.mutation_limit_exceeded"
  | InvalidMutation _ => "ledger.invalid_mutation"
  | PreparedStateDrift => "ledger.prepared_state_drift"
  end.

Definition reducer_error_try_new (code message : string) : result LedgerError ReducerError :=
  if negb (valid_reason_code code) || negb (valid_message message)
  then Err InvalidReducerError else Ok (mkReducerError code message).

(** ** Reducers *)

Record ApplyContext := mkContext {
  ctx_chain_id : ChainId;
  ctx_block_height : BlockHeight;
  ctx_block_time : ProtocolTime;
  ctx_confirmation_class : ConfirmationClass;
}.

Record BlockDeltaEntry := mkDeltaEntry {
  delta_key : StateKey;
  block_start_value : option bytes;
  block_final_value : option bytes;
  write_count : Z;
}.

(** [StateView] borrows the entries; its methods are the map's. *)
Abbreviation StateView := Entries.

Class EventReducer (P R : Type) := {
  reducer_version : R -> string;
  supports : R -> CanonicalEventEnvelope P -> bool;
  reduce : R -> StateView -> CanonicalEventEnvelope P -> ApplyContext ->
    result ReducerError (list StateMutation);
  validate_block_delta : R -> StateView -> list BlockDeltaEntry -> ApplyContext ->
    result ReducerError unit;
}.

(** The trait's provided methods: a reducer that overrides neither accepts
    every block, and one that overrides [validate_block] ignores the delta. *)
Definition default_validate_block (_ : StateView) (_ : ApplyContext) : result ReducerError unit := Ok tt.
Definition default_validate_block_delta
  (validate_block : StateView -> ApplyContext -> result ReducerError unit)
  (final : StateView) (_ : list BlockDeltaEntry) (ctx : ApplyContext) : result ReducerError unit :=
  validate_block final ctx.

(** ** Corrections *)

Inductive ConfirmationAdmission := AdmitCommitted | AdmitNonCommitted | AdmitCorrection.

Definition admit_confirmation (class : ConfirmationClass) : ConfirmationAdmission :=
  match class with
  | CommittedPrimary | CommittedIndependent => AdmitCommitted
  | Corrected => AdmitCorrection
  | ProvisionalSource | ReconciledSnapshot | Expired => AdmitNonCommitted
  end.

Definition require_committed_confirmation (class : ConfirmationClass) : result LedgerError unit :=
  match admit_confirmation class with
  | AdmitCommitted => Ok tt
  | AdmitNonCommitted => Err NonCommittedBlock
  | AdmitCorrection => Err CorrectionUnimplemented
  end.

Record CorrectionRecord := mkCorrection {
  correction_chain_id : ChainId;
  correction_height : BlockHeight;
  correction_hash : Hash;
}.

Definition correction_try_from_block {P} (b : BlockEnvelope P) : option CorrectionRecord :=
  match admit_confirmation (confirmation_class b) with
  | AdmitCorrection => Some (mkCorrection (chain_id b) (block_height b) (canonical_block_hash b))
  | AdmitCommitted | AdmitNonCommitted => None
  end.

Record CorrectionInspectReport := mkReport {
  report_admitted : bool;
  report_applied : bool;
  report_reason_code : string;
}.

Definition inspect_correction (_ : CorrectionRecord) : CorrectionInspectReport :=
  mkReport false false (ledger_reason_code CorrectionUnimplemented).

(** ** Limits *)

Definition MAX_BLOCK_DELTA_ENTRIES : Z := 1000000.
Definition MAX_BLOCK_DELTA_REFERENCED_BYTES : Z := 256 * 1024 * 1024.

Record LedgerLimits := mkLedgerLimits {
  max_events_per_block : Z;
  max_mutations_per_event : Z;
  max_key_bytes : Z;
  max_value_bytes : Z;
  max_block_delta_bytes : Z;
  max_block_delta_entries : Z;
  max_block_delta_referenced_bytes : Z;
}.

Definition limits_try_new (events mutations key value delta entries referenced : Z)
  : result LedgerError LedgerLimits :=
  if existsb (Z.eqb 0) [events; mutations; key; value; delta; entries; referenced] ||
     (delta <? key) || (delta <? value) ||
     match int_try U32 events with None => true | Some _ => false end ||
     match int_mul USIZE events mutations with
     | None => true
     | Some maximum_entries => maximum_entries <? entries
     end ||
     (delta <? referenced)
  then Err InvalidLedgerLimits
  else Ok (mkLedgerLimits events mutations key value delta entries referenced).

Definition limits_production : LedgerLimits :=
  mkLedgerLimits 100000 4096 (4 * 1024) (16 * 1024 * 1024) (256 * 1024 * 1024)
    MAX_BLOCK_DELTA_ENTRIES MAX_BLOCK_DELTA_REFERENCED_BYTES.

(** ** The block-delta tracker *)

Definition encoded_len (k : StateKey) : result LedgerError Z :=
  int_add USIZE (zlen (as_bytes (namespace k))) (zlen (key_bytes k)) ?? MutationLimitExceeded.

(** [value.map_or(0, <[u8]>::len)] *)
Definition value_len (v : option bytes) : Z := from_option zlen 0 v.

Record TrackedBlockDelta := mkTracked { tracked_count : Z; final_value_bytes : Z }.

Record BlockDeltaTracker := mkTracker {
  block_start : Entries;
  tr_entries : btmap StateKey TrackedBlockDelta;
  referenced_bytes : Z;
  tr_limits : LedgerLimits;
}.

Definition tracker_new (start : Entries) (limits : LedgerLimits) : BlockDeltaTracker :=
  mkTracker start [] 0 limits.

(** Every assignment to the receiver comes after the last check, so a failed
    call leaves it as it was. *)
Definition record_write (t : BlockDeltaTracker) (key : StateKey) (final : option bytes)
  : result LedgerError BlockDeltaTracker :=
  let final_bytes := value_len final in
  match bt_get key (tr_entries t) with
  | Some tracked =>
      count ← int_add U32 (tracked_count tracked) 1 ?? MutationLimitExceeded;
      referenced ←
        (int_sub USIZE (referenced_bytes t) (final_value_bytes tracked) ≫=
           fun n => int_add USIZE n final_bytes) ?? MutationLimitExceeded;
      if max_block_delta_referenced_bytes (tr_limits t) <? referenced
      then Err MutationLimitExceeded else
      Ok (mkTracker (block_start t) (bt_set key (mkTracked count final_bytes) (tr_entries t))
            referenced (tr_limits t))
  | None =>
      if max_block_delta_entries (tr_limits t) <=? bt_len (tr_entries t)
      then Err MutationLimitExceeded else
      key_len ← encoded_len key;
      referenced ←
        (int_add USIZE (referenced_bytes t) key_len ≫= fun n =>
           int_add USIZE n (value_len (bt_get key (block_start t))) ≫= fun n =>
           int_add USIZE n final_bytes) ?? MutationLimitExceeded;
      if max_block_delta_referenced_bytes (tr_limits t) <? referenced
      then Err MutationLimitExceeded else
      Ok (mkTracker (block_start t) (bt_insert key (mkTracked 1 final_bytes) (tr_entries t))
            referenced (tr_limits t))
  end.

Definition tracker_entries (t : BlockDeltaTracker) (block_final : Entries) : list BlockDeltaEntry :=
  (fun e => mkDeltaEntry e.1 (bt_get e.1 (block_start t)) (bt_get e.1 block_final)
              (tracked_count e.2)) <$> tr_entries t.

(** ** Mutations *)

Fixpoint validate_mutations_from (limits : LedgerLimits) (event_keys : btmap StateKey unit)
  (block_delta_bytes : Z) (ms : list StateMutation) : result LedgerError Z :=
  match ms with
  | [] => Ok block_delta_bytes
  | m :: ms =>
      let key := mutation_key m in
      if bt_contains key event_keys
      then Err (InvalidMutation "one event produced multiple mutations for the same state key")
      else
      key_len ← encoded_len key;
      if max_key_bytes limits <? key_len then Err MutationLimitExceeded else
      let val_len := value_len (mutation_value m) in
      if max_value_bytes limits <? val_len then Err MutationLimitExceeded else
      size ← (int_add USIZE block_delta_bytes key_len ≫= fun n => int_add USIZE n val_len)
               ?? MutationLimitExceeded;
      if max_block_delta_bytes limits <? size then Err MutationLimitExceeded else
      validate_mutations_from limits (bt_insert key tt event_keys) size ms
  end.

Definition validate_mutations (limits : LedgerLimits) (ms : list StateMutation)
  (block_delta_bytes : Z) : result LedgerError Z :=
  if max_mutations_per_event limits <? zlen ms then Err MutationLimitExceeded
  else validate_mutations_from limits [] block_delta_bytes ms.

(** The variables the event loop updates. All are local to [prepare_block], so
    an error drops them. *)
Record Work := mkWork {
  candidate : Entries;
  applied_mutations : list AppliedMutation;
  block_delta : BlockDeltaTracker;
}.

Definition apply_mutation (w : Work) (m : StateMutation) : result LedgerError Work :=
  match m with
  | Put key value =>
      let previous := bt_get key (candidate w) in
      t ← record_write (block_delta w) key (Some value);
      Ok (mkWork (bt_insert key value (candidate w))
            (applied_mutations w ++ [mkApplied key previous (Some value)]) t)
  | Delete key =>
      previous ← bt_get key (candidate w) ?? InvalidMutation "cannot delete a missing state key";
      t ← record_write (block_delta w) key None;
      Ok (mkWork (bt_remove key (candidate w))
            (applied_mutations w ++ [mkApplied key (Some previous) None]) t)
  end.

Fixpoint apply_mutations (w : Work) (ms : list StateMutation) : result LedgerError Work :=
  match ms with
  | [] => Ok w
  | m :: ms => w ← apply_mutation w m; apply_mutations w ms
  end.

(** ** The ledger *)

Record StateCheckpoint := mkCheckpoint {
  cp_chain_id : ChainId;
  cp_block_height : BlockHeight;
  cp_canonical_block_hash : Hash;
  cp_state_hash : Hash;
  cp_reducer_set_version : string;
}.

Record StateDelta := mkDelta {
  delta_checkpoint : StateCheckpoint;
  before_state_hash : Hash;
  mutations : list AppliedMutation;
  event_count : Z;
}.
Definition after_state_hash (d : StateDelta) : Hash := cp_state_hash (delta_checkpoint d).

Inductive ApplyOutcome :=
| Applied (delta : StateDelta)
| AlreadyApplied (checkpoint : StateCheckpoint).

Record PreparedBlock := mkPrepared { next_state : StateImage; prepared_delta : StateDelta }.

Inductive PrepareOutcome :=
| Ready (prepared : PreparedBlock)
| PreparedAlready (checkpoint : StateCheckpoint).

Record CanonicalLedger {R : Type} := mkLedger {
  reducer : R;
  limits : LedgerLimits;
  state : StateImage;
  ledger_hash : Hash;
}.
Arguments CanonicalLedger R : clear implicits.
Arguments mkLedger {R} _ _ _ _.

Section ledger.
Context {P R : Type} `{EventPayload P} `{EventReducer P R} `{Blake3}.
Abbreviation Ledger := (CanonicalLedger R).

Definition ledger_try_new (chain : ChainId) (first : BlockHeight) (r : R) (lims : LedgerLimits)
  : result LedgerError Ledger :=
  if negb (valid_reducer_version (reducer_version r)) then Err InvalidReducerVersion else
  let image := image_empty chain first (reducer_version r) in
  Ok (mkLedger r lims image (image_state_hash image)).

Definition try_from_state_image (image : StateImage) (r : R) (lims : LedgerLimits)
  : result LedgerError Ledger :=
  if negb (valid_reducer_version (reducer_version r)) then Err InvalidReducerVersion else
  if negb (bool_decide (reducer_version r = reducer_set_version image)) then Err ReducerVersionDrift
  else Ok (mkLedger r lims image (image_state_hash image)).

Definition checkpoint_from (l : Ledger) (w : StateWatermark) (hash : Hash) : StateCheckpoint :=
  mkCheckpoint (img_chain_id (state l)) (wm_height w) (wm_hash w) hash
    (reducer_set_version (state l)).

Definition checkpoint (l : Ledger) : option StateCheckpoint :=
  (fun w => checkpoint_from l w (ledger_hash l)) <$> img_watermark (state l).

Definition next_height (l : Ledger) : result LedgerError BlockHeight :=
  match img_watermark (state l) with
  | Some w => int_add U64 (wm_height w) 1 ?? HeightExhausted
  | None => Ok (img_first_height (state l))
  end.

Definition validate_boundary (l : Ledger) (b : BlockEnvelope P) : result LedgerError unit :=
  if negb (bool_decide (chain_id b = img_chain_id (state l))) then Err ChainMismatch
  else require_committed_confirmation (confirmation_class b).

Definition duplicate_checkpoint (l : Ledger) (b : BlockEnvelope P)
  : result LedgerError (option StateCheckpoint) :=
  match img_watermark (state l) with
  | None => Ok None
  | Some w =>
      if negb (block_height b =? wm_height w) then Ok None else
      if negb (bool_decide (canonical_block_hash b = wm_hash w)) then Err CanonicalDivergence
      else Ok (Some (checkpoint_from l w (ledger_hash l)))
  end.

Definition validate_next_height (l : Ledger) (actual : BlockHeight) : result LedgerError unit :=
  expected ← next_height l;
  if negb (actual =? expected) then Err (HeightDiscontinuity expected actual) else Ok tt.

(** The loop over the block's events; [raw] is [raw_block_delta_bytes]. *)
Fixpoint reduce_events (l : Ledger) (ctx : ApplyContext) (raw : Z) (w : Work)
  (es : list (CanonicalEventEnvelope P)) : result LedgerError Work :=
  match es with
  | [] => Ok w
  | e :: es =>
      if negb (supports (reducer l) e)
      then Err (UnsupportedEvent (event_kind e) (schema_version e)) else
      ms ← map_err ReducerFailed (reduce (reducer l) (candidate w) e ctx);
      raw ← validate_mutations (limits l) ms raw;
      w ← apply_mutations w ms;
      reduce_events l ctx raw w es
  end.

Definition block_context (b : BlockEnvelope P) : ApplyContext :=
  mkContext (chain_id b) (block_height b) (block_time b) (confirmation_class b).

Definition prepare_block (l : Ledger) (b : BlockEnvelope P) : result LedgerError PrepareOutcome :=
  if negb (bool_decide (reducer_version (reducer l) = reducer_set_version (state l)))
  then Err ReducerVersionDrift else
  _ ← validate_boundary l b;
  duplicate ← duplicate_checkpoint l b;
  match duplicate with
  | Some cp => Ok (PreparedAlready cp)
  | None =>
      _ ← validate_next_height l (block_height b);
      if max_events_per_block (limits l) <? zlen (events b) then Err MutationLimitExceeded else
      count ← int_try U64 (zlen (events b)) ?? MutationLimitExceeded;
      let ctx := block_context b in
      let start := img_entries (state l) in
      w ← reduce_events l ctx 0 (mkWork start [] (tracker_new start (limits l))) (events b);
      _ ← map_err ReducerFailed
            (validate_block_delta (reducer l) (candidate w)
               (tracker_entries (block_delta w) (candidate w)) ctx);
      let watermark := mkStateWatermark (block_height b) (canonical_block_hash b) in
      let next := image_commit watermark (candidate w) (state l) in
      let cp := checkpoint_from l watermark (image_state_hash next) in
      Ok (Ready (mkPrepared next (mkDelta cp (ledger_hash l) (applied_mutations w) count)))
  end.

Abbreviation ledger_op := (st Ledger LedgerError).

Definition commit_prepared (p : PreparedBlock) : ledger_op StateDelta :=
  l ← st_get;
  if negb (bool_decide (ledger_hash l = before_state_hash (prepared_delta p)))
  then st_throw PreparedStateDrift else
  _ ← st_modify (fun l => mkLedger (reducer l) (limits l) (next_state p)
                            (after_state_hash (prepared_delta p)));
  mret (prepared_delta p).

Definition apply_block (b : BlockEnvelope P) : ledger_op ApplyOutcome :=
  l ← st_get;
  outcome ← st_lift (prepare_block l b);
  match outcome with
  | Ready prepared => delta ← commit_prepared prepared; mret (Applied delta)
  | PreparedAlready cp => mret (AlreadyApplied cp)
  end.

Definition apply_correction (_ : Ledger) (_ : CorrectionRecord) : result LedgerError unit :=
  Err CorrectionUnimplemented.
End ledger.

(** ** The watermark-only reducer *)

Inductive WatermarkOnlyReducerV1 := WatermarkOnly.
Definition WATERMARK_ONLY_VERSION : string := "hyperliquid-alpha-desk-watermark-only@1.0.0".

#[global] Instance watermark_only {P} : EventReducer P WatermarkOnlyReducerV1 := {
  reducer_version _ := WATERMARK_ONLY_VERSION;
  supports _ _ := false;
  reduce _ _ _ _ := Err (mkReducerError "reducer.unqualified_event"
    "watermark-only reducer cannot apply action-bearing events");
  validate_block_delta _ := default_validate_block_delta default_validate_block;
}.

(** ** Deltas

    [redo] replays an applied mutation and [undo] takes it back. *)

Definition put_or_remove (k : StateKey) (v : option bytes) (es : Entries) : Entries :=
  match v with Some v => bt_insert k v es | None => bt_remove k es end.
Definition redo (es : Entries) (m : AppliedMutation) : Entries :=
  put_or_remove (applied_key m) (applied_current m) es.
Definition undo (m : AppliedMutation) (es : Entries) : Entries :=
  put_or_remove (applied_key m) (applied_previous m) es.
Definition redo_all (es : Entries) (ms : list AppliedMutation) : Entries := fold_left redo ms es.
Definition undo_all (es : Entries) (ms : list AppliedMutation) : Entries := foldr undo es ms.

Lemma put_or_remove_sorted k v es : bt_sorted es -> bt_sorted (put_or_remove k v es).
Proof. intros S. destruct v; [by apply bt_insert_sorted|by apply bt_remove_sorted]. Qed.

Lemma get_put_or_remove j k v es :
  bt_sorted es -> bt_get j (put_or_remove k v es) = if decide (j = k) then v else bt_get j es.
Proof.
  intros S. destruct v as [v|]; cbn; rewrite ?bt_get_insert, ?bt_get_remove, eqb_decide by done;
    by case_bool_decide; case_decide.
Qed.

Lemma undo_redo k v es : bt_sorted es -> put_or_remove k (bt_get k es) (put_or_remove k v es) = es.
Proof.
  intros S. apply bt_ext; auto using put_or_remove_sorted. intros j.
  rewrite !get_put_or_remove by auto using put_or_remove_sorted.
  destruct (decide (j = k)) as [->|]; done.
Qed.

(** How often a block wrote a key. *)
Definition writes (k : StateKey) (ms : list AppliedMutation) : Z :=
  zlen (filter (fun m => applied_key m = k) ms).

Lemma writes_snoc k ms m :
  writes k (ms ++ [m]) = writes k ms + (if decide (k = applied_key m) then 1 else 0).
Proof.
  unfold writes. rewrite filter_app, zlen_app. f_equal. rewrite filter_cons, filter_nil.
  destruct (decide (applied_key m = k)), (decide (k = applied_key m)); congruence || done.
Qed.

Lemma writes_nonneg k ms : 0 <= writes k ms.
Proof. apply zlen_nonneg. Qed.

(** What a delta entry references: its key, the value before and the value
    after. *)
Definition key_len (k : StateKey) : Z := zlen (as_bytes (namespace k)) + zlen (key_bytes k).
Definition weight (start : Entries) (e : StateKey * TrackedBlockDelta) : Z :=
  key_len e.1 + value_len (bt_get e.1 start) + final_value_bytes e.2.

Record tracker_inv (start : Entries) (lims : LedgerLimits) (ms : list AppliedMutation)
  (final : Entries) (t : BlockDeltaTracker) : Prop := {
  ti_start : block_start t = start;
  ti_limits : tr_limits t = lims;
  ti_sorted : bt_sorted (tr_entries t);
  ti_get k : bt_get k (tr_entries t) =
    if decide (writes k ms = 0) then None
    else Some (mkTracked (writes k ms) (value_len (bt_get k final)));
  ti_sum : referenced_bytes t = bt_sum (weight start) (tr_entries t);
  ti_entries : bt_len (tr_entries t) <= max_block_delta_entries lims;
  ti_bytes : referenced_bytes t <= max_block_delta_referenced_bytes lims;
}.

Lemma tracker_new_inv start lims :
  0 <= max_block_delta_entries lims -> 0 <= max_block_delta_referenced_bytes lims ->
  tracker_inv start lims [] start (tracker_new start lims).
Proof. intros E B. split; try done. constructor. Qed.

Lemma record_write_inv start lims ms final t k v prev t' :
  bt_sorted final -> tracker_inv start lims ms final t -> record_write t k v = Ok t' ->
  tracker_inv start lims (ms ++ [mkApplied k prev v]) (put_or_remove k v final) t'.
Proof.
  intros S [Es El So G Su En By] W. unfold record_write in W. rewrite G in W.
  assert (forall j, j <> k -> writes j (ms ++ [mkApplied k prev v]) = writes j ms) as Wne.
  { intros j N. rewrite writes_snoc. cbn. rewrite decide_False by done. lia. }
  assert (writes k (ms ++ [mkApplied k prev v]) = writes k ms + 1) as Weq.
  { rewrite writes_snoc. cbn. by rewrite decide_True. }
  pose proof (writes_nonneg k ms) as N0. specialize (G k) as Gk.
  destruct (decide (writes k ms = 0)) as [Z0|Nz].
  - inv_ok. bool_to_prop. unfold encoded_len in *. inv_ok.
    apply int_try_Some in H as [-> _]. apply bind_Some in H0 as (n & A1 & A).
    apply bind_Some in A as (n' & A2 & A3).
    apply int_try_Some in A1 as [-> _], A2 as [-> _], A3 as [-> _].
    split; cbn [block_start tr_entries referenced_bytes tr_limits]; try done.
    + by apply bt_insert_sorted.
    + intros j. rewrite bt_get_insert, eqb_decide, get_put_or_remove by done.
      destruct (decide (j = k)) as [->|Nj].
      * rewrite bool_decide_true, Weq, decide_False by (done || lia). do 2 f_equal. lia.
      * by rewrite bool_decide_false, Wne by done.
    + rewrite bt_sum_insert by done. unfold weight at 1, key_len. cbn. rewrite Su. lia.
    + rewrite bt_len_insert by done. unfold bt_contains. rewrite Gk. lia.
  - inv_ok. bool_to_prop. cbn in H, H0. apply int_try_Some in H as [-> _].
    apply bind_Some in H0 as (n & A1 & A2). apply int_try_Some in A1 as [-> _], A2 as [-> _].
    split; cbn [block_start tr_entries referenced_bytes tr_limits]; try done.
    + by apply bt_set_sorted.
    + intros j. rewrite bt_get_set, eqb_decide, get_put_or_remove by done.
      destruct (decide (j = k)) as [->|Nj].
      * by rewrite bool_decide_true, Weq, decide_False, Gk by (done || lia).
      * by rewrite bool_decide_false, Wne by done.
    + rewrite (bt_sum_set _ _ _ _ _ Gk). unfold weight at 2 3. cbn. lia.
    + by rewrite bt_len_set.
Qed.

(** ** The event loop *)

Record work_inv (start : Entries) (lims : LedgerLimits) (w : Work) : Prop := {
  wi_sorted : bt_sorted (candidate w);
  wi_redo : redo_all start (applied_mutations w) = candidate w;
  wi_undo : undo_all (candidate w) (applied_mutations w) = start;
  wi_tracker : tracker_inv start lims (applied_mutations w) (candidate w) (block_delta w);
}.

Lemma work_step start lims w k v t :
  work_inv start lims w -> record_write (block_delta w) k v = Ok t ->
  work_inv start lims
    (mkWork (put_or_remove k v (candidate w))
       (applied_mutations w ++ [mkApplied k (bt_get k (candidate w)) v]) t).
Proof.
  intros [S Re Un T] W. split; cbn [candidate applied_mutations block_delta].
  - by apply put_or_remove_sorted.
  - unfold redo_all in *. by rewrite fold_left_app, Re.
  - unfold undo_all in *. rewrite foldr_app. cbn [foldr]. unfold undo at 2. cbn. by rewrite undo_redo.
  - by eapply record_write_inv.
Qed.

Lemma apply_mutation_inv start lims w m w' :
  work_inv start lims w -> apply_mutation w m = Ok w' -> work_inv start lims w'.
Proof.
  intros I A. destruct m as [k v|k]; cbn in A; inv_ok.
  - by apply (work_step _ _ _ k (Some v)).
  - rewrite <- H. by apply (work_step _ _ _ k None).
Qed.

Lemma apply_mutations_inv start lims w ms w' :
  work_inv start lims w -> apply_mutations w ms = Ok w' -> work_inv start lims w'.
Proof.
  revert w. induction ms as [|m ms IH]; intros w I A; cbn in A; inv_ok; [done|].
  eapply IH; [|done]. by eapply apply_mutation_inv.
Qed.

Definition keys_wf (es : Entries) : Prop := Forall (fun e => key_wf e.1) es.

Lemma apply_mutations_keys w ms w' :
  Forall (fun m => key_wf (mutation_key m)) ms -> keys_wf (candidate w) ->
  apply_mutations w ms = Ok w' -> keys_wf (candidate w').
Proof.
  intros F. revert w. induction F as [|m ms W F IH]; intros w K A; cbn in A; inv_ok; [done|].
  apply (IH x); [|done]. destruct m as [k v|k]; cbn in *; inv_ok; cbn.
  - apply bt_insert_Forall; [done| |done]. intros k' E. apply cmp_eq_leibniz in E as <-. done.
  - by apply bt_remove_Forall.
Qed.

(** A [StateKey] is built by [try_new] alone, so the keys a reducer returns are
    valid. *)
Class ReducerTyped (P R : Type) `{EventReducer P R} : Prop :=
  reduce_keys_wf : forall r view e ctx ms, reduce r view e ctx = Ok ms ->
    Forall (fun m => key_wf (mutation_key m)) ms.

#[global] Instance watermark_only_typed {P} : ReducerTyped P WatermarkOnlyReducerV1.
Proof. intros r view e ctx ms E. discriminate E. Qed.

Section ledger_theory.
Context {P R : Type} `{EventPayload P} `{EventReducer P R} `{Blake3}.
Implicit Types (l : CanonicalLedger R) (b : BlockEnvelope P).

Lemma reduce_events_inv l ctx start lims raw w es w' :
  work_inv start lims w -> reduce_events l ctx raw w es = Ok w' -> work_inv start lims w'.
Proof.
  revert raw w. induction es as [|e es IH]; intros raw w I A; cbn in A; inv_ok; [done|].
  eapply IH; [|done]. by eapply apply_mutations_inv.
Qed.

Lemma reduce_events_keys `{!ReducerTyped P R} l ctx raw w es w' :
  keys_wf (candidate w) -> reduce_events l ctx raw w es = Ok w' -> keys_wf (candidate w').
Proof.
  revert raw w. induction es as [|e es IH]; intros raw w K A; cbn in A; inv_ok; [done|].
  eapply IH; [|done]. eapply apply_mutations_keys; [|done|done]. by eapply reduce_keys_wf.
Qed.

(** The heights of the limits and of blocks are machine integers. *)
Definition limits_ok (lims : LedgerLimits) : Prop :=
  0 <= max_block_delta_entries lims /\ 0 <= max_block_delta_referenced_bytes lims.
Definition block_typed b : Prop :=
  ity_wf U64 (block_height b) /\ length (canonical_block_hash b) = 32%nat.

(** The ledger's invariant: the cached hash is the state's, the state is a
    well-formed image, and its version is the reducer's. *)
Record ledger_inv l : Prop := {
  li_hash : ledger_hash l = image_state_hash (state l);
  li_image : image_wf (state l);
  li_version : reducer_version (reducer l) = reducer_set_version (state l);
  li_limits : limits_ok (limits l);
}.

(** The height the ledger waits for, without the width check. *)
Definition expected_height l : BlockHeight :=
  match img_watermark (state l) with
  | Some w => wm_height w + 1
  | None => img_first_height (state l)
  end.

Lemma next_height_Ok l h : ledger_inv l ->
  next_height l = Ok h <-> h = expected_height l /\ ity_wf U64 h.
Proof.
  intros [_ (_ & Wf & _ & Ww & _) _ _]. unfold next_height, expected_height.
  destruct (img_watermark (state l)) as [w|].
  - rewrite ok_or_Ok. unfold int_add. rewrite int_try_Some. by split; intros [-> W].
  - split; [intros [= <-]; by split|intros [-> _]; done].
Qed.

(** The work a block's events do on a ledger. *)
Definition block_work l b : result LedgerError Work :=
  let start := img_entries (state l) in
  reduce_events l (block_context b) 0 (mkWork start [] (tracker_new start (limits l))) (events b).

Record admitted l b : Prop := {
  ad_chain : chain_id b = img_chain_id (state l);
  ad_class : confirmation_class b = CommittedPrimary \/ confirmation_class b = CommittedIndependent;
}.

Lemma validate_boundary_Ok l b u : validate_boundary l b = Ok u <-> admitted l b.
Proof.
  unfold validate_boundary, require_committed_confirmation. destruct u. split.
  - intros A. inv_ok. bool_to_prop. split; [done|]. destruct (confirmation_class b); auto; discriminate.
  - intros [-> C]. rewrite bool_decide_true by done. by destruct C as [-> | ->].
Qed.

(** What [prepare_block] returns on success. *)
Lemma prepare_block_Ok l b o : prepare_block l b = Ok o ->
  admitted l b /\
  match o with
  | PreparedAlready cp =>
      img_watermark (state l) = Some (mkStateWatermark (block_height b) (canonical_block_hash b)) /\
      checkpoint l = Some cp
  | Ready p => exists w,
      let wm := mkStateWatermark (block_height b) (canonical_block_hash b) in
      let next := image_commit wm (candidate w) (state l) in
      next_height l = Ok (block_height b) /\ block_work l b = Ok w /\
      validate_block_delta (reducer l) (candidate w)
        (tracker_entries (block_delta w) (candidate w)) (block_context b) = Ok tt /\
      p = mkPrepared next (mkDelta (checkpoint_from l wm (image_state_hash next)) (ledger_hash l)
                             (applied_mutations w) (zlen (events b)))
  end.
Proof.
  unfold prepare_block, duplicate_checkpoint, checkpoint. intros E. inv_ok.
  apply validate_boundary_Ok in H2. split; [done|]. bool_to_prop.
  assert (x0 = None \/ exists cp, x0 = Some cp /\
    img_watermark (state l) = Some (mkStateWatermark (block_height b) (canonical_block_hash b)) /\
    cp = checkpoint_from l (mkStateWatermark (block_height b) (canonical_block_hash b)) (ledger_hash l)) as D.
  { destruct (img_watermark (state l)) as [[h hash]|]; inv_ok; [|by left]. cbn [wm_height wm_hash] in *.
    destruct (block_height b =? h) eqn:Eh; cbn in H3; inv_ok; [|by left]. bool_to_prop. subst.
    right. by eexists. }
  destruct D as [-> | (cp & -> & -> & ->)]; inv_ok; [|done].
  exists x2. unfold validate_next_height in H4. inv_ok. bool_to_prop. apply int_try_Some in H5 as [-> _].
  destruct x3. split_and!; try done. by rewrite H8, Hb1.
Qed.

(** What a successful application does. *)
Record applied_spec l b (d : StateDelta) l' : Prop := {
  as_admitted : admitted l b;
  as_height : next_height l = Ok (block_height b);
  as_next : state l' = image_commit (mkStateWatermark (block_height b) (canonical_block_hash b))
                         (redo_all (img_entries (state l)) (mutations d)) (state l);
  as_undo : bt_sorted (img_entries (state l)) ->
    undo_all (img_entries (state l')) (mutations d) = img_entries (state l);
  as_before : before_state_hash d = ledger_hash l;
  as_after : ledger_hash l' = image_state_hash (state l') /\ after_state_hash d = ledger_hash l';
  as_checkpoint : checkpoint l' = Some (delta_checkpoint d);
  as_count : event_count d = zlen (events b);
  as_same : reducer l' = reducer l /\ limits l' = limits l;
}.

Lemma block_work_inv l b w : ledger_inv l -> block_work l b = Ok w ->
  work_inv (img_entries (state l)) (limits l) w.
Proof.
  intros [_ (_ & _ & _ & _ & _ & S & _) _ [L1 L2]] W. eapply reduce_events_inv; [|exact W].
  split; try done. by apply tracker_new_inv.
Qed.

Lemma apply_block_Ok l b o l' : apply_block b l = (Ok o, l') ->
  admitted l b /\
  match o with
  | AlreadyApplied cp =>
      l' = l /\ checkpoint l = Some cp /\
      img_watermark (state l) = Some (mkStateWatermark (block_height b) (canonical_block_hash b))
  | Applied d => exists w,
      let wm := mkStateWatermark (block_height b) (canonical_block_hash b) in
      let next := image_commit wm (candidate w) (state l) in
      next_height l = Ok (block_height b) /\ block_work l b = Ok w /\
      validate_block_delta (reducer l) (candidate w)
        (tracker_entries (block_delta w) (candidate w)) (block_context b) = Ok tt /\
      d = mkDelta (checkpoint_from l wm (image_state_hash next)) (ledger_hash l)
            (applied_mutations w) (zlen (events b)) /\
      l' = mkLedger (reducer l) (limits l) next (image_state_hash next)
  end.
Proof.
  unfold apply_block. rewrite st_bind_get. destruct (prepare_block l b) as [o'|] eqn:E; [|discriminate].
  rewrite st_bind_lift_Ok. intros A. apply prepare_block_Ok in E as [Ad E]. split; [done|].
  destruct o' as [p|cp].
  - destruct E as (w & Hn & Hw & Hv & ->). unfold commit_prepared in A. inv_st. by exists w.
  - destruct E as [W C]. by inv_st.
Qed.

Lemma apply_block_Err l b e l' : apply_block b l = (Err e, l') ->
  prepare_block l b = Err e /\ l' = l.
Proof.
  unfold apply_block. rewrite st_bind_get. destruct (prepare_block l b) as [[p|cp]|e'] eqn:E.
  - apply prepare_block_Ok in E as [_ (w & _ & _ & _ & ->)].
    rewrite st_bind_lift_Ok. unfold commit_prepared. cbn [prepared_delta before_state_hash].
    unfold mbind, st_bind, st_get. by rewrite bool_decide_true.
  - discriminate.
  - by intros [= -> ->].
Qed.

Lemma applied_block_spec l b d l' :
  ledger_inv l -> apply_block b l = (Ok (Applied d), l') -> applied_spec l b d l'.
Proof.
  intros I A. apply apply_block_Ok in A as (Ad & w & Hn & Hw & _ & -> & ->).
  pose proof (block_work_inv _ _ _ I Hw) as [S Re Un _].
  split; cbn [state ledger_hash reducer limits mutations]; try done. by rewrite Re.
Qed.

Lemma applied_inv `{!ReducerTyped P R} l b d l' :
  ledger_inv l -> block_typed b -> apply_block b l = (Ok (Applied d), l') -> ledger_inv l'.
Proof.
  intros I [Bh Bl] A. apply apply_block_Ok in A as (Ad & w & Hn & Hw & _ & -> & ->).
  pose proof (block_work_inv _ _ _ I Hw) as [S _ _ _].
  apply (next_height_Ok _ _ I) in Hn as [Hh _].
  destruct I as [Ih (Wc & Wf & Wv & Ww & Wn & Ws & Wk) Iv Il]. split; try done.
  unfold image_wf. cbn. split_and!; try done; try by apply Bh.
  - apply Wc.
  - apply Wc.
  - rewrite Hh. unfold expected_height. destruct (img_watermark _); [|lia]. cbn in Ww. lia.
  - eapply reduce_events_keys; [|exact Hw]. exact Wk.
Qed.

(** C6. Applying a block is atomic. On every error the ledger is unchanged. A
    block already at the watermark is answered with the current checkpoint and
    changes nothing. Otherwise the block is of the ledger's chain, committed,
    and at the next height; the new state is the old one with exactly the
    delta's mutations replayed, undoing them restores the old state, and the
    delta's checkpoint and hashes are those of the states before and after. *)
Theorem apply_block_atomic l b r l' : ledger_inv l -> apply_block b l = (r, l') ->
  match r with
  | Err _ => l' = l
  | Ok (AlreadyApplied cp) =>
      l' = l /\ checkpoint l = Some cp /\
      img_watermark (state l) = Some (mkStateWatermark (block_height b) (canonical_block_hash b))
  | Ok (Applied d) => applied_spec l b d l'
  end.
Proof.
  intros I A. destruct r as [[d|cp]|e].
  - by apply applied_block_spec.
  - by apply apply_block_Ok in A as [_ A].
  - by apply apply_block_Err in A as [_ ->].
Qed.

(** A block is at the watermark after it was applied or found applied. *)
Lemma applied_watermark l b o l' : apply_block b l = (Ok o, l') ->
  img_watermark (state l') = Some (mkStateWatermark (block_height b) (canonical_block_hash b)) /\
  img_chain_id (state l') = img_chain_id (state l) /\
  reducer_set_version (state l') = reducer_set_version (state l) /\ reducer l' = reducer l.
Proof.
  intros A. apply apply_block_Ok in A as [_ A]. destruct o as [d|cp].
  - by destruct A as (w & _ & _ & _ & _ & ->).
  - by destruct A as (-> & _ & A).
Qed.

Lemma prepare_at_watermark l b w :
  reducer_version (reducer l) = reducer_set_version (state l) -> admitted l b ->
  img_watermark (state l) = Some w -> block_height b = wm_height w ->
  prepare_block l b =
    if decide (canonical_block_hash b = wm_hash w)
    then Ok (PreparedAlready (checkpoint_from l w (ledger_hash l))) else Err CanonicalDivergence.
Proof.
  intros V A W E. unfold prepare_block. rewrite bool_decide_true by done. cbn [negb].
  rewrite (proj2 (validate_boundary_Ok l b tt) A). cbn. unfold duplicate_checkpoint.
  rewrite W, E, Z.eqb_refl. cbn. by case_bool_decide; case_decide.
Qed.

Lemma apply_block_again l b o l' b' :
  ledger_inv l -> apply_block b l = (Ok o, l') ->
  chain_id b' = chain_id b -> block_height b' = block_height b ->
  confirmation_class b' = CommittedPrimary \/ confirmation_class b' = CommittedIndependent ->
  exists cp, checkpoint l' = Some cp /\ cp_block_height cp = block_height b /\
    apply_block b' l' =
      (if decide (canonical_block_hash b' = canonical_block_hash b)
       then Ok (AlreadyApplied cp) else Err CanonicalDivergence, l').
Proof.
  intros I A Ec Eh Cl. pose proof (apply_block_Ok _ _ _ _ A) as [[Ad _] _].
  apply applied_watermark in A as (W & C & V & Rd). eexists. unfold checkpoint. rewrite W. cbn.
  split_and!; [done|done|]. unfold apply_block. rewrite st_bind_get.
  rewrite (prepare_at_watermark l' b' (mkStateWatermark (block_height b) (canonical_block_hash b)));
    [..|exact W|exact Eh].
  - cbn. by case_decide.
  - rewrite Rd, V. apply I.
  - split; [by rewrite Ec, Ad, C|done].
Qed.

(** Application is idempotent and detects divergence: once a block is in,
    offering it again returns the ledger's checkpoint and changes nothing,
    while a committed block of the same chain and height with another hash is
    refused as a canonical divergence. *)
Theorem apply_block_idempotent l b o l' b' :
  ledger_inv l -> apply_block b l = (Ok o, l') ->
  chain_id b' = chain_id b -> block_height b' = block_height b ->
  confirmation_class b' = CommittedPrimary \/ confirmation_class b' = CommittedIndependent ->
  exists cp, checkpoint l' = Some cp /\ cp_block_height cp = block_height b /\
    apply_block b' l' =
      (if decide (canonical_block_hash b' = canonical_block_hash b)
       then Ok (AlreadyApplied cp) else Err CanonicalDivergence, l').
Proof. apply apply_block_again. Qed.

(** *** The delta view *)

Definition entry_bytes_referenced (e : BlockDeltaEntry) : Z :=
  key_len (delta_key e) + value_len (block_start_value e) + value_len (block_final_value e).

(** The view of a block: every key it wrote, once and in key order, with its
    values before and after the block and the number of writes. *)
Record view_exact (before after : Entries) (ms : list AppliedMutation) (view : list BlockDeltaEntry)
  : Prop := {
  ve_order : StronglySorted (fun k1 k2 => cmp k1 k2 = Lt) (delta_key <$> view);
  ve_keys k : k ∈ delta_key <$> view <-> exists m, m ∈ ms /\ applied_key m = k;
  ve_entries e : e ∈ view ->
    block_start_value e = bt_get (delta_key e) before /\
    block_final_value e = bt_get (delta_key e) after /\ write_count e = writes (delta_key e) ms;
}.

Lemma writes_pos k ms : writes k ms <> 0 <-> exists m, m ∈ ms /\ applied_key m = k.
Proof.
  unfold writes. split.
  - destruct (filter (fun m => applied_key m = k) ms) as [|m l] eqn:E; [done|]. intros _.
    assert (m ∈ filter (fun m => applied_key m = k) ms) as F by (rewrite E; constructor).
    apply list_elem_of_filter in F as [F M]. by exists m.
  - intros (m & M & <-).
    assert (m ∈ filter (fun m' => applied_key m' = applied_key m) ms) as F by by apply list_elem_of_filter.
    destruct (filter _ ms) as [|m' l]; [by apply elem_of_nil in F|]. rewrite zlen_cons.
    pose proof (zlen_nonneg l). lia.
Qed.

Lemma tracker_view_exact start lims ms final t : tracker_inv start lims ms final t ->
  view_exact start final ms (tracker_entries t final) /\
  zlen (tracker_entries t final) <= max_block_delta_entries lims /\
  foldr Z.add 0 (entry_bytes_referenced <$> tracker_entries t final)
    <= max_block_delta_referenced_bytes lims.
Proof.
  intros [Es El So G Su En By]. unfold tracker_entries. rewrite Es.
  assert (forall e, e ∈ tr_entries t ->
    writes e.1 ms <> 0 /\ e.2 = mkTracked (writes e.1 ms) (value_len (bt_get e.1 final))) as Ge.
  { intros [k tr] E. apply bt_get_elem in E; [|done]. rewrite G in E. cbn. by case_decide; simplify_eq. }
  split_and!.
  - split.
    + rewrite <- list_fmap_compose. by apply bt_sorted_keys in So.
    + intros k. rewrite <- writes_pos, <- list_fmap_compose.
      split.
      * intros (e & -> & E)%list_elem_of_fmap. by apply Ge.
      * intros W. specialize (G k). rewrite decide_False in G by done.
        apply bt_get_Some in G as (k' & M & E). apply cmp_eq_leibniz in M as <-.
        apply list_elem_of_fmap. by eexists (k, _).
    + intros e (p & -> & E)%list_elem_of_fmap. cbn. apply Ge in E as [_ ->]. done.
  - unfold zlen. rewrite length_fmap. exact En.
  - etransitivity; [|exact By]. rewrite Su. unfold bt_sum. apply Z.eq_le_incl. clear -Ge.
    induction (tr_entries t) as [|e m IH]; [done|]. cbn. rewrite IH by (intros; apply Ge; by constructor).
    f_equal. destruct (Ge e) as [_ E]; [by constructor|]. unfold entry_bytes_referenced, weight.
    cbn. by rewrite E.
Qed.

Lemma redo_all_get es ms k : bt_sorted es -> (forall m, m ∈ ms -> applied_key m <> k) -> bt_get k (redo_all es ms) = bt_get k es.
Proof.
  unfold redo_all. revert es. induction ms as [|m ms IH]; intros es S N; [done|]. cbn [fold_left].
  rewrite IH by (by apply put_or_remove_sorted || (intros; apply N; by constructor)).
  unfold redo. rewrite get_put_or_remove by done. rewrite decide_False; [done|]. intros ->. by apply (N m); [constructor|].
Qed.

Lemma applied_view l b d l' : ledger_inv l -> apply_block b l = (Ok (Applied d), l') ->
  exists view,
    validate_block_delta (reducer l) (img_entries (state l')) view (block_context b) = Ok tt /\
    view_exact (img_entries (state l)) (img_entries (state l')) (mutations d) view /\
    zlen view <= max_block_delta_entries (limits l) /\
    foldr Z.add 0 (entry_bytes_referenced <$> view) <= max_block_delta_referenced_bytes (limits l).
Proof.
  intros I A. apply apply_block_Ok in A as (Ad & w & Hn & Hw & Hv & -> & ->).
  eexists. split; [exact Hv|]. apply tracker_view_exact. by eapply block_work_inv.
Qed.
Lemma view_complete l b d l' view k : ledger_inv l -> apply_block b l = (Ok (Applied d), l') ->
  view_exact (img_entries (state l)) (img_entries (state l')) (mutations d) view -> k ∉ delta_key <$> view ->
  bt_get k (img_entries (state l')) = bt_get k (img_entries (state l)).
Proof.
  intros I A [_ K _] N. destruct (applied_block_spec _ _ _ _ I A) as [_ _ -> _ _ _ _ _ _]. cbn [img_entries image_commit].
  apply redo_all_get; [apply I|]. intros m M <-. apply N, K. by exists m.
Qed.

(** C26. A reducer validates a block against an exact and bounded view of it:
    every block that is applied was accepted by [validate_block_delta] on the
    new state with a view that lists exactly the keys the block wrote, each
    once and in key order, with the values before and after the block and the
    number of writes; and the view has at most the configured number of
    entries and references at most the configured number of bytes. *)
Theorem block_delta_view_bounded l b d l' :
  ledger_inv l -> apply_block b l = (Ok (Applied d), l') ->
  exists view,
    validate_block_delta (reducer l) (img_entries (state l')) view (block_context b) = Ok tt /\
    view_exact (img_entries (state l)) (img_entries (state l')) (mutations d) view /\
    zlen view <= max_block_delta_entries (limits l) /\
    foldr Z.add 0 (entry_bytes_referenced <$> view) <= max_block_delta_referenced_bytes (limits l).
Proof. apply applied_view. Qed.

(** *** Runs *)

Fixpoint apply_blocks (bs : list (BlockEnvelope P)) l
  : list (BlockEnvelope P * result LedgerError ApplyOutcome) * CanonicalLedger R :=
  match bs with
  | [] => ([], l)
  | b :: bs =>
      let '(r, l1) := apply_block b l in
      let '(rs, l2) := apply_blocks bs l1 in ((b, r) :: rs, l2)
  end.

(** The blocks of a run that were applied, and the mutations they made. *)
Fixpoint applied_blocks (rs : list (BlockEnvelope P * result LedgerError ApplyOutcome))
  : list (BlockEnvelope P) :=
  match rs with
  | [] => []
  | (b, Ok (Applied _)) :: rs => b :: applied_blocks rs
  | _ :: rs => applied_blocks rs
  end.
Fixpoint run_mutations (rs : list (BlockEnvelope P * result LedgerError ApplyOutcome))
  : list AppliedMutation :=
  match rs with
  | [] => []
  | (_, Ok (Applied d)) :: rs => mutations d ++ run_mutations rs
  | _ :: rs => run_mutations rs
  end.

Lemma applied_blocks_length bs l rs l' :
  apply_blocks bs l = (rs, l') -> (length (applied_blocks rs) <= length bs)%nat.
Proof.
  revert l rs. induction bs as [|b bs IH]; intros l rs A1; cbn in A1.
  { injection A1 as <- <-. done. }
  destruct (apply_block b l) as [r l1], (apply_blocks bs l1) as [rs1 l2] eqn:A2. injection A1 as <- <-.
  apply IH in A2. destruct r as [[d|cp]|e]; cbn; lia.
Qed.

Lemma apply_block_inv `{!ReducerTyped P R} l b r l' :
  ledger_inv l -> block_typed b -> apply_block b l = (r, l') -> ledger_inv l'.
Proof.
  intros I B A. destruct r as [[d|cp]|e].
  - by eapply applied_inv.
  - by apply apply_block_Ok in A as (_ & -> & _).
  - by apply apply_block_Err in A as [_ ->].
Qed.

Lemma expected_after l b o l' : apply_block b l = (Ok o, l') -> expected_height l' = block_height b + 1.
Proof. intros (W & _)%applied_watermark. unfold expected_height. by rewrite W. Qed.

Lemma apply_blocks_run `{!ReducerTyped P R} l bs rs l' :
  ledger_inv l -> Forall block_typed bs -> apply_blocks bs l = (rs, l') ->
  ledger_inv l' /\
  block_height <$> applied_blocks rs = seqZ (expected_height l) (zlen (applied_blocks rs)) /\
  expected_height l' = expected_height l + zlen (applied_blocks rs) /\
  redo_all (img_entries (state l)) (run_mutations rs) = img_entries (state l') /\
  undo_all (img_entries (state l')) (run_mutations rs) = img_entries (state l).
Proof.
  intros I B. revert l rs I. induction B as [|b bs Bb B IH]; intros l rs I A; cbn in A.
  { injection A as <- <-. cbn. split_and!; try done. by rewrite Z.add_0_r. }
  destruct (apply_block b l) as [r l1] eqn:A1, (apply_blocks bs l1) as [rs1 l2] eqn:A2.
  injection A as <- <-. pose proof (apply_block_inv _ _ _ _ I Bb A1) as I1.
  destruct (IH _ _ I1 A2) as (I2 & Hh & He & Hr & Hu). split; [done|].
  destruct r as [[d|cp]|e]; cbn [applied_blocks run_mutations].
  - pose proof (applied_block_spec _ _ _ _ I A1) as [_ Hn Hs Un _ _ _ _ _].
    apply (next_height_Ok _ _ I) in Hn as [Eb _]. apply expected_after in A1.
    rewrite A1, Eb in *. rewrite zlen_cons, fmap_cons. split_and!.
    + rewrite seqZ_cons by (pose proof (zlen_nonneg (applied_blocks rs1)); lia).
      rewrite Hh, Eb. f_equal. f_equal; lia.
    + lia.
    + unfold redo_all in *. rewrite fold_left_app. by rewrite Hs in Hr.
    + unfold undo_all in *. rewrite foldr_app, Hu. apply Un. apply I.
  - by apply apply_block_Ok in A1 as (_ & -> & _).
  - by apply apply_block_Err in A1 as [_ ->].
Qed.

(** What the check of a block carries from the state before it to the state
    after it holds along every run. *)
Lemma apply_blocks_validated `{!ReducerTyped P R} (I : Entries -> Prop) r l bs rs l' :
  (forall before after ms view ctx, validate_block_delta r after view ctx = Ok tt -> view_exact before after ms view ->
     (forall k, k ∉ delta_key <$> view -> bt_get k after = bt_get k before) -> I before -> I after) ->
  reducer l = r -> ledger_inv l -> Forall block_typed bs -> apply_blocks bs l = (rs, l') ->
  I (img_entries (state l)) -> I (img_entries (state l')).
Proof.
  intros Step Er L B. revert l rs Er L. induction B as [|b bs Bb B IH]; intros l rs Er L A Il; cbn in A.
  { by injection A as <- <-. }
  destruct (apply_block b l) as [o l1] eqn:A1, (apply_blocks bs l1) as [rs1 l2] eqn:A2. injection A as <- <-.
  pose proof (apply_block_inv _ _ _ _ L Bb A1) as L1.
  destruct o as [[d|cp]|err].
  - destruct (applied_view _ _ _ _ L A1) as (view & V & X & _). pose proof (fun k => view_complete _ _ _ _ _ k L A1 X) as U.
    eapply IH; [|exact L1|exact A2|].
    + by destruct (applied_block_spec _ _ _ _ L A1) as [_ _ _ _ _ _ _ _ [-> _]].
    + rewrite Er in V. by eapply Step.
  - apply apply_block_Ok in A1 as (_ & -> & _). by eapply IH.
  - apply apply_block_Err in A1 as [_ ->]. by eapply IH.
Qed.

(** Whatever blocks a ledger is offered, in any order and with any
    repetition, the ones it applies have consecutive heights from the one it
    waits for; its state afterwards is the old state with exactly their deltas
    replayed in order, which undone in reverse give the old state back; and it
    is well formed, with the cached hash that of the state. *)
Theorem ledger_run_contiguous `{!ReducerTyped P R} l bs rs l' :
  ledger_inv l -> Forall block_typed bs -> apply_blocks bs l = (rs, l') ->
  ledger_inv l' /\
  block_height <$> applied_blocks rs = seqZ (expected_height l) (zlen (applied_blocks rs)) /\
  redo_all (img_entries (state l)) (run_mutations rs) = img_entries (state l') /\
  undo_all (img_entries (state l')) (run_mutations rs) = img_entries (state l).
Proof. intros I B A. destruct (apply_blocks_run _ _ _ _ I B A) as (? & ? & _ & ? & ?). done. Qed.

(** Both constructors establish the invariant. *)
Lemma ledger_try_new_inv chain first (r : R) lims l :
  id_wf chain -> utf8_valid (as_bytes chain) = true -> ity_wf U64 first -> limits_ok lims ->
  ledger_try_new chain first r lims = Ok l -> ledger_inv l.
Proof.
  intros Wc Uc Wf Wl E. unfold ledger_try_new in E. inv_ok. bool_to_prop.
  split; try done. cbn. unfold image_wf. cbn. split_and!; try done; try apply Wf; constructor.
Qed.

Lemma try_from_state_image_inv image (r : R) lims l :
  image_wf image -> limits_ok lims -> try_from_state_image image r lims = Ok l -> ledger_inv l.
Proof. intros W Wl E. unfold try_from_state_image in E. inv_ok. bool_to_prop. by split. Qed.

(** Restoring a ledger's own image gives the ledger back. *)
Lemma restore_image l : ledger_inv l ->
  try_from_state_image (state l) (reducer l) (limits l) = Ok l.
Proof.
  intros [Ih (_ & _ & Wv & _) Iv _]. unfold try_from_state_image. rewrite Iv, Wv, bool_decide_true by done.
  cbn. destruct l. cbn in *. by rewrite <- Ih.
Qed.
End ledger_theory.

(** ** Prepared blocks *)

Section prepared.
Context {P R : Type} `{EventPayload P} `{EventReducer P R} `{Blake3}.
Implicit Types (l : CanonicalLedger R) (b : BlockEnvelope P).

(** Images of one ledger at different heights have different bytes. *)
Lemma watermark_bytes_height w w' x y :
  ity_wf U64 (from_option wm_height 0 w) -> ity_wf U64 (from_option wm_height 0 w') ->
  watermark_bytes w ++ x = watermark_bytes w' ++ y -> wm_height <$> w = wm_height <$> w'.
Proof.
  destruct w as [[h hash]|], w' as [[h' hash']|]; cbn [from_option wm_height fmap option_fmap option_map];
    intros W W' E; try done.
  unfold watermark_bytes in E. rewrite <- !app_assoc in E. apply app_inv_head in E.
  apply app_inj_len in E as [E _]; [|by rewrite !to_be_bytes_length].
  apply to_be_bytes_inj in E; [cbn in E; by rewrite E|unfold ity_wf in *; cbn in *; lia..].
Qed.

Lemma canonical_bytes_height i w es :
  ity_wf U64 (from_option wm_height 0 (img_watermark i)) -> ity_wf U64 (wm_height w) ->
  canonical_bytes (image_commit w es i) = canonical_bytes i ->
  img_watermark i <> None /\ (wm_height <$> img_watermark i) = Some (wm_height w).
Proof.
  intros W W' E. unfold canonical_bytes in E.
  cbn [image_commit img_chain_id img_first_height reducer_set_version img_watermark img_entries] in E.
  do 4 apply app_inv_head in E. apply watermark_bytes_height in E; [|done|done].
  cbn in E. by destruct (img_watermark i).
Qed.

(** A prepared block is only committed to the state it was prepared on:
    when another block was applied in between, committing it is refused and
    changes nothing. The hash is assumed to separate states. *)
Theorem stale_prepare_refused l b p b1 d l1 :
  (forall x y, derive_key_hash STATE_HASH_CONTEXT x = derive_key_hash STATE_HASH_CONTEXT y -> x = y) ->
  ledger_inv l -> prepare_block l b = Ok (Ready p) ->
  block_typed b1 -> apply_block b1 l = (Ok (Applied d), l1) ->
  commit_prepared p l1 = (Err PreparedStateDrift, l1).
Proof.
  intros Inj I Pr [T1 _] A. apply prepare_block_Ok in Pr as (_ & w & _ & _ & _ & ->).
  apply apply_block_Ok in A as (_ & w1 & Hn & _ & _ & _ & ->).
  unfold commit_prepared. rewrite st_bind_get. cbn [prepared_delta before_state_hash ledger_hash].
  rewrite bool_decide_false; [done|]. rewrite (li_hash _ I). intros E. apply Inj in E.
  apply (next_height_Ok _ _ I) in Hn as [Hn _]. unfold expected_height in Hn.
  destruct I as [_ (_ & _ & _ & Ww & _) _ _].
  apply canonical_bytes_height in E as [_ E]; [| |done].
  - destruct (img_watermark (state l)) as [wm|]; [|done]. cbn in E. injection E as E. lia.
  - destruct (img_watermark (state l)) as [wm|]; [apply Ww|done].
Qed.
End prepared.

(** ** The watermark-only ledger *)

(** The production reducer set: a ledger with it applies a block exactly
    when the block is of its chain, committed, at the next height and empty;
    the entries stay as they were and the watermark moves to the block. *)
Theorem watermark_only_applies {P} `{EventPayload P} `{Blake3}
  (l : CanonicalLedger WatermarkOnlyReducerV1) (b : BlockEnvelope P) d l' :
  ledger_inv (P := P) l -> 0 < max_events_per_block (limits l) ->
  apply_block b l = (Ok (Applied d), l') <->
  (chain_id b = img_chain_id (state l) /\
   (confirmation_class b = CommittedPrimary \/ confirmation_class b = CommittedIndependent) /\
   next_height l = Ok (block_height b) /\ events b = []) /\
  let wm := mkStateWatermark (block_height b) (canonical_block_hash b) in
  let next := image_commit wm (img_entries (state l)) (state l) in
  l' = mkLedger WatermarkOnly (limits l) next (image_state_hash next) /\
  d = mkDelta (checkpoint_from l wm (image_state_hash next)) (ledger_hash l) [] 0.
Proof.
  intros I L. destruct (reducer l) eqn:Er. split.
  - intros A. apply apply_block_Ok in A as ([Ac Ak] & w & Hn & Hw & _ & -> & ->).
    unfold block_work in Hw. destruct (events b) as [|e es]; cbn in Hw; inv_ok. cbn. by rewrite Er.
  - intros ((Ac & Ak & Hn & He) & -> & ->). unfold apply_block. rewrite st_bind_get.
    unfold prepare_block. rewrite bool_decide_true by apply I. cbn [negb].
    rewrite (proj2 (validate_boundary_Ok l b tt)) by done. rewrite bind_of_Ok.
    assert (duplicate_checkpoint l b = Ok None) as ->.
    { apply (next_height_Ok _ _ I) in Hn as [Hn _]. unfold duplicate_checkpoint. unfold expected_height in Hn.
      destruct (img_watermark (state l)) as [w|]; [|done]. rewrite Hn.
      by rewrite (proj2 (Z.eqb_neq _ _)) by lia. }
    rewrite bind_of_Ok. unfold validate_next_height. rewrite Hn, bind_of_Ok, Z.eqb_refl. cbn [negb].
    rewrite bind_of_Ok, He, zlen_nil. rewrite (proj2 (Z.ltb_ge _ _)) by lia. cbn.
    unfold commit_prepared, mbind, st_bind, st_get, st_lift. cbn. rewrite bool_decide_true by done.
    cbn. by rewrite Er.
Qed.

(** ** Corrections change nothing *)

(** Corrections are denied by default: a corrected block never changes the
    ledger, is refused with the correction error when it is of the ledger's
    chain, and both the applicator and the inspection of its record deny. *)
Theorem corrections_denied {P R} `{EventPayload P} `{EventReducer P R} `{Blake3}
  (l : CanonicalLedger R) (b : BlockEnvelope P) :
  confirmation_class b = Corrected ->
  exists rec, correction_try_from_block b = Some rec /\
    apply_correction l rec = Err CorrectionUnimplemented /\
    report_admitted (inspect_correction rec) = false /\
    report_applied (inspect_correction rec) = false /\
    apply_block b l =
      (Err (if decide (reducer_version (reducer l) = reducer_set_version (state l)) then
              if decide (chain_id b = img_chain_id (state l)) then CorrectionUnimplemented
              else ChainMismatch
            else ReducerVersionDrift), l).
Proof.
  intros C. unfold correction_try_from_block. rewrite C. eexists. split_and!; try done.
  unfold apply_block. rewrite st_bind_get. unfold prepare_block, validate_boundary. rewrite C.
  case_bool_decide; case_decide; try done. cbn. case_bool_decide; by case_decide.
Qed.

(** ** Refinement of reducers

    A reducer is understood by an abstract state that each of its events
    steps. What holds of one event then holds of every run of the ledger. *)

Definition put_mutation (es : Entries) (m : StateMutation) : Entries :=
  match m with Put k v => bt_insert k v es | Delete k => bt_remove k es end.
Definition put_all (es : Entries) (ms : list StateMutation) : Entries := fold_left put_mutation ms es.

Lemma put_all_sorted es ms : bt_sorted es -> bt_sorted (put_all es ms).
Proof.
  unfold put_all. revert es. induction ms as [|m ms IH]; intros es S; [done|]. apply IH.
  destruct m; [by apply bt_insert_sorted|by apply bt_remove_sorted].
Qed.

Lemma apply_mutations_put w ms w' : apply_mutations w ms = Ok w' -> candidate w' = put_all (candidate w) ms.
Proof.
  revert w. induction ms as [|m ms IH]; intros w A; cbn in A; inv_ok; [done|].
  rewrite (IH _ A). destruct m as [k v|k]; cbn in H; inv_ok; done.
Qed.

Section refinement.
Context {P R A : Type} `{EventPayload P} `{EventReducer P R} `{Blake3}.
Context (typed : CanonicalEventEnvelope P -> Prop) (abs : Entries -> A -> Prop)
  (step : A -> CanonicalEventEnvelope P -> A) (r : R).
Hypothesis reduce_step : forall es a e ctx ms, bt_sorted es -> typed e -> abs es a -> reduce r es e ctx = Ok ms ->
  abs (put_all es ms) (step a e).
Implicit Types (l : CanonicalLedger R) (b : BlockEnvelope P).

Lemma reduce_events_sim l ctx raw w es w' a : reducer l = r -> Forall typed es -> bt_sorted (candidate w) ->
  abs (candidate w) a -> reduce_events l ctx raw w es = Ok w' ->
  bt_sorted (candidate w') /\ abs (candidate w') (fold_left step es a).
Proof using reduce_step.
  intros El F. revert raw w a. induction F as [|e es Te F IH]; intros raw w a S Ab E; cbn in E; [by injection E as <-|].
  destruct (negb _); [done|]. apply bind_Ok in E as (ms & Rd & (raw1 & _ & (w1 & Ap & E)%bind_Ok)%bind_Ok).
  rewrite El in Rd. destruct (reduce r _ _ _) as [ms'|err] eqn:Er; [|done]. injection Rd as ->.
  apply apply_mutations_put in Ap.
  eapply IH; [| |exact E]; rewrite Ap; [by apply put_all_sorted|by eapply reduce_step].
Qed.

Lemma apply_blocks_sim l bs rs l' a : reducer l = r -> bt_sorted (img_entries (state l)) ->
  Forall (fun b => Forall typed (events b)) bs -> abs (img_entries (state l)) a -> apply_blocks bs l = (rs, l') ->
  abs (img_entries (state l')) (fold_left step (concat (events <$> applied_blocks rs)) a).
Proof using reduce_step.
  intros El S F. revert l rs a El S. induction F as [|b bs Tb F IH]; intros l rs a El S Ab E; cbn in E.
  { by injection E as <- <-. }
  destruct (apply_block b l) as [o l1] eqn:A1, (apply_blocks bs l1) as [rs1 l2] eqn:A2. injection E as <- <-.
  destruct o as [[d|cp]|err]; cbn.
  - apply apply_block_Ok in A1 as (_ & w & _ & Hw & _ & _ & ->).
    unfold block_work in Hw.
    assert (bt_sorted (candidate w) /\ abs (candidate w) (fold_left step (events b) a)) as [S1 Ab1]
      by (refine (reduce_events_sim l _ _ _ _ _ _ El Tb _ _ Hw); done).
    rewrite fold_left_app. by eapply IH; [| | |exact A2].
  - apply apply_block_Ok in A1 as (_ & -> & _). by eapply IH; [| | |exact A2].
  - apply apply_block_Err in A1 as [_ ->]. by eapply IH; [| | |exact A2].
Qed.
End refinement.

(** ** A concrete run

    A reducer that counts the events, and keeps the even-numbered ones until
    the next one removes them. *)

Inductive TallyReducer := Tally.
Definition tally_key : StateKey := mkKey "tally" [x00].
Definition pending_key : StateKey := mkKey "event.pending" [x01].

Definition tally_reduce (view : StateView) (e : CanonicalEventEnvelope unit)
  : result ReducerError (list StateMutation) :=
  let count := from_option from_be_bytes 0 (bt_get tally_key view) in
  Ok [Put tally_key (to_be_bytes 8 (count + 1));
      if event_index e mod 2 =? 0 then Put pending_key (payload_hash e) else Delete pending_key].

#[global] Instance tally_reducer : EventReducer unit TallyReducer := {
  reducer_version _ := "tally@1";
  supports _ _ := true;
  reduce _ view e _ := tally_reduce view e;
  validate_block_delta _ := default_validate_block_delta default_validate_block;
}.
#[global] Instance tally_typed : ReducerTyped unit TallyReducer.
Proof.
  intros r view e ctx ms [= <-]. apply Forall_cons. split; [by vm_compute|]. apply Forall_singleton.
  destruct (_ =? _); by vm_compute.
Qed.

#[local] Existing Instance sample_blake3.
Definition ledger_block (height : Z) (tag : byte) : BlockEnvelope unit :=
  mkBlock unit "hl" height 1000 CommittedPrimary (sample_events height "node" CommittedPrimary)
    [("node"%string, replicate 32 x05)] (replicate 32 tag).
Definition tally_limits : LedgerLimits := mkLedgerLimits 10 4 64 128 4096 8 2048.
Definition tally_ledger : CanonicalLedger TallyReducer :=
  let image := image_empty "hl" 5 "tally@1" in
  mkLedger Tally tally_limits image (image_state_hash image).

Definition outcome_delta (r : result LedgerError ApplyOutcome) : StateDelta :=
  match r with
  | Ok (Applied d) => d
  | _ => mkDelta (mkCheckpoint "" 0 [] [] "") [] [] 0
  end.
Definition tally_next : CanonicalLedger TallyReducer := (apply_block (ledger_block 5 x05) tally_ledger).2.
Definition tally_delta : StateDelta := outcome_delta (apply_block (ledger_block 5 x05) tally_ledger).1.

Lemma tally_ledger_inv : ledger_inv tally_ledger.
Proof.
  apply (ledger_try_new_inv "hl" 5 Tally tally_limits); by vm_compute.
Qed.

Lemma tally_applies :
  apply_block (ledger_block 5 x05) tally_ledger = (Ok (Applied tally_delta), tally_next).
Proof. vm_compute. reflexivity. Qed.

Lemma apply_block_atomic_witness :
  length (mutations tally_delta) = 4%nat /\
  applied_spec tally_ledger (ledger_block 5 x05) tally_delta tally_next.
Proof.
  split; [vm_compute; reflexivity|].
  apply (apply_block_atomic tally_ledger (ledger_block 5 x05) (Ok (Applied tally_delta)) tally_next).
  - apply tally_ledger_inv.
  - apply tally_applies.
Defined.

Lemma apply_block_idempotent_witness :
  exists cp, checkpoint tally_next = Some cp /\ cp_block_height cp = 5 /\
    apply_block (ledger_block 5 x06) tally_next = (Err CanonicalDivergence, tally_next).
Proof.
  destruct (apply_block_idempotent tally_ledger (ledger_block 5 x05) (Applied tally_delta) tally_next
    (ledger_block 5 x06)) as (cp & E & Eh & A).
  - apply tally_ledger_inv.
  - apply tally_applies.
  - reflexivity.
  - reflexivity.
  - by left.
  - exists cp. split; [exact E|]. split; [exact Eh|]. exact A.
Defined.

Lemma block_delta_view_bounded_witness :
  exists view, view_exact [] (img_entries (state tally_next)) (mutations tally_delta) view /\
    zlen view <= 8 /\ foldr Z.add 0 (entry_bytes_referenced <$> view) <= 2048.
Proof.
  destruct (block_delta_view_bounded tally_ledger (ledger_block 5 x05) tally_delta tally_next)
    as (view & _ & V & B).
  - apply tally_ledger_inv.
  - apply tally_applies.
  - exists view. split; [exact V|exact B].
Defined.

(** Blocks out of order, repeated and divergent: 6 comes early, 5 twice, then
    a rival of 5, then 6 and 7. *)
Definition tally_blocks : list (BlockEnvelope unit) :=
  [ledger_block 6 x06; ledger_block 5 x05; ledger_block 5 x05; ledger_block 5 x99;
   ledger_block 6 x06; ledger_block 7 x07].

Lemma ledger_run_contiguous_witness :
  let run := apply_blocks tally_blocks tally_ledger in
  block_height <$> applied_blocks run.1 = [5; 6; 7] /\
  undo_all (img_entries (state run.2)) (run_mutations run.1) = [].
Proof.
  destruct (ledger_run_contiguous tally_ledger tally_blocks (apply_blocks tally_blocks tally_ledger).1
    (apply_blocks tally_blocks tally_ledger).2) as (_ & Hh & _ & Hu).
  - apply tally_ledger_inv.
  - repeat constructor; by vm_compute.
  - vm_compute. reflexivity.
  - split; [|exact Hu]. rewrite Hh. vm_compute. reflexivity.
Defined.

Lemma stale_prepare_refused_witness : exists p,
  prepare_block tally_ledger (ledger_block 5 x99) = Ok (Ready p) /\
  commit_prepared p tally_next = (Err PreparedStateDrift, tally_next).
Proof.
  eexists. split; [vm_compute; reflexivity|].
  eapply (stale_prepare_refused tally_ledger (ledger_block 5 x99) _ (ledger_block 5 x05) tally_delta).
  - intros x y E. by apply app_inv_head in E.
  - apply tally_ledger_inv.
  - vm_compute. reflexivity.
  - by vm_compute.
  - apply tally_applies.
Defined.

Definition empty_block (height : Z) : BlockEnvelope unit :=
  mkBlock unit "hl" height 1000 CommittedPrimary [] [("node"%string, replicate 32 x05)] (replicate 32 x05).
Definition watermark_ledger : CanonicalLedger WatermarkOnlyReducerV1 :=
  let image := image_empty "hl" 5 WATERMARK_ONLY_VERSION in
  mkLedger WatermarkOnly limits_production image (image_state_hash image).

Lemma watermark_only_applies_witness : exists d l',
  apply_block (empty_block 5) watermark_ledger = (Ok (Applied d), l').
Proof.
  eexists _, _. apply (watermark_only_applies watermark_ledger (empty_block 5)).
  - apply (ledger_try_new_inv "hl" 5 WatermarkOnly limits_production); by vm_compute.
  - by vm_compute.
  - split; [|split; reflexivity]. split; [reflexivity|]. split; [by left|]. split; reflexivity.
Defined.

Lemma corrections_denied_witness : exists rec,
  correction_try_from_block (sample_block 5 "node" Corrected) = Some rec /\
  apply_correction tally_ledger rec = Err CorrectionUnimplemented.
Proof.
  destruct (corrections_denied tally_ledger (sample_block 5 "node" Corrected)) as (rec & E & D & _).
  - reflexivity.
  - exists rec. split; [exact E|exact D].
Defined.
