(* ===== verification/LedgerCheckpoint.v ===== *)
(** * Checkpoint artifacts: [crates/canonical-ledger/src/checkpoint.rs]

    A checkpoint on disk is a JSON manifest and the state image's canonical
    bytes. The manifest names the checkpoint, the hashes and the archive it
    belongs to, and decoding recomputes all of them. [serde_json], [hex] and
    [blake3] are parameters. *)

From Stdlib Require Import Strings.Byte Strings.String.
From S2P Require Import Prelude Ordering BTreeMap Bytes FixedPoint Ids Store Blocks StateImage Ledger.

Definition CheckpointId := string.
Definition ManifestId := string.

Definition CHECKPOINT_MANIFEST_SCHEMA : string :=
  "hyperliquid-alpha-desk/state-checkpoint-manifest/v1".
Definition CHECKPOINT_ID_CONTEXT : string := "hyperliquid-alpha-desk/state-checkpoint-id/v1".
Definition STATE_FILE_HASH_CONTEXT : string := "hyperliquid-alpha-desk/state-checkpoint-file/v1".
Definition MAX_MANIFEST_BYTES : Z := 64 * 1024.

Inductive CheckpointError :=
| InvalidInput
| InvalidManifest
| NonCanonicalManifest
| CheckpointStateImage (source : StateImageError)
| Integrity
| Incompatible.

Definition zero_hash (h : Hash) : bool := bool_decide (h = replicate 32 x00).

Record CheckpointCompatibility := mkCompatibility {
  compat_chain_id : ChainId;
  compat_reducer_set_version : string;
  compat_archive_manifest_id : ManifestId;
  compat_archive_manifest_sha256 : Hash;
  compat_schema_fingerprint : Hash;
}.

Definition compatibility_try_new (chain : ChainId) (version : string) (manifest : ManifestId)
  (sha256 fingerprint : Hash) : result CheckpointError CheckpointCompatibility :=
  if negb (valid_reducer_version version) || zero_hash sha256 || zero_hash fingerprint
  then Err InvalidInput
  else Ok (mkCompatibility chain version manifest sha256 fingerprint).

Record CheckpointArtifact := mkArtifact {
  checkpoint_id : CheckpointId;
  art_checkpoint : StateCheckpoint;
  art_state_image : StateImage;
  art_state_image_bytes : bytes;
  art_state_image_blake3 : Hash;
  archive_manifest_id : ManifestId;
  archive_manifest_sha256 : Hash;
  schema_fingerprint : Hash;
}.

Record ManifestMaterial := mkMaterial {
  mm_schema_version : string;
  mm_chain_id : string;
  mm_block_height : Z;
  mm_canonical_block_hash : string;
  mm_state_hash : string;
  mm_reducer_set_version : string;
  mm_archive_manifest_id : string;
  mm_archive_manifest_sha256 : string;
  mm_schema_fingerprint : string;
  mm_state_image_blake3 : string;
  mm_state_image_bytes : Z;
}.

Record StoredManifest := mkStored {
  sm_schema_version : string;
  sm_checkpoint_id : string;
  sm_chain_id : string;
  sm_block_height : Z;
  sm_canonical_block_hash : string;
  sm_state_hash : string;
  sm_reducer_set_version : string;
  sm_archive_manifest_id : string;
  sm_archive_manifest_sha256 : string;
  sm_schema_fingerprint : string;
  sm_state_image_blake3 : string;
  sm_state_image_bytes : Z;
}.

Section checkpoint.
Context `{Hex} `{Blake3} `{Json ManifestMaterial} `{Json StoredManifest}.

Definition hash_state_file (l : bytes) : Hash := derive_key_hash STATE_FILE_HASH_CONTEXT l.

Definition compute_checkpoint_id (m : ManifestMaterial) : result CheckpointError CheckpointId :=
  l ← to_vec m ?? InvalidManifest;
  map_err (fun _ => InvalidInput)
    (string_id_new ("state-checkpoint-v1-" +:+ hex_encode (derive_key_hash CHECKPOINT_ID_CONTEXT l))).

Definition decode_hash (value : string) : result CheckpointError Hash :=
  if negb (zlen (as_bytes value) =? 64) || existsb (fun b => negb (is_hex_digit b)) (as_bytes value)
  then Err InvalidManifest else
  hash ← hex_decode_to_slice 32 value ?? InvalidManifest;
  if zero_hash hash then Err InvalidManifest else Ok hash.

(** The fields the identifier covers. *)
Definition material_of (cp : StateCheckpoint) (manifest : ManifestId) (sha256 fingerprint blake3 : Hash)
  (image_bytes : Z) : ManifestMaterial :=
  mkMaterial CHECKPOINT_MANIFEST_SCHEMA (cp_chain_id cp) (cp_block_height cp)
    (hex_encode (cp_canonical_block_hash cp)) (hex_encode (cp_state_hash cp))
    (cp_reducer_set_version cp) manifest (hex_encode sha256) (hex_encode fingerprint)
    (hex_encode blake3) image_bytes.

Definition artifact_try_new (cp : StateCheckpoint) (image : StateImage) (manifest : ManifestId)
  (sha256 fingerprint : Hash) : result CheckpointError CheckpointArtifact :=
  if zero_hash sha256 || zero_hash fingerprint then Err InvalidInput else
  watermark ← img_watermark image ?? InvalidInput;
  if negb (bool_decide (img_chain_id image = cp_chain_id cp)) ||
     negb (wm_height watermark =? cp_block_height cp) ||
     negb (bool_decide (wm_hash watermark = cp_canonical_block_hash cp)) ||
     negb (bool_decide (reducer_set_version image = cp_reducer_set_version cp)) ||
     negb (bool_decide (image_state_hash image = cp_state_hash cp))
  then Err Integrity else
  let image_bytes := canonical_bytes image in
  let blake3 := hash_state_file image_bytes in
  length ← int_try U64 (zlen image_bytes) ?? InvalidInput;
  id ← compute_checkpoint_id (material_of cp manifest sha256 fingerprint blake3 length);
  Ok (mkArtifact id cp image image_bytes blake3 manifest sha256 fingerprint).

Definition artifact_material (a : CheckpointArtifact) : ManifestMaterial :=
  material_of (art_checkpoint a) (archive_manifest_id a) (archive_manifest_sha256 a)
    (schema_fingerprint a) (art_state_image_blake3 a) (zlen (art_state_image_bytes a)).

Definition stored_manifest (a : CheckpointArtifact) : StoredManifest :=
  let m := artifact_material a in
  mkStored CHECKPOINT_MANIFEST_SCHEMA (checkpoint_id a) (mm_chain_id m) (mm_block_height m)
    (mm_canonical_block_hash m) (mm_state_hash m) (mm_reducer_set_version m)
    (mm_archive_manifest_id m) (mm_archive_manifest_sha256 m) (mm_schema_fingerprint m)
    (mm_state_image_blake3 m) (mm_state_image_bytes m).

Definition encode_manifest (a : CheckpointArtifact) : result CheckpointError bytes :=
  to_vec (stored_manifest a) ?? InvalidManifest.

Definition artifact_decode (manifest_bytes image_bytes : bytes) (lims : StateImageLimits)
  : result CheckpointError CheckpointArtifact :=
  if is_empty manifest_bytes || (MAX_MANIFEST_BYTES <? zlen manifest_bytes)
  then Err InvalidManifest else
  stored ← from_slice manifest_bytes ?? InvalidManifest;
  length ← (if bool_decide (sm_schema_version stored = CHECKPOINT_MANIFEST_SCHEMA)
            then int_try U64 (zlen image_bytes) else None) ?? InvalidManifest;
  if negb (sm_state_image_bytes stored =? length) then Err InvalidManifest else
  image ← map_err CheckpointStateImage (decode_image image_bytes lims);
  chain ← map_err (fun _ => InvalidManifest) (string_id_new (sm_chain_id stored));
  block_hash ← decode_hash (sm_canonical_block_hash stored);
  state_hash ← decode_hash (sm_state_hash stored);
  let cp := mkCheckpoint chain (sm_block_height stored) block_hash state_hash
              (sm_reducer_set_version stored) in
  manifest ← map_err (fun _ => InvalidManifest) (string_id_new (sm_archive_manifest_id stored));
  sha256 ← decode_hash (sm_archive_manifest_sha256 stored);
  fingerprint ← decode_hash (sm_schema_fingerprint stored);
  artifact ← artifact_try_new cp image manifest sha256 fingerprint;
  stored_id ← map_err (fun _ => InvalidManifest) (string_id_new (sm_checkpoint_id stored));
  same ← (if bool_decide (stored_id = checkpoint_id artifact)
          then blake3 ← decode_hash (sm_state_image_blake3 stored);
               Ok (bool_decide (blake3 = art_state_image_blake3 artifact))
          else Ok false);
  if negb same then Err Integrity else
  again ← encode_manifest artifact;
  if negb (bool_decide (again = manifest_bytes)) then Err NonCanonicalManifest else
  Ok artifact.

Definition validate_compatibility (a : CheckpointArtifact) (expected : CheckpointCompatibility)
  : result CheckpointError unit :=
  if bool_decide (cp_chain_id (art_checkpoint a) = compat_chain_id expected) &&
     bool_decide (cp_reducer_set_version (art_checkpoint a) = compat_reducer_set_version expected) &&
     bool_decide (archive_manifest_id a = compat_archive_manifest_id expected) &&
     bool_decide (archive_manifest_sha256 a = compat_archive_manifest_sha256 expected) &&
     bool_decide (schema_fingerprint a = compat_schema_fingerprint expected)
  then Ok tt else Err Incompatible.
End checkpoint.

(** ** Round trips *)

#[local] Arguments canonical_bytes : simpl never.
#[local] Arguments decode_image : simpl never.
#[local] Arguments decode_hash : simpl never.
#[local] Arguments string_id_new : simpl never.
#[local] Arguments artifact_try_new : simpl never.
#[local] Arguments encode_manifest : simpl never.

Section roundtrip.
Context `{Hex, !HexLaws} `{Blake3} `{Json ManifestMaterial} `{Json StoredManifest, !JsonLaws StoredManifest}.

(** A hash: 32 bytes that are not all zero. *)
Definition hash_ok (h : Hash) : Prop := length h = 32%nat /\ zero_hash h = false.

Lemma decode_hash_encode h : hash_ok h -> decode_hash (hex_encode h) = Ok h.
Proof.
  intros [L Z]. unfold decode_hash. rewrite hex_encode_length. unfold zlen. rewrite L.
  rewrite (existsb_negb _ _ (hex_encode_digits h)).
  change (negb (2 * Z.of_nat 32 =? 64) || false) with false. cbv iota.
  rewrite <- L, hex_roundtrip. cbn. by rewrite Z.
Qed.

Lemma artifact_try_new_Ok cp image manifest sha256 fingerprint a :
  artifact_try_new cp image manifest sha256 fingerprint = Ok a ->
  (exists w, img_watermark image = Some w /\
    cp = mkCheckpoint (img_chain_id image) (wm_height w) (wm_hash w) (image_state_hash image)
           (reducer_set_version image)) /\
  id_wf (checkpoint_id a) /\
  a = mkArtifact (checkpoint_id a) cp image (canonical_bytes image)
        (hash_state_file (canonical_bytes image)) manifest sha256 fingerprint /\
  ity_wf U64 (zlen (canonical_bytes image)).
Proof.
  unfold artifact_try_new. intros E. inv_ok. bool_to_prop.
  apply int_try_Some in H5 as [-> W]. unfold compute_checkpoint_id in H6. inv_ok.
  apply string_id_new_inv in H6 as [<- Wi]. split_and!; try done.
  exists x. split; [done|]. destruct cp. cbn in *. by subst.
Qed.

(** A decoded checkpoint is authentic: if a manifest and an image file
    decode, then the file is the canonical encoding of the image and the
    manifest the encoding of the artifact, the image is well formed, and the
    checkpoint's chain, height, block hash, reducer version and state hash are
    those of the image. No other bytes decode to it. *)
Theorem checkpoint_decode_sound manifest_bytes image_bytes lims a :
  limits_wf lims -> artifact_decode manifest_bytes image_bytes lims = Ok a ->
  encode_manifest a = Ok manifest_bytes /\
  canonical_bytes (art_state_image a) = image_bytes /\ image_wf (art_state_image a) /\
  exists w, img_watermark (art_state_image a) = Some w /\
    art_checkpoint a =
      mkCheckpoint (img_chain_id (art_state_image a)) (wm_height w) (wm_hash w)
        (image_state_hash (art_state_image a)) (reducer_set_version (art_state_image a)).
Proof.
  intros LW D. unfold artifact_decode in D. inv_ok. bool_to_prop. subst.
  match goal with T : artifact_try_new _ _ _ _ _ = Ok a |- _ =>
    apply artifact_try_new_Ok in T as ((w & Ew & Ecp) & _ & Ea & _) end.
  match goal with I : decode_image _ _ = Ok _ |- _ => apply decode_image_inv in I as [Wi Ei]; [|done] end.
  rewrite Ea in *. cbn [art_state_image art_checkpoint]. split_and!; try done. by exists w.
Qed.

(** The hashes of an artifact are 32 bytes and none is zero, its archive has a
    valid name, and its image and manifest fit the decoder's limits. *)
Record artifact_storable (lims : StateImageLimits) (a : CheckpointArtifact) (manifest_bytes : bytes)
  : Prop := {
  st_limits : limits_wf lims;
  st_image : image_wf (art_state_image a) /\ image_fits lims (art_state_image a);
  st_manifest_id : id_wf (archive_manifest_id a);
  st_hashes : Forall hash_ok [cp_canonical_block_hash (art_checkpoint a);
    cp_state_hash (art_checkpoint a); archive_manifest_sha256 a; schema_fingerprint a;
    art_state_image_blake3 a];
  st_manifest : zlen manifest_bytes <= MAX_MANIFEST_BYTES;
}.

Lemma artifact_roundtrip cp image manifest sha256 fingerprint a manifest_bytes lims :
  artifact_try_new cp image manifest sha256 fingerprint = Ok a ->
  encode_manifest a = Ok manifest_bytes -> artifact_storable lims a manifest_bytes ->
  artifact_decode manifest_bytes (art_state_image_bytes a) lims = Ok a.
Proof.
  intros N E [Wl [Wi Fi] Wm Hs Lm]. pose proof (artifact_try_new_Ok _ _ _ _ _ _ N) as (Hw & Wid & Ea & Wz).
  destruct Hw as (w & Ew & Ecp). rewrite !Forall_cons in Hs. destruct Hs as (H1' & H2' & H3' & H4' & H5' & _).
  pose proof E as E'. unfold encode_manifest in E. apply ok_or_Ok in E.
  pose proof (json_roundtrip _ _ E) as J.
  rewrite Ea in *. cbn [art_checkpoint art_state_image art_state_image_bytes art_state_image_blake3
    archive_manifest_id archive_manifest_sha256 schema_fingerprint checkpoint_id] in *.
  unfold artifact_decode. destruct (is_empty manifest_bytes) eqn:Em.
  { apply is_empty_true in Em. subst. by apply json_nonempty in E. }
  rewrite (proj2 (Z.ltb_ge _ _)) by done. cbn [orb]. rewrite J. cbn [ok_or]. rewrite bind_of_Ok.
  unfold stored_manifest at 1 2. cbn [sm_schema_version sm_state_image_bytes].
  rewrite bool_decide_true, int_try_wf by done. cbn [ok_or]. rewrite bind_of_Ok. cbn.
  rewrite Z.eqb_refl. cbn [negb].
  rewrite (proj2 (decode_image_iff lims (canonical_bytes image) image Wl)) by done. cbn.
  subst cp. cbn in *. destruct Wi as ([Wc _] & _). rewrite Wc. cbn.
  rewrite !decode_hash_encode by done. cbn. rewrite Wm. cbn. rewrite N. cbn.
  rewrite Wid. cbn. rewrite !bool_decide_true by done. cbn.
  rewrite E'. cbn. by rewrite bool_decide_true.
Qed.

Context {P R : Type} `{EventReducer P R}.

(** Checkpointing is lossless: the artifact of a ledger's checkpoint, once
    encoded to a manifest and an image file, decodes to the same artifact, and
    a ledger restored from its image is the ledger that was checkpointed. *)
Theorem checkpoint_restores_ledger (l : CanonicalLedger R) cp manifest sha256 fingerprint a
  manifest_bytes lims :
  ledger_inv (P := P) l -> checkpoint l = Some cp ->
  artifact_try_new cp (state l) manifest sha256 fingerprint = Ok a ->
  encode_manifest a = Ok manifest_bytes -> artifact_storable lims a manifest_bytes ->
  exists a', artifact_decode manifest_bytes (canonical_bytes (state l)) lims = Ok a' /\
    art_checkpoint a' = cp /\
    try_from_state_image (P := P) (art_state_image a') (reducer l) (limits l) = Ok l.
Proof.
  intros I C N E S. exists a. pose proof (artifact_try_new_Ok _ _ _ _ _ _ N) as (_ & _ & Ea & _).
  pose proof (artifact_roundtrip _ _ _ _ _ _ _ _ N E S) as D. rewrite Ea in D |- *. cbn in *.
  split_and!; [done|done|]. by apply restore_image.
Qed.
End roundtrip.

(** ** A concrete checkpoint *)

#[local] Existing Instances sample_hex sample_hex_laws.

#[global] Instance ManifestMaterial_eq_dec : EqDecision ManifestMaterial.
Proof. solve_decision. Defined.
#[global] Instance StoredManifest_eq_dec : EqDecision StoredManifest.
Proof. solve_decision. Defined.

Definition stored_image : StateImage :=
  mkImage "hl" 5 "tally@1" (Some (mkStateWatermark 7 (replicate 32 x07))) [(tally_key, [x0a; x0b])].
Definition stored_ledger : CanonicalLedger TallyReducer :=
  mkLedger Tally tally_limits stored_image (@image_state_hash short_blake3 stored_image).
Definition stored_checkpoint : StateCheckpoint :=
  mkCheckpoint "hl" 7 (replicate 32 x07) (@image_state_hash short_blake3 stored_image) "tally@1".
Definition sha_a : Hash := replicate 32 x0a.
Definition sha_b : Hash := replicate 32 x0b.

Definition stored_material : ManifestMaterial :=
  material_of stored_checkpoint "archive" sha_a sha_b
    (@hash_state_file short_blake3 (canonical_bytes stored_image)) (zlen (canonical_bytes stored_image)).
Definition stored_artifact : CheckpointArtifact :=
  mkArtifact ("state-checkpoint-v1-" +:+ hex_encode (short_blake3 CHECKPOINT_ID_CONTEXT [x7b; x7d]))
    stored_checkpoint stored_image (canonical_bytes stored_image)
    (@hash_state_file short_blake3 (canonical_bytes stored_image)) "archive" sha_a sha_b.

Lemma stored_image_wf : image_wf stored_image.
Proof.
  unfold image_wf. cbn [img_watermark img_entries stored_image]. split_and!; try by vm_compute.
  - by repeat constructor.
  - by repeat constructor.
Qed.

Lemma stored_artifact_storable :
  artifact_storable sample_limits stored_artifact [x7b; x7d].
Proof.
  split.
  - unfold limits_wf, ity_wf. cbn. lia.
  - split; [apply stored_image_wf|]. split_and!; [by vm_compute..|]. by repeat constructor.
  - by vm_compute.
  - repeat constructor; by vm_compute.
  - by vm_compute.
Qed.

#[local] Existing Instance short_blake3.
#[local] Existing Instance one_json_laws.
#[local] Instance material_json : Json ManifestMaterial := one_json stored_material.
#[local] Instance stored_json : Json StoredManifest := one_json (stored_manifest stored_artifact).

Lemma checkpoint_restores_ledger_witness : exists a',
  artifact_decode [x7b; x7d] (canonical_bytes stored_image) sample_limits = Ok a' /\
  try_from_state_image (P := unit) (art_state_image a') Tally tally_limits = Ok stored_ledger.
Proof.
  destruct (@checkpoint_restores_ledger _ _ _ material_json stored_json
    (one_json_laws (stored_manifest stored_artifact)) unit TallyReducer _ stored_ledger stored_checkpoint
    "archive" sha_a sha_b stored_artifact [x7b; x7d] sample_limits) as (a' & D & _ & T).
  - split; [reflexivity|apply stored_image_wf|reflexivity|by vm_compute].
  - reflexivity.
  - vm_compute. reflexivity.
  - vm_compute. reflexivity.
  - apply stored_artifact_storable.
  - exists a'. split; [exact D|exact T].
Defined.

Lemma checkpoint_decode_sound_witness :
  encode_manifest stored_artifact = Ok [x7b; x7d] /\ image_wf (art_state_image stored_artifact).
Proof.
  destruct (checkpoint_decode_sound
    [x7b; x7d] (canonical_bytes stored_image) sample_limits stored_artifact) as (E & _ & W & _).
  - apply stored_artifact_storable.
  - vm_compute. reflexivity.
  - split; [exact E|exact W].
Defined.
