(* ===== verification/Replay.v ===== *)
(** * Replay: [crates/replay-engine/src/request.rs], [engine.rs],
      [receipt.rs] and [error.rs]

    A replay drives a ledger through a range of blocks read from immutable
    archive manifests. The archive is an interface ([CanonicalArchive] of
    [crates/storage-ports/src/archive.rs]) and so is the cancellation flag,
    which is polled before every block. *)

From Stdlib Require Import Strings.Byte Strings.String Sorting.Sorted.
From stdpp Require Import sorting.
From S2P Require Import Prelude Ordering BTreeMap Bytes FixedPoint Ids Blocks StateImage Ledger LedgerCheckpoint.

Record BlockRange := mkRange { start_inclusive : BlockHeight; end_inclusive : BlockHeight }.

(** ** Requests *)

Inductive ReplayRequestError := InvalidReplayLimits | InvalidRequest | DuplicateManifest.

Record ReplayLimits := mkReplayLimits { max_blocks : Z; max_manifests : Z }.

Definition replay_limits_try_new (blocks manifests : Z) : result ReplayRequestError ReplayLimits :=
  if (blocks =? 0) || (manifests =? 0) then Err InvalidReplayLimits
  else Ok (mkReplayLimits blocks manifests).

Definition replay_limits_production : ReplayLimits := mkReplayLimits 10000000 100000.

Record ReplayRequest := mkRequest {
  req_chain_id : ChainId;
  req_range : BlockRange;
  req_manifests : list ManifestId;
  expected_start_state_hash : Hash;
  schema_dataset : string;
  expected_schema_fingerprint : Hash;
}.

Definition valid_dataset (value : string) : bool :=
  let l := as_bytes value in
  negb (is_empty l) && (zlen l <=? 64) && first_is is_ascii_lowercase l &&
  last_is is_ascii_alphanumeric l &&
  forallb (fun b => is_ascii_lowercase b || is_ascii_number b || Byte.eqb b x5f) l.

(** [iter().any(|manifest| !unique.insert(manifest))] *)
Fixpoint any_repeated (unique : btmap ManifestId unit) (l : list ManifestId) : bool :=
  match l with
  | [] => false
  | m :: l => bt_contains m unique || any_repeated (bt_insert m tt unique) l
  end.

Definition request_try_new (chain : ChainId) (range : BlockRange) (manifests : list ManifestId)
  (start_hash : Hash) (dataset : string) (fingerprint : Hash)
  : result ReplayRequestError ReplayRequest :=
  if is_empty manifests || zero_hash start_hash || zero_hash fingerprint ||
     negb (valid_dataset dataset)
  then Err InvalidRequest else
  if any_repeated [] manifests then Err DuplicateManifest else
  Ok (mkRequest chain range manifests start_hash dataset fingerprint).

(** [end.checked_sub(start).and_then(|span| span.checked_add(1))] *)
Definition range_count (r : BlockRange) : option Z :=
  int_sub U64 (end_inclusive r) (start_inclusive r) ≫= fun span => int_add U64 span 1.

Definition block_count (r : ReplayRequest) : result ReplayRequestError Z :=
  range_count (req_range r) ?? InvalidRequest.

(** ** Errors, progress and receipts *)

Record ReplayProgress := mkProgress {
  applied_block_count : Z;
  last_applied_height : option BlockHeight;
  current_state_hash : Hash;
}.

Inductive ReplayError :=
| ReplayLimitExceeded (progress : ReplayProgress)
| StartStateMismatch (progress : ReplayProgress)
| StartHeightMismatch (progress : ReplayProgress)
| ManifestPlan (source_reason_code : string) (progress : ReplayProgress)
| Archive (source_reason_code : string) (progress : ReplayProgress)
| ArchiveContent (progress : ReplayProgress)
| BlockQuarantined (height : BlockHeight) (source_reason_code : string)
    (reducer_reason_code : option string) (progress : ReplayProgress).

Definition error_progress (e : ReplayError) : ReplayProgress :=
  match e with
  | ReplayLimitExceeded progress | StartStateMismatch progress | StartHeightMismatch progress
  | ManifestPlan _ progress | Archive _ progress | ArchiveContent progress
  | BlockQuarantined _ _ _ progress => progress
  end.

Definition replay_reason_code (e : ReplayError) : string :=
  match e with
  | ReplayLimitExceeded _ => "replay.limit_exceeded"
  | StartStateMismatch _ => "replay.start_state_mismatch"
  | StartHeightMismatch _ => "replay.start_height_mismatch"
  | ManifestPlan _ _ => "replay.manifest_plan"
  | Archive _ _ => "replay.archive"
  | ArchiveContent _ => "replay.archive_content"
  | BlockQuarantined _ _ _ _ => "replay.block_quarantined"
  end.

Inductive ReplayStatus := Completed | Cancelled.

Record ReplayManifestIdentity := mkIdentity {
  id_manifest_id : ManifestId;
  id_manifest_sha256 : Hash;
  id_block_range : BlockRange;
}.

Record ReplayReceipt := mkReceipt {
  rc_status : ReplayStatus;
  rc_chain_id : ChainId;
  rc_planned_range : BlockRange;
  rc_start_state_hash : Hash;
  rc_final_state_hash : Hash;
  rc_reducer_set_version : string;
  rc_applied_block_count : Z;
  rc_last_applied_height : option BlockHeight;
  rc_last_canonical_block_hash : option Hash;
  rc_manifests : list ReplayManifestIdentity;
}.

Definition REPLAY_RECEIPT_SCHEMA : bytes := as_bytes "hyperliquid-alpha-desk/replay-receipt/v1".
Definition REPLAY_RECEIPT_HASH_CONTEXT : string := "hyperliquid-alpha-desk/replay-receipt-hash/v1".

Definition identity_bytes (m : ReplayManifestIdentity) : bytes :=
  frame 8 (as_bytes (id_manifest_id m)) ++ id_manifest_sha256 m ++
  to_be_bytes 8 (start_inclusive (id_block_range m)) ++
  to_be_bytes 8 (end_inclusive (id_block_range m)).

(** [None] is the [unreachable!] panic. *)
Definition last_block_bytes (height : option BlockHeight) (hash : option Hash) : option bytes :=
  match height, hash with
  | Some height, Some hash => Some ([x01] ++ to_be_bytes 8 height ++ hash)
  | None, None => Some [x00]
  | _, _ => None
  end.

Definition receipt_bytes (r : ReplayReceipt) : option bytes :=
  last ← last_block_bytes (rc_last_applied_height r) (rc_last_canonical_block_hash r);
  Some (frame 8 REPLAY_RECEIPT_SCHEMA ++
    [match rc_status r with Completed => x01 | Cancelled => x02 end] ++
    frame 8 (as_bytes (rc_chain_id r)) ++
    to_be_bytes 8 (start_inclusive (rc_planned_range r)) ++
    to_be_bytes 8 (end_inclusive (rc_planned_range r)) ++
    rc_start_state_hash r ++ rc_final_state_hash r ++
    frame 8 (as_bytes (rc_reducer_set_version r)) ++
    to_be_bytes 8 (rc_applied_block_count r) ++ last ++
    to_be_bytes 8 (zlen (rc_manifests r)) ++ concat (identity_bytes <$> rc_manifests r)).

Definition receipt_hash `{Blake3} (r : ReplayReceipt) : option Hash :=
  derive_key_hash REPLAY_RECEIPT_HASH_CONTEXT <$> receipt_bytes r.

Inductive ReplayOutcome :=
| ReplayCompleted (receipt : ReplayReceipt)
| ReplayCancelled (receipt : ReplayReceipt).

(** ** The archive *)

(** What the engine uses of [VerifiedManifest]. *)
Record VerifiedManifest := mkVerified {
  vm_manifest_id : ManifestId;
  vm_chain_id : ChainId;
  vm_block_range : BlockRange;
  vm_manifest_sha256 : Hash;
  schema_fingerprints : btmap string Hash;
}.

(** Errors of the archive are represented by their reason codes; the block
    iterator is the sequence of its items. *)
Class CanonicalArchive (P A : Type) := {
  verify_manifest : A -> ManifestId -> result string VerifiedManifest;
  read_manifest_blocks : A -> ManifestId -> result string (list (result string (BlockEnvelope P)));
}.

(** ** The engine *)

Definition ledger_reducer_reason_code (e : LedgerError) : option string :=
  match e with ReducerFailed source => Some (reason_code source) | _ => None end.

Definition height_after (height : BlockHeight) : option BlockHeight := int_add U64 height 1.

Definition validate_manifest (request : ReplayRequest) (id : ManifestId) (v : VerifiedManifest)
  (expected_start : BlockHeight) : result string unit :=
  if negb (bool_decide (vm_chain_id v = req_chain_id request)) then Err "replay.manifest_chain_mismatch"%string else
  if negb (bool_decide (vm_manifest_id v = id)) ||
     negb (start_inclusive (vm_block_range v) =? expected_start) ||
     (end_inclusive (req_range request) <? end_inclusive (vm_block_range v))
  then Err "replay.manifest_range_mismatch"%string else
  if negb (bool_decide (bt_get (schema_dataset request) (schema_fingerprints v) =
                        Some (expected_schema_fingerprint request)))
  then Err "replay.manifest_schema_mismatch"%string else Ok tt.

(** The counters of the main loop, with the number of polls so far. *)
Record Progress := mkLoop {
  lp_applied : Z;
  lp_last : option BlockHeight;
  lp_polls : nat;
}.

(** A loop ends by cancellation, or by running through. *)
Inductive flow := Stopped (c : Progress) | Went (c : Progress).

Section engine.
Context {P A R : Type} `{EventPayload P} `{EventReducer P R} `{CanonicalArchive P A} `{Blake3}.
Context (archive : A) (lims : ReplayLimits) (request : ReplayRequest) (is_cancelled : nat -> bool).
Abbreviation Ledger := (CanonicalLedger R).
Abbreviation replay_op := (st Ledger ReplayError).

Definition progress_of (l : Ledger) (applied : Z) (last : option BlockHeight) : ReplayProgress :=
  mkProgress applied last (ledger_hash l).

Definition fail_at {B} (e : ReplayProgress -> ReplayError) (c : Progress) : replay_op B :=
  l ← st_get; st_throw (e (progress_of l (lp_applied c) (lp_last c))).

Definition receipt_of (status : ReplayStatus) (start_hash : Hash) (c : Progress)
  (manifests : list ReplayManifestIdentity) (l : Ledger) : ReplayReceipt :=
  let last_hash := if lp_applied c =? 0 then None else cp_canonical_block_hash <$> checkpoint l in
  mkReceipt status (req_chain_id request) (req_range request) start_hash (ledger_hash l)
    (reducer_set_version (state l)) (lp_applied c) (lp_last c) last_hash manifests.

(** [preflight], after the limits and the start were checked. *)
Fixpoint preflight_from (l : Ledger) (expected_start : BlockHeight) (planned : Z)
  (ids : list ManifestId) : result ReplayError (Z * list ReplayManifestIdentity) :=
  let plan (reason : string) := ManifestPlan reason (progress_of l 0 None) in
  match ids with
  | [] => Ok (planned, [])
  | id :: ids =>
      v ← map_err plan (verify_manifest archive id);
      _ ← map_err plan (validate_manifest request id v expected_start);
      count ← range_count (vm_block_range v) ?? plan "replay.manifest_range_incomplete"%string;
      planned ← int_add U64 planned count ?? plan "replay.manifest_range_incomplete"%string;
      expected_start ←
        (if is_empty ids then Some expected_start else height_after (end_inclusive (vm_block_range v)))
          ?? plan "replay.manifest_height_exhausted"%string;
      '(planned, identities) ← preflight_from l expected_start planned ids;
      Ok (planned, mkIdentity (vm_manifest_id v) (vm_manifest_sha256 v) (vm_block_range v) :: identities)
  end.

Definition preflight (l : Ledger) : result ReplayError (list ReplayManifestIdentity) :=
  '(planned, identities) ← preflight_from l (start_inclusive (req_range request)) 0 (req_manifests request);
  if match last identities with
     | None => true
     | Some identity =>
         negb (end_inclusive (id_block_range identity) =? end_inclusive (req_range request))
     end ||
     match block_count request with Ok count => negb (count =? planned) | Err _ => true end
  then Err (ManifestPlan "replay.manifest_range_incomplete" (progress_of l 0 None))
  else Ok identities.

(** [self.ledger.apply_block(&block)] and the match on its result. *)
Definition replay_apply (b : BlockEnvelope P) (c : Progress) : replay_op unit := fun l =>
  match apply_block b l with
  | (Ok (Applied _), l) => (Ok tt, l)
  | (Ok (AlreadyApplied _), l) => fail_at ArchiveContent c l
  | (Err e, l) =>
      fail_at (BlockQuarantined (block_height b) (ledger_reason_code e)
                 (ledger_reducer_reason_code e)) c l
  end.

(** One block of a manifest; returns the next expected height. *)
Definition replay_block (range : BlockRange) (expected : BlockHeight) (c : Progress)
  (item : result string (BlockEnvelope P)) : replay_op (BlockHeight * Progress) :=
  match item with
  | Err code => fail_at (Archive code) c
  | Ok b =>
      if negb (bool_decide (chain_id b = req_chain_id request)) ||
         negb (block_height b =? expected) || (end_inclusive range <? block_height b)
      then fail_at ArchiveContent c else
      _ ← replay_apply b c;
      match int_add U64 (lp_applied c) 1 with
      | None => fail_at ReplayLimitExceeded c
      | Some applied =>
          let c := mkLoop applied (Some (block_height b)) (lp_polls c) in
          if block_height b =? end_inclusive range then mret (block_height b, c) else
          match int_add U64 (block_height b) 1 with
          | None => fail_at ArchiveContent c
          | Some next => mret (next, c)
          end
      end
  end.

Fixpoint replay_blocks (range : BlockRange) (expected : BlockHeight) (c : Progress)
  (items : list (result string (BlockEnvelope P))) : replay_op (BlockHeight * flow) :=
  match items with
  | [] => mret (expected, Went c)
  | item :: items =>
      let polled := mkLoop (lp_applied c) (lp_last c) (S (lp_polls c)) in
      if is_cancelled (lp_polls c) then mret (expected, Stopped polled) else
      '(expected, c) ← replay_block range expected polled item;
      replay_blocks range expected c items
  end.

Definition replay_manifest (m : ReplayManifestIdentity) (c : Progress) : replay_op flow :=
  match read_manifest_blocks archive (id_manifest_id m) with
  | Err code => fail_at (Archive code) c
  | Ok items =>
      let range := id_block_range m in
      '(expected, outcome) ← replay_blocks range (start_inclusive range) c items;
      match outcome with
      | Stopped c => mret (Stopped c)
      | Went c =>
          if negb (bool_decide (lp_last c = Some (end_inclusive range))) ||
             negb (expected =? end_inclusive range)
          then fail_at ArchiveContent c else mret (Went c)
      end
  end.

Fixpoint replay_manifests (ms : list ReplayManifestIdentity) (c : Progress) : replay_op flow :=
  match ms with
  | [] => mret (Went c)
  | m :: ms =>
      outcome ← replay_manifest m c;
      match outcome with Stopped c => mret (Stopped c) | Went c => replay_manifests ms c end
  end.

Definition replay_run : replay_op ReplayOutcome :=
  l ← st_get;
  let start_hash := ledger_hash l in
  let empty := mkLoop 0 None 0 in
  if match block_count request with Ok count => max_blocks lims <? count | Err _ => true end ||
     (max_manifests lims <? zlen (req_manifests request))
  then fail_at ReplayLimitExceeded empty else
  if negb (bool_decide (start_hash = expected_start_state_hash request))
  then fail_at StartStateMismatch empty else
  if match next_height l with
     | Ok h => negb (h =? start_inclusive (req_range request))
     | Err _ => true
     end
  then fail_at StartHeightMismatch empty else
  manifests ← st_lift (preflight l);
  outcome ← replay_manifests manifests empty;
  l ← st_get;
  match outcome with
  | Stopped c => mret (ReplayCancelled (receipt_of Cancelled start_hash c manifests l))
  | Went c => mret (ReplayCompleted (receipt_of Completed start_hash c manifests l))
  end.
End engine.

(** ** What a replay did *)

Section replay_theory.
Context {P A R : Type} `{EventPayload P} `{EventReducer P R, !ReducerTyped P R} `{CanonicalArchive P A}
  `{Blake3}.
Implicit Types (l : CanonicalLedger R) (b : BlockEnvelope P) (bs : list (BlockEnvelope P)).

(** The blocks [bs], one after the other, all applied by the ledger. *)
Definition all_applied bs l l' : Prop :=
  exists rs, apply_blocks bs l = (rs, l') /\ applied_blocks rs = bs.

Lemma all_applied_nil l : all_applied [] l l.
Proof. by exists []. Qed.

Lemma all_applied_cons b bs l l' :
  all_applied (b :: bs) l l' <->
  exists d l1, apply_block b l = (Ok (Applied d), l1) /\ all_applied bs l1 l'.
Proof.
  unfold all_applied. cbn. split.
  - intros (rs & A1 & E). destruct (apply_block b l) as [r l1] eqn:Ab.
    destruct (apply_blocks bs l1) as [rs1 l2] eqn:A2. injection A1 as <- <-.
    pose proof (applied_blocks_length _ _ _ _ A2) as L.
    destruct r as [[d|cp]|e]; cbn in E; [|rewrite E in L; cbn in L; lia..].
    injection E as E. exists d, l1. split; [done|]. by exists rs1.
  - intros (d & l1 & -> & rs & -> & E). eexists. split; [done|]. cbn. by rewrite E.
Qed.

Lemma all_applied_app bs1 bs2 l l' :
  all_applied (bs1 ++ bs2) l l' <-> exists l1, all_applied bs1 l l1 /\ all_applied bs2 l1 l'.
Proof.
  revert l. induction bs1 as [|b bs1 IH]; intros l.
  - split; [intros A1; exists l; split; [apply all_applied_nil|done]|].
    intros (l1 & (rs & [= <- <-] & _) & A2). done.
  - cbn [app]. rewrite all_applied_cons. setoid_rewrite IH. split.
    + intros (d & l1 & Ab & l2 & A1 & A2). exists l2. split; [|done]. apply all_applied_cons. eauto.
    + intros (l2 & (d & l1 & Ab & A1)%all_applied_cons & A2). eauto 10.
Qed.

Lemma all_applied_run bs l l' :
  ledger_inv l -> Forall block_typed bs -> all_applied bs l l' ->
  ledger_inv l' /\ block_height <$> bs = seqZ (expected_height l) (zlen bs) /\
  expected_height l' = expected_height l + zlen bs.
Proof.
  intros I T (rs & A1 & E). destruct (apply_blocks_run _ _ _ _ I T A1) as (I' & Hh & He & _).
  by rewrite E in Hh, He.
Qed.

(** The counters after the blocks [bs]. *)
Definition advance (c : Progress) bs : Z * option BlockHeight :=
  (lp_applied c + zlen bs,
   match last (block_height <$> bs) with Some h => Some h | None => lp_last c end).
Definition counters (c : Progress) : Z * option BlockHeight := (lp_applied c, lp_last c).

Lemma advance_nil c : advance c [] = counters c.
Proof. unfold advance, counters. by rewrite zlen_nil, Z.add_0_r. Qed.

Lemma advance_app c bs1 c1 bs2 :
  counters c1 = advance c bs1 -> advance c1 bs2 = advance c (bs1 ++ bs2).
Proof.
  unfold counters, advance. intros [= -> ->]. rewrite zlen_app, fmap_app, last_app.
  f_equal; [lia|]. by destruct (last (block_height <$> bs2)).
Qed.

Definition reported (p : Z * option BlockHeight) l : ReplayProgress := mkProgress p.1 p.2 (ledger_hash l).

Lemma fail_at_inv {B} (e : ReplayProgress -> ReplayError) c l (r : result ReplayError B) l' :
  (forall p, error_progress (e p) = p) -> fail_at e c l = (r, l') ->
  l' = l /\ exists err, r = Err err /\ error_progress err = reported (counters c) l.
Proof.
  intros Ep E. unfold fail_at in E. rewrite st_bind_get in E. injection E as <- <-.
  split; [done|]. eexists. split; [done|]. apply Ep.
Qed.

Section blocks.
Context (archive : A) (lims : ReplayLimits) (request : ReplayRequest) (is_cancelled : nat -> bool).
Abbreviation S0 := (start_inclusive (req_range request)).
Abbreviation E0 := (end_inclusive (req_range request)).
Hypothesis Hcount : ity_wf U64 (E0 - S0 + 1).

(** The ledger is as far into the range as the counter says. *)
Definition in_step (c : Progress) l : Prop := ledger_inv l /\ 0 <= lp_applied c /\ lp_applied c = expected_height l - S0.

Definition typed_item (item : result string (BlockEnvelope P)) : Prop :=
  forall b, item = Ok b -> block_typed b.

(** A loop over [items] went through the blocks [bs], and what it returned. *)
Definition loop_spec {B} (c : Progress) (items : list (result string (BlockEnvelope P))) l
  (r : result ReplayError B) l' (done : B -> list (BlockEnvelope P) -> Prop) : Prop :=
  exists bs, all_applied bs l l' /\ Forall block_typed bs /\ (Ok <$> bs) `prefix_of` items /\
    match r with
    | Err e => error_progress e = reported (advance c bs) l'
    | Ok x => done x bs
    end.

Lemma loop_spec_stop {B} c items l (e : ReplayProgress -> ReplayError) (r : result ReplayError B) l' done :
  (forall p, error_progress (e p) = p) -> fail_at e c l = (r, l') -> loop_spec c items l r l' done.
Proof.
  intros Ep F. apply fail_at_inv in F as (-> & err & -> & Er); [|done].
  exists []. split_and!; [apply all_applied_nil|constructor|apply prefix_nil|]. by rewrite advance_nil.
Qed.

Lemma replay_block_spec range expected c item l r l' :
  in_step c l -> end_inclusive range <= E0 -> typed_item item ->
  replay_block request range expected c item l = (r, l') ->
  loop_spec c [item] l r l' (fun x bs => exists b, bs = [b] /\ item = Ok b /\
    block_height b = expected /\ counters x.2 = advance c [b] /\ in_step x.2 l' /\
    x.1 = if block_height b =? end_inclusive range then block_height b else block_height b + 1).
Proof.
  intros (I & Ha & J) Er T Rb. destruct item as [b|code]; cbn in Rb; [|by (eapply loop_spec_stop; [|exact Rb])].
  destruct (_ || _) eqn:G; [by (eapply loop_spec_stop; [|exact Rb])|]. bool_to_prop.
  specialize (T b eq_refl). unfold replay_apply in Rb. unfold mbind at 1, st_bind in Rb.
  destruct (apply_block b l) as [[[d|cp]|err] l1] eqn:Ab.
  2: { apply apply_block_Ok in Ab as (_ & -> & _). by (eapply loop_spec_stop; [|exact Rb]). }
  2: { apply apply_block_Err in Ab as (_ & ->). by (eapply loop_spec_stop; [|exact Rb]). }
  assert (all_applied [b] l l1) as A1.
  { apply all_applied_cons. exists d, l1. split; [done|apply all_applied_nil]. }
  pose proof (as_height _ _ _ _ (applied_block_spec _ _ _ _ I Ab)) as Hn.
  apply (next_height_Ok _ _ I) in Hn as [Hh _]. pose proof (expected_after _ _ _ _ Ab) as He.
  pose proof (applied_inv _ _ _ _ I T Ab) as I1. pose proof (proj1 T) as [Hb _]. cbn in Hb.
  pose proof Hcount as [_ Hc]. pose proof (proj1 T) as [_ Hu].
  assert (lp_applied c + 1 <= E0 - S0 + 1) as Hle by (rewrite J, <- Hh; lia).
  unfold int_add in Rb. rewrite (int_try_wf U64 (lp_applied c + 1)) in Rb
    by (split; [change (0 <= lp_applied c + 1)|]; lia).
  set (c1 := mkLoop _ _ _) in Rb.
  assert (counters c1 = advance c [b]) as Hc1 by done.
  assert (in_step c1 l1) as S1.
  { unfold in_step. cbn. rewrite He, Hh. split_and!; [done|lia|lia]. }
  assert (l' = l1 /\ match r with
    | Err e => error_progress e = reported (advance c [b]) l1
    | Ok x => x = ((if block_height b =? end_inclusive range then block_height b else block_height b + 1), c1)
    end) as [-> Hr].
  { destruct (_ =? _); [by injection Rb as <- <-|].
    destruct (int_try U64 (block_height b + 1)) eqn:En.
    - apply int_try_Some in En as [-> _]. by injection Rb as <- <-.
    - apply fail_at_inv in Rb as (-> & e & -> & Ee); done. }
  exists [b]. split_and!; [done|by constructor|done|]. destruct r as [x|e]; [|done].
  subst x. exists b. done.
Qed.

Lemma loop_spec_weaken {B} c items items' l (r : result ReplayError B) l' (d d' : B -> _ -> Prop) :
  loop_spec c items l r l' d -> items `prefix_of` items' ->
  (forall x bs, r = Ok x -> d x bs -> d' x bs) -> loop_spec c items' l r l' d'.
Proof.
  intros (bs & A1 & T & Pr & M) Pi D. exists bs. split_and!; [done|done|by etrans|].
  destruct r; [by apply D|done].
Qed.

Lemma loop_spec_seq {B} c bs1 l l1 c1 items2 (r : result ReplayError B) l' (d d' : B -> _ -> Prop) :
  all_applied bs1 l l1 -> Forall block_typed bs1 -> counters c1 = advance c bs1 ->
  loop_spec c1 items2 l1 r l' d -> (forall x bs, d x bs -> d' x (bs1 ++ bs)) ->
  loop_spec c ((Ok <$> bs1) ++ items2) l r l' d'.
Proof.
  intros A1 T1 C (bs & A2 & T & Pr & M) D. exists (bs1 ++ bs). split_and!.
  - apply all_applied_app. eauto.
  - by apply Forall_app.
  - rewrite fmap_app. by apply prefix_app.
  - destruct r; [by apply D|]. by rewrite M, (advance_app c bs1).
Qed.

(** What a loop over [items] leaves: when it ran through, it saw them all. *)
Definition flow_spec (c : Progress) (items : list (result string (BlockEnvelope P))) l' (x : flow) bs : Prop :=
  match x with
  | Went c' => Ok <$> bs = items /\ counters c' = advance c bs /\ in_step c' l'
  | Stopped c' => counters c' = advance c bs
  end.

Lemma flow_spec_seq c c1 bs1 items l' x bs :
  counters c1 = advance c bs1 -> flow_spec c1 items l' x bs ->
  flow_spec c ((Ok <$> bs1) ++ items) l' x (bs1 ++ bs).
Proof.
  intros C. destruct x as [c'|c']; cbn; rewrite ?(advance_app c bs1 c1 bs C); [done|].
  intros (<- & ? & ?). by rewrite fmap_app.
Qed.

Lemma replay_blocks_spec range expected c items l r l' :
  in_step c l -> end_inclusive range <= E0 -> Forall typed_item items ->
  replay_blocks request is_cancelled range expected c items l = (r, l') ->
  loop_spec c items l r l' (fun x bs => flow_spec c items l' x.2 bs).
Proof.
  intros S Er F. revert expected c l r S. induction F as [|item items Ti F IH]; intros expected c l r S Rb.
  { injection Rb as <- <-. exists []. split_and!; [apply all_applied_nil|done..|]. cbn.
    by rewrite advance_nil. }
  cbn [replay_blocks] in Rb. destruct (is_cancelled (lp_polls c)).
  { injection Rb as <- <-. exists []. split_and!; [apply all_applied_nil|done|apply prefix_nil|].
    cbn. by rewrite advance_nil. }
  set (polled := mkLoop _ _ _) in Rb.
  destruct (replay_block request range expected polled item l) as [[[e1 c1]|err] l1] eqn:Rb1.
  - rewrite (st_bind_Ok _ _ _ _ _ Rb1) in Rb.
    apply replay_block_spec in Rb1 as (bs & A1 & T1 & _ & b & -> & -> & _ & C1 & S1 & _); [|done..].
    apply IH in Rb; [|done]. apply (loop_spec_seq c [b] l l1 c1 items r l' _ _ A1 T1 C1 Rb).
    intros x bs D. by apply (flow_spec_seq c c1 [b]).
  - rewrite (st_bind_Err _ _ _ _ _ Rb1) in Rb. injection Rb as <- <-.
    apply replay_block_spec in Rb1; [|done..].
    destruct Rb1 as (bs & A1 & T1 & Pr & M). exists bs. split_and!; [done|done| |done].
    etrans; [exact Pr|]. by apply (prefix_app_r [item] [item] items).
Qed.

Definition manifest_items (m : ReplayManifestIdentity) : list (result string (BlockEnvelope P)) :=
  match read_manifest_blocks archive (id_manifest_id m) with Ok items => items | Err e => [Err e] end.

Lemma replay_manifest_spec m c l r l' :
  in_step c l -> end_inclusive (id_block_range m) <= E0 -> Forall typed_item (manifest_items m) ->
  replay_manifest archive request is_cancelled m c l = (r, l') ->
  loop_spec c (manifest_items m) l r l' (fun x bs => flow_spec c (manifest_items m) l' x bs /\
    match x with Went c' => lp_last c' = Some (end_inclusive (id_block_range m)) | _ => True end).
Proof.
  intros S Er F Rb. unfold replay_manifest, manifest_items in *.
  destruct (read_manifest_blocks archive (id_manifest_id m)) as [items|code];
    [|by (eapply loop_spec_stop; [|exact Rb])].
  destruct (replay_blocks request is_cancelled (id_block_range m) (start_inclusive (id_block_range m))
    c items l) as [[[e1 x1]|err] l1] eqn:Rb1.
  - rewrite (st_bind_Ok _ _ _ _ _ Rb1) in Rb. apply replay_blocks_spec in Rb1 as L; [|done..].
    destruct x1 as [c1|c1].
    + injection Rb as <- <-. eapply loop_spec_weaken; [exact L|done|]. naive_solver.
    + destruct (_ || _) eqn:G.
      * apply fail_at_inv in Rb as (-> & err & -> & Ee); [|done].
        destruct L as (bs & A1 & T1 & Pr & _ & C & _). exists bs. split_and!; [done..|]. by rewrite Ee, C.
      * bool_to_prop. injection Rb as <- <-. destruct L as (bs & A1 & T1 & Pr & D).
        exists bs. done.
  - rewrite (st_bind_Err _ _ _ _ _ Rb1) in Rb. injection Rb as <- <-.
    apply replay_blocks_spec in Rb1 as (bs & L); [|done..]. by exists bs.
Qed.

Lemma replay_manifests_spec ms c l r l' :
  in_step c l -> Forall (fun m => end_inclusive (id_block_range m) <= E0) ms ->
  Forall (fun m => Forall typed_item (manifest_items m)) ms ->
  replay_manifests archive request is_cancelled ms c l = (r, l') ->
  loop_spec c (concat (manifest_items <$> ms)) l r l' (fun x bs =>
    flow_spec c (concat (manifest_items <$> ms)) l' x bs /\
    match x, last ms with
    | Went c', Some m => lp_last c' = Some (end_inclusive (id_block_range m))
    | _, _ => True
    end).
Proof.
  intros S Fe F. revert c l r S Fe. induction F as [|m ms Tm F IH]; intros c l r S Fe Rb.
  { injection Rb as <- <-. exists []. split_and!; [apply all_applied_nil|done|done| |done]. cbn.
    by rewrite advance_nil. }
  apply Forall_cons in Fe as [Em Fe]. cbn [replay_manifests] in Rb.
  destruct (replay_manifest archive request is_cancelled m c l) as [[x1|err] l1] eqn:Rb1.
  - rewrite (st_bind_Ok _ _ _ _ _ Rb1) in Rb.
    apply replay_manifest_spec in Rb1 as (bs1 & A1 & T1 & Pr & D1 & L1); [|done..].
    destruct x1 as [c1|c1].
    + injection Rb as <- <-. exists bs1. split_and!; [done|done| |done|done].
      etrans; [exact Pr|]. cbn. by apply prefix_app_r.
    + destruct D1 as (E1 & C1 & S1). apply IH in Rb; [|done..]. cbn [fmap list_fmap concat].
      rewrite <- E1. apply (loop_spec_seq c bs1 l l1 c1 _ r l' _ _ A1 T1 C1 Rb).
      intros x bs [D L]. split; [by apply flow_spec_seq with c1|].
      destruct x as [c2|c2]; [done|]. rewrite last_cons. destruct (last ms) eqn:El; [done|].
      apply last_None in El as ->. destruct D as (Eb & Cx & _).
      destruct bs; [|done]. rewrite advance_nil in Cx. injection Cx as _ ->. done.
  - rewrite (st_bind_Err _ _ _ _ _ Rb1) in Rb. injection Rb as <- <-.
    apply replay_manifest_spec in Rb1 as (bs1 & A1 & T1 & Pr & M); [|done..]. exists bs1.
    split_and!; [done|done| |done]. etrans; [exact Pr|]. cbn. by apply prefix_app_r.
Qed.

(** *** The plan *)

Lemma preflight_from_Ok l start planned ids total ms :
  preflight_from archive request l start planned ids = Ok (total, ms) ->
  id_manifest_id <$> ms = ids /\ Forall (fun m => end_inclusive (id_block_range m) <= E0) ms.
Proof.
  revert start planned total ms. induction ids as [|id ids IH]; intros start planned total ms E; cbn in E.
  { injection E as <- <-. done. }
  inv_ok. destruct x4 as [total' ms']. cbn in E. inv_ok.
  match goal with V : validate_manifest _ _ _ _ = Ok _ |- _ => unfold validate_manifest in V end.
  inv_ok. bool_to_prop. match goal with Q : preflight_from _ _ _ _ _ _ = Ok _ |- _ => apply IH in Q as [<- F] end.
  cbn. split; [by f_equal|]. by constructor.
Qed.

Lemma preflight_Ok l ms : preflight archive request l = Ok ms ->
  id_manifest_id <$> ms = req_manifests request /\
  Forall (fun m => end_inclusive (id_block_range m) <= E0) ms /\
  exists m, last ms = Some m /\ end_inclusive (id_block_range m) = E0.
Proof.
  unfold preflight. intros E. inv_ok. destruct x as [total ms']. cbn in E. inv_ok. bool_to_prop.
  match goal with Q : preflight_from _ _ _ _ _ _ = Ok _ |- _ => apply preflight_from_Ok in Q as [? ?] end.
  split_and!; try done. destruct (last ms) as [m|]; [|done]. bool_to_prop. by exists m.
Qed.
End blocks.

(** A block is a typed value, so what the archive yields has a [u64] height and
    a 32-byte hash. *)
Definition archive_typed (archive : A) : Prop :=
  forall id items b, read_manifest_blocks archive id = Ok items -> Ok b ∈ items -> block_typed b.

(** Everything the archive yields for some manifests, in order. *)
Definition archive_stream (archive : A) (ids : list ManifestId) : list (result string (BlockEnvelope P)) :=
  concat ((fun id => match read_manifest_blocks archive id with
                     | Ok items => items | Err e => [Err e] end) <$> ids).

Lemma archive_typed_items archive m : archive_typed archive -> Forall typed_item (manifest_items archive m).
Proof.
  intros T. apply Forall_forall. intros item I b ->. unfold manifest_items in I.
  destruct (read_manifest_blocks archive (id_manifest_id m)) eqn:E; [by eapply T|].
  by apply list_elem_of_singleton in I.
Qed.

Lemma all_applied_last bs l l' : all_applied bs l l' ->
  match last bs with
  | Some b => cp_canonical_block_hash <$> checkpoint l' = Some (canonical_block_hash b)
  | None => l' = l
  end.
Proof.
  destruct bs as [|b bs _] using rev_ind; [by intros (rs & [= <- <-] & _)|].
  rewrite last_snoc. intros (l1 & _ & (d & l2 & Ab & A2)%all_applied_cons)%all_applied_app.
  destruct A2 as (rs & [= <- <-] & _). apply applied_watermark in Ab as [W _].
  unfold checkpoint. by rewrite W.
Qed.

(** A receipt that tells exactly what happened: the hashes of the ledger before
    and after, the number of blocks applied and the last of them. *)
Record receipt_exact (status : ReplayStatus) l bs l' (rc : ReplayReceipt) : Prop := {
  re_status : rc_status rc = status;
  re_start : rc_start_state_hash rc = ledger_hash l;
  re_final : rc_final_state_hash rc = ledger_hash l';
  re_count : rc_applied_block_count rc = zlen bs;
  re_height : rc_last_applied_height rc = last (block_height <$> bs);
  re_hash : rc_last_canonical_block_hash rc = last (canonical_block_hash <$> bs);
  re_encodes : is_Some (receipt_bytes rc);
}.

Lemma receipt_of_exact request status l bs l' c ms :
  all_applied bs l l' -> counters c = advance (mkLoop 0 None 0) bs ->
  receipt_exact status l bs l' (receipt_of request status (ledger_hash l) c ms l').
Proof.
  intros A1 C. injection C as Ca Cl. cbn in Ca, Cl.
  assert (rc_last_applied_height (receipt_of request status (ledger_hash l) c ms l') =
    last (block_height <$> bs)) as Hl.
  { cbn. rewrite Cl. by destruct (last (block_height <$> bs)). }
  assert (rc_last_canonical_block_hash (receipt_of request status (ledger_hash l) c ms l') =
    last (canonical_block_hash <$> bs)) as Hc.
  { cbn. rewrite Ca. pose proof (all_applied_last _ _ _ A1) as Lh. rewrite !fmap_last in *.
    destruct (last bs) as [b|] eqn:El.
    - destruct bs; [done|]. rewrite zlen_cons. pose proof (zlen_nonneg bs).
      by rewrite (proj2 (Z.eqb_neq _ _)) by lia.
    - apply last_None in El as ->. done. }
  split; try done. unfold receipt_bytes. rewrite Hl, Hc, !fmap_last. by destruct (last bs).
Qed.

(** What a replay did, in terms of the blocks it applied. *)
Definition replay_spec (request : ReplayRequest) (stream : list (result string (BlockEnvelope P)))
  l bs l' (r : result ReplayError ReplayOutcome) : Prop :=
  let range := req_range request in
  all_applied bs l l' /\ ledger_inv l' /\ (Ok <$> bs) `prefix_of` stream /\
  block_height <$> bs = seqZ (start_inclusive range) (zlen bs) /\
  match r with
  | Err e => error_progress e = mkProgress (zlen bs) (last (block_height <$> bs)) (ledger_hash l')
  | Ok (ReplayCancelled rc) => receipt_exact Cancelled l bs l' rc
  | Ok (ReplayCompleted rc) => receipt_exact Completed l bs l' rc /\ Ok <$> bs = stream /\
      zlen bs = end_inclusive range - start_inclusive range + 1
  end.

Lemma replay_nothing request stream l e :
  ledger_inv l -> error_progress e = reported (0, None) l -> replay_spec request stream l [] l (Err e).
Proof.
  intros I E. unfold replay_spec. split_and!; try done; [apply all_applied_nil|apply prefix_nil].
Qed.

Lemma preflight_from_Err archive request l start planned ids e :
  preflight_from archive request l start planned ids = Err e -> error_progress e = reported (0, None) l.
Proof.
  revert start planned. induction ids as [|id ids IH]; intros start planned E; [discriminate E|].
  cbn [preflight_from] in E.
  do 5 (apply bind_Err in E as [E|(? & _ & E)];
    [apply map_err_Err in E as (? & _ & <-) || apply ok_or_Err in E as [_ <-]; done|]).
  apply bind_Err in E as [E|([total ms] & _ & E)]; [by eapply IH|discriminate E].
Qed.

Lemma preflight_Err archive request l e :
  preflight archive request l = Err e -> error_progress e = reported (0, None) l.
Proof.
  unfold preflight. intros [E|([total ms] & _ & E)]%bind_Err; [by eapply preflight_from_Err|].
  cbn in E. destruct (_ || _); [by injection E as <-|discriminate E].
Qed.

Lemma stream_of_manifests archive ms :
  concat (manifest_items archive <$> ms) = archive_stream archive (id_manifest_id <$> ms).
Proof. unfold archive_stream. by rewrite <- list_fmap_compose. Qed.

(** The loop over the manifests of a plan. *)
Lemma replay_manifests_run archive request is_cancelled ms l r l' :
  ledger_inv l -> archive_typed archive -> expected_height l = start_inclusive (req_range request) ->
  is_Some (range_count (req_range request)) -> preflight archive request l = Ok ms ->
  replay_manifests archive request is_cancelled ms (mkLoop 0 None 0) l = (r, l') ->
  exists bs, replay_spec request (archive_stream archive (req_manifests request)) l bs l'
    (match r with
     | Err e => Err e
     | Ok (Stopped c) => Ok (ReplayCancelled (receipt_of request Cancelled (ledger_hash l) c ms l'))
     | Ok (Went c) => Ok (ReplayCompleted (receipt_of request Completed (ledger_hash l) c ms l'))
     end).
Proof.
  intros I T Hs [count Hc] Pf Rm. unfold range_count in Hc. apply bind_Some in Hc as (span & H3 & H4).
  apply int_try_Some in H3 as [-> _]. apply int_try_Some in H4 as [_ Hc].
  apply preflight_Ok in Pf as (Ei & Fe & m & Em & El).
  apply (replay_manifests_spec archive request is_cancelled Hc) in Rm as (bs & A1 & Tb & Pr & D);
    [|split_and!; [done|done|cbn; lia]|done|apply Forall_forall; intros; by apply archive_typed_items].
  rewrite stream_of_manifests, Ei in Pr, D.
  destruct (all_applied_run _ _ _ I Tb A1) as (I' & Hh & He). rewrite Hs in Hh.
  exists bs. unfold replay_spec. split_and!; try done. destruct r as [[c|c]|e].
  - apply receipt_of_exact; [done|]. by destruct D as [D _].
  - destruct D as ((Eb & C & _) & Lc). rewrite Em, El in Lc. split_and!; [by apply receipt_of_exact|done|].
    injection C as _ Cl. rewrite Lc, fmap_last in Cl.
    destruct bs as [|b bs _] using rev_ind; [done|].
    rewrite zlen_app, zlen_cons, zlen_nil in *. pose proof (zlen_nonneg bs).
    rewrite last_snoc in Cl. cbn in Cl. injection Cl as Cl.
    rewrite fmap_app in Hh. cbn in Hh.
    replace (zlen bs + (1 + 0)) with (Z.of_nat (S (length bs))) in Hh by (unfold zlen; lia).
    rewrite seqZ_S in Hh. apply app_inj_tail in Hh as [_ Hh]. unfold zlen in *. lia.
  - rewrite D. unfold reported, advance. cbn. by destruct (last (block_height <$> bs)).
Qed.

(** C22. Replay is exact and its reports are true. However a replay ends, the
    ledger went through a prefix of the archive's blocks at consecutive heights
    from the start of the range, every one of them applied, and the reported
    count, last height and state hash are those of that prefix; a completed
    replay applied every block the archive has for the manifests, which are
    exactly the blocks of the range; and receipts always encode. *)
Theorem replay_progress_exact archive lims request is_cancelled l r l' :
  ledger_inv l -> archive_typed archive ->
  replay_run archive lims request is_cancelled l = (r, l') ->
  exists bs, replay_spec request (archive_stream archive (req_manifests request)) l bs l' r.
Proof.
  intros I T Rn. unfold replay_run in Rn. rewrite st_bind_get in Rn.
  destruct (_ || _) eqn:G1.
  { apply fail_at_inv in Rn as (-> & e & -> & E); [|done]. exists []. by apply replay_nothing. }
  destruct (negb (bool_decide _)) eqn:G2.
  { apply fail_at_inv in Rn as (-> & e & -> & E); [|done]. exists []. by apply replay_nothing. }
  destruct (next_height l) as [h|] eqn:Hn.
  2: { apply fail_at_inv in Rn as (-> & err & -> & E); [|done]. exists []. by apply replay_nothing. }
  destruct (negb (h =? _)) eqn:G3.
  { apply fail_at_inv in Rn as (-> & e & -> & E); [|done]. exists []. by apply replay_nothing. }
  destruct (preflight archive request l) as [ms|e] eqn:Pf.
  2: { injection Rn as <- <-. exists []. apply replay_nothing; [done|]. by eapply preflight_Err. }
  rewrite st_bind_lift_Ok in Rn. apply (next_height_Ok _ _ I) in Hn as [Hn _]. bool_to_prop.
  unfold block_count in *. destruct (range_count (req_range request)) eqn:Hc; [|done].
  destruct (replay_manifests archive request is_cancelled ms (mkLoop 0 None 0) l) as [x l1] eqn:Rm.
  pose proof Rm as Sp. apply replay_manifests_run in Sp as (bs & Sp); [|done|done|by rewrite <- Hn|by rewrite Hc|done].
  exists bs. destruct x as [[c|c]|e].
  - rewrite (st_bind_Ok _ _ _ _ _ Rm) in Rn. by injection Rn as <- <-.
  - rewrite (st_bind_Ok _ _ _ _ _ Rm) in Rn. by injection Rn as <- <-.
  - rewrite (st_bind_Err _ _ _ _ _ Rm) in Rn. by injection Rn as <- <-.
Qed.

(** *** Completion *)

Section completion.
Context (archive : A) (request : ReplayRequest) (is_cancelled : nat -> bool).
Abbreviation S0 := (start_inclusive (req_range request)).
Abbreviation E0 := (end_inclusive (req_range request)).
Hypothesis Hcount : ity_wf U64 (E0 - S0 + 1).
Hypothesis never : forall n, is_cancelled n = false.

Lemma replay_block_goes range c b d l l1 :
  in_step request c l -> end_inclusive range <= E0 -> block_typed b ->
  chain_id b = req_chain_id request -> block_height b <= end_inclusive range ->
  (block_height b = end_inclusive range \/ ity_wf U64 (block_height b + 1)) ->
  apply_block b l = (Ok (Applied d), l1) ->
  exists c1, counters c1 = advance c [b] /\ in_step request c1 l1 /\
    replay_block request range (block_height b) c (Ok b) l =
      (Ok (if block_height b =? end_inclusive range then block_height b else block_height b + 1, c1), l1).
Proof.
  intros (I & Ha & J) Er T Ch Le Nx Ab.
  pose proof (as_height _ _ _ _ (applied_block_spec _ _ _ _ I Ab)) as Hn.
  apply (next_height_Ok _ _ I) in Hn as [Hh _].
  assert (lp_applied c + 1 <= E0 - S0 + 1) as Hle by (rewrite J, <- Hh; lia).
  pose proof Hcount as [_ Hc].
  exists (mkLoop (lp_applied c + 1) (Some (block_height b)) (lp_polls c)). split; [done|]. split.
  { unfold in_step. cbn. rewrite (expected_after _ _ _ _ Ab), Hh.
    split_and!; [by eapply applied_inv|lia|lia]. }
  cbn [replay_block]. rewrite bool_decide_true, Z.eqb_refl, (proj2 (Z.ltb_ge _ _)) by done. cbn [negb orb].
  unfold replay_apply. unfold mbind, st_bind. rewrite Ab. unfold int_add.
  rewrite (int_try_wf U64 (lp_applied c + 1)) by (split; [change (0 <= lp_applied c + 1)|]; lia).
  destruct (block_height b =? end_inclusive range) eqn:Ee; [done|]. bool_to_prop.
  destruct Nx as [Nx|Nx]; [done|]. by rewrite (int_try_wf _ _ Nx).
Qed.

Lemma replay_blocks_go range c bs l l' :
  in_step request c l -> end_inclusive range <= E0 -> Forall block_typed bs -> bs <> [] ->
  Forall (fun b => chain_id b = req_chain_id request) bs ->
  expected_height l + zlen bs = end_inclusive range + 1 -> all_applied bs l l' ->
  exists c', lp_last c' = Some (end_inclusive range) /\ in_step request c' l' /\
    replay_blocks request is_cancelled range (expected_height l) c (Ok <$> bs) l =
      (Ok (end_inclusive range, Went c'), l').
Proof.
  intros S Er T. revert c l S. induction T as [|b bs Tb T IH]; [done|]. intros c l S _ Ch Hz A1.
  apply Forall_cons in Ch as [Cb Ch]. pose proof A1 as A0.
  apply all_applied_cons in A1 as (d & l1 & Ab & A1). rewrite zlen_cons in Hz.
  pose proof (zlen_nonneg bs) as Nn. pose proof (proj1 S) as I.
  pose proof (as_height _ _ _ _ (applied_block_spec _ _ _ _ I Ab)) as Hn.
  apply (next_height_Ok _ _ I) in Hn as [Hh _]. pose proof (expected_after _ _ _ _ Ab) as He.
  set (polled := mkLoop (lp_applied c) (lp_last c) (Datatypes.S (lp_polls c))).
  assert (in_step request polled l) as Sp by done.
  assert (block_height b = end_inclusive range \/ ity_wf U64 (block_height b + 1)) as Nx.
  { destruct bs as [|b2 bs]; [left; rewrite Hh; rewrite zlen_nil in Hz; lia|right].
    apply all_applied_cons in A1 as (d2 & l2 & Ab2 & _).
    pose proof (applied_inv _ _ _ _ I Tb Ab) as I1.
    pose proof (as_height _ _ _ _ (applied_block_spec _ _ _ _ I1 Ab2)) as Hn2.
    apply (next_height_Ok _ _ I1) in Hn2 as [E2 W2]. by rewrite <- He, <- E2. }
  destruct (replay_block_goes range polled b d l l1) as (c1 & C1 & S1 & E1); [try done..|].
  { rewrite Hh. lia. }
  cbn [fmap list_fmap replay_blocks]. rewrite never. fold polled. rewrite <- Hh, (st_bind_Ok _ _ _ _ _ E1).
  destruct bs as [|b2 bs].
  - destruct A1 as (rs & [= <- <-] & _). rewrite zlen_nil in Hz.
    assert (block_height b = end_inclusive range) as Eb by (rewrite Hh; lia). rewrite Eb, Z.eqb_refl.
    exists c1. cbn. split_and!; [|done|done]. injection C1 as _ ->. by rewrite <- Eb.
  - rewrite (proj2 (Z.eqb_neq _ _)) by (rewrite Hh; rewrite zlen_cons in *; pose proof (zlen_nonneg bs); lia).
    destruct (IH c1 l1) as (c' & Lc & S' & E'); [done|done|done|rewrite He, Hh; lia|done|].
    exists c'. split_and!; [done|done|]. rewrite <- He. exact E'.
Qed.

(** The archive has, for a manifest of the plan, the chain's blocks of its
    range. *)
Definition supplies (m : ReplayManifestIdentity) bs : Prop :=
  let range := id_block_range m in
  read_manifest_blocks archive (id_manifest_id m) = Ok (Ok <$> bs) /\
  start_inclusive range <= end_inclusive range /\
  block_height <$> bs = seqZ (start_inclusive range) (end_inclusive range - start_inclusive range + 1) /\
  Forall (fun b => chain_id b = req_chain_id request) bs /\ Forall block_typed bs.

Lemma replay_manifest_goes m c bs l l' :
  in_step request c l -> end_inclusive (id_block_range m) <= E0 -> supplies m bs -> all_applied bs l l' ->
  exists c', in_step request c' l' /\
    replay_manifest archive request is_cancelled m c l = (Ok (Went c'), l').
Proof.
  intros S Er (Rd & Le & Hh & Ch & T) A1. pose proof (proj1 S) as I.
  destruct (all_applied_run _ _ _ I T A1) as (_ & Hr & _).
  assert (zlen bs = end_inclusive (id_block_range m) - start_inclusive (id_block_range m) + 1) as Lb.
  { apply (f_equal length) in Hh. rewrite length_fmap, length_seqZ in Hh. unfold zlen. lia. }
  destruct bs as [|b bs]; [rewrite zlen_nil in Lb; lia|].
  assert (expected_height l = start_inclusive (id_block_range m)) as Es.
  { rewrite Hr in Hh. rewrite <- Lb in Hh. pose proof (zlen_nonneg bs). rewrite zlen_cons in Hh.
    rewrite (seqZ_cons (expected_height l)), (seqZ_cons (start_inclusive _)) in Hh by lia.
    by injection Hh. }
  destruct (replay_blocks_go (id_block_range m) c (b :: bs) l l') as (c' & Lc & S' & E'); [try done..|].
  { rewrite Es, Lb. lia. }
  exists c'. split; [done|]. unfold replay_manifest. rewrite Rd, <- Es, (st_bind_Ok _ _ _ _ _ E').
  by rewrite Lc, bool_decide_true, Z.eqb_refl.
Qed.

Lemma replay_manifests_go ms bss c l l' :
  in_step request c l -> Forall (fun m => end_inclusive (id_block_range m) <= E0) ms ->
  Forall2 supplies ms bss -> all_applied (concat bss) l l' ->
  exists c', replay_manifests archive request is_cancelled ms c l = (Ok (Went c'), l').
Proof.
  intros S Fe F. revert c l S Fe. induction F as [|m bs ms bss Sm F IH]; intros c l S Fe A1.
  { destruct A1 as (rs & [= <- <-] & _). by exists c. }
  apply Forall_cons in Fe as [Em Fe]. cbn [concat] in A1. apply all_applied_app in A1 as (l1 & A1 & A2).
  destruct (replay_manifest_goes m c bs l l1) as (c1 & S1 & E1); [done..|].
  destruct (IH c1 l1 S1 Fe A2) as (c' & E'). exists c'. cbn [replay_manifests].
  by rewrite (st_bind_Ok _ _ _ _ _ E1).
Qed.
End completion.

(** C23. A replay of a good archive completes: when the ledger is at the start
    of the range with the expected hash, the request is within the limits, the
    manifests verify as a plan of the range, the archive has the chain's blocks
    for each of them, the ledger accepts those blocks one after the other, and
    nobody cancels, then the replay terminates with a completed receipt and the
    ledger those blocks lead to. *)
Theorem replay_completes archive lims request is_cancelled l ms bss l' count :
  ledger_inv l -> (forall n, is_cancelled n = false) ->
  block_count request = Ok count -> count <= max_blocks lims ->
  zlen (req_manifests request) <= max_manifests lims ->
  ledger_hash l = expected_start_state_hash request ->
  next_height l = Ok (start_inclusive (req_range request)) ->
  preflight archive request l = Ok ms -> Forall2 (supplies archive request) ms bss ->
  all_applied (concat bss) l l' ->
  exists rc, replay_run archive lims request is_cancelled l = (Ok (ReplayCompleted rc), l') /\
    rc_status rc = Completed.
Proof.
  intros I Nv Bc Lb Lm Hs Hn Pf F A1. pose proof Bc as Bc'. unfold block_count, range_count in Bc'.
  apply ok_or_Ok, bind_Some in Bc' as (span & H3 & H4). apply int_try_Some in H3 as [-> _].
  apply int_try_Some in H4 as [_ Hc]. pose proof (preflight_Ok _ _ _ _ Pf) as (_ & Fe & _).
  assert (in_step request (mkLoop 0 None 0) l) as S.
  { apply (next_height_Ok _ _ I) in Hn as [Hn _]. split_and!; [done|done|]. cbn. lia. }
  destruct (replay_manifests_go archive request is_cancelled Hc Nv ms bss _ l l' S Fe F A1) as (c & E).
  eexists. unfold replay_run. rewrite st_bind_get, Bc.
  rewrite (proj2 (Z.ltb_ge _ _)), (proj2 (Z.ltb_ge _ _)) by done. cbn [orb].
  rewrite bool_decide_true by done. cbn [negb]. rewrite Hn, Z.eqb_refl. cbn [negb].
  rewrite Pf, st_bind_lift_Ok, (st_bind_Ok _ _ _ _ _ E). done.
Qed.
End replay_theory.

(** ** A concrete replay *)

#[local] Existing Instance sample_blake3.

Definition MemoryArchive := list (VerifiedManifest * list (BlockEnvelope unit)).
Definition find_manifest (a : MemoryArchive) (id : ManifestId)
  : option (VerifiedManifest * list (BlockEnvelope unit)) :=
  find (fun e => bool_decide (vm_manifest_id e.1 = id)) a.
#[global] Instance memory_archive : CanonicalArchive unit MemoryArchive := {
  verify_manifest a id := e ← find_manifest a id ?? "archive.missing"%string; Ok e.1;
  read_manifest_blocks a id := e ← find_manifest a id ?? "archive.missing"%string; Ok (map Ok e.2);
}.

Definition verified (id : ManifestId) (first final : Z) : VerifiedManifest :=
  mkVerified id "hl" (mkRange first final) (replicate 32 x0c) [("blocks"%string, replicate 32 x0d)].
Definition stored_blocks : MemoryArchive :=
  [(verified "m1" 5 6, [ledger_block 5 x05; ledger_block 6 x06]); (verified "m2" 7 7, [ledger_block 7 x07])].
Definition replay_request : ReplayRequest :=
  mkRequest "hl" (mkRange 5 7) ["m1"; "m2"]%string (ledger_hash tally_ledger) "blocks" (replicate 32 x0d).
Definition replayed (id : ManifestId) (first final : Z) : ReplayManifestIdentity :=
  mkIdentity id (replicate 32 x0c) (mkRange first final).

Lemma stored_blocks_typed : archive_typed stored_blocks.
Proof.
  intros id items b. unfold read_manifest_blocks, memory_archive, find_manifest, stored_blocks. cbn [find].
  case_bool_decide; [|case_bool_decide; [|discriminate]]; intros [= <-] E;
    repeat (apply elem_of_cons in E as [[= ->]|E]; [by vm_compute|]); by apply elem_of_nil in E.
Qed.

(** A replay cancelled at the third poll has applied the first two blocks. *)
Lemma replay_progress_exact_witness : exists bs,
  replay_spec replay_request (archive_stream stored_blocks (req_manifests replay_request)) tally_ledger bs
    (replay_run stored_blocks replay_limits_production replay_request (Nat.leb 2) tally_ledger).2
    (replay_run stored_blocks replay_limits_production replay_request (Nat.leb 2) tally_ledger).1.
Proof.
  apply (replay_progress_exact stored_blocks replay_limits_production replay_request (Nat.leb 2)
    tally_ledger).
  - apply tally_ledger_inv.
  - apply stored_blocks_typed.
  - vm_compute. reflexivity.
Defined.

Lemma replay_completes_witness : exists rc,
  replay_run stored_blocks replay_limits_production replay_request (fun _ => false) tally_ledger =
    (Ok (ReplayCompleted rc),
     (apply_blocks [ledger_block 5 x05; ledger_block 6 x06; ledger_block 7 x07] tally_ledger).2) /\
  rc_status rc = Completed.
Proof.
  apply (replay_completes stored_blocks replay_limits_production replay_request (fun _ => false) tally_ledger
    [replayed "m1" 5 6; replayed "m2" 7 7] [[ledger_block 5 x05; ledger_block 6 x06]; [ledger_block 7 x07]]
    _ 3).
  - apply tally_ledger_inv.
  - reflexivity.
  - vm_compute. reflexivity.
  - vm_compute. discriminate.
  - vm_compute. discriminate.
  - reflexivity.
  - vm_compute. reflexivity.
  - vm_compute. reflexivity.
  - repeat constructor; vm_compute; try reflexivity; discriminate.
  - eexists. split; [vm_compute; reflexivity|]. vm_compute. reflexivity.
Defined.
