(* ===== verification/Disk.v ===== *)
(** * A file system with faults

    The stores keep directories of files under one root. Every system call may
    succeed, fail, or be the one during which the process dies; an interrupted
    write leaves a prefix of its bytes, every other call is atomic. What the
    calls do is decided by a [fate] per call, so a theorem about all fates is a
    theorem about every failure and every crash. Symbolic links, permissions
    and the loss of unsynced data are not represented. *)

From Stdlib Require Import Strings.Byte Strings.String.
From S2P Require Import Prelude Ordering BTreeMap Bytes.

Inductive fate := Succeeds | Fails (torn : nat) | Crashes (torn : nat).

Abbreviation Files := (btmap string bytes).
Record Root := mkRoot { files : Files; dirs : btmap string Files }.
(** The root directory and the number of calls made so far. *)
Record Disk := mkDisk { root : Root; clock : nat }.

(** ** Effects *)

Definition dir_files (dir : string) (r : Root) : Files := default [] (bt_get dir (dirs r)).
Definition put_root_file (name : string) (l : bytes) (r : Root) : Root :=
  mkRoot (bt_insert name l (files r)) (dirs r).
Definition put_file (dir name : string) (l : bytes) (r : Root) : Root :=
  mkRoot (files r) (bt_insert dir (bt_insert name l (dir_files dir r)) (dirs r)).
Definition unlink_file (dir name : string) (r : Root) : Root :=
  mkRoot (files r) (bt_insert dir (bt_remove name (dir_files dir r)) (dirs r)).
Definition make_dir (dir : string) (r : Root) : Root := mkRoot (files r) (bt_insert dir [] (dirs r)).
Definition remove_dir (dir : string) (r : Root) : Root :=
  if is_empty (dir_files dir r) then mkRoot (files r) (bt_remove dir (dirs r)) else r.
Definition rename_dir (from to : string) (r : Root) : Root :=
  mkRoot (files r) (bt_insert to (dir_files from r) (bt_remove from (dirs r))).
Definition rename_root_file (from to : string) (r : Root) : Root :=
  match bt_get from (files r) with
  | Some l => mkRoot (bt_insert to l (bt_remove from (files r))) (dirs r)
  | None => r
  end.

(** ** Calls *)

Section calls.
Context (fate_of : nat -> fate) {E : Type}.
Abbreviation disk_op := (st Disk (halt E)).

Definition tick (f : Root -> Root) (d : Disk) : Disk := mkDisk (f (root d)) (S (clock d)).

Definition fail {A} (e : E) : disk_op A := st_throw (Failed e).
Definition lift {A} (r : result E A) : disk_op A := st_lift (map_err Failed r).

(** A call that fails with [e]; [torn n] is what an interrupted one leaves. *)
Definition sys (e : E) (torn : nat -> Root -> Root) (effect : Root -> Root) : disk_op unit :=
  d ← st_get;
  match fate_of (clock d) with
  | Succeeds => st_modify (tick effect)
  | Fails n => _ ← st_modify (tick (torn n)); fail e
  | Crashes n => _ ← st_modify (tick (torn n)); st_throw Crashed
  end.

Definition sys_atomic (e : E) (effect : Root -> Root) : disk_op unit := sys e (fun _ r => r) effect.
(** A call that changes nothing: opening, inspecting, reading, syncing. *)
Definition sys_read (e : E) : disk_op unit := sys_atomic e (fun r => r).
(** A call whose failure is ignored: [let _ = ...]. *)
Definition sys_ignored (effect : Root -> Root) : disk_op unit :=
  d ← st_get;
  match fate_of (clock d) with
  | Succeeds => st_modify (tick effect)
  | Fails _ => st_modify (tick (fun r => r))
  | Crashes _ => st_throw Crashed
  end.
End calls.

(** ** What a call chain can do *)

Section theory.
Context (fate_of : nat -> fate) {E : Type}.
Abbreviation disk_op := (st Disk (halt E)).

(** [keeps p I]: wherever [I] holds, it holds after [p], however [p] ends. *)
Definition keeps {A} (I : Root -> Prop) (p : disk_op A) : Prop :=
  forall d r d', I (root d) -> p d = (r, d') -> I (root d').

Lemma keeps_bind {A B} I (p : disk_op A) (f : A -> disk_op B) :
  keeps I p -> (forall a, keeps I (f a)) -> keeps I (p ≫= f).
Proof.
  intros P F d r d' H E'. destruct (p d) as [[a|e] d1] eqn:Ep.
  - rewrite (st_bind_Ok _ _ _ _ _ Ep) in E'. by eapply (F a), E'; eapply P.
  - rewrite (st_bind_Err _ _ _ _ _ Ep) in E'. injection E' as <- <-. by eapply P.
Qed.

Lemma keeps_const {A} I (r : result (halt E) A) : keeps I (st_lift r).
Proof. intros d r' d' H [= <- <-]. done. Qed.
Lemma keeps_ret {A} I (a : A) : keeps I (mret a).
Proof. intros d r' d' H [= <- <-]. done. Qed.
Lemma keeps_throw {A} I e : keeps (A := A) I (st_throw e).
Proof. intros d r' d' H [= <- <-]. done. Qed.
Lemma keeps_get I : keeps I st_get.
Proof. intros d r' d' H [= <- <-]. done. Qed.

Lemma keeps_sys I e torn effect :
  (forall n r, I r -> I (torn n r)) -> (forall r, I r -> I (effect r)) ->
  keeps I (sys fate_of (E := E) e torn effect).
Proof.
  intros T F d r d' H E'. unfold sys in E'. rewrite st_bind_get in E'.
  destruct (fate_of (clock d)); injection E' as <- <-; cbn; auto.
Qed.

Lemma keeps_atomic I e effect :
  (forall r, I r -> I (effect r)) -> keeps I (sys_atomic fate_of (E := E) e effect).
Proof. intros F. by apply keeps_sys. Qed.

Lemma keeps_read I e : keeps I (sys_read fate_of (E := E) e).
Proof. by apply keeps_atomic. Qed.

Lemma keeps_ignored I effect :
  (forall r, I r -> I (effect r)) -> keeps I (sys_ignored fate_of (E := E) effect).
Proof.
  intros F d r d' H E'. unfold sys_ignored in E'. rewrite st_bind_get in E'.
  destruct (fate_of (clock d)); injection E' as <- <-; cbn; auto.
Qed.

Lemma keeps_if {A} I (b : bool) (p q : disk_op A) : keeps I p -> keeps I q -> keeps I (if b then p else q).
Proof. by destruct b. Qed.

(** A call that succeeded had its effect. *)
Lemma sys_Ok e torn effect d u d' :
  sys fate_of (E := E) e torn effect d = (Ok u, d') -> d' = tick effect d.
Proof.
  unfold sys. rewrite st_bind_get. destruct (fate_of (clock d)); [|discriminate..].
  by intros [= _ <-].
Qed.

Lemma sys_root e torn effect d u d' :
  sys fate_of (E := E) e torn effect d = (Ok u, d') -> root d' = effect (root d).
Proof. by intros ->%sys_Ok. Qed.

Lemma sys_atomic_root e effect d u d' :
  sys_atomic fate_of (E := E) e effect d = (Ok u, d') -> root d' = effect (root d).
Proof. by intros ->%sys_Ok. Qed.

Lemma sys_atomic_Err e effect d x d' :
  sys_atomic fate_of (E := E) e effect d = (Err x, d') -> root d' = root d.
Proof.
  unfold sys_atomic, sys. rewrite st_bind_get. destruct (fate_of (clock d)); [discriminate|..];
    by intros [= _ <-].
Qed.

(** An atomic call happens or it does not. *)
Lemma sys_atomic_or e effect d r d' :
  sys_atomic fate_of (E := E) e effect d = (r, d') -> root d' = root d \/ root d' = effect (root d).
Proof.
  unfold sys_atomic, sys. rewrite st_bind_get. destruct (fate_of (clock d)); intros [= _ <-]; cbn; auto.
Qed.

Lemma sys_read_Ok e d u d' : sys_read fate_of (E := E) e d = (Ok u, d') -> root d' = root d.
Proof. intros R. by apply sys_Ok in R as ->. Qed.

Lemma lift_Ok {A} (r : result E A) d a d' : lift r d = (Ok a, d') -> r = Ok a /\ d' = d.
Proof. unfold lift. intros [R ->]%st_lift_inv. by apply map_err_Ok in R. Qed.
End theory.

(** Goes through a call chain that only reads, or up to the calls that write. *)
Ltac keeps_through :=
  repeat match goal with
  | |- keeps _ (_ ≫= _) => apply keeps_bind; [|intros ?]
  | |- keeps _ (sys_read _ _) => apply keeps_read
  | |- keeps _ (mret _) => apply keeps_ret
  | |- keeps _ (st_throw _) => apply keeps_throw
  | |- keeps _ (fail _) => apply keeps_throw
  | |- keeps _ (lift _) => apply keeps_const
  | |- keeps _ st_get => apply keeps_get
  | |- keeps _ (if _ then _ else _) => apply keeps_if
  | |- keeps _ (match ?x with _ => _ end) => destruct x
  end.

(** Takes a run that succeeded apart, with the roots of the intermediate disks
    identified over reads. *)
Ltac inv_disk :=
  repeat match goal with
  | R : sys_read _ _ _ = (Ok _, _) |- _ => apply sys_read_Ok in R
  | R : sys_atomic _ _ _ _ = (Ok _, _) |- _ => apply sys_atomic_root in R
  | R : sys _ _ _ _ _ = (Ok _, _) |- _ => apply sys_root in R
  | R : lift _ _ = (Ok _, _) |- _ => apply lift_Ok in R as [R ->]
  | R : fail _ _ = (Ok _, _) |- _ => discriminate R
  | R : (if _ then fail _ else _) _ = (Ok _, _) |- _ =>
      apply st_if_throw_inv in R; let Hb := fresh "Hb" in destruct R as [Hb R]
  | _ => inv_st_step
  end.
