(* ===== verification/StateStore.v ===== *)
(** * The durable state store: [crates/storage-ports/src/state_store.rs] and
      [crates/canonical-state-store/src/atomic.rs]

    The port [AtomicStateStore] is a type class with the contract its
    documentation states; the production engine keeps one directory per state
    (a generation) and a [HEAD] file that names the current one, and is proved
    to meet the contract under every failure and crash. *)

From Stdlib Require Import Strings.Byte Strings.String.
From S2P Require Import Prelude Ordering BTreeMap Bytes FixedPoint Ids Blocks StateImage Ledger Disk.

(** ** The port *)

Definition STATE_STORE_SCHEMA : string := "hyperliquid-alpha-desk/file-atomic-state-store/v1".

Inductive StateStoreError :=
| InvalidCommit
| Locked
| Corrupt
| Conflict
| ResourceLimit
| RebuildRequired
| Io (what : string).

Record AtomicStateCommit := mkCommit { commit_delta : StateDelta; commit_image : StateImage }.

Definition image_height (i : StateImage) : option BlockHeight := wm_height <$> img_watermark i.
Definition image_block_hash (i : StateImage) : option Hash := wm_hash <$> img_watermark i.

Definition commit_try_new `{Blake3} (d : StateDelta) (i : StateImage)
  : result StateStoreError AtomicStateCommit :=
  let cp := delta_checkpoint d in
  if negb (bool_decide (image_state_hash i = after_state_hash d)) ||
     negb (bool_decide (img_chain_id i = cp_chain_id cp)) ||
     negb (bool_decide (image_height i = Some (cp_block_height cp))) ||
     negb (bool_decide (image_block_hash i = Some (cp_canonical_block_hash cp))) ||
     negb (bool_decide (reducer_set_version i = cp_reducer_set_version cp))
  then Err InvalidCommit else Ok (mkCommit d i).

Definition commit_height (c : AtomicStateCommit) : BlockHeight :=
  cp_block_height (delta_checkpoint (commit_delta c)).
Definition commit_block_hash (c : AtomicStateCommit) : Hash :=
  cp_canonical_block_hash (delta_checkpoint (commit_delta c)).
Definition commit_before (c : AtomicStateCommit) : Hash := before_state_hash (commit_delta c).
Definition commit_after (c : AtomicStateCommit) : Hash := after_state_hash (commit_delta c).

Record StateCommitReceipt := mkCommitReceipt {
  receipt_height : BlockHeight;
  receipt_block_hash : Hash;
  receipt_state_hash : Hash;
}.

Definition receipt_matches (r : StateCommitReceipt) (c : AtomicStateCommit) : bool :=
  (receipt_height r =? commit_height c) && bool_decide (receipt_block_hash r = commit_block_hash c) &&
  bool_decide (receipt_state_hash r = commit_after c).

Inductive StateCommitDisposition :=
| Committed (receipt : StateCommitReceipt)
| AlreadyCommitted (receipt : StateCommitReceipt).

Definition disposition_receipt (d : StateCommitDisposition) : StateCommitReceipt :=
  match d with Committed receipt | AlreadyCommitted receipt => receipt end.

(** The trait; the store is the state its methods share. *)
Class AtomicStateStore (S : Type) := {
  store_commit : AtomicStateCommit -> st S StateStoreError StateCommitDisposition;
  store_load_latest : StateImageLimits -> S -> result StateStoreError (option StateImage);
}.

(** ** The file engine *)

Definition HEAD_FILE : string := "HEAD".
Definition STATE_FILE : string := "state.bin".
Definition SCHEMA_FILE : string := "SCHEMA".
Definition GENERATION_PREFIX : string := "gen-".
Definition STAGING_ATTEMPTS : nat := 16.
Definition HEAD_STAGED : string := ".HEAD.staged".

(** [strip_prefix] *)
Fixpoint strip_prefix (p s : string) : option string :=
  match p, s with
  | EmptyString, _ => Some s
  | String a p, String b s => if Ascii.eqb a b then strip_prefix p s else None
  | _, _ => None
  end.

Definition validate_generation_name (name : string) : result StateStoreError unit :=
  match strip_prefix GENERATION_PREFIX name with
  | None => Err Corrupt
  | Some hash =>
      if negb (zlen (as_bytes hash) =? 64) || existsb (fun b => negb (is_hex_digit b)) (as_bytes hash)
      then Err Corrupt else Ok tt
  end.

Definition decode_stored (l : bytes) (limits : StateImageLimits) : result StateStoreError StateImage :=
  match decode_image l limits with
  | Ok i => if negb (bool_decide (canonical_bytes i = l)) then Err Corrupt else Ok i
  | Err LimitExceeded => Err ResourceLimit
  | Err _ => Err Corrupt
  end.

Section file_store.
Context `{Hex} `{Blake3}.
(** The fates of the system calls, and the bytes [getrandom] returns. *)
Context (fate_of : nat -> fate) (random : nat -> bytes).
Abbreviation disk_op := (st Disk (halt StateStoreError)).
Abbreviation reads what := (sys_read fate_of (Io what)).

Definition generation_name (hash : Hash) : string := GENERATION_PREFIX +:+ hex_encode hash.

Definition read_head : disk_op (option string) :=
  _ ← reads "opening atomic HEAD"; d ← st_get;
  match bt_get HEAD_FILE (files (root d)) with
  | None => mret None
  | Some l =>
      _ ← reads "reading atomic HEAD";
      if negb (utf8_valid (take 80 l)) then fail Corrupt else
      let name := String.string_of_list_byte (take 80 l) in
      _ ← lift (validate_generation_name name);
      mret (Some name)
  end.

Definition open_generation (name : string) : disk_op Files :=
  _ ← lift (validate_generation_name name);
  _ ← reads "opening atomic generation"; d ← st_get;
  match bt_get name (dirs (root d)) with
  | None => fail Corrupt
  | Some fs => _ ← reads "inspecting atomic directory"; mret fs
  end.

Definition require_schema (fs : Files) : disk_op unit :=
  _ ← reads "opening atomic schema file";
  match bt_get SCHEMA_FILE fs with
  | None => fail RebuildRequired
  | Some l =>
      _ ← reads "inspecting atomic schema file"; _ ← reads "reading atomic schema file";
      if bool_decide (take 256 l = as_bytes STATE_STORE_SCHEMA) then mret tt else fail RebuildRequired
  end.

Definition read_regular (fs : Files) (name : string) (max_bytes : Z) : disk_op bytes :=
  _ ← reads "opening atomic state file";
  match bt_get name fs with
  | None => fail Corrupt
  | Some l =>
      _ ← reads "inspecting atomic state file";
      if max_bytes <? zlen l then fail ResourceLimit else
      _ ← reads "reading atomic state file"; mret l
  end.

Definition load_generation (limits : StateImageLimits) : disk_op (option StateImage) :=
  head ← read_head;
  match head with
  | None => mret None
  | Some generation =>
      fs ← open_generation generation;
      _ ← require_schema fs;
      l ← read_regular fs STATE_FILE (max_state_bytes limits);
      i ← lift (decode_stored l limits);
      mret (Some i)
  end.

Definition load_latest (own limits : StateImageLimits) : disk_op (option StateImage) :=
  if max_state_bytes own <? max_state_bytes limits then fail ResourceLimit else load_generation limits.

Definition staging_name (l : bytes) : string := ".staged-" +:+ hex_encode l.

Fixpoint create_staged (attempts : nat) : disk_op string :=
  match attempts with
  | O => fail (Io "allocating unique atomic staging identity")
  | S attempts =>
      _ ← reads "generating staging identity"; d ← st_get;
      let name := staging_name (random (clock d)) in
      if bt_contains name (dirs (root d)) then create_staged attempts else
      _ ← sys_atomic fate_of (Io "creating staged atomic generation") (make_dir name);
      _ ← reads "opening staged atomic generation";
      _ ← reads "setting staged generation permissions";
      _ ← reads "inspecting atomic directory";
      mret name
  end.

(** The file is created with [EXCL]. *)
Definition write_file (dir name : string) (l : bytes) : disk_op unit :=
  d ← st_get;
  if bt_contains name (dir_files dir (root d)) then fail (Io "creating staged atomic file") else
  _ ← sys_atomic fate_of (Io "creating staged atomic file") (put_file dir name []);
  _ ← reads "setting staged atomic file permissions";
  _ ← sys fate_of (Io "writing staged atomic file") (fun n => put_file dir name (take n l))
        (put_file dir name l);
  reads "syncing staged atomic file".

(** [renameat_with(.., NOREPLACE)] *)
Definition publish_generation (staged generation : string) : disk_op unit :=
  d ← st_get;
  if bt_contains generation (dirs (root d))
  then _ ← reads "publishing atomic state generation"; fail Conflict
  else sys_atomic fate_of (Io "publishing atomic state generation") (rename_dir staged generation).

Definition stage_head (generation : string) : disk_op unit :=
  _ ← lift (validate_generation_name generation);
  _ ← sys_atomic fate_of (Io "creating staged HEAD") (put_root_file HEAD_STAGED []);
  _ ← reads "setting staged HEAD permissions";
  _ ← sys fate_of (Io "writing staged HEAD")
        (fun n => put_root_file HEAD_STAGED (take n (as_bytes generation)))
        (put_root_file HEAD_STAGED (as_bytes generation));
  reads "syncing staged HEAD".

Definition write_head (generation : string) : disk_op unit :=
  _ ← stage_head generation;
  sys_atomic fate_of (Io "publishing atomic HEAD") (rename_root_file HEAD_STAGED HEAD_FILE).

(** [Drop] of an unpublished [StagedGeneration]. *)
Definition discard_staged (name : string) : disk_op unit :=
  _ ← sys_ignored fate_of (unlink_file name STATE_FILE);
  _ ← sys_ignored fate_of (unlink_file name SCHEMA_FILE);
  sys_ignored fate_of (remove_dir name).

(** The staged generation is dropped when an error leaves its scope. *)
Definition with_staged (name : string) (p : disk_op unit) : disk_op unit := fun d =>
  match p d with
  | (Err (Failed e), d) => (_ ← discard_staged name; fail e) d
  | r => r
  end.

Definition stage_and_publish (l : bytes) (generation : string) : disk_op unit :=
  staged ← create_staged STAGING_ATTEMPTS;
  with_staged staged (
    _ ← write_file staged STATE_FILE l;
    _ ← write_file staged SCHEMA_FILE (as_bytes STATE_STORE_SCHEMA);
    _ ← reads "syncing staged atomic directory";
    publish_generation staged generation).

(** The check against the current state: [true] when the commit is already
    there. The addition is unchecked, and wraps in a release build. *)
Definition admit_commit (c : AtomicStateCommit) (existing : option StateImage)
  : result StateStoreError bool :=
  match existing with
  | None => Ok false
  | Some i =>
      height ← image_height i ?? Corrupt;
      if negb (bool_decide (img_chain_id i = img_chain_id (commit_image c))) then Err Conflict else
      if height =? commit_height c then
        if bool_decide (image_state_hash i = commit_after c) &&
           bool_decide (image_block_hash i = Some (commit_block_hash c))
        then Ok true else Err Conflict
      else
        if negb (bool_decide (image_state_hash i = commit_before c)) ||
           negb ((height + 1) mod 2 ^ 64 =? commit_height c)
        then Err Conflict else Ok false
  end.

(** The tail of [commit]: write the new generation and point [HEAD] to it. *)
Definition install (l : bytes) (generation : string) : disk_op unit :=
  _ ← stage_and_publish l generation;
  _ ← write_head generation;
  reads "syncing atomic state root".

Definition file_commit (own : StateImageLimits) (c : AtomicStateCommit)
  : disk_op StateCommitDisposition :=
  let l := canonical_bytes (commit_image c) in
  if max_state_bytes own <? zlen l then fail ResourceLimit else
  let receipt := mkCommitReceipt (commit_height c) (commit_block_hash c) (commit_after c) in
  existing ← load_generation own;
  already ← lift (admit_commit c existing);
  if (already : bool) then mret (AlreadyCommitted receipt) else
  _ ← install l (generation_name (commit_after c));
  mret (Committed receipt).
End file_store.

(** ** What the store holds *)

(** The image a reader finds, when no call fails. *)
Definition latest (limits : StateImageLimits) (r : Root) : result StateStoreError (option StateImage) :=
  match bt_get HEAD_FILE (files r) with
  | None => Ok None
  | Some l =>
      if negb (utf8_valid (take 80 l)) then Err Corrupt else
      let name := String.string_of_list_byte (take 80 l) in
      _ ← validate_generation_name name;
      fs ← bt_get name (dirs r) ?? Corrupt;
      schema ← bt_get (V := bytes) SCHEMA_FILE fs ?? RebuildRequired;
      if negb (bool_decide (take 256 schema = as_bytes STATE_STORE_SCHEMA)) then Err RebuildRequired else
      l ← bt_get (V := bytes) STATE_FILE fs ?? Corrupt;
      if max_state_bytes limits <? zlen l then Err ResourceLimit else
      i ← decode_stored l limits;
      Ok (Some i)
  end.

(** [r] still has the [HEAD] and the generations of [r0]. *)
Definition same_current (r0 r : Root) : Prop :=
  bt_sorted (dirs r) /\ bt_get HEAD_FILE (files r) = bt_get HEAD_FILE (files r0) /\
  forall name, validate_generation_name name = Ok tt -> bt_get name (dirs r0) <> None ->
    bt_get name (dirs r) = bt_get name (dirs r0).

Lemma same_current_refl r : bt_sorted (dirs r) -> same_current r r.
Proof. by intros S. Qed.

Lemma same_current_latest limits r0 r x :
  same_current r0 r -> latest limits r0 = Ok x -> latest limits r = Ok x.
Proof.
  intros (_ & Eh & Ed). unfold latest. rewrite Eh. destruct (bt_get HEAD_FILE (files r0)) as [l|]; [|done].
  destruct (negb _); [done|]. destruct (validate_generation_name _) as [[]|] eqn:V; [|done]. cbn.
  specialize (Ed _ V). destruct (bt_get _ (dirs r0)) eqn:G; [|done]. by rewrite Ed.
Qed.

Lemma same_current_insert r0 r name fs :
  validate_generation_name name <> Ok tt \/ bt_get name (dirs r0) = None ->
  same_current r0 r -> same_current r0 (mkRoot (files r) (bt_insert name fs (dirs r))).
Proof.
  intros N (S & Eh & Ed). split_and!; cbn; [by apply bt_insert_sorted|done|].
  intros name' V G. rewrite bt_get_insert, eqb_decide. case_bool_decide as E; [|by apply Ed].
  subst. by destruct N.
Qed.

Lemma same_current_remove r0 r name :
  validate_generation_name name <> Ok tt ->
  same_current r0 r -> same_current r0 (mkRoot (files r) (bt_remove name (dirs r))).
Proof.
  intros N (S & Eh & Ed). split_and!; cbn; [by apply bt_remove_sorted|done|].
  intros name' V G. rewrite bt_get_remove, eqb_decide by done. case_bool_decide as E; [|by apply Ed].
  by subst.
Qed.

Section crash_safety.
Context `{Hex, !HexLaws} `{Blake3} (fate_of : nat -> fate) (random : nat -> bytes).

Lemma staging_invalid l : validate_generation_name (staging_name l) <> Ok tt.
Proof. discriminate. Qed.

Lemma generation_valid h : length h = 32%nat -> validate_generation_name (generation_name h) = Ok tt.
Proof.
  intros L. unfold validate_generation_name, generation_name.
  change (strip_prefix GENERATION_PREFIX (GENERATION_PREFIX +:+ hex_encode h)) with (Some (hex_encode h)).
  cbv iota beta. rewrite hex_encode_length. unfold zlen. rewrite L.
  by rewrite (existsb_negb _ _ (hex_encode_digits h)).
Qed.

Lemma load_keeps limits I : keeps I (load_generation fate_of limits).
Proof.
  unfold load_generation, read_head, open_generation, require_schema, read_regular. keeps_through.
Qed.

Lemma read_head_Ok d h d' : read_head fate_of d = (Ok h, d') ->
  root d' = root d /\
  match bt_get HEAD_FILE (files (root d)) with
  | None => h = None
  | Some l => utf8_valid (take 80 l) = true /\
      validate_generation_name (String.string_of_list_byte (take 80 l)) = Ok tt /\
      h = Some (String.string_of_list_byte (take 80 l))
  end.
Proof.
  intros R. unfold read_head in R. inv_disk. rewrite H2 in R.
  destruct (bt_get HEAD_FILE (files (root d))); inv_disk; [|done].
  bool_to_prop. destruct x1. split_and!; try done. congruence.
Qed.

Lemma open_generation_Ok name d fs d' : open_generation fate_of name d = (Ok fs, d') ->
  root d' = root d /\ bt_get name (dirs (root d)) = Some fs.
Proof.
  intros R. unfold open_generation in R. inv_disk. rewrite H3 in R.
  destruct (bt_get name (dirs (root d))) eqn:G; inv_disk. split; [congruence|done].
Qed.

Lemma require_schema_Ok fs d u d' : require_schema fate_of fs d = (Ok u, d') ->
  root d' = root d /\ exists l, bt_get SCHEMA_FILE fs = Some l /\ take 256 l = as_bytes STATE_STORE_SCHEMA.
Proof.
  intros R. unfold require_schema in R. inv_disk. destruct (bt_get SCHEMA_FILE fs) as [l|]; inv_disk.
  destruct (bool_decide _) eqn:B; inv_disk. bool_to_prop. split; [congruence|by exists l].
Qed.

Lemma read_regular_Ok fs name n d l d' : read_regular fate_of fs name n d = (Ok l, d') ->
  root d' = root d /\ bt_get name fs = Some l /\ zlen l <= n.
Proof.
  intros R. unfold read_regular in R. inv_disk. destruct (bt_get name fs) as [l'|]; inv_disk.
  bool_to_prop. split_and!; try done. congruence.
Qed.

Lemma load_spec limits d x d' : load_generation fate_of limits d = (Ok x, d') ->
  root d' = root d /\ latest limits (root d) = Ok x.
Proof.
  intros L. split; [by eapply (load_keeps limits (fun r => r = root d))|].
  unfold load_generation in L. inv_disk. apply read_head_Ok in H2 as [Er Hh]. unfold latest.
  destruct (bt_get HEAD_FILE (files (root d))) as [l|]; [|by subst; inv_disk].
  destruct Hh as (U & V & ->). rewrite U, V. cbn [negb]. rewrite bind_of_Ok. inv_disk.
  apply open_generation_Ok in H2 as [E1 G]. rewrite Er in G. rewrite G. cbn [ok_or]. rewrite bind_of_Ok. cbn beta.
  apply require_schema_Ok in H3 as (E2 & schema & Gs & Es). rewrite Gs. cbn [ok_or]. rewrite bind_of_Ok. cbn beta.
  rewrite bool_decide_true by done. apply read_regular_Ok in H4 as (E3 & Gb & Lb). rewrite Gb. cbn.
  by rewrite (proj2 (Z.ltb_ge _ _)), H5 by done.
Qed.

(** *** Staging *)

Lemma put_file_current r0 r l name bs :
  same_current r0 r -> same_current r0 (put_file (staging_name l) name bs r).
Proof. apply same_current_insert. left. apply staging_invalid. Qed.

Lemma create_staged_keeps r0 n : keeps (same_current r0) (create_staged fate_of random n).
Proof.
  induction n as [|n IH]; cbn [create_staged]; keeps_through; [done|].
  apply keeps_atomic. intros r. apply same_current_insert. left. apply staging_invalid.
Qed.

Lemma create_staged_Ok n d name d' : create_staged fate_of random n d = (Ok name, d') ->
  (exists l, name = staging_name l) /\ bt_get name (dirs (root d')) = Some [].
Proof.
  revert d. induction n as [|n IH]; intros d R; cbn [create_staged] in R; inv_disk.
  destruct (bt_contains _ _); [by eapply IH|]. inv_disk. split; [by eexists|].
  repeat match goal with E : root _ = _ |- _ => rewrite E end. apply bt_get_insert_eq.
Qed.

Lemma write_file_keeps r0 l name bs :
  keeps (same_current r0) (write_file fate_of (staging_name l) name bs).
Proof.
  unfold write_file. keeps_through; [apply keeps_atomic|apply keeps_sys]; intros;
    by apply put_file_current.
Qed.

Lemma write_file_Ok dir name l d u d' : write_file fate_of dir name l d = (Ok u, d') ->
  dir_files dir (root d') = bt_insert name l (bt_insert name [] (dir_files dir (root d))).
Proof.
  intros R. unfold write_file in R. inv_disk.
  repeat match goal with E : root _ = _ |- _ => rewrite E; clear E end.
  unfold dir_files at 1. cbn. rewrite bt_get_insert_eq. cbn. f_equal.
  unfold dir_files at 1. cbn. by rewrite bt_get_insert_eq.
Qed.

Lemma discard_keeps r0 l : keeps (same_current r0) (discard_staged fate_of (staging_name l)).
Proof.
  unfold discard_staged. keeps_through; apply keeps_ignored; intros r S.
  - apply same_current_insert; [left; apply staging_invalid|done].
  - apply same_current_insert; [left; apply staging_invalid|done].
  - unfold remove_dir. destruct (is_empty _); [|done]. by apply same_current_remove; [apply staging_invalid|].
Qed.

Lemma with_staged_keeps r0 l p :
  keeps (same_current r0) p -> keeps (same_current r0) (with_staged fate_of (staging_name l) p).
Proof.
  intros K d r d' S R. unfold with_staged in R. destruct (p d) as [[u|[e|]] d1] eqn:P.
  - injection R as <- <-. by eapply K.
  - eapply (keeps_bind (same_current r0)); [apply (discard_keeps r0 l)| |by eapply K|exact R].
    intros. apply keeps_throw.
  - injection R as <- <-. by eapply K.
Qed.

Lemma with_staged_Ok name p d u d' : with_staged fate_of name p d = (Ok u, d') -> p d = (Ok u, d').
Proof.
  unfold with_staged. destruct (p d) as [[a|[e|]] d1]; [done| |done]. intros R. inv_disk.
Qed.

Lemma publish_keeps r0 l generation :
  keeps (same_current r0) (publish_generation fate_of (staging_name l) generation).
Proof.
  intros d r d' S R. unfold publish_generation in R. rewrite st_bind_get in R.
  destruct (bt_contains generation (dirs (root d))) eqn:C.
  - eapply (keeps_bind (same_current r0)); [apply keeps_read| |exact S|exact R]. intros. apply keeps_throw.
  - apply bt_contains_false in C.
    apply sys_atomic_or in R as [-> | ->]; [done|]. unfold rename_dir.
    apply (same_current_insert r0 (mkRoot _ _)); [|by apply same_current_remove; [apply staging_invalid|]].
    destruct (bt_get generation (dirs r0)) eqn:G; [left|by right]. intros V.
    destruct S as (_ & _ & Ed). rewrite Ed in C by (done || by rewrite G). by rewrite G in C.
Qed.

Lemma publish_Ok staged generation d u d' : bt_sorted (dirs (root d)) ->
  publish_generation fate_of staged generation d = (Ok u, d') ->
  bt_get generation (dirs (root d')) = Some (dir_files staged (root d)).
Proof.
  intros S R. unfold publish_generation in R. rewrite st_bind_get in R.
  destruct (bt_contains generation (dirs (root d))); inv_disk. rewrite R. apply bt_get_insert_eq.
Qed.

Lemma stage_and_publish_keeps r0 l generation :
  keeps (same_current r0) (stage_and_publish fate_of random l generation).
Proof.
  intros d r d' S R. unfold stage_and_publish in R.
  destruct (create_staged fate_of random STAGING_ATTEMPTS d) as [[staged|e] d1] eqn:C.
  - rewrite (st_bind_Ok _ _ _ _ _ C) in R. pose proof (create_staged_keeps r0 _ _ _ _ S C) as S1.
    apply create_staged_Ok in C as [[x ->] _].
    eapply with_staged_keeps; [|exact S1|exact R]. keeps_through.
    + apply write_file_keeps.
    + apply write_file_keeps.
    + apply publish_keeps.
  - rewrite (st_bind_Err _ _ _ _ _ C) in R. injection R as <- <-. by eapply create_staged_keeps.
Qed.

(** A published generation is complete. *)
Lemma stage_and_publish_Ok r0 l generation d u d' : same_current r0 (root d) ->
  stage_and_publish fate_of random l generation d = (Ok u, d') ->
  exists fs, bt_get generation (dirs (root d')) = Some fs /\ bt_get STATE_FILE fs = Some l /\
    bt_get SCHEMA_FILE fs = Some (as_bytes STATE_STORE_SCHEMA).
Proof.
  intros S R. unfold stage_and_publish in R. inv_disk.
  match goal with C : create_staged _ _ _ _ = _ |- _ =>
    pose proof (create_staged_keeps r0 _ _ _ _ S C) as S1; apply create_staged_Ok in C as [[y ->] G] end.
  apply with_staged_Ok in R. inv_disk.
  repeat match goal with W : write_file _ _ _ _ _ = _ |- _ =>
    pose proof (write_file_keeps r0 _ _ _ _ _ _ ltac:(eassumption) W); apply write_file_Ok in W end.
  rename select (root _ = root _) into E. rename select (dir_files _ _ = bt_insert SCHEMA_FILE _ _) into Es.
  rename select (dir_files _ _ = bt_insert STATE_FILE _ _) into Ef.
  rename select (same_current r0 (root _)) into S2.
  apply publish_Ok in R; [|rewrite E; apply S2]. rewrite E, Es, Ef in R.
  eexists. split; [exact R|]. split; rewrite !bt_get_insert; done.
Qed.

(** Everything but the last step of [write_head] leaves the current state; the
    last one moves [HEAD]. *)
Definition head_moved (generation : string) (r r' : Root) : Prop :=
  bt_get HEAD_FILE (files r') = Some (as_bytes generation) /\ dirs r' = dirs r.

Lemma put_staged_head r0 D l r : same_current r0 r /\ dirs r = D ->
  same_current r0 (put_root_file HEAD_STAGED l r) /\ dirs (put_root_file HEAD_STAGED l r) = D.
Proof.
  intros [(S & Eh & Ed) <-]. split; [|done]. split_and!; cbn; [done| |done].
  by rewrite bt_get_insert, eqb_decide, bool_decide_false.
Qed.

Lemma stage_head_keeps r0 D generation :
  keeps (fun r => same_current r0 r /\ dirs r = D) (stage_head fate_of generation).
Proof.
  unfold stage_head. keeps_through; [apply keeps_atomic|apply keeps_sys]; intros; by apply put_staged_head.
Qed.

Lemma stage_head_Ok generation d u d' : stage_head fate_of generation d = (Ok u, d') ->
  bt_get HEAD_STAGED (files (root d')) = Some (as_bytes generation).
Proof.
  intros R. unfold stage_head in R. inv_disk.
  repeat match goal with E : root _ = _ |- _ => rewrite E; clear E end. apply bt_get_insert_eq.
Qed.

Lemma write_head_spec r0 generation d r d' :
  same_current r0 (root d) -> write_head fate_of generation d = (r, d') ->
  match r with
  | Ok _ => head_moved generation (root d) (root d')
  | Err _ => same_current r0 (root d')
  end.
Proof.
  intros S R. unfold write_head in R.
  destruct (stage_head fate_of generation d) as [[u|e] d1] eqn:St.
  - rewrite (st_bind_Ok _ _ _ _ _ St) in R.
    pose proof (stage_head_keeps r0 (dirs (root d)) _ _ _ _ (conj S eq_refl) St) as [S1 E1].
    apply stage_head_Ok in St. destruct r as [v|e].
    + apply sys_atomic_root in R. rewrite R. unfold rename_root_file. rewrite St.
      split; [cbn; apply bt_get_insert_eq|done].
    + apply sys_atomic_Err in R. by rewrite R.
  - rewrite (st_bind_Err _ _ _ _ _ St) in R. injection R as <- <-.
    by apply (stage_head_keeps r0 (dirs (root d)) _ _ _ _ (conj S eq_refl)) in St as [S1 _].
Qed.

Lemma generation_name_short hash : length hash = 32%nat ->
  (length (as_bytes (generation_name hash)) <= 80)%nat.
Proof.
  intros L. unfold generation_name. rewrite as_bytes_app, length_app.
  pose proof (hex_encode_length hash) as Lh. unfold zlen in Lh. cbn [length as_bytes]. cbn. lia.
Qed.

Lemma generation_name_utf8 hash : utf8_valid (as_bytes (generation_name hash)) = true.
Proof.
  unfold generation_name. rewrite as_bytes_app.
  eapply (ascii_text_utf8 (fun b => is_hex_digit b || existsb (Byte.eqb b) (as_bytes GENERATION_PREFIX))).
  - intros b. by destruct b.
  - rewrite forallb_app. cbn [andb]. apply andb_true_iff. split; [done|].
    pose proof (hex_encode_digits hash) as D. rewrite forallb_forall in D |- *.
    intros b B. by rewrite (D b B).
Qed.

(** What a reader finds once [HEAD] names a complete generation. *)
Lemma latest_moved limits hash r r' fs i :
  length hash = 32%nat -> head_moved (generation_name hash) r r' ->
  bt_get (generation_name hash) (dirs r) = Some fs ->
  bt_get STATE_FILE fs = Some (canonical_bytes i) ->
  bt_get SCHEMA_FILE fs = Some (as_bytes STATE_STORE_SCHEMA) ->
  limits_wf limits -> image_wf i -> image_fits limits i -> latest limits r' = Ok (Some i).
Proof.
  intros L [Eh Ed] G Gb Gs Wl Wi Fi. unfold latest. rewrite Eh.
  rewrite (take_ge (as_bytes _)) by (by apply generation_name_short).
  rewrite generation_name_utf8. cbn [negb]. rewrite String.string_of_list_byte_of_string.
  rewrite generation_valid, Ed by done. rewrite bind_of_Ok, G. cbn [ok_or]. rewrite bind_of_Ok, Gs.
  cbn [ok_or]. rewrite bind_of_Ok, bool_decide_true by done. cbn [negb]. rewrite Gb. cbn [ok_or].
  rewrite bind_of_Ok. pose proof Fi as [Fl _]. rewrite (proj2 (Z.ltb_ge _ _)) by done.
  unfold decode_stored. rewrite (proj2 (decode_image_iff limits (canonical_bytes i) i Wl)) by done.
  by rewrite bool_decide_true.
Qed.

(** A commit of a well-formed image that fits, under its own hash. *)
Record commit_ok (own : StateImageLimits) (c : AtomicStateCommit) : Prop := {
  co_limits : limits_wf own;
  co_image : image_wf (commit_image c);
  co_fits : image_fits own (commit_image c);
  co_hash : length (commit_after c) = 32%nat;
}.

Lemma install_spec own c r0 old d r d' :
  commit_ok own c -> same_current r0 (root d) -> latest own r0 = Ok old ->
  install fate_of random (canonical_bytes (commit_image c)) (generation_name (commit_after c)) d = (r, d') ->
  bt_sorted (dirs (root d')) /\
  match r with
  | Ok _ => latest own (root d') = Ok (Some (commit_image c))
  | Err _ => latest own (root d') = Ok old \/ latest own (root d') = Ok (Some (commit_image c))
  end.
Proof.
  intros [Wl Wi Fi Lh] S Lo R. unfold install in R. set (name := generation_name (commit_after c)) in *.
  destruct (stage_and_publish fate_of random (canonical_bytes (commit_image c)) name d)
    as [[u|e] d2] eqn:St.
  2: { rewrite (st_bind_Err _ _ _ _ _ St) in R. injection R as <- <-.
       apply (stage_and_publish_keeps r0) in St; [|done].
       split; [apply St|left; by eapply same_current_latest]. }
  rewrite (st_bind_Ok _ _ _ _ _ St) in R. pose proof (stage_and_publish_keeps r0 _ _ _ _ _ S St) as S2.
  apply (stage_and_publish_Ok r0) in St as (fs & G & Gb & Gs); [|done].
  destruct (write_head fate_of name d2) as [[v|e] d3] eqn:Wh.
  2: { rewrite (st_bind_Err _ _ _ _ _ Wh) in R. injection R as <- <-.
       apply (write_head_spec r0) in Wh; [|done].
       split; [apply Wh|left; by eapply same_current_latest]. }
  rewrite (st_bind_Ok _ _ _ _ _ Wh) in R. apply (write_head_spec r0) in Wh as M; [|done].
  assert (latest own (root d3) = Ok (Some (commit_image c))) as Ln by (by eapply latest_moved).
  assert (root d' = root d3) as -> by (by eapply (keeps_read fate_of (fun r => r = root d3)) in R).
  split; [destruct M as [_ ->]; apply S2|]. destruct r; auto.
Qed.

Lemma file_commit_spec own c d r d' old :
  commit_ok own c -> bt_sorted (dirs (root d)) -> latest own (root d) = Ok old ->
  file_commit fate_of random own c d = (r, d') ->
  bt_sorted (dirs (root d')) /\
  match r with
  | Ok (Committed _) => latest own (root d') = Ok (Some (commit_image c))
  | Ok (AlreadyCommitted _) => root d' = root d /\ admit_commit c old = Ok true
  | Err _ => latest own (root d') = Ok old \/ latest own (root d') = Ok (Some (commit_image c))
  end.
Proof.
  intros [Wl Wi Fi Lh] S Lo R. pose proof (same_current_refl _ S) as S0. unfold file_commit in R.
  destruct (max_state_bytes own <? _); [injection R as <- <-; auto|].
  destruct (load_generation fate_of own d) as [[x|e] d1] eqn:Ld.
  2: { rewrite (st_bind_Err _ _ _ _ _ Ld) in R. injection R as <- <-.
       rewrite (load_keeps own (fun r => r = root d) _ _ _ eq_refl Ld). auto. }
  rewrite (st_bind_Ok _ _ _ _ _ Ld) in R. apply load_spec in Ld as [E1 Lx].
  rewrite Lo in Lx. injection Lx as <-. unfold lift in R.
  destruct (admit_commit c old) as [already|e] eqn:Ad; cbn [map_err] in R.
  2: { injection R as <- <-. rewrite E1. auto. }
  rewrite st_bind_lift_Ok in R. destruct already; [injection R as <- <-; by rewrite E1|].
  assert (same_current (root d) (root d1)) as S1 by (by rewrite E1).
  destruct (install fate_of random (canonical_bytes (commit_image c)) (generation_name (commit_after c)) d1)
    as [[u|e] d2] eqn:Is.
  - rewrite (st_bind_Ok _ _ _ _ _ Is) in R. injection R as <- <-. by eapply install_spec in Is.
  - rewrite (st_bind_Err _ _ _ _ _ Is) in R. injection R as <- <-. by eapply install_spec in Is.
Qed.


(** *** Interrupted commits *)

Lemma publish_taken staged generation d r d' :
  bt_get generation (dirs (root d)) <> None -> publish_generation fate_of staged generation d <> (Ok r, d').
Proof.
  intros G R. unfold publish_generation in R. rewrite st_bind_get in R.
  destruct (bt_contains generation (dirs (root d))) eqn:C; [inv_disk|].
  by apply bt_contains_false in C.
Qed.

Lemma stage_taken r0 l generation d u d' :
  validate_generation_name generation = Ok tt -> bt_get generation (dirs r0) <> None ->
  same_current r0 (root d) -> stage_and_publish fate_of random l generation d <> (Ok u, d').
Proof.
  intros V G S R. unfold stage_and_publish in R. inv_disk.
  match goal with C : create_staged _ _ _ _ = _ |- _ =>
    pose proof (create_staged_keeps r0 _ _ _ _ S C) as S1; apply create_staged_Ok in C as [[y ->] _] end.
  apply with_staged_Ok in R. inv_disk.
  repeat match goal with W : write_file _ _ _ _ _ = _ |- _ =>
    pose proof (write_file_keeps r0 _ _ _ _ _ _ ltac:(eassumption) W); clear W end.
  eapply publish_taken; [|exact R]. match goal with E : root _ = root _ |- _ => rewrite E end.
  match goal with S2 : same_current r0 (root ?a) |- context [root ?a] => destruct S2 as (_ & _ & Ed) end.
  by rewrite Ed.
Qed.

Lemma install_taken r0 l generation d r d' :
  validate_generation_name generation = Ok tt -> bt_get generation (dirs r0) <> None ->
  same_current r0 (root d) -> install fate_of random l generation d = (r, d') ->
  (exists e, r = Err e) /\ same_current r0 (root d').
Proof.
  intros V G S R. unfold install in R.
  destruct (stage_and_publish fate_of random l generation d) as [[u|e] d2] eqn:St.
  - by apply (stage_taken r0) in St.
  - rewrite (st_bind_Err _ _ _ _ _ St) in R. injection R as <- <-. split; [eauto|].
    by eapply stage_and_publish_keeps.
Qed.

(** C40. A commit interrupted after its generation was published and before
    [HEAD] was moved can never be made again: from a store that has the
    generation of the commit but still points to the state before it, every
    later attempt fails, whatever the system calls do, and leaves the store as
    it was, so the block is lost to the store for good. *)
Theorem interrupted_commit_wedges own c d r d' old :
  length (commit_after c) = 32%nat -> bt_sorted (dirs (root d)) ->
  bt_get (generation_name (commit_after c)) (dirs (root d)) <> None ->
  latest own (root d) = Ok old -> admit_commit c old = Ok false ->
  file_commit fate_of random own c d = (r, d') ->
  (exists e, r = Err e) /\ bt_get (generation_name (commit_after c)) (dirs (root d')) <> None /\
  latest own (root d') = Ok old.
Proof.
  intros Lh So G Lo Ad R. pose proof (same_current_refl _ So) as S0.
  pose proof (generation_valid _ Lh) as V. unfold file_commit in R.
  destruct (max_state_bytes own <? _); [injection R as <- <-; eauto|].
  destruct (load_generation fate_of own d) as [[x|e] d1] eqn:Ld.
  2: { rewrite (st_bind_Err _ _ _ _ _ Ld) in R. injection R as <- <-.
       rewrite (load_keeps own (fun r => r = root d) _ _ _ eq_refl Ld). eauto. }
  rewrite (st_bind_Ok _ _ _ _ _ Ld) in R. apply load_spec in Ld as [E1 Lx].
  rewrite Lo in Lx. injection Lx as <-. unfold lift in R. rewrite Ad in R. cbn [map_err] in R.
  rewrite st_bind_lift_Ok in R. assert (same_current (root d) (root d1)) as S1 by (by rewrite E1).
  destruct (install fate_of random (canonical_bytes (commit_image c)) (generation_name (commit_after c)) d1)
    as [[u|e] d2] eqn:Is.
  { apply (install_taken (root d)) in Is as [[? [=]] _]; done. }
  rewrite (st_bind_Err _ _ _ _ _ Is) in R. injection R as <- <-.
  apply (install_taken (root d)) in Is as [_ S2]; [|done..].
  split_and!; [eauto|destruct S2 as (_ & _ & Ed); by rewrite Ed|by eapply same_current_latest].
Qed.
End crash_safety.

(** ** Concrete commits *)

#[local] Existing Instance short_blake3.
#[local] Existing Instances sample_hex sample_hex_laws.

Definition clean_disk : Disk := mkDisk (mkRoot [] []) 0.
Definition store_limits : StateImageLimits := mkImageLimits 512 1 16 16.
Definition no_fault (_ : nat) : fate := Succeeds.
(** The process dies when it is about to write [HEAD]. *)
Definition dies_at_head (n : nat) : fate := if decide (n = 16%nat) then Crashes 0 else Succeeds.
Definition some_random (n : nat) : bytes := replicate 16 (byte_of_Z (Z.of_nat n)).

Definition image_with (es : Entries) : StateImage :=
  mkImage "hl" 5 "tally@1" (Some (mkStateWatermark 5 (replicate 32 x05))) es.
Definition commit_of (i : StateImage) : AtomicStateCommit :=
  mkCommit (mkDelta (mkCheckpoint "hl" 5 (replicate 32 x05) (image_state_hash i) "tally@1")
              (replicate 32 x01) [] 0) i.
Definition one_entry : AtomicStateCommit := commit_of (image_with [(tally_key, [x01])]).
Definition two_entries : AtomicStateCommit :=
  commit_of (image_with [(pending_key, [x01]); (tally_key, [x01])]).

Lemma one_entry_ok : commit_ok store_limits one_entry.
Proof.
  split; [unfold limits_wf, ity_wf; cbn; lia| | |by vm_compute].
  - unfold image_wf. cbn [img_watermark img_entries one_entry commit_image commit_of image_with].
    split_and!; try by vm_compute; by repeat constructor.
  - split_and!; [by vm_compute..|]. by repeat constructor.
Qed.


Lemma interrupted_commit_wedges_witness :
  let crashed := file_commit dies_at_head some_random store_limits one_entry clean_disk in
  crashed.1 = Err Crashed /\
  let retry := file_commit no_fault some_random store_limits one_entry crashed.2 in
  retry.1 = Err (Failed Conflict) /\ latest store_limits (root retry.2) = Ok None.
Proof.
  split; [vm_compute; reflexivity|]. split; [vm_compute; reflexivity|].
  apply (interrupted_commit_wedges no_fault some_random store_limits one_entry
    (file_commit dies_at_head some_random store_limits one_entry clean_disk).2
    (file_commit no_fault some_random store_limits one_entry
       (file_commit dies_at_head some_random store_limits one_entry clean_disk).2).1 _ None).
  - vm_compute. reflexivity.
  - by repeat constructor.
  - vm_compute. discriminate.
  - vm_compute. reflexivity.
  - reflexivity.
  - vm_compute. reflexivity.
Defined.

(** The store can report success for a state it will never load again: a
    commit compares only the size of the image with its limits, while loading
    also enforces the number of entries, so an image with one entry too many
    is committed and every load afterwards fails. *)
Theorem committed_state_unloadable :
  let r := file_commit no_fault some_random store_limits two_entries clean_disk in
  (exists receipt, r.1 = Ok (Committed receipt)) /\
  (load_generation no_fault store_limits r.2).1 = Err (Failed ResourceLimit).
Proof. split; [eexists; vm_compute; reflexivity|vm_compute; reflexivity]. Qed.
