(* ===== verification/CheckpointStore.v ===== *)
(** * The checkpoint store: [storage-ports/src/checkpoint.rs] and
      [canonical-state-store/src/lib.rs]

    A checkpoint is published as a directory named by its identifier, staged
    under another name and renamed into place. The file system's calls fail and
    the process dies wherever the [fate]s say. *)

From Stdlib Require Import Strings.Byte Strings.String.
From S2P Require Import Prelude Ordering BTreeMap Bytes FixedPoint Ids Store Blocks StateImage Ledger LedgerCheckpoint Disk StateStore.

Inductive CheckpointStoreError :=
| UnsafePath
| CheckpointNotFound
| TooLarge
| UnsafeObject
| CheckpointIo (what : string)
| CheckpointConflict
| Contract (e : CheckpointError).

Record CheckpointReceipt := mkCheckpointReceipt {
  rc_checkpoint_id : CheckpointId;
  rc_block_height : BlockHeight;
  rc_state_hash : Hash;
  manifest_blake3 : Hash;
}.

Inductive CheckpointPublishDisposition :=
| CheckpointPublished (receipt : CheckpointReceipt)
| CheckpointIdentical (receipt : CheckpointReceipt).

(** The trait. *)
Class StateCheckpointStore (C : Type) := {
  checkpoint_publish : CheckpointArtifact -> st C CheckpointStoreError CheckpointPublishDisposition;
  checkpoint_load : CheckpointId -> CheckpointCompatibility -> StateImageLimits -> C ->
    result CheckpointStoreError CheckpointArtifact;
}.

#[global] Instance StateWatermark_eq_dec : EqDecision StateWatermark.
Proof. solve_decision. Defined.
#[global] Instance StateImage_eq_dec : EqDecision StateImage.
Proof. solve_decision. Defined.
#[global] Instance StateCheckpoint_eq_dec : EqDecision StateCheckpoint.
Proof. solve_decision. Defined.
#[global] Instance CheckpointArtifact_eq_dec : EqDecision CheckpointArtifact.
Proof. solve_decision. Defined.

(** ** [LocalCheckpointStore] *)

Definition MANIFEST_FILE : string := "manifest.json".
Definition MANIFEST_HASH_CONTEXT : string :=
  "hyperliquid-alpha-desk/state-checkpoint-manifest-file/v1".
Definition CHECKPOINT_PREFIX : string := "state-checkpoint-v1-".

Definition validate_checkpoint_id (id : string) : result CheckpointStoreError unit :=
  match strip_prefix CHECKPOINT_PREFIX id with
  | None => Err UnsafePath
  | Some hash =>
      if negb (zlen (as_bytes hash) =? 64) || existsb (fun b => negb (is_hex_digit b)) (as_bytes hash)
      then Err UnsafePath else Ok tt
  end.

Section local_store.
Context `{Hex} `{Blake3} `{Json ManifestMaterial} `{Json StoredManifest}.
Context (fate_of : nat -> fate) (random : nat -> bytes).
Abbreviation disk_op := (st Disk (halt CheckpointStoreError)).
Abbreviation reads what := (sys_read fate_of (CheckpointIo what)).

Definition checkpoint_receipt (a : CheckpointArtifact) (manifest : bytes) : CheckpointReceipt :=
  mkCheckpointReceipt (checkpoint_id a) (cp_block_height (art_checkpoint a))
    (cp_state_hash (art_checkpoint a)) (derive_key_hash MANIFEST_HASH_CONTEXT manifest).

Definition open_checkpoint (id : string) : disk_op Files :=
  _ ← reads "opening checkpoint generation"; d ← st_get;
  match bt_get id (dirs (root d)) with
  | None => fail CheckpointNotFound
  | Some fs => _ ← reads "inspecting checkpoint directory"; mret fs
  end.

Definition read_checkpoint_file (fs : Files) (name : string) (max_bytes : Z) : disk_op bytes :=
  _ ← reads "opening checkpoint file";
  match bt_get name fs with
  | None => fail CheckpointNotFound
  | Some l =>
      _ ← reads "inspecting checkpoint file";
      if max_bytes <? zlen l then fail TooLarge else
      _ ← reads "reading checkpoint file"; mret l
  end.

Definition load_artifact (id : string) (limits : StateImageLimits) : disk_op CheckpointArtifact :=
  _ ← lift (validate_checkpoint_id id);
  fs ← open_checkpoint id;
  manifest ← read_checkpoint_file fs MANIFEST_FILE MAX_MANIFEST_BYTES;
  state ← read_checkpoint_file fs STATE_FILE (max_state_bytes limits);
  a ← lift (map_err Contract (artifact_decode manifest state limits));
  if negb (bool_decide (checkpoint_id a = id)) then fail CheckpointConflict else mret a.

Definition local_load (own : StateImageLimits) (id : string) (compat : CheckpointCompatibility)
  (limits : StateImageLimits) : disk_op CheckpointArtifact :=
  if max_state_bytes own <? max_state_bytes limits then fail TooLarge else
  a ← load_artifact id limits;
  _ ← lift (map_err Contract (validate_compatibility a compat));
  mret a.

(** A failed call after [mkdirat] removes the directory again. *)
Definition or_remove (name : string) (p : disk_op unit) : disk_op unit := fun d =>
  match p d with
  | (Err (Failed e), d) => (_ ← sys_ignored fate_of (remove_dir name); fail e) d
  | r => r
  end.

Fixpoint stage_checkpoint (attempts : nat) : disk_op string :=
  match attempts with
  | O => fail (CheckpointIo "allocating unique checkpoint staging identity")
  | S attempts =>
      _ ← reads "generating staging identity"; d ← st_get;
      let name := staging_name (random (clock d)) in
      if bt_contains name (dirs (root d)) then stage_checkpoint attempts else
      _ ← sys_atomic fate_of (CheckpointIo "creating staged checkpoint generation") (make_dir name);
      _ ← or_remove name (
            _ ← reads "opening staged checkpoint generation";
            _ ← reads "setting staged checkpoint permissions";
            reads "inspecting checkpoint directory");
      mret name
  end.

Definition write_checkpoint_file (dir name : string) (l : bytes) : disk_op unit :=
  d ← st_get;
  if bt_contains name (dir_files dir (root d)) then fail (CheckpointIo "creating staged checkpoint file") else
  _ ← sys_atomic fate_of (CheckpointIo "creating staged checkpoint file") (put_file dir name []);
  _ ← reads "setting staged checkpoint file permissions";
  _ ← sys fate_of (CheckpointIo "writing staged checkpoint file") (fun n => put_file dir name (take n l))
        (put_file dir name l);
  reads "syncing staged checkpoint file".

(** [Drop] of an unpublished [StagedGeneration]. *)
Definition discard_checkpoint (name : string) : disk_op unit :=
  _ ← sys_ignored fate_of (unlink_file name MANIFEST_FILE);
  _ ← sys_ignored fate_of (unlink_file name STATE_FILE);
  sys_ignored fate_of (remove_dir name).

(** [renameat_with(.., NOREPLACE)]; [false] when the target exists. *)
Definition rename_checkpoint (staged id : string) : disk_op bool :=
  d ← st_get;
  if bt_contains id (dirs (root d))
  then _ ← reads "publishing checkpoint generation"; mret false
  else _ ← sys_atomic fate_of (CheckpointIo "publishing checkpoint generation") (rename_dir staged id);
       mret true.

(** The staged generation is dropped at the end of [publish], whatever the
    result, unless it was renamed. *)
Definition drop_staged {A} (name : string) (p : disk_op A) : disk_op A := fun d =>
  match p d with
  | (Err Crashed, d) => (Err Crashed, d)
  | (r, d) => (_ ← discard_checkpoint name; st_lift r) d
  end.
Definition drop_failed {A} (name : string) (p : disk_op A) : disk_op A := fun d =>
  match p d with
  | (Err (Failed e), d) => (_ ← discard_checkpoint name; fail e) d
  | r => r
  end.

Definition local_publish (own : StateImageLimits) (a : CheckpointArtifact)
  : disk_op CheckpointPublishDisposition :=
  _ ← lift (validate_checkpoint_id (checkpoint_id a));
  if max_state_bytes own <? zlen (art_state_image_bytes a) then fail TooLarge else
  manifest ← lift (map_err Contract (encode_manifest a));
  if MAX_MANIFEST_BYTES <? zlen manifest then fail TooLarge else
  let receipt := checkpoint_receipt a manifest in
  staged ← stage_checkpoint STAGING_ATTEMPTS;
  renamed ← drop_failed staged (
    _ ← write_checkpoint_file staged STATE_FILE (art_state_image_bytes a);
    _ ← write_checkpoint_file staged MANIFEST_FILE manifest;
    _ ← reads "syncing staged checkpoint directory";
    rename_checkpoint staged (checkpoint_id a));
  if renamed : bool then
    _ ← reads "syncing checkpoint root";
    mret (CheckpointPublished receipt)
  else
    drop_staged staged (
      existing ← load_artifact (checkpoint_id a) own;
      if bool_decide (existing = a) then mret (CheckpointIdentical receipt) else fail CheckpointConflict).

(** The trait's instance, with fates in which the process lives on. *)
Definition checkpoint_returned {A} (r : result (halt CheckpointStoreError) A) : result CheckpointStoreError A :=
  match r with
  | Ok a => Ok a
  | Err (Failed e) => Err e
  | Err Crashed => Err (CheckpointIo "process died")
  end.

Definition local_checkpoint_store (own : StateImageLimits) : StateCheckpointStore Disk := {|
  checkpoint_publish a d := let '(r, d) := local_publish own a d in (checkpoint_returned r, d);
  checkpoint_load id compat limits d := checkpoint_returned (local_load own id compat limits d).1;
|}.
End local_store.

(** ** Crash safety *)

(** [r] has the checkpoints of [r0]. *)
Definition same_checkpoints (r0 r : Root) : Prop :=
  bt_sorted (dirs r) /\
  forall id : string, validate_checkpoint_id id = Ok tt -> bt_get id (dirs r) = bt_get id (dirs r0).

Section crash_safety.
Context `{Hex, !HexLaws} `{Blake3} `{Json ManifestMaterial} `{Json StoredManifest, !JsonLaws StoredManifest}.
Context (fate_of : nat -> fate) (random : nat -> bytes).

Lemma staging_not_checkpoint l : validate_checkpoint_id (staging_name l) <> Ok tt.
Proof. discriminate. Qed.

Lemma same_checkpoints_insert r0 r l fs :
  same_checkpoints r0 r -> same_checkpoints r0 (mkRoot (files r) (bt_insert (staging_name l) fs (dirs r))).
Proof.
  intros [S E]. split; cbn; [by apply bt_insert_sorted|]. intros id V.
  rewrite bt_get_insert, eqb_decide. case_bool_decide; [|by apply E]. subst. by apply staging_not_checkpoint in V.
Qed.

Lemma same_checkpoints_remove r0 r l :
  same_checkpoints r0 r -> same_checkpoints r0 (mkRoot (files r) (bt_remove (staging_name l) (dirs r))).
Proof.
  intros [S E]. split; cbn; [by apply bt_remove_sorted|]. intros id V.
  rewrite bt_get_remove, eqb_decide by done. case_bool_decide; [|by apply E].
  subst. by apply staging_not_checkpoint in V.
Qed.

Lemma remove_staged_checkpoint r0 r l :
  same_checkpoints r0 r -> same_checkpoints r0 (remove_dir (staging_name l) r).
Proof. intros S. unfold remove_dir. destruct (is_empty _); [|done]. by apply same_checkpoints_remove. Qed.

(** What a reader finds, when no call fails. *)
Definition stored (own : StateImageLimits) (id : string) (r : Root)
  : result CheckpointStoreError CheckpointArtifact :=
  _ ← validate_checkpoint_id id;
  fs ← bt_get id (dirs r) ?? CheckpointNotFound;
  manifest ← bt_get (V := bytes) MANIFEST_FILE fs ?? CheckpointNotFound;
  if MAX_MANIFEST_BYTES <? zlen manifest then Err TooLarge else
  state ← bt_get (V := bytes) STATE_FILE fs ?? CheckpointNotFound;
  if max_state_bytes own <? zlen state then Err TooLarge else
  a ← map_err Contract (artifact_decode manifest state own);
  if negb (bool_decide (checkpoint_id a = id)) then Err CheckpointConflict else Ok a.

Lemma load_artifact_keeps I id limits : keeps I (load_artifact fate_of id limits).
Proof. unfold load_artifact, open_checkpoint, read_checkpoint_file. keeps_through. Qed.

Lemma read_file_Ok fs name n d l d' : read_checkpoint_file fate_of fs name n d = (Ok l, d') ->
  root d' = root d /\ bt_get name fs = Some l /\ zlen l <= n.
Proof.
  intros R. unfold read_checkpoint_file in R. inv_disk. destruct (bt_get name fs) as [l0|]; inv_disk.
  bool_to_prop. split_and!; try done. congruence.
Qed.

Lemma open_checkpoint_Ok (id : string) d fs d' : open_checkpoint fate_of id d = (Ok fs, d') ->
  root d' = root d /\ bt_get id (dirs (root d)) = Some fs.
Proof.
  intros R. unfold open_checkpoint in R. inv_disk.
  match goal with E : root ?x = root d, R : context [bt_get id (dirs (root ?x))] |- _ => rewrite E in R end.
  destruct (bt_get id (dirs (root d))) eqn:G; inv_disk. split; [congruence|done].
Qed.

Lemma load_artifact_Ok id limits d a d' : load_artifact fate_of id limits d = (Ok a, d') ->
  root d' = root d /\ stored limits id (root d) = Ok a.
Proof.
  intros R. split; [by eapply (load_artifact_keeps (fun r => r = root d))|].
  unfold load_artifact in R. inv_disk. unfold stored.
  repeat match goal with
  | R : open_checkpoint _ _ _ = _ |- _ => apply open_checkpoint_Ok in R as [? G]
  | R : read_checkpoint_file _ _ _ _ _ = _ |- _ => apply read_file_Ok in R as (? & ? & ?)
  | R : validate_checkpoint_id _ = Ok _ |- _ => rewrite R; clear R
  end.
  rewrite bind_of_Ok, G. cbn [ok_or]. rewrite bind_of_Ok.
  repeat match goal with
  | G : bt_get _ _ = Some _ |- _ => rewrite G; clear G; cbn [ok_or]; rewrite bind_of_Ok
  | L : zlen _ <= _ |- _ => rewrite (proj2 (Z.ltb_ge _ _) L); clear L
  end.
  match goal with E : map_err Contract _ = Ok _ |- _ => rewrite E end.
  match goal with E : negb _ = false |- _ => by rewrite bind_of_Ok, E end.
Qed.

Lemma or_remove_keeps r0 l p :
  keeps (same_checkpoints r0) p -> keeps (same_checkpoints r0) (or_remove fate_of (staging_name l) p).
Proof.
  intros K d r d' S R. unfold or_remove in R. destruct (p d) as [[u|[e|]] d1] eqn:Pd;
    [injection R as <- <-; by eapply K| |injection R as <- <-; by eapply K].
  eapply (keeps_bind (same_checkpoints r0)); [apply keeps_ignored| |by eapply K|exact R].
  - intros r1 S1. by apply remove_staged_checkpoint.
  - intros. apply keeps_throw.
Qed.

Lemma or_remove_Ok name p d u d' : or_remove fate_of name p d = (Ok u, d') -> p d = (Ok u, d').
Proof. unfold or_remove. destruct (p d) as [[a|[e|]] d1]; [done| |done]. intros R. inv_disk. Qed.

Lemma stage_keeps r0 n : keeps (same_checkpoints r0) (stage_checkpoint fate_of random n).
Proof.
  induction n as [|n IH]; cbn [stage_checkpoint]; keeps_through; [done|..].
  - apply keeps_atomic. intros r S1. by apply same_checkpoints_insert.
  - apply or_remove_keeps. keeps_through.
Qed.

Lemma stage_Ok n d name d' : stage_checkpoint fate_of random n d = (Ok name, d') ->
  (exists l, name = staging_name l) /\ bt_get name (dirs (root d')) = Some [].
Proof.
  revert d. induction n as [|n IH]; intros d R; cbn [stage_checkpoint] in R; inv_disk.
  destruct (bt_contains _ _); [by eapply IH|]. inv_disk. split; [by eexists|].
  match goal with R : or_remove _ _ _ _ = _ |- _ => apply or_remove_Ok in R end. inv_disk.
  repeat match goal with E : root _ = _ |- _ => rewrite E end. apply bt_get_insert_eq.
Qed.

Lemma write_keeps r0 l name bs :
  keeps (same_checkpoints r0) (write_checkpoint_file fate_of (staging_name l) name bs).
Proof.
  unfold write_checkpoint_file. keeps_through; [apply keeps_atomic|apply keeps_sys]; intros;
    by apply same_checkpoints_insert.
Qed.

Lemma write_Ok dir name l d u d' : write_checkpoint_file fate_of dir name l d = (Ok u, d') ->
  dir_files dir (root d') = bt_insert name l (bt_insert name [] (dir_files dir (root d))).
Proof.
  intros R. unfold write_checkpoint_file in R. inv_disk.
  repeat match goal with E : root _ = _ |- _ => rewrite E; clear E end.
  unfold dir_files at 1. cbn. rewrite bt_get_insert_eq. cbn. f_equal.
  unfold dir_files at 1. cbn. by rewrite bt_get_insert_eq.
Qed.

Lemma discard_checkpoint_keeps r0 l :
  keeps (same_checkpoints r0) (discard_checkpoint fate_of (staging_name l)).
Proof.
  unfold discard_checkpoint. keeps_through; apply keeps_ignored; intros r S.
  - by apply same_checkpoints_insert.
  - by apply same_checkpoints_insert.
  - by apply remove_staged_checkpoint.
Qed.

(** [r] has the checkpoints of [r0] and [id], complete, which [r0] had not. *)
Record installed (id : string) (manifest state : bytes) (r0 r : Root) : Prop := {
  in_sorted : bt_sorted (dirs r);
  in_new : bt_get id (dirs r0) = None;
  in_files : exists fs, bt_get id (dirs r) = Some fs /\
    bt_get (V := bytes) MANIFEST_FILE fs = Some manifest /\ bt_get (V := bytes) STATE_FILE fs = Some state;
  in_others : forall id' : string, validate_checkpoint_id id' = Ok tt -> id' <> id ->
    bt_get id' (dirs r) = bt_get id' (dirs r0);
}.

Definition stage_files (staged id : string) (manifest state : bytes)
  : st Disk (halt CheckpointStoreError) bool :=
  _ ← write_checkpoint_file fate_of staged STATE_FILE state;
  _ ← write_checkpoint_file fate_of staged MANIFEST_FILE manifest;
  _ ← sys_read fate_of (CheckpointIo "syncing staged checkpoint directory");
  rename_checkpoint fate_of staged id.

Lemma rename_checkpoint_spec r0 l (id : string) d r d' :
  validate_checkpoint_id id = Ok tt -> same_checkpoints r0 (root d) ->
  rename_checkpoint fate_of (staging_name l) id d = (r, d') ->
  match r with
  | Ok true => bt_get id (dirs r0) = None /\ root d' = rename_dir (staging_name l) id (root d)
  | Ok false => same_checkpoints r0 (root d') /\ root d' = root d /\ bt_get id (dirs r0) <> None
  | Err _ => same_checkpoints r0 (root d')
  end.
Proof.
  intros V [S E] R. unfold rename_checkpoint in R. rewrite st_bind_get in R.
  destruct (bt_contains id (dirs (root d))) eqn:C;
    (apply st_bind_cases in R as [(h & Sr & ->)|(u & d1 & Sr & R)]; [by apply sys_atomic_Err in Sr as ->|]);
    injection R as <- <-.
  - apply sys_read_Ok in Sr as ->. split_and!; [done|done|].
    apply bt_contains_true in C as [fs C]. rewrite <- E by done. by rewrite C.
  - apply bt_contains_false in C. apply sys_atomic_root in Sr. split; [by rewrite <- E|done].
Qed.

Lemma renamed_installed r0 l (id : string) manifest state r :
  validate_checkpoint_id id = Ok tt -> same_checkpoints r0 r -> bt_get id (dirs r0) = None ->
  dir_files (staging_name l) r = bt_insert MANIFEST_FILE manifest (bt_insert MANIFEST_FILE []
    (bt_insert STATE_FILE state (bt_insert STATE_FILE [] []))) ->
  installed id manifest state r0 (rename_dir (staging_name l) id r).
Proof.
  intros V S N F. destruct (same_checkpoints_remove r0 r l S) as [S1 E1]. cbn in S1, E1. split; cbn.
  - by apply bt_insert_sorted.
  - done.
  - eexists. rewrite bt_get_insert_eq, F. split; [done|]. by vm_compute.
  - intros id' V' Ne. rewrite bt_get_insert, eqb_decide, bool_decide_false by done. by apply E1.
Qed.

Lemma stage_files_spec r0 l (id : string) manifest state d r d' :
  validate_checkpoint_id id = Ok tt -> same_checkpoints r0 (root d) ->
  bt_get (staging_name l) (dirs (root d)) = Some [] ->
  stage_files (staging_name l) id manifest state d = (r, d') ->
  match r with
  | Ok true => installed id manifest state r0 (root d')
  | Ok false => same_checkpoints r0 (root d') /\ bt_get id (dirs r0) <> None
  | Err _ => same_checkpoints r0 (root d')
  end.
Proof.
  intros V S G R. unfold stage_files in R.
  apply st_bind_cases in R as [(h & W1 & ->)|(u & d1 & W1 & R)];
    pose proof (write_keeps r0 _ _ _ _ _ _ S W1) as S1; [done|].
  apply st_bind_cases in R as [(h & W2 & ->)|(u2 & d2 & W2 & R)];
    pose proof (write_keeps r0 _ _ _ _ _ _ S1 W2) as S2; [done|].
  apply st_bind_cases in R as [(h & W3 & ->)|(u3 & d3 & W3 & R)];
    [by apply sys_atomic_Err in W3 as ->|]. apply sys_read_Ok in W3. rewrite <- W3 in S2.
  pose proof (rename_checkpoint_spec r0 l id d3 r d' V S2 R) as Sp.
  destruct r as [[|]|h]; [|naive_solver|done]. destruct Sp as [N ->]. apply renamed_installed; [done..|].
  apply write_Ok in W1, W2. rewrite W3, W2, W1. unfold dir_files. by rewrite G.
Qed.

(** An artifact the constructor built, which encodes and fits the store. *)
Record publishable_artifact (own : StateImageLimits) (a : CheckpointArtifact) (manifest : bytes) : Prop := {
  pa_built : exists cp image archive sha256 fingerprint,
    artifact_try_new cp image archive sha256 fingerprint = Ok a;
  pa_manifest : encode_manifest a = Ok manifest;
  pa_storable : artifact_storable own a manifest;
  pa_id : validate_checkpoint_id (checkpoint_id a) = Ok tt;
}.

Lemma artifact_bytes_fit own a manifest : publishable_artifact own a manifest ->
  zlen (art_state_image_bytes a) <= max_state_bytes own.
Proof.
  intros [(cp & image & archive & sha256 & fp & B) _ [_ [_ [Fi _]] _ _ _] _].
  apply artifact_try_new_Ok in B as (_ & _ & Ea & _). rewrite Ea in Fi |- *. exact Fi.
Qed.

Lemma stored_files own a manifest (r : Root) fs :
  publishable_artifact own a manifest -> bt_get (checkpoint_id a : string) (dirs r) = Some fs ->
  bt_get (V := bytes) MANIFEST_FILE fs = Some manifest ->
  bt_get (V := bytes) STATE_FILE fs = Some (art_state_image_bytes a) ->
  stored own (checkpoint_id a) r = Ok a.
Proof.
  intros Pa G Gm Gs. pose proof (artifact_bytes_fit _ _ _ Pa) as Fi.
  destruct Pa as [(cp & image & archive & sha256 & fp & B) Em St V].
  unfold stored. rewrite V, bind_of_Ok, G. cbn [ok_or]. rewrite bind_of_Ok, Gm. cbn [ok_or].
  rewrite bind_of_Ok, (proj2 (Z.ltb_ge _ _)) by apply St. rewrite Gs. cbn [ok_or].
  rewrite bind_of_Ok, (proj2 (Z.ltb_ge _ _)) by done.
  rewrite (artifact_roundtrip _ _ _ _ _ _ _ _ B Em St). cbn [map_err]. rewrite bind_of_Ok.
  by rewrite bool_decide_true.
Qed.

Lemma stored_same own (id : string) r r' :
  (validate_checkpoint_id id = Ok tt -> bt_get id (dirs r') = bt_get id (dirs r)) ->
  stored own id r' = stored own id r.
Proof. intros E. unfold stored. destruct (validate_checkpoint_id id) as [[]|]; [|done]. by rewrite E. Qed.

Lemma drop_failed_spec {A} r0 l (p : st Disk (halt CheckpointStoreError) A) d r d' :
  drop_failed fate_of (staging_name l) p d = (r, d') ->
  (exists a, r = Ok a /\ p d = (r, d')) \/
  exists h d1, p d = (Err h, d1) /\ (exists h', r = Err h') /\
    (same_checkpoints r0 (root d1) -> same_checkpoints r0 (root d')).
Proof.
  unfold drop_failed. destruct (p d) as [[a|[e|]] d1] eqn:Pd; intros R.
  - injection R as <- <-. left. eauto.
  - right. exists (Failed e), d1. split; [done|].
    apply st_bind_cases in R as [(h & D & ->)|(u & d2 & D & R)].
    + split; [eauto|]. intros S. by eapply discard_checkpoint_keeps.
    + injection R as <- <-. split; [eauto|]. intros S. by eapply discard_checkpoint_keeps.
  - injection R as <- <-. right. eauto 10.
Qed.

Lemma drop_staged_spec {A} r0 l (p : st Disk (halt CheckpointStoreError) A) d r d' :
  drop_staged fate_of (staging_name l) p d = (r, d') -> exists r1 d1, p d = (r1, d1) /\
    (same_checkpoints r0 (root d1) -> same_checkpoints r0 (root d')) /\
    (forall a, r = Ok a -> r1 = Ok a).
Proof.
  unfold drop_staged. destruct (p d) as [r1 d1] eqn:Pd. intros R. exists r1, d1. split; [done|].
  assert ((_ ← discard_checkpoint fate_of (staging_name l); st_lift r1) d1 = (r, d') ->
    (same_checkpoints r0 (root d1) -> same_checkpoints r0 (root d')) /\ (forall a, r = Ok a -> r1 = Ok a)) as B.
  { clear R. intros R. apply st_bind_cases in R as [(h & D & ->)|(u & d2 & D & R)].
    - split; [|done]. intros S. by eapply discard_checkpoint_keeps.
    - injection R as <- <-. split; [|done]. intros S. by eapply discard_checkpoint_keeps. }
  destruct r1 as [a|[e|]]; [by apply B..|]. injection R as <- <-. done.
Qed.

(** What [local_publish] does, however it ends. *)
Lemma local_publish_spec own a manifest d r d' :
  publishable_artifact own a manifest -> bt_sorted (dirs (root d)) ->
  local_publish fate_of random own a d = (r, d') ->
  (same_checkpoints (root d) (root d') /\ (forall x, r = Ok x -> stored own (checkpoint_id a) (root d) = Ok a)) \/
  installed (checkpoint_id a) manifest (art_state_image_bytes a) (root d) (root d').
Proof.
  intros Pa So R. pose proof (artifact_bytes_fit _ _ _ Pa) as Fi. destruct Pa as [_ Em St V].
  assert (same_checkpoints (root d) (root d)) as S0 by done.
  unfold local_publish, lift in R. rewrite V in R. cbn [map_err] in R. rewrite st_bind_lift_Ok in R.
  rewrite (proj2 (Z.ltb_ge _ _)) in R by done. rewrite Em in R. cbn [map_err] in R.
  rewrite st_bind_lift_Ok, (proj2 (Z.ltb_ge _ _)) in R by apply St.
  apply st_bind_cases in R as [(h & C & ->)|(name & d1 & C & R)];
    pose proof (stage_keeps (root d) _ _ _ _ S0 C) as S1; [by left|].
  apply stage_Ok in C as [[l ->] G].
  apply st_bind_cases in R as [(h & D & ->)|(renamed & d2 & D & R)];
    apply (drop_failed_spec (root d)) in D as [(b & Eb & D)|(h1 & d3 & D & [h2 E] & K)]; try done;
    fold (stage_files (staging_name l) (checkpoint_id a) manifest (art_state_image_bytes a)) in D;
    apply (stage_files_spec (root d)) in D; try done.
  - left. split; [by apply K|done].
  - injection Eb as <-. destruct renamed.
    + right. apply st_bind_cases in R as [(h & W & ->)|(u & d3 & W & R)].
      * by apply sys_atomic_Err in W as ->.
      * injection R as <- <-. by apply sys_read_Ok in W as ->.
    + left. destruct D as [S2 _]. apply (drop_staged_spec (root d)) in R as (r1 & d3 & Ld & K & Ko).
      apply st_bind_cases in Ld as [(h & Ld & ->)|(x & d4 & Ld & Ed)].
      * pose proof (load_artifact_keeps (same_checkpoints (root d)) _ _ _ _ _ S2 Ld) as S3.
        split; [by apply K|]. intros y Y. by apply Ko in Y.
      * pose proof (load_artifact_keeps (same_checkpoints (root d)) _ _ _ _ _ S2 Ld) as S3.
        apply load_artifact_Ok in Ld as [_ Sd]. rewrite (stored_same own (checkpoint_id a) (root d)) in Sd
          by apply S2.
        case_bool_decide; injection Ed as <- <-; (split; [by apply K|]); intros y Y; [by subst|by apply Ko in Y].
Qed.

Lemma installed_stored own a manifest r0 r :
  publishable_artifact own a manifest ->
  installed (checkpoint_id a) manifest (art_state_image_bytes a) r0 r -> stored own (checkpoint_id a) r = Ok a.
Proof. intros Pa [_ _ (fs & G & Gm & Gs) _]. by eapply stored_files. Qed.

Lemma published_stored own a manifest d x d' :
  publishable_artifact own a manifest -> bt_sorted (dirs (root d)) ->
  local_publish fate_of random own a d = (Ok x, d') -> stored own (checkpoint_id a) (root d') = Ok a.
Proof.
  intros Pa So R. destruct (local_publish_spec _ _ _ _ _ _ Pa So R) as [[[_ S] K]|I].
  - rewrite (stored_same own (checkpoint_id a) (root d)) by apply S. by eapply K.
  - by eapply installed_stored.
Qed.

End crash_safety.

(** *** Retrying *)

Section retrying.
Context `{Hex, !HexLaws} `{Blake3} `{Json ManifestMaterial} `{Json StoredManifest, !JsonLaws StoredManifest}.
Context (random : nat -> bytes).
Abbreviation ok := (fun _ : nat => Succeeds).
Abbreviation disk_op := (st Disk (halt CheckpointStoreError)).

(** [p] succeeds from [d] and establishes [Q]. *)
Definition succeeds {A} (p : disk_op A) (d : Disk) (Q : A -> Root -> Prop) : Prop :=
  exists a d', p d = (Ok a, d') /\ Q a (root d').

Lemma succeeds_bind {A B} (p : disk_op A) (f : A -> disk_op B) d Q Q' :
  succeeds p d Q -> (forall a d', Q a (root d') -> succeeds (f a) d' Q') -> succeeds (p ≫= f) d Q'.
Proof.
  intros (a & d1 & E & Ha) F. destruct (F a d1 Ha) as (b & d2 & E2 & Hb).
  exists b, d2. split; [|done]. by rewrite (st_bind_Ok _ _ _ _ _ E).
Qed.

Lemma succeeds_ret {A} (a : A) d (Q : A -> Root -> Prop) : Q a (root d) -> succeeds (mret a) d Q.
Proof. intros Ha. by exists a, d. Qed.

Lemma succeeds_sys e torn effect d (Q : unit -> Root -> Prop) :
  Q tt (effect (root d)) -> succeeds (sys ok e torn effect) d Q.
Proof. intros Ha. by exists tt, (tick effect d). Qed.

Lemma succeeds_ignored effect d (Q : unit -> Root -> Prop) :
  Q tt (effect (root d)) -> succeeds (sys_ignored ok effect) d Q.
Proof. intros Ha. by exists tt, (tick effect d). Qed.

Lemma stage_succeeds n d (Q : string -> Root -> Prop) :
  (forall k, bt_get (staging_name (random k)) (dirs (root d)) = None) ->
  (forall l, Q (staging_name l) (make_dir (staging_name l) (root d))) ->
  succeeds (stage_checkpoint ok random (S n)) d Q.
Proof.
  intros F HQ. cbn [stage_checkpoint]. eapply succeeds_bind; [by apply (succeeds_sys _ _ _ _ (fun _ r => r = root d))|].
  intros [] d1 E1. rewrite <- E1 in F, HQ. exists (staging_name (random (clock d1))).
  rewrite st_bind_get, (proj2 (bt_contains_false _ _)) by apply F. eexists. split; [reflexivity|]. apply HQ.
Qed.

Lemma write_succeeds (dir name : string) (l : bytes) d (Q : unit -> Root -> Prop) :
  bt_get name (dir_files dir (root d)) = None ->
  Q tt (put_file dir name l (put_file dir name [] (root d))) ->
  succeeds (write_checkpoint_file ok dir name l) d Q.
Proof.
  intros G HQ. unfold write_checkpoint_file, succeeds.
  rewrite st_bind_get, (proj2 (bt_contains_false _ _)) by done. by do 2 eexists.
Qed.

Lemma read_succeeds (fs : Files) (name : string) max (l : bytes) d : bt_get name fs = Some l -> max <? zlen l = false ->
  succeeds (read_checkpoint_file ok fs name max) d (fun x r => x = l /\ r = root d).
Proof.
  intros G L. unfold read_checkpoint_file. rewrite G, L.
  eapply succeeds_bind; [by apply (succeeds_sys _ _ _ _ (fun _ r => r = root d))|]. intros [] d1 <-.
  eapply succeeds_bind; [by apply (succeeds_sys _ _ _ _ (fun _ r => r = root d1))|]. intros [] d2 <-.
  eapply succeeds_bind; [by apply (succeeds_sys _ _ _ _ (fun _ r => r = root d2))|]. intros [] d3 <-.
  by apply succeeds_ret.
Qed.

Lemma load_succeeds own (id : string) a d : stored own id (root d) = Ok a ->
  succeeds (load_artifact ok id own) d (fun x r => x = a /\ r = root d).
Proof.
  unfold stored. intros Sd. inv_ok.
  match goal with E : validate_checkpoint_id id = Ok ?u |- _ => destruct u; rename E into V end.
  match goal with G : bt_get id _ = Some ?x |- _ => rename G into G0, x into fs end.
  match goal with G : artifact_decode ?x ?y own = Ok a |- _ => rename G into Da, x into manifest, y into image end.
  unfold load_artifact, lift. rewrite V. cbn [map_err].
  eapply succeeds_bind; [by apply (succeeds_ret tt d (fun _ r => r = root d))|]. intros [] d1 E1.
  eapply (succeeds_bind _ _ _ (fun x r => x = fs /\ r = root d)).
  { unfold open_checkpoint.
    eapply succeeds_bind; [by apply (succeeds_sys _ _ _ _ (fun _ r => r = root d1))|]. intros [] d2 E2.
    exists fs, (tick (fun r => r) d2). rewrite st_bind_get, E2, E1, G0. cbn. by rewrite E2. }
  intros ? d2 [-> E2]. eapply succeeds_bind; [by apply read_succeeds|]. intros ? d3 [-> E3].
  eapply succeeds_bind; [by apply read_succeeds|]. intros ? d4 [-> E4].
  exists a, d4. rewrite Da. cbn [map_err]. rewrite st_bind_lift_Ok.
  match goal with E : negb _ = false |- _ => rewrite E end. split; [done|]. split; congruence.
Qed.

Lemma local_load_stored own id compat a d :
  stored own id (root d) = Ok a -> validate_compatibility a compat = Ok tt ->
  @checkpoint_load _ (local_checkpoint_store ok random own) id compat own d = Ok a.
Proof.
  intros Sd V. destruct (load_succeeds _ _ _ _ Sd) as (x & d' & L & -> & _). cbn. unfold local_load.
  rewrite Z.ltb_irrefl, (st_bind_Ok _ _ _ _ _ L), V. done.
Qed.

Lemma discard_succeeds name d : succeeds (discard_checkpoint ok name) d (fun _ _ => True).
Proof.
  unfold discard_checkpoint. repeat (eapply succeeds_bind; [by apply (succeeds_ignored _ _ (fun _ _ => True))|intros ? ? _]).
  by apply succeeds_ignored.
Qed.

Lemma drop_failed_succeeds {A} name (p : disk_op A) d Q : succeeds p d Q -> succeeds (drop_failed ok name p) d Q.
Proof. intros (x & d1 & E & HQ). exists x, d1. unfold drop_failed. by rewrite E. Qed.

Lemma drop_staged_succeeds {A} name (p : disk_op A) d Q :
  succeeds p d Q -> succeeds (drop_staged ok name p) d (fun _ _ => True).
Proof.
  intros (x & d1 & E & _). unfold drop_staged, succeeds. rewrite E.
  destruct (discard_succeeds name d1) as ([] & d2 & D & _). exists x, d2. by rewrite (st_bind_Ok _ _ _ _ _ D).
Qed.

(** Both files are written to the fresh directory and it is renamed, or the
    name is taken. *)
Lemma stage_files_succeeds l (id : string) manifest image d :
  bt_get (staging_name l) (dirs (root d)) = Some [] ->
  validate_checkpoint_id id = Ok tt -> bt_sorted (dirs (root d)) ->
  succeeds (stage_files ok (staging_name l) id manifest image) d (fun renamed r =>
    renamed = false -> bt_get id (dirs r) = bt_get id (dirs (root d)) /\ bt_get id (dirs r) <> None).
Proof.
  intros G V So. assert (id <> staging_name l) as Ne by (intros ->; by apply staging_not_checkpoint in V).
  unfold stage_files. eapply succeeds_bind.
  { apply write_succeeds; [unfold dir_files; by rewrite G|].
    instantiate (1 := fun _ r => r = put_file (staging_name l) STATE_FILE image
      (put_file (staging_name l) STATE_FILE [] (root d))). done. }
  intros [] d1 E1. eapply succeeds_bind.
  { apply write_succeeds; [rewrite E1; unfold dir_files; cbn; unfold dir_files; cbn; rewrite !bt_get_insert_eq, G; by vm_compute|].
    instantiate (1 := fun _ r => r = put_file (staging_name l) MANIFEST_FILE manifest
      (put_file (staging_name l) MANIFEST_FILE [] (root d1))). done. }
  intros [] d2 E2. eapply succeeds_bind; [by apply (succeeds_sys _ _ _ _ (fun _ r => r = root d2))|].
  intros [] d3 E3.
  assert (bt_get id (dirs (root d3)) = bt_get id (dirs (root d))) as E.
  { rewrite E3, E2, E1. cbn. by rewrite !bt_get_insert, !eqb_decide, !bool_decide_false. }
  unfold rename_checkpoint, succeeds. rewrite st_bind_get.
  destruct (bt_contains id (dirs (root d3))) eqn:C.
  - exists false, (tick (fun r => r) d3). split; [done|]. intros _. split; [exact E|].
    apply bt_contains_true in C as [fs C]. cbn. by rewrite C.
  - by do 2 eexists.
Qed.
Lemma publish_succeeds own a manifest d :
  publishable_artifact own a manifest -> bt_sorted (dirs (root d)) ->
  bt_get (checkpoint_id a : string) (dirs (root d)) = None \/ stored own (checkpoint_id a) (root d) = Ok a ->
  (forall k, bt_get (staging_name (random k)) (dirs (root d)) = None) ->
  succeeds (local_publish ok random own a) d (fun _ _ => True).
Proof.
  intros Pa So Old F. pose proof (artifact_bytes_fit _ _ _ Pa) as Fi. destruct Pa as [_ Em St V].
  unfold local_publish, lift. rewrite V, (proj2 (Z.ltb_ge _ _)), Em by done. cbn [map_err].
  eapply succeeds_bind; [by apply (succeeds_ret tt d (fun _ r => r = root d))|]. intros [] d0 E0.
  eapply succeeds_bind; [by apply (succeeds_ret manifest d0 (fun x r => x = manifest /\ r = root d0))|].
  intros ? d0' [-> E0']. rewrite (proj2 (Z.ltb_ge _ _)) by apply St. rewrite E0 in E0'.
  eapply (succeeds_bind _ _ _ (fun name r => exists l, name = staging_name l /\ r = make_dir name (root d)));
    [apply stage_succeeds; rewrite E0'; [done|by eexists]|].
  intros name d1 (l & -> & E1). assert (checkpoint_id a <> staging_name l) as Ne
    by (intros E; rewrite E in V; by apply staging_not_checkpoint in V).
  eapply succeeds_bind.
  { eapply drop_failed_succeeds, (stage_files_succeeds l (checkpoint_id a)); [|done|]; rewrite E1; cbn;
      [apply bt_get_insert_eq|by apply bt_insert_sorted]. }
  intros [|] d2 P; cbn beta in P.
  - eapply succeeds_bind; [by apply (succeeds_sys _ _ _ _ (fun _ _ => True))|]. intros [] d3 _. by apply succeeds_ret.
  - destruct (P eq_refl) as [E2 N2]. rewrite E1 in E2. cbn in E2.
    rewrite bt_get_insert, eqb_decide, bool_decide_false in E2 by done.
    destruct Old as [Old|Old]; [congruence|].
    rewrite <- (stored_same own (checkpoint_id a) (root d) (root d2)) in Old by done.
    eapply drop_staged_succeeds, succeeds_bind; [by apply load_succeeds|]. intros ? d3 [-> _].
    rewrite bool_decide_true by done. by apply (succeeds_ret _ _ (fun _ _ => True)).
Qed.

End retrying.

(** ** A concrete store *)

#[local] Existing Instance short_blake3.
#[local] Existing Instances sample_hex sample_hex_laws.
#[local] Instance published_material : Json ManifestMaterial := one_json stored_material.
#[local] Instance published_stored_json : Json StoredManifest := one_json (stored_manifest stored_artifact).

Lemma stored_artifact_publishable : publishable_artifact sample_limits stored_artifact [x7b; x7d].
Proof.
  split.
  - exists stored_checkpoint, stored_image, "archive", sha_a, sha_b. by vm_compute.
  - by vm_compute.
  - apply stored_artifact_storable.
  - by vm_compute.
Qed.

(** The process dies while it writes the manifest. *)
Definition dies_writing (n : nat) : fate := if Nat.eqb n 11 then Crashes 1 else Succeeds.
Definition other_random (_ : nat) : bytes := replicate 16 xff.


