(* ===== verification/Core.v ===== *)
(** * The core service: [services/hl-core/src/lib.rs] and [replay.rs]

    The service composes the ledger with a durable state store: a block is
    prepared, committed to the store, and only then made visible in the ledger.
    It is proved against the store's contract, which the file engine meets. *)

From Stdlib Require Import Strings.Byte Strings.String.
From S2P Require Import Prelude Ordering BTreeMap Bytes FixedPoint Ids Blocks StateImage Ledger LedgerCheckpoint Disk StateStore CheckpointStore.

(** ** Durable application *)

Inductive DurableApplyOutcome :=
| DurablyApplied (delta : StateDelta) (disposition : StateCommitDisposition)
| DurablyAlready (checkpoint : StateCheckpoint).

Inductive DurableApplyError :=
| DurableLedger (e : LedgerError)
| CommitContract (e : StateStoreError)
| DurableStore (e : StateStoreError)
| ReceiptMismatch
| PostCommitLedger (e : LedgerError).

Inductive BlockSourceError := SourceDecode (what : string) | SourceQualification | SourceIo.

Inductive LocalReplayError :=
| ReplayDurable (e : DurableApplyError)
| ReplaySource (e : BlockSourceError)
| ReplayLedger (e : LedgerError)
| ReplayStore (e : StateStoreError)
| ReplayCheckpoint (e : CheckpointStoreError)
| MidHistoryResume
| WatermarkMisaligned
| ReplayOverflow.

(** [LocalReplaySession] *)
Record Session {R S : Type} := mkSession { ledger : CanonicalLedger R; store : S }.
Arguments Session R S : clear implicits.
Arguments mkSession {R S} _ _.

Record LocalReplayReport := mkReplayReport {
  rep_applied : Z;
  rep_already_applied : Z;
  rep_last_height : option BlockHeight;
  rep_state_hash : Hash;
}.

Section durable.
Context {P R S : Type} `{EventPayload P} `{EventReducer P R} `{AtomicStateStore S} `{Blake3}.
Abbreviation session_op := (st (Session R S)).

Definition on_store {A} (m : st S StateStoreError A) : session_op StateStoreError A := fun s =>
  let '(r, store) := m (store s) in (r, mkSession (ledger s) store).
Definition on_ledger {A} (m : st (CanonicalLedger R) LedgerError A) : session_op LedgerError A := fun s =>
  let '(r, ledger) := m (ledger s) in (r, mkSession ledger (store s)).
(** [map_err] of a call that changes its receiver. *)
Definition st_map_err {T E F A} (f : E -> F) (m : st T E A) : st T F A := fun s =>
  let '(r, s) := m s in (map_err f r, s).

Definition apply_block_durably (b : BlockEnvelope P) : session_op DurableApplyError DurableApplyOutcome :=
  s ← st_get;
  outcome ← st_lift (map_err DurableLedger (prepare_block (ledger s) b));
  match outcome with
  | PreparedAlready cp => mret (DurablyAlready cp)
  | Ready prepared =>
      commit ← st_lift (map_err CommitContract
                          (commit_try_new (prepared_delta prepared) (next_state prepared)));
      disposition ← st_map_err DurableStore (on_store (store_commit commit));
      if negb (receipt_matches (disposition_receipt disposition) commit)
      then st_throw ReceiptMismatch else
      delta ← st_map_err PostCommitLedger (on_ledger (commit_prepared prepared));
      mret (DurablyApplied delta disposition)
  end.

(** [ingest_correction_record] *)
Definition ingest_correction_record (_ : Session R S) (_ : CorrectionRecord)
  : result DurableApplyError unit := Err (DurableLedger CorrectionUnimplemented).

(** ** Sessions *)

Definition session_open (chain : ChainId) (first : BlockHeight) (r : R) (lims : LedgerLimits) (s : S)
  (image_limits : StateImageLimits) : result LocalReplayError (Session R S) :=
  image ← map_err ReplayStore (store_load_latest image_limits s);
  l ← map_err ReplayLedger
        (match image with
         | Some image => try_from_state_image (P := P) image r lims
         | None => ledger_try_new (P := P) chain first r lims
         end);
  Ok (mkSession l s).

Definition apply_next (b : BlockEnvelope P) : session_op LocalReplayError DurableApplyOutcome :=
  st_map_err ReplayDurable (apply_block_durably b).

(** The loop over the blocks of the source, each item one [next_block] call. *)
Fixpoint replay_from (applied already : Z) (last : option BlockHeight)
  (source : list (result BlockSourceError (BlockEnvelope P)))
  : session_op LocalReplayError (Z * Z * option BlockHeight) :=
  match source with
  | [] => mret (applied, already, last)
  | item :: source =>
      b ← st_lift (map_err ReplaySource item);
      outcome ← apply_next b;
      match outcome with
      | DurablyApplied _ _ =>
          applied ← st_lift (int_add U64 applied 1 ?? ReplayOverflow);
          replay_from applied already (Some (block_height b)) source
      | DurablyAlready cp =>
          replay_from applied (int_saturating_add U64 already 1) (Some (cp_block_height cp)) source
      end
  end.

Definition session_replay (source : list (result BlockSourceError (BlockEnvelope P)))
  : session_op LocalReplayError LocalReplayReport :=
  s ← st_get;
  '(applied, already, last) ← replay_from 0 0 (cp_block_height <$> checkpoint (ledger s)) source;
  s ← st_get;
  mret (mkReplayReport applied already last (ledger_hash (ledger s))).
End durable.

(** ** The store's contract *)

(** What the documentation of [AtomicStateStore] promises: a successful commit
    is what a reader finds from then on, a failed one leaves the old state or
    the new one, and a load that succeeds returns what the store holds. *)
Class StoreContract (S : Type) `{AtomicStateStore S} `{Blake3} := {
  holds : S -> option StateImage -> Prop;
  admits : AtomicStateCommit -> Prop;
  contract_commit s c r s' old : admits c -> holds s old -> store_commit c s = (r, s') ->
    match r with
    | Ok d => receipt_matches (disposition_receipt d) c = true /\
        exists i, holds s' (Some i) /\ image_state_hash i = commit_after c
    | Err _ => holds s' old \/ holds s' (Some (commit_image c))
    end;
  contract_load limits s x i :
    limits_wf limits -> holds s x -> store_load_latest limits s = Ok i -> i = x;
}.

(** The file engine, with fates in which the process lives on. *)
Section file_engine.
Context `{Hex, !HexLaws} `{Blake3} (fate_of : nat -> fate) (random : nat -> bytes)
  (own : StateImageLimits).

Definition returned {A} (r : result (halt StateStoreError) A) : result StateStoreError A :=
  match r with
  | Ok a => Ok a
  | Err (Failed e) => Err e
  | Err Crashed => Err (Io "process died")
  end.

#[local] Instance file_engine : AtomicStateStore Disk := {
  store_commit c d := let '(r, d) := file_commit fate_of random own c d in (returned r, d);
  store_load_latest limits d := returned (load_latest fate_of own limits d).1;
}.

Definition file_holds (d : Disk) (x : option StateImage) : Prop :=
  limits_wf own /\ bt_sorted (dirs (root d)) /\ latest own (root d) = Ok x.

Lemma file_commit_receipt c d disp d' : file_commit fate_of random own c d = (Ok disp, d') ->
  disposition_receipt disp = mkCommitReceipt (commit_height c) (commit_block_hash c) (commit_after c).
Proof.
  intros R. unfold file_commit in R. apply st_if_throw_inv in R as [_ R]. inv_disk.
  match goal with already : bool |- _ => destruct already end; by inv_disk.
Qed.

Lemma decode_stored_Ok l limits i : limits_wf limits -> decode_stored l limits = Ok i ->
  image_wf i /\ image_fits limits i /\ canonical_bytes i = l.
Proof.
  intros L D. unfold decode_stored in D. destruct (decode_image l limits) as [j|e] eqn:E.
  - inv_ok. by apply decode_image_iff.
  - by destruct e.
Qed.

Lemma latest_unique limits limits' r i x : limits_wf limits -> limits_wf limits' ->
  latest limits r = Ok i -> latest limits' r = Ok x -> i = x.
Proof.
  intros L L' E E'. unfold latest in *. destruct (bt_get HEAD_FILE (files r)) as [h|]; [|congruence].
  inv_ok. repeat match goal with A : ?t = Some _, B : ?t = Some _ |- _ =>
    rewrite A in B; injection B as <- end.
  repeat match goal with D : decode_stored _ _ = Ok _ |- _ => apply decode_stored_Ok in D as (? & ? & ?); [|done] end.
  f_equal. eapply canonical_bytes_inj; [exact L|exact L'|done..|]. congruence.
Qed.

Definition file_admits (c : AtomicStateCommit) : Prop :=
  commit_ok own c /\ image_state_hash (commit_image c) = commit_after c.

Lemma file_commit_contract c d r d' old :
  file_admits c -> file_holds d old -> store_commit c d = (r, d') ->
  match r with
  | Ok disp => receipt_matches (disposition_receipt disp) c = true /\
      exists i, file_holds d' (Some i) /\ image_state_hash i = commit_after c
  | Err _ => file_holds d' old \/ file_holds d' (Some (commit_image c))
  end.
Proof.
  intros [C Hc] (Wl & So & Lo) R. cbn in R. unfold file_holds.
  destruct (file_commit fate_of random own c d) as [r0 d1] eqn:F. injection R as <- <-.
  pose proof (file_commit_spec fate_of random own c d r0 d1 old C So Lo F) as [S1 Sp].
  destruct r0 as [disp|[e|]]; cbn [returned]; [|destruct Sp; auto..].
  rewrite (file_commit_receipt _ _ _ _ F). unfold receipt_matches. cbn.
  rewrite Z.eqb_refl, !bool_decide_true by done. split; [done|].
  destruct disp as [rc|rc]; [by exists (commit_image c)|]. destruct Sp as [Er Ad].
  destruct old as [i|]; cbn in Ad; [|done]. exists i. rewrite Er. inv_ok.
  destruct (_ =? _); [|by destruct (_ || _)]. case_bool_decide; [done|]. by cbn in *.
Qed.

Lemma file_load_contract limits d x i :
  limits_wf limits -> file_holds d x -> store_load_latest limits d = Ok i -> i = x.
Proof.
  intros L (Wl & So & Lo) R. cbn in R. unfold load_latest in R.
  destruct (_ <? _); [done|]. destruct (load_generation fate_of limits d) as [[y|[|]] d'] eqn:E; try done.
  cbn in R. injection R as ->. apply load_spec in E as [_ E].
  eapply latest_unique; [exact L|exact Wl|exact E|exact Lo].
Qed.

#[local] Instance file_contract : StoreContract Disk := {
  holds := file_holds;
  admits := file_admits;
  contract_commit d c r d' old := file_commit_contract c d r d' old;
  contract_load := file_load_contract;
}.
End file_engine.

(** ** Theory of durable application *)

Section durable_theory.
Context {P R S : Type} `{EventPayload P} `{EventReducer P R} `{AtomicStateStore S} `{Blake3}.
Implicit Types (b : BlockEnvelope P) (s : Session R S) (l : CanonicalLedger R).

Definition prepared_commit (p : PreparedBlock) : AtomicStateCommit :=
  mkCommit (prepared_delta p) (next_state p).
Definition prepared_next l (p : PreparedBlock) : CanonicalLedger R :=
  mkLedger (reducer l) (limits l) (next_state p) (after_state_hash (prepared_delta p)).

(** A prepared block passes the commit's own checks and, as long as nothing
    else is applied, the ledger's. *)
Lemma prepared_commits l b p : prepare_block l b = Ok (Ready p) ->
  commit_try_new (prepared_delta p) (next_state p) = Ok (prepared_commit p) /\
  commit_prepared p l = (Ok (prepared_delta p), prepared_next l p) /\
  apply_block b l = (Ok (Applied (prepared_delta p)), prepared_next l p).
Proof.
  intros Pr.
  assert (commit_prepared p l = (Ok (prepared_delta p), prepared_next l p)) as C.
  { apply prepare_block_Ok in Pr as (_ & w & _ & _ & _ & ->).
    unfold commit_prepared. rewrite st_bind_get. cbn. by rewrite bool_decide_true. }
  split_and!; [|exact C|].
  - apply prepare_block_Ok in Pr as (_ & w & _ & _ & _ & ->).
    unfold commit_try_new. cbn. by rewrite !bool_decide_true.
  - unfold apply_block. rewrite st_bind_get, Pr, st_bind_lift_Ok. by rewrite (st_bind_Ok _ _ _ _ _ C).
Qed.

(** The whole of a durable application, by what the ledger prepares and what
    the store answers. *)
Lemma apply_block_durably_eq b s : apply_block_durably b s =
  match prepare_block (ledger s) b with
  | Err e => (Err (DurableLedger e), s)
  | Ok (PreparedAlready cp) => (Ok (DurablyAlready cp), s)
  | Ok (Ready p) =>
      match store_commit (prepared_commit p) (store s) with
      | (Err e, st) => (Err (DurableStore e), mkSession (ledger s) st)
      | (Ok d, st) =>
          if receipt_matches (disposition_receipt d) (prepared_commit p)
          then (Ok (DurablyApplied (prepared_delta p) d), mkSession (prepared_next (ledger s) p) st)
          else (Err ReceiptMismatch, mkSession (ledger s) st)
      end
  end.
Proof.
  unfold apply_block_durably. rewrite st_bind_get.
  destruct (prepare_block (ledger s) b) as [[p|cp]|e] eqn:Pr; cbn [map_err]; [|done..].
  pose proof (prepared_commits _ _ _ Pr) as (Ct & Cp & _).
  rewrite st_bind_lift_Ok, Ct. cbn [map_err]. rewrite st_bind_lift_Ok.
  assert (st_map_err DurableStore (on_store (store_commit (prepared_commit p))) s =
    let '(r, st) := store_commit (prepared_commit p) (store s) in
    (map_err DurableStore r, mkSession (ledger s) st)) as Sm
    by (unfold st_map_err, on_store; by destruct (store_commit _ _)).
  destruct (store_commit _ _) as [[d|e] st]; cbn [map_err] in Sm.
  - rewrite (st_bind_Ok _ _ _ _ _ Sm). destruct (receipt_matches _ _); cbn [negb]; [|done].
    unfold mbind, st_bind, st_map_err, on_ledger. cbn [ledger store]. by rewrite Cp.
  - by rewrite (st_bind_Err _ _ _ _ _ Sm).
Qed.


(** Applying a block again to the ledger it led to. *)
Lemma reapply_block l b d l' : ledger_inv l -> apply_block b l = (Ok (Applied d), l') ->
  apply_block b l' = (Ok (AlreadyApplied (delta_checkpoint d)), l').
Proof.
  intros I A. pose proof (applied_block_spec _ _ _ _ I A) as Sp.
  destruct (as_admitted _ _ _ _ Sp) as [_ Cl].
  destruct (apply_block_again l b _ l' b I A eq_refl eq_refl Cl) as (cp & Cp & _ & ->).
  rewrite (as_checkpoint _ _ _ _ Sp) in Cp. injection Cp as <-. by rewrite decide_True.
Qed.

(** A restart neither loses nor repeats a block. When the process stops
    while applying a block, whatever of the two states the store was left with,
    reopening gives the ledger before or after the block, and offering the
    block to that ledger again gives in both cases the ledger that an
    undisturbed application gives. *)
Theorem restart_resumes_exactly `{!StoreContract S} `{!ReducerTyped P R} l b d l' st x chain first
    image_limits s :
  ledger_inv l -> block_typed b -> apply_block b l = (Ok (Applied d), l') ->
  limits_wf image_limits -> holds st (Some x) -> x = state l \/ x = state l' ->
  session_open (P := P) chain first (reducer l) (limits l) st image_limits = Ok s ->
  store s = st /\
  (ledger s = l /\ apply_block b (ledger s) = (Ok (Applied d), l') \/
   ledger s = l' /\ apply_block b (ledger s) = (Ok (AlreadyApplied (delta_checkpoint d)), l')).
Proof.
  intros I B A Wl Ho Hx O. pose proof (applied_inv _ _ _ _ I B A) as I'.
  pose proof (as_same _ _ _ _ (applied_block_spec _ _ _ _ I A)) as [Er El].
  unfold session_open in O. destruct (store_load_latest image_limits st) as [i|e] eqn:L; [|done].
  apply (contract_load _ _ _ _ Wl Ho) in L as ->. cbn in O.
  destruct Hx as [->| ->].
  - rewrite (restore_image l I) in O. cbn in O. injection O as <-. auto.
  - rewrite <- Er, <- El, (restore_image l' I') in O. cbn in O. injection O as <-. cbn.
    split; [done|]. right. split; [done|]. by apply (reapply_block l).
Qed.

(** *** Replaying a source *)

Lemma durable_apply_ledger b s r s' : apply_block_durably b s = (r, s') ->
  match r with
  | Ok (DurablyApplied d _) => apply_block b (ledger s) = (Ok (Applied d), ledger s')
  | Ok (DurablyAlready cp) => apply_block b (ledger s) = (Ok (AlreadyApplied cp), ledger s')
  | Err _ => ledger s' = ledger s
  end.
Proof.
  rewrite apply_block_durably_eq. destruct (prepare_block (ledger s) b) as [[p|cp]|e] eqn:Pr.
  - destruct (prepared_commits _ _ _ Pr) as (_ & _ & Ap).
    destruct (store_commit _ _) as [[d|e] st]; [destruct (receipt_matches _ _)|]; by intros [= <- <-].
  - intros [= <- <-]. unfold apply_block. by rewrite st_bind_get, Pr.
  - by intros [= <- <-].
Qed.

(** What replaying [bs], the blocks [rest] leaves of a source, did to [l]. *)
Record replayed (source : list (result BlockSourceError (BlockEnvelope P))) l
    (bs : list (BlockEnvelope P)) (rest : list (result BlockSourceError (BlockEnvelope P)))
    (rs : list (BlockEnvelope P * result LedgerError ApplyOutcome)) l' : Prop := {
  rp_source : source = (Ok <$> bs) ++ rest;
  rp_applied : apply_blocks bs l = (rs, l');
  rp_all : Forall (fun br => exists o, br.2 = Ok o) rs;
}.

Lemma replayed_nil rest l : replayed rest l [] rest [] l.
Proof. by split. Qed.

Lemma replayed_cons source l b o l1 bs rest rs l' :
  apply_block b l = (Ok o, l1) -> replayed source l1 bs rest rs l' ->
  replayed (Ok b :: source) l (b :: bs) rest ((b, Ok o) :: rs) l'.
Proof.
  intros A [-> Ap Al]. split; [done| |constructor; eauto]. cbn. by rewrite A, Ap.
Qed.

Lemma already_height b l cp l' :
  apply_block b l = (Ok (AlreadyApplied cp), l') -> cp_block_height cp = block_height b.
Proof.
  intros (_ & _ & Cp & W)%apply_block_Ok. unfold checkpoint in Cp. rewrite W in Cp.
  cbn in Cp. by injection Cp as <-.
Qed.

Lemma replay_from_spec source a al last s r s' :
  0 <= al <= ity_max U64 -> replay_from a al last source s = (r, s') ->
  exists bs rest rs, replayed source (ledger s) bs rest rs (ledger s') /\
  match r with
  | Ok (a', al', last') => rest = [] /\ a' = a + zlen (applied_blocks rs) /\
      al' = Z.min (ity_max U64) (al + (zlen bs - zlen (applied_blocks rs))) /\
      last' = fold_left (fun _ b => Some (block_height b)) bs last
  | Err (ReplaySource e) => exists rest', rest = Err e :: rest'
  | Err (ReplayDurable _) => exists b rest', rest = Ok b :: rest'
  | Err ReplayOverflow => ity_max U64 < a + zlen (applied_blocks rs) \/ a < 0
  | Err _ => False
  end.
Proof.
  revert a al last s. induction source as [|[b|e] source IH]; intros a al last s Hal Rn.
  - injection Rn as <- <-. exists [], [], []. split; [apply replayed_nil|].
    cbn [applied_blocks]. rewrite zlen_nil. split_and!; try done; lia.
  - cbn [replay_from map_err] in Rn. rewrite st_bind_lift_Ok in Rn.
    assert (apply_next b s = let '(r, s1) := apply_block_durably b s in (map_err ReplayDurable r, s1))
      as An by done.
    destruct (apply_block_durably b s) as [r1 s1] eqn:D. apply durable_apply_ledger in D.
    destruct r1 as [[d disp|cp]|e]; cbn [map_err] in An.
    + rewrite (st_bind_Ok _ _ _ _ _ An) in Rn. destruct (int_add U64 a 1) as [a1|] eqn:Ea.
      * cbn [ok_or] in Rn. rewrite st_bind_lift_Ok in Rn. apply int_try_Some in Ea as [-> _].
        destruct (IH _ _ _ _ Hal Rn) as (bs & rest & rs & Rp & Sp).
        exists (b :: bs), rest, ((b, Ok (Applied d)) :: rs).
        split; [by eapply replayed_cons|]. cbn [applied_blocks]. rewrite !zlen_cons.
        destruct r as [[[a' al'] last']|[]]; try done; try (destruct Sp; lia).
        destruct Sp as (-> & -> & -> & ->). split_and!; try done; lia.
      * injection Rn as <- <-. exists [b], source, [(b, Ok (Applied d))].
        split; [eapply replayed_cons; [exact D|apply replayed_nil]|].
        apply int_try_None in Ea. unfold ity_wf in Ea. change (ity_min U64) with 0 in Ea.
        cbn [applied_blocks]. rewrite zlen_cons, zlen_nil. lia.
    + rewrite (st_bind_Ok _ _ _ _ _ An) in Rn.
      assert (0 <= int_saturating_add U64 al 1 <= ity_max U64) as Hs
        by (unfold int_saturating_add; cbn in *; lia).
      destruct (IH _ _ _ _ Hs Rn) as (bs & rest & rs & Rp & Sp).
      exists (b :: bs), rest, ((b, Ok (AlreadyApplied cp)) :: rs).
      split; [by eapply replayed_cons|]. cbn [applied_blocks]. rewrite !zlen_cons.
      destruct r as [[[a' al'] last']|[]]; try done.
      destruct Sp as (-> & -> & -> & ->). split_and!; try done.
      * unfold int_saturating_add, zlen. pose proof (applied_blocks_length _ _ _ _ (rp_applied _ _ _ _ _ _ Rp)).
        cbn in *. lia.
      * by rewrite (already_height _ _ _ _ D).
    + rewrite (st_bind_Err _ _ _ _ _ An) in Rn. injection Rn as <- <-.
      exists [], (Ok b :: source), []. rewrite D. split; [apply replayed_nil|eauto].
  - injection Rn as <- <-. exists [], (Err e :: source), []. split; [apply replayed_nil|eauto].
Qed.

(** C25. A replay leaves the ledger exactly as applying the blocks of the source
    one after the other does. If it succeeds, every block of the source was
    applied or found applied, and the report counts them, names the last height
    and carries the ledger's hash. If it fails, it stops at the item that
    failed, a source error or a block whose application failed, with every
    block before it applied and none after. *)
Theorem session_replay_exact source s r s' : session_replay source s = (r, s') ->
  exists bs rest rs, replayed source (ledger s) bs rest rs (ledger s') /\
  match r with
  | Ok report => rest = [] /\ rep_applied report = zlen (applied_blocks rs) /\
      rep_already_applied report = Z.min (ity_max U64) (zlen bs - zlen (applied_blocks rs)) /\
      rep_last_height report = fold_left (fun _ b => Some (block_height b)) bs
                                 (cp_block_height <$> checkpoint (ledger s)) /\
      rep_state_hash report = ledger_hash (ledger s')
  | Err (ReplaySource e) => exists rest', rest = Err e :: rest'
  | Err (ReplayDurable _) => exists b rest', rest = Ok b :: rest'
  | Err ReplayOverflow => ity_max U64 < zlen (applied_blocks rs)
  | Err _ => False
  end.
Proof.
  unfold session_replay. rewrite st_bind_get. intros Rn.
  destruct (replay_from 0 0 (cp_block_height <$> checkpoint (ledger s)) source s) as [r1 s1] eqn:E.
  assert (0 <= 0 <= ity_max U64) as Hz by done.
  destruct (replay_from_spec _ _ _ _ _ _ _ Hz E) as (bs & rest & rs & Rp & Sp).
  destruct r1 as [[[a al] last]|e].
  - rewrite (st_bind_Ok _ _ _ _ _ E) in Rn. injection Rn as <- <-. exists bs, rest, rs.
    split; [done|]. by destruct Sp as (-> & -> & -> & ->).
  - rewrite (st_bind_Err _ _ _ _ _ E) in Rn. injection Rn as <- <-. exists bs, rest, rs.
    split; [done|]. destruct e; try done. lia.
Qed.
End durable_theory.

(** ** Concrete sessions *)

#[local] Existing Instance short_blake3.
#[local] Existing Instances sample_hex sample_hex_laws.
Definition core_limits : StateImageLimits := mkImageLimits 4096 16 64 128.
Definition core_ledger : CanonicalLedger TallyReducer :=
  let image := image_empty "hl" 5 "tally@1" in
  mkLedger Tally tally_limits image (image_state_hash image).
#[local] Instance core_store : AtomicStateStore Disk := file_engine no_fault some_random core_limits.
#[local] Instance core_contract : StoreContract Disk := file_contract no_fault some_random core_limits.
Definition core_session : Session TallyReducer Disk := mkSession core_ledger clean_disk.
Definition core_prepared : PreparedBlock :=
  match prepare_block core_ledger (ledger_block 5 x05) with
  | Ok (Ready p) => p
  | _ => mkPrepared (state core_ledger) tally_delta
  end.
Definition core_next : CanonicalLedger TallyReducer := prepared_next core_ledger core_prepared.

Lemma core_prepare_block : prepare_block core_ledger (ledger_block 5 x05) = Ok (Ready core_prepared).
Proof. vm_compute. reflexivity. Qed.

Lemma core_limits_wf : limits_wf core_limits.
Proof. unfold limits_wf, ity_wf. cbn. lia. Qed.

Lemma core_ledger_inv : ledger_inv core_ledger.
Proof. apply (ledger_try_new_inv "hl" 5 Tally tally_limits); by vm_compute. Qed.

Lemma core_block_typed : block_typed (ledger_block 5 x05).
Proof. by vm_compute. Qed.

Lemma core_applies :
  apply_block (ledger_block 5 x05) core_ledger = (Ok (Applied (prepared_delta core_prepared)), core_next).
Proof. apply prepared_commits, core_prepare_block. Qed.

Lemma core_admits : admits (prepared_commit core_prepared).
Proof.
  split; [split|by vm_compute].
  - apply core_limits_wf.
  - apply (applied_inv _ _ _ _ core_ledger_inv core_block_typed core_applies).
  - split_and!; [by vm_compute..|]. vm_compute. repeat constructor; discriminate.
  - by vm_compute.
Qed.


(** The process died during the commit, with the new state in the store. *)
Definition core_crashed : Disk := (store_commit (prepared_commit core_prepared) clean_disk).2.

Lemma restart_resumes_exactly_witness : exists s,
  session_open (P := unit) "hl" 5 Tally tally_limits core_crashed core_limits = Ok s /\
  ledger s = core_next /\
  exists cp, apply_block (ledger_block 5 x05) (ledger s) = (Ok (AlreadyApplied cp), core_next).
Proof.
  destruct (session_open (P := unit) "hl" 5 Tally tally_limits core_crashed core_limits) as [s|] eqn:O;
    [|vm_compute in O; discriminate].
  exists s. split; [done|].
  destruct (restart_resumes_exactly core_ledger (ledger_block 5 x05) (prepared_delta core_prepared) core_next
    core_crashed (state core_next) "hl" 5 core_limits s) as (_ & [[E _]|[E A]]).
  - apply core_ledger_inv.
  - apply core_block_typed.
  - apply core_applies.
  - apply core_limits_wf.
  - split_and!; [apply core_limits_wf|by repeat constructor|by vm_compute].
  - by right.
  - exact O.
  - vm_compute in O. injection O as <-. vm_compute in E. discriminate.
  - split; [exact E|eauto].
Defined.

Definition core_source : list (BlockEnvelope unit) :=
  [ledger_block 5 x05; ledger_block 5 x05; ledger_block 6 x06].

Lemma session_replay_exact_witness : exists report s',
  session_replay (Ok <$> core_source) core_session = (Ok report, s') /\
  rep_applied report = 2 /\ ledger s' = (apply_blocks core_source core_ledger).2.
Proof.
  destruct (session_replay (Ok <$> core_source) core_session) as [r s'] eqn:E.
  destruct (session_replay_exact _ _ _ _ E) as (bs & rest & rs & [Es Ap _] & Sp).
  destruct r as [report|]; [|vm_compute in E; discriminate]. exists report, s'.
  destruct Sp as (-> & Ea & _). rewrite app_nil_r in Es.
  apply (inj (fmap Ok)) in Es as <-.
  cbn [ledger core_session] in Ap. rewrite Ap. split; [done|]. split; [|done].
  rewrite Ea. apply (f_equal fst) in Ap. cbn [fst] in Ap. rewrite <- Ap. by vm_compute.
Defined.
