(* ===== verification/Runtime.v ===== *)
(** * The runtime around the session: [services/hl-core/src/health.rs],
      [input.rs], [reconciliation.rs], [checkpoint.rs], [state_runtime.rs] and
      [publisher.rs]

    Which inputs may enter the ledger, how a runtime is opened from genesis,
    from the durable state or from a checkpoint, and the health that gates the
    publication of state deltas. *)

From Stdlib Require Import Strings.Byte Strings.String.
From S2P Require Import Prelude Ordering BTreeMap Bytes FixedPoint Ids Store Blocks StateImage Publication Ledger LedgerCheckpoint Disk StateStore CheckpointStore Core.

(** ** Health: [health.rs] *)

Inductive HealthState := Green | Amber | Red.

Definition health_wire_name (h : HealthState) : string :=
  match h with Green => "GREEN" | Amber => "AMBER" | Red => "RED" end.
Definition suppresses_publication (h : HealthState) : bool :=
  match h with Red => true | _ => false end.

Record FeatureHealth := mkHealth { health_state : HealthState; health_reason : string }.

Definition health_green : FeatureHealth := mkHealth Green "core.health.green".

(** The three observers have one body; [reason] is the one each of them sets
    and looks for. *)
Definition observe (reason : string) (raised : bool) (h : FeatureHealth) : FeatureHealth :=
  if raised then mkHealth Red reason
  else if String.eqb (health_reason h) reason then health_green else h.
Definition observe_material_divergence : bool -> FeatureHealth -> FeatureHealth :=
  observe "core.health.material_divergence".
Definition observe_disk_pressure : bool -> FeatureHealth -> FeatureHealth :=
  observe "core.health.disk_pressure".
Definition observe_backlog : bool -> FeatureHealth -> FeatureHealth := observe "core.health.backlog".

Inductive DiskPressureError :=
| InvalidReserve
| ProbeFailed
| Exhausted (available required : Z).

(** [DiskReserve]: the probe and the reserve. *)
Definition reserve_try_new (reserve_bytes : Z) : result DiskPressureError Z :=
  if reserve_bytes =? 0 then Err InvalidReserve else Ok reserve_bytes.
Definition reserve_ensure (available_bytes : result DiskPressureError Z) (reserve_bytes : Z)
  : result DiskPressureError Z :=
  available ← available_bytes;
  if available <? reserve_bytes then Err (Exhausted available reserve_bytes) else Ok available.

(** ** Input subjects: [input.rs] *)

Definition HEALTH_DATA_SUBJECT : string := "hl.v1.health.data".
Definition HEALTH_MODEL_SUBJECT : string := "hl.v1.health.model".

Inductive CoreInputSubject :=
| CommittedSubject (s : CanonicalSubject)
| BlockProvisional
| SnapshotAccount
| SnapshotMarket
| SnapshotEcosystem
| HealthData
| HealthSource
| HealthModel.

Definition input_parse (value : string) : result BlockMarkerError CoreInputSubject :=
  match subject_parse value with
  | Ok committed => Ok (CommittedSubject committed)
  | Err _ =>
      let equals := String.eqb value in
      if equals BLOCK_PROVISIONAL_SUBJECT then Ok BlockProvisional else
      if equals SNAPSHOT_ACCOUNT_SUBJECT then Ok SnapshotAccount else
      if equals SNAPSHOT_MARKET_SUBJECT then Ok SnapshotMarket else
      if equals SNAPSHOT_ECOSYSTEM_SUBJECT then Ok SnapshotEcosystem else
      if equals HEALTH_DATA_SUBJECT then Ok HealthData else
      if equals HEALTH_SOURCE_SUBJECT then Ok HealthSource else
      if equals HEALTH_MODEL_SUBJECT then Ok HealthModel else Err UnexpectedSubject
  end.

Definition input_as_str (s : CoreInputSubject) : string :=
  match s with
  | CommittedSubject BlockCommitted => BLOCK_COMMITTED_SUBJECT
  | CommittedSubject EventFill => "hl.v1.event.fill"
  | CommittedSubject EventOrder => "hl.v1.event.order"
  | CommittedSubject EventLedger => "hl.v1.event.ledger"
  | CommittedSubject EventMarketMeta => "hl.v1.event.market_meta"
  | CommittedSubject EventOracle => "hl.v1.event.oracle"
  | BlockProvisional => BLOCK_PROVISIONAL_SUBJECT
  | SnapshotAccount => SNAPSHOT_ACCOUNT_SUBJECT
  | SnapshotMarket => SNAPSHOT_MARKET_SUBJECT
  | SnapshotEcosystem => SNAPSHOT_ECOSYSTEM_SUBJECT
  | HealthData => HEALTH_DATA_SUBJECT
  | HealthSource => HEALTH_SOURCE_SUBJECT
  | HealthModel => HEALTH_MODEL_SUBJECT
  end.

Definition can_advance_committed_watermark (s : CoreInputSubject) : bool :=
  match s with CommittedSubject BlockCommitted => true | _ => false end.
Definition is_provisional_lane (s : CoreInputSubject) : bool :=
  match s with
  | BlockProvisional | SnapshotAccount | SnapshotMarket | SnapshotEcosystem => true
  | _ => false
  end.

(** ** Reconciliation: [reconciliation.rs] *)

Inductive InputDisposition := CommittedApply | ReconcileOnly | Quarantine.

Definition from_subject (s : CoreInputSubject) : InputDisposition :=
  match s with
  | CommittedSubject _ => if can_advance_committed_watermark s then CommittedApply else ReconcileOnly
  | HealthData | HealthSource | HealthModel => ReconcileOnly
  | BlockProvisional | SnapshotAccount | SnapshotMarket | SnapshotEcosystem => Quarantine
  end.
Definition may_enter_ledger (d : InputDisposition) : bool :=
  match d with CommittedApply => true | _ => false end.

Record QuarantineRecord := mkQuarantine { quarantine_subject : CoreInputSubject; quarantine_reason : string }.
Record ReconciliationInbox := mkInbox { quarantined : list QuarantineRecord; reconciled : Z }.
Definition inbox_empty : ReconciliationInbox := mkInbox [] 0.

Definition inbox_observe (s : CoreInputSubject) (i : ReconciliationInbox)
  : InputDisposition * ReconciliationInbox :=
  let disposition := from_subject s in
  (disposition,
   match disposition with
   | CommittedApply => i
   | ReconcileOnly => mkInbox (quarantined i) (int_saturating_add U64 (reconciled i) 1)
   | Quarantine =>
       let reason := if is_provisional_lane s then "core.quarantine.provisional_or_snapshot"
                     else "core.quarantine.non_committed" in
       mkInbox (quarantined i ++ [mkQuarantine s reason]) (reconciled i)
   end).

(** ** The runtime: [checkpoint.rs] and [state_runtime.rs] *)

Inductive ResumeMode := Genesis | Durable | FromCheckpoint (id : CheckpointId).

Record StateRuntime {R S : Type} := mkRuntime {
  session : Session R S;
  genesis_height : BlockHeight;
  rt_health : FeatureHealth;
  reconciliation : ReconciliationInbox;
}.
Arguments StateRuntime R S : clear implicits.
Arguments mkRuntime {R S} _ _ _ _.

Definition align_watermarks (block_height archive_height state_height : BlockHeight)
  : result LocalReplayError unit :=
  if (block_height =? archive_height) && (archive_height =? state_height)
  then Ok tt else Err WatermarkMisaligned.

Definition admit_resume_height (genesis requested : BlockHeight) (has_checkpoint : bool)
  : result LocalReplayError unit :=
  if (requested =? genesis) || has_checkpoint then Ok tt else Err MidHistoryResume.

Section runtime.
Context {P R S C : Type} `{EventPayload P} `{EventReducer P R} `{AtomicStateStore S} `{Blake3}.
Context `{StateCheckpointStore C}.

Definition load_checkpoint_ledger (c : C) (id : CheckpointId) (compat : CheckpointCompatibility)
  (r : R) (lims : LedgerLimits) (image_limits : StateImageLimits)
  : result LocalReplayError (CanonicalLedger R) :=
  artifact ← map_err ReplayCheckpoint (checkpoint_load id compat image_limits c);
  map_err ReplayLedger (try_from_state_image (P := P) (art_state_image artifact) r lims).

Definition publish_checkpoint (a : CheckpointArtifact) : st C LocalReplayError unit :=
  _ ← st_map_err ReplayCheckpoint (checkpoint_publish a);
  mret tt.

Definition open_session (chain : ChainId) (genesis : BlockHeight) (r : R) (lims : LedgerLimits)
  (store : S) (image_limits : StateImageLimits) (mode : ResumeMode)
  (checkpoints : option (C * CheckpointCompatibility)) : result LocalReplayError (Session R S) :=
  match mode with
  | Genesis =>
      latest ← map_err ReplayStore (store_load_latest image_limits store);
      if match latest with Some _ => true | None => false end then Err MidHistoryResume else
      session_open (P := P) chain genesis r lims store image_limits
  | Durable => session_open (P := P) chain genesis r lims store image_limits
  | FromCheckpoint id =>
      '(c, compat) ← checkpoints ?? MidHistoryResume;
      l ← load_checkpoint_ledger c id compat r lims image_limits;
      latest ← map_err ReplayStore (store_load_latest image_limits store);
      if match latest with
         | Some image => negb (bool_decide (image_state_hash image = ledger_hash l))
         | None => false
         end
      then Err (ReplayStore Conflict) else
      Ok (mkSession l store)
  end.

Definition runtime_open (chain : ChainId) (genesis : BlockHeight) (r : R) (lims : LedgerLimits)
  (store : S) (image_limits : StateImageLimits) (mode : ResumeMode)
  (checkpoints : option (C * CheckpointCompatibility)) : result LocalReplayError (StateRuntime R S) :=
  s ← open_session chain genesis r lims store image_limits mode checkpoints;
  _ ← match checkpoint (ledger s) with
      | Some _ => Ok tt
      | None =>
          next ← map_err ReplayLedger (next_height (ledger s));
          if negb (next =? genesis) then Err MidHistoryResume else Ok tt
      end;
  Ok (mkRuntime s genesis health_green inbox_empty).

Definition on_session {E A} (m : st (Session R S) E A) : st (StateRuntime R S) E A := fun rt =>
  let '(r, s) := m (session rt) in
  (r, mkRuntime s (genesis_height rt) (rt_health rt) (reconciliation rt)).

Definition apply_committed (b : BlockEnvelope P) (r : ArchiveReceipt)
  : st (StateRuntime R S) LocalReplayError DurableApplyOutcome :=
  _ ← st_lift (align_watermarks (block_height b) (receipt_block_height r) (block_height b));
  if negb (bool_decide (receipt_canonical_block_hash r = canonical_block_hash b))
  then st_throw WatermarkMisaligned else
  outcome ← on_session (apply_next b);
  match outcome with
  | DurablyApplied _ _ =>
      rt ← st_get;
      state_height ← st_lift ((cp_block_height <$> checkpoint (ledger (session rt))) ?? WatermarkMisaligned);
      _ ← st_lift (align_watermarks (block_height b) (receipt_block_height r) state_height);
      mret outcome
  | DurablyAlready _ => mret outcome
  end.

Definition ingest_subject (s : CoreInputSubject) (rt : StateRuntime R S)
  : InputDisposition * StateRuntime R S :=
  let '(d, i) := inbox_observe s (reconciliation rt) in
  (d, mkRuntime (session rt) (genesis_height rt) (rt_health rt) i).
End runtime.

(** ** State deltas: [publisher.rs] *)

Definition STATE_ACCOUNT_DELTA_SUBJECT : string := "hl.v1.state.account_delta".
Definition STATE_DELTA_SCHEMA_V1 : string := "hyperliquid-alpha-desk/state-delta-publication/v1".

Inductive PublishDisposition := DeltaPublished | DeltaSuppressed.
Inductive PublishError := PublishPayload | PublishSink.

(** [StateDeltaSink] *)
Class StateDeltaSink (K : Type) := sink_publish : string -> bytes -> st K PublishError unit.

(** [InMemoryDeltaSink] *)
Definition DeltaSink := list (string * bytes).
#[global] Instance in_memory_sink : StateDeltaSink DeltaSink := fun subject payload =>
  if is_empty payload then st_throw PublishPayload
  else st_modify (fun published => published ++ [(subject, payload)]).

(** The module's own [push_bytes], which refuses an empty value. *)
Definition push_nonempty (value : bytes) : result BlockMarkerError bytes :=
  len ← int_try U64 (zlen value) ?? Malformed;
  if is_empty value then Err InvalidIdentity else Ok (to_be_bytes 8 len ++ value).

Definition encode_state_delta (chain : ChainId) (d : StateDelta) : result BlockMarkerError bytes :=
  let cp := delta_checkpoint d in
  schema ← push_nonempty (as_bytes STATE_DELTA_SCHEMA_V1);
  chain ← push_nonempty (as_bytes chain);
  count ← int_try U64 (zlen (mutations d)) ?? Malformed;
  Ok (schema ++ chain ++ to_be_bytes 8 (cp_block_height cp) ++ cp_canonical_block_hash cp ++
      before_state_hash d ++ cp_state_hash cp ++ to_be_bytes 8 (event_count d) ++ to_be_bytes 8 count).

Definition publish_state_delta {K} `{StateDeltaSink K} (h : FeatureHealth) (chain : ChainId) (d : StateDelta)
  : st K PublishError PublishDisposition :=
  if suppresses_publication (health_state h) then mret DeltaSuppressed else
  payload ← st_lift (map_err (fun _ => PublishPayload) (encode_state_delta chain d));
  _ ← sink_publish STATE_ACCOUNT_DELTA_SUBJECT payload;
  mret DeltaPublished.

(** ** Theorems *)

Lemma input_parse_as_str value s : input_parse value = Ok s -> input_as_str s = value.
Proof.
  unfold input_parse, subject_parse. intros E.
  repeat match type of E with context [String.eqb value ?t] =>
    destruct (String.eqb_spec value t) as [->|]; [vm_compute in E; by injection E as <-|] end.
  done.
Qed.

(** Only committed block markers reach the ledger: a subject parses to at
    most one input, which prints back as that subject; it may enter the ledger
    exactly when it is the committed-block subject, and otherwise it is counted
    or, on the provisional and snapshot lanes, quarantined. *)
Theorem only_committed_blocks_enter value s i :
  input_parse value = Ok s ->
  input_as_str s = value /\
  (may_enter_ledger (from_subject s) = true <-> value = BLOCK_COMMITTED_SUBJECT) /\
  let '(d, i') := inbox_observe s i in
  d = from_subject s /\
  (quarantined i' <> quarantined i <-> is_provisional_lane s = true) /\
  (may_enter_ledger d = true -> i' = i).
Proof.
  intros E. apply input_parse_as_str in E as <-. split; [done|].
  assert (forall (l : list QuarantineRecord) x, l ++ [x] <> l) as Ne.
  { intros l x E%(f_equal length). rewrite length_app in E. cbn in E. lia. }
  split; [destruct s as [[]| | | | | | |]; by vm_compute|].
  destruct s as [[]| | | | | | |]; cbn; split_and!; try done; naive_solver.
Qed.

(** Health forgets an unresolved divergence. After a material divergence
    was observed and not resolved, a disk-pressure alarm that is raised and
    cleared leaves the health green, and state deltas are published again. *)
Theorem health_forgets_divergence h :
  observe_disk_pressure false (observe_disk_pressure true (observe_material_divergence true h)) =
    health_green /\
  suppresses_publication (health_state (observe_material_divergence true h)) = true /\
  suppresses_publication (health_state health_green) = false.
Proof. by vm_compute. Qed.

Section runtime_theory.
Context {P R S C : Type} `{EventPayload P} `{EventReducer P R} `{AtomicStateStore S} `{Blake3}.
Context `{StateCheckpointStore C}.
Implicit Types (b : BlockEnvelope P) (rt : StateRuntime R S).

Definition same_block b (rc : ArchiveReceipt) : Prop :=
  receipt_block_height rc = block_height b /\ receipt_canonical_block_hash rc = canonical_block_hash b.

(** A block is applied only with its own archive receipt. With a receipt of
    another height or hash nothing changes and the watermarks are reported as
    misaligned; with its own, the outcome and the ledger are those of plain
    application, the ledger stands at the block, and an error leaves it
    unchanged. The alignment check that follows the application never fails. *)
Theorem apply_committed_aligned b rc rt r rt' :
  apply_committed b rc rt = (r, rt') ->
  match r with
  | Ok (DurablyApplied d _) => same_block b rc /\
      apply_block b (ledger (session rt)) = (Ok (Applied d), ledger (session rt')) /\
      img_watermark (state (ledger (session rt'))) =
        Some (mkStateWatermark (block_height b) (canonical_block_hash b))
  | Ok (DurablyAlready cp) => same_block b rc /\
      apply_block b (ledger (session rt)) = (Ok (AlreadyApplied cp), ledger (session rt'))
  | Err WatermarkMisaligned => ~ same_block b rc /\ rt' = rt
  | Err _ => same_block b rc /\ ledger (session rt') = ledger (session rt)
  end.
Proof.
  unfold apply_committed, align_watermarks, same_block.
  destruct (Z.eqb_spec (block_height b) (receipt_block_height rc)) as [Eh|Nh]; cbn [andb].
  2: { intros [= <- <-]. split; [intros [? _]; congruence|done]. }
  rewrite Eh, Z.eqb_refl. cbn [andb]. rewrite st_bind_lift_Ok.
  case_bool_decide as Hh; cbn [negb]; [|intros [= <- <-]; split; [by intros [_ ?]|done]].
  assert (on_session (apply_next b) rt = let '(r, s) := apply_block_durably b (session rt) in
    (map_err ReplayDurable r, mkRuntime s (genesis_height rt) (rt_health rt) (reconciliation rt))) as On.
  { unfold on_session, apply_next, st_map_err. by destruct (apply_block_durably b (session rt)). }
  destruct (apply_block_durably b (session rt)) as [r1 s1] eqn:D. apply durable_apply_ledger in D.
  destruct r1 as [[d disp|cp]|e]; cbn [map_err] in On.
  - rewrite (st_bind_Ok _ _ _ _ _ On), st_bind_get. pose proof (applied_watermark _ _ _ _ D) as (W & _).
    unfold checkpoint. cbn [session ledger]. rewrite W.
    cbn [fmap option_fmap option_map ok_or cp_block_height checkpoint_from wm_height].
    rewrite st_bind_lift_Ok, Eh, Z.eqb_refl. cbn [andb]. rewrite st_bind_lift_Ok.
    rewrite Eh in W. by intros [= <- <-].
  - rewrite (st_bind_Ok _ _ _ _ _ On). by intros [= <- <-].
  - rewrite (st_bind_Err _ _ _ _ _ On). by intros [= <- <-].
Qed.

Lemma session_open_Ok `{!StoreContract S} chain first (r : R) lims store image_limits x s :
  limits_wf image_limits -> holds store x ->
  session_open (P := P) chain first r lims store image_limits = Ok s ->
  state (ledger s) = default (image_empty chain first (reducer_version r)) x /\
  Core.store s = store /\ reducer (ledger s) = r.
Proof.
  intros Wl Ho O. unfold session_open, ledger_try_new, try_from_state_image in O. inv_ok.
  match goal with E : store_load_latest _ _ = Ok _ |- _ => apply (contract_load _ _ _ _ Wl Ho) in E as -> end.
  by destruct x; inv_ok.
Qed.

(** What a runtime starts from. From genesis it starts with an empty ledger
    at the genesis height, and only on an empty store; from the durable state,
    with what the store holds, or at genesis when it holds nothing; from a
    checkpoint, with the checkpoint's image, and only if the store is empty or
    holds a state of the same hash. It never resumes in mid-history: a ledger
    without a watermark waits for the genesis height. *)
Theorem runtime_open_resumes `{!StoreContract S} chain genesis (r : R) lims store image_limits mode
    (checkpoints : option (C * CheckpointCompatibility)) x rt :
  limits_wf image_limits -> holds store x ->
  runtime_open (P := P) chain genesis r lims store image_limits mode checkpoints = Ok rt ->
  let image := state (ledger (session rt)) in
  match mode with
  | Genesis => x = None /\ image = image_empty chain genesis (reducer_version r)
  | Durable => image = default (image_empty chain genesis (reducer_version r)) x
  | FromCheckpoint id => exists c compat a, checkpoints = Some (c, compat) /\
      checkpoint_load id compat image_limits c = Ok a /\ image = art_state_image a /\
      (x = None \/ exists i, x = Some i /\ image_state_hash i = image_state_hash image)
  end /\
  (img_watermark image = None -> img_first_height image = genesis) /\
  Core.store (session rt) = store /\ reducer (ledger (session rt)) = r /\
  rt_health rt = health_green /\ reconciliation rt = inbox_empty.
Proof.
  intros Wl Ho O. unfold runtime_open in O. inv_ok.
  match goal with E : open_session _ _ _ _ _ _ _ _ = Ok ?y |- _ => rename y into s, E into Os end.
  cbn [session rt_health reconciliation].
  assert (img_watermark (state (ledger s)) = None -> img_first_height (state (ledger s)) = genesis) as Hg.
  { intros W. match goal with E : match checkpoint _ with _ => _ end = Ok _ |- _ =>
      unfold checkpoint, next_height in E; rewrite W in E end.
    cbn in *. inv_ok. bool_to_prop. done. }
  destruct mode as [| |id]; cbn [open_session] in Os.
  - inv_ok. match goal with E : store_load_latest _ _ = Ok _ |- _ =>
      apply (contract_load _ _ _ _ Wl Ho) in E as -> end.
    apply (session_open_Ok _ _ _ _ _ _ _ _ Wl Ho) in Os as (E & Es & Er). by destruct x.
  - apply (session_open_Ok _ _ _ _ _ _ _ _ Wl Ho) in Os as (E & Es & Er). done.
  - inv_ok. match goal with E : (let '(c, compat) := ?p in _) = Ok _ |- _ => destruct p as [c compat] end.
    unfold load_checkpoint_ledger, try_from_state_image in *. inv_ok.
    match goal with E : store_load_latest _ _ = Ok _ |- _ =>
      apply (contract_load _ _ _ _ Wl Ho) in E as -> end.
    cbn. split_and!; try done. do 3 eexists. split_and!; try done.
    destruct x as [i|]; [|by left]. right. exists i. by bool_to_prop.
Qed.
End runtime_theory.

(** ** Publishing a checkpoint and resuming from it *)

Section checkpoint_restart.
Context {P R S : Type} `{EventPayload P} `{EventReducer P R} `{AtomicStateStore S} `{Blake3}.
Context `{Hex, !HexLaws} `{Json ManifestMaterial} `{Json StoredManifest, !JsonLaws StoredManifest}.
Context (fate_of : nat -> fate) (random : nat -> bytes).

(** A checkpoint that [publish_checkpoint] reports as published, whatever
    the file system did meanwhile, reopens as the ledger it was taken of: a
    runtime over an empty state store resumes from it with the same image, the
    same hash, the same reducer and limits. *)
Theorem published_checkpoint_resumes own (l : CanonicalLedger R) cp archive sha256 fingerprint a
    manifest d d' compat chain genesis (store : S) :
  ledger_inv (P := P) l -> checkpoint l = Some cp ->
  artifact_try_new cp (state l) archive sha256 fingerprint = Ok a ->
  publishable_artifact own a manifest -> bt_sorted (dirs (root d)) ->
  @publish_checkpoint _ (local_checkpoint_store fate_of random own) a d = (Ok tt, d') ->
  validate_compatibility a compat = Ok tt -> store_load_latest own store = Ok None ->
  @runtime_open P R S Disk _ _ _ (local_checkpoint_store (fun _ => Succeeds) random own)
    chain genesis (reducer l) (limits l) store own (FromCheckpoint (checkpoint_id a)) (Some (d', compat)) =
  Ok (mkRuntime (mkSession l store) genesis health_green inbox_empty).
Proof.
  intros I C N Pa So Pb V L. unfold publish_checkpoint in Pb.
  assert (exists x, local_publish fate_of random own a d = (Ok x, d')) as [x Lp].
  { apply st_bind_cases in Pb as [(h & _ & [=])|(x & d1 & Pb & [= <-])].
    unfold st_map_err in Pb. cbn in Pb. destruct (local_publish _ _ _ _ _) as [[y|[|]] d2]; [|done..].
    injection Pb as _ <-. by exists y. }
  apply (published_stored _ _ _ _ manifest) in Lp; [|done..].
  pose proof (artifact_try_new_Ok _ _ _ _ _ _ N) as (_ & _ & Ea & _).
  unfold runtime_open, open_session, load_checkpoint_ledger. cbn [ok_or].
  rewrite bind_of_Ok, (local_load_stored _ _ _ _ _ _ Lp V). cbn [map_err]. rewrite bind_of_Ok.
  rewrite Ea. cbn [art_state_image]. rewrite restore_image by done. cbn [map_err].
  rewrite bind_of_Ok, L. cbn [map_err]. rewrite !bind_of_Ok. cbn [ledger]. by rewrite C.
Qed.
End checkpoint_restart.

(** ** Concrete runtimes *)

#[local] Existing Instance short_blake3.
#[local] Existing Instances sample_hex sample_hex_laws.
#[local] Existing Instance core_store.
#[local] Existing Instance core_contract.
#[local] Instance local_checkpoints : StateCheckpointStore Disk :=
  @local_checkpoint_store _ _ published_material published_stored_json no_fault some_random sample_limits.

Definition core_runtime : StateRuntime TallyReducer Disk :=
  mkRuntime core_session 5 health_green inbox_empty.
Definition core_receipt : ArchiveReceipt :=
  mkArchiveReceipt "receipt" "manifest" 5 (replicate 32 x05) (replicate 32 x0a) (replicate 32 x0b)
    (replicate 32 x0c) 2000.

Lemma only_committed_blocks_enter_witness :
  quarantined (inbox_observe SnapshotMarket inbox_empty).2 <> [] /\
  may_enter_ledger (from_subject SnapshotMarket) = false.
Proof.
  destruct (only_committed_blocks_enter "hl.v1.snapshot.market" SnapshotMarket inbox_empty eq_refl)
    as (_ & E & _ & [_ Q] & _).
  split; [exact (Q eq_refl)|]. apply not_true_is_false. intros M. apply E in M. discriminate.
Defined.

Lemma apply_committed_aligned_witness : exists d disp rt',
  apply_committed (ledger_block 5 x05) core_receipt core_runtime = (Ok (DurablyApplied d disp), rt') /\
  img_watermark (state (ledger (session rt'))) = Some (mkStateWatermark 5 (replicate 32 x05)).
Proof.
  destruct (apply_committed (ledger_block 5 x05) core_receipt core_runtime) as [r rt'] eqn:A.
  pose proof (apply_committed_aligned _ _ _ _ _ A) as T.
  destruct r as [[d disp|cp]|e]; [|vm_compute in A; discriminate..].
  exists d, disp, rt'. split; [done|]. apply T.
Defined.

Lemma runtime_open_resumes_witness : exists rt,
  runtime_open (P := unit) "hl" 5 Tally tally_limits core_crashed core_limits Durable
    (None : option (Disk * CheckpointCompatibility)) = Ok rt /\
  state (ledger (session rt)) = state core_next.
Proof.
  destruct (runtime_open (P := unit) "hl" 5 Tally tally_limits core_crashed core_limits Durable
    (None : option (Disk * CheckpointCompatibility))) as [rt|] eqn:O;
    [|vm_compute in O; discriminate].
  exists rt. split; [done|].
  destruct (runtime_open_resumes "hl" 5 Tally tally_limits core_crashed core_limits Durable None
    (Some (state core_next)) rt) as (E & _).
  - apply core_limits_wf.
  - split_and!; [apply core_limits_wf|by repeat constructor|by vm_compute].
  - exact O.
  - exact E.
Defined.

Definition stored_compat : CheckpointCompatibility :=
  mkCompatibility "hl" "tally@1" "archive" sha_a sha_b.

Lemma stored_ledger_inv : ledger_inv (P := unit) stored_ledger.
Proof. split; [reflexivity|apply stored_image_wf|reflexivity|by vm_compute]. Qed.

Abbreviation checkpoint_disk := (publish_checkpoint stored_artifact clean_disk).2.
Lemma checkpoint_disk_published : publish_checkpoint stored_artifact clean_disk = (Ok tt, checkpoint_disk).
Proof. vm_compute. reflexivity. Qed.

Lemma published_checkpoint_resumes_witness :
  @runtime_open unit TallyReducer Disk Disk _ core_store short_blake3
    (@local_checkpoint_store _ _ published_material published_stored_json (fun _ => Succeeds) some_random sample_limits)
    "hl" 5 (reducer stored_ledger) (limits stored_ledger) clean_disk sample_limits
    (FromCheckpoint (checkpoint_id stored_artifact)) (Some (checkpoint_disk, stored_compat)) =
  Ok (mkRuntime (mkSession stored_ledger clean_disk) 5 health_green inbox_empty).
Proof.
  apply (@published_checkpoint_resumes unit TallyReducer Disk _ _ _ _ _ published_material
    published_stored_json (one_json_laws (stored_manifest stored_artifact)) no_fault some_random
    sample_limits stored_ledger stored_checkpoint "archive" sha_a sha_b stored_artifact [x7b; x7d] clean_disk
    checkpoint_disk stored_compat "hl" 5 clean_disk).
  - exact stored_ledger_inv.
  - reflexivity.
  - vm_compute. reflexivity.
  - exact stored_artifact_publishable.
  - constructor.
  - exact checkpoint_disk_published.
  - vm_compute. reflexivity.
  - vm_compute. reflexivity.
Defined.
