(* ===== verification/Consumer.v ===== *)
(** * The canonical-stream consumer: [services/hl-core/src/consumer.rs]

    Deliveries of the canonical stream, one per event and one marker per block,
    are assembled into blocks, applied durably and only then acknowledged. The
    NATS client is a parameter: a message is its subject, headers and payload,
    a pull source is [fetch] and [ack]. *)

From Stdlib Require Import Strings.Ascii Strings.Byte Strings.String.
From S2P Require Import Prelude Ordering BTreeMap Bytes Digits FixedPoint Ids Blocks StateImage Publication Ledger LedgerCheckpoint Disk StateStore CheckpointStore Core Runtime.

Definition HEADER_SCHEMA : string := "Alpha-Desk-Schema".
Definition HEADER_CHAIN : string := "Alpha-Desk-Chain".
Definition HEADER_BLOCK_HEIGHT : string := "Alpha-Desk-Block-Height".
Definition HEADER_BLOCK_HASH : string := "Alpha-Desk-Block-Hash".
Definition HEADER_ARCHIVE_RECEIPT : string := "Alpha-Desk-Archive-Receipt".
Definition HEADER_ARCHIVE_MANIFEST_SHA256 : string := "Alpha-Desk-Archive-Manifest-SHA256".
Definition HEADER_PUBLICATION_SHA256 : string := "Alpha-Desk-Publication-SHA256".
Definition NATS_MESSAGE_ID : string := "Nats-Msg-Id".
Definition MAX_PENDING_BLOCKS : Z := 64.
Definition FETCH_BATCH : nat := 64.

Inductive JetStreamReplayError :=
| JetDecode (e : BlockMarkerError)
| HashMismatch
| IncompleteBlock
| PendingLimit
| Transport
| JetReplay (e : LocalReplayError)
| JetOverflow.

(** ** Deliveries *)

Record CanonicalDelivery := mkDelivery {
  dl_subject : CanonicalSubject;
  message_id : string;
  dl_schema : string;
  dl_chain_id : string;
  dl_block_height : Z;
  dl_block_hash : Hash;
  dl_archive_receipt_id : string;
  dl_archive_manifest_sha256 : Hash;
  publication_sha256 : Hash;
  dl_payload : bytes;
}.

Definition validate_identity (value : string) : result JetStreamReplayError unit :=
  if invalid_identity value then Err (JetDecode InvalidIdentity) else Ok tt.

Section deliveries.
Context {P : Type} `{EventPayload P} `{EventCodec P} `{Sha256} `{Hex}.

Definition delivery_try_new (subject : CanonicalSubject) (id schema chain : string) (height : Z)
  (hash : Hash) (receipt : string) (manifest_sha256 : Hash) (payload : bytes)
  : result JetStreamReplayError CanonicalDelivery :=
  _ ← validate_identity id;
  _ ← validate_identity schema;
  _ ← validate_identity chain;
  _ ← validate_identity receipt;
  if existsb is_ascii_uppercase (as_bytes id) then Err (JetDecode InvalidIdentity) else
  if is_empty payload then Err (JetDecode PayloadSize) else
  Ok (mkDelivery subject id schema chain height hash receipt manifest_sha256 (sha256 payload) payload).

Definition committed_block_delivery (b : BlockEnvelope P) (r : ArchiveReceipt)
  : result JetStreamReplayError CanonicalDelivery :=
  payload ← map_err JetDecode (encode_committed_block_marker b r);
  delivery_try_new BlockCommitted ("blk_" +:+ hex_encode (canonical_block_hash b))
    BLOCK_MARKER_SCHEMA_V1 (chain_id b) (block_height b) (canonical_block_hash b) (receipt_id r)
    (receipt_manifest_sha256 r) payload.

Definition committed_event_delivery (e : CanonicalEventEnvelope P) (b : BlockEnvelope P)
  (r : ArchiveReceipt) : result JetStreamReplayError CanonicalDelivery :=
  payload ← map_err JetDecode (encode_event_payload e);
  delivery_try_new (subject_for_event_kind (event_kind e)) (event_id e) (schema_version e)
    (chain_id b) (block_height b) (canonical_block_hash b) (receipt_id r)
    (receipt_manifest_sha256 r) payload.

(** [jetstream::Message] *)
Record Message := mkMessage {
  msg_subject : string;
  msg_headers : option (string -> option string);
  msg_payload : bytes;
}.

Definition header (headers : string -> option string) (name : string) : result BlockMarkerError string :=
  headers name ?? Malformed.

(** [hex::decode] into exactly 32 bytes. *)
Definition parse_hash32 (value : string) : result BlockMarkerError Hash :=
  hex_decode_to_slice 32 value ?? Malformed.

(** [str::parse::<u64>]: digits after an optional plus sign. *)
Definition parse_u64 (value : string) : option Z :=
  let l := String.list_ascii_of_string value in
  let digits := match l with "+"%char :: rest => rest | _ => l end in
  if is_empty digits || negb (all_digits digits) then None else int_try U64 (digits_value digits).

Definition delivery_from_jetstream (m : Message) : result JetStreamReplayError CanonicalDelivery :=
  let decode {A} (r : result BlockMarkerError A) := map_err JetDecode r in
  headers ← decode (msg_headers m ?? Malformed);
  subject ← decode (subject_parse (msg_subject m));
  id ← decode (header headers NATS_MESSAGE_ID);
  schema ← decode (header headers HEADER_SCHEMA);
  chain ← decode (header headers HEADER_CHAIN);
  height_text ← decode (header headers HEADER_BLOCK_HEIGHT);
  height ← decode (parse_u64 height_text ?? Malformed);
  hash_text ← decode (header headers HEADER_BLOCK_HASH);
  hash ← decode (parse_hash32 hash_text);
  receipt ← decode (header headers HEADER_ARCHIVE_RECEIPT);
  manifest_text ← decode (header headers HEADER_ARCHIVE_MANIFEST_SHA256);
  manifest ← decode (parse_hash32 manifest_text);
  publication_text ← decode (header headers HEADER_PUBLICATION_SHA256);
  publication ← decode (parse_hash32 publication_text);
  if negb (bool_decide (sha256 (msg_payload m) = publication)) then Err HashMismatch else
  delivery ← delivery_try_new subject id schema chain height hash receipt manifest (msg_payload m);
  if negb (bool_decide (publication_sha256 delivery = publication)) then Err HashMismatch
  else Ok delivery.
End deliveries.

(** ** Assembly *)

Record PendingBlock {P : Type} := mkPending {
  pending_height : Z;
  pending_chain_id : string;
  pending_marker : option CommittedBlockMarker;
  pending_events : btmap string (CanonicalEventEnvelope P);
  pending_message_ids : list string;
}.
Arguments PendingBlock P : clear implicits.
Arguments mkPending {P} _ _ _ _ _.

Record AssembledBlock {P : Type} := mkAssembled {
  assembled_block : BlockEnvelope P;
  assembled_message_ids : list string;
}.
Arguments AssembledBlock P : clear implicits.
Arguments mkAssembled {P} _ _.

(** [BlockAssembler] is its map of pending blocks. *)
Definition BlockAssembler (P : Type) := btmap Hash (PendingBlock P).

Section assembly.
Context {P : Type} `{EventPayload P} `{EventCodec P} `{Sha256} `{Hex} `{Blake3}.
Abbreviation pending_op := (st (PendingBlock P) (halt JetStreamReplayError)).

Definition throw {S A} (e : JetStreamReplayError) : st S (halt JetStreamReplayError) A :=
  st_throw (Failed e).
(** An error of the reader, or its panic, as the caller sees it. *)
Definition lift_halt {S A} (r : result (halt BlockMarkerError) A) : st S (halt JetStreamReplayError) A :=
  st_lift (map_err (fun h => match h with Failed e => Failed (JetDecode e) | Crashed => Crashed end) r).
Definition lift_decode {S A} (r : result BlockMarkerError A) : st S (halt JetStreamReplayError) A :=
  lift_halt (map_err Failed r).

Definition new_pending (d : CanonicalDelivery) : PendingBlock P :=
  mkPending (dl_block_height d) (dl_chain_id d) None [] [].

Definition add_message_id (id : string) (p : PendingBlock P) : PendingBlock P :=
  mkPending (pending_height p) (pending_chain_id p) (pending_marker p) (pending_events p)
    (pending_message_ids p ++ [id]).
Definition set_marker (m : CommittedBlockMarker) (p : PendingBlock P) : PendingBlock P :=
  mkPending (pending_height p) (pending_chain_id p) (Some m) (pending_events p)
    (pending_message_ids p).
Definition add_event (e : CanonicalEventEnvelope P) (p : PendingBlock P) : PendingBlock P :=
  mkPending (pending_height p) (pending_chain_id p) (pending_marker p)
    (bt_insert (event_id e) e (pending_events p)) (pending_message_ids p).

Definition push_marker (d : CanonicalDelivery) : pending_op unit :=
  p ← st_get;
  if match pending_marker p with Some _ => true | None => false end
  then throw (JetDecode Malformed) else
  if negb (String.eqb (dl_schema d) BLOCK_MARKER_SCHEMA_V1)
  then throw (JetDecode UnsupportedSchema) else
  marker ← lift_halt (decode_committed_block_marker (dl_payload d));
  if negb (bool_decide (marker_canonical_block_hash marker = dl_block_hash d)) ||
     negb (marker_block_height marker =? dl_block_height d) ||
     negb (String.eqb (marker_chain_id marker) (dl_chain_id d)) ||
     negb (String.eqb (marker_receipt_id marker) (dl_archive_receipt_id d)) ||
     negb (bool_decide (marker_manifest_sha256 marker = dl_archive_manifest_sha256 d))
  then throw HashMismatch else
  if match marker_confirmation_class marker with
     | CommittedPrimary | CommittedIndependent => false
     | _ => true
     end
  then throw (JetDecode NotCommitted) else
  st_modify (set_marker marker).

Definition push_event (d : CanonicalDelivery) : pending_op unit :=
  e ← lift_decode (event_decode (dl_payload d) ?? Malformed);
  if negb (String.eqb (event_id e) (message_id d)) ||
     negb (ev_block_height e =? dl_block_height d) ||
     negb (String.eqb (ev_chain_id e) (dl_chain_id d)) ||
     negb (bool_decide (subject_for_event_kind (event_kind e) = dl_subject d)) ||
     negb (bool_decide (sha256 (dl_payload d) = publication_sha256 d))
  then throw HashMismatch else
  p ← st_get;
  _ ← st_modify (add_event e);
  if bt_contains (event_id e) (pending_events p) then throw (JetDecode Malformed) else mret tt.

(** The events in the order the marker lists them. *)
Fixpoint collect_events (listed : list MarkerEvent) (held : btmap string (CanonicalEventEnvelope P))
  : result JetStreamReplayError (list (CanonicalEventEnvelope P)) :=
  match listed with
  | [] => Ok []
  | m :: listed =>
      e ← bt_get (listed_event_id m) held ?? IncompleteBlock;
      encoded ← map_err JetDecode (encode_event_payload e);
      if negb (bool_decide (event_kind e = listed_event_kind m)) ||
         negb (bool_decide (payload_hash e = listed_payload_hash m)) ||
         negb (bool_decide (sha256 encoded = envelope_sha256 m))
      then Err HashMismatch else
      rest ← collect_events listed held;
      Ok (e :: rest)
  end.

Definition is_listed (listed : list MarkerEvent) (id : string) : bool :=
  negb (forallb (fun m => negb (String.eqb (listed_event_id m) id)) listed).

(** From the marker on: the block, once every listed event is there. *)
Definition try_assemble (p : PendingBlock P) : result JetStreamReplayError (option (BlockEnvelope P)) :=
  match pending_marker p with
  | None => Ok None
  | Some marker =>
      let listed := marker_events marker in
      if zlen listed <? bt_len (pending_events p) then Err (JetDecode Malformed) else
      if existsb (fun id => negb (is_listed listed id)) (bt_keys (pending_events p))
      then Err (JetDecode Malformed) else
      if negb (bt_len (pending_events p) =? zlen listed) then Ok None else
      events ← collect_events listed (pending_events p);
      block ← map_err (fun _ => JetDecode Malformed)
                (block_try_new (marker_chain_id marker) (marker_block_height marker)
                   (marker_block_time marker) (marker_confirmation_class marker) events
                   (marker_source_block_hashes marker));
      if negb (bool_decide (canonical_block_hash block = marker_canonical_block_hash marker))
      then Err HashMismatch else Ok (Some block)
  end.

Definition push_pending (d : CanonicalDelivery) : pending_op (option (BlockEnvelope P)) :=
  p ← st_get;
  if negb (pending_height p =? dl_block_height d) || negb (String.eqb (pending_chain_id p) (dl_chain_id d))
  then throw HashMismatch else
  _ ← st_modify (add_message_id (message_id d));
  _ ← match dl_subject d with
      | BlockCommitted => push_marker d
      | _ => push_event d
      end;
  p ← st_get;
  st_lift (map_err Failed (try_assemble p)).

(** [entry(..).or_insert_with(..)] and the work on the entry. *)
Definition with_entry {A} (d : CanonicalDelivery) (m : pending_op A)
  : st (BlockAssembler P) (halt JetStreamReplayError) A := fun a =>
  let '(r, p) := m (default (new_pending d) (bt_get (dl_block_hash d) a)) in
  (r, bt_insert (dl_block_hash d) p a).

Definition assembler_push (d : CanonicalDelivery)
  : st (BlockAssembler P) (halt JetStreamReplayError) (option (AssembledBlock P)) :=
  if negb (bool_decide (sha256 (dl_payload d) = publication_sha256 d)) then throw HashMismatch else
  a ← st_get;
  if negb (bt_contains (dl_block_hash d) a) && (MAX_PENDING_BLOCKS <=? bt_len a)
  then throw PendingLimit else
  block ← with_entry d (push_pending d);
  match block with
  | None => mret None
  | Some block =>
      a ← st_get;
      _ ← st_modify (bt_remove (dl_block_hash d));
      mret (Some (mkAssembled block
                    (from_option pending_message_ids [] (bt_get (dl_block_hash d) a))))
  end.
End assembly.

(** ** Sources and sessions *)

(** [CanonicalPullSource] *)
Class CanonicalPullSource (Src : Type) := {
  fetch : nat -> st Src JetStreamReplayError (list CanonicalDelivery);
  ack : list string -> st Src JetStreamReplayError unit;
}.

(** [InMemoryCanonicalSource]; the set of acknowledged identifiers is sorted. *)
Record InMemorySource := mkInMemory { queued : list CanonicalDelivery; acked : btmap string unit }.

#[global] Instance in_memory_source : CanonicalPullSource InMemorySource := {
  fetch n s := (Ok (take n (queued s)), mkInMemory (drop n (queued s)) (acked s));
  ack ids s := (Ok tt, mkInMemory (queued s) (bt_extend (acked s) ((fun id => (id, tt)) <$> ids)));
}.

Record JetStreamReplayReport := mkJetReport {
  jet_applied : Z;
  jet_already_applied : Z;
  jet_last_height : option BlockHeight;
  jet_state_hash : Hash;
  live_qualified : bool;
  stage_2_qualified : bool;
}.

(** [JetStreamReplaySession] with the source it consumes. *)
Record JetStreamReplaySession {P R S Src : Type} := mkJetSession {
  jet_runtime : StateRuntime R S;
  jet_assembler : BlockAssembler P;
  jet_source : Src;
}.
Arguments JetStreamReplaySession P R S Src : clear implicits.
Arguments mkJetSession {P R S Src} _ _ _.

Section consuming.
Context {P R T Src C : Type} `{EventPayload P} `{EventCodec P} `{EventReducer P R}.
Context `{AtomicStateStore T} `{StateCheckpointStore C} `{CanonicalPullSource Src}.
Context `{Sha256} `{Hex} `{Blake3}.
Abbreviation jet_op := (st (JetStreamReplaySession P R T Src) (halt JetStreamReplayError)).

Definition jet_open (chain : ChainId) (first : BlockHeight) (r : R) (lims : LedgerLimits) (store : T)
  (image_limits : StateImageLimits) (src : Src)
  : result JetStreamReplayError (JetStreamReplaySession P R T Src) :=
  rt ← map_err JetReplay (runtime_open (P := P) chain first r lims store image_limits Durable
                            (None : option (C * CheckpointCompatibility)));
  Ok (mkJetSession rt [] src).

Definition on_source {A} (m : st Src JetStreamReplayError A) : jet_op A := fun s =>
  let '(r, src) := m (jet_source s) in
  (map_err Failed r, mkJetSession (jet_runtime s) (jet_assembler s) src).
Definition on_assembler {A} (m : st (BlockAssembler P) (halt JetStreamReplayError) A) : jet_op A := fun s =>
  let '(r, a) := m (jet_assembler s) in (r, mkJetSession (jet_runtime s) a (jet_source s)).
Definition on_runtime {A} (m : st (StateRuntime R T) LocalReplayError A) : jet_op A := fun s =>
  let '(r, rt) := m (jet_runtime s) in
  (map_err (Failed ∘ JetReplay) r, mkJetSession rt (jet_assembler s) (jet_source s)).

(** A complete block: apply it, account for it, acknowledge its messages. *)
Definition apply_assembled (report : JetStreamReplayReport) (assembled : AssembledBlock P)
  : jet_op JetStreamReplayReport :=
  let b := assembled_block assembled in
  outcome ← on_runtime (on_session (apply_next b));
  '(applied, already) ←
    match outcome with
    | DurablyApplied _ _ =>
        applied ← st_lift (int_add U64 (jet_applied report) 1 ?? Failed JetOverflow);
        s ← st_get;
        state_height ← st_lift ((cp_block_height <$> checkpoint (ledger (session (jet_runtime s))))
                                  ?? Failed (JetReplay WatermarkMisaligned));
        _ ← st_lift (map_err (Failed ∘ JetReplay)
                       (align_watermarks (block_height b) (block_height b) state_height));
        mret (applied, jet_already_applied report)
    | DurablyAlready _ =>
        mret (jet_applied report, int_saturating_add U64 (jet_already_applied report) 1)
    end;
  s ← st_get;
  let report := mkJetReport applied already (Some (block_height b))
                  (ledger_hash (ledger (session (jet_runtime s)))) false false in
  _ ← on_source (ack (assembled_message_ids assembled));
  mret report.

(** One delivery of a batch. *)
Definition consume_delivery (report : JetStreamReplayReport) (d : CanonicalDelivery)
  : jet_op JetStreamReplayReport :=
  assembled ← on_assembler (assembler_push d);
  match assembled with
  | None => mret report
  | Some assembled => apply_assembled report assembled
  end.

Fixpoint consume_batch (report : JetStreamReplayReport) (batch : list CanonicalDelivery)
  : jet_op JetStreamReplayReport :=
  match batch with
  | [] => mret report
  | d :: batch => report ← consume_delivery report d; consume_batch report batch
  end.

(** The loop; [None] when [fuel] fetches did not drain the source. *)
Fixpoint consume_loop (fuel : nat) (report : JetStreamReplayReport)
  : jet_op (option JetStreamReplayReport) :=
  match fuel with
  | O => mret None
  | S fuel =>
      batch ← on_source (fetch FETCH_BATCH);
      if is_empty batch then
        s ← st_get;
        if negb (is_empty (jet_assembler s)) then throw IncompleteBlock else mret (Some report)
      else
        report ← consume_batch report batch;
        consume_loop fuel report
  end.

Definition consume_available (fuel : nat) : jet_op (option JetStreamReplayReport) :=
  s ← st_get;
  let l := ledger (session (jet_runtime s)) in
  consume_loop fuel
    (mkJetReport 0 0 (cp_block_height <$> checkpoint l) (ledger_hash l) false false).
End consuming.

(** ** Assembling what was published *)

Section assembling.
Context {P : Type} `{EventPayload P} `{EventCodec P} `{Sha256} `{Hex} `{Blake3}.
Implicit Types (b : BlockEnvelope P) (e : CanonicalEventEnvelope P).

Lemma delivery_try_new_Ok subject id schema chain height hash receipt manifest payload d :
  delivery_try_new subject id schema chain height hash receipt manifest payload = Ok d ->
  d = mkDelivery subject id schema chain height hash receipt manifest (sha256 payload) payload.
Proof. unfold delivery_try_new. intros E. by inv_ok. Qed.

(** A valid block, its receipt and the deliveries that publish it. *)
Record published b (r : ArchiveReceipt) (dm : CanonicalDelivery) (des : list CanonicalDelivery) : Prop := {
  pu_block : block_try_new (chain_id b) (block_height b) (block_time b) (confirmation_class b)
               (events b) (source_block_hashes b) = Ok b;
  pu_typed : Forall event_typed (events b);
  pu_fields : publishable b r;
  pu_sized : sha256_sized;
  pu_codec : Forall (fun e => forall l, encode_to_vec e = Some l -> event_decode l = Some e) (events b);
  pu_marker : committed_block_delivery b r = Ok dm;
  pu_events : Forall2 (fun e d => committed_event_delivery e b r = Ok d) (events b) des;
}.

Section one_block.
Context (b : BlockEnvelope P) (r : ArchiveReceipt) (dm : CanonicalDelivery) (des : list CanonicalDelivery).
Context (Pu : published b r dm des).

(** The deliveries by what they carry: [None] the marker, [Some e] an event. *)
Definition items : list (option (CanonicalEventEnvelope P)) := None :: (Some <$> events b).
Definition deliver (x : option (CanonicalEventEnvelope P)) : CanonicalDelivery :=
  match x with
  | None => dm
  | Some e => match committed_event_delivery e b r with Ok d => d | Err _ => dm end
  end.

Lemma deliver_items : dm :: des = deliver <$> items.
Proof using Pu.
  unfold items. rewrite fmap_cons. f_equal. pose proof (pu_events _ _ _ _ Pu) as F. clear Pu.
  induction F as [|e d es ds E F IH]; [done|]. rewrite !fmap_cons. cbn. rewrite E. by f_equal.
Qed.

Lemma block_valid :
  events_valid (chain_id b) (block_height b) (block_time b) (confirmation_class b) (events b).
Proof using Pu.
  pose proof (pu_block _ _ _ _ Pu) as E. unfold block_try_new in E. inv_ok.
  apply (validate_events_Ok _ _ _ _ _ (pu_typed _ _ _ _ Pu)).
  match goal with E : validate_events _ _ _ _ _ = Ok ?u |- _ => by destruct u end.
Qed.

Lemma event_by_id e e' : e ∈ events b -> e' ∈ events b -> event_id e = event_id e' -> e = e'.
Proof using Pu.
  intros [i I]%list_elem_of_lookup [j J]%list_elem_of_lookup E.
  pose proof (valid_ids _ _ _ _ _ block_valid) as N.
  assert (i = j) as ->; [|congruence].
  eapply NoDup_lookup; [exact N|rewrite list_lookup_fmap, I; done|rewrite list_lookup_fmap, J; cbn; congruence].
Qed.

Lemma deliver_event e : e ∈ events b -> exists payload,
  encode_event_payload e = Ok payload /\
  deliver (Some e) = mkDelivery (subject_for_event_kind (event_kind e)) (event_id e) (schema_version e)
    (chain_id b) (block_height b) (canonical_block_hash b) (receipt_id r) (receipt_manifest_sha256 r)
    (sha256 payload) payload.
Proof using Pu.
  intros [i I]%list_elem_of_lookup.
  destruct (Forall2_lookup_l _ _ _ _ _ (pu_events _ _ _ _ Pu) I) as (d & _ & E).
  cbn. rewrite E. unfold committed_event_delivery in E. inv_ok. eexists. split; [done|].
  by apply delivery_try_new_Ok in E as ->.
Qed.

Lemma deliver_marker : exists payload,
  encode_committed_block_marker b r = Ok payload /\
  dm = mkDelivery BlockCommitted ("blk_" +:+ hex_encode (canonical_block_hash b)) BLOCK_MARKER_SCHEMA_V1
    (chain_id b) (block_height b) (canonical_block_hash b) (receipt_id r) (receipt_manifest_sha256 r)
    (sha256 payload) payload.
Proof using Pu.
  pose proof (pu_marker _ _ _ _ Pu) as E. unfold committed_block_delivery in E. inv_ok.
  eexists. split; [done|]. by apply delivery_try_new_Ok in E as ->.
Qed.

(** What is pending once the items [xs] have arrived. *)
Definition held (xs : list (option (CanonicalEventEnvelope P))) : list (CanonicalEventEnvelope P) :=
  omap id xs.
Definition held_map xs : btmap string (CanonicalEventEnvelope P) :=
  bt_extend [] ((fun e => (event_id e, e)) <$> held xs).
Definition has_marker (xs : list (option (CanonicalEventEnvelope P))) : bool :=
  existsb (fun x => match x with None => true | Some _ => false end) xs.
Definition pending_after xs : PendingBlock P :=
  mkPending (block_height b) (chain_id b) (if has_marker xs then Some (marker_of b r) else None)
    (held_map xs) (message_id ∘ deliver <$> xs).

(** [xs]: deliveries of the block, none twice. *)
Definition arrived (xs : list (option (CanonicalEventEnvelope P))) : Prop := NoDup xs /\ xs ⊆ items.

Lemma has_marker_true xs : has_marker xs = true <-> None ∈ xs.
Proof.
  unfold has_marker. rewrite existsb_exists. setoid_rewrite <- list_elem_of_In. split.
  - by intros ([e|] & I & ?).
  - intros I. by exists None.
Qed.

Lemma elem_of_held e xs : e ∈ held xs <-> Some e ∈ xs.
Proof.
  unfold held. rewrite list_elem_of_omap. split; [|by exists (Some e)].
  intros (x & I & E). unfold id in E. by subst.
Qed.

Lemma held_in_block e xs : arrived xs -> e ∈ held xs -> e ∈ events b.
Proof.
  intros [_ Su] I%elem_of_held%Su. unfold items in I. apply elem_of_cons in I as [|I]; [done|].
  by apply list_elem_of_fmap in I as (? & [= ->] & ?).
Qed.

Lemma held_NoDup xs : arrived xs -> NoDup (event_id <$> held xs).
Proof using Pu.
  intros A. apply NoDup_fmap_2_strong.
  - intros e e' I I'. apply event_by_id; by eapply held_in_block.
  - destruct A as [N _]. unfold held. induction N as [|[e|] xs Nx N IH]; cbn; [constructor| |done].
    constructor; [|done]. by intros I%elem_of_held.
Qed.

Lemma held_map_perm xs : arrived xs -> held_map xs ≡ₚ (fun e => (event_id e, e)) <$> held xs.
Proof using Pu.
  intros A. unfold held_map. rewrite bt_extend_perm, app_nil_r; [done| |done].
  rewrite <- list_fmap_compose. by apply held_NoDup.
Qed.

Lemma held_map_sorted xs : bt_sorted (held_map xs).
Proof. apply bt_extend_sorted, bt_sorted_nil. Qed.

Lemma held_map_get e xs : arrived xs -> e ∈ held xs -> bt_get (event_id e) (held_map xs) = Some e.
Proof using Pu.
  intros A I. apply bt_get_elem; [apply held_map_sorted|]. rewrite held_map_perm by done.
  apply list_elem_of_fmap. eauto.
Qed.

Lemma held_map_fresh e xs : arrived (xs ++ [Some e]) -> bt_get (event_id e) (held_map xs) = None.
Proof using Pu.
  intros A. assert (arrived xs) as A0.
  { destruct A as [[N _]%NoDup_app Su]. split; [done|]. intros x I. apply Su, elem_of_app. by left. }
  apply bt_get_None, Forall_forall. intros [k e'] I. rewrite held_map_perm in I by done.
  apply list_elem_of_fmap in I as (? & [= -> <-] & I). cbn. intros E%cmp_eq_leibniz.
  destruct A as [N Su]. pose proof (held_in_block _ _ A0 I) as I0.
  assert (e ∈ events b) as Ie.
  { eapply (held_in_block e (xs ++ [Some e])); [done|]. apply elem_of_held, elem_of_app. right. left. }
  apply event_by_id in E as ->; [|done..]. apply elem_of_held in I.
  apply NoDup_app in N as (_ & N & _). eapply N; [exact I|left].
Qed.

Lemma held_submseteq xs : arrived xs -> held xs ⊆+ events b.
Proof using Pu.
  intros A. apply NoDup_submseteq; [by eapply NoDup_fmap_1, held_NoDup|]. intros e. by apply held_in_block.
Qed.

Lemma held_map_len xs : arrived xs -> bt_len (held_map xs) = zlen (held xs).
Proof using Pu. intros A. unfold bt_len, zlen. by rewrite held_map_perm, length_fmap. Qed.

Lemma collect_listed xs es :
  arrived xs -> es ⊆ events b -> es ⊆ held xs ->
  collect_events (marker_event <$> es) (held_map xs) = Ok es.
Proof using Pu.
  intros A Su Sh. induction es as [|e es IH]; [done|]. rewrite fmap_cons. cbn [collect_events marker_event].
  assert (e ∈ events b) as Ie by (apply Su; left).
  rewrite (held_map_get e) by (auto; apply Sh; left). cbn [ok_or listed_event_id].
  rewrite bind_of_Ok. destruct (deliver_event e Ie) as (payload & Ep & _). rewrite Ep. cbn [map_err].
  rewrite bind_of_Ok. cbn beta. unfold encode_event_payload in Ep. inv_ok.
  assert (envelope_sha256 (marker_event e) = sha256 payload) as ->
    by (cbn; by match goal with E : encode_to_vec e = Some _ |- _ => rewrite E end).
  rewrite !bool_decide_true by done. cbn [negb orb].
  rewrite IH; [done|..]; intros x X; [apply Su|apply Sh]; by right.
Qed.

Lemma listed_event e : e ∈ events b -> is_listed (marker_event <$> events b) (event_id e) = true.
Proof.
  intros I. unfold is_listed. apply negb_true_iff, not_true_is_false. rewrite forallb_forall. intros F.
  specialize (F (marker_event e)). cbn in F. rewrite String.eqb_refl in F.
  discriminate F. apply list_elem_of_In, list_elem_of_fmap. eauto.
Qed.

Lemma held_listed xs : arrived xs ->
  existsb (fun id => negb (is_listed (marker_event <$> events b) id)) (bt_keys (held_map xs)) = false.
Proof using Pu.
  intros A. apply not_true_is_false. rewrite existsb_exists. intros (k & I & N).
  apply list_elem_of_In, list_elem_of_fmap in I as ([k' e] & -> & I). rewrite held_map_perm in I by done.
  apply list_elem_of_fmap in I as (e' & [= -> ->] & I). cbn in N.
  rewrite listed_event in N; [done|]. by eapply held_in_block.
Qed.

Lemma try_assemble_eq xs : arrived xs ->
  try_assemble (pending_after xs) =
    Ok (if has_marker xs && (zlen (held xs) =? zlen (events b)) then Some b else None).
Proof using Pu.
  intros A. unfold try_assemble, pending_after. cbn [pending_marker pending_events].
  destruct (has_marker xs) eqn:M; [|done]. cbn [andb marker_events marker_of].
  pose proof (submseteq_length _ _ (held_submseteq xs A)) as Le.
  assert (zlen (marker_event <$> events b) = zlen (events b)) as -> by (unfold zlen; by rewrite length_fmap).
  rewrite held_map_len, held_listed, (proj2 (Z.ltb_ge _ _)) by (done || unfold zlen; lia).
  destruct (Z.eqb_spec (zlen (held xs)) (zlen (events b))) as [El|Nl]; cbn [negb]; [|done].
  assert (events b ≡ₚ held xs) as Pe.
  { symmetry. apply submseteq_length_Permutation; [by apply held_submseteq|]. unfold zlen in El. lia. }
  rewrite collect_listed; [|done|done|intros e; by rewrite <- Pe]. rewrite bind_of_Ok.
  cbn [marker_chain_id marker_block_height marker_block_time marker_confirmation_class
    marker_source_block_hashes marker_canonical_block_hash marker_of].
  rewrite (pu_block _ _ _ _ Pu). cbn [map_err]. rewrite bind_of_Ok. by rewrite bool_decide_true.
Qed.

Lemma arrived_app xs ys : arrived (xs ++ ys) -> arrived xs.
Proof.
  intros [[N _]%NoDup_app Su]. split; [done|]. intros x I. apply Su, elem_of_app. by left.
Qed.

Lemma push_marker_step xs : arrived (xs ++ [None]) ->
  push_marker dm (add_message_id (message_id dm) (pending_after xs)) = (Ok tt, pending_after (xs ++ [None])).
Proof using Pu.
  intros [N _]. assert (has_marker xs = false) as M.
  { apply not_true_is_false. rewrite has_marker_true. apply NoDup_app in N as (_ & N & _).
    intros I. eapply N; [exact I|left]. }
  destruct deliver_marker as (payload & Ep & Ed).
  pose proof (decode_encoded_marker _ _ _ (pu_sized _ _ _ _ Pu) (pu_fields _ _ _ _ Pu) Ep) as Dm.
  apply encode_marker_Ok in Ep as (class & _ & _ & _ & _ & Ec & _).
  unfold push_marker. rewrite st_bind_get. cbn [pending_marker add_message_id pending_after].
  assert (dl_schema dm = BLOCK_MARKER_SCHEMA_V1 /\ dl_payload dm = payload /\
    dl_block_hash dm = canonical_block_hash b /\ dl_block_height dm = block_height b /\
    dl_chain_id dm = chain_id b /\ dl_archive_receipt_id dm = receipt_id r /\
    dl_archive_manifest_sha256 dm = receipt_manifest_sha256 r) as (E1 & E2 & E3 & E4 & E5 & E6 & E7)
    by (by rewrite Ed).
  rewrite M, E1, E2, String.eqb_refl. cbn [negb].
  unfold lift_halt. rewrite Dm. cbn [map_err]. rewrite st_bind_lift_Ok, E3, E4, E5, E6, E7.
  cbn [marker_of marker_canonical_block_hash marker_block_height marker_chain_id
    marker_receipt_id marker_manifest_sha256 marker_confirmation_class].
  rewrite !bool_decide_true, Z.eqb_refl, !String.eqb_refl by done. cbn [negb orb].
  assert (st_modify (E := halt JetStreamReplayError) (set_marker (marker_of b r))
    (add_message_id (message_id dm) (pending_after xs)) = (Ok tt, pending_after (xs ++ [None]))) as Ok1.
  { unfold st_modify, set_marker, pending_after. cbn. f_equal. unfold has_marker, held_map, held.
    rewrite existsb_app, omap_app, (fmap_app (message_id ∘ deliver)). cbn. by rewrite orb_true_r, app_nil_r. }
  destruct (confirmation_class b); cbn in Ec; try discriminate; exact Ok1.
Qed.

Lemma push_event_step xs e : arrived (xs ++ [Some e]) ->
  push_event (deliver (Some e)) (add_message_id (message_id (deliver (Some e))) (pending_after xs)) =
    (Ok tt, pending_after (xs ++ [Some e])).
Proof using Pu.
  intros A. assert (e ∈ events b) as Ie.
  { eapply held_in_block; [exact A|]. apply elem_of_held, elem_of_app. right. left. }
  destruct (deliver_event e Ie) as (payload & Ep & Ed). set (d := deliver (Some e)) in *.
  unfold encode_event_payload in Ep. inv_ok.
  match goal with E : encode_to_vec e = Some _ |- _ => rename E into Ev end.
  destruct (valid_members _ _ _ _ _ block_valid e Ie) as (Vc & Vh & _).
  pose proof (pu_codec _ _ _ _ Pu) as Cd. rewrite Forall_forall in Cd. specialize (Cd e Ie _ Ev).
  assert (dl_payload d = payload /\ message_id d = event_id e /\ dl_block_height d = block_height b /\
    dl_chain_id d = chain_id b /\ dl_subject d = subject_for_event_kind (event_kind e) /\
    publication_sha256 d = sha256 payload) as (E1 & E2 & E3 & E4 & E5 & E6) by (by rewrite Ed).
  unfold push_event, lift_decode, lift_halt. rewrite E1, Cd. cbn [ok_or map_err].
  rewrite st_bind_lift_Ok, E2, E3, E4, E5, E6, Vc, Vh, !bool_decide_true, Z.eqb_refl, !String.eqb_refl by done. cbn [negb orb].
  rewrite st_bind_get, st_bind_modify. cbn [pending_events add_message_id pending_after].
  rewrite (proj2 (bt_contains_false _ _)) by (by apply held_map_fresh).
  unfold mret, st_ret, add_event, pending_after. cbn. f_equal. unfold has_marker, held_map, held.
  rewrite existsb_app, omap_app, !fmap_app, bt_extend_app.
  cbn -[deliver]. fold d. by rewrite orb_false_r, E2.
Qed.

(** Every item has arrived. *)
Definition complete (xs : list (option (CanonicalEventEnvelope P))) : bool :=
  has_marker xs && (zlen (held xs) =? zlen (events b)).

Lemma deliver_header x : x ∈ items ->
  dl_block_height (deliver x) = block_height b /\ dl_chain_id (deliver x) = chain_id b /\
  dl_block_hash (deliver x) = canonical_block_hash b /\
  sha256 (dl_payload (deliver x)) = publication_sha256 (deliver x) /\
  (dl_subject (deliver x) = BlockCommitted <-> x = None).
Proof using Pu.
  destruct x as [e|]; intros I.
  - assert (e ∈ events b) as Ie.
    { apply elem_of_cons in I as [|I]; [done|]. by apply list_elem_of_fmap in I as (? & [= ->] & ?). }
    destruct (deliver_event e Ie) as (payload & _ & ->). cbn. split_and!; try done.
    by destruct (event_kind e).
  - destruct deliver_marker as (payload & _ & Ed). unfold deliver. by rewrite Ed.
Qed.

Lemma push_pending_step xs x : arrived (xs ++ [x]) ->
  push_pending (deliver x) (pending_after xs) =
    (Ok (if complete (xs ++ [x]) then Some b else None), pending_after (xs ++ [x])).
Proof using Pu.
  intros A. assert (x ∈ items) as Ix by (apply A, elem_of_app; right; left).
  destruct (deliver_header x Ix) as (Eh & Ec & _ & _ & Es).
  unfold push_pending. rewrite st_bind_get, Eh, Ec. cbn [pending_height pending_chain_id pending_after].
  rewrite Z.eqb_refl, String.eqb_refl. cbn [negb orb]. rewrite st_bind_modify.
  assert (match dl_subject (deliver x) with BlockCommitted => push_marker (deliver x)
    | _ => push_event (deliver x) end (add_message_id (message_id (deliver x)) (pending_after xs)) =
    (Ok tt, pending_after (xs ++ [x]))) as St.
  { destruct x as [e|].
    - destruct (dl_subject (deliver (Some e))) eqn:D;
        [destruct Es as [Es _]; by specialize (Es eq_refl)|..]; by apply push_event_step.
    - rewrite (proj2 Es) by done. by apply push_marker_step. }
  rewrite (st_bind_Ok _ _ _ _ _ St), st_bind_get, try_assemble_eq by done. done.
Qed.

(** The assembler while the block is pending: [a] holds the other blocks. *)
Definition assembler_after (a : BlockAssembler P) xs : BlockAssembler P :=
  match xs with
  | [] => a
  | _ => if complete xs then a else bt_insert (canonical_block_hash b) (pending_after xs) a
  end.

Lemma assembler_after_snoc a xs x :
  assembler_after a (xs ++ [x]) =
    if complete (xs ++ [x]) then a else bt_insert (canonical_block_hash b) (pending_after (xs ++ [x])) a.
Proof. by destruct xs. Qed.

Lemma entry_after a xs x :
  x ∈ items -> bt_get (canonical_block_hash b) a = None -> complete xs = false ->
  default (new_pending (deliver x)) (bt_get (canonical_block_hash b) (assembler_after a xs)) =
    pending_after xs.
Proof using Pu.
  intros Ix Na Nc. destruct xs as [|y xs]; cbn [assembler_after].
  - rewrite Na. destruct (deliver_header x Ix) as (Eh & Ec & _). unfold new_pending. cbn. by rewrite Eh, Ec.
  - by rewrite Nc, bt_get_insert_eq.
Qed.

Lemma insert_after a xs p : bt_sorted a -> complete xs = false ->
  bt_insert (canonical_block_hash b) p (assembler_after a xs) = bt_insert (canonical_block_hash b) p a.
Proof. intros So Nc. destruct xs; cbn [assembler_after]; [done|]. by rewrite Nc, bt_insert_insert. Qed.

Lemma room_after a xs :
  bt_get (canonical_block_hash b) a = None -> bt_len a < MAX_PENDING_BLOCKS -> complete xs = false ->
  negb (bt_contains (canonical_block_hash b) (assembler_after a xs)) &&
    (MAX_PENDING_BLOCKS <=? bt_len (assembler_after a xs)) = false.
Proof.
  intros Na La Nc. destruct xs as [|y xs]; cbn [assembler_after].
  - rewrite (proj2 (Z.leb_gt _ _)) by lia. apply andb_false_r.
  - rewrite Nc. rewrite (proj2 (bt_contains_true _ _)); [done|]. by rewrite bt_get_insert_eq.
Qed.

Lemma assembler_push_step a xs x :
  bt_sorted a -> bt_get (canonical_block_hash b) a = None -> bt_len a < MAX_PENDING_BLOCKS ->
  arrived (xs ++ [x]) -> complete xs = false ->
  assembler_push (deliver x) (assembler_after a xs) =
    (Ok (if complete (xs ++ [x]) then Some (mkAssembled b (message_id ∘ deliver <$> xs ++ [x])) else None),
     assembler_after a (xs ++ [x])).
Proof using Pu.
  intros So Na La A Nc. assert (x ∈ items) as Ix by (apply A, elem_of_app; right; left).
  destruct (deliver_header x Ix) as (Eh & Ec & Eb & Esh & _).
  unfold assembler_push. rewrite Esh, bool_decide_true by done. cbn [negb].
  rewrite st_bind_get, Eb, room_after by done.
  assert (with_entry (deliver x) (push_pending (deliver x)) (assembler_after a xs) =
    (Ok (if complete (xs ++ [x]) then Some b else None),
     bt_insert (canonical_block_hash b) (pending_after (xs ++ [x])) a)) as We.
  { unfold with_entry. rewrite Eb, entry_after, push_pending_step by done. by rewrite insert_after. }
  rewrite (st_bind_Ok _ _ _ _ _ We), assembler_after_snoc.
  destruct (complete (xs ++ [x])); [|done]. rewrite st_bind_get, st_bind_modify, bt_get_insert_eq.
  by rewrite bt_remove_insert.
Qed.

Lemma items_arrived xs : xs ≡ₚ items -> arrived xs.
Proof using Pu.
  intros E. split; [|intros x; by rewrite E]. rewrite E. unfold items. constructor.
  - intros I. by apply list_elem_of_fmap in I as (? & ? & _).
  - apply NoDup_fmap_2; [apply _|]. eapply NoDup_fmap_1, (valid_ids _ _ _ _ _ block_valid).
Qed.

Lemma incomplete xs x ys : xs ++ x :: ys ≡ₚ items -> complete xs = false.
Proof using Pu.
  intros E. pose proof (items_arrived _ E) as A. pose proof (arrived_app _ _ A) as A0.
  assert (x ∉ xs) as Nx.
  { destruct A as [(_ & N & _)%NoDup_app _]. intros I. eapply N; [exact I|left]. }
  unfold complete. destruct x as [e|].
  - apply andb_false_iff. right. apply Z.eqb_neq. intros L.
    pose proof (held_submseteq _ A0) as Su.
    assert (held xs ≡ₚ events b) as Pe by (apply submseteq_length_Permutation; unfold zlen in L; [done|lia]).
    apply Nx, elem_of_held. rewrite Pe. eapply held_in_block; [exact A|].
    apply elem_of_held, elem_of_app. right. left.
  - apply andb_false_iff. left. apply not_true_is_false. by rewrite has_marker_true.
Qed.

Lemma all_complete xs : xs ≡ₚ items -> complete xs = true.
Proof using Pu.
  intros E. unfold complete. apply andb_true_iff. split.
  - apply has_marker_true. rewrite E. left.
  - apply Z.eqb_eq. unfold zlen. f_equal. apply Permutation_length.
    pose proof (held_submseteq _ (items_arrived _ E)) as Su.
    apply NoDup_Permutation.
    + by eapply NoDup_fmap_1, held_NoDup, items_arrived.
    + eapply NoDup_fmap_1, (valid_ids _ _ _ _ _ block_valid).
    + intros e. rewrite elem_of_held, E. unfold items. rewrite elem_of_cons, list_elem_of_fmap. naive_solver.
Qed.
End one_block.

Fixpoint push_all (ds : list CanonicalDelivery)
  : st (BlockAssembler P) (halt JetStreamReplayError) (list (option (AssembledBlock P))) :=
  match ds with
  | [] => mret []
  | d :: ds => r ← assembler_push d; rs ← push_all ds; mret (r :: rs)
  end.

Lemma push_all_from b r dm des a xs y ys :
  published b r dm des ->
  bt_sorted a -> bt_get (canonical_block_hash b) a = None -> bt_len a < MAX_PENDING_BLOCKS ->
  xs ++ y :: ys ≡ₚ items b ->
  push_all (deliver b r dm <$> y :: ys) (assembler_after b r dm a xs) =
    (Ok (replicate (length ys) None ++
         [Some (mkAssembled b (message_id ∘ deliver b r dm <$> xs ++ y :: ys))]), a).
Proof.
  intros Pu So Na La. revert xs y. induction ys as [|z ys IH]; intros xs y E; rewrite fmap_cons; cbn [push_all].
  - pose proof (assembler_push_step _ _ _ _ Pu a xs y So Na La (items_arrived _ _ _ _ Pu _ E)
      (incomplete _ _ _ _ Pu _ _ _ E)) as St.
    rewrite (all_complete _ _ _ _ Pu _ E) in St. rewrite (st_bind_Ok _ _ _ _ _ St).
    rewrite assembler_after_snoc, (all_complete _ _ _ _ Pu _ E). done.
  - pose proof (incomplete _ _ _ _ Pu _ _ _ E) as Nx. rewrite (cons_middle y xs), app_assoc in E |- *.
    pose proof (assembler_push_step _ _ _ _ Pu a xs y So Na La
      (arrived_app _ _ _ (items_arrived _ _ _ _ Pu _ E)) Nx) as St.
    rewrite (incomplete _ _ _ _ Pu _ _ _ E) in St.
    rewrite (st_bind_Ok _ _ _ _ _ St), (st_bind_Ok _ _ _ _ _ (IH _ _ E)). done.
Qed.

Lemma push_all_published b r dm des ds a :
  published b r dm des -> ds ≡ₚ dm :: des ->
  bt_sorted a -> bt_get (canonical_block_hash b) a = None -> bt_len a < MAX_PENDING_BLOCKS ->
  push_all ds a = (Ok (replicate (length des) None ++ [Some (mkAssembled b (message_id <$> ds))]), a).
Proof.
  intros Pu E So Na La. pose proof (Permutation_length E) as Ln. rewrite (deliver_items _ _ _ _ Pu) in E.
  apply Permutation_map_inv in E as (xs & -> & E). rewrite length_map in Ln.
  destruct xs as [|y ys]; [by apply Permutation_nil_r in E|].
  injection Ln as Ln. pose proof (push_all_from _ _ _ _ a [] y ys Pu So Na La (symmetry E)) as Pa.
  rewrite app_nil_l, list_fmap_compose, Ln in Pa. exact Pa.
Qed.

(** C24. Assembly is exact and does not depend on the order of delivery. The
    marker of a published block and the deliveries of its events may arrive in
    any order, while other blocks are pending: nothing is released before the
    last of them, which releases exactly the block that was published with
    every message that has to be acknowledged, and the assembler is left as it
    was. *)
Theorem block_assembles_in_any_order b r dm des ds a :
  published b r dm des -> ds ≡ₚ dm :: des ->
  bt_sorted a -> bt_get (canonical_block_hash b) a = None -> bt_len a < MAX_PENDING_BLOCKS ->
  push_all ds a = (Ok (replicate (length des) None ++ [Some (mkAssembled b (message_id <$> ds))]), a).
Proof. apply push_all_published. Qed.
End assembling.

(** ** Consuming *)

Section consuming_theory.
Context {P R T : Type} `{EventPayload P} `{EventCodec P} `{EventReducer P R}.
Context `{AtomicStateStore T} `{Sha256} `{Hex} `{Blake3}.
Abbreviation jet_session := (JetStreamReplaySession P R T InMemorySource).
Implicit Types (s : jet_session) (report : JetStreamReplayReport).

Definition jet_ledger s : CanonicalLedger R := ledger (session (jet_runtime s)).
Definition set_session (rt : StateRuntime R T) (s : Session R T) : StateRuntime R T :=
  mkRuntime s (genesis_height rt) (rt_health rt) (reconciliation rt).
Definition acknowledge (ids : list string) (src : InMemorySource) : InMemorySource :=
  mkInMemory (queued src) (bt_extend (acked src) ((fun id => (id, tt)) <$> ids)).

(** What applying an assembled block does, by what the session does. *)
Lemma apply_assembled_eq report x s :
  let '(r1, s1) := apply_block_durably (assembled_block x) (session (jet_runtime s)) in
  let rt := set_session (jet_runtime s) s1 in
  let done applied already :=
    (Ok (mkJetReport applied already (Some (block_height (assembled_block x)))
           (ledger_hash (ledger s1)) false false),
     mkJetSession rt (jet_assembler s) (acknowledge (assembled_message_ids x) (jet_source s))) in
  apply_assembled report x s =
  match r1 with
  | Err e => (Err (Failed (JetReplay (ReplayDurable e))), mkJetSession rt (jet_assembler s) (jet_source s))
  | Ok (DurablyApplied _ _) =>
      match int_add U64 (jet_applied report) 1 with
      | None => (Err (Failed JetOverflow), mkJetSession rt (jet_assembler s) (jet_source s))
      | Some applied => done applied (jet_already_applied report)
      end
  | Ok (DurablyAlready _) =>
      done (jet_applied report) (int_saturating_add U64 (jet_already_applied report) 1)
  end.
Proof.
  destruct (apply_block_durably (assembled_block x) (session (jet_runtime s))) as [r1 s1] eqn:D.
  unfold apply_assembled.
  assert (on_runtime (on_session (apply_next (assembled_block x))) s =
    (map_err (Failed ∘ JetReplay ∘ ReplayDurable) r1,
     mkJetSession (set_session (jet_runtime s) s1) (jet_assembler s) (jet_source s))) as On.
  { unfold on_runtime, on_session, apply_next, st_map_err. rewrite D. by destruct r1. }
  apply durable_apply_ledger in D.
  destruct r1 as [[d disp|cp]|e]; cbn [map_err] in On.
  - rewrite (st_bind_Ok _ _ _ _ _ On).
    destruct (int_add U64 (jet_applied report) 1) as [applied|]; cbn [ok_or]; [|done].
    pose proof (applied_watermark _ _ _ _ D) as (W & _).
    unfold mbind, st_bind, st_lift, st_get, checkpoint, align_watermarks. cbn. rewrite W. cbn.
    by rewrite Z.eqb_refl.
  - by rewrite (st_bind_Ok _ _ _ _ _ On).
  - by rewrite (st_bind_Err _ _ _ _ _ On).
Qed.

(** *** Acknowledgements *)

(** The ledger takes in the blocks one after the other, each applied or found
    applied. *)
Definition takes_in (bs : list (BlockEnvelope P)) (l l' : CanonicalLedger R) : Prop :=
  exists rs, apply_blocks bs l = (rs, l') /\ Forall (fun br => exists o, br.2 = Ok o) rs.

Lemma takes_in_one b l o l' : apply_block b l = (Ok o, l') -> takes_in [b] l l'.
Proof. intros A. unfold takes_in. cbn. rewrite A. eexists. split; [done|]. repeat constructor. eauto. Qed.

Lemma takes_in_app bs bs' l l1 l' : takes_in bs l l1 -> takes_in bs' l1 l' -> takes_in (bs ++ bs') l l'.
Proof.
  intros (rs & A & F). revert l rs A F. induction bs as [|b bs IH]; intros l rs A F T'; cbn in A.
  { by injection A as <- <-. }
  destruct (apply_block b l) as [o l2] eqn:Ab, (apply_blocks bs l2) as [rs1 l3] eqn:A1.
  injection A as <- <-. apply Forall_cons in F as [Fo F].
  destruct (IH _ _ A1 F T') as (rs2 & A2 & F2). unfold takes_in. cbn. rewrite Ab, A2.
  eexists. split; [done|]. by constructor.
Qed.

(** What a run did: the assembled blocks, all built by the validating
    constructor, were taken in, and every new acknowledgement is of one. *)
Record consumed s (xs : list (AssembledBlock P)) s' : Prop := {
  cs_ledger : takes_in (assembled_block <$> xs) (jet_ledger s) (jet_ledger s');
  cs_valid : Forall (fun x => let b := assembled_block x in
    block_try_new (chain_id b) (block_height b) (block_time b) (confirmation_class b) (events b)
      (source_block_hashes b) = Ok b) xs;
  cs_acked : forall id, id ∈ bt_keys (acked (jet_source s')) ->
    id ∈ bt_keys (acked (jet_source s)) \/ id ∈ concat (assembled_message_ids <$> xs);
}.

Lemma consumed_same s s' :
  jet_ledger s' = jet_ledger s -> acked (jet_source s') = acked (jet_source s) -> consumed s [] s'.
Proof.
  intros El Ea. split; [|constructor|rewrite Ea; by left]. rewrite El. exists []. split; [done|constructor].
Qed.

Lemma consumed_trans s xs s1 ys s' : consumed s xs s1 -> consumed s1 ys s' -> consumed s (xs ++ ys) s'.
Proof.
  intros [L1 V1 A1] [L2 V2 A2]. split.
  - rewrite fmap_app. by eapply takes_in_app.
  - by apply Forall_app.
  - intros id I. rewrite fmap_app, concat_app, elem_of_app. destruct (A2 id I) as [I1|]; [|auto].
    destruct (A1 id I1); auto.
Qed.

Lemma elem_of_extend_keys (m : btmap string unit) ids id :
  id ∈ bt_keys (bt_extend m ((fun id => (id, tt)) <$> ids)) -> id ∈ bt_keys m \/ id ∈ ids.
Proof.
  revert m. induction ids as [|i ids IH]; intros m I; [by left|]. apply IH in I as [I|]; [|right; by right].
  unfold bt_keys in I. apply list_elem_of_fmap in I as ([k u] & -> & I). cbn in I.
  apply bt_insert_elem in I as [I|[E%cmp_eq_leibniz _]].
  - left. apply list_elem_of_fmap. by exists (k, u).
  - cbn. subst. right. left.
Qed.

Lemma try_assemble_valid (p : PendingBlock P) b : try_assemble p = Ok (Some b) ->
  block_try_new (chain_id b) (block_height b) (block_time b) (confirmation_class b) (events b)
    (source_block_hashes b) = Ok b.
Proof.
  unfold try_assemble. destruct (pending_marker p) as [m|]; [|done]. intros E. inv_ok.
  destruct (negb _) in E; [done|]. inv_ok.
  match goal with E : block_try_new _ _ _ _ _ _ = Ok _ |- _ => pose proof E as E1; unfold block_try_new in E1 end.
  inv_ok. done.
Qed.

Lemma assembler_push_valid d (a : BlockAssembler P) x a' : assembler_push d a = (Ok (Some x), a') ->
  let b := assembled_block x in
  block_try_new (chain_id b) (block_height b) (block_time b) (confirmation_class b) (events b)
    (source_block_hashes b) = Ok b.
Proof.
  intros E. unfold assembler_push in E. destruct (negb _) in E; [done|]. rewrite st_bind_get in E.
  destruct (_ && _) in E; [done|].
  destruct (with_entry d (push_pending d) a) as [[[b|]|h] a1] eqn:We.
  - rewrite (st_bind_Ok _ _ _ _ _ We) in E. injection E as <- _. cbn. unfold with_entry in We.
    destruct (push_pending d _) as [r p] eqn:Pp. injection We as -> _. unfold push_pending in Pp. inv_st.
    match goal with E : (if _ then _ else _) _ = _ |- _ => apply st_if_throw_inv in E as [_ E] end.
    inv_st. by eapply try_assemble_valid.
  - rewrite (st_bind_Ok _ _ _ _ _ We) in E. done.
  - rewrite (st_bind_Err _ _ _ _ _ We) in E. done.
Qed.

Lemma apply_assembled_consumed report x s r s' :
  (let b := assembled_block x in
   block_try_new (chain_id b) (block_height b) (block_time b) (confirmation_class b) (events b)
     (source_block_hashes b) = Ok b) ->
  apply_assembled report x s = (r, s') -> exists xs, consumed s xs s'.
Proof.
  intros V E. pose proof (apply_assembled_eq report x s) as Eq.
  destruct (apply_block_durably (assembled_block x) (session (jet_runtime s))) as [r1 s1] eqn:D.
  apply durable_apply_ledger in D. rewrite E in Eq. cbn zeta in Eq.
  assert (forall o a src, apply_block (assembled_block x) (jet_ledger s) = (Ok o, ledger s1) ->
    (forall id, id ∈ bt_keys (acked src) ->
       id ∈ bt_keys (acked (jet_source s)) \/ id ∈ assembled_message_ids x) ->
    exists xs, consumed s xs (mkJetSession (set_session (jet_runtime s) s1) a src)) as One.
  { intros o a src A Ac. exists [x]. split; [by eapply takes_in_one|by repeat constructor|].
    cbn. rewrite app_nil_r. exact Ac. }
  destruct r1 as [[d disp|cp]|e].
  - destruct (int_add U64 (jet_applied report) 1); injection Eq as _ ->.
    + eapply One; [exact D|]. intros id. cbn. apply elem_of_extend_keys.
    + eapply One; [exact D|]. by left.
  - injection Eq as _ ->. eapply One; [exact D|]. intros id. cbn. apply elem_of_extend_keys.
  - injection Eq as _ ->. exists []. by apply consumed_same.
Qed.

Lemma consume_delivery_consumed report d s r s' :
  consume_delivery report d s = (r, s') -> exists xs, consumed s xs s'.
Proof.
  intros E. unfold consume_delivery in E.
  assert (on_assembler (assembler_push d) s = let '(r, a) := assembler_push d (jet_assembler s) in
    (r, mkJetSession (jet_runtime s) a (jet_source s))) as On by done.
  destruct (assembler_push d (jet_assembler s)) as [[[x|]|h] a] eqn:Pu.
  - rewrite (st_bind_Ok _ _ _ _ _ On) in E. apply assembler_push_valid in Pu.
    apply apply_assembled_consumed in E as [xs C]; [|done]. exists xs.
    change xs with ([] ++ xs). eapply consumed_trans; [|exact C]. by apply consumed_same.
  - rewrite (st_bind_Ok _ _ _ _ _ On) in E. injection E as _ <-. exists []. by apply consumed_same.
  - rewrite (st_bind_Err _ _ _ _ _ On) in E. injection E as _ <-. exists []. by apply consumed_same.
Qed.

Lemma consume_batch_consumed report batch s r s' :
  consume_batch report batch s = (r, s') -> exists xs, consumed s xs s'.
Proof.
  revert report s. induction batch as [|d batch IH]; intros report s E; cbn [consume_batch] in E.
  { injection E as _ <-. exists []. by apply consumed_same. }
  destruct (consume_delivery report d s) as [[report1|h] s1] eqn:E1.
  - rewrite (st_bind_Ok _ _ _ _ _ E1) in E. apply consume_delivery_consumed in E1 as [xs C].
    apply IH in E as [ys C']. exists (xs ++ ys). by eapply consumed_trans.
  - rewrite (st_bind_Err _ _ _ _ _ E1) in E. injection E as _ <-. by apply consume_delivery_consumed in E1.
Qed.

Lemma consume_loop_consumed fuel report s r s' :
  consume_loop fuel report s = (r, s') -> exists xs, consumed s xs s'.
Proof.
  revert report s. induction fuel as [|fuel IH]; intros report s E; cbn [consume_loop] in E.
  { injection E as _ <-. exists []. by apply consumed_same. }
  set (s1 := mkJetSession (jet_runtime s) (jet_assembler s)
    (mkInMemory (drop FETCH_BATCH (queued (jet_source s))) (acked (jet_source s))) : jet_session).
  assert (on_source (fetch FETCH_BATCH) s = (Ok (take FETCH_BATCH (queued (jet_source s))), s1)) as On by done.
  assert (consumed s [] s1) as C1 by (by apply consumed_same).
  rewrite (st_bind_Ok _ _ _ _ _ On) in E. destruct (is_empty _).
  { rewrite st_bind_get in E. exists []. by destruct (negb _); injection E as _ <-. }
  destruct (consume_batch report (take FETCH_BATCH (queued (jet_source s))) s1) as [[report1|h] s2] eqn:E1.
  - rewrite (st_bind_Ok _ _ _ _ _ E1) in E. apply consume_batch_consumed in E1 as [xs C].
    apply IH in E as [ys C']. exists ([] ++ (xs ++ ys)).
    eapply consumed_trans; [exact C1|]. by eapply consumed_trans.
  - rewrite (st_bind_Err _ _ _ _ _ E1) in E. injection E as _ <-.
    apply consume_batch_consumed in E1 as [xs C]. exists ([] ++ xs). by eapply consumed_trans.
Qed.

(** Nothing is acknowledged before it is durable. Whatever a source
    delivers and however the run ends, the ledger has taken in exactly the
    blocks the assembler released, in order, each applied or found applied;
    each of them is a block the validating constructor builds; and every
    message acknowledged by the run belongs to one of them. *)
Theorem acks_follow_application fuel s r s' :
  consume_available fuel s = (r, s') -> exists xs, consumed s xs s'.
Proof. unfold consume_available. rewrite st_bind_get. apply consume_loop_consumed. Qed.

(** *** The consumer as a replay *)

Definition set_queue (q : list CanonicalDelivery) s : jet_session :=
  mkJetSession (jet_runtime s) (jet_assembler s) (mkInMemory q (acked (jet_source s))).
Definition set_assembler (a : BlockAssembler P) s : jet_session :=
  mkJetSession (jet_runtime s) a (jet_source s).

Lemma consume_delivery_eq report d s : consume_delivery report d s =
  match assembler_push d (jet_assembler s) with
  | (Err h, a) => (Err h, set_assembler a s)
  | (Ok None, a) => (Ok report, set_assembler a s)
  | (Ok (Some x), a) => apply_assembled report x (set_assembler a s)
  end.
Proof.
  unfold consume_delivery.
  assert (on_assembler (assembler_push d) s = let '(r, a) := assembler_push d (jet_assembler s) in
    (r, set_assembler a s)) as On by done.
  destruct (assembler_push d (jet_assembler s)) as [[[x|]|h] a].
  - by rewrite (st_bind_Ok _ _ _ _ _ On).
  - by rewrite (st_bind_Ok _ _ _ _ _ On).
  - by rewrite (st_bind_Err _ _ _ _ _ On).
Qed.

(** The queue plays no part in the work on a delivery. *)
Lemma consume_delivery_queue q report d s r s' :
  consume_delivery report d s = (r, s') -> consume_delivery report d (set_queue q s) = (r, set_queue q s').
Proof.
  rewrite !consume_delivery_eq. cbn [jet_assembler set_queue].
  destruct (assembler_push d (jet_assembler s)) as [[[x|]|h] a]; [|by intros [= <- <-]..].
  pose proof (apply_assembled_eq report x (set_assembler a s)) as E1.
  pose proof (apply_assembled_eq report x (set_assembler a (set_queue q s))) as E2.
  cbn [jet_runtime set_assembler set_queue] in E1, E2.
  destruct (apply_block_durably (assembled_block x) (session (jet_runtime s))) as [r1 s1].
  rewrite E1, E2. destruct r1 as [[|]|]; [destruct (int_add U64 (jet_applied report) 1)|..];
    by intros [= <- <-].
Qed.

Lemma consume_batch_queue q report batch s r s' :
  consume_batch report batch s = (r, s') -> consume_batch report batch (set_queue q s) = (r, set_queue q s').
Proof.
  revert report s. induction batch as [|d batch IH]; intros report s E; cbn [consume_batch] in *.
  { by injection E as <- <-. }
  destruct (consume_delivery report d s) as [[report1|h] s1] eqn:E1;
    apply (consume_delivery_queue q) in E1 as E2.
  - rewrite (st_bind_Ok _ _ _ _ _ E1) in E. rewrite (st_bind_Ok _ _ _ _ _ E2). auto.
  - rewrite (st_bind_Err _ _ _ _ _ E1) in E. rewrite (st_bind_Err _ _ _ _ _ E2). by injection E as <- <-.
Qed.

Lemma consume_batch_app report l k s : consume_batch report (l ++ k) s =
  match consume_batch report l s with
  | (Ok report1, s1) => consume_batch report1 k s1
  | (Err h, s1) => (Err h, s1)
  end.
Proof.
  revert report s. induction l as [|d l IH]; intros report s; [done|]. cbn [app consume_batch].
  destruct (consume_delivery report d s) as [[report1|h] s1] eqn:E.
  - by rewrite !(st_bind_Ok _ _ _ _ _ E).
  - by rewrite !(st_bind_Err _ _ _ _ _ E).
Qed.

(** Fetching in batches drains the queue. *)
Lemma consume_loop_drains fuel report q s report' s' :
  (length q < fuel)%nat -> consume_batch report q s = (Ok report', s') -> jet_assembler s' = [] ->
  consume_loop fuel report (set_queue q s) = (Ok (Some report'), set_queue [] s').
Proof.
  revert report q s. induction fuel as [|fuel IH]; intros report q s Lq E Ea; [lia|]. cbn [consume_loop].
  assert (on_source (fetch FETCH_BATCH) (set_queue q s) =
    (Ok (take FETCH_BATCH q), set_queue (drop FETCH_BATCH q) s)) as On by done.
  rewrite (st_bind_Ok _ _ _ _ _ On). clear On. destruct q as [|d q].
  { cbn. injection E as <- <-. rewrite st_bind_get. cbn. by rewrite Ea. }
  change (is_empty (take FETCH_BATCH (d :: q))) with false. cbn iota.
  rewrite <- (take_drop FETCH_BATCH (d :: q)), consume_batch_app in E.
  destruct (consume_batch report (take FETCH_BATCH (d :: q)) s) as [[report1|h] s1] eqn:E1; [|done].
  apply (consume_batch_queue (drop FETCH_BATCH (d :: q))) in E1. rewrite (st_bind_Ok _ _ _ _ _ E1).
  apply IH; [|done|done]. rewrite length_drop. unfold FETCH_BATCH. cbn in *. lia.
Qed.

(** Deliveries that release one block, at the last of them. *)
Lemma consume_batch_released report ds n x a s :
  push_all ds (jet_assembler s) = (Ok (replicate n None ++ [Some x]), a) ->
  consume_batch report ds s = apply_assembled report x (set_assembler a s).
Proof.
  revert n s. induction ds as [|d ds IH]; intros n s E; cbn [push_all] in E.
  { injection E as E _. by destruct n. }
  cbn [consume_batch]. inv_st.
  match goal with E : assembler_push d _ = (Ok ?y, ?b), F : push_all ds _ = (Ok ?ys, _) |- _ =>
    rename E into Ed, F into Es, y into o, ys into os, b into a1 end.
  pose proof (consume_delivery_eq report d s) as Cd. rewrite Ed in Cd.
  destruct n as [|n]; cbn in E; injection E as E' E; subst.
  - destruct ds as [|d' ds]; [|cbn [push_all] in Es; by inv_st]. injection Es as <-.
    destruct (consume_delivery report d s) as [[report1|h] s2] eqn:Cs.
    + by rewrite (st_bind_Ok _ _ _ _ _ Cs).
    + by rewrite (st_bind_Err _ _ _ _ _ Cs).
  - rewrite (st_bind_Ok _ _ _ _ _ Cd). by rewrite (IH n).
Qed.

(** The deliveries [ds] publish [b], in some order. *)
Definition published_as (b : BlockEnvelope P) (ds : list CanonicalDelivery) : Prop :=
  exists r dm des, published b r dm des /\ ds ≡ₚ dm :: des.

Lemma consume_block b ds report s :
  published_as b ds -> jet_assembler s = [] ->
  consume_batch report ds s = apply_assembled report (mkAssembled b (message_id <$> ds)) s.
Proof.
  intros (r & dm & des & Pu & E) Ea.
  rewrite (consume_batch_released report ds (length des) (mkAssembled b (message_id <$> ds)) []).
  - destruct s. cbn in *. by subst.
  - rewrite Ea. eapply push_all_published; [exact Pu|exact E|apply bt_sorted_nil|done|done].
Qed.

Lemma acknowledge_app ids ids' src :
  acknowledge (ids ++ ids') src = acknowledge ids' (acknowledge ids src).
Proof. unfold acknowledge. cbn. by rewrite fmap_app, bt_extend_app. Qed.

Lemma consume_blocks bs dss report s a al last w :
  Forall2 published_as bs dss -> jet_assembler s = [] ->
  jet_state_hash report = ledger_hash (jet_ledger s) ->
  live_qualified report = false -> stage_2_qualified report = false ->
  replay_from (jet_applied report) (jet_already_applied report) (jet_last_height report) (Ok <$> bs)
    (session (jet_runtime s)) = (Ok (a, al, last), w) ->
  consume_batch report (concat dss) s =
    (Ok (mkJetReport a al last (ledger_hash (ledger w)) false false),
     mkJetSession (set_session (jet_runtime s) w) [] (acknowledge (message_id <$> concat dss) (jet_source s))).
Proof.
  intros F. revert report s. induction F as [|b ds bs dss Pb F IH]; intros report s Ea Eh El Es Rp.
  { injection Rp as <- <- <- <-. destruct report, s as [[] ? []]. cbn in *. by subst. }
  cbn [concat]. rewrite consume_batch_app, (consume_block b) by done.
  rewrite fmap_cons in Rp. cbn [replay_from map_err] in Rp. rewrite st_bind_lift_Ok in Rp.
  pose proof (apply_assembled_eq report (mkAssembled b (message_id <$> ds)) s) as Aa.
  assert (apply_next b (session (jet_runtime s)) =
    let '(r, w) := apply_block_durably b (session (jet_runtime s)) in (map_err ReplayDurable r, w)) as An by done.
  cbn [assembled_block assembled_message_ids] in Aa.
  destruct (apply_block_durably b (session (jet_runtime s))) as [[[d disp|cp]|e] w1] eqn:D; cbn [map_err] in An.
  - rewrite (st_bind_Ok _ _ _ _ _ An) in Rp. cbn zeta in Aa.
    destruct (int_add U64 (jet_applied report) 1) as [a1|]; [|done]. cbn [ok_or] in Rp.
    rewrite st_bind_lift_Ok in Rp. rewrite Aa, Ea, fmap_app, acknowledge_app. by erewrite IH.
  - rewrite (st_bind_Ok _ _ _ _ _ An) in Rp. cbn zeta in Aa. apply durable_apply_ledger in D.
    rewrite (already_height _ _ _ _ D) in Rp. rewrite Aa, Ea, fmap_app, acknowledge_app. by erewrite IH.
  - by rewrite (st_bind_Err _ _ _ _ _ An) in Rp.
Qed.

(** C4. The consumer implements the replay of the published blocks. When a
    source holds the deliveries of blocks one block after the other, each
    block's in any order, and replaying these blocks succeeds, the consumer
    drains the source, ends with the same ledger and store and the same counts,
    last height and state hash, has acknowledged every message, and has nothing
    pending; one fetch per delivery and one more are always enough. *)
Theorem consumer_refines_replay bs dss (rt : StateRuntime R T) seen summary w fuel :
  Forall2 published_as bs dss ->
  session_replay (Ok <$> bs) (session rt) = (Ok summary, w) ->
  (length (concat dss) < fuel)%nat ->
  consume_available fuel (mkJetSession rt [] (mkInMemory (concat dss) seen)) =
    (Ok (Some (mkJetReport (rep_applied summary) (rep_already_applied summary) (rep_last_height summary)
                 (rep_state_hash summary) false false)),
     mkJetSession (set_session rt w) []
       (mkInMemory [] (bt_extend seen ((fun id => (id, tt)) <$> (message_id <$> concat dss))))).
Proof.
  intros F Rp Lf. unfold session_replay in Rp. rewrite st_bind_get in Rp.
  destruct (replay_from 0 0 (cp_block_height <$> checkpoint (ledger (session rt))) (Ok <$> bs) (session rt))
    as [[[[a al] last]|e] w1] eqn:Rf.
  2: by rewrite (st_bind_Err _ _ _ _ _ Rf) in Rp.
  rewrite (st_bind_Ok _ _ _ _ _ Rf) in Rp. injection Rp as <- <-.
  unfold consume_available. rewrite st_bind_get.
  change (mkJetSession rt [] (mkInMemory (concat dss) seen)) with
    (set_queue (concat dss) (mkJetSession rt [] (mkInMemory [] seen) : jet_session)).
  erewrite consume_loop_drains; [|exact Lf|by eapply consume_blocks|done]. done.
Qed.
End consuming_theory.

(** ** A concrete stream *)

#[local] Existing Instance mixing_blake3.
#[local] Existing Instances sample_hex sample_hex_laws mixing_sha256.
#[local] Instance jet_store : AtomicStateStore Disk := file_engine no_fault some_random core_limits.

Definition no_delivery : CanonicalDelivery := mkDelivery BlockCommitted "" "" "" 0 [] "" [] [] [].
Definition sample_marker (h : Z) : CanonicalDelivery :=
  unwrap no_delivery (committed_block_delivery (published_block h) (published_receipt h)).
Definition sample_delivery (h i : Z) : CanonicalDelivery :=
  unwrap no_delivery
    (committed_event_delivery (published_event h i) (published_block h) (published_receipt h)).

(** The first block's marker comes first, the second's in the middle. *)
Definition sample_stream : list (list CanonicalDelivery) :=
  [[sample_marker 5; sample_delivery 5 1; sample_delivery 5 0];
   [sample_delivery 6 1; sample_marker 6; sample_delivery 6 0]].

Lemma sample_published h : h = 5 \/ h = 6 ->
  published (published_block h) (published_receipt h) (sample_marker h)
    [sample_delivery h 0; sample_delivery h 1].
Proof.
  intros Hh. pose proof (published_publishable h Hh) as Pb.
  assert (forall e l, e = published_event h 0 \/ e = published_event h 1 ->
    encode_to_vec e = Some l -> event_decode l = Some e) as Cd.
  { intros e l He E. destruct Hh as [->| ->], He as [->| ->]; vm_compute in E; injection E as <-;
      vm_compute; reflexivity. }
  destruct Hh as [->| ->].
  all: split; [vm_compute; reflexivity| |exact Pb|exact mixing_sized| |vm_compute; reflexivity|].
  1, 4: repeat (apply Forall_cons; split); try apply Forall_nil_2; vm_compute; repeat split; discriminate.
  1, 3: apply Forall_cons; split; [intros l; apply Cd; left; reflexivity|]; apply Forall_cons; split;
    [intros l; apply Cd; right; reflexivity|apply Forall_nil_2].
  all: repeat (apply Forall2_cons; split); try apply Forall2_nil_2; vm_compute; reflexivity.
Qed.

Definition jet_sample_runtime : StateRuntime TallyReducer Disk :=
  let image := image_empty "hl" 5 "tally@1" in
  mkRuntime (mkSession (mkLedger Tally tally_limits image (image_state_hash image)) clean_disk) 5
    health_green inbox_empty.
Definition jet_sample : JetStreamReplaySession unit TallyReducer Disk InMemorySource :=
  mkJetSession jet_sample_runtime [] (mkInMemory (concat sample_stream) []).

Lemma block_assembles_in_any_order_witness :
  push_all [sample_delivery 6 1; sample_marker 6; sample_delivery 6 0] [] =
    (Ok [None; None;
         Some (mkAssembled (published_block 6)
                 (message_id <$> [sample_delivery 6 1; sample_marker 6; sample_delivery 6 0]))],
     [] : BlockAssembler unit).
Proof.
  apply (block_assembles_in_any_order (published_block 6) (published_receipt 6) (sample_marker 6)
    [sample_delivery 6 0; sample_delivery 6 1]).
  - apply sample_published. by right.
  - apply (Permutation_trans (perm_swap _ _ _)). apply perm_skip, perm_swap.
  - apply bt_sorted_nil.
  - reflexivity.
  - reflexivity.
Defined.

Lemma sample_acked : bt_len (acked (jet_source (consume_available 7 jet_sample).2)) = 6.
Proof. vm_compute. reflexivity. Qed.

Lemma acks_follow_application_witness : exists xs,
  bt_len (acked (jet_source (consume_available 7 jet_sample).2)) = 6 /\
  consumed jet_sample xs (consume_available 7 jet_sample).2.
Proof.
  destruct (acks_follow_application 7 jet_sample (consume_available 7 jet_sample).1
    (consume_available 7 jet_sample).2 (surjective_pairing _)) as [xs C].
  exists xs. split; [exact sample_acked|exact C].
Defined.

Abbreviation sample_replay :=
  (session_replay (Ok <$> [published_block 5; published_block 6]) (session jet_sample_runtime)).
Definition sample_summary : LocalReplayReport := unwrap (mkReplayReport 0 0 None []) sample_replay.1.

Lemma sample_replays : sample_replay = (Ok sample_summary, sample_replay.2).
Proof.
  assert (sample_replay.1 = Ok sample_summary) as E by (vm_compute; reflexivity).
  rewrite <- E. apply surjective_pairing.
Qed.

Lemma sample_summary_counts : rep_applied sample_summary = 2.
Proof. vm_compute. reflexivity. Qed.

Lemma consumer_refines_replay_witness : exists report s',
  consume_available 7 jet_sample = (Ok (Some report), s') /\
  rep_applied sample_summary = 2 /\ jet_applied report = rep_applied sample_summary /\
  jet_ledger s' = ledger sample_replay.2 /\ jet_assembler s' = [] /\ queued (jet_source s') = [].
Proof.
  do 2 eexists. split; [apply (consumer_refines_replay [published_block 5; published_block 6] sample_stream
    jet_sample_runtime [] sample_summary sample_replay.2 7)|].
  - apply Forall2_cons. split; [|apply Forall2_cons; split; [|apply Forall2_nil_2]].
    + exists (published_receipt 5), (sample_marker 5), [sample_delivery 5 0; sample_delivery 5 1].
      split; [apply sample_published; by left|]. apply perm_skip, perm_swap.
    + exists (published_receipt 6), (sample_marker 6), [sample_delivery 6 0; sample_delivery 6 1].
      split; [apply sample_published; by right|].
      apply (Permutation_trans (perm_swap _ _ _)). apply perm_skip, perm_swap.
  - exact sample_replays.
  - cbn. lia.
  - split; [exact sample_summary_counts|]. repeat split.
Defined.
