(* ===== verification/FeatureWindow.v ===== *)
(** * Rolling windows: [feature-core/src/window.rs] and [errors.rs]

    A window keeps the samples of the events it has seen and summarises them:
    their mean, an exponentially weighted mean, a quantile, a covariance or a
    robust score. *)

From Stdlib Require Import Strings.String QArith Sorting.Sorted.
From stdpp Require Import sorting.
From S2P Require Import Prelude Ordering Sorting BTreeMap FixedPoint Ids.

Inductive FeatureError :=
| EmptyIdentifier (field : string)
| Unsupported (what : string)
| Malformed (what reason : string)
| UnregisteredKey (namespace name : string) (version : Z)
| DuplicateEventId
| WindowCapacityExceeded
| InsufficientHistory
| UnsupportedScale (scale : Z)
| ZeroContentHash
| TemporalInversion
| InvalidSupersession
| MissingState.

(** ** Data *)

Definition WINDOW_PARAMETER_VERSION : Z := 1.

Inductive WindowAlgorithm :=
| EventCount | ProtocolTime | ExponentiallyWeighted | QuantileSketch | Covariance | RobustZScore.
#[global] Instance WindowAlgorithm_eq_dec : EqDecision WindowAlgorithm.
Proof. solve_decision. Defined.

Definition algorithm_wire_name (a : WindowAlgorithm) : string :=
  match a with
  | EventCount => "event_count"
  | ProtocolTime => "protocol_time"
  | ExponentiallyWeighted => "exponentially_weighted"
  | QuantileSketch => "quantile_sketch"
  | Covariance => "covariance"
  | RobustZScore => "robust_z_score"
  end.

Record WindowUpdate := mkUpdate {
  upd_event_id : string;
  upd_event_time : Z;
  upd_sequence : Z;
  upd_value : Decimal.t;
  upd_paired_value : option Decimal.t;
}.

Record WindowSnapshot := mkWindowSnapshot {
  ws_algorithm : WindowAlgorithm;
  ws_parameter_version : Z;
  ws_count : Z;
  ws_value : option Decimal.t;
}.

Record Sample := mkSample {
  sample_event_id : string;
  sample_event_time : Z;
  sample_sequence : Z;
  sample_value : Decimal.t;
  sample_paired_value : option Decimal.t;
}.

Record RollingWindow := mkWindow {
  algorithm : WindowAlgorithm;
  parameter_version : Z;
  event_capacity : Z;
  duration_micros : Z;
  decay_ppm : Z;
  quantile_ppm : Z;
  seen : btmap string unit;
  samples : list Sample;
  ewma : option Decimal.t;
}.

Definition set_held (h : btmap string unit * list Sample) (w : RollingWindow) : RollingWindow :=
  mkWindow (algorithm w) (parameter_version w) (event_capacity w) (duration_micros w) (decay_ppm w)
    (quantile_ppm w) h.1 h.2 (ewma w).
Definition set_ewma (v : option Decimal.t) (w : RollingWindow) : RollingWindow :=
  mkWindow (algorithm w) (parameter_version w) (event_capacity w) (duration_micros w) (decay_ppm w)
    (quantile_ppm w) (seen w) (samples w) v.

(** ** Errors of the decimals *)

Definition value_error (e : ValueError) : FeatureError :=
  match e with
  | DivisionByZero => Malformed "window" "division by zero"
  | Overflow => Malformed "window" "overflow"
  | ScaleMismatch _ _ => Malformed "window" "scale mismatch"
  | _ => Malformed "window" "invalid decimal"
  end.

(** The arithmetic of this file, with its errors. *)
Definition dec_raw (raw scale : Z) : result FeatureError Decimal.t :=
  map_err value_error (Decimal.from_raw raw scale).
Definition dec_add (a b : Decimal.t) : result FeatureError Decimal.t :=
  map_err value_error (Decimal.checked_add a b).
Definition dec_sub (a b : Decimal.t) : result FeatureError Decimal.t :=
  map_err value_error (Decimal.checked_sub a b).
Definition dec_mul (a b : Decimal.t) (scale : Z) : result FeatureError Decimal.t :=
  map_err value_error (Decimal.checked_mul a b scale NearestTiesToEven).
Definition dec_div (a b : Decimal.t) (scale : Z) : result FeatureError Decimal.t :=
  map_err value_error (Decimal.checked_div a b scale NearestTiesToEven).

(** ** Construction *)

Definition window_try_new (a : WindowAlgorithm) (capacity duration decay quantile : Z)
  : result FeatureError RollingWindow :=
  if capacity =? 0 then Err (Malformed "window" "capacity must be >= 1") else
  if duration <? 0 then Err (Malformed "window" "duration must be non-negative") else
  if (1000000 <? decay) || (1000000 <? quantile) then Err (Malformed "window" "ppm parameter out of range") else
  _ ← match a with
      | ExponentiallyWeighted =>
          if (decay =? 0) || (decay =? 1000000)
          then Err (Malformed "window" "ewma decay must be exclusive of 0 and 1") else Ok tt
      | QuantileSketch =>
          if 1000000 <? quantile then Err (Malformed "window" "quantile ppm out of range") else Ok tt
      | _ => Ok tt
      end;
  Ok (mkWindow a WINDOW_PARAMETER_VERSION capacity duration decay quantile [] [] None).

(** ** Updates *)

(** [pop_front] while the front is [stale], forgetting the events. *)
Fixpoint pop_while (stale : list Sample -> bool) (seen : btmap string unit) (ss : list Sample)
  : btmap string unit * list Sample :=
  match ss with
  | [] => (seen, [])
  | x :: rest => if stale ss then pop_while stale (bt_remove (sample_event_id x) seen) rest else (seen, ss)
  end.

Definition window_evict (now : Z) : st RollingWindow FeatureError unit :=
  w ← st_get;
  match algorithm w with
  | EventCount =>
      st_modify (set_held (pop_while (fun ss => event_capacity w <? zlen ss) (seen w) (samples w)))
  | ProtocolTime =>
      cutoff ← st_lift (int_sub I64 now (duration_micros w) ??
                          Malformed "window" "protocol time underflow");
      st_modify (set_held (pop_while (fun ss => match ss with
        | x :: _ => sample_event_time x <? cutoff
        | [] => false
        end) (seen w) (samples w)))
  | _ => mret tt
  end.

Definition ewma_step (previous next : Decimal.t) (decay : Z) : result FeatureError Decimal.t :=
  let scale := Decimal.scale previous in
  alpha ← dec_raw decay 6;
  one ← dec_raw 1000000 6;
  one_minus ← dec_sub one alpha;
  left ← dec_mul next alpha scale;
  right ← dec_mul previous one_minus scale;
  dec_add left right.

Definition sample_of (u : WindowUpdate) : Sample :=
  mkSample (upd_event_id u) (upd_event_time u) (upd_sequence u) (upd_value u) (upd_paired_value u).

Definition window_update (u : WindowUpdate) : st RollingWindow FeatureError bool :=
  w ← st_get;
  if bt_contains (upd_event_id u) (seen w) then mret false else
  if (event_capacity w <=? zlen (samples w)) &&
     negb (bool_decide (algorithm w = EventCount) || bool_decide (algorithm w = ProtocolTime))
  then st_throw WindowCapacityExceeded else
  if bool_decide (algorithm w = Covariance) && bool_decide (upd_paired_value u = None)
  then st_throw (Malformed "window_update" "covariance requires paired_value") else
  if match last (samples w) with Some s => upd_sequence u <=? sample_sequence s | None => false end
  then st_throw (Malformed "window_update" "sequence must increase") else
  _ ← st_modify (set_held (bt_insert (upd_event_id u) tt (seen w), samples w ++ [sample_of u]));
  _ ← window_evict (upd_event_time u);
  if bool_decide (algorithm w = ExponentiallyWeighted) then
    value ← st_lift (match ewma w with
                     | None => Ok (upd_value u)
                     | Some previous => ewma_step previous (upd_value u) (decay_ppm w)
                     end);
    _ ← st_modify (set_ewma (Some value));
    mret true
  else mret true.

(** ** Summaries *)

(** [v[i]]: an index out of range panics. *)
Definition index_at {A} (l : list A) (i : nat) : result (halt FeatureError) A := (l !! i) ?? Crashed.
Abbreviation may_panic := (result (halt FeatureError)).
Definition fails {A} (r : result FeatureError A) : may_panic A := map_err Failed r.

Fixpoint sum_decimals (sum : Decimal.t) (values : list Decimal.t) : result FeatureError Decimal.t :=
  match values with
  | [] => Ok sum
  | v :: values => sum ← dec_add sum v; sum_decimals sum values
  end.

(** [i128::try_from(self.samples.len())] as a decimal. *)
Definition count_decimal (n : Z) : result FeatureError Decimal.t :=
  count ← int_try I128 n ?? Malformed "window" "count overflow"; dec_raw count 0.

Definition window_mean (w : RollingWindow) : may_panic (option Decimal.t) :=
  match samples w with
  | [] => Ok None
  | first :: _ =>
      fails (
        let scale := Decimal.scale (sample_value first) in
        zero ← dec_raw 0 scale;
        sum ← sum_decimals zero (sample_value <$> samples w);
        count ← count_decimal (zlen (samples w));
        mean ← dec_div sum count scale;
        Ok (Some mean))
  end.

Definition window_quantile (w : RollingWindow) : may_panic (option Decimal.t) :=
  if is_empty (samples w) then Ok None else
  let values := sort (sample_value <$> samples w) in
  numerator ← fails (int_mul USIZE (zlen (samples w) - 1) (quantile_ppm w)
                       ?? Malformed "window" "quantile overflow");
  v ← index_at values (Z.to_nat (numerator / 1000000));
  Ok (Some v).

(** The sums of the covariance loop. *)
Fixpoint covariance_sums (scale2 : Z) (sums : Decimal.t * Decimal.t * Decimal.t) (ss : list Sample)
  : result FeatureError (Decimal.t * Decimal.t * Decimal.t) :=
  match ss with
  | [] => Ok sums
  | s :: ss =>
      let '(sum_x, sum_y, sum_xy) := sums in
      y ← sample_paired_value s ?? Malformed "window" "missing paired_value";
      sum_x ← dec_add sum_x (sample_value s);
      sum_y ← dec_add sum_y y;
      xy ← dec_mul (sample_value s) y scale2;
      sum_xy ← dec_add sum_xy xy;
      covariance_sums scale2 (sum_x, sum_y, sum_xy) ss
  end.

Definition window_covariance (w : RollingWindow) : may_panic (option Decimal.t) :=
  match samples w with
  | first :: _ :: _ =>
      fails (
        let scale := Decimal.scale (sample_value first) in
        let scale2 := int_saturating_mul U8 scale 2 in
        zero_x ← dec_raw 0 scale;
        zero_y ← dec_raw 0 scale;
        zero_xy ← dec_raw 0 scale2;
        '(sum_x, sum_y, sum_xy) ← covariance_sums scale2 (zero_x, zero_y, zero_xy) (samples w);
        n ← count_decimal (zlen (samples w));
        mean_x ← dec_div sum_x n scale;
        mean_y ← dec_div sum_y n scale;
        mean_xy ← dec_mul mean_x mean_y scale2;
        second ← dec_div sum_xy n scale2;
        c ← dec_sub second mean_xy;
        Ok (Some c))
  | _ => Ok None
  end.

Definition median (values : list Decimal.t) : may_panic Decimal.t :=
  if is_empty values then Err (Failed InsufficientHistory) else
  let mid := (length values / 2)%nat in
  if Nat.eqb (length values mod 2) 0 then
    two ← fails (dec_raw 2 0);
    low ← index_at values (mid - 1);
    high ← index_at values mid;
    sum ← fails (dec_add low high);
    fails (dec_div sum two (Decimal.scale high))
  else index_at values mid.

Fixpoint deviations (location : Decimal.t) (values : list Decimal.t) : result FeatureError (list Decimal.t) :=
  match values with
  | [] => Ok []
  | v :: values =>
      delta ← (if leb location v then dec_sub v location else dec_sub location v);
      rest ← deviations location values;
      Ok (delta :: rest)
  end.

Definition window_robust_z (w : RollingWindow) : may_panic (option Decimal.t) :=
  if zlen (samples w) <? 3 then Err (Failed InsufficientHistory) else
  let values := sort (sample_value <$> samples w) in
  location ← median values;
  ds ← fails (deviations location values);
  mad ← median (sort ds);
  if Decimal.raw mad =? 0 then Err (Failed (Malformed "window" "mad is zero")) else
  last ← last values ?? Failed InsufficientHistory;
  last_dev ← fails (dec_sub last location);
  z ← fails (dec_div last_dev mad (Decimal.scale last));
  Ok (Some z).

Definition window_snapshot (w : RollingWindow) : may_panic WindowSnapshot :=
  value ← match algorithm w with
          | EventCount | ProtocolTime => window_mean w
          | ExponentiallyWeighted => Ok (ewma w)
          | QuantileSketch => window_quantile w
          | Covariance => window_covariance w
          | RobustZScore => window_robust_z w
          end;
  Ok (mkWindowSnapshot (algorithm w) (parameter_version w)
        (Z.min (zlen (samples w)) (ity_max U64)) value).

(** ** The samples a window holds *)

Definition sample_ids (ss : list Sample) : list string := sample_event_id <$> ss.
Definition sample_values (ss : list Sample) : list Decimal.t := sample_value <$> ss.
Abbreviation sequences ss := (sample_sequence <$> ss).

(** [seen] is the set of the events of [ss], which are distinct. *)
Record remembers (seen : btmap string unit) (ss : list Sample) : Prop := {
  rem_sorted : bt_sorted seen;
  rem_ids : forall id, bt_get id seen = Some tt <-> id ∈ sample_ids ss;
  rem_distinct : NoDup (sample_ids ss);
}.

Record window_wf (w : RollingWindow) : Prop := {
  ww_capacity : 1 <= event_capacity w;
  ww_duration : 0 <= duration_micros w <= ity_max I64;
  ww_quantile : 0 <= quantile_ppm w <= 1000000;
  ww_seen : remembers (seen w) (samples w);
  ww_sequence : StronglySorted Z.lt (sequences (samples w));
  ww_count : algorithm w <> ProtocolTime -> zlen (samples w) <= event_capacity w;
  ww_paired : algorithm w = Covariance -> Forall (fun s => sample_paired_value s <> None) (samples w);
}.

Section samples.
Implicit Types (ss : list Sample) (s : Sample).

Lemma remembers_push seen ss s :
  remembers seen ss -> bt_contains (sample_event_id s) seen = false ->
  remembers (bt_insert (sample_event_id s) tt seen) (ss ++ [s]).
Proof.
  intros [S I D] C. apply bt_contains_false in C. split; unfold sample_ids.
  - by apply bt_insert_sorted.
  - intros id. rewrite bt_get_insert, eqb_decide, fmap_app, elem_of_app. cbn. rewrite list_elem_of_singleton.
    rewrite <- I. case_bool_decide as E; [subst; tauto|]. tauto.
  - rewrite fmap_app. apply NoDup_app. split_and!; [done| |apply NoDup_singleton].
    intros id M E%list_elem_of_singleton. apply I in M. subst. by rewrite C in M.
Qed.

Lemma remembers_pop seen s ss :
  remembers seen (s :: ss) -> remembers (bt_remove (sample_event_id s) seen) ss.
Proof.
  intros [S I D]. apply NoDup_cons in D as [N D]. split; [by apply bt_remove_sorted| |done].
  intros id. rewrite bt_get_remove, eqb_decide by done. case_bool_decide as E.
  - subst. split; [done|]. intros M. by destruct N.
  - rewrite I. unfold sample_ids. cbn. rewrite elem_of_cons. tauto.
Qed.

(** What is left is the longest suffix whose front is not stale. *)
Lemma pop_while_spec stale seen ss : remembers seen ss ->
  exists k, (pop_while stale seen ss).2 = drop k ss /\ (k <= length ss)%nat /\
    remembers (pop_while stale seen ss).1 (drop k ss) /\
    (forall j, (j < k)%nat -> stale (drop j ss) = true) /\
    (drop k ss = [] \/ stale (drop k ss) = false).
Proof.
  revert seen. induction ss as [|s ss IH]; intros seen R; cbn [pop_while].
  - exists 0%nat. cbn. split_and!; [done|lia|done|lia|by left].
  - destruct (stale (s :: ss)) eqn:T.
    + destruct (IH (bt_remove (sample_event_id s) seen)) as (k & E & L & R' & F & O);
        [by apply remembers_pop|].
      exists (S k). cbn. split_and!; [done|lia|done| |done].
      intros [|j] J; [done|]. cbn. apply F. lia.
    + exists 0%nat. cbn. split_and!; [done|lia|done|lia|by right].
Qed.

Lemma sequences_push ss s :
  StronglySorted Z.lt (sequences ss) ->
  (forall x, last ss = Some x -> sample_sequence x < sample_sequence s) ->
  StronglySorted Z.lt (sequences (ss ++ [s])).
Proof.
  induction ss as [|x ss IH]; intros S L; cbn; [by repeat constructor|].
  apply StronglySorted_inv in S as [S F]. destruct ss as [|y ss].
  - cbn. repeat constructor. by apply L.
  - constructor; [apply IH; [done|]; intros z Hz; by apply L|].
    rewrite fmap_app. apply Forall_app. split; [done|]. repeat constructor.
    destruct (last (y :: ss)) as [z|] eqn:Z; [|by apply last_None in Z].
    specialize (L z Z). rewrite Forall_forall in F.
    assert (sample_sequence x < sample_sequence z); [|lia]. apply F.
    change (sample_sequence z ∈ sequences (y :: ss)). apply list_elem_of_fmap. exists z. split; [done|].
    by apply last_Some_elem_of.
Qed.

Lemma StronglySorted_drop {A} (R : A -> A -> Prop) (k : nat) (l : list A) :
  StronglySorted R l -> StronglySorted R (drop k l).
Proof.
  revert l. induction k as [|k IH]; intros [|x l] S; cbn; try done.
  apply StronglySorted_inv in S as [S _]. by apply IH.
Qed.
End samples.

(** ** What an update does *)

Definition time_wf (t : Z) : Prop := 0 <= t <= ity_max I64.

(** The samples left of [ss] at [now]. *)
Definition retained (w : RollingWindow) (now : Z) (ss : list Sample) : list Sample :=
  match algorithm w with
  | EventCount => drop (length ss - Z.to_nat (event_capacity w)) ss
  | ProtocolTime => (pop_while (fun ss => match ss with
      | x :: _ => sample_event_time x <? now - duration_micros w
      | [] => false
      end) [] ss).2
  | _ => ss
  end.

Lemma pop_while_samples stale sn sn' ss : (pop_while stale sn ss).2 = (pop_while stale sn' ss).2.
Proof.
  revert sn sn'. induction ss as [|s ss IH]; intros sn sn'; cbn; [done|]. by destruct (stale _).
Qed.

Lemma pop_to_capacity sn c ss : remembers sn ss -> 1 <= c ->
  (pop_while (fun ss => c <? zlen ss) sn ss).2 = drop (length ss - Z.to_nat c) ss.
Proof.
  intros R C. destruct (pop_while_spec (fun ss => c <? zlen ss) sn ss R) as (k & -> & L & _ & F & O).
  assert (k = length ss - Z.to_nat c)%nat as ->; [|done].
  assert (length ss - Z.to_nat c <= k)%nat.
  { destruct O as [E|E].
    - apply (f_equal length) in E. rewrite length_drop in E. cbn in E. lia.
    - apply Z.ltb_ge in E. unfold zlen in E. rewrite length_drop in E. lia. }
  destruct (decide (k = 0%nat)) as [->|K]; [lia|].
  specialize (F (k - 1)%nat ltac:(lia)). apply Z.ltb_lt in F. unfold zlen in F.
  rewrite length_drop in F. lia.
Qed.

Lemma evict_spec w now : time_wf now -> 0 <= duration_micros w <= ity_max I64 ->
  1 <= event_capacity w -> remembers (seen w) (samples w) ->
  exists sn, window_evict now w = (Ok tt, set_held (sn, retained w now (samples w)) w) /\
    remembers sn (retained w now (samples w)).
Proof.
  intros T D C R. unfold window_evict. rewrite st_bind_get. unfold retained.
  destruct (algorithm w) eqn:A; try (exists (seen w); split; [by destruct w|done]).
  - destruct (pop_while_spec (fun ss => event_capacity w <? zlen ss) _ _ R) as (k & E & _ & R' & _).
    rewrite <- (pop_to_capacity (seen w)) by done.
    exists (pop_while (fun ss => event_capacity w <? zlen ss) (seen w) (samples w)).1. split; [done|]. by rewrite E.
  - unfold int_sub. rewrite int_try_wf by (unfold ity_wf, time_wf in *; cbn in *; lia). cbn [ok_or].
    rewrite st_bind_lift_Ok.
    rewrite (pop_while_samples _ [] (seen w)).
    match goal with |- context [pop_while ?f (seen w) _] =>
      destruct (pop_while_spec f _ _ R) as (k & E & _ & R' & _);
      exists (pop_while f (seen w) (samples w)).1 end.
    split; [done|]. by rewrite E.
Qed.

Definition same_parameters (w w' : RollingWindow) : Prop :=
  algorithm w' = algorithm w /\ event_capacity w' = event_capacity w /\
  duration_micros w' = duration_micros w /\ quantile_ppm w' = quantile_ppm w /\
  decay_ppm w' = decay_ppm w /\ parameter_version w' = parameter_version w.

(** An update is ignored, refused, or recorded. A recorded one reports success
    unless the exponentially weighted mean failed. *)
Lemma update_cases w u r w' : window_wf w -> time_wf (upd_event_time u) -> window_update u w = (r, w') ->
  (r = Ok false /\ w' = w /\ upd_event_id u ∈ sample_ids (samples w)) \/
  ((exists e, r = Err e) /\ w' = w) \/
  ((r = Ok true \/ algorithm w = ExponentiallyWeighted /\ exists e, r = Err e) /\
   same_parameters w w' /\
   upd_event_id u ∉ sample_ids (samples w) /\
   (algorithm w <> EventCount -> algorithm w <> ProtocolTime -> zlen (samples w) < event_capacity w) /\
   (algorithm w = Covariance -> upd_paired_value u <> None) /\
   (forall s, last (samples w) = Some s -> sample_sequence s < upd_sequence u) /\
   samples w' = retained w (upd_event_time u) (samples w ++ [sample_of u]) /\
   remembers (seen w') (samples w')).
Proof.
  intros W T R. pose proof (ww_seen w W) as Rm. unfold window_update in R. rewrite st_bind_get in R.
  destruct (bt_contains (upd_event_id u) (seen w)) eqn:Cn.
  { injection R as <- <-. left. apply bt_contains_true in Cn as [[] G]. split_and!; [done..|].
    by apply Rm. }
  pose proof Cn as N. apply bt_contains_false in N.
  assert (upd_event_id u ∉ sample_ids (samples w)) as Ni by (intros M%Rm; congruence).
  destruct (_ && negb _) eqn:Cap; [injection R as <- <-; eauto|].
  destruct (bool_decide (algorithm w = Covariance) && _) eqn:Cov; [injection R as <- <-; eauto|].
  match type of R with (if ?b then _ else _) _ = _ => destruct b eqn:Sq end; [injection R as <- <-; eauto|].
  right; right. rewrite st_bind_modify in R.
  set (w1 := set_held _ w) in R.
  assert (remembers (seen w1) (samples w1)) as R1
    by (by apply (remembers_push (seen w) (samples w) (sample_of u))).
  destruct (evict_spec w1 (upd_event_time u) T (ww_duration w W) (ww_capacity w W) R1) as (sn & E & R2).
  rewrite (st_bind_Ok _ _ _ _ _ E) in R. change (retained w1) with (retained w) in R, R2.
  change (samples w1) with (samples w ++ [sample_of u]) in R, R2.
  assert (forall s, last (samples w) = Some s -> sample_sequence s < upd_sequence u) as Sq'.
  { intros s Ls. rewrite Ls in Sq. bool_to_prop. lia. }
  assert (algorithm w <> EventCount -> algorithm w <> ProtocolTime -> zlen (samples w) < event_capacity w) as Cap'.
  { intros N1 N2. rewrite !bool_decide_false in Cap by done. cbn in Cap. rewrite andb_true_r in Cap.
    bool_to_prop. lia. }
  assert (algorithm w = Covariance -> upd_paired_value u <> None) as Cov'.
  { intros A Pn. rewrite !bool_decide_true in Cov by done. done. }
  case_bool_decide as A.
  - destruct (match ewma w with Some _ => _ | None => _ end) as [v|e]; injection R as <- <-;
      split_and!; try done; [by left|by right; eauto].
  - injection R as <- <-. split_and!; try done. by left.
Qed.

Lemma pop_while_suffix stale sn ss : exists k, (pop_while stale sn ss).2 = drop k ss.
Proof.
  revert sn. induction ss as [|s ss IH]; intros sn; cbn [pop_while]; [by exists 0%nat|].
  destruct (stale _); [|by exists 0%nat]. destruct (IH (bt_remove (sample_event_id s) sn)) as [k E].
  by exists (S k).
Qed.

Lemma retained_suffix w now ss : exists k, retained w now ss = drop k ss.
Proof.
  unfold retained. destruct (algorithm w); [by eexists|apply pop_while_suffix|by exists 0%nat..].
Qed.

Lemma update_wf w u r w' :
  window_wf w -> time_wf (upd_event_time u) -> window_update u w = (r, w') -> window_wf w'.
Proof.
  intros W T R. destruct (update_cases w u r w' W T R) as [(_ & -> & _)|[[_ ->]|U]]; [done..|].
  destruct U as (_ & (Ea & Ec & Ed & Eq & _ & _) & _ & Cap & Cov & Sq & Es & Rm).
  destruct (retained_suffix w (upd_event_time u) (samples w ++ [sample_of u])) as [k K].
  split; rewrite ?Ea, ?Ec, ?Ed, ?Eq; try apply W; [done|..].
  - rewrite Es, K. rewrite fmap_drop. apply StronglySorted_drop, sequences_push; [apply W|done].
  - intros Np. destruct (decide (algorithm w = EventCount)) as [A|A].
    + rewrite Es. unfold retained. rewrite A. unfold zlen. rewrite length_drop. pose proof (ww_capacity w W). lia.
    + specialize (Cap A Np). rewrite Es, K. unfold zlen in *. rewrite length_drop, length_app. cbn. lia.
  - intros A. rewrite Es, K. apply Forall_drop, Forall_app. split; [by apply W|].
    repeat constructor. by apply Cov.
Qed.

Lemma try_new_wf a capacity duration decay quantile w :
  ity_wf USIZE capacity -> ity_wf I64 duration -> ity_wf U32 quantile ->
  window_try_new a capacity duration decay quantile = Ok w -> window_wf w /\ samples w = [] /\ algorithm w = a.
Proof.
  intros C D Q E. unfold window_try_new in E. inv_ok. bool_to_prop. unfold ity_wf in *. cbn in *.
  split; [|done]. split; cbn; try lia; try done.
  - split; [apply bt_sorted_nil| |constructor]. intros id. split; [done|by intros ?%elem_of_nil].
  - constructor.
  - intros _. change (0 <= capacity). lia.
Qed.

(** ** Runs *)

Fixpoint window_run (us : list WindowUpdate) (w : RollingWindow)
  : list (result FeatureError bool) * RollingWindow :=
  match us with
  | [] => ([], w)
  | u :: us =>
      let '(r, w) := window_update u w in
      let '(rs, w) := window_run us w in (r :: rs, w)
  end.

(** The updates that were recorded. *)
Fixpoint accepted (us : list WindowUpdate) (rs : list (result FeatureError bool)) : list WindowUpdate :=
  match us, rs with
  | u :: us, Ok true :: rs => u :: accepted us rs
  | _ :: us, _ :: rs => accepted us rs
  | _, _ => []
  end.

(** What a window promises to hold of the updates [acc]. *)
Definition promised (w : RollingWindow) (acc : list WindowUpdate) : list Sample :=
  let ss := sample_of <$> acc in
  match algorithm w with
  | EventCount => drop (length ss - Z.to_nat (event_capacity w)) ss
  | ProtocolTime =>
      match last acc with
      | Some u => filter (fun s => upd_event_time u - duration_micros w <= sample_event_time s) ss
      | None => []
      end
  | _ => ss
  end.

Definition in_time (us : list WindowUpdate) : Prop :=
  StronglySorted (fun u v => upd_event_time u <= upd_event_time v) us.
Abbreviation aged := (StronglySorted (fun s t => sample_event_time s <= sample_event_time t)).

Lemma filter_keeps_all {A} (P : A -> Prop) `{forall x, Decision (P x)} (l : list A) : Forall P l -> filter P l = l.
Proof. induction 1 as [|x l Px F IH]; [done|]. rewrite filter_cons_True by done. by rewrite IH. Qed.

Lemma pop_stale cutoff sn ss : aged ss ->
  (pop_while (fun ss => match ss with x :: _ => sample_event_time x <? cutoff | [] => false end) sn ss).2 =
  filter (fun s => cutoff <= sample_event_time s) ss.
Proof.
  revert sn. induction ss as [|s ss IH]; intros sn S; cbn [pop_while]; [done|].
  apply StronglySorted_inv in S as [S F].
  destruct (Z.ltb_spec (sample_event_time s) cutoff).
  - rewrite filter_cons_False by lia. by apply IH.
  - rewrite filter_cons_True by done. cbn. f_equal. symmetry. apply filter_keeps_all.
    eapply Forall_impl; [exact F|]. cbn. lia.
Qed.

Lemma sorted_filter {A} (R : A -> A -> Prop) (P : A -> Prop) `{forall x, Decision (P x)} (l : list A) :
  StronglySorted R l -> StronglySorted R (filter P l).
Proof.
  induction 1 as [|x l S IH F]; [constructor|]. rewrite filter_cons. destruct (decide (P x)); [|done].
  constructor; [done|]. rewrite Forall_forall in F |- *. intros y [_ I]%list_elem_of_filter. by apply F.
Qed.

Lemma samples_aged us : in_time us -> aged (sample_of <$> us).
Proof. induction 1 as [|u us S IH F]; cbn; constructor; [done|]. by apply Forall_fmap. Qed.

(** A recorded update takes what was promised to what is promised. *)
Lemma promised_snoc w acc u : (algorithm w = ProtocolTime -> in_time (acc ++ [u])) ->
  retained w (upd_event_time u) (promised w acc ++ [sample_of u]) = promised w (acc ++ [u]).
Proof.
  intros T. unfold retained, promised. rewrite fmap_app. cbn [fmap list_fmap].
  destruct (algorithm w) eqn:A; [| |done..].
  - rewrite !length_app, length_drop. cbn [length]. set (ss := sample_of <$> acc). set (c := Z.to_nat (event_capacity w)).
    destruct (decide (length ss < c)%nat).
    + replace (length ss - c)%nat with 0%nat by lia. f_equal. lia.
    + rewrite <- (drop_app_le _ [sample_of u]) by lia. rewrite drop_drop. f_equal. lia.
  - rewrite last_snoc. specialize (T eq_refl). apply StronglySorted_app in T as (T & Ta & _). rewrite pop_stale.
    + rewrite !filter_app. f_equal. destruct (last acc) as [v|] eqn:L; [|by apply last_None in L as ->].
      apply list_filter_filter_l. intros s Hs.
      assert (upd_event_time v <= upd_event_time u); [|lia].
      apply T; [by apply last_Some_elem_of|by left].
    + assert (aged (sample_of <$> acc)) by by apply samples_aged.
      apply StronglySorted_app. split_and!; [|destruct (last acc); [by apply sorted_filter|constructor]|by repeat constructor].
      intros x y Ix ->%list_elem_of_singleton. destruct (last acc); [|by apply elem_of_nil in Ix].
      apply list_elem_of_filter in Ix as [_ (v & -> & Iv)%list_elem_of_fmap]. apply T; [done|by left].
Qed.

Lemma run_promised us w acc rs w' :
  algorithm w <> ExponentiallyWeighted -> window_wf w -> Forall (fun u => time_wf (upd_event_time u)) us ->
  (algorithm w = ProtocolTime -> in_time (acc ++ us)) -> samples w = promised w acc -> window_run us w = (rs, w') ->
  window_wf w' /\ same_parameters w w' /\ samples w' = promised w (acc ++ accepted us rs).
Proof.
  revert w acc rs. induction us as [|u us IH]; intros w acc rs Na W Tw T E R; cbn [window_run] in R.
  - injection R as <- <-. cbn. rewrite app_nil_r. unfold same_parameters. done.
  - apply Forall_cons in Tw as [Tu Tw].
    destruct (window_update u w) as [r w1] eqn:U. destruct (window_run us w1) as [rs1 w2] eqn:R1.
    injection R as <- <-. pose proof (update_wf _ _ _ _ W Tu U) as W1.
    assert (algorithm w = ProtocolTime -> in_time (acc ++ us)) as T'.
    { intros A. specialize (T A). apply StronglySorted_app in T as (T1 & T2 & T3). apply StronglySorted_inv in T3 as [T3 _].
      apply StronglySorted_app. split_and!; [|done..]. intros x y Ix Iy. apply T1; [done|by right]. }
    destruct (update_cases w u r w1 W Tu U) as [(-> & -> & _)|[[[e ->] ->]|Rec]];
      [by apply (IH w acc rs1)|by apply (IH w acc rs1)|].
    destruct Rec as ([->|[? _]] & P & _ & _ & _ & _ & Es & _); [|done].
    pose proof P as (Ea & Ec & Ed & _). assert (promised w1 = promised w) as Ep
      by (unfold promised; by rewrite Ea, Ec, Ed).
    destruct (IH w1 (acc ++ [u]) rs1) as (W2 & P2 & E2); try done.
    + by rewrite Ea.
    + intros A. rewrite <- app_assoc. apply T. congruence.
    + rewrite Es, E, Ep. apply promised_snoc. intros A. specialize (T A). change (u :: us) with ([u] ++ us) in T. rewrite app_assoc in T.
      by apply StronglySorted_app_1_l in T.
    + split_and!; [done|unfold same_parameters in *; naive_solver congruence|].
      rewrite E2, Ep. cbn [accepted]. by rewrite <- app_assoc.
Qed.


(** ** Summaries *)

Section arithmetic.
Implicit Types (a b r : Decimal.t).

Lemma dec_raw_inv raw scale r : dec_raw raw scale = Ok r -> r = Decimal.mk raw scale.
Proof. unfold dec_raw, Decimal.from_raw. intros E. by inv_ok. Qed.

Lemma dec_add_Ok a b r : Decimal.wf a -> Decimal.wf b -> dec_add a b = Ok r ->
  Decimal.wf r /\ Decimal.scale r = Decimal.scale a /\ Decimal.scale b = Decimal.scale a /\
  Decimal.raw r = Decimal.raw a + Decimal.raw b.
Proof. intros Wa Wb E. unfold dec_add in E. inv_ok. by apply checked_add_Ok. Qed.

Lemma dec_sub_Ok a b r : Decimal.wf a -> Decimal.wf b -> dec_sub a b = Ok r ->
  Decimal.wf r /\ Decimal.scale r = Decimal.scale a /\ Decimal.scale b = Decimal.scale a /\
  Decimal.raw r = Decimal.raw a - Decimal.raw b.
Proof. intros Wa Wb E. unfold dec_sub in E. inv_ok. by apply checked_sub_Ok. Qed.

Lemma dec_div_Ok a b s r : Decimal.wf a -> Decimal.wf b -> 0 <= s <= MAX_DECIMAL_SCALE -> dec_div a b s = Ok r ->
  Decimal.raw b <> 0 /\ Decimal.wf r /\ Decimal.scale r = s /\
  rounds_to NearestTiesToEven (dec_value a / dec_value b * pow10Q s) (Decimal.raw r).
Proof. intros Wa Wb S E. unfold dec_div in E. inv_ok. by apply checked_div_Ok. Qed.

Lemma dec_add_same a b : Decimal.wf a -> Decimal.wf b -> Decimal.scale a = Decimal.scale b ->
  (exists r, dec_add a b = Ok r) \/ dec_add a b = Err (Malformed "window" "overflow").
Proof.
  intros Wa Wb S. unfold dec_add. pose proof (checked_add_spec a b Wa Wb) as A.
  destruct (Decimal.checked_add a b) as [r|e]; [by left; exists r|]. right. cbn in A |- *.
  by destruct A as [[? _]|(_ & -> & _)].
Qed.

Lemma dec_div_nonzero a b s : Decimal.wf a -> Decimal.wf b -> 0 <= s <= MAX_DECIMAL_SCALE -> Decimal.raw b <> 0 ->
  (exists r, dec_div a b s = Ok r) \/ dec_div a b s = Err (Malformed "window" "overflow").
Proof.
  intros Wa Wb S N. unfold dec_div. pose proof (checked_div_spec a b s NearestTiesToEven Wa Wb S) as D.
  destruct (Z.eqb_spec (Decimal.raw b) 0); [done|]. destruct D as (q & _ & ->).
  destruct (in_ity I128 q); [left; by eexists|by right].
Qed.
End arithmetic.

(** Decimals of one scale. *)
Definition at_scale (s : Z) (ds : list Decimal.t) : Prop :=
  Forall (fun d => Decimal.wf d /\ Decimal.scale d = s) ds.
Definition raw_sum (ds : list Decimal.t) : Z := foldr (fun d n => Decimal.raw d + n) 0 ds.

Lemma sum_decimals_spec s sum ds : Decimal.wf sum -> Decimal.scale sum = s -> at_scale s ds ->
  match sum_decimals sum ds with
  | Ok total => Decimal.wf total /\ total = Decimal.mk (Decimal.raw sum + raw_sum ds) s
  | Err e => e = Malformed "window" "overflow"
  end.
Proof.
  intros W S F. revert sum W S. induction F as [|d ds [Wd Sd] F IH]; intros sum W S; cbn [sum_decimals raw_sum foldr].
  - split; [done|]. destruct sum; cbn in *. subst. f_equal. lia.
  - destruct (dec_add_same sum d W Wd) as [[x E]|E]; [congruence| |by rewrite E].
    rewrite E, bind_of_Ok. destruct (dec_add_Ok _ _ _ W Wd E) as (Wx & Sx & _ & Rx).
    specialize (IH x Wx ltac:(congruence)). destruct (sum_decimals x ds); [|done].
    destruct IH as [? ->]. split; [done|]. f_equal. rewrite Rx. unfold raw_sum. lia.
Qed.

Lemma count_decimal_small n : 0 <= n <= ity_max I64 -> count_decimal n = Ok (Decimal.mk n 0).
Proof. intros B. unfold count_decimal. rewrite int_try_wf by (unfold ity_wf in *; cbn in *; lia). done. Qed.

(** The mean of a window is exact: over samples of one scale it is the sum
    of the samples divided by their number, rounded to the nearest decimal of
    that scale with ties to even; the only error is an overflow of the sum. *)
Theorem window_mean_exact w s :
  samples w <> [] -> zlen (samples w) <= ity_max I64 -> at_scale s (sample_values (samples w)) ->
  match window_mean w with
  | Ok (Some mean) => Decimal.scale mean = s /\
      rounds_to NearestTiesToEven
        (inject_Z (raw_sum (sample_values (samples w))) / inject_Z (zlen (samples w))) (Decimal.raw mean)
  | Ok None => False
  | Err h => h = Failed (Malformed "window" "overflow")
  end.
Proof.
  intros Ne L F. unfold window_mean. destruct (samples w) as [|x ss] eqn:E; [done|]. unfold fails.
  assert (Decimal.wf (sample_value x) /\ Decimal.scale (sample_value x) = s) as [Wx Sx]
    by (by apply Forall_inv in F). pose proof (proj2 Wx) as B. rewrite Sx in *. rewrite <- E in *.
  unfold dec_raw. rewrite from_raw_Ok by lia. cbn [map_err]. rewrite bind_of_Ok.
  assert (Decimal.wf (Decimal.mk 0 s)) as W0 by (split; cbn; [split; done || lia|lia]).
  pose proof (sum_decimals_spec s _ _ W0 eq_refl F) as Sm. unfold sample_values in *.
  destruct (sum_decimals _ _) as [total|e]; [|by subst]. destruct Sm as [Wt ->]. rewrite bind_of_Ok.
  pose proof (zlen_nonneg (samples w)). rewrite count_decimal_small, bind_of_Ok by (cbn in *; lia).
  assert (zlen (samples w) <> 0) as Nz by (rewrite E; unfold zlen; cbn; lia).
  cbn [Decimal.raw] in Wt |- *. set (total := Decimal.mk (0 + _) s) in *. set (count := Decimal.mk _ 0).
  assert (Decimal.wf count) as Wc by (split; cbn in *; [split; cbn in *; lia|unfold MAX_DECIMAL_SCALE; lia]).
  destruct (dec_div_nonzero total count s Wt Wc B Nz) as [[m D]|D]; rewrite D; [|done].
  destruct (dec_div_Ok _ _ _ _ Wt Wc B D) as (_ & Wm & Sm' & R). rewrite bind_of_Ok. cbn [map_err].
  split; [done|]. eapply rounds_to_eq; [|exact R]. rewrite !dec_value_div by (cbn; lia).
  cbn [Decimal.raw Decimal.scale total count]. rewrite Z.add_0_l. change (pow10Q 0) with 1%Q. field.
  split; [apply pow10Q_nonzero; lia|]. unfold Qeq. cbn. lia.
Qed.

Lemma sample_values_length ss : length (sample_values ss) = length ss.
Proof. apply length_fmap. Qed.

Lemma quantile_index n q : 0 < n -> 0 <= q <= 1000000 -> 0 <= (n - 1) * q / 1000000 < n.
Proof.
  intros N Q. split; [apply Z.div_pos; nia|]. apply Z.div_lt_upper_bound; nia.
Qed.

(** A quantile is an order statistic of the samples: with [k] the
    [quantile_ppm] share of the distance from the first to the last of [n]
    samples, the value is a sample, [k + 1] samples are not greater and
    [n - k] are not smaller. The index never leaves the sorted samples. *)
Theorem window_quantile_exact w : window_wf w -> samples w <> [] -> zlen (samples w) <= ity_max U32 ->
  let k := (zlen (samples w) - 1) * quantile_ppm w / 1000000 in
  exists v, window_quantile w = Ok (Some v) /\ v ∈ sample_values (samples w) /\
    k + 1 <= Z.of_nat (at_most v (sample_values (samples w))) /\
    zlen (samples w) - k <= Z.of_nat (at_least v (sample_values (samples w))).
Proof.
  intros W Ne L k. set (values := sample_values (samples w)).
  assert (0 < zlen (samples w)) as P by (destruct (samples w); [done|unfold zlen; cbn; lia]).
  destruct (quantile_index _ _ P (ww_quantile w W)) as [K0 K1]. fold k in K0, K1.
  assert (length (sort values) = length (samples w)) as Ls by (rewrite sort_length; apply sample_values_length).
  destruct (lookup_lt_is_Some_2 (sort values) (Z.to_nat k)) as [v G]; [unfold zlen in *; lia|].
  exists v. destruct (sorted_rank _ _ _ (sort_sorted values) G) as [R1 R2].
  rewrite at_most_sort in R1. rewrite at_least_sort, Ls in R2. split_and!.
  - unfold window_quantile. assert (is_empty (samples w) = false) as -> by (by destruct (samples w)).
    unfold int_mul. rewrite int_try_wf by (pose proof (ww_quantile w W); unfold ity_wf; cbn in *; nia).
    cbn [ok_or fails map_err]. rewrite bind_of_Ok. fold k. unfold index_at.
    change (sample_value <$> samples w) with values. by rewrite G.
  - apply elem_of_sort. by eapply list_elem_of_lookup_2.
  - lia.
  - unfold zlen. lia.
Qed.

(** *** Indices stay in range *)

Definition no_panic {A} (r : may_panic A) : Prop := r <> Err Crashed.

Lemma no_panic_fails {A} (r : result FeatureError A) : no_panic (fails r).
Proof. by destruct r. Qed.

Lemma no_panic_bind {A B} (r : may_panic A) (f : A -> may_panic B) :
  no_panic r -> (forall a, r = Ok a -> no_panic (f a)) -> no_panic (r ≫= f).
Proof. unfold no_panic. destruct r as [a|[e|]]; cbn; [|done..]. intros _ F. by apply F. Qed.

Lemma no_panic_index {A} (l : list A) i : (i < length l)%nat -> no_panic (index_at l i).
Proof. intros L. unfold index_at. destruct (lookup_lt_is_Some_2 l i L) as [x G]. by rewrite G. Qed.

Lemma median_no_panic values : no_panic (median values).
Proof.
  unfold median. destruct (is_empty values) eqn:E; [done|].
  assert (length values / 2 < length values)%nat as M by (apply Nat.div_lt; [destruct values; [done|cbn; lia]|lia]).
  destruct (Nat.eqb _ 0).
  - apply no_panic_bind; [apply no_panic_fails|intros two _].
    apply no_panic_bind; [apply no_panic_index; lia|intros low _].
    apply no_panic_bind; [by apply no_panic_index|intros high _].
    apply no_panic_bind; [apply no_panic_fails|intros; apply no_panic_fails].
  - by apply no_panic_index.
Qed.

Lemma robust_z_no_panic w : no_panic (window_robust_z w).
Proof.
  unfold window_robust_z. destruct (_ <? _); [done|].
  apply no_panic_bind; [apply median_no_panic|intros location _].
  apply no_panic_bind; [apply no_panic_fails|intros ds _].
  apply no_panic_bind; [apply median_no_panic|intros mad _]. destruct (_ =? 0); [done|].
  apply no_panic_bind; [by destruct (last _)|intros l _].
  apply no_panic_bind; [apply no_panic_fails|intros dev _].
  apply no_panic_bind; [apply no_panic_fails|done].
Qed.

Lemma quantile_no_panic w : window_wf w -> no_panic (window_quantile w).
Proof.
  intros W. unfold window_quantile. destruct (is_empty (samples w)) eqn:E; [done|].
  assert (0 < zlen (samples w)) as P by (destruct (samples w); [done|unfold zlen; cbn; lia]).
  pose proof (quantile_index _ _ P (ww_quantile w W)) as Q.
  apply no_panic_bind; [apply no_panic_fails|intros n N].
  apply no_panic_bind; [|done]. apply no_panic_index. rewrite sort_length, length_fmap.
  unfold int_mul, int_try in N. destruct (in_ity _ _) in N; [|done]. injection N as <-.
  unfold zlen in *. lia.
Qed.

(** Every index of the summaries is in range: [snapshot] of a well-formed
    window returns a value or an error and never panics. *)
Theorem snapshot_never_panics w : window_wf w -> window_snapshot w <> Err Crashed.
Proof.
  intros W. apply no_panic_bind; [|done]. destruct (algorithm w); [| | done|by apply quantile_no_panic| |apply robust_z_no_panic].
  - unfold window_mean. destruct (samples w); [done|apply no_panic_fails].
  - unfold window_mean. destruct (samples w); [done|apply no_panic_fails].
  - unfold window_covariance. destruct (samples w) as [|? [|? ?]]; [done|done|apply no_panic_fails].
Qed.

(** *** The robust score *)

Lemma at_scale_leb s a b : Decimal.scale a = s -> Decimal.scale b = s ->
  leb a b = true <-> Decimal.raw a <= Decimal.raw b.
Proof. intros <- E. by apply same_scale_leb. Qed.

Lemma at_scale_perm s l l' : l ≡ₚ l' -> at_scale s l -> at_scale s l'.
Proof. unfold at_scale. by intros ->. Qed.

Lemma index_at_Ok {A} (l : list A) i x : index_at l i = Ok x -> x ∈ l.
Proof. unfold index_at. intros E. inv_ok. by eapply list_elem_of_lookup_2. Qed.

Abbreviation between lo hi := (Forall (fun d => lo <= Decimal.raw d <= hi)).

Lemma half_between a b s lo hi : lo <= a <= hi -> lo <= b <= hi -> 0 <= s ->
  (inject_Z lo <= inject_Z (a + b) / pow10Q s / 2 * pow10Q s)%Q /\
  (inject_Z (a + b) / pow10Q s / 2 * pow10Q s <= inject_Z hi)%Q.
Proof.
  intros A B S. assert (inject_Z (a + b) / pow10Q s / 2 * pow10Q s == inject_Z (a + b) / 2)%Q as ->
    by (field; by apply pow10Q_nonzero). unfold Qdiv, Qle, Qinv, inject_Z; cbn. lia.
Qed.

Lemma median_between s values m lo hi : at_scale s values -> between lo hi values -> median values = Ok m ->
  Decimal.wf m /\ Decimal.scale m = s /\ lo <= Decimal.raw m <= hi.
Proof.
  intros F B E. unfold median in E. destruct (is_empty values) in E; [done|].
  assert (forall v, v ∈ values -> (Decimal.wf v /\ Decimal.scale v = s) /\ lo <= Decimal.raw v <= hi) as P
    by (intros v V; split; [exact (proj1 (Forall_forall _ _) F v V)|exact (proj1 (Forall_forall _ _) B v V)]).
  destruct (Nat.eqb _ 0) in E; [|apply index_at_Ok, P in E; naive_solver].
  apply bind_Ok in E as (two & T & E). apply bind_Ok in E as (low & [[Wl Sl] Bl]%index_at_Ok%P & E).
  apply bind_Ok in E as (high & [[Wh Sh] Bh]%index_at_Ok%P & E). apply bind_Ok in E as (sum & A & E).
  unfold fails in T, A, E. inv_ok. apply dec_raw_inv in T as ->.
  apply dec_add_Ok in A as (Ws & Ss & _ & Rs); [|done..]. pose proof (proj2 Wh) as Bs.
  apply dec_div_Ok in E as (_ & Wm & Sm & R); [|done|by split; cbn; split|done].
  split; [done|]. split; [by rewrite Sm|].
  rewrite !dec_value_div in R by (cbn; destruct Ws as [_ ?]; lia).
  rewrite Ss, Rs, Sl, Sh in R. rewrite Sh in Bs. cbn [Decimal.raw Decimal.scale] in R.
  destruct (half_between _ _ s _ _ Bl Bh (proj1 Bs)) as [L U].
  split; [exact (rounds_ge _ _ _ _ R L)|exact (rounds_le _ _ _ _ R U)].
Qed.

Lemma deviations_nonneg s location values ds : Decimal.wf location -> Decimal.scale location = s ->
  at_scale s values -> deviations location values = Ok ds ->
  at_scale s ds /\ Forall (fun d => 0 <= Decimal.raw d) ds.
Proof.
  intros Wl Sl F. revert ds. induction F as [|v values [Wv Sv] F IH]; intros ds E; cbn in E.
  { injection E as <-. split; constructor. }
  apply bind_Ok in E as (delta & D & E). apply bind_Ok in E as (rest & R & [= <-]).
  destruct (IH _ R) as [Fr Nr]. pose proof (at_scale_leb s location v Sl Sv) as L.
  assert ((Decimal.wf delta /\ Decimal.scale delta = s) /\ 0 <= Decimal.raw delta) as [Wd Nd].
  { destruct (leb location v).
    - apply dec_sub_Ok in D as (? & ? & _ & ->); [|done..]. split; [split; congruence|]. apply Zle_minus_le_0, L. done.
    - apply dec_sub_Ok in D as (? & ? & _ & ->); [|done..]. split; [split; congruence|].
      destruct (Z.le_gt_cases (Decimal.raw location) (Decimal.raw v)) as [?%L|]; [done|lia]. }
  by split; constructor.
Qed.

Lemma between_bounds l : exists lo hi, between lo hi l.
Proof.
  induction l as [|d l (lo & hi & F)]; [by exists 0, 0|].
  exists (Z.min lo (Decimal.raw d)), (Z.max hi (Decimal.raw d)). constructor; [lia|].
  eapply Forall_impl; [exact F|]. cbn. lia.
Qed.

Lemma nonneg_between l : Forall (fun d => 0 <= Decimal.raw d) l -> exists hi, between 0 hi l.
Proof.
  intros F. destruct (between_bounds l) as (lo & hi & B). exists hi.
  eapply Forall_impl; [exact (proj2 (Forall_and _ _) (conj F B))|]. cbn. lia.
Qed.

Lemma quotient_nonneg a b s : 0 <= Decimal.raw a -> 0 <= Decimal.raw b -> (0 <= dec_value a / dec_value b * pow10Q s)%Q.
Proof.
  intros A B. assert (forall d, 0 <= Decimal.raw d -> (0 <= dec_value d)%Q) as N
    by (intros d D; unfold dec_value, Qle; cbn; lia).
  apply Qmult_le_0_compat; [apply Qmult_le_0_compat; [by apply N|by apply Qinv_le_0_compat, N]|].
  unfold pow10Q, Qle; cbn. nia.
Qed.

(** The robust score is taken of the greatest sample and not of the latest
    one: it is never negative, however far below the median the latest sample
    is. *)
Theorem robust_z_never_negative w s z :
  at_scale s (sample_values (samples w)) -> window_robust_z w = Ok (Some z) -> 0 <= Decimal.raw z.
Proof.
  intros F E. unfold window_robust_z in E. destruct (_ <? 3) in E; [done|].
  fold (sample_values (samples w)) in E. set (values := sort (sample_values (samples w))) in *.
  assert (at_scale s values) as Fv by (eapply at_scale_perm; [symmetry; apply sort_perm|done]).
  apply bind_Ok in E as (location & Lo & E). apply bind_Ok in E as (ds & D & E).
  apply bind_Ok in E as (mad & M & E). destruct (Decimal.raw mad =? 0) eqn:Z; [done|].
  apply bind_Ok in E as (greatest & G & E). apply bind_Ok in E as (dev & Dv & E).
  apply bind_Ok in E as (z' & Dz & [= ->]). unfold fails in *. inv_ok. apply Z.eqb_neq in Z.
  assert (greatest ∈ values) as Gv by (by apply last_Some_elem_of).
  pose proof (proj1 (Forall_forall _ _) Fv _ Gv) as [Wg Sg].
  assert (exists lo, between lo (Decimal.raw greatest) values) as [lo B].
  { destruct (between_bounds values) as (lo & hi & B). exists lo. apply Forall_forall. intros v V.
    pose proof (proj1 (Forall_forall _ _) Fv _ V) as [_ Sv]. pose proof (proj1 (Forall_forall _ _) B _ V) as [? _].
    split; [done|]. apply (at_scale_leb s v greatest Sv Sg). eapply sorted_last; [apply sort_sorted|done..]. }
  destruct (median_between s _ _ _ _ Fv B Lo) as (Wl & Sl & _ & Le).
  destruct (deviations_nonneg s _ _ _ Wl Sl Fv D) as [Fd Nd].
  assert (at_scale s (sort ds)) as Fs by (eapply at_scale_perm; [symmetry; apply sort_perm|done]).
  destruct (nonneg_between (sort ds)) as [hi Bd]; [by rewrite sort_perm|].
  destruct (median_between s _ _ _ _ Fs Bd M) as (Wm & Sm & Nm & _).
  apply dec_sub_Ok in Dv as (Wdev & Sdev & _ & Rdev); [|done..]. pose proof (proj2 Wg) as Bg.
  apply dec_div_Ok in Dz as (_ & _ & _ & R); [|done..].
  apply (rounds_ge _ _ _ 0 R), quotient_nonneg; lia.
Qed.

(** ** Example windows *)

Definition example_update (id : string) (n raw scale : Z) : WindowUpdate :=
  mkUpdate id n n (Decimal.mk raw scale) None.
Definition example_window (a : WindowAlgorithm) (us : list WindowUpdate) : RollingWindow :=
  match window_try_new a 4 1000 500000 500000 with
  | Ok w => (window_run us w).2
  | Err _ => mkWindow a 0 0 0 0 0 [] [] None
  end.
Definition example_updates : list WindowUpdate :=
  [example_update "a" 1 500 2; example_update "b" 2 300 2; example_update "c" 3 800 2; example_update "d" 4 200 2].

Lemma run_wf us w : window_wf w -> Forall (fun u => time_wf (upd_event_time u)) us -> window_wf (window_run us w).2.
Proof.
  intros W F. revert w W. induction F as [|u us T F IH]; intros w W; [done|]. cbn.
  destruct (window_update u w) as [r w1] eqn:U. pose proof (IH w1 (update_wf _ _ _ _ W T U)) as R.
  by destruct (window_run us w1).
Qed.

Lemma example_window_wf a us : Forall (fun u => time_wf (upd_event_time u)) us -> window_wf (example_window a us).
Proof.
  intros F. unfold example_window.
  destruct (window_try_new a 4 1000 500000 500000) as [w|e] eqn:E; [|by destruct a].
  apply run_wf; [|done]. by eapply try_new_wf; [| | |exact E].
Qed.

Lemma example_updates_in_time : Forall (fun u => time_wf (upd_event_time u)) example_updates.
Proof. by repeat constructor. Qed.

(** An exponentially weighted window that cannot compute its next value
    answers an error and yet keeps the sample and the event: the same update
    sent again is taken for a duplicate, and the value never sees it. *)
Theorem failed_update_is_swallowed :
  exists w u w', window_wf w /\ window_update u w = (Err (Malformed "window" "overflow"), w') /\
    samples w' = samples w ++ [sample_of u] /\ ewma w' = ewma w /\ window_update u w' = (Ok false, w').
Proof.
  exists (example_window ExponentiallyWeighted [example_update "a" 1 1 18]), (example_update "b" 2 (10 ^ 37) 0).
  eexists. split_and!; [by apply example_window_wf; repeat constructor|vm_compute; reflexivity..].
Qed.

Definition five_updates : list WindowUpdate := example_updates ++ [example_update "e" 5 100 2].


Lemma window_mean_exact_witness :
  match window_mean (example_window EventCount example_updates) with
  | Ok (Some mean) => Decimal.scale mean = 2 /\
      rounds_to NearestTiesToEven
        (inject_Z (raw_sum (sample_values (samples (example_window EventCount example_updates)))) /
         inject_Z (zlen (samples (example_window EventCount example_updates)))) (Decimal.raw mean)
  | Ok None => False
  | Err h => h = Failed (Malformed "window" "overflow")
  end.
Proof. apply (window_mean_exact (example_window EventCount example_updates) 2); [done..|by repeat constructor]. Defined.

Lemma window_quantile_exact_witness :
  let w := example_window QuantileSketch example_updates in
  let k := (zlen (samples w) - 1) * quantile_ppm w / 1000000 in
  exists v, window_quantile w = Ok (Some v) /\ v ∈ sample_values (samples w) /\
    k + 1 <= Z.of_nat (at_most v (sample_values (samples w))) /\
    zlen (samples w) - k <= Z.of_nat (at_least v (sample_values (samples w))).
Proof.
  apply (window_quantile_exact (example_window QuantileSketch example_updates)); [|done..].
  apply example_window_wf, example_updates_in_time.
Defined.

Lemma snapshot_never_panics_witness :
  window_snapshot (example_window QuantileSketch example_updates) <> Err Crashed.
Proof. apply snapshot_never_panics, example_window_wf, example_updates_in_time. Defined.

Lemma robust_z_never_negative_witness : 0 <= Decimal.raw (Decimal.mk 267 2).
Proof.
  apply (robust_z_never_negative (example_window RobustZScore example_updates) 2); [by repeat constructor|].
  vm_compute. reflexivity.
Defined.
