(* ===== verification/FeatureSnapshot.v ===== *)
(** * Feature snapshots: [feature-core/src/feature.rs], [health.rs], [snapshot.rs],
    [asof.rs] and [calculator.rs]

    A calculator turns observations into bitemporal snapshots; [asof] answers
    what was known at a time about a time. *)

From Stdlib Require Import Strings.Byte Strings.String Sorting.Sorted.
From stdpp Require Import sorting sets.
From S2P Require Import Prelude Ordering Sorting BTreeMap Bytes FixedPoint Ids FeatureWindow.

(** ** Keys, subjects and values *)

Record FeatureKey := mkKey {
  namespace : string;
  key_name : string;
  version : Z;
}.
#[global] Instance FeatureKey_eq_dec : EqDecision FeatureKey.
Proof. solve_decision. Defined.

Definition key_tuple (k : FeatureKey) : string * (string * Z) := (namespace k, (key_name k, version k)).
#[global] Instance key_tuple_inj : Inj (=) (=) key_tuple.
Proof. intros [] [] [= -> -> ->]. done. Qed.
#[global] Instance FeatureKey_Ord : Ord FeatureKey := pull_cmp key_tuple.
#[global] Instance FeatureKey_OrdLaws : OrdLaws FeatureKey := pull_OrdLaws key_tuple.
#[global] Instance FeatureKey_LeibnizOrd : LeibnizOrd FeatureKey := pull_LeibnizOrd key_tuple.

Definition key_try_new (ns name : string) (v : Z) : result FeatureError FeatureKey :=
  if bool_decide (ns = EmptyString) then Err (EmptyIdentifier "namespace") else
  if bool_decide (name = EmptyString) then Err (EmptyIdentifier "name") else
  if trim_changes ns || trim_changes name then Err (Malformed "feature_key" "surrounding whitespace") else
  if v =? 0 then Err (Malformed "feature_key" "version must be >= 1") else
  Ok (mkKey ns name v).

Inductive FeatureSubject :=
| SubjectAccount (account : string)
| SubjectEntity (entity : string)
| SubjectMarket (market : string)
| SubjectAccountMarket (account market : string)
| SubjectEntityMarket (entity market : string).
#[global] Instance FeatureSubject_eq_dec : EqDecision FeatureSubject.
Proof. solve_decision. Defined.

(** The derived order: the variant, then its fields. *)
Definition subject_tuple (s : FeatureSubject) : Z * (string * string) :=
  match s with
  | SubjectAccount a => (0, (a, EmptyString))
  | SubjectEntity e => (1, (e, EmptyString))
  | SubjectMarket m => (2, (m, EmptyString))
  | SubjectAccountMarket a m => (3, (a, m))
  | SubjectEntityMarket e m => (4, (e, m))
  end.
#[global] Instance subject_tuple_inj : Inj (=) (=) subject_tuple.
Proof. intros [] []; cbn; naive_solver. Qed.
#[global] Instance FeatureSubject_Ord : Ord FeatureSubject := pull_cmp subject_tuple.
#[global] Instance FeatureSubject_OrdLaws : OrdLaws FeatureSubject := pull_OrdLaws subject_tuple.
#[global] Instance FeatureSubject_LeibnizOrd : LeibnizOrd FeatureSubject := pull_LeibnizOrd subject_tuple.

Definition subject_type (s : FeatureSubject) : string :=
  match s with
  | SubjectAccount _ => "account"
  | SubjectEntity _ => "entity"
  | SubjectMarket _ => "market"
  | SubjectAccountMarket _ _ => "account_market"
  | SubjectEntityMarket _ _ => "entity_market"
  end.

Definition subject_id (s : FeatureSubject) : string :=
  match s with
  | SubjectAccount id | SubjectEntity id | SubjectMarket id => id
  | SubjectAccountMarket a m => a +:+ "|" +:+ m
  | SubjectEntityMarket e m => e +:+ "|" +:+ m
  end.

Inductive MissingReason := NotObserved | HistoryTooShort | NotSupported | NotApplicable | RedDataHealth.
#[global] Instance MissingReason_eq_dec : EqDecision MissingReason.
Proof. solve_decision. Defined.

Definition missing_wire_name (r : MissingReason) : string :=
  match r with
  | NotObserved => "not_observed"
  | HistoryTooShort => "insufficient_history"
  | NotSupported => "unsupported"
  | NotApplicable => "not_applicable"
  | RedDataHealth => "red_data_health"
  end.

Inductive FeatureValue :=
| FvDecimal (raw scale : Z)
| FvSigned (raw : Z)
| FvUnsigned (raw : Z)
| FvProbability (ppm : Z)
| FvCategory (category : string)
| FvBoolean (flag : bool)
| FvMissing (reason : MissingReason).
#[global] Instance FeatureValue_eq_dec : EqDecision FeatureValue.
Proof. solve_decision. Defined.

Definition try_decimal (raw scale : Z) : result FeatureError FeatureValue :=
  if MAX_DECIMAL_SCALE <? scale then Err (UnsupportedScale scale) else Ok (FvDecimal raw scale).
Definition try_category (value : string) : result FeatureError FeatureValue :=
  if bool_decide (value = EmptyString) then Err (EmptyIdentifier "category") else Ok (FvCategory value).

(** ** Evidence *)

Inductive EvidenceKind :=
| CanonicalEvent | StateSnapshotEvidence | BookSnapshotEvidence | FeatureSnapshotEvidence
| OperatorAnnotation | ModelArtifact.

Record EvidenceRef := mkEvidence {
  ev_kind : EvidenceKind;
  ev_id : string;
  ev_content_hash : Hash;
  ev_effective_at : Z;
  ev_known_at : Z;
}.

Definition evidence_try_new (kind : EvidenceKind) (id : string) (hash : Hash) (effective known : Z)
  : result FeatureError EvidenceRef :=
  if bool_decide (id = EmptyString) then Err (EmptyIdentifier "evidence_id") else
  if forallb (Byte.eqb x00) hash then Err ZeroContentHash else
  if known <? effective then Err TemporalInversion else
  Ok (mkEvidence kind id hash effective known).

(** ** Manifests *)

Definition FeatureManifest := list FeatureKey.

Fixpoint manifest_seen (seen : btmap FeatureKey unit) (keys : list FeatureKey) : result FeatureError unit :=
  match keys with
  | [] => Ok tt
  | k :: keys =>
      if bt_contains k seen then Err (Malformed "feature_manifest" "duplicate key")
      else manifest_seen (bt_insert k tt seen) keys
  end.

Definition manifest_try_new (keys : list FeatureKey) : result FeatureError FeatureManifest :=
  if is_empty keys then Err (Malformed "feature_manifest" "empty key set") else
  _ ← manifest_seen [] keys; Ok keys.

Definition manifest_require (m : FeatureManifest) (k : FeatureKey) : result FeatureError unit :=
  if existsb (fun c => bool_decide (c = k)) m then Ok tt
  else Err (UnregisteredKey (namespace k) (key_name k) (version k)).

Fixpoint require_all (m : FeatureManifest) (keys : list FeatureKey) : result FeatureError unit :=
  match keys with
  | [] => Ok tt
  | k :: keys => _ ← manifest_require m k; require_all m keys
  end.

(** ** Health *)

Inductive HealthState := Green | Amber | Red.
#[global] Instance HealthState_eq_dec : EqDecision HealthState.
Proof. solve_decision. Defined.

Definition health_wire_name (h : HealthState) : string :=
  match h with Green => "GREEN" | Amber => "AMBER" | Red => "RED" end.

Record HealthAssessment := mkAssessment {
  scope : string;
  state : HealthState;
  reason_code : string;
}.

(** [value.trim().is_empty()]: white space characters and nothing else. *)
Fixpoint blank_from (fuel : nat) (l : bytes) : bool :=
  match l, fuel with
  | [], _ => true
  | _, O => false
  | _, S fuel => existsb (fun w => is_prefix w l && blank_from fuel (drop (length w) l)) white_space
  end.
Definition trims_to_empty (value : string) : bool := blank_from (String.length value) (as_bytes value).

Definition assessment_try_new (scope : string) (state : HealthState) (reason : string)
  : result FeatureError HealthAssessment :=
  if trims_to_empty scope then Err (EmptyIdentifier "scope") else
  if trims_to_empty reason then Err (EmptyIdentifier "reason_code") else
  if trim_changes scope || trim_changes reason
  then Err (Malformed "health_assessment" "surrounding whitespace") else
  Ok (mkAssessment scope state reason).

(** ** Snapshots *)

Record FeatureSnapshot := mkSnapshot {
  subject : FeatureSubject;
  feature_set_version : string;
  effective_at : Z;
  known_at : Z;
  superseded_at : option Z;
  revision : Z;
  values : btmap FeatureKey FeatureValue;
  input_watermark : BlockHeight;
  data_health : HealthState;
  provenance_hash : Hash;
}.

Definition is_missing (v : FeatureValue) : bool := match v with FvMissing _ => true | _ => false end.

(** The bytes [hash_feature_value] feeds the hasher. *)
Definition value_bytes (v : FeatureValue) : bytes :=
  match v with
  | FvDecimal raw scale => [x00] ++ to_le_bytes 16 raw ++ to_le_bytes 4 scale
  | FvSigned raw => [x01] ++ to_le_bytes 8 raw
  | FvUnsigned raw => [x02] ++ to_le_bytes 8 raw
  | FvProbability ppm => [x03] ++ to_le_bytes 4 ppm
  | FvCategory category => [x04] ++ as_bytes category
  | FvBoolean flag => [x05] ++ [if flag then x01 else x00]
  | FvMissing reason => [x06] ++ as_bytes (missing_wire_name reason)
  end%byte.

Definition entry_bytes (e : FeatureKey * FeatureValue) : bytes :=
  as_bytes (namespace e.1) ++ [x00] ++ as_bytes (key_name e.1) ++ [x00] ++ to_le_bytes 4 (version e.1) ++
  value_bytes e.2.

Definition provenance_bytes (s : FeatureSnapshot) : bytes :=
  as_bytes (subject_type (subject s)) ++ [x00] ++ as_bytes (subject_id (subject s)) ++ [x00] ++
  as_bytes (feature_set_version s) ++ to_le_bytes 8 (effective_at s) ++ to_le_bytes 8 (known_at s) ++
  to_le_bytes 4 (revision s) ++ to_le_bytes 8 (input_watermark s) ++
  as_bytes (health_wire_name (data_health s)) ++ concat (entry_bytes <$> values s).

Section snapshots.
Context `{PlainBlake3}.

Definition compute_provenance_hash (s : FeatureSnapshot) : Hash := blake3_hash (provenance_bytes s).

Definition with_hash (h : Hash) (s : FeatureSnapshot) : FeatureSnapshot :=
  mkSnapshot (subject s) (feature_set_version s) (effective_at s) (known_at s) (superseded_at s)
    (revision s) (values s) (input_watermark s) (data_health s) h.

Definition snapshot_try_new (subject : FeatureSubject) (fsv : string) (effective known : Z)
    (superseded : option Z) (rev : Z) (vals : btmap FeatureKey FeatureValue) (watermark : BlockHeight)
    (health : HealthState) (manifest : option FeatureManifest) : result FeatureError FeatureSnapshot :=
  if rev =? 0 then Err (Malformed "feature_snapshot" "revision must be >= 1") else
  if known <? effective then Err TemporalInversion else
  if match superseded with Some s => s <=? known | None => false end then Err InvalidSupersession else
  if is_empty vals then Err (Malformed "feature_snapshot" "empty values") else
  if bool_decide (health = Red) && negb (forallb is_missing (bt_values vals))
  then Err (Malformed "feature_snapshot" "red data health must emit missing values") else
  _ ← match manifest with Some m => require_all m (bt_keys vals) | None => Ok tt end;
  let s := mkSnapshot subject fsv effective known superseded rev vals watermark health (replicate 32 x00) in
  Ok (with_hash (compute_provenance_hash s) s).
End snapshots.

(** ** As-of queries *)

Class Bitemporal (T : Type) := {
  row_effective_at : T -> Z;
  row_known_at : T -> Z;
  row_superseded_at : T -> option Z;
  row_revision : T -> Z;
}.

#[global] Instance FeatureSnapshot_Bitemporal : Bitemporal FeatureSnapshot := {
  row_effective_at := effective_at;
  row_known_at := known_at;
  row_superseded_at := superseded_at;
  row_revision := revision;
}.

Section asof.
Context {T : Type} `{Bitemporal T}.

Definition visible (effective known : Z) (r : T) : bool :=
  (row_effective_at r <=? effective) && (row_known_at r <=? known) &&
  match row_superseded_at r with None => true | Some s => known <? s end.

Definition row_key (r : T) : Z * (Z * Z) := (row_effective_at r, (row_known_at r, row_revision r)).

(** [max_by_key]: the last of the greatest elements. *)
Definition max_by_row_key (rows : list T) : option T :=
  fold_left (fun best r => match best with
    | None => Some r
    | Some b => if leb (row_key b) (row_key r) then Some r else Some b
    end) rows None.

Definition asof (rows : list T) (effective known : Z) : option T :=
  max_by_row_key (filter (fun r => visible effective known r) rows).

Definition require_asof (rows : list T) (effective known : Z) : result FeatureError T :=
  asof rows effective known ?? MissingState.
End asof.

(** ** The calculator *)

Record FeatureContext := mkContext {
  ctx_feature_set_version : string;
  ctx_effective_at : Z;
  ctx_known_at : Z;
  ctx_input_watermark : BlockHeight;
  ctx_data_health : HealthState;
}.

Definition context_try_new (fsv : string) (effective known : Z) (watermark : BlockHeight) (health : HealthState)
  : result FeatureError FeatureContext :=
  if known <? effective then Err TemporalInversion else Ok (mkContext fsv effective known watermark health).

Record FeatureDelta := mkDelta {
  delta_subject : FeatureSubject;
  delta_values : btmap FeatureKey FeatureValue;
}.

Definition delta_try_new (subject : FeatureSubject) (vals : btmap FeatureKey FeatureValue)
  : result FeatureError FeatureDelta :=
  if is_empty vals then Err (Malformed "feature_delta" "empty values") else Ok (mkDelta subject vals).

Record PitSnapshotCalculator := mkCalculator {
  revisions : btmap FeatureSubject Z;
  snapshots : list FeatureSnapshot;
}.
Definition calculator_new : PitSnapshotCalculator := mkCalculator [] [].

Definition on_delta `{PlainBlake3} (delta : FeatureDelta) (ctx : FeatureContext) (manifest : option FeatureManifest)
  : st PitSnapshotCalculator FeatureError (list FeatureSnapshot) :=
  c ← st_get;
  rev ← st_lift (int_add U32 (default 0 (bt_get (delta_subject delta) (revisions c))) 1
                   ?? Malformed "feature_snapshot" "revision overflow");
  s ← st_lift (snapshot_try_new (delta_subject delta) (ctx_feature_set_version ctx) (ctx_effective_at ctx)
                 (ctx_known_at ctx) None rev (delta_values delta) (ctx_input_watermark ctx)
                 (ctx_data_health ctx) manifest);
  _ ← st_modify (fun c => mkCalculator (bt_insert (delta_subject delta) rev (revisions c)) (snapshots c));
  _ ← st_modify (fun c => mkCalculator (revisions c) (snapshots c ++ [s]));
  mret [s].

(** ** What a snapshot guarantees *)

(** A snapshot that may be recorded. *)
Record admissible (effective known : Z) (superseded : option Z) (rev : Z) (vals : btmap FeatureKey FeatureValue)
    (health : HealthState) (manifest : option FeatureManifest) : Prop := {
  adm_revision : rev <> 0;
  adm_known : effective <= known;
  adm_superseded : forall s, superseded = Some s -> known < s;
  adm_values : vals <> [];
  adm_red : health = Red -> forall v, v ∈ bt_values vals -> is_missing v = true;
  adm_keys : forall m, manifest = Some m -> forall k, k ∈ bt_keys vals -> k ∈ m;
}.

Lemma manifest_require_Ok m k : manifest_require m k = Ok tt <-> k ∈ m.
Proof.
  unfold manifest_require. rewrite list_elem_of_In.
  assert (existsb (fun c => bool_decide (c = k)) m = true <-> In k m) as <-; [|by destruct (existsb _ _)].
  rewrite existsb_exists. split; [|by intros; exists k; rewrite bool_decide_true].
  by intros (c & I & ->%bool_decide_eq_true).
Qed.

Lemma require_all_Ok m ks : require_all m ks = Ok tt <-> forall k, k ∈ ks -> k ∈ m.
Proof.
  induction ks as [|k ks IH]; cbn; [split; [by intros _ k ?%elem_of_nil|done]|].
  pose proof (manifest_require_Ok m k) as R. destruct (manifest_require m k) as [[]|e].
  - rewrite bind_of_Ok, IH. set_solver.
  - split; [done|]. intros F. destruct (proj2 R); [|done]. set_solver.
Qed.

Lemma red_rule_false health (vals : btmap FeatureKey FeatureValue) :
  bool_decide (health = Red) && negb (forallb is_missing (bt_values vals)) = false <->
  (health = Red -> forall v, v ∈ bt_values vals -> is_missing v = true).
Proof.
  rewrite andb_false_iff, negb_false_iff, bool_decide_eq_false, forallb_forall.
  setoid_rewrite list_elem_of_In. destruct (decide (health = Red)); naive_solver.
Qed.

Section snapshot_facts.
Context `{PlainBlake3}.

Lemma snapshot_try_new_spec sub fsv effective known superseded rev vals watermark health manifest s :
  snapshot_try_new sub fsv effective known superseded rev vals watermark health manifest = Ok s <->
  admissible effective known superseded rev vals health manifest /\
  s = mkSnapshot sub fsv effective known superseded rev vals watermark health (compute_provenance_hash s).
Proof.
  unfold snapshot_try_new. split.
  - intros E. inv_ok. bool_to_prop. split; [|done]. split; try done.
    + intros t ->. lia.
    + by intros ->.
    + by apply red_rule_false, andb_false_iff.
    + intros m ->. apply require_all_Ok. match goal with R : require_all _ _ = Ok ?u |- _ => by destruct u end.
  - intros [[R K Su V Re Ke] E].
    rewrite (proj2 (Z.eqb_neq _ _) R), (proj2 (Z.ltb_ge _ _) K).
    assert (match superseded with Some t => t <=? known | None => false end = false) as ->
      by (destruct superseded as [t|]; [apply Z.leb_gt, Su|]; done).
    assert (is_empty vals = false) as -> by (by destruct vals).
    rewrite (proj2 (red_rule_false _ _) Re).
    trans (Ok s : result FeatureError FeatureSnapshot); [|done]. rewrite E. unfold compute_provenance_hash at 2. rewrite E.
    destruct manifest as [m|]; [rewrite (proj2 (require_all_Ok _ _) (Ke m eq_refl))|]; reflexivity.
Qed.

End snapshot_facts.

(** ** As-of answers *)

Section asof_facts.
Context {T : Type} `{Bitemporal T}.
Implicit Types (r : T) (rows : list T).

Lemma max_by_row_key_snoc rows r :
  max_by_row_key (rows ++ [r]) =
  match max_by_row_key rows with
  | None => Some r
  | Some b => if leb (row_key b) (row_key r) then Some r else Some b
  end.
Proof. unfold max_by_row_key. by rewrite fold_left_app. Qed.

Lemma leb_refl {A} `{OrdLaws A} (x : A) : leb x x = true.
Proof. unfold leb. by rewrite cmp_refl. Qed.

Lemma max_by_row_key_spec rows :
  match max_by_row_key rows with
  | Some b => b ∈ rows /\ forall r, r ∈ rows -> leb (row_key r) (row_key b) = true
  | None => rows = []
  end.
Proof.
  induction rows as [|r rows IH] using rev_ind; [done|]. rewrite max_by_row_key_snoc.
  destruct (max_by_row_key rows) as [b|].
  - destruct IH as [Ib Mb]. destruct (leb (row_key b) (row_key r)) eqn:L.
    + split; [set_solver|]. intros r' [I| ->%list_elem_of_singleton]%elem_of_app; [|apply leb_refl].
      eapply leb_trans; [by apply Mb|done].
    + split; [set_solver|]. intros r' [I| ->%list_elem_of_singleton]%elem_of_app; [by apply Mb|by apply leb_total].
  - subst rows. split; [set_solver|]. intros r' ->%list_elem_of_singleton. apply leb_refl.
Qed.

(** The last row wins when the keys never decrease. *)
Lemma max_by_row_key_last rows :
  StronglySorted (fun r r' => leb (row_key r) (row_key r') = true) rows -> max_by_row_key rows = last rows.
Proof.
  induction rows as [|r rows IH] using rev_ind; [done|]. intros S.
  rewrite max_by_row_key_snoc, last_snoc. pose proof (max_by_row_key_spec rows) as M.
  destruct (max_by_row_key rows) as [b|]; [|done].
  rewrite (StronglySorted_app_1_elem_of _ _ _ b r S); [done|apply M|set_solver].
Qed.

(** [asof] answers with a greatest row among those in force at the queried
    time that were known, and not yet superseded, at the queried knowledge; it
    answers nothing only when there is none. What became known later has no
    effect on the answer. *)
Theorem asof_point_in_time rows effective known :
  match asof rows effective known with
  | Some r => r ∈ rows /\ visible effective known r = true /\
      forall r', r' ∈ rows -> visible effective known r' = true -> leb (row_key r') (row_key r) = true
  | None => forall r, r ∈ rows -> visible effective known r = false
  end /\
  asof rows effective known = asof (filter (fun r => row_known_at r <= known) rows) effective known.
Proof.
  split.
  - unfold asof. pose proof (max_by_row_key_spec (filter (fun r => visible effective known r) rows)) as M.
    destruct (max_by_row_key _) as [b|].
    + destruct M as [[V I]%list_elem_of_filter M]. split_and!; [done|by apply Is_true_true|].
      intros r' I' V'. apply M, list_elem_of_filter. by rewrite V'.
    + intros r I. destruct (visible effective known r) eqn:V; [|done].
      exfalso. by apply (filter_nil_not_elem_of _ rows r M); [rewrite V|].
  - unfold asof. f_equal. symmetry. apply list_filter_filter_l. intros r V.
    unfold visible in V. apply Is_true_true in V. bool_to_prop. lia.
Qed.
End asof_facts.

(** ** What the calculator records *)

Section calculator_facts.
Context `{PlainBlake3}.
Implicit Types (c : PitSnapshotCalculator) (sub : FeatureSubject).

Definition of_subject sub (ss : list FeatureSnapshot) : list FeatureSnapshot := filter (fun s => subject s = sub) ss.

(** A call: its observation, its context and its manifest. *)
Definition call : Type := FeatureDelta * FeatureContext * option FeatureManifest.

Fixpoint calculator_run (calls : list call) (c : PitSnapshotCalculator)
  : list (result FeatureError (list FeatureSnapshot)) * PitSnapshotCalculator :=
  match calls with
  | [] => ([], c)
  | (delta, ctx, manifest) :: calls =>
      let '(r, c) := on_delta delta ctx manifest c in
      let '(rs, c) := calculator_run calls c in (r :: rs, c)
  end.

(** The snapshots the calls returned. *)
Definition returned (rs : list (result FeatureError (list FeatureSnapshot))) : list FeatureSnapshot :=
  concat ((fun r => match r with Ok ss => ss | Err _ => [] end) <$> rs).

(** Every subject's snapshots are numbered from one, without a gap. *)
Record numbered c : Prop := {
  nb_sorted : bt_sorted (revisions c);
  nb_revisions : forall sub,
    revision <$> of_subject sub (snapshots c) = seqZ 1 (default 0 (bt_get sub (revisions c)));
  nb_nonneg : forall sub n, bt_get sub (revisions c) = Some n -> 0 <= n;
}.

Definition describes (d : call) (s : FeatureSnapshot) : Prop :=
  let '(delta, ctx, manifest) := d in
  subject s = delta_subject delta /\ values s = delta_values delta /\
  effective_at s = ctx_effective_at ctx /\ known_at s = ctx_known_at ctx /\ superseded_at s = None /\
  feature_set_version s = ctx_feature_set_version ctx /\ input_watermark s = ctx_input_watermark ctx /\
  data_health s = ctx_data_health ctx /\ provenance_hash s = compute_provenance_hash s.

(** A call records the snapshot it returns, or fails and changes nothing. *)
Lemma on_delta_cases delta ctx manifest c r c' : on_delta delta ctx manifest c = (r, c') ->
  (exists e, r = Err e /\ c' = c) \/
  (exists s, r = Ok [s] /\ describes (delta, ctx, manifest) s /\
     revision s = default 0 (bt_get (delta_subject delta) (revisions c)) + 1 /\
     c' = mkCalculator (bt_insert (delta_subject delta) (revision s) (revisions c)) (snapshots c ++ [s])).
Proof.
  intros E. unfold on_delta in E. rewrite st_bind_get in E.
  destruct (int_add U32 _ 1) as [rev|] eqn:A; cbn [ok_or] in E; [|left; injection E as <- <-; by eexists].
  rewrite st_bind_lift_Ok in E. apply int_try_Some in A as [-> _].
  destruct (snapshot_try_new _ _ _ _ _ _ _ _ _ _) as [s|e] eqn:T; [|left; injection E as <- <-; by eexists].
  rewrite st_bind_lift_Ok in E. apply snapshot_try_new_spec in T as [_ T]. injection E as <- <-. right. exists s.
  split; [done|]. unfold describes. rewrite T. cbn. by rewrite <- T.
Qed.

Lemma of_subject_snoc sub ss s :
  of_subject sub (ss ++ [s]) = of_subject sub ss ++ (if decide (subject s = sub) then [s] else []).
Proof.
  unfold of_subject. by rewrite filter_app.
Qed.

Lemma on_delta_numbered delta ctx manifest c r c' :
  numbered c -> on_delta delta ctx manifest c = (r, c') -> numbered c'.
Proof.
  intros [S R N] E. apply on_delta_cases in E as [(e & _ & ->)|(s & _ & (Es & _) & Er & ->)]; [by split|].
  assert (0 <= default 0 (bt_get (delta_subject delta) (revisions c))) as P
    by (destruct (bt_get _ _) eqn:G; cbn; [by eapply N|lia]).
  split; cbn [revisions snapshots].
  - by apply bt_insert_sorted.
  - intros sub. rewrite of_subject_snoc, fmap_app, R, Es, bt_get_insert.
    destruct (decide (delta_subject delta = sub)) as [<-|Ne].
    + unfold eqb. rewrite cmp_refl. cbn. rewrite Er, seqZ_app, (seqZ_cons _ 1) by lia. cbn. by rewrite Z.add_comm.
    + unfold eqb. destruct (cmp sub (delta_subject delta)) eqn:C; [apply cmp_eq_leibniz in C; congruence|..];
        by rewrite app_nil_r.
  - intros sub n. rewrite bt_get_insert. destruct (eqb _ _); [intros [= <-]; lia|apply N].
Qed.

Lemma run_numbered calls c rs c' : numbered c -> calculator_run calls c = (rs, c') ->
  numbered c' /\ snapshots c' = snapshots c ++ returned rs.
Proof.
  revert c rs. induction calls as [|[[delta ctx] manifest] calls IH]; cbn; intros c rs Nb E.
  { injection E as <- <-. by rewrite app_nil_r. }
  destruct (on_delta delta ctx manifest c) as [r c1] eqn:D. destruct (calculator_run calls c1) as [rs1 c2] eqn:R.
  injection E as <- <-. destruct (IH c1 rs1) as [Nb' Es]; [by eapply on_delta_numbered|done|]. split; [done|].
  rewrite Es. unfold returned. cbn.
  apply on_delta_cases in D as [(e & -> & ->)|(s & -> & _ & _ & ->)]; cbn; [done|by rewrite <- app_assoc].
Qed.

Lemma new_numbered : numbered calculator_new.
Proof. split; cbn; [apply bt_sorted_nil|done..]. Qed.

(** The calculator is append-only and numbers revisions: after any calls it
    holds the snapshots they returned, in order, and the snapshots of every
    subject carry the revisions one, two, and so on, as the counters say. *)
Theorem calculator_numbers_revisions calls rs c : calculator_run calls calculator_new = (rs, c) ->
  snapshots c = returned rs /\
  forall sub, revision <$> of_subject sub (snapshots c) = seqZ 1 (default 0 (bt_get sub (revisions c))).
Proof. intros E. destruct (run_numbered _ _ _ _ new_numbered E) as [[_ R _] Es]. by split. Qed.

(** The times of a call and of a row. *)
Definition call_time (d : call) : Z * Z := (ctx_effective_at d.1.2, ctx_known_at d.1.2).
Definition row_time (s : FeatureSnapshot) : Z * Z := (effective_at s, known_at s).
Abbreviation in_order f := (StronglySorted (fun x y => leb (f x) (f y) = true)).

Lemma returned_describes calls c rs c' s : calculator_run calls c = (rs, c') -> s ∈ returned rs ->
  exists d, d ∈ calls /\ describes d s.
Proof.
  revert c rs. induction calls as [|[[delta ctx] manifest] calls IH]; cbn; intros c rs E I.
  { injection E as <- <-. by apply elem_of_nil in I. }
  destruct (on_delta delta ctx manifest c) as [r c1] eqn:D. destruct (calculator_run calls c1) as [rs1 c2] eqn:R.
  injection E as <- <-. unfold returned in I. cbn in I. apply elem_of_app in I as [I|I].
  - exists (delta, ctx, manifest). split; [by left|].
    apply on_delta_cases in D as [(e & -> & _)|(t & -> & De & _)]; [by apply elem_of_nil in I|].
    by apply list_elem_of_singleton in I as ->.
  - destruct (IH _ _ R I) as (d & Id & Ed). exists d. split; [by right|done].
Qed.

Lemma describes_time d s : describes d s -> row_time s = call_time d.
Proof. destruct d as [[delta ctx] manifest]. intros (_ & _ & E & K & _). unfold row_time. by rewrite E, K. Qed.

Lemma returned_in_order calls c rs c' : in_order call_time calls -> calculator_run calls c = (rs, c') ->
  in_order row_time (returned rs).
Proof.
  intros S. revert c rs. induction S as [|[[delta ctx] manifest] calls S IH F]; cbn; intros c rs E.
  { injection E as <- <-. constructor. }
  destruct (on_delta delta ctx manifest c) as [r c1] eqn:D. destruct (calculator_run calls c1) as [rs1 c2] eqn:R.
  injection E as <- <-. unfold returned. cbn. pose proof (IH _ _ R) as Sr.
  apply on_delta_cases in D as [(e & -> & _)|(t & -> & Ed%describes_time & _)]; [done|].
  constructor; [done|]. apply Forall_forall. intros s I.
  destruct (returned_describes _ _ _ _ _ R I) as (d & Id & Es%describes_time).
  rewrite Forall_forall in F. apply F in Id. by rewrite Ed, Es.
Qed.

Lemma row_key_leb s t : leb (row_time s) (row_time t) = true -> revision s < revision t ->
  leb (row_key s) (row_key t) = true.
Proof.
  unfold row_time, row_key, leb, cmp, prod_Ord, cmp, Z_Ord. cbn. intros L R. apply Z.compare_lt_iff in R.
  destruct (effective_at s ?= effective_at t); [|done..]. destruct (known_at s ?= known_at t); [|done..].
  by rewrite R.
Qed.

Lemma rows_in_order sub ss n : in_order row_time ss -> revision <$> of_subject sub ss = seqZ 1 n ->
  in_order row_key (of_subject sub ss).
Proof.
  intros S R. assert (in_order row_time (of_subject sub ss)) as S' by (by apply StronglySorted_filter). clear S.
  assert (StronglySorted Z.lt (revision <$> of_subject sub ss)) as L by (rewrite R; apply StronglySorted_seqZ).
  clear R. induction S' as [|s rows S' IH F]; [constructor|]. cbn in L. apply StronglySorted_inv in L as [L Fl].
  constructor; [by apply IH|]. rewrite Forall_forall in *. intros t I. pose proof (F t I) as Lt.
  assert (revision s < revision t) as Lr
    by (by apply (proj1 (Forall_forall _ _) Fl), list_elem_of_fmap_2).
  by apply row_key_leb.
Qed.

(** C33. Point-in-time reads of a calculator fed in time order: for every
    subject, every queried time and every queried knowledge, [asof] over the
    subject's snapshots returns the latest one, in the order of the calls, that
    was in force and known then. *)
Theorem calculator_point_in_time calls rs c sub effective known :
  in_order call_time calls -> calculator_run calls calculator_new = (rs, c) ->
  asof (of_subject sub (snapshots c)) effective known =
  last (filter (fun s => effective_at s <= effective /\ known_at s <= known) (of_subject sub (returned rs))).
Proof.
  intros S E. destruct (run_numbered _ _ _ _ new_numbered E) as [[_ R _] Es]. cbn in Es. rewrite <- Es.
  assert (in_order row_time (snapshots c)) as So by (rewrite Es; by eapply returned_in_order).
  assert (Forall (fun s => superseded_at s = None) (snapshots c)) as Ns.
  { apply Forall_forall. intros s I. rewrite Es in I.
    destruct (returned_describes _ _ _ _ _ E I) as ([[? ?] ?] & _ & _ & _ & _ & _ & Su & _). done. }
  unfold asof. rewrite max_by_row_key_last by (apply StronglySorted_filter; eapply rows_in_order; [done|apply R]).
  f_equal. apply filter_agree. intros s [_ I]%list_elem_of_filter.
  rewrite Forall_forall in Ns. unfold visible. cbn. rewrite (Ns s I), andb_true_r, andb_True, !Is_true_true. lia.
Qed.
End calculator_facts.

(** ** Provenance *)

(** Two different value maps a subject may report: the text of the category
    and the name space of the key after it are split at different places. *)
Definition split_early : btmap FeatureKey FeatureValue :=
  [(mkKey "a" "regime" 1, FvCategory "calm"); (mkKey "xrisk" "level" 1, FvSigned 7)].
Definition split_late : btmap FeatureKey FeatureValue :=
  [(mkKey "a" "regime" 1, FvCategory "calmx"); (mkKey "risk" "level" 1, FvSigned 7)].

(** The provenance hash does not identify a snapshot: the text of a
    category is hashed without its length, so that two snapshots with
    different values, and otherwise equal, have one hash whatever the hash
    function is. *)
Theorem provenance_hash_ambiguous `{PlainBlake3} sub fsv effective known watermark : effective <= known ->
  bt_sorted split_early /\ bt_sorted split_late /\ split_early <> split_late /\
  exists s t,
    snapshot_try_new sub fsv effective known None 1 split_early watermark Green None = Ok s /\
    snapshot_try_new sub fsv effective known None 1 split_late watermark Green None = Ok t /\
    provenance_hash s = provenance_hash t.
Proof.
  intros L. apply Z.ltb_ge in L. split_and!; [by repeat constructor..|done|].
  unfold snapshot_try_new. rewrite L. do 2 eexists. split_and!; [done..|].
  cbn [provenance_hash with_hash]. unfold compute_provenance_hash, provenance_bytes. f_equal.
Qed.

(** ** Example runs *)

Definition example_blake3 : PlainBlake3 := fun l => take 32 (reverse l ++ replicate 32 x01).

Definition example_call (sub : FeatureSubject) (time : Z) (level : Z) : call :=
  (mkDelta sub [(mkKey "risk" "level" 1, FvSigned level)], mkContext "v1" time (time + 5) 9 Green, None).
Definition example_calls : list call :=
  [example_call (SubjectMarket "BTC") 10 1; example_call (SubjectMarket "ETH") 11 2;
   example_call (SubjectMarket "BTC") 12 3; (mkDelta (SubjectMarket "BTC") [], mkContext "v1" 12 20 9 Green, None)].
Definition example_result := @calculator_run example_blake3 example_calls calculator_new.

Lemma calculator_numbers_revisions_witness :
  snapshots example_result.2 = returned example_result.1 /\
  forall sub, revision <$> of_subject sub (snapshots example_result.2) =
    seqZ 1 (default 0 (bt_get sub (revisions example_result.2))).
Proof. apply (@calculator_numbers_revisions example_blake3 example_calls). apply surjective_pairing. Defined.

Lemma calculator_point_in_time_witness :
  asof (of_subject (SubjectMarket "BTC") (snapshots example_result.2)) 12 16 =
  last (filter (fun s => effective_at s <= 12 /\ known_at s <= 16)
    (of_subject (SubjectMarket "BTC") (returned example_result.1))).
Proof.
  apply (@calculator_point_in_time example_blake3 example_calls example_result.1 example_result.2).
  - by repeat constructor.
  - apply surjective_pairing.
Defined.

Lemma provenance_hash_ambiguous_witness :
  bt_sorted split_early /\ bt_sorted split_late /\ split_early <> split_late /\
  exists s t,
    @snapshot_try_new example_blake3 (SubjectMarket "BTC") "v1" 1 2 None 1 split_early 3 Green None = Ok s /\
    @snapshot_try_new example_blake3 (SubjectMarket "BTC") "v1" 1 2 None 1 split_late 3 Green None = Ok t /\
    provenance_hash s = provenance_hash t.
Proof. apply (@provenance_hash_ambiguous example_blake3). lia. Defined.
