(* ===== verification/SimBook.v ===== *)
(** * Simulated books and fills: [execution-sim/src/error.rs], [math.rs], [book.rs]
    and [fill.rs]

    The fixed-point arithmetic of the execution simulator, the books it fills
    orders against, the walk of a book's levels, and the costs of a fill. *)

From Stdlib Require Import Strings.String QArith Sorting.Sorted.
From stdpp Require Import sorting.
From S2P Require Import Prelude Ordering Sorting Digits FixedPoint.

(** ** Errors *)

Inductive SimError :=
| UnmodeledCost (component : string)
| FutureData (field : string)
| InvalidRequest (field : string)
| InvalidAmount
| MissingArrivalBook
| StaleBook
| OrderRejected (reason : string)
| UnmodeledExit
| UnmodeledFunding
| TradingSignerForbidden
| FillsInventedForbidden
| LiveExecutionForbidden
| VenueFillForbidden.

(** How a computation of the simulator stops without a value: an error it
    returns, a panic, or a loop that never ends. *)
Inductive stop :=
| Failure (e : SimError)
| Panic
| NoReturn.

Abbreviation sim := (result stop).
Definition sim_err {A} (e : SimError) : sim A := Err (Failure e).

(** [?] on a [ValueError]. *)
Definition value {A} (r : result ValueError A) : sim A := map_err (fun _ => Failure InvalidAmount) r.

(** ** Arithmetic: [math.rs] *)

Definition MONEY_SCALE : Z := 8.
Definition PRICE_SCALE : Z := 8.
Definition QTY_SCALE : Z := 8.

Definition decimal (raw scale : Z) : sim Decimal.t := value (Decimal.from_raw raw scale).
Definition amount_of (d : Decimal.t) : sim Decimal.t := decimal (Decimal.raw d) (Decimal.scale d).

Definition align_price (price : Price) : sim Price := value (Decimal.rescale price PRICE_SCALE TowardZero).
Definition align_qty (quantity : Quantity) : sim Quantity := value (Decimal.rescale quantity QTY_SCALE TowardZero).
Definition zero_usd : sim UsdAmount := value (Decimal.from_raw 0 MONEY_SCALE).
Definition zero_qty : sim Quantity := value (Decimal.from_raw 0 QTY_SCALE).

Definition quote_notional (price : Price) (quantity : Quantity) : sim UsdAmount :=
  p ← amount_of price;
  q ← amount_of quantity;
  product ← value (Decimal.checked_mul p q MONEY_SCALE TowardZero);
  amount_of product.

Definition mul_rate (notional : UsdAmount) (rate_raw rate_scale : Z) : sim UsdAmount :=
  n ← amount_of notional;
  r ← decimal rate_raw rate_scale;
  product ← value (Decimal.checked_mul n r MONEY_SCALE TowardZero);
  amount_of product.
Definition apply_fee (notional : UsdAmount) (rate : Decimal.t) : sim UsdAmount :=
  mul_rate notional (Decimal.raw rate) (Decimal.scale rate).
Definition apply_funding (notional : UsdAmount) (rate : Decimal.t) : sim UsdAmount :=
  mul_rate notional (Decimal.raw rate) (Decimal.scale rate).

Definition apply_bps (notional : UsdAmount) (bps : BasisPoints) : sim UsdAmount :=
  ten_thousand ← decimal 10000 0;
  bps_decimal ← amount_of bps;
  n ← amount_of notional;
  product ← value (Decimal.checked_mul n bps_decimal (MONEY_SCALE + 4) TowardZero);
  divided ← value (Decimal.checked_div product ten_thousand MONEY_SCALE TowardZero);
  amount_of divided.

Definition mid_price (bid ask : Price) : sim Price :=
  b ← amount_of bid;
  a ← amount_of ask;
  sum ← value (Decimal.checked_add b a);
  two ← decimal 2 0;
  mid ← value (Decimal.checked_div sum two PRICE_SCALE TowardZero);
  amount_of mid.

Definition abs_usd_diff (left right : UsdAmount) : sim UsdAmount :=
  if leb right left then value (Decimal.checked_sub left right) else value (Decimal.checked_sub right left).
Definition qty_min (left right : Quantity) : Quantity := if leb left right then left else right.
Definition qty_is_zero (quantity : Quantity) : bool := Decimal.raw quantity =? 0.

(** ** Books: [book.rs] *)

Record BookLevel := mkLevel {
  lvl_price : Price;
  lvl_quantity : Quantity;
}.

Definition level_new (price : Price) (quantity : Quantity) : sim BookLevel :=
  if qty_is_zero quantity || (Decimal.raw quantity <? 0) then sim_err (InvalidRequest "book.level_quantity") else
  p ← align_price price;
  q ← align_qty quantity;
  Ok (mkLevel p q).

Record BookSnapshot := mkBook {
  book_effective_at : Z;
  book_known_at : Z;
  bids : list BookLevel;
  asks : list BookLevel;
}.

(** [sort_by_key] on the price, and on its reverse. *)
Definition ask_order : Ord BookLevel := pull_cmp lvl_price.
Definition bid_order : Ord BookLevel := pull_cmp (fun l => mkReverse (lvl_price l)).
Definition sort_asks (ls : list BookLevel) : list BookLevel := @sort _ ask_order ls.
Definition sort_bids (ls : list BookLevel) : list BookLevel := @sort _ bid_order ls.

Definition book_new (effective known : Z) (bs : list BookLevel) (ls : list BookLevel) : sim BookSnapshot :=
  if known <? effective then sim_err (InvalidRequest "book.known_before_effective") else
  match sort_bids bs, sort_asks ls with
  | bid :: _, ask :: _ =>
      if leb (lvl_price ask) (lvl_price bid) then sim_err (InvalidRequest "book.crossed")
      else Ok (mkBook effective known (sort_bids bs) (sort_asks ls))
  | _, _ => sim_err (UnmodeledCost "two_sided_spread")
  end.

(** [self.bids[0]] panics on an empty side. *)
Definition best_bid (b : BookSnapshot) : sim Price := (lvl_price <$> head (bids b)) ?? Panic.
Definition best_ask (b : BookSnapshot) : sim Price := (lvl_price <$> head (asks b)) ?? Panic.
Definition opposite_levels (b : BookSnapshot) (buy : bool) : list BookLevel := if buy then asks b else bids b.

Fixpoint depth_from (total : Quantity) (ls : list BookLevel) : sim Quantity :=
  match ls with
  | [] => Ok total
  | l :: ls => total ← value (Decimal.checked_add total (lvl_quantity l)); depth_from total ls
  end.
Definition opposite_depth (b : BookSnapshot) (buy : bool) : sim Quantity :=
  total ← zero_qty; depth_from total (opposite_levels b buy).

Record WalkFill := mkWalk {
  walk_filled : Quantity;
  walk_remaining : Quantity;
  walk_notional : UsdAmount;
}.

Definition scale_qty (quantity : Quantity) (ppm : Z) : sim Quantity :=
  if ppm =? 0 then zero_qty else
  if ppm =? 1000000 then Ok quantity else
  q ← amount_of quantity;
  p ← decimal ppm 6;
  scaled ← value (Decimal.checked_mul q p QTY_SCALE TowardZero);
  amount_of scaled.

(** Whether an order with a limit trades at a price. *)
Definition crosses (buy : bool) (limit : option Price) (price : Price) : bool :=
  match limit with
  | None => true
  | Some limit => if buy then leb price limit else leb limit price
  end.

(** The loop of [take_liquidity]. *)
Fixpoint walk_levels (buy : bool) (limit : option Price) (ppm : Z) (w : WalkFill) (ls : list BookLevel) : sim WalkFill :=
  match ls with
  | [] => Ok w
  | l :: ls =>
      if qty_is_zero (walk_remaining w) then Ok w else
      if negb (crosses buy limit (lvl_price l)) then Ok w else
      available ← scale_qty (lvl_quantity l) ppm;
      let take := qty_min (walk_remaining w) available in
      if qty_is_zero take then walk_levels buy limit ppm w ls else
      slice ← quote_notional (lvl_price l) take;
      notional ← value (Decimal.checked_add (walk_notional w) slice);
      filled ← value (Decimal.checked_add (walk_filled w) take);
      remaining ← value (Decimal.checked_sub (walk_remaining w) take);
      walk_levels buy limit ppm (mkWalk filled remaining notional) ls
  end.

Definition take_liquidity (b : BookSnapshot) (buy : bool) (requested : Quantity) (limit : option Price)
    (fill_ppm : option Z) : sim WalkFill :=
  remaining ← align_qty requested;
  filled ← zero_qty;
  notional ← zero_usd;
  walk_levels buy limit (default 1000000 fill_ppm) (mkWalk filled remaining notional) (opposite_levels b buy).

(** A volume-weighted price. *)
Definition vwap_of (filled : Quantity) (notional : UsdAmount) : sim (option Price) :=
  if qty_is_zero filled then Ok None else
  n ← amount_of notional;
  q ← amount_of filled;
  price ← value (Decimal.checked_div n q PRICE_SCALE TowardZero);
  p ← amount_of price;
  Ok (Some p).
Definition walk_vwap (w : WalkFill) : sim (option Price) := vwap_of (walk_filled w) (walk_notional w).

(** [max_by_key]: the last of the greatest. *)
Definition latest_book (books : list BookSnapshot) : option BookSnapshot :=
  fold_left (fun best b => match best with
    | None => Some b
    | Some m => if leb (book_effective_at m, book_known_at m) (book_effective_at b, book_known_at b)
                then Some b else Some m
    end) books None.

Fixpoint refuse_future_books (cutoff : Z) (books : list BookSnapshot) : sim unit :=
  match books with
  | [] => Ok tt
  | b :: books =>
      if cutoff <? book_known_at b then sim_err (FutureData "book.known_at") else refuse_future_books cutoff books
  end.

Definition select_book (books : list BookSnapshot) (arrival cutoff : Z) : sim BookSnapshot :=
  _ ← refuse_future_books cutoff books;
  latest_book (filter (fun b => book_effective_at b <= arrival /\ book_known_at b <= arrival) books)
    ?? Failure MissingArrivalBook.

(** ** Fills: [fill.rs] *)

Inductive FillClass := Synthetic | Venue.
Definition admit_simulated (c : FillClass) : sim unit :=
  match c with Synthetic => Ok tt | Venue => sim_err VenueFillForbidden end.

Record CostedFill := mkFill {
  filled_quantity : Quantity;
  remaining_quantity : Quantity;
  vwap : option Price;
  fill_notional : UsdAmount;
  fee : UsdAmount;
  slippage : UsdAmount;
  impact : UsdAmount;
  spread_cost : UsdAmount;
  is_taker : bool;
  fill_class : FillClass;
  venue_fill : bool;
}.

Definition admit_synthetic (f : CostedFill) : sim unit :=
  _ ← admit_simulated (fill_class f);
  if venue_fill f then sim_err VenueFillForbidden else Ok tt.

Definition synthetic (filled remaining : Quantity) (price : option Price) (notional fee slippage impact spread : UsdAmount)
    (taker : bool) : sim CostedFill :=
  let fill := mkFill filled remaining price notional fee slippage impact spread taker Synthetic false in
  _ ← admit_synthetic fill; Ok fill.

Record FillCostParams := mkCosts {
  cost_is_taker : bool;
  taker_fee_rate : Decimal.t;
  maker_fee_rate : Decimal.t;
  extra_bps : BasisPoints;
  bps_at_full_depth : BasisPoints;
}.

Definition fee_rate (c : FillCostParams) : Decimal.t :=
  if cost_is_taker c then taker_fee_rate c else maker_fee_rate c.

Definition apply_costs (b : BookSnapshot) (buy : bool) (w : WalkFill) (c : FillCostParams) : sim CostedFill :=
  price ← walk_vwap w;
  if qty_is_zero (walk_filled w) then
    z1 ← zero_usd; z2 ← zero_usd; z3 ← zero_usd; z4 ← zero_usd;
    synthetic (walk_filled w) (walk_remaining w) price (walk_notional w) z1 z2 z3 z4 (cost_is_taker c)
  else
    fee ← apply_fee (walk_notional w) (fee_rate c);
    slippage_cost ← apply_bps (walk_notional w) (extra_bps c);
    depth ← opposite_depth b buy;
    if qty_is_zero depth then sim_err (UnmodeledCost "impact_depth") else
    q ← amount_of (walk_filled w);
    d ← amount_of depth;
    participation ← value (Decimal.checked_div q d 8 TowardZero);
    full ← amount_of (bps_at_full_depth c);
    scaled_bps ← value (Decimal.checked_mul full participation (Decimal.scale (bps_at_full_depth c)) TowardZero);
    bps ← amount_of scaled_bps;
    impact_cost ← apply_bps (walk_notional w) bps;
    bid ← best_bid b;
    ask ← best_ask b;
    mid ← mid_price bid ask;
    mid_notional ← quote_notional mid (walk_filled w);
    spread ← abs_usd_diff (walk_notional w) mid_notional;
    synthetic (walk_filled w) (walk_remaining w) price (walk_notional w) fee slippage_cost impact_cost spread
      (cost_is_taker c).

Definition costed_walk (b : BookSnapshot) (buy : bool) (requested : Quantity) (limit : option Price)
    (fill_ppm : option Z) (c : FillCostParams) : sim CostedFill :=
  w ← take_liquidity b buy requested limit fill_ppm;
  apply_costs b buy w c.

(** ** Arithmetic at eight decimals *)

Definition at8 (d : Decimal.t) : Prop := Decimal.wf d /\ Decimal.scale d = 8.

Lemma value_Ok {A} (r : result ValueError A) a : value r = Ok a <-> r = Ok a.
Proof. by destruct r; cbn; split; intros [= ->]. Qed.

Lemma amount_of_Ok d r : amount_of d = Ok r -> r = d.
Proof. unfold amount_of, decimal, Decimal.from_raw. intros E%value_Ok. inv_ok. by destruct d. Qed.

Lemma amount_of_wf d : Decimal.wf d -> amount_of d = Ok d.
Proof. intros [_ S]. unfold amount_of, decimal. rewrite from_raw_Ok by lia. by destruct d. Qed.

Lemma decimal_small raw scale : scale <= MAX_DECIMAL_SCALE -> decimal raw scale = Ok (Decimal.mk raw scale).
Proof. intros S. unfold decimal. by rewrite from_raw_Ok. Qed.

Lemma at8_mk n : ity_wf I128 n -> at8 (Decimal.mk n 8).
Proof. intros N. split; [split|]; cbn; [done|unfold MAX_DECIMAL_SCALE; lia|done]. Qed.

Lemma zero_usd_Ok : zero_usd = Ok (Decimal.mk 0 8).
Proof. done. Qed.
Lemma zero_qty_Ok : zero_qty = Ok (Decimal.mk 0 8).
Proof. done. Qed.

Lemma add8 a b r : at8 a -> at8 b -> value (Decimal.checked_add a b) = Ok r ->
  at8 r /\ Decimal.raw r = Decimal.raw a + Decimal.raw b.
Proof.
  intros [Wa Sa] [Wb Sb] E%value_Ok. apply checked_add_Ok in E as (Wr & Sr & _ & R); [|done..].
  split; [|done]. split; [done|congruence].
Qed.

Lemma sub8 a b r : at8 a -> at8 b -> value (Decimal.checked_sub a b) = Ok r ->
  at8 r /\ Decimal.raw r = Decimal.raw a - Decimal.raw b.
Proof.
  intros [Wa Sa] [Wb Sb] E%value_Ok. apply checked_sub_Ok in E as (Wr & Sr & _ & R); [|done..].
  split; [|done]. split; [done|congruence].
Qed.

Lemma rounds_trunc_quot a b n : 0 < b -> rounds_to TowardZero (inject_Z a / inject_Z b) n -> n = Z.quot a b.
Proof.
  intros P R. destruct (div_round_big_correct a b TowardZero ltac:(lia)) as (q & E & R').
  rewrite (rounds_to_unique _ _ _ _ R R'). unfold div_round_big in E.
  destruct (Z.eqb_spec b 0); [lia|]. rewrite bool_decide_true, orb_true_r in E by done. by injection E.
Qed.

Lemma pow10Q_inject s : pow10Q s = inject_Z (10 ^ s).
Proof. done. Qed.

(** A truncated product, as integers. *)
Lemma mul_trunc a b s r : Decimal.wf a -> Decimal.wf b -> 0 <= s <= MAX_DECIMAL_SCALE ->
  value (Decimal.checked_mul a b s TowardZero) = Ok r ->
  Decimal.wf r /\ Decimal.scale r = s /\
  Decimal.raw r = Z.quot (Decimal.raw a * Decimal.raw b * 10 ^ s) (10 ^ (Decimal.scale a + Decimal.scale b)).
Proof.
  intros Wa Wb S E%value_Ok. apply checked_mul_Ok in E as (Wr & Sr & R); [|done..]. split; [done|]. split; [done|].
  apply rounds_trunc_quot; [apply pow10_pos; destruct Wa, Wb; lia|]. eapply rounds_to_eq; [|exact R].
  rewrite !dec_value_div by (by destruct Wa, Wb; lia). rewrite !inject_Z_mult, <- !pow10Q_inject.
  rewrite pow10Q_add by (destruct Wa, Wb; lia). field. split; apply pow10Q_nonzero; destruct Wa, Wb; lia.
Qed.

Lemma quot_cancel a n m : 0 <= n -> 0 <= m -> Z.quot (a * 10 ^ n) (10 ^ (n + m)) = Z.quot a (10 ^ m).
Proof.
  intros N M. rewrite Z.pow_add_r, (Z.mul_comm a) by done.
  apply Z.quot_mul_cancel_l; [pose proof (pow10_pos m)|pose proof (pow10_pos n)]; lia.
Qed.

Lemma quote_notional_Ok p q n : at8 p -> at8 q -> quote_notional p q = Ok n ->
  at8 n /\ Decimal.raw n = Z.quot (Decimal.raw p * Decimal.raw q) (10 ^ 8).
Proof.
  intros [Wp Sp] [Wq Sq] E. unfold quote_notional in E. rewrite (amount_of_wf p), bind_of_Ok, (amount_of_wf q), bind_of_Ok in E by done.
  apply bind_Ok in E as (product & M & ->%amount_of_Ok). apply mul_trunc in M as (Wr & Sr & R); [|done..].
  split; [by split|]. rewrite R, Sp, Sq. apply quot_cancel; done.
Qed.

(** ** Walking a book *)

Definition level_wf (l : BookLevel) : Prop := at8 (lvl_price l) /\ at8 (lvl_quantity l) /\ 0 <= Decimal.raw (lvl_quantity l).

(** The share of a level an order may take. *)
Definition available (ppm : Z) (l : BookLevel) : Z := Decimal.raw (lvl_quantity l) * ppm / 1000000.

(** The levels before the first the limit refuses. *)
Fixpoint within_limit (buy : bool) (limit : option Price) (ls : list BookLevel) : list BookLevel :=
  match ls with
  | [] => []
  | l :: ls => if crosses buy limit (lvl_price l) then l :: within_limit buy limit ls else []
  end.

(** What each level gives an order of [n]: all it has, until nothing is left. *)
Fixpoint greedy (ppm n : Z) (ls : list BookLevel) : list (Z * Z) :=
  match ls with
  | [] => []
  | l :: ls => let t := Z.min n (available ppm l) in (Decimal.raw (lvl_price l), t) :: greedy ppm (n - t) ls
  end.
Definition taken (ts : list (Z * Z)) : Z := foldr (fun t n => t.2 + n) 0 ts.
Definition cost_of (ts : list (Z * Z)) : Z := foldr (fun t n => Z.quot (t.1 * t.2) (10 ^ 8) + n) 0 ts.
Definition depth_of (ppm : Z) (ls : list BookLevel) : Z := foldr (fun l n => available ppm l + n) 0 ls.

Lemma taken_cons t ts : taken (t :: ts) = t.2 + taken ts.
Proof. done. Qed.
Lemma cost_of_cons t ts : cost_of (t :: ts) = Z.quot (t.1 * t.2) (10 ^ 8) + cost_of ts.
Proof. done. Qed.

Lemma scale_qty_Ok q ppm r : at8 q -> 0 <= Decimal.raw q -> 0 <= ppm <= 1000000 -> scale_qty q ppm = Ok r ->
  at8 r /\ Decimal.raw r = Decimal.raw q * ppm / 1000000.
Proof.
  intros [Wq Sq] Nq P E. unfold scale_qty in E.
  destruct (Z.eqb_spec ppm 0) as [->|_]; [injection E as <-; rewrite Z.mul_0_r; split; [by apply at8_mk|done]|].
  destruct (Z.eqb_spec ppm 1000000) as [->|_]; [injection E as <-; rewrite Z.div_mul by done; by split|].
  rewrite amount_of_wf, bind_of_Ok, decimal_small, bind_of_Ok in E by done.
  apply bind_Ok in E as (product & M & ->%amount_of_Ok).
  apply mul_trunc in M as (Wr & Sr & R); [|done|split; cbn; [split; cbn; lia|unfold MAX_DECIMAL_SCALE; lia]|done].
  split; [by split|]. rewrite R, Sq. cbn [Decimal.raw Decimal.scale].
  rewrite (quot_cancel _ 8 6) by done. rewrite Z.quot_div_nonneg by lia. done.
Qed.

Lemma available_nonneg ppm l : level_wf l -> 0 <= ppm -> 0 <= available ppm l.
Proof. intros (_ & _ & N) P. apply Z.div_pos; lia. Qed.

Record walk_wf (w : WalkFill) : Prop := {
  ww_filled : at8 (walk_filled w);
  ww_remaining : at8 (walk_remaining w);
  ww_notional : at8 (walk_notional w);
  ww_left : 0 <= Decimal.raw (walk_remaining w);
}.

Lemma qty_min_Ok a b : at8 a -> at8 b -> at8 (qty_min a b) /\ Decimal.raw (qty_min a b) = Z.min (Decimal.raw a) (Decimal.raw b).
Proof.
  intros A B. unfold qty_min, Quantity in *. pose proof (same_scale_leb a b (eq_trans (proj2 A) (eq_sym (proj2 B)))) as L.
  destruct (leb a b); (split; [done|]).
  - rewrite Z.min_l; [done|by apply (proj1 L)].
  - rewrite Z.min_r; [done|]. destruct (Z.le_gt_cases (Decimal.raw a) (Decimal.raw b)) as [?%(proj2 L)|]; [done|lia].
Qed.

Lemma greedy_nothing ppm ls : Forall level_wf ls -> 0 <= ppm ->
  taken (greedy ppm 0 ls) = 0 /\ cost_of (greedy ppm 0 ls) = 0.
Proof.
  intros F P. induction F as [|l ls Wl F [T C]]; [done|]. unfold taken, cost_of in *. cbn [greedy foldr].
  pose proof (available_nonneg ppm l Wl P). rewrite Z.min_l, Z.sub_diag by done. cbn [fst snd].
  rewrite T, C, Z.mul_0_r. done.
Qed.

(** A walk takes from the levels within the limit what the greedy order does. *)
Lemma sim_walk_levels_spec buy limit ppm ls w w' : Forall level_wf ls -> 0 <= ppm <= 1000000 -> walk_wf w ->
  walk_levels buy limit ppm w ls = Ok w' ->
  let ts := greedy ppm (Decimal.raw (walk_remaining w)) (within_limit buy limit ls) in
  walk_wf w' /\ Decimal.raw (walk_filled w') = Decimal.raw (walk_filled w) + taken ts /\
  Decimal.raw (walk_remaining w') = Decimal.raw (walk_remaining w) - taken ts /\
  Decimal.raw (walk_notional w') = Decimal.raw (walk_notional w) + cost_of ts.
Proof.
  intros F P. revert w. induction F as [|l ls Wl F IH]; intros w W E; cbn [walk_levels] in E.
  { injection E as <-. cbn. split_and!; [done|lia..]. }
  destruct (qty_is_zero (walk_remaining w)) eqn:Z.
  { injection E as <-. apply Z.eqb_eq in Z. rewrite Z.
    destruct (greedy_nothing ppm (within_limit buy limit (l :: ls))) as [T C]; [|lia|].
    - assert (Forall level_wf (l :: ls)) as Fl by (by constructor). clear -Fl.
      induction Fl as [|x xs Wx F IH]; [constructor|]. cbn. destruct (crosses _ _ _); by constructor.
    - cbn zeta. rewrite T, C. split_and!; [done|lia..]. }
  cbn [within_limit]. destruct (crosses buy limit (lvl_price l)); cbn [negb] in E.
  2: { injection E as <-. cbn. split_and!; [done|lia..]. }
  apply bind_Ok in E as (av & A & E). pose proof Wl as (Wp & Wq & Nq).
  apply scale_qty_Ok in A as [Wa Ra]; [|done..]. fold (available ppm l) in Ra.
  destruct (qty_min_Ok _ av (ww_remaining _ W) Wa) as [Wt Rt]. rewrite Ra in Rt.
  set (take := qty_min (walk_remaining w) av) in *. cbn [greedy]. cbn zeta. rewrite taken_cons, cost_of_cons, <- Rt. cbn [fst snd].
  destruct (qty_is_zero take) eqn:Zt.
  { apply Z.eqb_eq in Zt. destruct (IH w W E) as (W' & Rf & Rr & Rn).
    rewrite Zt, Z.mul_0_r, Z.sub_0_r. change (Z.quot 0 (10 ^ 8)) with 0. split_and!; [done|lia..]. }
  apply bind_Ok in E as (slice & Q & E). apply quote_notional_Ok in Q as [Ws Rs]; [|done..].
  apply bind_Ok in E as (notional & N & E). apply add8 in N as [Wn Rn]; [|apply W|done].
  apply bind_Ok in E as (filled & Fi & E). apply add8 in Fi as [Wf Rf]; [|apply W|done].
  apply bind_Ok in E as (remaining & Re & E). apply sub8 in Re as [Wr Rr]; [|apply W|done].
  pose proof (ww_left w W). destruct (IH (mkWalk filled remaining notional)) as (W' & Rf' & Rr' & Rn').
  { split; cbn; try done. lia. }
  { done. }
  cbn in Rf', Rr', Rn'. rewrite Rr in *. split_and!; [done|lia..].
Qed.

Lemma depth_nonneg ppm ls : Forall level_wf ls -> 0 <= ppm -> 0 <= depth_of ppm ls.
Proof.
  intros F P. induction F as [|x xs Wx F IH]; [done|]. pose proof (available_nonneg ppm x Wx P).
  cbn. unfold depth_of in IH. lia.
Qed.

Lemma greedy_taken ppm n ls : Forall level_wf ls -> 0 <= ppm -> 0 <= n ->
  taken (greedy ppm n ls) = Z.min n (depth_of ppm ls).
Proof.
  intros F P. revert n. induction F as [|l ls Wl F IH]; intros n N; [cbn; lia|]. cbn [greedy].
  pose proof (available_nonneg ppm l Wl P). rewrite taken_cons. cbn [snd]. rewrite IH by lia.
  change (depth_of ppm (l :: ls)) with (available ppm l + depth_of ppm ls).
  pose proof (depth_nonneg ppm ls F P). lia.
Qed.

(** ** How computations stop *)

(** Every way [r] stops without a value satisfies [P]. *)
Definition stops {A} (P : stop -> Prop) (r : sim A) : Prop := match r with Ok _ => True | Err e => P e end.

Lemma stops_bind {A B} P (r : sim A) (f : A -> sim B) :
  stops P r -> (forall a, r = Ok a -> stops P (f a)) -> stops P (r ≫= f).
Proof. destruct r as [a|e]; cbn; [|done]. intros _ F. by apply F. Qed.

Lemma stops_value {A} (P : stop -> Prop) (r : result ValueError A) : P (Failure InvalidAmount) -> stops P (value r).
Proof. by destruct r. Qed.

Lemma stops_impl {A} (P Q : stop -> Prop) (r : sim A) : (forall e, P e -> Q e) -> stops P r -> stops Q r.
Proof. destruct r; cbn; auto. Qed.

(** An error, and neither a panic nor a loop. *)
Definition is_failure (e : stop) : Prop := exists f, e = Failure f.

Lemma is_failure_failure f : is_failure (Failure f).
Proof. by exists f. Qed.

Create HintDb stops.
#[export] Hint Resolve stops_value is_failure_failure : stops.
#[export] Hint Extern 1 (stops _ (amount_of _)) => apply stops_value : stops.
#[export] Hint Extern 1 (stops _ (decimal _ _)) => apply stops_value : stops.
#[export] Hint Extern 1 (stops _ (align_qty _)) => apply stops_value : stops.
#[export] Hint Extern 1 (stops _ zero_usd) => exact I : stops.
#[export] Hint Extern 1 (stops _ zero_qty) => exact I : stops.
#[export] Hint Extern 1 (stops _ (Ok _)) => exact I : stops.
#[export] Hint Extern 1 (stops _ (sim_err _)) => apply is_failure_failure : stops.
#[export] Hint Extern 2 (stops _ (if ?b then _ else _)) => destruct b : stops.
#[export] Hint Extern 2 (stops _ (_ ≫= _)) => (apply stops_bind; [|intros ? ?]) : stops.

Section amount_errors.
Context (P : stop -> Prop) (Hp : P (Failure InvalidAmount)).

Lemma quote_notional_stops p q : stops P (quote_notional p q).
Proof using Hp. unfold quote_notional. auto with stops. Qed.

Lemma apply_fee_stops n r : stops P (apply_fee n r).
Proof using Hp. unfold apply_fee, mul_rate. auto 8 with stops. Qed.

Lemma apply_bps_stops n r : stops P (apply_bps n r).
Proof using Hp. unfold apply_bps. auto 10 with stops. Qed.

Lemma scale_qty_stops q ppm : stops P (scale_qty q ppm).
Proof using Hp. unfold scale_qty. auto 8 with stops. Qed.

Lemma walk_levels_stops buy limit ppm w ls : stops P (walk_levels buy limit ppm w ls).
Proof using Hp.
  revert w. induction ls as [|l ls IH]; intros w; cbn [walk_levels]; [exact I|].
  destruct (qty_is_zero _); [exact I|]. destruct (negb _); [exact I|].
  apply stops_bind; [apply scale_qty_stops|intros av _]. destruct (qty_is_zero _); [apply IH|].
  apply stops_bind; [apply quote_notional_stops|intros slice _]. auto 8 with stops.
Qed.

Lemma take_liquidity_stops b buy q limit ppm : stops P (take_liquidity b buy q limit ppm).
Proof using Hp.
  unfold take_liquidity. apply stops_bind; [auto with stops|intros r _]. rewrite zero_qty_Ok, zero_usd_Ok.
  apply walk_levels_stops.
Qed.

Lemma depth_from_stops total ls : stops P (depth_from total ls).
Proof using Hp. revert total. induction ls as [|l ls IH]; intros total; cbn; auto with stops. Qed.

Lemma vwap_of_stops q n : stops P (vwap_of q n).
Proof using Hp. unfold vwap_of. auto 10 with stops. Qed.
End amount_errors.

(** ** Well-formed books *)

Record book_wf (b : BookSnapshot) : Prop := {
  bw_bids : Forall level_wf (bids b);
  bw_asks : Forall level_wf (asks b);
  bw_bid_order : @sorted _ bid_order (bids b);
  bw_ask_order : @sorted _ ask_order (asks b);
  bw_uncrossed : exists bid ask, lvl_price <$> head (bids b) = Some bid /\ lvl_price <$> head (asks b) = Some ask /\
    Decimal.raw bid < Decimal.raw ask;
  bw_known : book_effective_at b <= book_known_at b;
}.

#[global] Instance ask_order_laws : @OrdLaws BookLevel ask_order := pull_OrdLaws lvl_price.
#[global] Instance bid_order_laws : @OrdLaws BookLevel bid_order := pull_OrdLaws (fun l => mkReverse (lvl_price l)).

Lemma level_new_wf price quantity l : Decimal.wf price -> Decimal.wf quantity -> level_new price quantity = Ok l -> level_wf l.
Proof.
  intros Wp Wq E. unfold level_new in E. destruct (qty_is_zero quantity || _) eqn:Q; [done|].
  apply orb_false_iff in Q as [_ Q]. apply Z.ltb_ge in Q.
  apply bind_Ok in E as (p & P%value_Ok & E). apply bind_Ok in E as (q & A%value_Ok & [= <-]).
  apply rescale_Ok in P as (W1 & S1 & _); [|done..]. apply rescale_Ok in A as (W2 & S2 & R); [|done..].
  split_and!; cbn; [by split..|]. eapply rounds_ge; [exact R|].
  apply Qmult_le_0_compat; unfold dec_value, pow10Q, Qle; cbn; lia.
Qed.

Lemma book_new_wf effective known bs ls b : Forall level_wf bs -> Forall level_wf ls ->
  book_new effective known bs ls = Ok b ->
  book_wf b /\ book_effective_at b = effective /\ book_known_at b = known /\ bids b ≡ₚ bs /\ asks b ≡ₚ ls.
Proof.
  intros Fb Fa E. unfold book_new in E. destruct (known <? effective) eqn:K; [done|]. apply Z.ltb_ge in K.
  pose proof (@sort_perm _ bid_order bs) as Pb. pose proof (@sort_perm _ ask_order ls) as Pa.
  pose proof (@sort_sorted _ bid_order _ bs) as Sb. pose proof (@sort_sorted _ ask_order _ ls) as Sa.
  fold (sort_bids bs) in Pb, Sb. fold (sort_asks ls) in Pa, Sa.
  rewrite <- Pb in Fb. rewrite <- Pa in Fa.
  destruct (sort_bids bs) as [|bid bids'], (sort_asks ls) as [|ask asks']; [done..|].
  destruct (leb (lvl_price ask) (lvl_price bid)) eqn:X; [done|]. injection E as <-. split_and!; try done.
  split; cbn; try done. exists (lvl_price bid), (lvl_price ask). split_and!; [done..|].
  apply Forall_inv in Fb as [[_ Sb8] _]. apply Forall_inv in Fa as [[_ Sa8] _].
  pose proof (same_scale_leb (lvl_price ask) (lvl_price bid) (eq_trans Sa8 (eq_sym Sb8))) as L.
  unfold Price in *. rewrite X in L. destruct (Z.le_gt_cases (Decimal.raw (lvl_price ask)) (Decimal.raw (lvl_price bid))) as [?%L|]; [done|lia].
Qed.

(** In price order the levels within a limit are all the levels it crosses. *)
Lemma crosses_mono (buy : bool) limit p q : (if buy then leb p q else leb q p) = true ->
  crosses buy limit q = true -> crosses buy limit p = true.
Proof.
  intros L C. destruct limit as [limit|]; [|done]. cbn in *. destruct buy; by eapply leb_trans.
Qed.

Lemma within_limit_filter (buy : bool) limit (ls : list BookLevel) :
  StronglySorted (fun k l => (if buy then leb (lvl_price k) (lvl_price l) else leb (lvl_price l) (lvl_price k)) = true) ls ->
  within_limit buy limit ls = filter (fun l => crosses buy limit (lvl_price l)) ls.
Proof.
  induction 1 as [|l ls S IH F]; [done|]. cbn [within_limit]. rewrite filter_cons.
  destruct (crosses buy limit (lvl_price l)) eqn:C; [by rewrite decide_True, IH|].
  rewrite decide_False by (by intros []). symmetry. apply filter_empty. rewrite Forall_forall in F. intros k I Ck%Is_true_true. by rewrite (crosses_mono buy limit _ _ (F k I) Ck) in C.
Qed.

Lemma opposite_sorted b (buy : bool) : book_wf b ->
  StronglySorted (fun k l => (if buy then leb (lvl_price k) (lvl_price l) else leb (lvl_price l) (lvl_price k)) = true)
    (opposite_levels b buy).
Proof.
  intros W. destruct buy; [exact (bw_ask_order b W)|exact (bw_bid_order b W)].
Qed.

Lemma opposite_wf b buy : book_wf b -> Forall level_wf (opposite_levels b buy).
Proof. intros W. destruct buy; apply W. Qed.

Lemma align8 q : at8 q -> align_qty q = Ok q.
Proof.
  intros [[I S] E]. unfold align_qty, QTY_SCALE, Decimal.rescale, rescale_big. rewrite E. cbn.
  unfold big_to_i128. rewrite int_try_wf by done. cbn. by rewrite <- E; destruct q.
Qed.

(** What a walk of a well-formed book returns. *)
Definition walk_result (b : BookSnapshot) (buy : bool) (limit : option Price) (ppm : Z) (requested : Quantity) (w : WalkFill) : Prop :=
  let within := filter (fun l => crosses buy limit (lvl_price l)) (opposite_levels b buy) in
  walk_wf w /\
  Decimal.raw (walk_filled w) = Z.min (Decimal.raw requested) (depth_of ppm within) /\
  Decimal.raw (walk_filled w) + Decimal.raw (walk_remaining w) = Decimal.raw requested /\
  Decimal.raw (walk_notional w) = cost_of (greedy ppm (Decimal.raw requested) within).

Lemma take_liquidity_spec b buy q limit ppm w : book_wf b -> at8 q -> 0 <= Decimal.raw q -> 0 <= default 1000000 ppm <= 1000000 ->
  take_liquidity b buy q limit ppm = Ok w -> walk_result b buy limit (default 1000000 ppm) q w.
Proof.
  intros W Q N P E. unfold take_liquidity in E. rewrite align8, bind_of_Ok, zero_qty_Ok, bind_of_Ok, zero_usd_Ok, bind_of_Ok in E by done.
  apply sim_walk_levels_spec in E; [|by apply opposite_wf|done|].
  2: { split; cbn; [by apply at8_mk|done|by apply at8_mk|done]. }
  cbn zeta in E. cbn [walk_remaining walk_filled walk_notional] in E.
  rewrite within_limit_filter in E by (by apply opposite_sorted). cbn [Decimal.raw] in E.
  destruct E as (Ww & Rf & Rr & Rn). split; [done|]. rewrite greedy_taken in Rf, Rr; [|by apply Forall_filter, opposite_wf|lia|lia|by apply Forall_filter, opposite_wf|lia|lia].
  lia.
Qed.

(** C35. Taking liquidity is exact: against a well-formed book an order trades
    with every level its limit crosses, best first, in full until it is
    filled; filled and unfilled quantity add up to the request, and the
    notional is the sum over the levels of price times quantity, truncated at
    eight decimals. It fails only when an amount leaves its range. *)
Theorem take_liquidity_exact b buy q limit ppm :
  book_wf b -> at8 q -> 0 <= Decimal.raw q -> 0 <= default 1000000 ppm <= 1000000 ->
  match take_liquidity b buy q limit ppm with
  | Ok w => walk_result b buy limit (default 1000000 ppm) q w
  | Err e => e = Failure InvalidAmount
  end.
Proof.
  intros W Q N P. destruct (take_liquidity b buy q limit ppm) as [w|e] eqn:E; [by eapply take_liquidity_spec|].
  pose proof (take_liquidity_stops (fun e => e = Failure InvalidAmount) eq_refl b buy q limit ppm) as S. by rewrite E in S.
Qed.

(** ** Costed fills *)

Record fill_wf (f : CostedFill) : Prop := {
  fw_filled : at8 (filled_quantity f);
  fw_remaining : at8 (remaining_quantity f);
  fw_notional : at8 (fill_notional f);
  fw_fee : at8 (fee f);
  fw_slippage : at8 (slippage f);
  fw_impact : at8 (impact f);
  fw_spread : at8 (spread_cost f);
  fw_some : 0 <= Decimal.raw (filled_quantity f);
  fw_left : 0 <= Decimal.raw (remaining_quantity f);
  fw_class : fill_class f = Synthetic;
  fw_venue : venue_fill f = false;
  fw_vwap : vwap f = None <-> Decimal.raw (filled_quantity f) = 0;
}.

Record costs_wf (c : FillCostParams) : Prop := {
  cw_taker : Decimal.wf (taker_fee_rate c);
  cw_maker : Decimal.wf (maker_fee_rate c);
  cw_slippage : Decimal.wf (extra_bps c);
  cw_impact : Decimal.wf (bps_at_full_depth c);
}.

Lemma synthetic_Ok filled remaining price notional fee slip imp spread taker f :
  synthetic filled remaining price notional fee slip imp spread taker = Ok f ->
  f = mkFill filled remaining price notional fee slip imp spread taker Synthetic false.
Proof. by intros [= <-]. Qed.

Lemma mul_rate_Ok n raw scale r : at8 n -> Decimal.wf (Decimal.mk raw scale) -> mul_rate n raw scale = Ok r ->
  at8 r /\ rounds_to TowardZero (dec_value n * dec_value (Decimal.mk raw scale) * pow10Q 8) (Decimal.raw r).
Proof.
  intros [Wn Sn] Wr E. unfold mul_rate in E. rewrite amount_of_wf, bind_of_Ok, decimal_small, bind_of_Ok in E by (done || apply Wr).
  apply bind_Ok in E as (p & M%value_Ok & ->%amount_of_Ok). by apply checked_mul_Ok in M as (? & ? & ?).
Qed.

Lemma apply_fee_Ok n rate r : at8 n -> Decimal.wf rate -> apply_fee n rate = Ok r ->
  at8 r /\ rounds_to TowardZero (dec_value n * dec_value rate * pow10Q 8) (Decimal.raw r).
Proof. intros Wn Wr E. destruct rate. by apply mul_rate_Ok. Qed.

Lemma apply_bps_Ok n bps r : at8 n -> Decimal.wf bps -> apply_bps n bps = Ok r -> at8 r.
Proof.
  intros [Wn Sn] Wb E. unfold apply_bps in E.
  rewrite decimal_small, bind_of_Ok, (amount_of_wf bps), bind_of_Ok, (amount_of_wf n), bind_of_Ok in E by done.
  apply bind_Ok in E as (p & M%value_Ok & E). apply checked_mul_Ok in M as (Wp & Sp & _); [|done..].
  apply bind_Ok in E as (d & D%value_Ok & ->%amount_of_Ok).
  apply checked_div_Ok in D as (_ & Wd & Sd & _); [by split|done|by split|done].
Qed.

Lemma depth_from_Ok total ls d : at8 total -> Forall level_wf ls -> depth_from total ls = Ok d ->
  at8 d /\ Decimal.raw d = Decimal.raw total + depth_of 1000000 ls.
Proof.
  intros T F. revert total T. induction F as [|l ls Wl F IH]; intros total T E; cbn in E.
  { injection E as <-. cbn. split; [done|lia]. }
  apply bind_Ok in E as (t & A & E). apply add8 in A as [Wt Rt]; [|done|apply Wl].
  apply IH in E as [Wd Rd]; [|done]. split; [done|].
  change (depth_of 1000000 (l :: ls)) with (available 1000000 l + depth_of 1000000 ls). unfold available.
  rewrite Z.div_mul by done. lia.
Qed.

Lemma vwap_of_Ok q n r : vwap_of q n = Ok r -> r = None <-> Decimal.raw q = 0.
Proof.
  unfold vwap_of, qty_is_zero. intros E. destruct (Z.eqb_spec (Decimal.raw q) 0); [by injection E as <-|].
  inv_ok. done.
Qed.

Lemma mid_price_at8 bid ask p : at8 bid -> at8 ask -> mid_price bid ask = Ok p -> at8 p.
Proof.
  intros [Wb Sb] [Wa Sa] E. unfold mid_price in E.
  rewrite (amount_of_wf bid), bind_of_Ok, (amount_of_wf ask), bind_of_Ok in E by done.
  apply bind_Ok in E as (s & A%value_Ok & E). apply checked_add_Ok in A as (Ws & _); [|done..].
  rewrite decimal_small, bind_of_Ok in E by done. apply bind_Ok in E as (m & D%value_Ok & ->%amount_of_Ok).
  by apply checked_div_Ok in D as (_ & Wd & Sd & _).
Qed.

Lemma abs_usd_diff_at8 a b d : at8 a -> at8 b -> abs_usd_diff a b = Ok d -> at8 d.
Proof. intros A B E. unfold abs_usd_diff in E. case_match; by apply sub8 in E as [? _]. Qed.

Lemma best_at8 b p : book_wf b -> (best_bid b = Ok p \/ best_ask b = Ok p) -> at8 p.
Proof.
  intros W [E|E]; [unfold best_bid in E; pose proof (bw_bids b W) as F; destruct (bids b)|
                   unfold best_ask in E; pose proof (bw_asks b W) as F; destruct (asks b)];
    cbn in E; (done || injection E as <-; apply Forall_inv in F; apply F).
Qed.

(** The fee of a fill of [filled] for [notional] at a rate. *)
Definition fee_of (filled : Quantity) (notional : UsdAmount) (rate : Decimal.t) (fee : UsdAmount) : Prop :=
  if qty_is_zero filled then Decimal.raw fee = 0
  else rounds_to TowardZero (dec_value notional * dec_value rate * pow10Q 8) (Decimal.raw fee).

Lemma fee_rate_wf c : costs_wf c -> Decimal.wf (fee_rate c).
Proof. intros C. unfold fee_rate. destruct (cost_is_taker c); apply C. Qed.

Lemma apply_costs_spec b buy w c f : book_wf b -> costs_wf c -> walk_wf w -> 0 <= Decimal.raw (walk_filled w) ->
  apply_costs b buy w c = Ok f ->
  fill_wf f /\ mkWalk (filled_quantity f) (remaining_quantity f) (fill_notional f) = w /\
  fee_of (filled_quantity f) (fill_notional f) (fee_rate c) (fee f).
Proof.
  intros W C Ww Nf E. unfold apply_costs in E. apply bind_Ok in E as (price & V%vwap_of_Ok & E).
  pose proof (ww_filled w Ww) as W1. pose proof (ww_remaining w Ww) as W2. pose proof (ww_notional w Ww) as W3.
  pose proof (ww_left w Ww) as N2. unfold fee_of. destruct (qty_is_zero (walk_filled w)) eqn:Z.
  - rewrite zero_usd_Ok, !bind_of_Ok in E. apply synthetic_Ok in E as ->. cbn. rewrite Z.
    split; [|by destruct w]. by split; cbn; try apply at8_mk.
  - apply bind_Ok in E as (fee & F & E). apply apply_fee_Ok in F as [Wfee Rfee]; [|done|by apply fee_rate_wf].
    apply bind_Ok in E as (slip & S & E). apply apply_bps_Ok in S; [|done|apply C].
    apply bind_Ok in E as (depth & D & E). unfold opposite_depth in D. rewrite zero_qty_Ok, bind_of_Ok in D.
    apply depth_from_Ok in D as [[Wd Sd] _]; [|by apply at8_mk|by apply opposite_wf].
    destruct (qty_is_zero depth); [done|].
    rewrite (amount_of_wf (walk_filled w)), bind_of_Ok, (amount_of_wf depth), bind_of_Ok in E by (done || apply W1).
    apply bind_Ok in E as (part & P%value_Ok & E). apply checked_div_Ok in P as (_ & Wp & _); [|apply W1|done|done].
    rewrite (amount_of_wf (bps_at_full_depth c)), bind_of_Ok in E by apply C.
    apply bind_Ok in E as (scaled & M%value_Ok & E).
    apply checked_mul_Ok in M as (Wm & _); [|apply C|done|destruct (cw_impact c C) as [_ ?]; done].
    rewrite amount_of_wf, bind_of_Ok in E by done.
    apply bind_Ok in E as (imp & I & E). apply apply_bps_Ok in I; [|done..].
    apply bind_Ok in E as (bid & B & E). apply bind_Ok in E as (ask & A & E).
    assert (at8 bid) as Wb by (eapply best_at8; [done|by left]).
    assert (at8 ask) as Wa by (eapply best_at8; [done|by right]).
    apply bind_Ok in E as (mid & Mi & E). apply mid_price_at8 in Mi; [|done..].
    apply bind_Ok in E as (mn & Mn & E). apply quote_notional_Ok in Mn as [Wmn _]; [|done..].
    apply bind_Ok in E as (spread & Sp & E). apply abs_usd_diff_at8 in Sp; [|done..].
    apply synthetic_Ok in E as ->. cbn. rewrite Z. split; [|by destruct w]. by split.
Qed.

(** A costed walk fills what the walk does. *)
Lemma costed_walk_spec b buy q limit ppm c f : book_wf b -> costs_wf c -> at8 q -> 0 <= Decimal.raw q ->
  0 <= default 1000000 ppm <= 1000000 -> costed_walk b buy q limit ppm c = Ok f ->
  fill_wf f /\ walk_result b buy limit (default 1000000 ppm) q
    (mkWalk (filled_quantity f) (remaining_quantity f) (fill_notional f)) /\
  fee_of (filled_quantity f) (fill_notional f) (fee_rate c) (fee f).
Proof.
  intros W C Q N P E. unfold costed_walk in E. apply bind_Ok in E as (w & T & E).
  pose proof (take_liquidity_spec _ _ _ _ _ _ W Q N P T) as R. pose proof R as (Ww & Rf & _).
  destruct (apply_costs_spec b buy w c f W C Ww) as (Wf & Ew & F); [|done|].
  - rewrite Rf. apply Z.min_glb; [done|]. apply depth_nonneg; [by apply Forall_filter, opposite_wf|lia].
  - by rewrite Ew.
Qed.

(** ** Fees alone *)

(** Two fills that differ in their fee alone, the second's no smaller. *)
Record fill_le (f f' : CostedFill) : Prop := {
  fl_same : f' = mkFill (filled_quantity f) (remaining_quantity f) (vwap f) (fill_notional f) (fee f') (slippage f) (impact f)
    (spread_cost f) (is_taker f) (fill_class f) (venue_fill f);
  fl_fee : Decimal.raw (fee f) <= Decimal.raw (fee f');
}.

(** The parameters with other fee rates. *)
Definition with_rates (taker maker : Decimal.t) (c : FillCostParams) : FillCostParams :=
  mkCosts (cost_is_taker c) taker maker (extra_bps c) (bps_at_full_depth c).

(** One step of two runs that read the same values. *)
Ltac lockstep E E' :=
  let x := fresh "x" in let y := fresh "y" in let X := fresh "X" in let Y := fresh "Y" in
  apply bind_Ok in E as (x & X & E); apply bind_Ok in E' as (y & Y & E');
  rewrite X in Y; injection Y as <-.

Lemma fee_of_mono filled notional rate rate' fee fee' : at8 notional -> 0 <= Decimal.raw notional ->
  (dec_value rate <= dec_value rate')%Q -> fee_of filled notional rate fee -> fee_of filled notional rate' fee' ->
  Decimal.raw fee <= Decimal.raw fee'.
Proof.
  intros [Wn Sn] N L F F'. unfold fee_of in *. destruct (qty_is_zero filled); [lia|].
  eapply rounds_mono; [exact F|exact F'|]. apply Qmult_le_compat_r; [|unfold pow10Q, Qle; cbn; lia].
  rewrite !(Qmult_comm (dec_value notional)). apply Qmult_le_compat_r; [done|]. unfold dec_value, Qle; cbn. lia.
Qed.

Lemma costed_walk_mono b buy q limit ppm c taker maker f f' :
  book_wf b -> costs_wf c -> costs_wf (with_rates taker maker c) -> at8 q -> 0 <= Decimal.raw q ->
  0 <= default 1000000 ppm <= 1000000 -> (dec_value (fee_rate c) <= dec_value (fee_rate (with_rates taker maker c)))%Q ->
  (0 <= Decimal.raw (fill_notional f)) ->
  costed_walk b buy q limit ppm c = Ok f -> costed_walk b buy q limit ppm (with_rates taker maker c) = Ok f' -> fill_le f f'.
Proof.
  intros W C C' Q N P L Nn E E'.
  destruct (costed_walk_spec _ _ _ _ _ _ _ W C Q N P E) as (Wf & _ & F).
  destruct (costed_walk_spec _ _ _ _ _ _ _ W C' Q N P E') as (Wf' & _ & F').
  assert (f' = mkFill (filled_quantity f) (remaining_quantity f) (vwap f) (fill_notional f) (fee f') (slippage f) (impact f)
    (spread_cost f) (is_taker f) (fill_class f) (venue_fill f)) as S.
  { clear F F'. unfold costed_walk in E, E'. lockstep E E'. unfold apply_costs in E, E'. lockstep E E'.
    destruct (qty_is_zero (walk_filled x)).
    - rewrite zero_usd_Ok, !bind_of_Ok in E, E'. apply synthetic_Ok in E as ->, E' as ->. done.
    - apply bind_Ok in E as (fe & _ & E). apply bind_Ok in E' as (fe' & _ & E'). cbn [with_rates extra_bps bps_at_full_depth] in E'.
      do 2 lockstep E E'. destruct (qty_is_zero _); [done|]. do 12 lockstep E E'.
      apply synthetic_Ok in E as ->, E' as ->. done. }
  split; [done|]. rewrite S in F'. exact (fee_of_mono _ _ _ _ _ _ (fw_notional f Wf) Nn L F F').
Qed.

(** A walk over levels with no negative price costs no negative amount. *)
Lemma greedy_cost_nonneg ppm n ls : Forall level_wf ls -> Forall (fun l => 0 <= Decimal.raw (lvl_price l)) ls -> 0 <= ppm -> 0 <= n ->
  0 <= cost_of (greedy ppm n ls).
Proof.
  intros F G P. revert n. induction F as [|l ls Wl F IH]; intros n N; [done|]. cbn [greedy]. rewrite cost_of_cons. cbn [fst snd].
  apply Forall_cons in G as [Gl G]. pose proof (available_nonneg ppm l Wl P).
  specialize (IH G (n - Z.min n (available ppm l)) ltac:(lia)).
  assert (0 <= Z.quot (Decimal.raw (lvl_price l) * Z.min n (available ppm l)) (10 ^ 8)); [apply Z.quot_pos; lia|lia].
Qed.

Definition priced (b : BookSnapshot) : Prop :=
  Forall (fun l => 0 <= Decimal.raw (lvl_price l)) (bids b) /\ Forall (fun l => 0 <= Decimal.raw (lvl_price l)) (asks b).

Lemma costed_notional_nonneg b buy q limit ppm c f : book_wf b -> priced b -> costs_wf c -> at8 q -> 0 <= Decimal.raw q ->
  0 <= default 1000000 ppm <= 1000000 -> costed_walk b buy q limit ppm c = Ok f -> 0 <= Decimal.raw (fill_notional f).
Proof.
  intros W G C Q N P E. apply costed_walk_spec in E as (_ & (_ & _ & _ & Rn) & _); [|done..]. cbn [walk_notional] in Rn.
  rewrite Rn. apply greedy_cost_nonneg; [by apply Forall_filter, opposite_wf| |lia|done].
  apply Forall_filter. destruct buy; apply G.
Qed.

(** The last level of a side has its worst price. *)
Lemma greedy_cost_bound ppm n ls pmax : Forall level_wf ls -> Forall (fun l => Decimal.raw (lvl_price l) <= pmax) ls ->
  Forall (fun l => 0 <= Decimal.raw (lvl_price l)) ls -> 0 <= ppm -> 0 <= n ->
  cost_of (greedy ppm n ls) * 10 ^ 8 <= pmax * taken (greedy ppm n ls).
Proof.
  intros F M G P. revert n. induction F as [|l ls Wl F IH]; intros n N; [cbn; lia|]. cbn [greedy]. rewrite cost_of_cons, taken_cons. cbn [fst snd].
  apply Forall_cons in G as [Gl G]. apply Forall_cons in M as [Ml M]. pose proof (available_nonneg ppm l Wl P) as A.
  specialize (IH M G (n - Z.min n (available ppm l)) ltac:(lia)). set (t := Z.min n (available ppm l)) in *. assert (0 <= t) as Nt by lia.
  assert (0 <= Decimal.raw (lvl_price l) * t) as Np by (by apply Z.mul_nonneg_nonneg).
  rewrite Z.quot_div_nonneg by done. pose proof (Z.mul_div_le (Decimal.raw (lvl_price l) * t) (10 ^ 8) ltac:(done)). nia.
Qed.

Lemma last_ask_worst b l k : book_wf b -> last (asks b) = Some l -> k ∈ asks b -> Decimal.raw (lvl_price k) <= Decimal.raw (lvl_price l).
Proof.
  intros W L I. pose proof (@sorted_last _ ask_order _ _ _ _ (bw_ask_order b W) L I) as S.
  pose proof (bw_asks b W) as F. rewrite Forall_forall in F.
  assert (l ∈ asks b) as Il by (by apply last_Some_elem_of).
  apply (same_scale_leb (lvl_price k) (lvl_price l)); [|exact S]. by rewrite (proj2 (proj1 (F k I))), (proj2 (proj1 (F l Il))).
Qed.

(** A buy of at most [q] costs no more than [q] at the worst ask. *)
Lemma buy_cost_bound b q limit ppm c f l n worst : book_wf b -> priced b -> costs_wf c -> at8 q -> 0 <= Decimal.raw q ->
  0 <= default 1000000 ppm <= 1000000 -> costed_walk b true q limit ppm c = Ok f -> last (asks b) = Some l ->
  at8 n -> Decimal.raw n = Decimal.raw q -> quote_notional (lvl_price l) n = Ok worst ->
  Decimal.raw (fill_notional f) <= Decimal.raw worst.
Proof.
  intros W G C Q N P E L Wn Rn Wo. apply costed_walk_spec in E as (_ & (_ & Rf & _ & Rc) & _); [|done..]. cbn in Rf, Rc.
  pose proof (opposite_wf b true W) as Fl. pose proof (Forall_filter (fun l => crosses true limit (lvl_price l)) _ _ Fl) as Fw.
  assert (l ∈ asks b) as Il by (by apply last_Some_elem_of).
  pose proof (proj1 (Forall_forall _ _) (bw_asks b W) l Il) as Wl. pose proof (proj1 (Forall_forall _ _) (proj2 G) l Il) as Gl.
  apply quote_notional_Ok in Wo as [_ Ro]; [|apply Wl|done]. rewrite Rn in Ro.
  pose proof (greedy_cost_bound (default 1000000 ppm) (Decimal.raw q) _ (Decimal.raw (lvl_price l)) Fw) as B.
  rewrite (greedy_taken _ _ _ Fw) in B by lia. rewrite Rc, Ro, Z.quot_div_nonneg by (done || by apply Z.mul_nonneg_nonneg).
  apply Z.div_le_lower_bound; [done|]. rewrite Z.mul_comm. etransitivity; [apply B; [|apply Forall_filter, (proj2 G)|lia|lia]|].
  - apply Forall_filter, Forall_forall. intros k I. by eapply last_ask_worst.
  - apply Z.mul_le_mono_nonneg_l; [done|lia].
Qed.

(** ** A book to walk *)

Definition two_asks : BookSnapshot :=
  mkBook 10 12 [mkLevel (Decimal.mk 9900000000 8) (Decimal.mk 500000000 8)]
    [mkLevel (Decimal.mk 10000000000 8) (Decimal.mk 200000000 8); mkLevel (Decimal.mk 10100000000 8) (Decimal.mk 900000000 8)].

Lemma two_asks_wf : book_wf two_asks.
Proof.
  split; cbn; [| |by repeat constructor|by repeat constructor| |done].
  1,2: repeat apply Forall_cons_2; try apply Forall_nil_2; split_and!; cbn; try done; by apply at8_mk.
  do 2 eexists. by split_and!.
Qed.

Lemma take_liquidity_exact_witness :
  match take_liquidity two_asks true (Decimal.mk 300000000 8) None None with
  | Ok w => walk_result two_asks true None (default 1000000 None) (Decimal.mk 300000000 8) w
  | Err e => e = Failure InvalidAmount
  end.
Proof. apply take_liquidity_exact; [exact two_asks_wf|by apply at8_mk|done|done]. Defined.
