(* ===== verification/Simulator.v ===== *)
(** * The execution simulator: [execution-sim/src/simulator.rs] and the policies it reads
    ([clock.rs], [latency.rs], [order.rs], [exit.rs], [portfolio.rs], [fees.rs],
    [impact.rs], [cost.rs], [funding.rs], [failure.rs] and [signal.rs])

    A run takes a signal, the books known at the evaluation time and a cost
    model; it opens a position, closes it by the exit policy, and reports what
    that earned. The JSON encoding of the events is a parameter. *)

From Stdlib Require Import Strings.String QArith.
From stdpp Require Import sets.
From S2P Require Import Prelude Ordering Sorting Bytes FixedPoint Ids FeatureSnapshot SimBook.

(** ** Clock *)

(** [add_protocol] and [add_known]. *)
Definition add_time (time delay : Z) : sim Z :=
  d ← int_try I64 delay ?? Failure InvalidAmount;
  next ← int_add I64 time d ?? Failure InvalidAmount;
  if next <? 0 then sim_err InvalidAmount else Ok next.

Record SimClock := mkClock {
  protocol_time : Z;
  known_time : Z;
}.
Definition clock_new (protocol known : Z) : sim SimClock :=
  if protocol <? 0 then sim_err InvalidAmount else
  if known <? protocol then sim_err (InvalidRequest "clock.known_before_protocol") else
  Ok (mkClock protocol known).
Definition advance (delay : Z) (c : SimClock) : sim SimClock :=
  p ← add_time (protocol_time c) delay;
  k ← add_time (known_time c) delay;
  Ok (mkClock p k).

(** ** Latency *)

Inductive LatencyModel :=
| Fixed (delay_micros : Z)
| Uniform (min_micros max_micros : Z).

(** [span + 1] overflows when the span is the whole of [u64]: the sum panics
    where overflow is checked, and is zero elsewhere, where [%] panics. *)
Definition latency_sample (m : LatencyModel) (seed : Z) : sim Z :=
  match m with
  | Fixed delay => Ok delay
  | Uniform lo hi =>
      if hi <? lo then sim_err (UnmodeledCost "latency_uniform_bounds") else
      let span := hi - lo in
      if span =? 0 then Ok lo else
      if span =? ity_max U64 then Err Panic else
      Ok (lo + seed mod (span + 1))
  end.

Record LatencyAssumptions := mkLatency {
  detection : LatencyModel;
  network : LatencyModel;
  processing : LatencyModel;
  max_book_staleness_micros : Z;
}.

Definition wrapping_mul (a b : Z) : Z := (a * b) mod 2 ^ 64.
Definition total_delay_micros (l : LatencyAssumptions) (seed : Z) : sim Z :=
  d ← latency_sample (detection l) seed;
  n ← latency_sample (network l) (wrapping_mul seed 0x9E3779B97F4A7C15);
  p ← latency_sample (processing l) (wrapping_mul seed 0xD1B54A32D192ED03);
  (v ← int_add U64 d n; int_add U64 v p) ?? Failure InvalidAmount.

(** ** Costs *)

Record FundingSchedule := mkFunding {
  interval_micros : Z;
  funding_rate : Decimal.t;
}.

Record CostModel := mkCostModel {
  cm_version : string;
  cm_taker_fee_rate : Decimal.t;
  cm_maker_fee_rate : Decimal.t;
  cm_funding : FundingSchedule;
  cm_slippage : BasisPoints;
  cm_impact : BasisPoints;
  cm_latency : LatencyAssumptions;
}.

Definition check_fees (taker maker : Decimal.t) : sim unit :=
  if (Decimal.raw taker <? 0) || (Decimal.raw maker <? 0) then sim_err (UnmodeledCost "negative_fee_rate") else Ok tt.
Definition check_funding (interval : Z) : sim unit :=
  if interval =? 0 then sim_err (UnmodeledCost "funding_interval") else Ok tt.
Definition check_slippage (bps : BasisPoints) : sim unit :=
  if Decimal.raw bps <? 0 then sim_err (UnmodeledCost "negative_slippage") else Ok tt.
Definition check_impact (bps : BasisPoints) : sim unit :=
  if Decimal.raw bps <? 0 then sim_err (UnmodeledCost "negative_impact") else Ok tt.

Definition cost_model_validate (m : CostModel) : sim unit :=
  if trims_to_empty (cm_version m) then sim_err (UnmodeledCost "cost_model_version") else
  _ ← check_fees (cm_taker_fee_rate m) (cm_maker_fee_rate m);
  _ ← check_funding (interval_micros (cm_funding m));
  _ ← check_slippage (cm_slippage m);
  _ ← check_impact (cm_impact m);
  Ok tt.

(** ** Orders *)

Inductive OrderType := Market | Ioc | Gtc | Alo.
#[global] Instance OrderType_eq_dec : EqDecision OrderType.
Proof. solve_decision. Defined.

Record OrderPolicy := mkPolicy {
  order_type : OrderType;
  limit_price : option Price;
  queue_fill_min_ppm : option Z;
  queue_fill_max_ppm : option Z;
}.

Definition is_some {A} (o : option A) : bool := match o with Some _ => true | None => false end.

Definition order_policy_validate (p : OrderPolicy) : sim unit :=
  match order_type p with
  | Market | Ioc =>
      if is_some (queue_fill_min_ppm p) || is_some (queue_fill_max_ppm p)
      then sim_err (InvalidRequest "order_policy.unexpected_queue") else Ok tt
  | Gtc =>
      if negb (is_some (limit_price p)) || negb (is_some (queue_fill_min_ppm p)) || negb (is_some (queue_fill_max_ppm p))
      then sim_err (UnmodeledCost "gtc_queue_or_limit") else Ok tt
  | Alo => if negb (is_some (limit_price p)) then sim_err (UnmodeledCost "alo_limit") else Ok tt
  end.

Definition queue_fill_ppm (p : OrderPolicy) (seed : Z) : sim (option Z) :=
  match queue_fill_min_ppm p, queue_fill_max_ppm p with
  | None, None => Ok None
  | Some lo, Some hi =>
      if (hi <? lo) || (1000000 <? hi) then sim_err (UnmodeledCost "gtc_queue_model") else
      if lo =? hi then Ok (Some lo) else
      offset ← int_try U32 (seed mod (hi - lo + 1)) ?? Failure InvalidAmount;
      Ok (Some (lo + offset))
  | _, _ => sim_err (UnmodeledCost "gtc_queue_model")
  end.

Definition entry_is_buy (d : Direction) : bool := match d with Long => true | Short | Flat => false end.

(** ** Portfolio *)

Record PortfolioLimits := mkLimits {
  bankroll : UsdAmount;
  participation_limit_ppm : Z;
}.

Definition cap_quantity (p : PortfolioLimits) (requested depth : Quantity) : sim Quantity :=
  if qty_is_zero depth then sim_err (OrderRejected "empty_book") else
  d ← amount_of depth;
  share ← decimal (participation_limit_ppm p) 6;
  allowed ← value (Decimal.checked_mul d share (Decimal.scale depth) TowardZero);
  allowed ← amount_of allowed;
  let capped := qty_min requested allowed in
  if qty_is_zero capped then sim_err (OrderRejected "participation_limit") else Ok capped.

Definition admit_notional (p : PortfolioLimits) (notional : UsdAmount) : sim unit :=
  if ltb (bankroll p) notional then sim_err (OrderRejected "bankroll") else Ok tt.

(** ** Exits *)

Record ExitPolicy := mkExit {
  time_hold_micros : Z;
  take_profit : option Price;
  stop_price : option Price;
}.

(** Whether the take-profit, or the stop, of a position is hit by a book. *)
Definition takes_profit (p : ExitPolicy) (long : bool) (b : BookSnapshot) : sim bool :=
  match take_profit p with
  | None => Ok false
  | Some level => if long then bid ← best_bid b; Ok (leb level bid) else ask ← best_ask b; Ok (leb ask level)
  end.
Definition hits_stop (p : ExitPolicy) (long : bool) (b : BookSnapshot) : sim bool :=
  match stop_price p with
  | None => Ok false
  | Some level => if long then bid ← best_bid b; Ok (leb bid level) else ask ← best_ask b; Ok (leb level ask)
  end.

Fixpoint scan_exits (p : ExitPolicy) (long : bool) (opened_at cutoff time_exit : Z) (chosen : Z * string)
    (books : list BookSnapshot) : sim (Z * string) :=
  match books with
  | [] => Ok chosen
  | b :: books =>
      if cutoff <? book_known_at b then sim_err (FutureData "book.known_at") else
      let at_ := book_effective_at b in
      if (at_ <=? opened_at) || (time_exit <? at_) then scan_exits p long opened_at cutoff time_exit chosen books else
      profit ← takes_profit p long b;
      let chosen := if profit && (at_ <? chosen.1) then (at_, "take_profit"%string) else chosen in
      stopped ← hits_stop p long b;
      let chosen := if stopped && (at_ <? chosen.1) then (at_, "stop"%string) else chosen in
      scan_exits p long opened_at cutoff time_exit chosen books
  end.

Definition choose_exit (p : ExitPolicy) (books : list BookSnapshot) (opened_at cutoff : Z) (long : bool)
    (invalidate_at : option Z) : sim (Z * string) :=
  time_exit ← add_time opened_at (time_hold_micros p);
  let chosen := match invalidate_at with
    | Some i => if (opened_at <? i) && (i <=? time_exit) then (i, "evidence_invalidation"%string)
                else (time_exit, "time"%string)
    | None => (time_exit, "time"%string)
    end in
  chosen ← scan_exits p long opened_at cutoff time_exit chosen books;
  _ ← select_book books chosen.1 cutoff;
  Ok chosen.

(** ** Funding *)

(** One payment for every whole interval of the hold. *)
Fixpoint funding_loop (fuel : nat) (s : FundingSchedule) (d : Direction) (notional : UsdAmount) (closed_at : Z)
    (cursor : Z) (total : UsdAmount) : sim UsdAmount :=
  match fuel with
  | O => Err NoReturn
  | S fuel =>
      next ← add_time cursor (interval_micros s);
      if closed_at <? next then Ok total else
      payment ← apply_funding notional (funding_rate s);
      total ← match d with
              | Long => value (Decimal.checked_add total payment)
              | Short => if Decimal.raw payment =? 0 then Ok total else value (Decimal.checked_sub total payment)
              | Flat => sim_err (InvalidRequest "funding.flat_position")
              end;
      funding_loop fuel s d notional closed_at next total
  end.

(** The fuel is one more than the intervals of the hold. *)
Definition funding_over_hold (s : FundingSchedule) (d : Direction) (notional : UsdAmount) (opened_at closed_at : Z)
  : sim UsdAmount :=
  if closed_at <? opened_at then sim_err (InvalidRequest "funding.hold_interval") else
  hold ← int_try U64 (closed_at - opened_at) ?? Failure InvalidAmount;
  if (0 <? hold) && (interval_micros s =? 0) then sim_err UnmodeledFunding else
  total ← zero_usd;
  funding_loop (S (Z.to_nat (hold / interval_micros s))) s d notional closed_at opened_at total.

(** ** Requests and results *)

Inductive FailureInjection :=
| NoFailure | RejectOrder | DelaySubmission (extra_micros : Z) | MarkBookStale | RemoveBookLiquidity.

Definition extra_delay_micros (f : FailureInjection) : Z :=
  match f with DelaySubmission extra => extra | _ => 0 end.

Record SignalSnapshot := mkSignal {
  signal_id : string;
  market_id : MarketId;
  direction : Direction;
  detected_at : Z;
  signal_known_at : Z;
  requested_quantity : Quantity;
}.

Definition signal_new (id : string) (market : MarketId) (d : Direction) (detected known : Z) (quantity : Quantity)
  : sim SignalSnapshot :=
  if bool_decide (d = Flat) then sim_err (InvalidRequest "signal.flat_direction") else
  if Decimal.raw quantity <=? 0 then sim_err (InvalidRequest "signal.quantity") else
  if detected <? 0 then sim_err InvalidAmount else
  if known <? detected then sim_err (InvalidRequest "signal.known_before_detect") else
  q ← align_qty quantity;
  Ok (mkSignal id market d detected known q).

Record SimulationRequest := mkRequest {
  evaluation_known_at : Z;
  signal : SignalSnapshot;
  books : list BookSnapshot;
  cost_model : CostModel;
  order_policy : OrderPolicy;
  exit_policy : ExitPolicy;
  portfolio : PortfolioLimits;
  failure : FailureInjection;
  invalidate_at : option Z;
  seed : Z;
}.

(** Every book is built again from its levels, and the copy dropped. *)
Fixpoint validate_books (cutoff : Z) (bs : list BookSnapshot) : sim unit :=
  match bs with
  | [] => Ok tt
  | b :: bs =>
      _ ← book_new (book_effective_at b) (book_known_at b) (bids b) (asks b);
      if cutoff <? book_known_at b then sim_err (FutureData "book.known_at") else validate_books cutoff bs
  end.

Definition request_validate (r : SimulationRequest) : sim unit :=
  _ ← cost_model_validate (cost_model r);
  _ ← order_policy_validate (order_policy r);
  _ ← (if evaluation_known_at r <? signal_known_at (signal r) then sim_err (FutureData "signal.known_at") else Ok tt);
  if is_empty (books r) then sim_err (UnmodeledCost "arrival_book") else
  validate_books (evaluation_known_at r) (books r).

Inductive SimulationEvent :=
| SignalObserved (at_ : Z) (id : string)
| OrderSubmitted (at_ : Z) (order : OrderType)
| OrderRested (at_ : Z)
| PartialFill (at_ : Z) (quantity : Quantity) (price : Price) (class : FillClass) (venue : bool)
| Fill (at_ : Z) (quantity : Quantity) (price : Price) (class : FillClass) (venue : bool)
| Cancelled (at_ : Z)
| FundingApplied (at_ : Z) (amount : UsdAmount)
| ExitSubmitted (at_ : Z) (reason : string)
| PositionClosed (at_ : Z)
| Rejected (at_ : Z) (reason : string).

Record SimulationResult := mkResult {
  res_fill_class : FillClass;
  fills_invented : bool;
  live_execution : bool;
  res_venue_fill : bool;
  events : list SimulationEvent;
  res_filled_quantity : Quantity;
  missed_quantity : Quantity;
  entry_vwap : option Price;
  exit_vwap : option Price;
  entry_fees : UsdAmount;
  exit_fees : UsdAmount;
  funding : UsdAmount;
  res_slippage : UsdAmount;
  res_impact : UsdAmount;
  res_spread_cost : UsdAmount;
  net_pnl : UsdAmount;
  trace_hash : Hash;
}.

Definition refuse_event (e : SimulationEvent) : sim unit :=
  match e with
  | PartialFill _ _ _ class venue | Fill _ _ _ class venue =>
      _ ← admit_simulated class; if venue then sim_err VenueFillForbidden else Ok tt
  | _ => Ok tt
  end.
Fixpoint refuse_events (es : list SimulationEvent) : sim unit :=
  match es with [] => Ok tt | e :: es => _ ← refuse_event e; refuse_events es end.

Definition refuse_invented_or_live (r : SimulationResult) : sim unit :=
  if fills_invented r then sim_err FillsInventedForbidden else
  if live_execution r then sim_err LiveExecutionForbidden else
  if res_venue_fill r then sim_err VenueFillForbidden else
  _ ← admit_simulated (res_fill_class r);
  refuse_events (events r).

(** ** Entering *)

Definition fill_costs (r : SimulationRequest) (taker : bool) : FillCostParams :=
  mkCosts taker (cm_taker_fee_rate (cost_model r)) (cm_maker_fee_rate (cost_model r)) (cm_slippage (cost_model r))
    (cm_impact (cost_model r)).

Definition push_fill_events (es : list SimulationEvent) (at_ : Z) (f : CostedFill) (original : Quantity)
  : sim (list SimulationEvent) :=
  _ ← admit_synthetic f;
  if qty_is_zero (filled_quantity f) then Ok es else
  match vwap f with
  | None => Ok es
  | Some price =>
      if ltb (filled_quantity f) original
      then Ok (es ++ [PartialFill at_ (filled_quantity f) price Synthetic false])
      else Ok (es ++ [Fill at_ (filled_quantity f) price Synthetic false])
  end.

Definition merge_fills (l r : CostedFill) : sim CostedFill :=
  _ ← admit_synthetic l;
  _ ← admit_synthetic r;
  filled ← value (Decimal.checked_add (filled_quantity l) (filled_quantity r));
  notional ← value (Decimal.checked_add (fill_notional l) (fill_notional r));
  price ← vwap_of filled notional;
  fee ← value (Decimal.checked_add (fee l) (fee r));
  slip ← value (Decimal.checked_add (slippage l) (slippage r));
  imp ← value (Decimal.checked_add (impact l) (impact r));
  spread ← value (Decimal.checked_add (spread_cost l) (spread_cost r));
  synthetic filled (remaining_quantity r) price notional fee slip imp spread (is_taker l || is_taker r).

(** The loop of [rest_gtc] over the books. *)
Fixpoint rest_books (r : SimulationRequest) (buy : bool) (ppm : option Z) (original : Quantity)
    (arrival time_exit : Z) (f : CostedFill) (es : list SimulationEvent) (bs : list BookSnapshot)
  : sim (CostedFill * list SimulationEvent) :=
  match bs with
  | [] => Ok (f, es)
  | b :: bs =>
      if qty_is_zero (remaining_quantity f) then Ok (f, es) else
      if (book_effective_at b <=? arrival) || (time_exit <? book_effective_at b)
      then rest_books r buy ppm original arrival time_exit f es bs else
      extra ← costed_walk b buy (remaining_quantity f) (limit_price (order_policy r)) ppm (fill_costs r false);
      if qty_is_zero (filled_quantity extra) then rest_books r buy ppm original arrival time_exit f es bs else
      es ← push_fill_events es (book_effective_at b) extra original;
      f ← merge_fills f extra;
      rest_books r buy ppm original arrival time_exit f es bs
  end.

Definition rest_gtc (r : SimulationRequest) (buy : bool) (f : CostedFill) (original : Quantity) (arrival : Z)
    (es : list SimulationEvent) : sim (CostedFill * list SimulationEvent) :=
  ppm ← queue_fill_ppm (order_policy r) ((seed r + 1) mod 2 ^ 64);
  time_exit ← add_time arrival (time_hold_micros (exit_policy r));
  '(f, es) ← rest_books r buy ppm original arrival time_exit f es (books r);
  Ok (f, if qty_is_zero (remaining_quantity f) then es else es ++ [Cancelled time_exit]).

Definition execute_entry (r : SimulationRequest) (b : BookSnapshot) (buy : bool) (requested original : Quantity)
    (arrival : Z) (es : list SimulationEvent) : sim (CostedFill * list SimulationEvent) :=
  let policy := order_policy r in
  ppm ← match order_type policy with Gtc => queue_fill_ppm policy (seed r) | _ => Ok None end;
  immediate ← costed_walk b buy requested (limit_price policy) ppm (fill_costs r true);
  es ← push_fill_events es arrival immediate original;
  match order_type policy with
  | Market | Ioc | Alo => Ok (immediate, es)
  | Gtc => if qty_is_zero (remaining_quantity immediate) then Ok (immediate, es)
           else rest_gtc r buy immediate original arrival (es ++ [OrderRested arrival])
  end.

(** ** Finishing *)

Class EventsJson := events_json : list SimulationEvent -> option bytes.

Section run.
Context `{PlainBlake3} `{EventsJson}.

Definition hash_events (es : list SimulationEvent) : sim Hash :=
  encoded ← events_json es ?? Failure VenueFillForbidden;
  Ok (blake3_hash (as_bytes "hl.execution-sim.trace.v1" ++ encoded)).

Record FinishInput := mkFinish {
  fin_events : list SimulationEvent;
  fin_entry : CostedFill;
  fin_exit : option CostedFill;
  fin_missed : Quantity;
  fin_opened_at : Z;
  fin_closed_at : Z;
  fin_direction : Direction;
  fin_funding : FundingSchedule;
}.

(** What an exit contributes: its fee, price, slippage, impact, spread and
    notional. *)
Definition exit_parts (e : option CostedFill)
  : sim (UsdAmount * option Price * UsdAmount * UsdAmount * UsdAmount * UsdAmount) :=
  match e with
  | Some f => Ok (fee f, vwap f, slippage f, impact f, spread_cost f, fill_notional f)
  | None =>
      z1 ← zero_usd; z2 ← zero_usd; z3 ← zero_usd; z4 ← zero_usd; z5 ← zero_usd;
      Ok (z1, None, z2, z3, z4, z5)
  end.

Definition gross_pnl (d : Direction) (entry_price exit_price : option Price) (entry_notional exit_notional : UsdAmount)
  : sim UsdAmount :=
  match entry_price, exit_price with
  | Some _, Some _ =>
      match d with
      | Long => value (Decimal.checked_sub exit_notional entry_notional)
      | Short => value (Decimal.checked_sub entry_notional exit_notional)
      | Flat => sim_err (InvalidRequest "result.flat")
      end
  | _, _ => zero_usd
  end.

(** The gross profit less the costs and the funding. *)
Definition net_of (gross entry_fee exit_fee slip imp paid : UsdAmount) : sim UsdAmount :=
  c1 ← value (Decimal.checked_add entry_fee exit_fee);
  c2 ← value (Decimal.checked_add c1 slip);
  costs ← value (Decimal.checked_add c2 imp);
  after_costs ← value (Decimal.checked_sub gross costs);
  value (Decimal.checked_sub after_costs paid).

Definition finish (i : FinishInput) : sim SimulationResult :=
  let entry := fin_entry i in
  _ ← admit_synthetic entry;
  _ ← match fin_exit i with Some f => admit_synthetic f | None => Ok tt end;
  let filled := filled_quantity entry in
  '(exit_fee, exit_price, exit_slip, exit_impact, exit_spread, exit_notional) ← exit_parts (fin_exit i);
  '(paid, es) ←
    (if qty_is_zero filled then z ← zero_usd; Ok (z, fin_events i) else
     amount ← funding_over_hold (fin_funding i) (fin_direction i) (fill_notional entry) (fin_opened_at i) (fin_closed_at i);
     Ok (amount, if Decimal.raw amount =? 0 then fin_events i
                 else fin_events i ++ [FundingApplied (fin_closed_at i) amount]));
  slip ← value (Decimal.checked_add (slippage entry) exit_slip);
  imp ← value (Decimal.checked_add (impact entry) exit_impact);
  spread ← value (Decimal.checked_add (spread_cost entry) exit_spread);
  gross ← gross_pnl (fin_direction i) (vwap entry) exit_price (fill_notional entry) exit_notional;
  net ← net_of gross (fee entry) exit_fee slip imp paid;
  hash ← hash_events es;
  let result := mkResult Synthetic false false false es filled (fin_missed i) (vwap entry) exit_price (fee entry)
                  exit_fee paid slip imp spread net hash in
  _ ← refuse_invented_or_live result;
  Ok result.

(** ** Running *)

(** The failures a request injects before it reaches the book. *)
Definition inject (f : FailureInjection) : sim unit :=
  match f with
  | RejectOrder => sim_err (OrderRejected "injected_reject")
  | MarkBookStale => sim_err StaleBook
  | RemoveBookLiquidity => sim_err (OrderRejected "injected_empty_book")
  | NoFailure | DelaySubmission _ => Ok tt
  end.

(** The latest book at a time, refused when it is too old. *)
Definition fresh_book (r : SimulationRequest) (at_ : Z) : sim BookSnapshot :=
  b ← select_book (books r) at_ (evaluation_known_at r);
  stale ← int_try U64 (at_ - book_effective_at b) ?? Failure InvalidAmount;
  if max_book_staleness_micros (cm_latency (cost_model r)) <? stale then sim_err StaleBook else Ok b.

Definition would_take (b : BookSnapshot) (buy : bool) (limit : Price) : sim bool :=
  if buy then ask ← best_ask b; Ok (leb ask limit) else bid ← best_bid b; Ok (leb limit bid).

Definition refuse_taking_alo (p : OrderPolicy) (b : BookSnapshot) (buy : bool) : sim unit :=
  match order_type p with
  | Alo =>
      limit ← limit_price p ?? Failure (UnmodeledCost "alo_limit");
      taking ← would_take b buy limit;
      if (taking : bool) then sim_err (OrderRejected "alo_would_take") else Ok tt
  | _ => Ok tt
  end.

(** Closing the position of a filled entry. *)
Definition close_position (r : SimulationRequest) (buy : bool) (entry : CostedFill) (missed : Quantity) (opened_at : Z)
    (es : list SimulationEvent) : sim SimulationResult :=
  '(exit_at, reason) ← choose_exit (exit_policy r) (books r) opened_at (evaluation_known_at r) buy (invalidate_at r);
  let es := es ++ [ExitSubmitted exit_at reason] in
  b ← fresh_book r exit_at;
  exit_fill ← costed_walk b (negb buy) (filled_quantity entry) None None (fill_costs r true);
  es ← push_fill_events es exit_at exit_fill (filled_quantity entry);
  if qty_is_zero (filled_quantity exit_fill) then sim_err UnmodeledExit else
  finish (mkFinish (es ++ [PositionClosed exit_at]) entry (Some exit_fill) missed opened_at exit_at
            (direction (signal r)) (cm_funding (cost_model r))).

(** From the signal to the arrival of the order at the venue. *)
Definition arrival_time (r : SimulationRequest) : sim Z :=
  clock ← clock_new (detected_at (signal r)) (signal_known_at (signal r));
  latency ← total_delay_micros (cm_latency (cost_model r)) (seed r);
  delay ← int_add U64 latency (extra_delay_micros (failure r)) ?? Failure InvalidAmount;
  clock ← advance delay clock;
  Ok (protocol_time clock).

(** The quantity to walk: the request, capped by the portfolio. *)
Definition admitted_quantity (r : SimulationRequest) (b : BookSnapshot) (buy : bool) (original : Quantity) : sim Quantity :=
  depth ← opposite_depth b buy;
  walk_qty ← cap_quantity (portfolio r) original depth;
  worst ← match last (opposite_levels b buy) with
          | Some l => quote_notional (lvl_price l) walk_qty
          | None => sim_err MissingArrivalBook
          end;
  _ ← admit_notional (portfolio r) worst;
  Ok walk_qty.

Definition run (r : SimulationRequest) : sim SimulationResult :=
  _ ← request_validate r;
  let es := [SignalObserved (detected_at (signal r)) (signal_id (signal r))] in
  arrival ← arrival_time r;
  _ ← inject (failure r);
  let es := es ++ [OrderSubmitted arrival (order_type (order_policy r))] in
  b ← fresh_book r arrival;
  let buy := entry_is_buy (direction (signal r)) in
  if bool_decide (direction (signal r) = Flat) then sim_err (InvalidRequest "signal.flat_direction") else
  _ ← refuse_taking_alo (order_policy r) b buy;
  original ← align_qty (requested_quantity (signal r));
  walk_qty ← admitted_quantity r b buy original;
  '(entry, es) ← execute_entry r b buy walk_qty original arrival es;
  missed ← value (Decimal.checked_sub original (filled_quantity entry));
  if qty_is_zero (filled_quantity entry) then
    finish (mkFinish (es ++ [Cancelled arrival]) entry None missed arrival arrival (direction (signal r))
              (cm_funding (cost_model r)))
  else close_position r buy entry missed arrival es.
End run.

(** ** Well-formed requests *)

(** What the constructors of the parts of a request establish. *)
Record request_wf (r : SimulationRequest) : Prop := {
  rw_books : Forall book_wf (books r);
  rw_quantity : at8 (requested_quantity (signal r)) /\ 0 <= Decimal.raw (requested_quantity (signal r));
  rw_taker : Decimal.wf (cm_taker_fee_rate (cost_model r));
  rw_maker : Decimal.wf (cm_maker_fee_rate (cost_model r));
  rw_slippage : Decimal.wf (cm_slippage (cost_model r));
  rw_impact : Decimal.wf (cm_impact (cost_model r));
  rw_funding : Decimal.wf (funding_rate (cm_funding (cost_model r)));
  rw_interval : 0 <= interval_micros (cm_funding (cost_model r));
  rw_share : 0 <= participation_limit_ppm (portfolio r) <= 1000000;
  rw_queue : forall lo, queue_fill_min_ppm (order_policy r) = Some lo -> 0 <= lo;
  rw_seed : 0 <= seed r;
  rw_hold : 0 <= time_hold_micros (exit_policy r);
}.

Lemma fill_costs_wf r taker : request_wf r -> costs_wf (fill_costs r taker).
Proof. intros W. split; apply W. Qed.

Lemma queue_fill_ppm_range p s ppm : (forall lo, queue_fill_min_ppm p = Some lo -> 0 <= lo) -> 0 <= s ->
  queue_fill_ppm p s = Ok ppm -> 0 <= default 1000000 ppm <= 1000000.
Proof.
  intros L S E. unfold queue_fill_ppm in E. destruct (queue_fill_min_ppm p) as [lo|], (queue_fill_max_ppm p) as [hi|]; try done.
  - specialize (L lo eq_refl). destruct ((hi <? lo) || (1000000 <? hi)) eqn:B; [done|]. bool_to_prop.
    destruct (Z.eqb_spec lo hi); [injection E as <-; cbn; lia|].
    apply bind_Ok in E as (o & O & [= <-]). unfold int_try in O. destruct (in_ity _ _) in O; [|done]. injection O as <-.
    pose proof (Z.mod_pos_bound s (hi - lo + 1)). cbn. lia.
  - by injection E as <-.
Qed.

(** ** Fills of an entry *)

Lemma merge_fills_spec l r f : fill_wf l -> fill_wf r -> merge_fills l r = Ok f ->
  fill_wf f /\ Decimal.raw (filled_quantity f) = Decimal.raw (filled_quantity l) + Decimal.raw (filled_quantity r) /\
  remaining_quantity f = remaining_quantity r /\
  Decimal.raw (fill_notional f) = Decimal.raw (fill_notional l) + Decimal.raw (fill_notional r) /\
  Decimal.raw (fee f) = Decimal.raw (fee l) + Decimal.raw (fee r).
Proof.
  intros Wl Wr E. unfold merge_fills in E. apply bind_Ok in E as ([] & _ & E). apply bind_Ok in E as ([] & _ & E).
  apply bind_Ok in E as (filled & F & E). apply add8 in F as [Wf Rf]; [|apply Wl|apply Wr].
  apply bind_Ok in E as (n & N & E). apply add8 in N as [Wn Rn]; [|apply Wl|apply Wr].
  apply bind_Ok in E as (p & V%vwap_of_Ok & E).
  apply bind_Ok in E as (fe & Fe & E). apply add8 in Fe as [Wfe Rfe]; [|apply Wl|apply Wr].
  apply bind_Ok in E as (sl & Sl & E). apply add8 in Sl as [Wsl _]; [|apply Wl|apply Wr].
  apply bind_Ok in E as (im & Im & E). apply add8 in Im as [Wim _]; [|apply Wl|apply Wr].
  apply bind_Ok in E as (sp & Sp & E). apply add8 in Sp as [Wsp _]; [|apply Wl|apply Wr].
  apply synthetic_Ok in E as ->. cbn. split; [|by rewrite Rf, Rn, Rfe]. pose proof (fw_some l Wl). pose proof (fw_some r Wr).
  split; cbn; try done; [apply Wr|lia|apply Wr].
Qed.

(** Filled and unfilled quantity of an order of [n]. *)
Definition splits (n : Z) (f : CostedFill) : Prop :=
  Decimal.raw (filled_quantity f) + Decimal.raw (remaining_quantity f) = n.

Lemma rest_books_spec r buy ppm original arrival time_exit n f es bs f' es' :
  request_wf r -> 0 <= default 1000000 ppm <= 1000000 -> Forall book_wf bs -> fill_wf f -> splits n f ->
  rest_books r buy ppm original arrival time_exit f es bs = Ok (f', es') -> fill_wf f' /\ splits n f'.
Proof.
  intros W P F. revert f es. induction F as [|b bs Wb F IH]; intros f es Wf Sf E; cbn [rest_books] in E.
  { by injection E as <- <-. }
  destruct (qty_is_zero _); [by injection E as <- <-|]. destruct (_ || _); [by eapply IH|].
  apply bind_Ok in E as (x & X & E). apply costed_walk_spec in X as (Wx & (_ & _ & Sx & _) & _);
    [|done|by apply fill_costs_wf|apply Wf|apply Wf|done].
  destruct (qty_is_zero _); [by eapply (IH f)|]. apply bind_Ok in E as (es1 & _ & E).
  apply bind_Ok in E as (m & M & E). apply merge_fills_spec in M as (Wm & Rf & Rr & _); [|done..].
  eapply IH; [exact Wm| |exact E]. cbn in Sx. unfold splits in *. rewrite Rf, Rr. lia.
Qed.

Lemma execute_entry_spec r b buy q original arrival es f es' :
  request_wf r -> book_wf b -> at8 q -> 0 <= Decimal.raw q ->
  execute_entry r b buy q original arrival es = Ok (f, es') -> fill_wf f /\ splits (Decimal.raw q) f.
Proof.
  intros W Wb Q N E. unfold execute_entry in E. apply bind_Ok in E as (ppm & P & E).
  assert (0 <= default 1000000 ppm <= 1000000) as Rp.
  { destruct (order_type (order_policy r)); [by injection P as <-..| |by injection P as <-].
    exact (queue_fill_ppm_range _ _ _ (rw_queue r W) (rw_seed r W) P). }
  apply bind_Ok in E as (x & X & E). apply costed_walk_spec in X as (Wx & (_ & _ & Sx & _) & _);
    [|done|by apply fill_costs_wf|done..].
  apply bind_Ok in E as (es1 & _ & E). destruct (order_type (order_policy r)); [by injection E as <- <-..| |by injection E as <- <-].
  destruct (qty_is_zero _); [by injection E as <- <-|].
  unfold rest_gtc in E. apply bind_Ok in E as (ppm2 & P2 & E). apply bind_Ok in E as (t & _ & E).
  apply bind_Ok in E as ([f2 es2] & R & [= <- <-]).
  eapply rest_books_spec; [exact W| |apply W|exact Wx|exact Sx|exact R].
  apply (queue_fill_ppm_range _ _ _ (rw_queue r W)) in P2; [done|]. apply Z.mod_pos_bound. lia.
Qed.

(** ** Funding *)

(** Longs pay, shorts receive. *)
Definition pays (d : Direction) : Z := match d with Long => 1 | Short => -1 | Flat => 0 end.

Lemma add_time_Ok t d n : add_time t d = Ok n -> n = t + d.
Proof.
  intros E. unfold add_time in E. apply bind_Ok in E as (d' & D & E). unfold int_try in D.
  destruct (in_ity I64 d) in D; [|done]. injection D as <-. apply bind_Ok in E as (n' & A & E).
  unfold int_add, int_try in A. destruct (in_ity I64 _) in A; [|done]. injection A as <-.
  destruct (_ <? 0); [done|]. by injection E.
Qed.

Lemma add_time_stops t d : stops is_failure (add_time t d).
Proof. unfold add_time. destruct (int_try _ _); cbn; [|by eexists]. destruct (int_add _ _ _); cbn; [|by eexists]. case_match; by try eexists. Qed.

Section funding_facts.
Context (s : FundingSchedule) (d : Direction) (notional : UsdAmount) (closed_at : Z).
Context (Hi : 0 < interval_micros s) (Hr : Decimal.wf (funding_rate s)) (Hn : at8 notional).

Lemma funding_step total payment total' : at8 total -> at8 payment ->
  match d with
  | Long => value (Decimal.checked_add total payment)
  | Short => if Decimal.raw payment =? 0 then Ok total else value (Decimal.checked_sub total payment)
  | Flat => sim_err (InvalidRequest "funding.flat_position")
  end = Ok total' -> at8 total' /\ Decimal.raw total' = Decimal.raw total + pays d * Decimal.raw payment.
Proof using Type.
  intros T P E. destruct d; cbn [pays].
  - apply add8 in E as [? ->]; [|done..]. split; [done|lia].
  - destruct (Z.eqb_spec (Decimal.raw payment) 0); [injection E as <-; split; [done|lia]|].
    apply sub8 in E as [? ->]; [|done..]. split; [done|lia].
  - done.
Qed.

Lemma funding_loop_spec fuel cursor total t : at8 total -> cursor <= closed_at ->
  funding_loop fuel s d notional closed_at cursor total = Ok t ->
  at8 t /\ exists payment, Decimal.raw t = Decimal.raw total + pays d * ((closed_at - cursor) / interval_micros s) * payment /\
    (interval_micros s <= closed_at - cursor -> exists p, apply_funding notional (funding_rate s) = Ok p /\ Decimal.raw p = payment).
Proof using Hi Hr Hn.
  revert cursor total. induction fuel as [|fuel IH]; intros cursor total T C E; [done|]. cbn [funding_loop] in E.
  apply bind_Ok in E as (next & ->%add_time_Ok & E). destruct (Z.ltb_spec closed_at (cursor + interval_micros s)).
  { injection E as <-. split; [done|]. exists 0. split; [|lia]. rewrite Z.div_small by lia. lia. }
  apply bind_Ok in E as (p & P & E). pose proof P as P'. destruct (funding_rate s) as [rr rs] eqn:R.
  apply mul_rate_Ok in P' as [Wp _]; [|done..].
  apply bind_Ok in E as (total' & S & E). apply funding_step in S as [T' Rt]; [|done..].
  apply IH in E as (Wt & payment & Rf & Pf); [|done|lia]. split; [done|]. exists (Decimal.raw p).
  split; [|intros _; by exists p].
  replace ((closed_at - cursor) / interval_micros s) with ((closed_at - (cursor + interval_micros s)) / interval_micros s + 1)
    by (rewrite <- Z.div_add by lia; f_equal; lia).
  destruct (Z.le_gt_cases (interval_micros s) (closed_at - (cursor + interval_micros s))) as [L|G].
  - destruct (Pf L) as (p' & P' & <-). rewrite P in P'. injection P' as <-. lia.
  - rewrite Z.div_small in Rf |- * by lia. lia.
Qed.

Lemma funding_loop_stops fuel cursor total : closed_at - cursor < Z.of_nat fuel * interval_micros s -> cursor <= closed_at ->
  stops is_failure (funding_loop fuel s d notional closed_at cursor total).
Proof using Hi.
  revert cursor total. induction fuel as [|fuel IH]; intros cursor total F C; [lia|]. cbn [funding_loop].
  apply stops_bind; [apply add_time_stops|intros next ->%add_time_Ok].
  destruct (Z.ltb_spec closed_at (cursor + interval_micros s)); [exact I|].
  apply stops_bind; [apply apply_fee_stops, is_failure_failure|intros p _].
  apply stops_bind; [destruct d; auto with stops|intros t _]. apply IH; lia.
Qed.
End funding_facts.

(** Funding: one payment of the rate on the entry for every whole interval. *)
Lemma funding_over_hold_spec s d notional opened_at closed_at t :
  0 <= interval_micros s -> Decimal.wf (funding_rate s) -> at8 notional -> (opened_at < closed_at \/ 0 < interval_micros s) ->
  funding_over_hold s d notional opened_at closed_at = Ok t ->
  at8 t /\ exists payment,
    Decimal.raw t = pays d * ((closed_at - opened_at) / interval_micros s) * payment /\
    (interval_micros s <= closed_at - opened_at ->
       exists p, apply_funding notional (funding_rate s) = Ok p /\ Decimal.raw p = payment).
Proof.
  intros I R N H E. unfold funding_over_hold in E. destruct (Z.ltb_spec closed_at opened_at); [done|].
  apply bind_Ok in E as (hold & Ho & E). unfold int_try in Ho. destruct (in_ity U64 _) in Ho; [|done]. injection Ho as <-.
  destruct ((0 <? closed_at - opened_at) && (interval_micros s =? 0)) eqn:Z; [done|].
  rewrite zero_usd_Ok, bind_of_Ok in E. assert (0 < interval_micros s) as P.
  { apply andb_false_iff in Z as [Z|Z]; [apply Z.ltb_ge in Z; lia|apply Z.eqb_neq in Z; lia]. }
  apply funding_loop_spec in E; [|done|done|done|by apply at8_mk|lia]. cbn [Decimal.raw] in E. by setoid_rewrite Z.add_0_l in E.
Qed.

Lemma funding_over_hold_stops s d notional opened_at closed_at : 0 < interval_micros s ->
  stops is_failure (funding_over_hold s d notional opened_at closed_at).
Proof.
  intros P. unfold funding_over_hold. destruct (Z.ltb_spec closed_at opened_at); [by eexists|].
  destruct (int_try U64 _) as [hold|] eqn:Ho; cbn [ok_or]; [|by eexists]. rewrite bind_of_Ok.
  apply int_try_Some in Ho as [-> _]. case_match; [by eexists|]. rewrite zero_usd_Ok, bind_of_Ok.
  apply funding_loop_stops; [done| |lia]. pose proof (Z.div_pos (closed_at - opened_at) _ ltac:(lia) P).
  pose proof (Z.mul_succ_div_gt (closed_at - opened_at) _ P). lia.
Qed.

(** ** Accounts *)

Lemma latest_book_elem bs b : latest_book bs = Some b -> b ∈ bs.
Proof.
  revert b. induction bs as [|x bs IH] using rev_ind; intros b E; [done|]. unfold latest_book in *. rewrite fold_left_app in E. cbn in E.
  destruct (fold_left _ bs None) as [m|]; [|injection E as <-; set_solver].
  destruct (leb _ _); injection E as <-; [set_solver|]. apply elem_of_app. left. by apply IH.
Qed.

Lemma select_book_Ok bs at_ cutoff b : select_book bs at_ cutoff = Ok b ->
  b ∈ bs /\ book_effective_at b <= at_ /\ book_known_at b <= at_.
Proof.
  intros E. unfold select_book in E. apply bind_Ok in E as (u & _ & E).
  destruct (latest_book _) as [m|] eqn:L; [|done]. injection E as <-.
  apply latest_book_elem, list_elem_of_filter in L as [[? ?] ?]. done.
Qed.

Lemma fresh_book_Ok r at_ b : fresh_book r at_ = Ok b ->
  b ∈ books r /\ book_effective_at b <= at_ /\ book_known_at b <= at_ /\
  at_ - book_effective_at b <= max_book_staleness_micros (cm_latency (cost_model r)).
Proof.
  intros E. unfold fresh_book in E. apply bind_Ok in E as (m & S & E). apply select_book_Ok in S as (I & Ef & Kn).
  apply bind_Ok in E as (stale & St & E). unfold int_try in St. destruct (in_ity U64 _) in St; [|done]. injection St as <-.
  destruct (Z.ltb_spec (max_book_staleness_micros (cm_latency (cost_model r))) (at_ - book_effective_at m)); [done|].
  injection E as <-. done.
Qed.

Lemma cap_quantity_spec p requested depth q : at8 requested -> 0 <= Decimal.raw requested -> at8 depth -> 0 <= Decimal.raw depth ->
  0 <= participation_limit_ppm p <= 1000000 -> cap_quantity p requested depth = Ok q ->
  at8 q /\ 0 <= Decimal.raw q /\
  Decimal.raw q = Z.min (Decimal.raw requested) (Decimal.raw depth * participation_limit_ppm p / 1000000).
Proof.
  intros Q N [Wd Sd] Nd P E. unfold cap_quantity in E. destruct (qty_is_zero depth); [done|].
  rewrite (amount_of_wf depth), bind_of_Ok, decimal_small, bind_of_Ok in E by done.
  apply bind_Ok in E as (a & M & E). rewrite Sd in M.
  apply mul_trunc in M as (Wa & Sa & Ra); [|done|split; cbn; [split; cbn; lia|unfold MAX_DECIMAL_SCALE; lia]|done].
  rewrite amount_of_wf, bind_of_Ok in E by done. rewrite Sd in Ra. cbn [Decimal.raw Decimal.scale] in Ra.
  rewrite (quot_cancel _ 8 6), Z.quot_div_nonneg in Ra by lia.
  destruct (qty_min_Ok requested a Q (conj Wa Sa)) as [Wm Rm]. rewrite Ra in Rm.
  destruct (qty_is_zero _); [done|]. injection E as <-. split; [done|]. split; [|done]. rewrite Rm.
  apply Z.min_glb; [done|]. apply Z.div_pos; lia.
Qed.

(** A capped order never exceeds the request, nor its share of the depth. *)
Lemma admitted_quantity_spec r b buy original q : request_wf r -> book_wf b -> at8 original -> 0 <= Decimal.raw original ->
  admitted_quantity r b buy original = Ok q ->
  at8 q /\ 0 <= Decimal.raw q <= Decimal.raw original /\
  Decimal.raw q <= depth_of 1000000 (opposite_levels b buy) * participation_limit_ppm (portfolio r) / 1000000.
Proof.
  intros W Wb O N E. unfold admitted_quantity, opposite_depth in E. rewrite zero_qty_Ok, bind_of_Ok in E.
  apply bind_Ok in E as (depth & D & E). apply depth_from_Ok in D as [Wd Rd]; [|by apply at8_mk|by apply opposite_wf].
  cbn [Decimal.raw] in Rd. rewrite Z.add_0_l in Rd.
  pose proof (depth_nonneg 1000000 _ (opposite_wf b buy Wb) ltac:(lia)) as Nd.
  apply bind_Ok in E as (q' & C & E). apply cap_quantity_spec in C as (Wq & Nq & Rq); [|done|done|done|lia|apply W].
  apply bind_Ok in E as (worst & _ & E). apply bind_Ok in E as (u & _ & [= <-]). rewrite Rd in Rq.
  split; [done|]. lia.
Qed.

Section accounts.
Context `{PlainBlake3} `{EventsJson}.

(** The sums a result reports for an entry and an exit. *)
Record accounts (d : Direction) (entry : CostedFill) (exit : option CostedFill) (res : SimulationResult) : Prop := {
  ac_filled : res_filled_quantity res = filled_quantity entry;
  ac_fees : entry_fees res = fee entry /\
    Decimal.raw (exit_fees res) = match exit with Some x => Decimal.raw (fee x) | None => 0 end;
  ac_net : Decimal.raw (net_pnl res) =
    match exit with
    | Some x => pays d * (Decimal.raw (fill_notional x) - Decimal.raw (fill_notional entry))
    | None => 0
    end - Decimal.raw (entry_fees res) - Decimal.raw (exit_fees res) - Decimal.raw (res_slippage res) -
    Decimal.raw (res_impact res) - Decimal.raw (funding res);
}.

Lemma gross_pnl_spec d entry x g : fill_wf entry -> fill_wf x -> Decimal.raw (filled_quantity entry) <> 0 ->
  Decimal.raw (filled_quantity x) <> 0 ->
  gross_pnl d (vwap entry) (vwap x) (fill_notional entry) (fill_notional x) = Ok g ->
  at8 g /\ Decimal.raw g = pays d * (Decimal.raw (fill_notional x) - Decimal.raw (fill_notional entry)).
Proof.
  intros We Wx Ne Nx E. unfold gross_pnl in E.
  destruct (vwap entry) eqn:Ve; [|by apply (fw_vwap entry We) in Ve].
  destruct (vwap x) eqn:Vx; [|by apply (fw_vwap x Wx) in Vx].
  destruct d; [apply sub8 in E as [? ->]; [|apply Wx|apply We]|apply sub8 in E as [? ->]; [|apply We|apply Wx]|done];
    (split; [done|]); cbn; lia.
Qed.

Lemma net_of_Ok gross entry_fee exit_fee slip imp paid net :
  at8 gross -> at8 entry_fee -> at8 exit_fee -> at8 slip -> at8 imp -> at8 paid ->
  net_of gross entry_fee exit_fee slip imp paid = Ok net ->
  Decimal.raw net = Decimal.raw gross - Decimal.raw entry_fee - Decimal.raw exit_fee - Decimal.raw slip -
    Decimal.raw imp - Decimal.raw paid.
Proof.
  intros Wg We Wx Ws Wi Wp E. unfold net_of in E.
  apply bind_Ok in E as (c1 & C1 & E). apply add8 in C1 as [W1 R1]; [|done..].
  apply bind_Ok in E as (c2 & C2 & E). apply add8 in C2 as [W2 R2]; [|done..].
  apply bind_Ok in E as (c3 & C3 & E). apply add8 in C3 as [W3 R3]; [|done..].
  apply bind_Ok in E as (a & A & E). apply sub8 in A as [Wa Ra]; [|done..].
  apply sub8 in E as [_ ->]; [|done..]. lia.
Qed.

(** The amounts of an exit that may be absent. *)
Lemma exit_parts_spec d entry exit fe price sl im sp n g : fill_wf entry ->
  match exit with Some x => fill_wf x /\ Decimal.raw (filled_quantity entry) <> 0 /\ Decimal.raw (filled_quantity x) <> 0 | None => True end ->
  exit_parts exit = Ok (fe, price, sl, im, sp, n) -> gross_pnl d (vwap entry) price (fill_notional entry) n = Ok g ->
  at8 fe /\ at8 sl /\ at8 im /\ at8 sp /\ at8 g /\
  Decimal.raw fe = match exit with Some x => Decimal.raw (fee x) | None => 0 end /\
  Decimal.raw g = match exit with
    | Some x => pays d * (Decimal.raw (fill_notional x) - Decimal.raw (fill_notional entry))
    | None => 0
    end.
Proof.
  intros We Wx E G. destruct exit as [x|].
  - destruct Wx as (Wx & Ne & Nx). cbn in E. injection E as <- <- <- <- <- <-.
    apply gross_pnl_spec in G as [Wg Rg]; [|done..]. split_and!; done || apply Wx.
  - cbn in E. injection E as <- <- <- <- <- <-. unfold gross_pnl in G.
    assert (g = Decimal.mk 0 8) as -> by (destruct (vwap entry); by injection G as <-).
    split_and!; by apply at8_mk || done.
Qed.

(** The funding of a hold: nothing for an empty one. *)
Definition funding_due (i : FinishInput) (paid : UsdAmount) : Prop :=
  if qty_is_zero (filled_quantity (fin_entry i)) then Decimal.raw paid = 0
  else exists payment,
    Decimal.raw paid = pays (fin_direction i) *
      ((fin_closed_at i - fin_opened_at i) / interval_micros (fin_funding i)) * payment /\
    (interval_micros (fin_funding i) <= fin_closed_at i - fin_opened_at i ->
       exists p, apply_funding (fill_notional (fin_entry i)) (funding_rate (fin_funding i)) = Ok p /\ Decimal.raw p = payment).

Lemma finish_spec i res : fill_wf (fin_entry i) -> 0 < interval_micros (fin_funding i) -> Decimal.wf (funding_rate (fin_funding i)) ->
  match fin_exit i with
  | Some x => fill_wf x /\ Decimal.raw (filled_quantity (fin_entry i)) <> 0 /\ Decimal.raw (filled_quantity x) <> 0
  | None => True
  end ->
  finish i = Ok res ->
  accounts (fin_direction i) (fin_entry i) (fin_exit i) res /\ missed_quantity res = fin_missed i /\ funding_due i (funding res).
Proof.
  intros We Pi Wr Wx E. unfold finish in E. apply bind_Ok in E as (u & _ & E). apply bind_Ok in E as (u' & _ & E).
  apply bind_Ok in E as ([[[[[fe price] sl] im] sp] n] & X & E). apply bind_Ok in E as ([paid es] & Pd & E).
  apply bind_Ok in E as (slip & Sl & E). apply bind_Ok in E as (imp & Im & E). apply bind_Ok in E as (spread & Sp & E).
  apply bind_Ok in E as (g & G & E). destruct (exit_parts_spec _ _ _ _ _ _ _ _ _ _ We Wx X G) as (Wfe & Wsl & Wim & Wsp & Wg & Rfe & Rg).
  apply add8 in Sl as [Wslip _]; [|apply We|done]. apply add8 in Im as [Wimp _]; [|apply We|done].
  assert (at8 paid /\ funding_due i paid) as [Wp Fd].
  { unfold funding_due. destruct (qty_is_zero _); [injection Pd as <- _; split; [by apply at8_mk|done]|].
    apply bind_Ok in Pd as (amount & Fu & [= <- _]). apply funding_over_hold_spec in Fu; [done|lia|done|apply We|by right]. }
  apply bind_Ok in E as (net & N & E). apply net_of_Ok in N; [|done|apply We|done..].
  apply bind_Ok in E as (h & _ & E). apply bind_Ok in E as (u'' & _ & [= <-]).
  split; [|done]. split; cbn [res_filled_quantity entry_fees exit_fees net_pnl res_slippage res_impact funding]; [done|by split|]. lia.
Qed.

Lemma validate_interval_ne r u : request_validate r = Ok u -> interval_micros (cm_funding (cost_model r)) <> 0.
Proof.
  intros E. unfold request_validate, cost_model_validate in E. apply bind_Ok in E as (v & E & _).
  case_match; [done|]. apply bind_Ok in E as (v1 & _ & E). apply bind_Ok in E as (v2 & F & _). unfold check_funding in F.
  by destruct (Z.eqb_spec (interval_micros (cm_funding (cost_model r))) 0).
Qed.

Lemma validate_interval r u : request_wf r -> request_validate r = Ok u -> 0 < interval_micros (cm_funding (cost_model r)).
Proof. intros W V%validate_interval_ne. pose proof (rw_interval r W). lia. Qed.

(** A successful run: the arrival book, the entry, and the end. *)
Record entered (r : SimulationRequest) (arrival : Z) (b : BookSnapshot) (q : Quantity) (entry : CostedFill)
    (missed : Quantity) (es : list SimulationEvent) : Prop := {
  en_arrival : arrival_time r = Ok arrival;
  en_book : fresh_book r arrival = Ok b;
  en_direction : direction (signal r) <> Flat;
  en_quantity : admitted_quantity r b (entry_is_buy (direction (signal r))) (requested_quantity (signal r)) = Ok q;
  en_fill : execute_entry r b (entry_is_buy (direction (signal r))) q (requested_quantity (signal r)) arrival
    ([SignalObserved (detected_at (signal r)) (signal_id (signal r))] ++ [OrderSubmitted arrival (order_type (order_policy r))])
    = Ok (entry, es);
  en_missed : value (Decimal.checked_sub (requested_quantity (signal r)) (filled_quantity entry)) = Ok missed;
}.

Lemma run_inv r res : request_wf r -> run r = Ok res ->
  request_validate r = Ok tt /\ inject (failure r) = Ok tt /\
  exists arrival b q entry missed es, entered r arrival b q entry missed es /\
    (if qty_is_zero (filled_quantity entry) then
       finish (mkFinish (es ++ [Cancelled arrival]) entry None missed arrival arrival (direction (signal r))
                 (cm_funding (cost_model r)))
     else close_position r (entry_is_buy (direction (signal r))) entry missed arrival es) = Ok res.
Proof.
  intros W E. unfold run in E. apply bind_Ok in E as ([] & V & E). apply bind_Ok in E as (arrival & A & E).
  apply bind_Ok in E as ([] & I & E). apply bind_Ok in E as (b & B & E). destruct (bool_decide _) eqn:Fl; [done|].
  apply bool_decide_eq_false in Fl. apply bind_Ok in E as ([] & _ & E).
  rewrite align8, bind_of_Ok in E by apply W. apply bind_Ok in E as (q & Q & E).
  apply bind_Ok in E as ([entry es] & X & E). apply bind_Ok in E as (missed & M & E).
  split_and!; [done..|]. by exists arrival, b, q, entry, missed, es.
Qed.

Lemma entered_spec r arrival b q entry missed es : request_wf r -> entered r arrival b q entry missed es ->
  book_wf b /\ fill_wf entry /\ splits (Decimal.raw q) entry /\ at8 missed /\
  Decimal.raw (filled_quantity entry) + Decimal.raw missed = Decimal.raw (requested_quantity (signal r)) /\
  0 <= Decimal.raw q <= Decimal.raw (requested_quantity (signal r)) /\
  Decimal.raw q <= depth_of 1000000 (opposite_levels b (entry_is_buy (direction (signal r)))) * participation_limit_ppm (portfolio r) / 1000000.
Proof.
  intros W [_ B _ Q X M]. apply fresh_book_Ok in B as (I & _). pose proof (rw_books r W) as F. rewrite Forall_forall in F. specialize (F b I).
  destruct (rw_quantity r W) as [Wo No]. apply admitted_quantity_spec in Q as (Wq & Nq & Lq); [|done..].
  apply execute_entry_spec in X as [Wf Sf]; [|done..|lia]. apply sub8 in M as [Wm Rm]; [|done|apply Wf]. split_and!; [done..|lia|lia|lia|done].
Qed.

Lemma close_position_inv r buy entry missed opened es res : close_position r buy entry missed opened es = Ok res ->
  exists exit_at reason b x es',
    choose_exit (exit_policy r) (books r) opened (evaluation_known_at r) buy (invalidate_at r) = Ok (exit_at, reason) /\
    fresh_book r exit_at = Ok b /\
    costed_walk b (negb buy) (filled_quantity entry) None None (fill_costs r true) = Ok x /\
    push_fill_events (es ++ [ExitSubmitted exit_at reason]) exit_at x (filled_quantity entry) = Ok es' /\
    Decimal.raw (filled_quantity x) <> 0 /\
    finish (mkFinish (es' ++ [PositionClosed exit_at]) entry (Some x) missed opened exit_at (direction (signal r))
              (cm_funding (cost_model r))) = Ok res.
Proof.
  intros E. unfold close_position in E. apply bind_Ok in E as ([exit_at reason] & C & E). apply bind_Ok in E as (b & B & E).
  apply bind_Ok in E as (x & X & E). apply bind_Ok in E as (es' & P & E).
  destruct (qty_is_zero _) eqn:Z; [done|]. apply Z.eqb_neq in Z. by exists exit_at, reason, b, x, es'.
Qed.

Lemma run_entered r res : request_wf r -> run r = Ok res ->
  exists arrival b q entry missed es exit, entered r arrival b q entry missed es /\
    accounts (direction (signal r)) entry exit res /\ missed_quantity res = missed /\
    match exit with
    | None => Decimal.raw (filled_quantity entry) = 0
    | Some x => 0 < Decimal.raw (filled_quantity x) <= Decimal.raw (filled_quantity entry)
    end.
Proof.
  intros W E. destruct (run_inv r res W E) as (V & _ & arrival & b & q & entry & missed & es & En & F).
  pose proof (validate_interval r tt W V) as Pi. destruct (entered_spec r _ _ _ _ _ _ W En) as (_ & We & _).
  exists arrival, b, q, entry, missed, es. destruct (qty_is_zero _) eqn:Z.
  - apply finish_spec in F as (Ac & Mi & _); [|done|done|apply W|done]. exists None. by apply Z.eqb_eq in Z.
  - apply close_position_inv in F as (exit_at & reason & b' & x & es' & _ & B & X & _ & Nx & F). apply Z.eqb_neq in Z.
    apply fresh_book_Ok in B as (I & _). pose proof (proj1 (Forall_forall _ _) (rw_books r W) b' I) as Wb.
    apply costed_walk_spec in X as (Wx & (_ & _ & Sx & _) & _); [|done|by apply fill_costs_wf|apply We|apply We|done].
    apply finish_spec in F as (Ac & Mi & _); [|done|done|apply W|done]. exists (Some x). cbn in Sx.
    pose proof (fw_some x Wx). pose proof (fw_left x Wx). split_and!; [done..|lia|lia].
Qed.


Lemma long_within_bankroll r b q f arrival es es' : request_wf r -> book_wf b -> priced b -> order_type (order_policy r) <> Gtc ->
  admitted_quantity r b true (requested_quantity (signal r)) = Ok q ->
  execute_entry r b true q (requested_quantity (signal r)) arrival es = Ok (f, es') ->
  leb (fill_notional f) (bankroll (portfolio r)) = true.
Proof.
  intros W Wb G Ng A E. destruct (rw_quantity r W) as [Wo No]. pose proof A as A'.
  apply admitted_quantity_spec in A' as (Wq & Nq & _); [|done..].
  unfold admitted_quantity in A. apply bind_Ok in A as (depth & _ & A). apply bind_Ok in A as (q' & _ & A).
  apply bind_Ok in A as (worst & Wo' & A). apply bind_Ok in A as (u & Ad & [= ->]).
  destruct (last (opposite_levels b true)) as [l|] eqn:L; [|done].
  unfold execute_entry in E. apply bind_Ok in E as (ppm & P & E). apply bind_Ok in E as (i & Im & E). apply bind_Ok in E as (es1 & _ & E).
  assert (ppm = None /\ i = f) as [-> ->].
  { destruct (order_type (order_policy r)); try done; injection P as <-; injection E as -> _; done. }
  assert (0 <= default 1000000 (@None Z) <= 1000000) as Pn by done.
  pose proof (buy_cost_bound b q _ _ _ _ l q worst Wb G (fill_costs_wf r true W) Wq (proj1 Nq) Pn Im L Wq eq_refl Wo') as B.
  apply costed_walk_spec in Im as (Wf & _); [|done|by apply fill_costs_wf|done|lia|done].
  assert (at8 worst) as Ww.
  { apply quote_notional_Ok in Wo' as [? _]; [done| |done].
    pose proof (bw_asks b Wb) as F. rewrite Forall_forall in F. apply F. by apply last_Some_elem_of. }
  unfold admit_notional in Ad. destruct (ltb (bankroll (portfolio r)) worst) eqn:Lb; [done|]. apply ltb_false in Lb.
  eapply leb_trans; [|exact Lb]. apply same_scale_leb; [|done]. by rewrite (proj2 (fw_notional f Wf)), (proj2 Ww).
Qed.

(** A simulation respects its limits: it enters against a book that was in
    force, known and fresh when the order arrived, takes at most its share of
    that book's depth, and a long that does not rest on the book never costs
    more than the bankroll. *)
Theorem run_respects_limits r res : request_wf r -> run r = Ok res ->
  exists arrival b entry, arrival_time r = Ok arrival /\ b ∈ books r /\
    book_effective_at b <= arrival /\ book_known_at b <= arrival /\
    arrival - book_effective_at b <= max_book_staleness_micros (cm_latency (cost_model r)) /\
    res_filled_quantity res = filled_quantity entry /\ entry_fees res = fee entry /\
    Decimal.raw (filled_quantity entry) <=
      depth_of 1000000 (opposite_levels b (entry_is_buy (direction (signal r)))) * participation_limit_ppm (portfolio r) / 1000000 /\
    (direction (signal r) = Long -> order_type (order_policy r) <> Gtc -> priced b ->
       leb (fill_notional entry) (bankroll (portfolio r)) = true).
Proof.
  intros W E. destruct (run_entered r res W E) as (arrival & b & q & entry & missed & es & exit & En & Ac & _).
  destruct (entered_spec r _ _ _ _ _ _ W En) as (Wb & We & Se & _ & _ & _ & Lq). pose proof (fw_left entry We). unfold splits in Se.
  pose proof (fresh_book_Ok _ _ _ (en_book _ _ _ _ _ _ _ En)) as (I & Ef & Kn & St).
  exists arrival, b, entry. split_and!; [apply En|done..|apply Ac|apply Ac|lia|]. intros D Ng G.
  destruct En as [_ _ _ Q X _]. rewrite D in Q, X. by eapply long_within_bankroll.
Qed.
End accounts.

(** ** Higher fees *)

(** The request with other fee rates. *)
Definition with_fees (taker maker : Decimal.t) (r : SimulationRequest) : SimulationRequest :=
  let m := cost_model r in
  mkRequest (evaluation_known_at r) (signal r) (books r)
    (mkCostModel (cm_version m) taker maker (cm_funding m) (cm_slippage m) (cm_impact m) (cm_latency m))
    (order_policy r) (exit_policy r) (portfolio r) (failure r) (invalidate_at r) (seed r).

Lemma push_fill_events_le es at_ f f' original : fill_le f f' -> push_fill_events es at_ f' original = push_fill_events es at_ f original.
Proof. intros [S _]. rewrite S. done. Qed.

Lemma merge_fills_le l l' x x' f f' : fill_wf l -> fill_wf l' -> fill_wf x -> fill_wf x' -> fill_le l l' -> fill_le x x' ->
  merge_fills l x = Ok f -> merge_fills l' x' = Ok f' -> fill_le f f'.
Proof.
  intros Wl Wl' Wx Wx' Ll Lx E E'.
  destruct (merge_fills_spec _ _ _ Wl Wx E) as (_ & _ & _ & _ & Rf). destruct (merge_fills_spec _ _ _ Wl' Wx' E') as (_ & _ & _ & _ & Rf').
  split; [|pose proof (fl_fee _ _ Ll); pose proof (fl_fee _ _ Lx); lia].
  destruct Ll as [Sl _], Lx as [Sx _]. rewrite Sl, Sx in E'. unfold merge_fills in E, E'. cbn in E'.
  apply bind_Ok in E as (u & _ & E). apply bind_Ok in E as (v & _ & E).
  apply bind_Ok in E' as (u' & _ & E'). apply bind_Ok in E' as (v' & _ & E'). do 3 lockstep E E'. apply bind_Ok in E as (fe & _ & E). apply bind_Ok in E' as (fe' & _ & E'). do 3 lockstep E E'.
  apply synthetic_Ok in E as ->, E' as ->. done.
Qed.

Section fees.
Context (r : SimulationRequest) (taker maker : Decimal.t).
Context (W : request_wf r) (Wt : Decimal.wf taker) (Wm : Decimal.wf maker) (G : Forall priced (books r)).
Context (Lt : (dec_value (cm_taker_fee_rate (cost_model r)) <= dec_value taker)%Q).
Context (Lm : (dec_value (cm_maker_fee_rate (cost_model r)) <= dec_value maker)%Q).

Abbreviation r' := (with_fees taker maker r).

Lemma with_fees_wf : request_wf r'.
Proof using W Wt Wm. destruct W. by split. Qed.

Lemma costed_walk_fees b buy q limit ppm k f f' : b ∈ books r -> at8 q -> 0 <= Decimal.raw q ->
  0 <= default 1000000 ppm <= 1000000 -> costed_walk b buy q limit ppm (fill_costs r k) = Ok f ->
  costed_walk b buy q limit ppm (fill_costs r' k) = Ok f' -> fill_wf f /\ fill_wf f' /\ fill_le f f'.
Proof using W Wt Wm G Lt Lm.
  intros I Q N P E E'. pose proof (proj1 (Forall_forall _ _) (rw_books r W) b I) as Wb.
  pose proof (proj1 (Forall_forall _ _) G b I) as Gb. pose proof (fill_costs_wf r k W) as C.
  pose proof (fill_costs_wf r' k with_fees_wf) as C'. split_and!.
  - by eapply costed_walk_spec in E as [? _].
  - by eapply costed_walk_spec in E' as [? _].
  - eapply costed_walk_mono; [exact Wb|exact C|exact C'|exact Q|exact N|exact P| | |exact E|exact E'].
    + unfold fee_rate. cbn. by destruct k.
    + exact (costed_notional_nonneg _ _ _ _ _ _ _ Wb Gb C Q N P E).
Qed.

Lemma rest_books_fees buy ppm original arrival time_exit f f' es bs g es1 g' es1' :
  0 <= default 1000000 ppm <= 1000000 -> bs ⊆ books r -> fill_wf f -> fill_wf f' -> fill_le f f' ->
  rest_books r buy ppm original arrival time_exit f es bs = Ok (g, es1) ->
  rest_books r' buy ppm original arrival time_exit f' es bs = Ok (g', es1') ->
  fill_wf g /\ fill_wf g' /\ fill_le g g' /\ es1' = es1.
Proof using W Wt Wm G Lt Lm.
  intros P. revert f f' es. induction bs as [|b bs IH]; intros f f' es Sub Wf Wf' L E E'; cbn [rest_books] in E, E'.
  { injection E as <- <-. injection E' as <- <-. done. }
  pose proof (fl_same _ _ L) as S. assert (remaining_quantity f' = remaining_quantity f) as R by (by rewrite S).
  rewrite R in E'. destruct (qty_is_zero (remaining_quantity f)); [injection E as <- <-; injection E' as <- <-; done|].
  assert (bs ⊆ books r) as Sub' by set_solver. assert (b ∈ books r) as I by set_solver.
  destruct (_ || _); [by eapply (IH f f')|].
  apply bind_Ok in E as (x & X & E). apply bind_Ok in E' as (x' & X' & E').
  destruct (costed_walk_fees _ _ _ _ _ _ _ _ I (fw_remaining f Wf) (fw_left f Wf) P X X') as (Wx & Wx' & Lx).
  assert (filled_quantity x' = filled_quantity x) as Fx by (by rewrite (fl_same _ _ Lx)). rewrite Fx in E'.
  destruct (qty_is_zero _); [by eapply (IH f f')|]. rewrite (push_fill_events_le _ _ _ _ _ Lx) in E'.
  lockstep E E'. apply bind_Ok in E as (m & M & E). apply bind_Ok in E' as (m' & M' & E').
  pose proof (merge_fills_le _ _ _ _ _ _ Wf Wf' Wx Wx' L Lx M M') as Lm'.
  apply merge_fills_spec in M as [WM _]; [|done..]. apply merge_fills_spec in M' as [WM' _]; [|done..].
  by eapply (IH m m').
Qed.

Lemma execute_entry_fees b buy q original arrival es f f' es1 es1' : b ∈ books r -> at8 q -> 0 <= Decimal.raw q ->
  execute_entry r b buy q original arrival es = Ok (f, es1) -> execute_entry r' b buy q original arrival es = Ok (f', es1') ->
  fill_wf f /\ fill_wf f' /\ fill_le f f' /\ es1' = es1.
Proof using W Wt Wm G Lt Lm.
  intros I Q N E E'. unfold execute_entry in E, E'. cbn [with_fees order_policy seed] in E'. lockstep E E'.
  assert (0 <= default 1000000 x <= 1000000) as P.
  { destruct (order_type (order_policy r)); [by injection X as <-..| |by injection X as <-].
    exact (queue_fill_ppm_range _ _ _ (rw_queue r W) (rw_seed r W) X). }
  apply bind_Ok in E as (i & Im & E). apply bind_Ok in E' as (i' & Im' & E').
  destruct (costed_walk_fees _ _ _ _ _ _ _ _ I Q N P Im Im') as (Wi & Wi' & Li). rewrite (push_fill_events_le _ _ _ _ _ Li) in E'.
  lockstep E E'. assert (remaining_quantity i' = remaining_quantity i) as R by (by rewrite (fl_same _ _ Li)). rewrite R in E'.
  destruct (order_type (order_policy r)); [injection E as <- <-; injection E' as <- <-; done..| |injection E as <- <-; injection E' as <- <-; done].
  destruct (qty_is_zero _); [injection E as <- <-; injection E' as <- <-; done|].
  unfold rest_gtc in E, E'. cbn [with_fees order_policy seed exit_policy books] in E'. do 2 lockstep E E'.
  apply bind_Ok in E as ([g eg] & B & [= <- <-]). apply bind_Ok in E' as ([g' eg'] & B' & [= <- <-]).
  assert (0 <= default 1000000 x1 <= 1000000) as P2.
  { apply (queue_fill_ppm_range _ _ _ (rw_queue r W)) in X1; [done|]. apply Z.mod_pos_bound. lia. }
  destruct (rest_books_fees _ _ _ _ _ _ _ _ _ _ _ _ _ P2 (reflexivity _) Wi Wi' Li B B') as (Wg & Wg' & Lg & ->).
  split_and!; [done..|]. by rewrite (fl_same _ _ Lg).
Qed.

(** Two results of one trade under different fees. *)
Record dearer (res res' : SimulationResult) : Prop := {
  de_same : res' = mkResult (res_fill_class res) (fills_invented res) (live_execution res) (res_venue_fill res) (events res)
    (res_filled_quantity res) (missed_quantity res) (entry_vwap res) (exit_vwap res) (entry_fees res') (exit_fees res')
    (funding res) (res_slippage res) (res_impact res) (res_spread_cost res) (net_pnl res') (trace_hash res);
  de_entry : Decimal.raw (entry_fees res) <= Decimal.raw (entry_fees res');
  de_exit : Decimal.raw (exit_fees res) <= Decimal.raw (exit_fees res');
  de_net : Decimal.raw (net_pnl res') <= Decimal.raw (net_pnl res);
}.

Context `{PlainBlake3} `{EventsJson}.

Definition exits_le (x x' : option CostedFill) : Prop :=
  match x, x' with
  | Some y, Some y' => fill_wf y /\ fill_wf y' /\ fill_le y y'
  | None, None => True
  | _, _ => False
  end.

Lemma exit_parts_fees x x' fe price sl im sp n fe' price' sl' im' sp' n' : exits_le x x' ->
  exit_parts x = Ok (fe, price, sl, im, sp, n) -> exit_parts x' = Ok (fe', price', sl', im', sp', n') ->
  (price', sl', im', sp', n') = (price, sl, im, sp, n) /\ Decimal.raw fe <= Decimal.raw fe' /\
  at8 fe /\ at8 fe' /\ at8 sl /\ at8 im /\ at8 n.
Proof using Type.
  intros L E E'. destruct x as [y|], x' as [y'|]; try done.
  - destruct L as (Wy & Wy' & [Sy Fy]). cbn in E, E'. injection E as <- <- <- <- <- <-. injection E' as <- <- <- <- <- <-.
    rewrite Sy at 1 2 3 4 5. split_and!; try done; apply Wy || apply Wy'.
  - cbn in E, E'. injection E as <- <- <- <- <- <-. injection E' as <- <- <- <- <- <-. split_and!; done || by apply at8_mk.
Qed.

Lemma gross_pnl_at8 d ve vx ne nx g : at8 ne -> at8 nx -> gross_pnl d ve vx ne nx = Ok g -> at8 g.
Proof using Type.
  intros Wn Wx E. unfold gross_pnl in E. destruct ve, vx; [destruct d; [by apply sub8 in E as [? _]..|done]|..];
    injection E as <-; by apply at8_mk.
Qed.

Lemma paid_at8 entry s d opened closed es paid es' : fill_wf entry -> 0 < interval_micros s -> Decimal.wf (funding_rate s) ->
  (if qty_is_zero (filled_quantity entry) then z ← zero_usd; Ok (z, es) else
   amount ← funding_over_hold s d (fill_notional entry) opened closed;
   Ok (amount, if Decimal.raw amount =? 0 then es else es ++ [FundingApplied closed amount])) = Ok (paid, es') -> at8 paid.
Proof using Type.
  intros We Pi Wr E. destruct (qty_is_zero _); [injection E as <- _; by apply at8_mk|].
  apply bind_Ok in E as (amount & F & [= <- _]). apply funding_over_hold_spec in F as [? _]; [done|lia|done|apply We|by right].
Qed.

Lemma finish_fees es e e' x x' missed opened closed d s res res' :
  fill_wf e -> fill_wf e' -> fill_le e e' -> exits_le x x' -> 0 < interval_micros s -> Decimal.wf (funding_rate s) ->
  finish (mkFinish es e x missed opened closed d s) = Ok res ->
  finish (mkFinish es e' x' missed opened closed d s) = Ok res' -> dearer res res'.
Proof using Type.
  intros We We' Le Lx Pi Wr E E'. pose proof (fl_same _ _ Le) as Se. pose proof (fl_fee _ _ Le) as Fe.
  unfold finish in E, E'. cbn [fin_entry fin_exit fin_events fin_missed fin_opened_at fin_closed_at fin_direction fin_funding] in E, E'.
  apply bind_Ok in E as (u & _ & E). apply bind_Ok in E as (u1 & _ & E).
  apply bind_Ok in E' as (u' & _ & E'). apply bind_Ok in E' as (u1' & _ & E').
  apply bind_Ok in E as ([[[[[fe price] sl] im] sp] n] & X & E).
  apply bind_Ok in E' as ([[[[[fe' price'] sl'] im'] sp'] n'] & X' & E').
  destruct (exit_parts_fees _ _ _ _ _ _ _ _ _ _ _ _ _ _ Lx X X') as ([= -> -> -> -> ->] & Lf & Wf & Wf' & Wsl & Wim & Wn).
  rewrite Se in E'. cbn [filled_quantity vwap fill_notional slippage impact spread_cost fee] in E'.
  apply bind_Ok in E as ([paid es1] & Pd & E). apply bind_Ok in E' as ([paid' es1'] & Pd' & E').
  rewrite Pd in Pd'. injection Pd' as <- <-. apply paid_at8 in Pd; [|done..].
  apply bind_Ok in E as (slip & Sl & E). apply bind_Ok in E' as (slip' & Sl' & E'). rewrite Sl in Sl'. injection Sl' as <-.
  apply add8 in Sl as [Wslip _]; [|apply We|done].
  apply bind_Ok in E as (imp & Im & E). apply bind_Ok in E' as (imp' & Im' & E'). rewrite Im in Im'. injection Im' as <-.
  apply add8 in Im as [Wimp _]; [|apply We|done]. lockstep E E'.
  apply bind_Ok in E as (g & Gr & E). apply bind_Ok in E' as (g' & Gr' & E'). rewrite Gr in Gr'. injection Gr' as <-.
  apply gross_pnl_at8 in Gr; [|apply We|done].
  apply bind_Ok in E as (net & N & E). apply net_of_Ok in N; [|done|apply We|done..].
  apply bind_Ok in E' as (net' & N' & E'). apply net_of_Ok in N'; [|done|apply We'|done..].
  lockstep E E'. apply bind_Ok in E as (v & _ & [= <-]). apply bind_Ok in E' as (v' & _ & [= <-]).
  split; cbn [entry_fees exit_fees net_pnl]; [done|lia..].
Qed.

(** Higher fees never improve a simulation: with taker and maker rates that
    are not lower, and nothing else changed, the run trades the same
    quantities at the same prices and times and has the same trace; its fees
    are not lower and its net profit is not higher. *)
Theorem fees_never_help res res' : run r = Ok res -> run r' = Ok res' -> dearer res res'.
Proof using W Wt Wm G Lt Lm.
  intros E E'. destruct (run_inv r res W E) as (V & _ & arrival & b & q & entry & missed & es & En & F).
  destruct (run_inv r' res' with_fees_wf E') as (_ & _ & arrival' & b' & q' & entry' & missed' & es' & En' & F').
  pose proof (validate_interval r tt W V) as Pi. destruct En as [A B D Q X M], En' as [A' B' _ Q' X' M'].
  assert (arrival' = arrival) as -> by (change (arrival_time r') with (arrival_time r) in A'; congruence).
  assert (b' = b) as -> by (change (fresh_book r' arrival) with (fresh_book r arrival) in B'; congruence).
  assert (q' = q) as -> by (cbn [signal with_fees] in Q'; change (admitted_quantity r') with (admitted_quantity r) in Q'; congruence).
  pose proof (fresh_book_Ok _ _ _ B) as (I & _). pose proof (proj1 (Forall_forall _ _) (rw_books r W) b I) as Wb.
  destruct (rw_quantity r W) as [Wo No]. apply admitted_quantity_spec in Q as (Wq & Nq & _); [|done..].
  cbn [signal with_fees order_policy] in X', M', F'.
  destruct (execute_entry_fees _ _ _ _ _ _ _ _ _ _ I Wq (proj1 Nq) X X') as (We & We' & Le & ->).
  assert (filled_quantity entry' = filled_quantity entry) as Fi by (by rewrite (fl_same _ _ Le)).
  rewrite Fi in M', F'. rewrite M in M'. injection M' as <-. destruct (qty_is_zero _).
  { exact (finish_fees _ _ _ None None _ _ _ _ _ _ _ We We' Le Logic.I Pi (rw_funding r W) F F'). }
  apply close_position_inv in F as (exit_at & reason & b1 & x & es1 & C & B1 & Y & P & _ & F).
  apply close_position_inv in F' as (exit_at' & reason' & b1' & x' & es1' & C' & B1' & Y' & P' & _ & F').
  cbn [with_fees exit_policy books evaluation_known_at invalidate_at] in C'. rewrite C in C'. injection C' as <- <-.
  assert (b1' = b1) as -> by (change (fresh_book r' exit_at) with (fresh_book r exit_at) in B1'; congruence).
  pose proof (fresh_book_Ok _ _ _ B1) as (I1 & _). rewrite Fi in Y', P'.
  assert (0 <= default 1000000 (@None Z) <= 1000000) as Pn by done.
  destruct (costed_walk_fees _ _ _ _ _ _ _ _ I1 (fw_filled _ We) (fw_some _ We) Pn Y Y') as (Wx & Wx' & Lx).
  rewrite (push_fill_events_le _ _ _ _ _ Lx), P in P'. injection P' as <-.
  exact (finish_fees _ _ _ (Some x) (Some x') _ _ _ _ _ _ _ We We' Le (conj Wx (conj Wx' Lx)) Pi (rw_funding r W) F F').
Qed.
End fees.

(** ** How a run stops *)

Definition two_sided (b : BookSnapshot) : Prop := bids b <> [] /\ asks b <> [].

(** A latency drawn from the whole of [u64]. *)
Definition full_range (m : LatencyModel) : Prop :=
  match m with Fixed _ => False | Uniform lo hi => hi - lo = ity_max U64 end.
Definition full_range_latency (l : LatencyAssumptions) : Prop :=
  full_range (detection l) \/ full_range (network l) \/ full_range (processing l).

Lemma validate_two_sided r u : request_validate r = Ok u -> Forall two_sided (books r).
Proof.
  intros E. unfold request_validate in E. apply bind_Ok in E as (v1 & _ & E). apply bind_Ok in E as (v2 & _ & E).
  apply bind_Ok in E as (v3 & _ & E). destruct (is_empty _); [done|]. revert E.
  induction (books r) as [|b bs IH]; intros E; [constructor|]. cbn in E. apply bind_Ok in E as (b' & B & E).
  destruct (_ <? _); [done|]. constructor; [|by apply IH]. unfold book_new in B. destruct (_ <? _); [done|].
  pose proof (@sort_perm _ bid_order (bids b)) as Pb. pose proof (@sort_perm _ ask_order (asks b)) as Pa.
  fold (sort_bids (bids b)) in Pb. fold (sort_asks (asks b)) in Pa.
  destruct (sort_bids (bids b)), (sort_asks (asks b)); [done..|].
  split; intros N; [rewrite N in Pb; by apply Permutation_nil_r in Pb|rewrite N in Pa; by apply Permutation_nil_r in Pa].
Qed.

Lemma best_bid_stops b : two_sided b -> stops is_failure (best_bid b).
Proof. intros [N _]. unfold best_bid. by destruct (bids b). Qed.
Lemma best_ask_stops b : two_sided b -> stops is_failure (best_ask b).
Proof. intros [_ N]. unfold best_ask. by destruct (asks b). Qed.

#[local] Hint Resolve best_bid_stops best_ask_stops : stops.
#[local] Hint Extern 1 (stops _ (sim_err _)) => apply is_failure_failure : stops.
#[local] Hint Extern 1 (stops is_failure (quote_notional _ _)) => (apply quote_notional_stops, is_failure_failure) : stops.
#[local] Hint Extern 1 (stops is_failure (apply_fee _ _)) => (apply apply_fee_stops, is_failure_failure) : stops.
#[local] Hint Extern 1 (stops is_failure (apply_bps _ _)) => (apply apply_bps_stops, is_failure_failure) : stops.
#[local] Hint Extern 1 (stops is_failure (vwap_of _ _)) => (apply vwap_of_stops, is_failure_failure) : stops.
#[local] Hint Extern 1 (stops is_failure (depth_from _ _)) => (apply depth_from_stops, is_failure_failure) : stops.
#[local] Hint Extern 1 (stops is_failure (?o ?? Failure _)) => (destruct o; [exact I|apply is_failure_failure]) : stops.
#[local] Hint Extern 1 (stops is_failure (add_time _ _)) => apply add_time_stops : stops.

Lemma synthetic_stops q1 q2 p n fe sl im sp t : stops is_failure (synthetic q1 q2 p n fe sl im sp t).
Proof. exact I. Qed.

Lemma mid_price_stops bid ask : stops is_failure (mid_price bid ask).
Proof. unfold mid_price. auto 12 with stops. Qed.
Lemma abs_usd_diff_stops a b : stops is_failure (abs_usd_diff a b).
Proof. unfold abs_usd_diff. case_match; auto with stops. Qed.
#[local] Hint Resolve mid_price_stops abs_usd_diff_stops : stops.

Lemma apply_costs_stops b buy w c : two_sided b -> stops is_failure (apply_costs b buy w c).
Proof.
  intros T. unfold apply_costs, walk_vwap, opposite_depth.
  apply stops_bind; [auto with stops|intros price _]. destruct (qty_is_zero _); [exact I|].
  apply stops_bind; [auto with stops|intros fee _]. apply stops_bind; [auto with stops|intros slip _].
  apply stops_bind; [auto with stops|intros depth _]. destruct (qty_is_zero _); [auto with stops|].
  do 12 (apply stops_bind; [by auto with stops|intros ? _]). exact I.
Qed.

Lemma costed_walk_stops b buy q limit ppm c : two_sided b -> stops is_failure (costed_walk b buy q limit ppm c).
Proof.
  intros T. apply stops_bind; [apply take_liquidity_stops, is_failure_failure|intros w _]. by apply apply_costs_stops.
Qed.

Lemma queue_fill_ppm_stops p s : stops is_failure (queue_fill_ppm p s).
Proof. unfold queue_fill_ppm. destruct (queue_fill_min_ppm p), (queue_fill_max_ppm p); auto 8 with stops. Qed.

Lemma push_fill_events_stops es at_ f o : stops is_failure (push_fill_events es at_ f o).
Proof.
  unfold push_fill_events, admit_synthetic. apply stops_bind; [destruct (fill_class f); cbn; auto with stops|intros u _].
  destruct (qty_is_zero _); [exact I|]. destruct (vwap f); [|exact I]. case_match; exact I.
Qed.

Lemma merge_fills_stops l r : stops is_failure (merge_fills l r).
Proof.
  unfold merge_fills, admit_synthetic. apply stops_bind; [destruct (fill_class l); cbn; auto with stops|intros u _].
  apply stops_bind; [destruct (fill_class r); cbn; auto with stops|intros u' _].
  do 7 (apply stops_bind; [by auto with stops|intros ? _]). exact I.
Qed.

Lemma select_book_stops bs at_ cutoff : stops is_failure (select_book bs at_ cutoff).
Proof.
  unfold select_book. apply stops_bind; [|intros u _; auto with stops].
  induction bs as [|b bs IH]; cbn; [exact I|]. destruct (_ <? _); auto with stops.
Qed.

Lemma fresh_book_stops r at_ : stops is_failure (fresh_book r at_).
Proof.
  unfold fresh_book. apply stops_bind; [apply select_book_stops|intros b _]. apply stops_bind; [auto with stops|intros s _].
  destruct (_ <? _); auto with stops.
Qed.

Section stopping.
Context (r : SimulationRequest) (T : Forall two_sided (books r)).

Lemma two_sided_in b : b ∈ books r -> two_sided b.
Proof using T. intros I. exact (proj1 (Forall_forall _ _) T b I). Qed.

Lemma rest_books_stops buy ppm original arrival time_exit f es bs : bs ⊆ books r ->
  stops is_failure (rest_books r buy ppm original arrival time_exit f es bs).
Proof using T.
  revert f es. induction bs as [|b bs IH]; intros f es Sub; [exact I|]. cbn [rest_books].
  assert (bs ⊆ books r) as Sub' by set_solver. destruct (qty_is_zero _); [exact I|]. destruct (_ || _); [by apply IH|].
  apply stops_bind; [apply costed_walk_stops, two_sided_in; set_solver|intros x _]. destruct (qty_is_zero _); [by apply IH|].
  apply stops_bind; [apply push_fill_events_stops|intros es1 _]. apply stops_bind; [apply merge_fills_stops|intros m _]. by apply IH.
Qed.

Lemma execute_entry_stops b buy q original arrival es : two_sided b ->
  stops is_failure (execute_entry r b buy q original arrival es).
Proof using T.
  intros Tb. unfold execute_entry. apply stops_bind; [destruct (order_type _); try exact I; apply queue_fill_ppm_stops|intros ppm _].
  apply stops_bind; [by apply costed_walk_stops|intros i _]. apply stops_bind; [apply push_fill_events_stops|intros es1 _].
  destruct (order_type _); try exact I. destruct (qty_is_zero _); [exact I|]. unfold rest_gtc.
  apply stops_bind; [apply queue_fill_ppm_stops|intros ppm2 _]. apply stops_bind; [auto with stops|intros t _].
  apply stops_bind; [by apply rest_books_stops|intros [f es2] _]. exact I.
Qed.

Lemma scan_exits_stops p long opened cutoff time_exit chosen bs : bs ⊆ books r ->
  stops is_failure (scan_exits p long opened cutoff time_exit chosen bs).
Proof using T.
  revert chosen. induction bs as [|b bs IH]; intros chosen Sub; [exact I|]. cbn [scan_exits].
  assert (bs ⊆ books r) as Sub' by set_solver. assert (two_sided b) as Tb by (apply two_sided_in; set_solver).
  destruct (_ <? _); [auto with stops|]. destruct (_ || _); [by apply IH|].
  apply stops_bind; [unfold takes_profit; destruct (take_profit p), long; auto with stops|intros hit _].
  apply stops_bind; [unfold hits_stop; destruct (stop_price p), long; auto with stops|intros hit' _]. by apply IH.
Qed.

Lemma choose_exit_stops p opened cutoff long invalid : stops is_failure (choose_exit p (books r) opened cutoff long invalid).
Proof using T.
  unfold choose_exit. apply stops_bind; [auto with stops|intros t _].
  apply stops_bind; [by apply scan_exits_stops|intros chosen _]. apply stops_bind; [apply select_book_stops|intros; exact I].
Qed.

Lemma refuse_taking_alo_stops p b buy : two_sided b -> stops is_failure (refuse_taking_alo p b buy).
Proof using T.
  intros Tb. unfold refuse_taking_alo, would_take. destruct (order_type p); try exact I.
  apply stops_bind; [auto with stops|intros l _]. apply stops_bind; [destruct buy; auto with stops|intros t _].
  destruct t; auto with stops.
Qed.

Lemma admitted_quantity_stops b buy original : stops is_failure (admitted_quantity r b buy original).
Proof using T.
  unfold admitted_quantity, opposite_depth, cap_quantity, admit_notional. apply stops_bind; [auto with stops|intros depth _].
  apply stops_bind; [|intros q _]. { destruct (qty_is_zero _); [auto with stops|]. auto 12 with stops. }
  apply stops_bind; [destruct (last _); auto with stops|intros w _]. apply stops_bind; [destruct (ltb _ _)|intros; exact I]; auto with stops.
Qed.

Context `{PlainBlake3} `{EventsJson} (Hi : 0 < interval_micros (cm_funding (cost_model r))).

Lemma admit_synthetic_stops f : stops is_failure (admit_synthetic f).
Proof using Type. unfold admit_synthetic. destruct (fill_class f); cbn; auto with stops. Qed.

Lemma net_of_stops g f x s i p : stops is_failure (net_of g f x s i p).
Proof using Type. unfold net_of. auto 10 with stops. Qed.

Lemma refuse_events_stops es : stops is_failure (refuse_events es).
Proof using Type.
  induction es as [|e es IH]; [exact I|]. cbn. apply stops_bind; [|intros; apply IH].
  destruct e as [| | |? ? ? [] []|? ? ? [] []| | | | |]; cbn; auto with stops.
Qed.

Lemma finish_stops es entry exit missed opened closed d :
  stops is_failure (finish (mkFinish es entry exit missed opened closed d (cm_funding (cost_model r)))).
Proof using Hi.
  unfold finish. cbn [fin_entry fin_exit fin_events fin_missed fin_opened_at fin_closed_at fin_direction fin_funding].
  apply stops_bind; [apply admit_synthetic_stops|intros u _].
  apply stops_bind; [destruct exit; [apply admit_synthetic_stops|exact I]|intros u' _].
  apply stops_bind; [by destruct exit|intros [[[[[fe price] sl] im] sp] n] _].
  apply stops_bind; [|intros [paid es'] _].
  { destruct (qty_is_zero _); [exact I|]. apply stops_bind; [by apply funding_over_hold_stops|intros; exact I]. }
  do 3 (apply stops_bind; [by auto with stops|intros ? _]).
  apply stops_bind; [unfold gross_pnl; destruct (vwap entry), price, d; auto with stops|intros g _].
  apply stops_bind; [apply net_of_stops|intros net _]. apply stops_bind; [unfold hash_events; auto with stops|intros h _].
  apply stops_bind; [apply refuse_events_stops|intros; exact I].
Qed.

Lemma close_position_stops buy entry missed opened es : stops is_failure (close_position r buy entry missed opened es).
Proof using T Hi.
  unfold close_position. apply stops_bind; [apply choose_exit_stops|intros [exit_at reason] _].
  apply stops_bind; [apply fresh_book_stops|intros b (I & _)%fresh_book_Ok].
  apply stops_bind; [by apply costed_walk_stops, two_sided_in|intros x _].
  apply stops_bind; [apply push_fill_events_stops|intros es1 _]. destruct (qty_is_zero _); [auto with stops|apply finish_stops].
Qed.
End stopping.

(** A failure, or a panic of a full-range latency. *)
Definition stops_of (l : LatencyAssumptions) (e : stop) : Prop := is_failure e \/ e = Panic /\ full_range_latency l.

Lemma failure_stops_of {A} l (x : sim A) : stops is_failure x -> stops (stops_of l) x.
Proof. apply stops_impl. intros e F. by left. Qed.

Lemma latency_sample_stops m s : stops (fun e => is_failure e \/ e = Panic /\ full_range m) (latency_sample m s).
Proof.
  destruct m as [|lo hi]; [exact I|]. cbn [latency_sample full_range]. destruct (_ <? _); [left; apply is_failure_failure|].
  destruct (_ =? 0); [exact I|]. destruct (Z.eqb_spec (hi - lo) (ity_max U64)); [by right|exact I].
Qed.

Lemma arrival_time_stops r : stops (stops_of (cm_latency (cost_model r))) (arrival_time r).
Proof.
  unfold arrival_time, clock_new. apply stops_bind; [apply failure_stops_of; auto with stops|intros clock _].
  apply stops_bind; [|intros latency _].
  { unfold total_delay_micros. unfold stops_of, full_range_latency.
    apply stops_bind; [eapply stops_impl; [|apply latency_sample_stops]; naive_solver|intros d _].
    apply stops_bind; [eapply stops_impl; [|apply latency_sample_stops]; naive_solver|intros n _].
    apply stops_bind; [eapply stops_impl; [|apply latency_sample_stops]; naive_solver|intros p _].
    apply failure_stops_of; auto with stops. }
  apply stops_bind; [apply failure_stops_of; auto with stops|intros delay _].
  apply stops_bind; [|intros; exact I]. unfold advance. apply failure_stops_of; auto with stops.
Qed.

Lemma request_validate_stops r : stops is_failure (request_validate r).
Proof.
  unfold request_validate, cost_model_validate, order_policy_validate, check_fees, check_funding, check_slippage, check_impact.
  apply stops_bind; [auto 8 with stops|intros u _]. apply stops_bind; [destruct (order_type _); auto with stops|intros u' _].
  apply stops_bind; [auto with stops|intros u'' _]. destruct (is_empty _); [auto with stops|].
  induction (books r) as [|b bs IH]; [exact I|]. cbn [validate_books]. apply stops_bind.
  - unfold book_new. destruct (_ <? _); [auto with stops|]. destruct (sort_bids (bids b)), (sort_asks (asks b)); auto with stops.
  - intros b' _. destruct (_ <? _); auto with stops.
Qed.

(** C31. A run always ends, in a result or an error: the funding loop is done
    within its fuel, no validated book has an empty side to index, and the
    one panic left is a uniform latency over the whole of [u64]. *)
Theorem run_ends `{PlainBlake3} `{EventsJson} r : 0 <= interval_micros (cm_funding (cost_model r)) ->
  match run r with
  | Ok _ | Err (Failure _) => True
  | Err Panic => full_range_latency (cm_latency (cost_model r))
  | Err NoReturn => False
  end.
Proof.
  intros Pi. assert (stops (stops_of (cm_latency (cost_model r))) (run r)) as S.
  2: { destruct (run r) as [x|[f| |]]; [exact Logic.I..| |]; destruct S as [[f E]|[E F]]; done. }
  unfold run. apply stops_bind; [apply failure_stops_of, request_validate_stops|intros u V].
  pose proof (validate_two_sided r u V) as T. pose proof (validate_interval_ne r u V) as Ni.
  apply stops_bind; [apply arrival_time_stops|intros arrival _]. apply failure_stops_of.
  apply stops_bind; [destruct (failure r); cbn; auto with stops|intros u' _].
  apply stops_bind; [apply fresh_book_stops|intros b (I & _)%fresh_book_Ok]. pose proof (two_sided_in r T b I) as Tb.
  destruct (bool_decide _); [auto with stops|]. apply stops_bind; [by apply (refuse_taking_alo_stops r)|intros u'' _].
  apply stops_bind; [auto with stops|intros original _]. apply stops_bind; [by apply admitted_quantity_stops|intros q _].
  apply stops_bind; [by apply execute_entry_stops|intros [entry es] _]. apply stops_bind; [auto with stops|intros missed _].
  destruct (qty_is_zero _); [apply finish_stops; lia|apply close_position_stops; [done|lia]].
Qed.

(** ** Example runs *)

Definition example_json : EventsJson := fun es => Some [].

(** Whole units at eight decimals. *)
Definition units (n : Z) : Decimal.t := Decimal.mk (n * 10 ^ 8) 8.
Definition example_level (l : Z * Z) : BookLevel := mkLevel (units l.1) (units l.2).
Definition example_book (effective known : Z) (bs ls : list (Z * Z)) : BookSnapshot :=
  mkBook effective known (example_level <$> bs) (example_level <$> ls).

Definition example_costs : CostModel :=
  mkCostModel "v1" (Decimal.mk 5 4) (Decimal.mk 2 4) (mkFunding 40 (Decimal.mk 1 4)) (Decimal.mk 1 0) (Decimal.mk 2 0)
    (mkLatency (Fixed 5) (Uniform 0 10) (Fixed 0) 1000).
Definition market_order : OrderPolicy := mkPolicy Market None None None.
Definition example_request (d : Direction) (bs : list BookSnapshot) (p : OrderPolicy) (x : ExitPolicy) (cash : Z) : SimulationRequest :=
  mkRequest 5000 (mkSignal "s" "BTC" d 1000 1000 (units 10)) bs example_costs p x (mkLimits (units cash) 1000000) NoFailure None 7.
Definition run_example (r : SimulationRequest) : sim SimulationResult := @run example_blake3 example_json r.

Definition flat_books : list BookSnapshot :=
  [example_book 1000 1000 [(99, 20); (98, 20)] [(100, 20); (101, 20)]; example_book 1080 1080 [(102, 6); (101, 20)] [(103, 20)]].
Definition round_trip : SimulationRequest := example_request Long flat_books market_order (mkExit 100 None None) 100000.

Lemma at8_units n : ity_wf I128 (n * 10 ^ 8) -> at8 (units n).
Proof. apply at8_mk. Qed.

(** The example requests are built from decidable parts. *)
Ltac solve_request_wf :=
  split; cbn;
  repeat first
    [ done
    | apply Forall_nil_2
    | apply Forall_cons_2
    | match goal with
      | |- book_wf _ => split; cbn
      | |- level_wf _ => split_and!; cbn
      | |- at8 _ => by apply at8_mk
      | |- Decimal.wf _ => by split
      | |- sorted _ => by repeat constructor
      | |- forall lo, Some _ = Some lo -> _ => by intros ? [= <-]
      | |- exists bid ask, _ => do 2 eexists; by split_and!
      | |- _ /\ _ => split
      end ].

Lemma round_trip_wf : request_wf round_trip.
Proof. solve_request_wf. Qed.

(** *** What runs get wrong *)

Definition thin_exit : SimulationRequest :=
  example_request Short [example_book 1000 1000 [(100, 20)] [(101, 20)]; example_book 1080 1080 [(100, 20)] [(101, 1)]]
    market_order (mkExit 100 None None) 100000.

(** An exit that fills in part is reported as a closed position, and the
    part that is still open as earned: a short of ten at 100 that buys back
    one at 101, the price of the ask when it was opened, reports a closed
    position and a net profit of almost 900. *)
Theorem partial_exit_reports_profit :
  request_wf thin_exit /\
  exists res, run_example thin_exit = Ok res /\
    Fill 1005 (units 10) (units 100) Synthetic false ∈ events res /\
    PartialFill 1105 (units 1) (units 101) Synthetic false ∈ events res /\
    PositionClosed 1105 ∈ events res /\ Decimal.raw (units 898) <= Decimal.raw (net_pnl res).
Proof.
  split; [solve_request_wf|]. eexists. split; [vm_compute; reflexivity|]. cbn.
  split_and!; [repeat constructor..|done].
Qed.

Definition low_bankroll : SimulationRequest :=
  example_request Short [example_book 1000 1000 [(100, 20); (1, 1)] [(101, 20)]] market_order (mkExit 100 None None) 50.

(** The bankroll of a short is compared with its notional at the lowest bid,
    its best case: ten at 100 are sold on a bankroll of 50. *)
Theorem short_exceeds_bankroll :
  request_wf low_bankroll /\
  exists res, run_example low_bankroll = Ok res /\
    Fill 1005 (units 10) (units 100) Synthetic false ∈ events res /\ bankroll (portfolio low_bankroll) = units 50.
Proof. split; [solve_request_wf|]. eexists. split; [vm_compute; reflexivity|]. cbn. split; [repeat constructor|done]. Qed.

Definition foresight : SimulationRequest :=
  example_request Long [example_book 1000 1000 [(99, 20)] [(100, 20)]; example_book 1050 1500 [(120, 20)] [(121, 20)]]
    market_order (mkExit 100 (Some (units 110)) None) 5000.

(** An exit is triggered at the time a book holds, not when it is known: the
    only book at the take-profit is known at 1500, and the exit is sent at
    1050. *)
Theorem exit_before_it_is_known :
  request_wf foresight /\
  exists res, run_example foresight = Ok res /\ ExitSubmitted 1050 "take_profit" ∈ events res /\
    Forall (fun b => match best_bid b with Ok p => leb (units 110) p = true -> book_known_at b = 1500 | Err _ => True end) (books foresight).
Proof.
  split; [solve_request_wf|]. eexists. split; [vm_compute; reflexivity|]. cbn. split; [repeat constructor|].
  repeat constructor; vm_compute; done.
Qed.

Definition late_fill : SimulationRequest :=
  example_request Long
    [example_book 1000 1000 [(99, 20)] [(100, 20)]; example_book 1050 1050 [(90, 20)] [(101, 20)];
     example_book 1090 1090 [(90, 20)] [(100, 20)]]
    (mkPolicy Gtc (Some (units 100)) (Some 200000) (Some 200000)) (mkExit 100 None (Some (units 95))) 5000.

(** A resting order goes on filling after the stop has closed the position: the
    exit of eight is sent at 1050, and four of them are bought at 1090. *)
Theorem fills_after_the_exit :
  request_wf late_fill /\
  exists res, run_example late_fill = Ok res /\ ExitSubmitted 1050 "stop" ∈ events res /\
    Fill 1050 (units 8) (units 90) Synthetic false ∈ events res /\
    PartialFill 1090 (units 4) (units 100) Synthetic false ∈ events res.
Proof. split; [solve_request_wf|]. eexists. split; [vm_compute; reflexivity|]. cbn. split_and!; repeat constructor. Qed.

Definition unsorted_book : SimulationRequest :=
  example_request Long [example_book 1000 1000 [(99, 20)] [(120, 20); (100, 20)]] market_order (mkExit 100 None None) 5000.

(** Validation sorts a copy of each book and drops it: a book whose asks are
    out of order is accepted and walked as it is, the dear level first. *)
Theorem unsorted_book_is_walked :
  request_validate unsorted_book = Ok tt /\
  exists res, run_example unsorted_book = Ok res /\ Fill 1005 (units 10) (units 120) Synthetic false ∈ events res.
Proof. split; [done|]. eexists. split; [vm_compute; reflexivity|]. repeat constructor. Qed.

(** The impact in basis points is truncated at the scale of the rate at full
    depth: at two basis points in whole numbers, an order for a quarter of the
    depth has none. *)
Theorem whole_bps_impact_vanishes :
  exists res, run_example round_trip = Ok res /\ cm_impact (cost_model round_trip) = Decimal.mk 2 0 /\
    Decimal.raw (res_impact res) = 0 /\ res_filled_quantity res = units 10.
Proof. eexists. split; [vm_compute; reflexivity|done]. Qed.

Definition full_range_request : SimulationRequest :=
  mkRequest 5000 (signal round_trip) flat_books
    (mkCostModel "v1" (Decimal.mk 5 4) (Decimal.mk 2 4) (mkFunding 40 (Decimal.mk 1 4)) (Decimal.mk 1 0) (Decimal.mk 2 0)
       (mkLatency (Uniform 0 (ity_max U64)) (Fixed 0) (Fixed 0) 1000))
    market_order (mkExit 100 None None) (mkLimits (units 5000) 1000000) NoFailure None 7.

(** A validated request whose latency spans the whole of [u64] panics. *)
Theorem full_range_latency_panics :
  request_validate full_range_request = Ok tt /\ run_example full_range_request = Err Panic.
Proof. by vm_compute. Qed.

(** *** Witnesses *)

Definition round_trip_result : SimulationResult :=
  match run_example round_trip with Ok res => res | Err _ => mkResult Venue true true true [] (units 0) (units 0) None None
    (units 0) (units 0) (units 0) (units 0) (units 0) (units 0) (units 0) [] end.

Lemma round_trip_runs : run_example round_trip = Ok round_trip_result.
Proof. vm_compute. reflexivity. Qed.


Lemma run_respects_limits_witness :
  exists arrival b entry, arrival_time round_trip = Ok arrival /\ b ∈ books round_trip /\
    book_effective_at b <= arrival /\ book_known_at b <= arrival /\
    arrival - book_effective_at b <= max_book_staleness_micros (cm_latency (cost_model round_trip)) /\
    res_filled_quantity round_trip_result = filled_quantity entry /\ entry_fees round_trip_result = fee entry /\
    Decimal.raw (filled_quantity entry) <=
      depth_of 1000000 (opposite_levels b (entry_is_buy (direction (signal round_trip)))) *
      participation_limit_ppm (portfolio round_trip) / 1000000 /\
    (direction (signal round_trip) = Long -> order_type (order_policy round_trip) <> Gtc -> priced b ->
       leb (fill_notional entry) (bankroll (portfolio round_trip)) = true).
Proof. apply (@run_respects_limits example_blake3 example_json round_trip); [exact round_trip_wf|exact round_trip_runs]. Defined.

Lemma run_ends_witness :
  match run_example round_trip with
  | Ok _ | Err (Failure _) => True
  | Err Panic => full_range_latency (cm_latency (cost_model round_trip))
  | Err NoReturn => False
  end.
Proof. apply (@run_ends example_blake3 example_json round_trip). done. Defined.

Definition dear_trip : SimulationRequest := with_fees (Decimal.mk 7 4) (Decimal.mk 2 4) round_trip.
Definition dear_trip_result : SimulationResult :=
  match run_example dear_trip with Ok res => res | Err _ => round_trip_result end.

Lemma dear_trip_runs : run_example dear_trip = Ok dear_trip_result.
Proof. vm_compute. reflexivity. Qed.

Lemma flat_books_priced : Forall priced flat_books.
Proof. by repeat constructor. Qed.

Lemma dear_rates : Decimal.wf (Decimal.mk 7 4) /\ Decimal.wf (Decimal.mk 2 4) /\
  (dec_value (cm_taker_fee_rate (cost_model round_trip)) <= dec_value (Decimal.mk 7 4))%Q /\
  (dec_value (cm_maker_fee_rate (cost_model round_trip)) <= dec_value (Decimal.mk 2 4))%Q.
Proof. split_and!; [by split|by split|vm_compute; done..]. Qed.

Lemma fees_never_help_witness : dearer round_trip_result dear_trip_result.
Proof.
  exact (@fees_never_help round_trip (Decimal.mk 7 4) (Decimal.mk 2 4) round_trip_wf (proj1 dear_rates) (proj1 (proj2 dear_rates))
    flat_books_priced (proj1 (proj2 (proj2 dear_rates))) (proj2 (proj2 (proj2 dear_rates))) example_blake3 example_json
    round_trip_result dear_trip_result round_trip_runs dear_trip_runs).
Defined.
