(* ===== verification/Signals.v ===== *)
(** * Signals: [signal-core/src], and the observations of [market-intelligence/src/sentiment.rs]

    A signal is proposed with its evidence and moves through a life cycle that
    is an append-only log of events. The file holds the signals, their
    evidence and what admits it, the life cycle, the rules that invalidate a
    signal, the alert policy, deduplication keys, and the ranking utility. *)

From Stdlib Require Import Strings.Byte Strings.String.
From stdpp Require Import sorting sets.
From S2P Require Import Prelude Ordering Sorting BTreeMap Bytes FixedPoint Ids FeatureWindow FeatureSnapshot.

(** ** Market observations *)

Inductive MarketError :=
| MkEmptyIdentifier (field : string)
| MkUnsupported (what : string)
| MkMalformed (what reason : string)
| MkInsufficientHistory (what : string)
| MkRedDataHealth (what : string)
| MkEmptyDenominator
| MkMissingInput (name : string)
| MkScaleMismatch
| MkOverflow
| MkDivisionByZero
| MkOutOfRange
| MkFeature (e : FeatureError).

Inductive ObservationStatus := StObserved | StMissing (reason : MissingReason).
Inductive ObservationMintKind := DecimalDepth | BooleanPresence.
Inductive ObservationAdmission := Observed | AdMissing | AdMalformed (what reason : string).

Definition admission_from_error (name : string) (e : MarketError) : ObservationAdmission :=
  match e with
  | MkMissingInput _ => AdMissing
  | MkMalformed what reason => AdMalformed what reason
  | _ => AdMalformed name "unusable observation"
  end.

Definition from_named_typed_feature (what : string) (value : option FeatureValue) (kind : ObservationMintKind)
  : result MarketError ObservationStatus :=
  match value with
  | None => Ok (StMissing NotObserved)
  | Some v =>
      match kind, v with
      | _, FvMissing reason => Ok (StMissing reason)
      | DecimalDepth, FvDecimal _ _ => Ok StObserved
      | DecimalDepth, FvBoolean _ => Err (MkMalformed what "boolean cannot mint decimal depth")
      | BooleanPresence, FvBoolean true => Ok StObserved
      | BooleanPresence, FvBoolean false => Ok (StMissing NotObserved)
      | BooleanPresence, FvDecimal _ _ => Err (MkMalformed what "decimal depth cannot mint boolean presence")
      | _, _ => Err (MkMalformed what "unsupported observation value for mint kind")
      end
  end.

Record MarketFeatureSnapshot := mkMarketSnapshot {
  ms_market_id : MarketId;
  ms_horizon : Horizon;
  ms_feature_set_version : string;
  ms_effective_at : Z;
  ms_known_at : Z;
  ms_input_watermark : BlockHeight;
  ms_values : btmap FeatureKey FeatureValue;
  ms_health : HealthAssessment;
  ms_provenance_hash : Hash;
}.

(** The bytes of [compute_provenance_hash]; [encode_feature_value] writes what
    [hash_feature_value] of the feature snapshots does. *)
Definition market_provenance_bytes (s : MarketFeatureSnapshot) : bytes :=
  as_bytes "alpha-desk/market-intelligence/v1" ++ as_bytes (ms_market_id s) ++ to_le_bytes 8 (ms_horizon s) ++
  as_bytes (ms_feature_set_version s) ++ to_le_bytes 8 (ms_effective_at s) ++ to_le_bytes 8 (ms_known_at s) ++
  to_le_bytes 8 (ms_input_watermark s) ++ as_bytes (health_wire_name (state (ms_health s))) ++
  as_bytes (scope (ms_health s)) ++ as_bytes (reason_code (ms_health s)) ++ concat (entry_bytes <$> ms_values s).

Definition market_snapshot_try_new `{PlainBlake3} (market : MarketId) (horizon : Horizon) (fsv : string) (effective known : Z)
    (watermark : BlockHeight) (vals : btmap FeatureKey FeatureValue) (health : HealthAssessment)
  : result MarketError MarketFeatureSnapshot :=
  if known <? effective then Err (MkMalformed "market_feature_snapshot" "known_at precedes effective_at") else
  if is_empty vals then Err (MkMalformed "market_feature_snapshot" "empty values") else
  if bool_decide (state health = Red) && negb (forallb is_missing (bt_values vals))
  then Err (MkMalformed "market_feature_snapshot" "red data health must emit missing values") else
  let s := mkMarketSnapshot market horizon fsv effective known watermark vals health (replicate 32 x00) in
  Ok (mkMarketSnapshot market horizon fsv effective known watermark vals health (blake3_hash (market_provenance_bytes s))).

Definition market_feature_key (name : string) : result MarketError FeatureKey := map_err MkFeature (key_try_new "market" name 1).

Definition observation (s : MarketFeatureSnapshot) (name : string) (kind : ObservationMintKind)
  : result MarketError ObservationStatus :=
  key ← market_feature_key name;
  from_named_typed_feature name (bt_get key (ms_values s)) kind.

Definition admit_observation (s : MarketFeatureSnapshot) (name : string) (kind : ObservationMintKind) : ObservationAdmission :=
  match observation s name kind with
  | Ok StObserved => Observed
  | Ok (StMissing _) => AdMissing
  | Err e => admission_from_error name e
  end.

(** ** Signals: [signal.rs] *)

Inductive SignalType :=
| IndependentSmartFlowAcceleration | SmartCrowdDivergence | LiquidationFragilityAsymmetry | ResearchOnly (identifier : string).

Definition type_wire_name (t : SignalType) : string :=
  match t with
  | IndependentSmartFlowAcceleration => "independent_smart_flow_acceleration"
  | SmartCrowdDivergence => "smart_crowd_divergence"
  | LiquidationFragilityAsymmetry => "liquidation_fragility_asymmetry"
  | ResearchOnly _ => "research_only"
  end.
Definition type_can_enter_live (t : SignalType) : bool := match t with ResearchOnly _ => false | _ => true end.

Inductive SignalLifecycleState := Candidate | Validated | Live | Decaying | Invalidated | Expired | Resolved.
#[global] Instance SignalLifecycleState_eq_dec : EqDecision SignalLifecycleState.
Proof. solve_decision. Defined.

Inductive SignalConfirmationClass := CommittedPrimary | CommittedIndependent | ProvisionalSource | SyntheticUnqualified.
Definition class_can_enter_live (c : SignalConfirmationClass) : bool :=
  match c with CommittedPrimary | CommittedIndependent => true | ProvisionalSource | SyntheticUnqualified => false end.

Inductive SignalActor := System | ResearchRole | RiskRole | PlatformRole.

Inductive SignalError :=
| IncompleteEvidence (missing : list string)
| SgMalformed (what reason : string)
| InvalidTransition (from to : SignalLifecycleState)
| UnsupportedHealth
| ContractViolation (what : string)
| SgEmptyIdentifier (field : string)
| ResearchOnlyCannotGoLive
| Suppressed (what : string)
| SgOverflow
| Domain (e : ValueError).

Definition research_only (identifier : string) : result SignalError SignalType :=
  if trims_to_empty identifier || trim_changes identifier then Err (SgEmptyIdentifier "research_only_id")
  else Ok (ResearchOnly identifier).

Record Signal := mkSignal {
  sg_id : string;
  sg_type : SignalType;
  sg_market_id : MarketId;
  sg_direction : Direction;
  sg_created_at : Z;
  sg_effective_at : Z;
  sg_as_of_block : BlockHeight;
  sg_confirmation_class : SignalConfirmationClass;
  sg_horizon : Horizon;
  sg_expected_return_bps : BasisPoints;
  sg_expected_cost_bps : BasisPoints;
  sg_net_edge_bps : BasisPoints;
  sg_confidence : Z;
  sg_confidence_interval_bps : BasisPoints * BasisPoints;
  sg_capacity : UsdAmount;
  sg_half_life : Horizon;
  sg_crowding : Z;
  sg_tail_risk_bps : BasisPoints;
  sg_data_health : HealthAssessment;
  sg_model_version : string;
  sg_feature_set_version : string;
  sg_evidence_bundle_hash : Hash;
  sg_invalidation_rules_hash : Hash;
  sg_lifecycle_state : SignalLifecycleState;
}.

Definition all_zero (h : Hash) : bool := forallb (Byte.eqb x00) h.

(** What the life cycle state of a new signal requires. *)
Definition check_live (t : SignalType) (c : SignalConfirmationClass) (l : SignalLifecycleState) : result SignalError unit :=
  match l with
  | Live =>
      if negb (type_can_enter_live t) then Err ResearchOnlyCannotGoLive else
      if negb (class_can_enter_live c) then Err (ContractViolation "synthetic or provisional confirmation cannot enter live")
      else Ok tt
  | _ => Ok tt
  end.

(** [Signal::try_new]; the arguments are those of the source but for the net
    edge, which it computes. *)
Definition signal_try_new (id : string) (t : SignalType) (market : MarketId) (d : Direction) (created effective : Z)
    (block : BlockHeight) (class : SignalConfirmationClass) (horizon : Horizon) (ret cost : BasisPoints) (confidence : Z)
    (interval : BasisPoints * BasisPoints) (capacity : UsdAmount) (half_life : Horizon) (crowding : Z) (tail : BasisPoints)
    (health : HealthAssessment) (model fsv : string) (evidence rules : Hash) (l : SignalLifecycleState)
  : result SignalError Signal :=
  if created <? effective then Err (ContractViolation "created_at precedes effective_at") else
  if all_zero evidence || all_zero rules then Err (IncompleteEvidence ["zero_evidence_or_rule_hash"%string]) else
  if bool_decide (d = Flat) then Err (ContractViolation "signals must be directional") else
  if Decimal.raw cost <? 0 then Err (ContractViolation "cost must be non-negative") else
  raw ← int_sub I128 (Decimal.raw ret) (Decimal.raw cost) ?? SgOverflow;
  net ← map_err Domain (Decimal.from_raw raw (Decimal.scale ret));
  _ ← check_live t class l;
  Ok (mkSignal id t market d created effective block class horizon ret cost net confidence interval capacity half_life
        crowding tail health model fsv evidence rules l).

(** ** Invalidation rules: [invalidation.rs] *)

Inductive InvalidationRule :=
| OriginatorExposureClosed (fraction : Z)
| FlowBelow (feature : FeatureKey) (threshold : FeatureValue)
| IndependenceBelow (threshold : Z)
| CostAboveEdge
| DataHealthNotGreen
| BookHealthNotGreen
| TimeExpired (at_ : Z)
| CustomApproved (rule_id : string) (rule_version : Z).

Definition try_custom (rule_id : string) (v : Z) : result SignalError InvalidationRule :=
  if trims_to_empty rule_id || (v =? 0) then Err (ContractViolation "invalid custom rule") else Ok (CustomApproved rule_id v).

Record InvalidationObservation := mkObservation {
  originator_closed_ppm : Z;
  flow_value : option FeatureValue;
  independence : Z;
  cost_exceeds_edge : bool;
  obs_data_health : HealthState;
  obs_book_health : HealthState;
  now : Z;
}.

Record InvalidationStatus := mkStatus {
  rule : InvalidationRule;
  triggered : bool;
  distance_ppm : Z;
}.

Definition evaluate_rule (r : InvalidationRule) (o : InvalidationObservation) : result SignalError InvalidationStatus :=
  '(hit, distance) ← match r with
    | OriginatorExposureClosed fraction =>
        Ok (fraction <=? originator_closed_ppm o, int_saturating_sub U32 fraction (originator_closed_ppm o))
    | FlowBelow _ threshold =>
        match flow_value o, threshold with
        | Some (FvSigned v), FvSigned limit => Ok (v <? limit, 0)
        | None, _ => Ok (true, 0)
        | _, _ => Err (ContractViolation "flow comparison requires signed integers")
        end
    | IndependenceBelow threshold =>
        Ok (independence o <? threshold, int_saturating_sub U32 (independence o) threshold)
    | CostAboveEdge => Ok (cost_exceeds_edge o, 0)
    | DataHealthNotGreen => Ok (negb (bool_decide (obs_data_health o = Green)), 0)
    | BookHealthNotGreen => Ok (negb (bool_decide (obs_book_health o = Green)), 0)
    | TimeExpired at_ => Ok (at_ <=? now o, 0)
    | CustomApproved _ _ => Ok (false, 1000000)
    end;
  d ← map_err Domain (ProbabilityPpm.from_ppm (Z.min distance 1000000));
  Ok (mkStatus r hit d).

Fixpoint any_triggered (rules : list InvalidationRule) (o : InvalidationObservation) : result SignalError bool :=
  match rules with
  | [] => Ok false
  | r :: rules => s ← evaluate_rule r o; if triggered s then Ok true else any_triggered rules o
  end.

(** ** Evidence: [evidence.rs] *)

Inductive MemorySupport := InSupport | OutsideSupport (why : string).
Record AnalogueMatch := mkAnalogue {
  am_episode_id : string;
  am_distance_milli : Z;
  am_contributing_dimensions : list Z;
  am_outcome_bps : option Z;
}.
Record AnalogueSet := mkAnalogues {
  an_matches : list AnalogueMatch;
  an_independent_episode_count : Z;
  an_support : MemorySupport;
  an_historical_support : Z;
  an_manifest_hash : Hash;
}.

Record EvidenceBundle := mkBundle {
  eb_signal_id : string;
  eb_canonical_event_refs : list EvidenceRef;
  eb_entities : list (string * Z);
  eb_feature_before : MarketFeatureSnapshot;
  eb_feature_after : MarketFeatureSnapshot;
  eb_watermark : BlockHeight;
  eb_source_confidence : Z;
  eb_model_artifact_hash : Hash;
  eb_code_commit : string;
  eb_cost_assumptions_hash : Hash;
  eb_analogues : AnalogueSet;
  eb_invalidation_rules : list InvalidationRule;
  eb_capacity : UsdAmount;
  eb_half_life : Horizon;
  eb_limitations : list string;
  eb_content_hash : Hash;
}.

Definition set_content_hash (h : Hash) (b : EvidenceBundle) : EvidenceBundle :=
  mkBundle (eb_signal_id b) (eb_canonical_event_refs b) (eb_entities b) (eb_feature_before b) (eb_feature_after b)
    (eb_watermark b) (eb_source_confidence b) (eb_model_artifact_hash b) (eb_code_commit b) (eb_cost_assumptions_hash b)
    (eb_analogues b) (eb_invalidation_rules b) (eb_capacity b) (eb_half_life b) (eb_limitations b) h.

(** [u64::try_from(len).unwrap_or(0)] *)
Definition len_u64 {A} (l : list A) : Z := default 0 (int_try U64 (zlen l)).

(** [join] with a NUL between the parts. *)
Fixpoint join_nul (l : list bytes) : bytes :=
  match l with
  | [] => []
  | [x] => x
  | x :: l => x ++ [x00] ++ join_nul l
  end.

Definition bundle_bytes (b : EvidenceBundle) : bytes :=
  as_bytes "alpha-desk/signal-evidence/v1" ++ as_bytes (eb_signal_id b) ++ to_le_bytes 8 (eb_watermark b) ++
  to_le_bytes 4 (eb_source_confidence b) ++ eb_model_artifact_hash b ++ as_bytes (eb_code_commit b) ++
  eb_cost_assumptions_hash b ++ ms_provenance_hash (eb_feature_before b) ++ ms_provenance_hash (eb_feature_after b) ++
  to_le_bytes 16 (Decimal.raw (eb_capacity b)) ++ to_le_bytes 8 (eb_half_life b) ++
  to_le_bytes 8 (len_u64 (eb_canonical_event_refs b)) ++ to_le_bytes 8 (len_u64 (eb_invalidation_rules b)) ++
  join_nul (as_bytes <$> eb_limitations b).

Definition bundle_compute_hash `{PlainBlake3} (b : EvidenceBundle) : Hash := blake3_hash (bundle_bytes b).

(** [EvidenceBundle::try_new] on a bundle without its hash. *)
Definition bundle_try_new `{PlainBlake3} (b : EvidenceBundle) : result SignalError EvidenceBundle :=
  if trims_to_empty (eb_code_commit b) then Err (SgEmptyIdentifier "code_commit") else
  if existsb trims_to_empty (eb_limitations b) then Err (SgEmptyIdentifier "limitations") else
  Ok (set_content_hash (bundle_compute_hash b) b).

Definition snapshot_lacks_observation (s : MarketFeatureSnapshot) (name : string) (kind : ObservationMintKind) : bool :=
  match admit_observation s name kind with Observed => false | AdMissing | AdMalformed _ _ => true end.
Definition inventory_admission (s : MarketFeatureSnapshot) : ObservationAdmission := admit_observation s "inventory" DecimalDepth.
Definition inventory_missing (s : MarketFeatureSnapshot) : bool :=
  match inventory_admission s with AdMissing => true | _ => false end.

Definition missing_for_admission (b : EvidenceBundle) : list string :=
  let note (missing : bool) (name : string) : list string := if missing then [name] else [] in
  let before := eb_feature_before b in
  let after := eb_feature_after b in
  note (is_empty (eb_canonical_event_refs b)) "canonical_event_refs" ++
  note (all_zero (eb_model_artifact_hash b)) "model_artifact_hash" ++
  note (all_zero (eb_cost_assumptions_hash b)) "cost_assumptions" ++
  note (is_empty (eb_invalidation_rules b)) "invalidation_rules" ++
  note (is_empty (eb_limitations b)) "limitations" ++
  note (eb_watermark b =? 0) "data_watermark" ++
  note (snapshot_lacks_observation before "book" DecimalDepth || snapshot_lacks_observation after "book" DecimalDepth) "book" ++
  note (snapshot_lacks_observation before "fills" BooleanPresence || snapshot_lacks_observation after "fills" BooleanPresence) "fills" ++
  note (inventory_missing before || inventory_missing after) "inventory".

Definition malformed_for_admission (b : EvidenceBundle) : option (string * string) :=
  match inventory_admission (eb_feature_before b) with
  | AdMalformed what reason => Some (what, reason)
  | _ => match inventory_admission (eb_feature_after b) with AdMalformed what reason => Some (what, reason) | _ => None end
  end.

(** ** The life cycle: [lifecycle.rs] *)

Record SignalLifecycleEvent := mkEvent {
  le_signal_id : string;
  le_previous : option SignalLifecycleState;
  le_next : SignalLifecycleState;
  le_effective_at : Z;
  le_known_at : Z;
  le_reason_code : string;
  le_evidence_bundle_hash : Hash;
  le_build_commit : string;
  le_actor : SignalActor;
}.

Definition event_try_new (id : string) (previous : option SignalLifecycleState) (next : SignalLifecycleState)
    (effective known : Z) (reason : string) (hash : Hash) (commit : string) (actor : SignalActor)
  : result SignalError SignalLifecycleEvent :=
  if trims_to_empty reason || trims_to_empty commit then Err (SgEmptyIdentifier "lifecycle_event") else
  if all_zero hash then Err (IncompleteEvidence ["lifecycle_evidence_hash"%string]) else
  if known <? effective then Err (ContractViolation "lifecycle known_at precedes effective_at") else
  Ok (mkEvent id previous next effective known reason hash commit actor).

Definition requires_evidence_admission (to : SignalLifecycleState) : bool :=
  match to with Validated | Live => true | _ => false end.

Definition admit_evidence (to : SignalLifecycleState) (evidence : EvidenceBundle) (health : HealthState) : result SignalError unit :=
  if requires_evidence_admission to then
    match missing_for_admission evidence with
    | (_ :: _) as missing => Err (IncompleteEvidence missing)
    | [] =>
        match malformed_for_admission evidence with
        | Some (what, reason) => Err (SgMalformed what reason)
        | None => if bool_decide (health = Red) then Err UnsupportedHealth else Ok tt
        end
    end
  else Ok tt.

Definition transition_allowed (from : option SignalLifecycleState) (to : SignalLifecycleState) (t : SignalType)
    (evidence : EvidenceBundle) (health : HealthState) (confirmation_live_ok : bool) : result SignalError unit :=
  _ ← admit_evidence to evidence health;
  _ ← match to with
      | Live =>
          if negb (type_can_enter_live t) then Err ResearchOnlyCannotGoLive else
          if negb confirmation_live_ok then Err (ContractViolation "confirmation class cannot enter live") else
          if negb (bool_decide (health = Green)) then Err UnsupportedHealth else Ok tt
      | _ => Ok tt
      end;
  match from, to with
  | None, Candidate
  | Some Candidate, Validated | Some Candidate, Invalidated | Some Candidate, Expired
  | Some Validated, Live | Some Validated, Invalidated | Some Validated, Expired
  | Some Live, Decaying | Some Live, Invalidated | Some Live, Expired
  | Some Decaying, Invalidated | Some Decaying, Expired | Some Decaying, Resolved
  | Some Invalidated, Resolved | Some Expired, Resolved => Ok tt
  | Some f, _ => Err (InvalidTransition f to)
  | None, _ => Err (InvalidTransition Candidate to)
  end.

Fixpoint fold_from (id : string) (current : option SignalLifecycleState) (events : list SignalLifecycleEvent)
  : result SignalError (option SignalLifecycleState) :=
  match events with
  | [] => Ok current
  | e :: events =>
      if negb (bool_decide (le_signal_id e = id)) then Err (ContractViolation "mixed signal ids") else
      if negb (bool_decide (le_previous e = current)) then Err (ContractViolation "lifecycle is not an append-only fold") else
      fold_from id (Some (le_next e)) events
  end.

Definition fold_lifecycle (events : list SignalLifecycleEvent) : result SignalError SignalLifecycleState :=
  match events with
  | [] => Err (ContractViolation "empty lifecycle")
  | e :: _ => s ← fold_from (le_signal_id e) None events; s ?? ContractViolation "empty fold"
  end.

Definition append_event (events : list SignalLifecycleEvent) (next : SignalLifecycleEvent) (t : SignalType)
    (evidence : EvidenceBundle) (health : HealthState) (confirmation_live_ok : bool)
  : result SignalError (list SignalLifecycleEvent) :=
  from ← (if is_empty events then Ok None else s ← fold_lifecycle events; Ok (Some s));
  _ ← transition_allowed from (le_next next) t evidence health confirmation_live_ok;
  if negb (bool_decide (le_previous next = from)) then Err (ContractViolation "event previous does not match fold") else
  if negb (bool_decide (le_evidence_bundle_hash next = eb_content_hash evidence))
  then Err (ContractViolation "lifecycle event hash mismatch") else
  Ok (events ++ [next]).

(** ** Alerts: [alert_policy.rs] *)

Inductive AlertDecision := Emit | CooldownSuppressed | BudgetExhausted | AlwaysEmitRisk.

Record AlertPolicy := mkAlertPolicy {
  cooldown_micros : Z;
  daily_budget : Z;
}.

Definition decide_alert (p : AlertPolicy) (next : SignalLifecycleState) (material : bool) (elapsed emitted_today : Z)
    (risk_escalation : bool) : AlertDecision :=
  if match next with Invalidated | Expired => true | _ => false end || risk_escalation then AlwaysEmitRisk else
  if negb material && (elapsed <? cooldown_micros p) then CooldownSuppressed else
  if (daily_budget p <=? emitted_today) && negb material then BudgetExhausted else Emit.

(** ** Deduplication: [dedup.rs] *)

Inductive IndependenceClass := Independent | FollowerSaturated.

Record DedupKey := mkDedup {
  dk_market_id : MarketId;
  dk_family : string;
  dk_originator_hash : Hash;
  dk_direction : Direction;
  dk_independence_class : IndependenceClass;
}.

Definition originator_bytes (ids : list string) : bytes := concat ((fun id => as_bytes id ++ [x00]) <$> dedup (sort ids)).
Definition originator_hash `{PlainBlake3} (ids : list string) : Hash := blake3_hash (originator_bytes ids).

Definition dedup_key `{PlainBlake3} (market : MarketId) (t : SignalType) (ids : list string) (d : Direction)
    (class : IndependenceClass) : DedupKey :=
  mkDedup market (type_wire_name t) (originator_hash ids) d class.

Record MaterialChange := mkChange {
  net_edge_delta_bps : Z;
  confidence_delta_ppm : Z;
  crowding_delta_ppm : Z;
}.

(** [i64] arithmetic that wraps: [abs] of the least value is itself. *)
Definition wrap (t : ity) (z : Z) : Z := (z - ity_min t) mod (ity_max t - ity_min t + 1) + ity_min t.

Definition is_material (c thresholds : MaterialChange) : bool :=
  (net_edge_delta_bps thresholds <=? wrap I64 (Z.abs (net_edge_delta_bps c))) ||
  (confidence_delta_ppm thresholds <=? wrap I64 (Z.abs (confidence_delta_ppm c))) ||
  (crowding_delta_ppm thresholds <=? wrap I64 (Z.abs (crowding_delta_ppm c))).

(** ** Utility: [utility.rs] *)

Definition freshness_of (h : HealthState) : Z := match h with Green => 1000000 | Amber => 500000 | Red => 0 end.
Definition uncertainty_of (c : SignalConfirmationClass) : Z :=
  match c with CommittedPrimary => 0 | CommittedIndependent => 50000 | ProvisionalSource => 250000 | SyntheticUnqualified => 400000 end.

(** The tail penalty is the one product that is not checked. *)
Definition canonical_utility (s : Signal) : result SignalError Z :=
  let net := Decimal.raw (sg_net_edge_bps s) in
  let freshness := freshness_of (state (sg_data_health s)) in
  let capacity_fit := if Decimal.raw (sg_capacity s) <=? 0 then 0 else 1000000 in
  let tail_penalty := wrap I128 (wrap I128 (Z.abs (Decimal.raw (sg_tail_risk_bps s))) * 1000) in
  weighted ← (v ← int_mul I128 net (sg_confidence s);
              v ← int_mul I128 v capacity_fit;
              v ← int_div I128 v 1000000;
              v ← int_mul I128 v freshness;
              int_div I128 v 1000000) ?? SgOverflow;
  score ← (v ← int_sub I128 weighted (sg_crowding s);
           v ← int_sub I128 v tail_penalty;
           int_sub I128 v (uncertainty_of (sg_confirmation_class s))) ?? SgOverflow;
  int_try I64 score ?? SgOverflow.

(** ** The life cycle as a state machine *)

(** The moves of a signal's life cycle. *)
Inductive moves : option SignalLifecycleState -> SignalLifecycleState -> Prop :=
| mv_propose : moves None Candidate
| mv_validate : moves (Some Candidate) Validated
| mv_go_live : moves (Some Validated) Live
| mv_decay : moves (Some Live) Decaying
| mv_invalidate s : s ∈ [Candidate; Validated; Live; Decaying] -> moves (Some s) Invalidated
| mv_expire s : s ∈ [Candidate; Validated; Live; Decaying] -> moves (Some s) Expired
| mv_resolve s : s ∈ [Decaying; Invalidated; Expired] -> moves (Some s) Resolved.

Definition evidence_complete (b : EvidenceBundle) : Prop := missing_for_admission b = [] /\ malformed_for_admission b = None.

(** What a move asks of the signal, its evidence and the data. *)
Record move_ok (t : SignalType) (evidence : EvidenceBundle) (health : HealthState) (confirmed : bool)
    (from : option SignalLifecycleState) (to : SignalLifecycleState) : Prop := {
  mo_moves : moves from to;
  mo_evidence : to = Validated \/ to = Live -> evidence_complete evidence /\ health <> Red;
  mo_live : to = Live -> type_can_enter_live t = true /\ confirmed = true /\ health = Green;
}.

Lemma moves_iff from to :
  moves from to <->
  match from, to with
  | None, Candidate
  | Some Candidate, Validated | Some Candidate, Invalidated | Some Candidate, Expired
  | Some Validated, Live | Some Validated, Invalidated | Some Validated, Expired
  | Some Live, Decaying | Some Live, Invalidated | Some Live, Expired
  | Some Decaying, Invalidated | Some Decaying, Expired | Some Decaying, Resolved
  | Some Invalidated, Resolved | Some Expired, Resolved => True
  | _, _ => False
  end.
Proof.
  split.
  - intros []; try exact I; set_unfold; naive_solver.
  - destruct from as [[]|], to; intros M; (exfalso; exact M) || (constructor; set_solver).
Qed.

Lemma admit_evidence_Ok to evidence health :
  admit_evidence to evidence health = Ok tt <-> (to = Validated \/ to = Live -> evidence_complete evidence /\ health <> Red).
Proof.
  unfold admit_evidence, evidence_complete. assert (requires_evidence_admission to = true <-> to = Validated \/ to = Live) as R
    by (destruct to; cbn; naive_solver).
  destruct (requires_evidence_admission to); [|naive_solver]. assert (to = Validated \/ to = Live) as T by (by apply R). clear R.
  destruct (missing_for_admission evidence); [|naive_solver]. destruct (malformed_for_admission evidence) as [[what reason]|]; [naive_solver|].
  destruct (bool_decide_reflect (health = Red)); naive_solver.
Qed.

Lemma transition_allowed_iff from to t evidence health confirmed :
  transition_allowed from to t evidence health confirmed = Ok tt <-> move_ok t evidence health confirmed from to.
Proof.
  unfold transition_allowed. pose proof (admit_evidence_Ok to evidence health) as A.
  destruct (admit_evidence to evidence health) as [[]|e]; [|split; [done|]; intros [_ E _]; by apply A in E].
  rewrite bind_of_Ok. assert (to = Validated \/ to = Live -> evidence_complete evidence /\ health <> Red) as Ev by (by apply A).
  assert (match to with
      | Live =>
          if negb (type_can_enter_live t) then Err ResearchOnlyCannotGoLive else
          if negb confirmed then Err (ContractViolation "confirmation class cannot enter live") else
          if negb (bool_decide (health = Green)) then Err UnsupportedHealth else Ok tt
      | _ => Ok tt
      end = Ok tt <-> (to = Live -> type_can_enter_live t = true /\ confirmed = true /\ health = Green)) as L.
  { clear A Ev. destruct to; try by split. destruct (type_can_enter_live t), confirmed; cbn; try naive_solver.
    destruct (bool_decide_reflect (health = Green)); cbn; naive_solver. }
  destruct (match to with Live => _ | _ => Ok tt end) as [[]|e]; [|split; [done|]; intros [_ _ E]; by apply L in E].
  rewrite bind_of_Ok. split.
  - intros M. split; [|done|by apply L]. apply moves_iff. by destruct from as [[]|], to.
  - intros [M _ _]. apply moves_iff in M. by destruct from as [[]|], to.
Qed.

(** How far a state is along the life cycle. *)
Definition rank (s : SignalLifecycleState) : nat :=
  match s with Candidate => 0 | Validated => 1 | Live => 2 | Decaying => 3 | Invalidated | Expired => 4 | Resolved => 5 end.

Lemma moves_rank f t : moves (Some f) t -> (rank f < rank t)%nat.
Proof. intros M%moves_iff. destruct f, t; (exfalso; exact M) || (cbn; lia). Qed.

(** What is sent to a log: an event, its evidence and the circumstances. *)
Record proposal := mkProposal {
  pr_event : SignalLifecycleEvent;
  pr_evidence : EvidenceBundle;
  pr_health : HealthState;
  pr_confirmed : bool;
}.

(** A log after proposals that are accepted or refused in turn. *)
Fixpoint lifecycle_run (t : SignalType) (ps : list proposal) (log : list SignalLifecycleEvent) : list SignalLifecycleEvent :=
  match ps with
  | [] => log
  | p :: ps =>
      lifecycle_run t ps
        match append_event log (pr_event p) t (pr_evidence p) (pr_health p) (pr_confirmed p) with
        | Ok log => log
        | Err _ => log
        end
  end.

(** A log whose events follow the moves, each proposed with what it asks for. *)
Inductive legal_log (t : SignalType) (id : string) (ps : list proposal) : list SignalLifecycleEvent -> option SignalLifecycleState -> Prop :=
| legal_nil : legal_log t id ps [] None
| legal_snoc log s p :
    legal_log t id ps log s -> p ∈ ps -> le_signal_id (pr_event p) = id -> le_previous (pr_event p) = s ->
    le_evidence_bundle_hash (pr_event p) = eb_content_hash (pr_evidence p) ->
    move_ok t (pr_evidence p) (pr_health p) (pr_confirmed p) s (le_next (pr_event p)) ->
    legal_log t id ps (log ++ [pr_event p]) (Some (le_next (pr_event p))).

Section legal.
Context (t : SignalType) (id : string) (ps : list proposal).
Abbreviation legal := (legal_log t id ps).
Abbreviation states log := (le_next <$> (log : list SignalLifecycleEvent)).

Lemma fold_from_app i cur l1 l2 : fold_from i cur (l1 ++ l2) = (s ← fold_from i cur l1; fold_from i s l2).
Proof using Type.
  revert cur. induction l1 as [|e l1 IH]; intros cur; [done|]. cbn. case_match; [done|]. case_match; [done|]. apply IH.
Qed.

Lemma legal_fold log s : legal log s -> fold_from id None log = Ok s.
Proof using Type.
  induction 1 as [|log s p L IH I Ei Ep _ _]; [done|]. rewrite fold_from_app, IH, bind_of_Ok. cbn.
  by rewrite !bool_decide_true.
Qed.

Lemma legal_id log s e : legal log s -> e ∈ log -> le_signal_id e = id.
Proof using Type. induction 1 as [|log s p L IH I Ei _ _ _]; set_solver. Qed.

Lemma legal_lifecycle log s : legal log (Some s) -> fold_lifecycle log = Ok s.
Proof using Type.
  intros L. pose proof (legal_fold _ _ L) as F. pose proof (fun e => legal_id _ _ e L) as I.
  unfold fold_lifecycle. destruct log as [|e log]; [done|]. rewrite (I e) by set_solver. by rewrite F.
Qed.

Lemma legal_empty log s : legal log s -> is_empty log = match s with Some _ => false | None => true end.
Proof using Type. intros L. destruct L as [|log s p]; [done|]. by destruct log. Qed.

Lemma append_legal log s p log' : legal log s -> p ∈ ps -> le_signal_id (pr_event p) = id ->
  append_event log (pr_event p) t (pr_evidence p) (pr_health p) (pr_confirmed p) = Ok log' ->
  exists s', legal log' s'.
Proof using Type.
  intros L I Ei E. unfold append_event in E. rewrite (legal_empty _ _ L) in E.
  apply bind_Ok in E as (from & F & E). assert (from = s) as ->.
  { destruct s as [s|]; [|by injection F]. rewrite (legal_lifecycle _ _ L) in F. by injection F. }
  apply bind_Ok in E as ([] & T%transition_allowed_iff & E).
  destruct (bool_decide_reflect (le_previous (pr_event p) = s)) as [Ep|]; [|done].
  destruct (bool_decide_reflect (le_evidence_bundle_hash (pr_event p) = eb_content_hash (pr_evidence p))) as [Eh|]; [|done].
  injection E as <-. eexists. by eapply legal_snoc.
Qed.

Lemma run_legal qs log s : legal log s -> qs ⊆ ps -> Forall (fun p => le_signal_id (pr_event p) = id) qs ->
  exists s', legal (lifecycle_run t qs log) s'.
Proof using Type.
  intros L Sub F. revert log s L. induction F as [|p qs Ei F IH]; intros log s L; [by exists s|]. cbn.
  assert (p ∈ ps) as I by set_solver. destruct (append_event _ _ _ _ _ _) as [log'|e] eqn:A.
  - destruct (append_legal _ _ _ _ L I Ei A) as [s' L']. eapply IH; [set_solver|done].
  - eapply IH; [set_solver|done].
Qed.

(** Along a legal log the states only advance. *)
Lemma legal_advances log s : legal log s ->
  last (states log) = s /\ StronglySorted (fun a b => (rank a < rank b)%nat) (states log).
Proof using Type.
  induction 1 as [|log s p L [Ls Ss] I Ei Ep _ M]; [split; [done|constructor]|].
  rewrite fmap_app. cbn. split; [apply last_snoc|]. apply StronglySorted_app_2; [|done|by repeat constructor].
  intros a b Ia ->%list_elem_of_singleton. destruct M as [M _ _]. destruct s as [s|].
  - apply moves_rank in M. destruct (last_Some (states log) s) as [[l El] _]; [done|]. rewrite El in Ss, Ia.
    apply elem_of_app in Ia as [Ia| ->%list_elem_of_singleton]; [|done].
    pose proof (StronglySorted_app_1_elem_of _ _ _ a s Ss Ia ltac:(set_solver)) as R. cbn in R. lia.
  - apply last_None in Ls. rewrite Ls in Ia. by apply elem_of_nil in Ia.
Qed.
End legal.

Lemma advancing_length (l : list SignalLifecycleState) : StronglySorted (fun a b => (rank a < rank b)%nat) l -> (length l <= 6)%nat /\ NoDup l.
Proof.
  intros S. assert (forall n, Forall (fun a => (n <= rank a)%nat) l -> (n + length l <= 6)%nat \/ l = []) as B.
  { induction S as [|a l S IH F]; intros n G; [by right|]. left. apply Forall_cons in G as [Ga _].
    assert (rank a <= 5)%nat by (destruct a; cbn; lia). cbn [length]. destruct (IH (Datatypes.S (rank a)) F) as [L| ->]; [lia|cbn; lia]. }
  split; [destruct (B 0%nat) as [L| ->]; [apply Forall_forall; intros; lia|lia|cbn; lia]|].
  clear B. induction S as [|a l S IH F]; constructor; [|done]. intros I. rewrite Forall_forall in F. specialize (F a I). cbn in F. lia.
Qed.


(** ** Deduplication keys *)

Lemma dedup_sorted (l : list string) : sorted l -> sorted (dedup l) /\ NoDup (dedup l).
Proof.
  unfold sorted. induction 1 as [|a l S [IHs IHn] F]; [split; constructor|].
  destruct l as [|b l]; [split; repeat constructor; set_solver|]. cbn. cbn in IHs, IHn. case_bool_decide as E; [done|].
  split; constructor; try done.
  - apply Forall_forall. intros x I. rewrite Forall_forall in F. apply F. by apply (elem_of_dedup x (b :: l)).
  - intros I%(elem_of_dedup a (b :: l)). rewrite Forall_forall in F.
    assert (leb a b = true) as L1 by (apply F; set_solver). assert (leb b a = true) as L2.
    { apply StronglySorted_inv in S as [_ Fb]. rewrite Forall_forall in Fb. apply elem_of_cons in I as [->|I]; [|by apply Fb].
      unfold leb. by rewrite cmp_refl. }
    by apply E, leb_antisym.
Qed.

(** The parts of a sequence, each closed by a NUL, can be read back. *)
Lemma closed_parts_inj (l k : list bytes) : Forall (fun x => x00 ∉ x) l -> Forall (fun x => x00 ∉ x) k ->
  concat ((fun x => x ++ [x00]) <$> l) = concat ((fun x => x ++ [x00]) <$> k) -> l = k.
Proof.
  assert (forall (a b r s : bytes), x00 ∉ a -> x00 ∉ b -> (a ++ [x00]) ++ r = (b ++ [x00]) ++ s -> a = b /\ r = s) as H.
  { induction a as [|x a IH]; intros [|y b] r s Na Nb E; cbn in E; injection E.
    - by intros ->.
    - intros _ <-. set_solver.
    - intros _ ->. set_solver.
    - intros E' ->. destruct (IH b r s) as [-> ->]; [set_solver|set_solver|done|done]. }
  intros Fl. revert k. induction Fl as [|a l Na Fl IH]; intros k Fk E; destruct Fk as [|b k Nb Fk]; cbn in E; [done|..].
  - by destruct b.
  - by destruct a.
  - apply H in E as [-> E]; [|done|done]. by rewrite (IH k).
Qed.

(** A deduplication key depends on who the originators are and on nothing
    else: two lists of identifiers without NULs are hashed from the same bytes
    exactly when they name the same originators, in any order, with any
    repetition. *)
Theorem originators_identify (ids ids' : list string) :
  Forall (fun id => x00 ∉ as_bytes id) ids -> Forall (fun id => x00 ∉ as_bytes id) ids' ->
  originator_bytes ids = originator_bytes ids' <-> (forall x, x ∈ ids <-> x ∈ ids').
Proof.
  intros F F'. assert (forall (l : list string) x, x ∈ dedup (sort l) <-> x ∈ l) as El by (intros; by rewrite elem_of_dedup, elem_of_sort).
  destruct (dedup_sorted _ (sort_sorted ids)) as [S N]. destruct (dedup_sorted _ (sort_sorted ids')) as [S' N'].
  unfold originator_bytes. split.
  - intros E x. rewrite <- (El ids), <- (El ids'). assert (dedup (sort ids) = dedup (sort ids')) as ->; [|done].
    apply (inj (fmap as_bytes)).
    apply closed_parts_inj; [..|by rewrite <- !list_fmap_compose].
    + apply Forall_fmap, Forall_forall. intros y I. rewrite Forall_forall in F. by apply F, El.
    + apply Forall_fmap, Forall_forall. intros y I. rewrite Forall_forall in F'. by apply F', El.
  - intros E. do 2 f_equal. eapply (StronglySorted_unique_strong _ _ _); [|done|done|].
    + intros x y _ _. apply leb_antisym.
    + apply NoDup_Permutation; [done..|]. intros x. by rewrite !El.
Qed.

(** ** Where the code falls short *)

Definition example_market : MarketFeatureSnapshot :=
  mkMarketSnapshot "BTC" 60 "v1" 1 2 9
    [(mkKey "market" "book" 1, FvDecimal 5 0); (mkKey "market" "fills" 1, FvBoolean true);
     (mkKey "market" "inventory" 1, FvDecimal 7 0)]
    (mkAssessment "market" Green "ok") (replicate 32 x07).

Definition example_bundle (rules : list InvalidationRule) : EvidenceBundle :=
  mkBundle "s1" [mkEvidence CanonicalEvent "e1" (replicate 32 x01) 1 2] [] example_market example_market 9 900000
    (replicate 32 x02) "c0ffee" (replicate 32 x03) (mkAnalogues [] 0 InSupport 0 (replicate 32 x04)) rules
    (Decimal.mk 1000 0) 60 ["small sample"%string] (replicate 32 x05).

Definition example_event (id : string) (from : option SignalLifecycleState) (to : SignalLifecycleState) : SignalLifecycleEvent :=
  mkEvent id from to 1 2 "because" (replicate 32 x05) "c0ffee" System.

(** An event of another signal wedges the log for good: the append checks
    the previous state and the evidence but not whose event it is, so the log
    takes a foreign event, and from then on it neither folds nor takes any
    other event. *)
Theorem foreign_event_wedges_log :
  let evidence := example_bundle [CostAboveEdge] in
  exists log, append_event [example_event "s1" None Candidate] (example_event "s2" (Some Candidate) Validated)
                SmartCrowdDivergence evidence Green true = Ok log /\
    fold_lifecycle log = Err (ContractViolation "mixed signal ids") /\
    forall next t evidence health confirmed,
      append_event log next t evidence health confirmed = Err (ContractViolation "mixed signal ids").
Proof. eexists. split; [vm_compute; reflexivity|]. split; [reflexivity|]. reflexivity. Qed.

(** The hash of an evidence bundle does not bind its rules: it takes in how
    many invalidation rules there are and not which, so bundles that stop a
    signal on different grounds have the same content hash, whatever the hash
    function. *)
Theorem evidence_hash_ignores_rules `{PlainBlake3} :
  exists b b', bundle_try_new (example_bundle [CostAboveEdge]) = Ok b /\ bundle_try_new (example_bundle [DataHealthNotGreen]) = Ok b' /\
    eb_content_hash b = eb_content_hash b' /\ eb_invalidation_rules b <> eb_invalidation_rules b'.
Proof. do 2 eexists. split_and!; [reflexivity..|done]. Qed.

Definition example_signal (ret cost tail : BasisPoints) : result SignalError Signal :=
  signal_try_new "s1" SmartCrowdDivergence "BTC" Long 2 1 9 CommittedPrimary 60 ret cost 500000 (ret, ret)
    (Decimal.mk 1000 0) 60 0 tail (mkAssessment "market" Green "ok") "m1" "v1" (replicate 32 x01) (replicate 32 x02) Candidate.

(** The net edge ignores scales: it subtracts the raw cost from the raw
    return and keeps the scale of the return, so a cost of 5 bps written at
    scale 1 takes 50 from a return of 30 bps written at scale 0, and the same
    cost at scale 0 takes 5. *)
Theorem net_edge_ignores_scale :
  QArith_base.Qeq (dec_value (Decimal.mk 5 0)) (dec_value (Decimal.mk 50 1)) /\
  exists s s', example_signal (Decimal.mk 30 0) (Decimal.mk 5 0) (Decimal.mk 0 0) = Ok s /\
    example_signal (Decimal.mk 30 0) (Decimal.mk 50 1) (Decimal.mk 0 0) = Ok s' /\
    sg_net_edge_bps s = Decimal.mk 25 0 /\ sg_net_edge_bps s' = Decimal.mk (-20) 0.
Proof. split; [reflexivity|]. do 2 eexists. split_and!; reflexivity. Qed.

(** A worse tail can raise a signal's rank: every other product of the
    utility is checked, but the tail penalty wraps, so a signal with an
    enormous tail risk is ranked above the same signal with none. *)
Theorem tail_penalty_wraps :
  exists s s' u u', example_signal (Decimal.mk 30 0) (Decimal.mk 5 0) (Decimal.mk 0 0) = Ok s /\
    example_signal (Decimal.mk 30 0) (Decimal.mk 5 0) (Decimal.mk 340282366920938463463374607431768211 0) = Ok s' /\
    canonical_utility s = Ok u /\ canonical_utility s' = Ok u' /\ u < u'.
Proof. do 4 eexists. split_and!; [reflexivity..|]. vm_compute. reflexivity. Qed.

(** ** Witnesses *)

(** A signal is proposed, validated, refused while the data are amber, goes
    live, and a second validation is refused. *)
Definition example_proposals : list proposal :=
  let propose from to health := mkProposal (example_event "s1" from to) (example_bundle [CostAboveEdge]) health true in
  [propose None Candidate Green; propose (Some Candidate) Validated Amber; propose (Some Validated) Live Amber;
   propose (Some Validated) Live Green; propose (Some Candidate) Validated Green].


Lemma originators_identify_witness : originator_bytes ["b"; "a"; "b"]%string = originator_bytes ["a"; "b"]%string.
Proof.
  apply (originators_identify ["b"; "a"; "b"]%string ["a"; "b"]%string).
  - apply (bool_decide_unpack _). vm_compute. exact I.
  - apply (bool_decide_unpack _). vm_compute. exact I.
  - set_solver.
Defined.
