(* ===== verification/Payloads.v ===== *)
(** * Event payloads: the payload types of [canonical-events/src/lib.rs] and the
      enumerations of [domain-types/src/shared.rs] they carry

    The blocks and the ledger take the payload as a parameter; this file is
    the payload type of the program. Payloads that the program keeps as their
    encoded message hold bytes here. *)

From Stdlib Require Import Strings.Byte Strings.String.
From S2P Require Import Prelude Bytes FixedPoint Ids Blocks.

Definition AssetId := string.
Definition VaultId := string.
Definition DexId := string.
Definition TradeId := string.
Definition TwapId := Z.
Definition OutcomeId := string.
Definition LiquidationId := string.
Definition QuoteAmount := Decimal.t.
Definition Leverage := Decimal.t.
Definition FeeRate := Decimal.t.
Definition FundingRate := Decimal.t.
Definition PositionQuantity := Decimal.t.

(** ** Enumerations with a wire name *)

Inductive FeeTypeV1 := Maker | Taker | MakerRebate | ReferralDiscount | Protocol.
Inductive AccountAbstractionModeV1 := Standard | Unified | Portfolio | DexAbstraction.
Inductive MarginModeV1 := Cross | Isolated | StrictIsolated.
#[global] Instance FeeTypeV1_eq_dec : EqDecision FeeTypeV1.
Proof. solve_decision. Defined.
#[global] Instance AccountAbstractionModeV1_eq_dec : EqDecision AccountAbstractionModeV1.
Proof. solve_decision. Defined.
#[global] Instance MarginModeV1_eq_dec : EqDecision MarginModeV1.
Proof. solve_decision. Defined.

Definition account_mode_wire (m : AccountAbstractionModeV1) : string :=
  match m with
  | Standard => "standard" | Unified => "unified" | Portfolio => "portfolio" | DexAbstraction => "dex_abstraction"
  end.
Definition margin_mode_wire (m : MarginModeV1) : string :=
  match m with Cross => "cross" | Isolated => "isolated" | StrictIsolated => "strict_isolated" end.

(** [parse_wire] of [wire_enum!]: the first variant with this name. *)
Definition parse_wire {A} (name : A -> string) (variants : list A) (value : string) : result ValueError A :=
  match list_find (fun v => name v = value) variants with Some (_, v) => Ok v | None => Err Invalid end.
Definition parse_account_mode : string -> result ValueError AccountAbstractionModeV1 :=
  parse_wire account_mode_wire [Standard; Unified; Portfolio; DexAbstraction].
Definition parse_margin_mode : string -> result ValueError MarginModeV1 :=
  parse_wire margin_mode_wire [Cross; Isolated; StrictIsolated].

Lemma account_mode_roundtrip m : parse_account_mode (account_mode_wire m) = Ok m.
Proof. by destruct m. Qed.
Lemma margin_mode_roundtrip m : parse_margin_mode (margin_mode_wire m) = Ok m.
Proof. by destruct m. Qed.

(** ** Payloads *)

Inductive TradeParticipantRoleV1 := Buyer | Seller.
#[global] Instance TradeParticipantRoleV1_eq_dec : EqDecision TradeParticipantRoleV1.
Proof. solve_decision. Defined.

Record TradeParticipantV1 := mkParticipant {
  tp_role : TradeParticipantRoleV1;
  tp_account_id : Address;
  tp_start_position : PositionQuantity;
  tp_order_id : OrderId;
  tp_twap_id : option TwapId;
  tp_client_order_id : option ClientOrderId;
}.
#[global] Instance TradeParticipantV1_eq_dec : EqDecision TradeParticipantV1.
Proof. solve_decision. Defined.

Module Payload.
Inductive t :=
| NonUserOrderCancelled (encoded : bytes)
| InternalTransfer (encoded : bytes)
| AccountClassTransfer (encoded : bytes)
| VaultCreated (encoded : bytes)
| VaultDistribution (encoded : bytes)
| VaultLeaderCommissionPaid (encoded : bytes)
| RewardClaimed (encoded : bytes)
| SpotGenesisApplied (encoded : bytes)
| StakingDeposit (encoded : bytes)
| StakingDelegated (encoded : bytes)
| StakingUndelegated (encoded : bytes)
| StakingWithdrawalQueued (encoded : bytes)
| StakingWithdrawalCompleted (encoded : bytes)
| ValidatorRewardPaid (encoded : bytes)
| OrderAccepted (order_id : OrderId) (account_id : Address) (market_id : MarketId) (side : OrderSide)
    (limit_price : Price) (quantity : Quantity)
| OrderRested (order_id : OrderId) (market_id : MarketId) (remaining_quantity : Quantity) (limit_price : Price)
| OrderModified (order_id : OrderId) (previous_price new_price : Price) (previous_quantity new_quantity : Quantity)
| OrderPartiallyFilled (order_id : OrderId) (trade_id : TradeId) (fill_price : Price)
    (fill_quantity remaining_quantity : Quantity)
| OrderFilled (order_id : OrderId) (trade_id : TradeId) (fill_price : Price) (fill_quantity : Quantity)
| OrderCancelled (order_id : OrderId) (reason : string) (remaining_quantity : Quantity)
| OrderRejected (client_order_id : ClientOrderId) (account_id : Address) (reason_code reason : string)
| TriggerOrderActivated (order_id : OrderId) (trigger_price oracle_price : Price)
| TwapStarted (order_id : OrderId) (account_id : Address) (market_id : MarketId) (total_quantity : Quantity)
    (end_time : ProtocolTime)
| TwapSliceFilled (order_id : OrderId) (slice_index : Z) (fill_price : Price) (fill_quantity : Quantity)
| TwapCompleted (order_id : OrderId) (filled_quantity : Quantity) (average_price : Price)
| DepositCredited (account_id : Address) (asset_id : AssetId) (amount : Quantity) (deposit_reference : string)
| WithdrawalDebited (account_id : Address) (asset_id : AssetId) (amount : Quantity) (withdrawal_reference : string)
| SpotTransfer (from_account_id to_account_id : Address) (asset_id : AssetId) (amount : Quantity)
| PerpTransfer (from_account_id to_account_id : Address) (quote_amount : QuoteAmount)
| SubaccountTransfer (master_account_id from_account_id to_account_id : Address) (asset_id : AssetId) (amount : Quantity)
| VaultDeposit (vault_id : VaultId) (account_id : Address) (amount : QuoteAmount) (shares_issued : Quantity)
| VaultWithdrawal (vault_id : VaultId) (account_id : Address) (amount : QuoteAmount) (shares_redeemed : Quantity)
| FeeCharged (account_id : Address) (asset_id : AssetId) (amount : Quantity) (fee_rate : FeeRate) (fee_type : FeeTypeV1)
| BuilderFeeCharged (account_id builder_account_id : Address) (asset_id : AssetId) (amount : Quantity)
| FundingPaid (account_id : Address) (market_id : MarketId) (amount : QuoteAmount) (funding_rate : FundingRate)
| FundingReceived (account_id : Address) (market_id : MarketId) (amount : QuoteAmount) (funding_rate : FundingRate)
| ReferralReward (account_id referrer_account_id : Address) (asset_id : AssetId) (amount : Quantity)
| AccountModeChanged (account_id : Address) (previous_mode new_mode : AccountAbstractionModeV1)
| MarginModeChanged (account_id : Address) (market_id : MarketId) (previous_mode new_mode : MarginModeV1)
| LeverageChanged (account_id : Address) (market_id : MarketId) (previous_leverage new_leverage : Leverage)
| LiquidationStarted (account_id : Address) (liquidation_id : LiquidationId)
    (margin_value maintenance_requirement : UsdAmount)
| LiquidationFill (liquidation_id : LiquidationId) (account_id : Address) (market_id : MarketId) (price : Price)
    (quantity : Quantity)
| BackstopLiquidation (liquidation_id : LiquidationId) (account_id backstop_account_id : Address) (market_id : MarketId)
    (quantity : Quantity)
| PositionSettled (account_id : Address) (market_id : MarketId) (settlement_price : Price) (settled_quantity : Quantity)
    (realized_pnl : QuoteAmount)
| DexCreated (dex_id : DexId) (name : string) (operator_account_id : Address)
| AssetContextUpdated (asset_id : AssetId) (context_version : string) (context_hash : Hash)
| MarketCreated (market_id : MarketId) (dex_id : DexId) (base_asset_id quote_asset_id : AssetId) (tick_size : Price)
    (lot_size : Quantity)
| MarketMetadataChanged (market_id : MarketId) (metadata_version : string) (metadata_hash : Hash)
| MarketHalted (market_id : MarketId) (reason : string)
| MarketResumed (market_id : MarketId) (reason : string)
| OpenInterestCapChanged (market_id : MarketId) (previous_cap new_cap : QuoteAmount)
| MarginTableChanged (market_id : MarketId) (previous_table_hash new_table_hash : string)
| OracleUpdated (market_id : MarketId) (oracle_price : Price) (source : string) (effective_at : ProtocolTime)
| FundingRateUpdated (market_id : MarketId) (funding_rate : FundingRate) (effective_at : ProtocolTime)
| OutcomeCreated (market_id : MarketId) (outcome_id : OutcomeId) (description : string)
| OutcomeResolved (market_id : MarketId) (outcome_id : OutcomeId) (settlement_value : Price) (resolved_at : ProtocolTime)
| TradeMatched (trade_id : option TradeId) (market_id : option MarketId) (maker_order_id taker_order_id : option OrderId)
    (price : Price) (quantity : Quantity) (deterministic_seed : Z)
    (participants : option (TradeParticipantV1 * TradeParticipantV1)).
End Payload.

Definition kind (p : Payload.t) : EventKind :=
  match p with
  | Payload.NonUserOrderCancelled _ => NonUserOrderCancelled
  | Payload.InternalTransfer _ => InternalTransfer
  | Payload.AccountClassTransfer _ => AccountClassTransfer
  | Payload.VaultCreated _ => VaultCreated
  | Payload.VaultDistribution _ => VaultDistribution
  | Payload.VaultLeaderCommissionPaid _ => VaultLeaderCommissionPaid
  | Payload.RewardClaimed _ => RewardClaimed
  | Payload.SpotGenesisApplied _ => SpotGenesisApplied
  | Payload.StakingDeposit _ => StakingDeposit
  | Payload.StakingDelegated _ => StakingDelegated
  | Payload.StakingUndelegated _ => StakingUndelegated
  | Payload.StakingWithdrawalQueued _ => StakingWithdrawalQueued
  | Payload.StakingWithdrawalCompleted _ => StakingWithdrawalCompleted
  | Payload.ValidatorRewardPaid _ => ValidatorRewardPaid
  | Payload.OrderAccepted _ _ _ _ _ _ => OrderAccepted
  | Payload.OrderRested _ _ _ _ => OrderRested
  | Payload.OrderModified _ _ _ _ _ => OrderModified
  | Payload.OrderPartiallyFilled _ _ _ _ _ => OrderPartiallyFilled
  | Payload.OrderFilled _ _ _ _ => OrderFilled
  | Payload.OrderCancelled _ _ _ => OrderCancelled
  | Payload.OrderRejected _ _ _ _ => OrderRejected
  | Payload.TriggerOrderActivated _ _ _ => TriggerOrderActivated
  | Payload.TwapStarted _ _ _ _ _ => TwapStarted
  | Payload.TwapSliceFilled _ _ _ _ => TwapSliceFilled
  | Payload.TwapCompleted _ _ _ => TwapCompleted
  | Payload.DepositCredited _ _ _ _ => DepositCredited
  | Payload.WithdrawalDebited _ _ _ _ => WithdrawalDebited
  | Payload.SpotTransfer _ _ _ _ => SpotTransfer
  | Payload.PerpTransfer _ _ _ => PerpTransfer
  | Payload.SubaccountTransfer _ _ _ _ _ => SubaccountTransfer
  | Payload.VaultDeposit _ _ _ _ => VaultDeposit
  | Payload.VaultWithdrawal _ _ _ _ => VaultWithdrawal
  | Payload.FeeCharged _ _ _ _ _ => FeeCharged
  | Payload.BuilderFeeCharged _ _ _ _ => BuilderFeeCharged
  | Payload.FundingPaid _ _ _ _ => FundingPaid
  | Payload.FundingReceived _ _ _ _ => FundingReceived
  | Payload.ReferralReward _ _ _ _ => ReferralReward
  | Payload.AccountModeChanged _ _ _ => AccountModeChanged
  | Payload.MarginModeChanged _ _ _ _ => MarginModeChanged
  | Payload.LeverageChanged _ _ _ _ => LeverageChanged
  | Payload.LiquidationStarted _ _ _ _ => LiquidationStarted
  | Payload.LiquidationFill _ _ _ _ _ => LiquidationFill
  | Payload.BackstopLiquidation _ _ _ _ _ => BackstopLiquidation
  | Payload.PositionSettled _ _ _ _ _ => PositionSettled
  | Payload.DexCreated _ _ _ => DexCreated
  | Payload.AssetContextUpdated _ _ _ => AssetContextUpdated
  | Payload.MarketCreated _ _ _ _ _ _ => MarketCreated
  | Payload.MarketMetadataChanged _ _ _ => MarketMetadataChanged
  | Payload.MarketHalted _ _ => MarketHalted
  | Payload.MarketResumed _ _ => MarketResumed
  | Payload.OpenInterestCapChanged _ _ _ => OpenInterestCapChanged
  | Payload.MarginTableChanged _ _ _ => MarginTableChanged
  | Payload.OracleUpdated _ _ _ _ => OracleUpdated
  | Payload.FundingRateUpdated _ _ _ => FundingRateUpdated
  | Payload.OutcomeCreated _ _ _ => OutcomeCreated
  | Payload.OutcomeResolved _ _ _ _ => OutcomeResolved
  | Payload.TradeMatched _ _ _ _ _ _ _ _ => TradeMatched
  end.

#[global] Instance Payload_eq_dec : EqDecision Payload.t.
Proof. solve_decision. Defined.
#[global] Instance canonical_payload : EventPayload Payload.t := {| payload_kind := kind |}.

Abbreviation Envelope := (CanonicalEventEnvelope Payload.t).
