(* ===== verification/Records.v ===== *)
(** * Records in the state: the codec the reducers of [canonical-ledger/src] share

    Reducers keep their state as records under framed keys. A record is
    written as the JSON of its wire form; it is read by decoding the wire,
    parsing its fields, checking the record and comparing the bytes it would
    be written as. [account/codec.rs], [market.rs] and [position/codec.rs]
    repeat the functions of [record_codec.rs] with an error type of the same
    six cases, which is [RecordCodecError] here. *)

From Stdlib Require Import Strings.Byte Strings.String.
From stdpp Require Import sorting.
From S2P Require Import Prelude Ordering BTreeMap Bytes FixedPoint Ids Store StateImage.

(** A failed parse of a field makes the record invalid. *)
Definition field {A} (v : result ValueError A) : result RecordCodecError A := map_err (fun _ => InvalidRecord) v.
Definition check (b : bool) : result RecordCodecError unit := if b then Ok tt else Err InvalidRecord.

Definition record_hash `{Hex} (value : string) : result RecordCodecError Hash :=
  if negb (zlen (as_bytes value) =? 64) || existsb is_ascii_uppercase (as_bytes value) then Err InvalidRecord else
  hex_decode_to_slice 32 value ?? InvalidRecord.

(** [char::is_control] of a UTF-8 text: U+0000 to U+001F and U+007F to U+009F. *)
Fixpoint has_control (l : bytes) : bool :=
  match l with
  | [] => false
  | b :: rest =>
      (Z_of_byte b <? 32) || (Z_of_byte b =? 127) ||
      match rest with c :: _ => (Z_of_byte b =? 194) && (128 <=? Z_of_byte c) && (Z_of_byte c <=? 159) | [] => false end ||
      has_control rest
  end.

Definition valid_text (value : string) (max_bytes : Z) : bool :=
  negb (bool_decide (value = EmptyString)) && negb (trim_changes value) && (zlen (as_bytes value) <=? max_bytes) &&
  negb (has_control (as_bytes value)).

(** A fallible loop that pushes one value per element. *)
Fixpoint collect {E A B} (f : A -> result E B) (l : list A) : result E (list B) :=
  match l with
  | [] => Ok []
  | a :: l => b ← f a; bs ← collect f l; Ok (b :: bs)
  end.
Lemma collect_Ok {E A B} (f : A -> result E B) l bs : collect f l = Ok bs -> Forall2 (fun a b => f a = Ok b) l bs.
Proof.
  revert bs. induction l as [|a l IH]; intros bs C; cbn [collect] in C; inv_ok; constructor; [done|by apply IH].
Qed.

(** A record type [R] with its wire type [W]. *)
Class StateRecord (R W : Type) := {
  to_wire : R -> W;
  from_wire : W -> result RecordCodecError R;
  rec_validate : R -> bool;
  rec_key : R -> result RecordCodecError StateKey;
}.

Section records.
Context {R W : Type} `{StateRecord R W} `{Json W}.

(** [try_new] of a checked record. *)
Definition try_record (r : R) : result RecordCodecError R :=
  _ ← check (rec_validate r);
  Ok r.

Definition record_encode (r : R) : result RecordCodecError bytes :=
  _ ← check (rec_validate r);
  encode_json (to_wire r).

Definition record_decode (l : bytes) : result RecordCodecError R :=
  wire ← decode_json l;
  r ← from_wire wire;
  _ ← check (rec_validate r);
  again ← record_encode r;
  if bool_decide (again = l) then Ok r else Err NonCanonical.

Definition record_decode_at (key : StateKey) (l : bytes) : result RecordCodecError R :=
  r ← record_decode l;
  k ← rec_key r;
  if bool_decide (k = key) then Ok r else Err KeyMismatch.

(** Some records report bytes they would not be written as as an invalid record. *)
Definition strict_decode (l : bytes) : result RecordCodecError R :=
  wire ← decode_json l;
  r ← from_wire wire;
  _ ← check (rec_validate r);
  again ← record_encode r;
  if bool_decide (again = l) then Ok r else Err InvalidRecord.

Definition strict_decode_at (key : StateKey) (l : bytes) : result RecordCodecError R :=
  r ← strict_decode l;
  k ← rec_key r;
  if bool_decide (k = key) then Ok r else Err KeyMismatch.

(** The records of [market.rs], [order.rs], [trigger.rs] and [twap.rs] are not
    written back when they are read. *)
Definition plain_decode (l : bytes) : result RecordCodecError R :=
  wire ← decode_json l;
  r ← from_wire wire;
  _ ← check (rec_validate r);
  Ok r.

Definition plain_decode_at (key : StateKey) (l : bytes) : result RecordCodecError R :=
  r ← plain_decode l;
  k ← rec_key r;
  if bool_decide (k = key) then Ok r else Err KeyMismatch.
End records.

(** ** Theory *)

Lemma json_record_roundtrip {T} `{JsonLaws T} (v : T) l : encode_json v = Ok l -> decode_json l = Ok v.
Proof.
  intros E. pose proof E as E'. unfold encode_json in E'. inv_ok. unfold decode_json.
  match goal with H : to_vec v = Some _ |- _ => pose proof H as Hv end.
  destruct l as [|b l]; [by apply json_nonempty in Hv|]. cbn [is_empty orb].
  rewrite Hb, (json_roundtrip _ _ Hv). cbn [ok_or]. rewrite bind_of_Ok, E, bind_of_Ok.
  by rewrite bool_decide_eq_true_2.
Qed.

(** Keys determine the namespace and the identities they were built from. *)
Lemma framed_len_bound total ids n : 0 <= total -> framed_len total ids = Ok n ->
  total <= n /\ Forall (fun i => zlen i <= n) ids.
Proof.
  revert total. induction ids as [|i ids IH]; intros total P E; cbn in E; [injection E as <-; split; [lia|constructor]|].
  destruct (is_empty i); [done|]. apply bind_Ok in E as (t & T & E). unfold ok_or in T.
  destruct (_ ≫= _) as [t'|] eqn:B; [|done]. injection T as <-. apply bind_Some in B as (u & U & B).
  apply int_try_Some in U as [-> _], B as [-> _]. pose proof (zlen_nonneg i). unfold KEY_FRAME_BYTES in *.
  apply IH in E as [L F]; [|lia]. split; [lia|]. constructor; [lia|done].
Qed.

Lemma frames_inj (l k : list bytes) :
  Forall (fun i => zlen i < 256 ^ 8) l -> Forall (fun i => zlen i < 256 ^ 8) k ->
  concat (frame 8 <$> l) = concat (frame 8 <$> k) -> l = k.
Proof.
  assert (forall x (y : bytes), [] = frame 8 x ++ y -> False) as N.
  { intros x y E. apply (f_equal length) in E. rewrite length_app in E. unfold frame in E.
    rewrite length_app, to_be_bytes_length in E. cbn in E. lia. }
  intros Fl. revert k. induction Fl as [|a l Na Fl IH]; intros k Fk E; destruct Fk as [|b k Nb Fk]; [done|..];
    rewrite ?fmap_cons in E; cbn [concat fmap list_fmap] in E.
  - by apply N in E.
  - symmetry in E. by apply N in E.
  - apply frame_inj in E as [-> E]; [|done..]. by rewrite (IH k).
Qed.

Lemma framed_key_Ok ns ids k : framed_key ns ids = Ok k ->
  key_wf k /\ namespace k = ns /\ key_bytes k = concat (frame 8 <$> ids) /\ Forall (fun i => zlen i < 256 ^ 8) ids.
Proof.
  unfold framed_key. intros (n & L & E)%bind_Ok. destruct (Z.ltb_spec MAX_STATE_KEY_BYTES n); [done|].
  apply framed_len_bound in L as [_ F]; [|done]. destruct (key_try_new _ _) as [k'|] eqn:K; [|done]. injection E as <-.
  pose proof K as K'. unfold key_try_new in K'. destruct (negb _); [done|]. destruct (_ || _); [done|]. injection K' as <-.
  split_and!; [done..|]. eapply Forall_impl; [done|]. cbn. intros i Li. unfold MAX_STATE_KEY_BYTES in *. lia.
Qed.

Lemma framed_key_inj ns ids ns' ids' k : framed_key ns ids = Ok k -> framed_key ns' ids' = Ok k -> ns = ns' /\ ids = ids'.
Proof.
  intros (_ & N & B & F)%framed_key_Ok (_ & N' & B' & F')%framed_key_Ok. split; [congruence|].
  apply frames_inj; [done..|congruence].
Qed.

Section theory.
Context {R W : Type} `{StateRecord R W} `{Json W}.
Implicit Types (r : R) (l : bytes).

Lemma record_decode_inv l r : record_decode l = Ok r -> record_encode r = Ok l.
Proof.
  unfold record_decode. intros (w & _ & (r' & _ & (u & _ & (again & A & E)%bind_Ok)%bind_Ok)%bind_Ok)%bind_Ok.
  case_bool_decide; [|done]. injection E as <-. congruence.
Qed.

Lemma record_decode_at_inv key l r : record_decode_at key l = Ok r -> record_decode l = Ok r /\ rec_key r = Ok key.
Proof.
  unfold record_decode_at. intros (r' & D & (k & K & E)%bind_Ok)%bind_Ok. case_bool_decide; [|done]. injection E as <-.
  by subst.
Qed.

Lemma strict_decode_Ok l r : strict_decode l = Ok r <-> record_decode l = Ok r.
Proof.
  unfold strict_decode, record_decode. destruct (decode_json l) as [w|]; [|done]. cbn. destruct (from_wire w) as [r'|]; [|done]. cbn.
  destruct (check _); [|done]. cbn. destruct (record_encode r') as [again|]; [|done]. cbn. by case_bool_decide.
Qed.
Lemma strict_decode_at_Ok key l r : strict_decode_at key l = Ok r <-> record_decode_at key l = Ok r.
Proof.
  unfold strict_decode_at, record_decode_at.
  destruct (strict_decode l) as [r'|] eqn:E; [apply strict_decode_Ok in E; by rewrite E|].
  destruct (record_decode l) as [r'|] eqn:E'; [apply strict_decode_Ok in E'; congruence|]. split; discriminate.
Qed.

Lemma record_encode_valid r l : record_encode r = Ok l -> rec_validate r = true.
Proof. unfold record_encode, check. by destruct (rec_validate r). Qed.

(** A record whose fields parse back is read as it was written. *)
Lemma record_roundtrip `{!JsonLaws W} r l :
  from_wire (to_wire r) = Ok r -> record_encode r = Ok l -> record_decode l = Ok r.
Proof.
  intros P E. pose proof (record_encode_valid _ _ E) as V. pose proof E as E'. unfold record_encode in E'.
  apply bind_Ok in E' as (u & _ & J). unfold record_decode. rewrite (json_record_roundtrip _ _ J), bind_of_Ok, P, bind_of_Ok.
  unfold check. rewrite V, bind_of_Ok, E, bind_of_Ok. by rewrite bool_decide_eq_true_2.
Qed.

Lemma record_roundtrip_at `{!JsonLaws W} r l key :
  from_wire (to_wire r) = Ok r -> record_encode r = Ok l -> rec_key r = Ok key -> record_decode_at key l = Ok r.
Proof.
  intros P E K. unfold record_decode_at. rewrite (record_roundtrip _ _ P E), bind_of_Ok, K, bind_of_Ok.
  by rewrite bool_decide_eq_true_2.
Qed.
End theory.

(** ** Fields that parse back *)

Lemma record_hash_roundtrip `{HexLaws} h : length h = 32%nat -> record_hash (hex_encode h) = Ok h.
Proof.
  intros L. unfold record_hash. rewrite hex_encode_length, hex_encode_lower. unfold zlen. rewrite L.
  change (negb (2 * Z.of_nat 32 =? 64) || false) with false. cbv iota. by rewrite <- L, hex_roundtrip.
Qed.

(** ** A concrete JSON: a table of values *)

Definition table_json {T} `{EqDecision T} (vs : list T) : Json T := {|
  to_vec v := (fun p => replicate (S p.1) x2e) <$> list_find (fun w => w = v) vs;
  from_slice l := match l with [] => None | _ :: l => vs !! length l end;
|}.

Lemma table_json_laws {T} `{EqDecision T} (vs : list T) : @JsonLaws T (table_json vs).
Proof.
  split; cbn.
  - intros v l E. apply fmap_Some in E as ([i w] & F & ->). apply list_find_Some in F as (L & <- & _). cbn.
    by rewrite length_replicate.
  - intros v E. apply fmap_Some in E as (p & _ & E). done.
Qed.
