(* ===== verification/Opaque.v ===== *)
(** * Payloads kept encoded: [canonical-ledger/src/opaque.rs]

    Payloads added in version 1.1 stay encoded in the event; reducers decode
    them when they apply the event. The message decoders are generated code of
    [api-contracts] and are parameters; what this file models is the checking
    of the decoded fields. *)

From Stdlib Require Import Strings.Byte Strings.String.
From S2P Require Import Prelude Bytes FixedPoint Ids Ledger Payloads Records.

Record WireInternalTransfer := mkWireInternal {
  wi_from_account_id : string;
  wi_to_account_id : string;
  wi_amount : string;
  wi_fee : string;
}.
Record WireAccountClassTransfer := mkWireClass { wc_account_id : string; wc_amount : string; wc_to_perp : bool }.
Record WireNonUserCancel := mkWireCancel { wn_order_id : string; wn_remaining_quantity : string; wn_reason : string }.
Record WireVaultCreated := mkWireVault { wv_vault_id : string; wv_amount : string; wv_fee : string }.
Record WireStakingDelegation := mkWireDelegation { ws_account_id : string; ws_validator : string; ws_amount : string }.

(** The messages of [api-contracts], whose decoders are generated. *)
Class PayloadWire := {
  decode_non_user_order_cancelled : bytes -> option WireNonUserCancel;
  decode_internal_transfer : bytes -> option WireInternalTransfer;
  decode_account_class_transfer : bytes -> option WireAccountClassTransfer;
  decode_vault_created : bytes -> option WireVaultCreated;
  decode_vault_distribution : bytes -> option (string * string);
  decode_reward_claimed : bytes -> option (string * string);
  decode_spot_genesis_applied : bytes -> option (string * string);
  decode_staking_deposit : bytes -> option (string * string);
  decode_staking_withdrawal_queued : bytes -> option (string * string);
  decode_staking_withdrawal_completed : bytes -> option (string * string);
  decode_staking_delegated : bytes -> option WireStakingDelegation;
  decode_staking_undelegated : bytes -> option WireStakingDelegation;
  decode_validator_reward_paid : bytes -> option (string * string);
}.

(** Messages nobody sends: every decoder refuses. *)
Definition no_payloads : PayloadWire := {|
  decode_non_user_order_cancelled _ := None; decode_internal_transfer _ := None; decode_account_class_transfer _ := None;
  decode_vault_created _ := None; decode_vault_distribution _ := None; decode_reward_claimed _ := None;
  decode_spot_genesis_applied _ := None; decode_staking_deposit _ := None; decode_staking_withdrawal_queued _ := None;
  decode_staking_withdrawal_completed _ := None; decode_staking_delegated _ := None; decode_staking_undelegated _ := None;
  decode_validator_reward_paid _ := None |}.

Definition payload_error : ReducerError :=
  mkReducerError "canonical_state.invalid_payload" "v1.1 payload fields are missing, empty, or not canonical".
Definition empty_amount : ReducerError :=
  mkReducerError "canonical_state.empty_amount" "v1.1 amount fields must be nonempty canonical decimals".

Definition require_identity (value : string) : result ReducerError string :=
  if bool_decide (value = EmptyString) || trim_changes value || has_control (as_bytes value) then Err payload_error else Ok value.

Section opaque.
Context `{Hex} `{PayloadWire}.

Definition parse_account (value : string) : result ReducerError Address := map_err (fun _ => payload_error) (parse_api value).
Definition parse_identifier (value : string) : result ReducerError string :=
  map_err (fun _ => payload_error) (string_id_new value).
Definition parse_amount (value : string) : result ReducerError Decimal.t :=
  map_err (fun _ => empty_amount) (Decimal.from_str value).
Definition parse_positive (value : string) : result ReducerError Decimal.t :=
  amount ← parse_amount value;
  if Decimal.raw amount <=? 0 then Err empty_amount else Ok amount.
Definition parse_nonnegative (value : string) : result ReducerError Decimal.t :=
  amount ← parse_amount value;
  if Decimal.raw amount <? 0 then Err empty_amount else Ok amount.

Definition decode_non_user_cancel (encoded : bytes) : result ReducerError (OrderId * Quantity) :=
  wire ← decode_non_user_order_cancelled encoded ?? payload_error;
  remaining ← parse_amount (wn_remaining_quantity wire);
  if Decimal.raw remaining <? 0
  then Err (mkReducerError "order_state.invalid_quantity" "order quantity must be nonnegative") else
  if negb (valid_text (wn_reason wire) 1024)
  then Err (mkReducerError "order_state.invalid_cancellation" "system cancellation reason contract is invalid") else
  id ← parse_identifier (wn_order_id wire);
  Ok (id, remaining).

Definition decode_internal (encoded : bytes) : result ReducerError (Address * Address * QuoteAmount * QuoteAmount) :=
  wire ← decode_internal_transfer encoded ?? payload_error;
  from ← parse_account (wi_from_account_id wire);
  to ← parse_account (wi_to_account_id wire);
  amount ← parse_positive (wi_amount wire);
  fee ← parse_nonnegative (wi_fee wire);
  Ok (from, to, amount, fee).
Definition decode_class_transfer (encoded : bytes) : result ReducerError (Address * QuoteAmount * bool) :=
  wire ← decode_account_class_transfer encoded ?? payload_error;
  account ← parse_account (wc_account_id wire);
  amount ← parse_positive (wc_amount wire);
  Ok (account, amount, wc_to_perp wire).

Definition decode_vault_create (encoded : bytes) : result ReducerError (VaultId * QuoteAmount * QuoteAmount) :=
  wire ← decode_vault_created encoded ?? payload_error;
  vault ← parse_identifier (wv_vault_id wire);
  amount ← parse_positive (wv_amount wire);
  fee ← parse_nonnegative (wv_fee wire);
  Ok (vault, amount, fee).
Definition decode_vault_dist (encoded : bytes) : result ReducerError (VaultId * QuoteAmount) :=
  '(vault, amount) ← decode_vault_distribution encoded ?? payload_error;
  vault ← parse_identifier vault;
  amount ← parse_positive amount;
  Ok (vault, amount).

Definition decode_reward (encoded : bytes) : result ReducerError (Address * QuoteAmount) :=
  '(account, amount) ← decode_reward_claimed encoded ?? payload_error;
  account ← parse_account account;
  amount ← parse_positive amount;
  Ok (account, amount).
Definition decode_spot_genesis (encoded : bytes) : result ReducerError (AssetId * Quantity) :=
  '(token, amount) ← decode_spot_genesis_applied encoded ?? payload_error;
  token ← parse_identifier token;
  amount ← parse_positive amount;
  Ok (token, amount).

(** [staking_amount] and [staking_delegation] *)
Definition staking_amount (fields : option (string * string)) : result ReducerError (Address * Quantity) :=
  '(account, amount) ← fields ?? payload_error;
  account ← parse_account account;
  amount ← parse_positive amount;
  Ok (account, amount).
Definition staking_delegation (wire : option WireStakingDelegation) : result ReducerError (Address * string * Quantity) :=
  wire ← wire ?? payload_error;
  account ← parse_account (ws_account_id wire);
  validator ← require_identity (ws_validator wire);
  amount ← parse_positive (ws_amount wire);
  Ok (account, validator, amount).

Definition decode_staking_deposit_amount (encoded : bytes) := staking_amount (decode_staking_deposit encoded).
Definition decode_staking_withdraw_queued (encoded : bytes) := staking_amount (decode_staking_withdrawal_queued encoded).
Definition decode_staking_withdraw_completed (encoded : bytes) := staking_amount (decode_staking_withdrawal_completed encoded).
Definition decode_staking_delegate (encoded : bytes) := staking_delegation (decode_staking_delegated encoded).
Definition decode_staking_undelegate (encoded : bytes) := staking_delegation (decode_staking_undelegated encoded).

Definition decode_validator_reward (encoded : bytes) : result ReducerError (string * Quantity) :=
  '(validator, amount) ← decode_validator_reward_paid encoded ?? payload_error;
  validator ← require_identity validator;
  amount ← parse_positive amount;
  Ok (validator, amount).
End opaque.

(** ** What a decoded payload guarantees *)

Section decoded.
Context `{Hex} `{PayloadWire}.

Lemma parse_positive_Ok v d : parse_positive v = Ok d -> Decimal.wf d /\ 0 < Decimal.raw d.
Proof using Type.
  unfold parse_positive, parse_amount. intros (d' & E & P)%bind_Ok. destruct (Decimal.from_str v) eqn:F; [|done]. injection E as ->.
  destruct (Z.leb_spec (Decimal.raw d') 0); [done|]. injection P as <-. split; [by eapply from_str_wf|done].
Qed.
Lemma parse_nonnegative_Ok v d : parse_nonnegative v = Ok d -> Decimal.wf d /\ 0 <= Decimal.raw d.
Proof using Type.
  unfold parse_nonnegative, parse_amount. intros (d' & E & P)%bind_Ok. destruct (Decimal.from_str v) eqn:F; [|done]. injection E as ->.
  destruct (Z.ltb_spec (Decimal.raw d') 0); [done|]. injection P as <-. split; [by eapply from_str_wf|done].
Qed.

Lemma decode_internal_Ok encoded from to amount fee : decode_internal encoded = Ok (from, to, amount, fee) ->
  Decimal.wf amount /\ 0 < Decimal.raw amount /\ Decimal.wf fee /\ 0 <= Decimal.raw fee.
Proof using Type.
  intros (w & _ & (a & _ & (b & _ & (x & P & (y & N & [= <- <- <- <-])%bind_Ok)%bind_Ok)%bind_Ok)%bind_Ok)%bind_Ok.
  apply parse_positive_Ok in P as [? ?]. apply parse_nonnegative_Ok in N as [? ?]. done.
Qed.
Lemma decode_class_Ok encoded a amount to_perp : decode_class_transfer encoded = Ok (a, amount, to_perp) -> Decimal.wf amount.
Proof using Type. intros (w & _ & (x & _ & (y & [W _]%parse_positive_Ok & [= <- <- <-])%bind_Ok)%bind_Ok)%bind_Ok. done. Qed.
Lemma decode_reward_Ok encoded a amount : decode_reward encoded = Ok (a, amount) -> Decimal.wf amount.
Proof using Type. intros ([? ?] & _ & (x & _ & (y & [W _]%parse_positive_Ok & [= <- <-])%bind_Ok)%bind_Ok)%bind_Ok. done. Qed.
Lemma parse_identifier_Ok v i : parse_identifier v = Ok i -> id_wf i.
Proof using Type.
  unfold parse_identifier. destruct (string_id_new v) eqn:E; [|done]. intros [= <-]. by eapply string_id_new_inv.
Qed.
Lemma decode_genesis_Ok encoded token amount : decode_spot_genesis encoded = Ok (token, amount) -> id_wf token /\ Decimal.wf amount.
Proof using Type.
  intros ([v ?] & _ & (x & I & (y & [W _]%parse_positive_Ok & [= <- <-])%bind_Ok)%bind_Ok)%bind_Ok. split; [|done].
  unfold parse_identifier in I. destruct (string_id_new v) eqn:Ev; [|done]. injection I as ->. by eapply string_id_new_inv.
Qed.
Lemma decode_vault_create_Ok encoded v amount fee : decode_vault_create encoded = Ok (v, amount, fee) ->
  id_wf v /\ Decimal.wf amount /\ 0 < Decimal.raw amount /\ Decimal.wf fee /\ 0 <= Decimal.raw fee.
Proof using Type.
  intros (w & _ & (x & I & (y & [W P]%parse_positive_Ok & (z & [W' P']%parse_nonnegative_Ok & [= <- <- <-])%bind_Ok)%bind_Ok)%bind_Ok)%bind_Ok.
  split; [by eapply parse_identifier_Ok|done].
Qed.
Lemma decode_vault_dist_Ok encoded v amount : decode_vault_dist encoded = Ok (v, amount) -> id_wf v /\ Decimal.wf amount.
Proof using Type.
  intros ([? ?] & _ & (x & I & (y & [W _]%parse_positive_Ok & [= <- <-])%bind_Ok)%bind_Ok)%bind_Ok.
  split; [by eapply parse_identifier_Ok|done].
Qed.
Lemma staking_amount_Ok fields a amount : staking_amount fields = Ok (a, amount) -> Decimal.wf amount /\ 0 < Decimal.raw amount.
Proof using Type. intros ([? ?] & _ & (x & _ & (y & W%parse_positive_Ok & [= <- <-])%bind_Ok)%bind_Ok)%bind_Ok. done. Qed.
Lemma require_identity_Ok v w : require_identity v = Ok w -> w <> EmptyString.
Proof using Type.
  unfold require_identity. destruct (bool_decide_reflect (v = EmptyString)); [done|]. cbn. destruct (_ || _); [done|].
  by intros [= <-].
Qed.
Lemma staking_delegation_Ok wire a v amount : staking_delegation wire = Ok (a, v, amount) ->
  v <> EmptyString /\ Decimal.wf amount /\ 0 < Decimal.raw amount.
Proof using Type.
  intros (w & _ & (x & _ & (y & I & (z & W%parse_positive_Ok & [= <- <- <-])%bind_Ok)%bind_Ok)%bind_Ok)%bind_Ok.
  split; [by eapply require_identity_Ok|done].
Qed.
Lemma decode_validator_reward_Ok encoded v amount : decode_validator_reward encoded = Ok (v, amount) ->
  v <> EmptyString /\ Decimal.wf amount /\ 0 < Decimal.raw amount.
Proof using Type.
  intros ([? ?] & _ & (x & I & (y & W%parse_positive_Ok & [= <- <-])%bind_Ok)%bind_Ok)%bind_Ok.
  split; [by eapply require_identity_Ok|done].
Qed.
End decoded.
