(* ===== verification/Markets.v ===== *)
(** * Market records: the records of [canonical-ledger/src/market.rs]

    The registry of exchanges, assets, markets, versions of market metadata
    and outcomes. Other reducers look up assets and markets before they accept
    an event. *)

From Stdlib Require Import Strings.Byte Strings.String.
From stdpp Require Import sorting.
From S2P Require Import Prelude Ordering BTreeMap Bytes FixedPoint Ids Store StateImage Blocks Payloads Records.

Definition ASSET_NAMESPACE : string := "asset-context-current.v1".
Definition MARKET_NAMESPACE : string := "market-current.v1".
Definition ASSET_SCHEMA : string := "hyperliquid-alpha-desk/asset-context-current/v1".
Definition MARKET_SCHEMA : string := "hyperliquid-alpha-desk/market-current/v1".

(** ** Assets *)

Record AssetContextCurrentRecordV1 := mkAsset {
  as_asset_id : AssetId;
  as_context_version : string;
  as_context_hash : Hash;
  as_updated_at_block : BlockHeight;
}.

Record AssetWire := mkAssetWire {
  aw_schema : string;
  aw_asset_id : string;
  aw_context_version : string;
  aw_context_blake3 : string;
  aw_updated_at_block : Z;
}.
#[global] Instance AssetWire_eq_dec : EqDecision AssetWire.
Proof. solve_decision. Defined.

Definition asset_key (id : AssetId) : result RecordCodecError StateKey := framed_key ASSET_NAMESPACE [as_bytes id].

(** Only reading checks the version. *)
#[global] Instance asset_record `{Hex} : StateRecord AssetContextCurrentRecordV1 AssetWire := {
  to_wire r := mkAssetWire ASSET_SCHEMA (as_asset_id r) (as_context_version r) (hex_encode (as_context_hash r))
                 (as_updated_at_block r);
  from_wire w :=
    if negb (bool_decide (aw_schema w = ASSET_SCHEMA)) then Err InvalidRecord else
    id ← field (string_id_new (aw_asset_id w));
    hash ← record_hash (aw_context_blake3 w);
    if negb (valid_text (aw_context_version w) 128) then Err InvalidRecord else
    Ok (mkAsset id (aw_context_version w) hash (aw_updated_at_block w));
  rec_validate _ := true;
  rec_key r := asset_key (as_asset_id r);
}.

(** ** Markets *)

Inductive MarketStatusV1 := Active | Halted.
#[global] Instance MarketStatusV1_eq_dec : EqDecision MarketStatusV1.
Proof. solve_decision. Defined.
Definition status_wire (s : MarketStatusV1) : string := match s with Active => "active" | Halted => "halted" end.
Definition status_parse (value : string) : result RecordCodecError MarketStatusV1 :=
  if bool_decide (value = "active"%string) then Ok Active else
  if bool_decide (value = "halted"%string) then Ok Halted else Err InvalidRecord.

Inductive MarketMetadataResolutionV1 := Exact | Unresolved.
#[global] Instance MarketMetadataResolutionV1_eq_dec : EqDecision MarketMetadataResolutionV1.
Proof. solve_decision. Defined.
Definition resolution_wire (r : MarketMetadataResolutionV1) : string :=
  match r with Exact => "exact" | Unresolved => "unresolved" end.
Definition resolution_parse (value : string) : result RecordCodecError MarketMetadataResolutionV1 :=
  if bool_decide (value = "exact"%string) then Ok Exact else
  if bool_decide (value = "unresolved"%string) then Ok Unresolved else Err InvalidRecord.

Record MarketCurrentRecordV1 := mkMarket {
  mk_market_id : MarketId;
  mk_dex_id : DexId;
  mk_base_asset_id : AssetId;
  mk_quote_asset_id : AssetId;
  mk_status : MarketStatusV1;
  mk_metadata_resolution : MarketMetadataResolutionV1;
  mk_metadata_version : string;
  mk_metadata_hash : Hash;
  mk_tick_size : option Price;
  mk_lot_size : option Quantity;
  mk_price_scale : option Z;
  mk_quantity_scale : option Z;
  mk_open_interest_cap : option QuoteAmount;
  mk_margin_table_hash : option string;
  mk_oracle_price : option Price;
  mk_oracle_source : option string;
  mk_oracle_effective_at : option ProtocolTime;
  mk_funding_rate : option FundingRate;
  mk_funding_effective_at : option ProtocolTime;
  mk_created_at_block : BlockHeight;
  mk_updated_at_block : BlockHeight;
}.

Record MarketWire := mkMarketWire {
  mw_schema : string;
  mw_market_id : string;
  mw_dex_id : string;
  mw_base_asset_id : string;
  mw_quote_asset_id : string;
  mw_status : string;
  mw_metadata_resolution : string;
  mw_metadata_version : string;
  mw_metadata_blake3 : string;
  mw_tick_size : option string;
  mw_lot_size : option string;
  mw_price_scale : option Z;
  mw_quantity_scale : option Z;
  mw_open_interest_cap : option string;
  mw_margin_table_hash : option string;
  mw_oracle_price : option string;
  mw_oracle_source : option string;
  mw_oracle_effective_at_micros : option Z;
  mw_funding_rate : option string;
  mw_funding_effective_at_micros : option Z;
  mw_created_at_block : Z;
  mw_updated_at_block : Z;
}.
#[global] Instance MarketWire_eq_dec : EqDecision MarketWire.
Proof. solve_decision. Defined.

Definition market_key (id : MarketId) : result RecordCodecError StateKey := framed_key MARKET_NAMESPACE [as_bytes id].

(** [Option::transpose] after a parse that may fail. *)
Definition parse_optional {A B} (parse : A -> result ValueError B) (v : option A) : result RecordCodecError (option B) :=
  match v with None => Ok None | Some a => b ← field (parse a); Ok (Some b) end.

Definition time_from_unix_micros (value : Z) : result ValueError ProtocolTime :=
  if value <? 0 then Err OutOfRange else Ok value.

Definition market_from_wire `{Hex} (w : MarketWire) : result RecordCodecError MarketCurrentRecordV1 :=
  if negb (bool_decide (mw_schema w = MARKET_SCHEMA)) then Err InvalidRecord else
  id ← field (string_id_new (mw_market_id w));
  dex ← field (string_id_new (mw_dex_id w));
  base ← field (string_id_new (mw_base_asset_id w));
  quote ← field (string_id_new (mw_quote_asset_id w));
  status ← status_parse (mw_status w);
  resolution ← resolution_parse (mw_metadata_resolution w);
  hash ← record_hash (mw_metadata_blake3 w);
  tick ← parse_optional Decimal.from_str (mw_tick_size w);
  lot ← parse_optional Decimal.from_str (mw_lot_size w);
  cap ← parse_optional Decimal.from_str (mw_open_interest_cap w);
  oracle ← parse_optional Decimal.from_str (mw_oracle_price w);
  oracle_at ← parse_optional time_from_unix_micros (mw_oracle_effective_at_micros w);
  funding ← parse_optional Decimal.from_str (mw_funding_rate w);
  funding_at ← parse_optional time_from_unix_micros (mw_funding_effective_at_micros w);
  Ok (mkMarket id dex base quote status resolution (mw_metadata_version w) hash tick lot (mw_price_scale w)
        (mw_quantity_scale w) cap (mw_margin_table_hash w) oracle (mw_oracle_source w) oracle_at funding funding_at
        (mw_created_at_block w) (mw_updated_at_block w)).

Definition is_set {A} (o : option A) : bool := match o with Some _ => true | None => false end.
Definition is_set_and {A} (f : A -> bool) (o : option A) : bool := match o with Some a => f a | None => false end.

(** What exact and unresolved metadata have to say about tick and lot. *)
Definition valid_resolution (resolution : MarketMetadataResolutionV1) (tick lot : option Decimal.t) (price_scale quantity_scale : option Z)
  : bool :=
  match resolution with
  | Exact =>
      match tick, lot, price_scale, quantity_scale with
      | Some tick, Some lot, Some price_scale, Some quantity_scale =>
          negb ((Decimal.raw tick <=? 0) || (Decimal.raw lot <=? 0) || negb (Decimal.scale tick =? price_scale) ||
                negb (Decimal.scale lot =? quantity_scale))
      | _, _, _, _ => false
      end
  | Unresolved => negb (is_set tick || is_set lot || is_set price_scale || is_set quantity_scale)
  end.

Definition market_validate (r : MarketCurrentRecordV1) : bool :=
  let bad :=
    bool_decide (mk_base_asset_id r = mk_quote_asset_id r) || (mk_updated_at_block r <? mk_created_at_block r) ||
    negb (valid_text (mk_metadata_version r) 128) || is_set_and (fun v => Decimal.raw v <? 0) (mk_open_interest_cap r) ||
    is_set_and (fun v => negb (valid_text v 256)) (mk_margin_table_hash r) ||
    is_set_and (fun v => negb (valid_text v 256)) (mk_oracle_source r) in
  let oracle := [is_set (mk_oracle_price r); is_set (mk_oracle_source r); is_set (mk_oracle_effective_at r)] in
  let torn :=
    existsb id oracle && negb (forallb id oracle) || is_set_and (fun v => Decimal.raw v <=? 0) (mk_oracle_price r) ||
    negb (Bool.eqb (is_set (mk_funding_rate r)) (is_set (mk_funding_effective_at r))) in
  if bad then false else
  if torn then false else
  valid_resolution (mk_metadata_resolution r) (mk_tick_size r) (mk_lot_size r) (mk_price_scale r) (mk_quantity_scale r).

Definition market_to_wire `{Hex} (r : MarketCurrentRecordV1) : MarketWire :=
  mkMarketWire MARKET_SCHEMA (mk_market_id r) (mk_dex_id r) (mk_base_asset_id r) (mk_quote_asset_id r)
    (status_wire (mk_status r)) (resolution_wire (mk_metadata_resolution r)) (mk_metadata_version r)
    (hex_encode (mk_metadata_hash r)) (Decimal.to_string <$> mk_tick_size r) (Decimal.to_string <$> mk_lot_size r)
    (mk_price_scale r) (mk_quantity_scale r) (Decimal.to_string <$> mk_open_interest_cap r) (mk_margin_table_hash r)
    (Decimal.to_string <$> mk_oracle_price r) (mk_oracle_source r) (mk_oracle_effective_at r)
    (Decimal.to_string <$> mk_funding_rate r) (mk_funding_effective_at r) (mk_created_at_block r) (mk_updated_at_block r).

#[global] Instance market_record `{Hex} : StateRecord MarketCurrentRecordV1 MarketWire := {
  to_wire := market_to_wire;
  from_wire := market_from_wire;
  rec_validate := market_validate;
  rec_key r := market_key (mk_market_id r);
}.

(** ** Exchanges *)

Definition DEX_NAMESPACE : string := "dex-current.v1".
Definition DEX_SCHEMA : string := "hyperliquid-alpha-desk/dex-current/v1".
Record DexCurrentRecordV1 := mkDex {
  dx_dex_id : DexId;
  dx_name : string;
  dx_operator_account_id : Address;
  dx_created_at_block : BlockHeight;
}.
Record DexWire := mkDexWire {
  dxw_schema : string;
  dxw_dex_id : string;
  dxw_name : string;
  dxw_operator_account_id : string;
  dxw_created_at_block : Z;
}.
#[global] Instance DexWire_eq_dec : EqDecision DexWire.
Proof. solve_decision. Defined.

Definition dex_key (id : DexId) : result RecordCodecError StateKey := framed_key DEX_NAMESPACE [as_bytes id].
(** Only reading checks the name. *)
#[global] Instance dex_record `{Hex} : StateRecord DexCurrentRecordV1 DexWire := {
  to_wire r := mkDexWire DEX_SCHEMA (dx_dex_id r) (dx_name r) (to_api_string (dx_operator_account_id r)) (dx_created_at_block r);
  from_wire w :=
    if negb (bool_decide (dxw_schema w = DEX_SCHEMA)) then Err InvalidRecord else
    id ← field (string_id_new (dxw_dex_id w));
    operator ← field (parse_api (dxw_operator_account_id w));
    if negb (valid_text (dxw_name w) 256) then Err InvalidRecord else
    Ok (mkDex id (dxw_name w) operator (dxw_created_at_block w));
  rec_validate _ := true;
  rec_key r := dex_key (dx_dex_id r);
}.

(** ** Versions of metadata *)

Definition METADATA_NAMESPACE : string := "market-metadata-version.v1".
Definition METADATA_SCHEMA : string := "hyperliquid-alpha-desk/market-metadata-version/v1".
Record MarketMetadataVersionRecordV1 := mkMetadata {
  mv_market_id : MarketId;
  mv_metadata_version : string;
  mv_metadata_hash : Hash;
  mv_effective_from_block : BlockHeight;
  mv_effective_until_block : option BlockHeight;
  mv_resolution : MarketMetadataResolutionV1;
  mv_tick_size : option Price;
  mv_lot_size : option Quantity;
  mv_price_scale : option Z;
  mv_quantity_scale : option Z;
}.
Record MetadataWire := mkMetadataWire {
  mvw_schema : string;
  mvw_market_id : string;
  mvw_metadata_version : string;
  mvw_metadata_blake3 : string;
  mvw_effective_from_block : Z;
  mvw_effective_until_block : option Z;
  mvw_resolution : string;
  mvw_tick_size : option string;
  mvw_lot_size : option string;
  mvw_price_scale : option Z;
  mvw_quantity_scale : option Z;
}.
#[global] Instance MetadataWire_eq_dec : EqDecision MetadataWire.
Proof. solve_decision. Defined.

Definition metadata_validate (r : MarketMetadataVersionRecordV1) : bool :=
  if negb (valid_text (mv_metadata_version r) 128) || is_set_and (fun u => u <? mv_effective_from_block r) (mv_effective_until_block r)
  then false else
  valid_resolution (mv_resolution r) (mv_tick_size r) (mv_lot_size r) (mv_price_scale r) (mv_quantity_scale r).

Definition metadata_key (id : MarketId) (version : string) : result RecordCodecError StateKey :=
  framed_key METADATA_NAMESPACE [as_bytes id; as_bytes version].
#[global] Instance metadata_record `{Hex} : StateRecord MarketMetadataVersionRecordV1 MetadataWire := {
  to_wire r := mkMetadataWire METADATA_SCHEMA (mv_market_id r) (mv_metadata_version r) (hex_encode (mv_metadata_hash r))
                 (mv_effective_from_block r) (mv_effective_until_block r) (resolution_wire (mv_resolution r))
                 (Decimal.to_string <$> mv_tick_size r) (Decimal.to_string <$> mv_lot_size r) (mv_price_scale r)
                 (mv_quantity_scale r);
  from_wire w :=
    if negb (bool_decide (mvw_schema w = METADATA_SCHEMA)) then Err InvalidRecord else
    id ← field (string_id_new (mvw_market_id w));
    hash ← record_hash (mvw_metadata_blake3 w);
    resolution ← resolution_parse (mvw_resolution w);
    tick ← parse_optional Decimal.from_str (mvw_tick_size w);
    lot ← parse_optional Decimal.from_str (mvw_lot_size w);
    Ok (mkMetadata id (mvw_metadata_version w) hash (mvw_effective_from_block w) (mvw_effective_until_block w) resolution tick lot
          (mvw_price_scale w) (mvw_quantity_scale w));
  rec_validate := metadata_validate;
  rec_key r := metadata_key (mv_market_id r) (mv_metadata_version r);
}.

(** ** Outcomes *)

Definition OUTCOME_NAMESPACE : string := "market-outcome-current.v1".
Definition OUTCOME_SCHEMA : string := "hyperliquid-alpha-desk/market-outcome-current/v1".
Record OutcomeCurrentRecordV1 := mkOutcome {
  ou_market_id : MarketId;
  ou_outcome_id : OutcomeId;
  ou_description : string;
  ou_settlement_value : option Price;
  ou_resolved_at : option ProtocolTime;
  ou_created_at_block : BlockHeight;
  ou_updated_at_block : BlockHeight;
}.
Record OutcomeWire := mkOutcomeWire {
  ouw_schema : string;
  ouw_market_id : string;
  ouw_outcome_id : string;
  ouw_description : string;
  ouw_settlement_value : option string;
  ouw_resolved_at_micros : option Z;
  ouw_created_at_block : Z;
  ouw_updated_at_block : Z;
}.
#[global] Instance OutcomeWire_eq_dec : EqDecision OutcomeWire.
Proof. solve_decision. Defined.

Definition outcome_validate (r : OutcomeCurrentRecordV1) : bool :=
  negb (negb (valid_text (ou_description r) 2048) || negb (Bool.eqb (is_set (ou_settlement_value r)) (is_set (ou_resolved_at r))) ||
        is_set_and (fun v => Decimal.raw v <? 0) (ou_settlement_value r) || (ou_updated_at_block r <? ou_created_at_block r)).
Definition outcome_key (id : MarketId) (outcome : OutcomeId) : result RecordCodecError StateKey :=
  framed_key OUTCOME_NAMESPACE [as_bytes id; as_bytes outcome].
#[global] Instance outcome_record `{Hex} : StateRecord OutcomeCurrentRecordV1 OutcomeWire := {
  to_wire r := mkOutcomeWire OUTCOME_SCHEMA (ou_market_id r) (ou_outcome_id r) (ou_description r)
                 (Decimal.to_string <$> ou_settlement_value r) (ou_resolved_at r) (ou_created_at_block r) (ou_updated_at_block r);
  from_wire w :=
    if negb (bool_decide (ouw_schema w = OUTCOME_SCHEMA)) then Err InvalidRecord else
    id ← field (string_id_new (ouw_market_id w));
    outcome ← field (string_id_new (ouw_outcome_id w));
    value ← parse_optional Decimal.from_str (ouw_settlement_value w);
    resolved ← parse_optional time_from_unix_micros (ouw_resolved_at_micros w);
    Ok (mkOutcome id outcome (ouw_description w) value resolved (ouw_created_at_block w) (ouw_updated_at_block w));
  rec_validate := outcome_validate;
  rec_key r := outcome_key (ou_market_id r) (ou_outcome_id r);
}.

(** ** Facts *)

Definition MARKET_VERSION : string := "hyperliquid-alpha-desk-canonical-market@1.0.0".
Definition MARKET_FACT_NAMESPACE : string := "market-fact.v1".
Definition MARKET_FACT_SCHEMA : string := "hyperliquid-alpha-desk/market-fact/v1".
Record MarketFactRecordV1 := mkMarketFact {
  mf_event_id : EventId;
  mf_event_kind : EventKind;
  mf_market_id : option MarketId;
  mf_dex_id : option DexId;
  mf_asset_id : option AssetId;
  mf_outcome_id : option OutcomeId;
  mf_block_height : BlockHeight;
  mf_payload_hash : Hash;
  mf_rule_version : string;
}.
Record MarketFactWire := mkMarketFactWire {
  mfw_schema : string;
  mfw_event_id : string;
  mfw_event_kind : string;
  mfw_market_id : option string;
  mfw_dex_id : option string;
  mfw_asset_id : option string;
  mfw_outcome_id : option string;
  mfw_block_height : Z;
  mfw_payload_blake3 : string;
  mfw_rule_version : string;
}.
#[global] Instance MarketFactWire_eq_dec : EqDecision MarketFactWire.
Proof. solve_decision. Defined.

Definition market_fact_validate (r : MarketFactRecordV1) : bool :=
  if negb (bool_decide (mf_rule_version r = MARKET_VERSION)) then false else
  let market := is_set (mf_market_id r) in
  let dex := is_set (mf_dex_id r) in
  let asset := is_set (mf_asset_id r) in
  let outcome := is_set (mf_outcome_id r) in
  match mf_event_kind r with
  | DexCreated => negb market && dex && negb asset && negb outcome
  | AssetContextUpdated => negb market && negb dex && asset && negb outcome
  | MarketCreated => market && dex && negb asset && negb outcome
  | MarketMetadataChanged | MarketHalted | MarketResumed | OpenInterestCapChanged | MarginTableChanged | OracleUpdated
  | FundingRateUpdated => market && negb dex && negb asset && negb outcome
  | OutcomeCreated | OutcomeResolved => market && negb dex && negb asset && outcome
  | _ => false
  end.
Definition market_fact_key (id : EventId) : result RecordCodecError StateKey := framed_key MARKET_FACT_NAMESPACE [as_bytes id].
#[global] Instance market_fact_record `{Hex} : StateRecord MarketFactRecordV1 MarketFactWire := {
  to_wire r := mkMarketFactWire MARKET_FACT_SCHEMA (mf_event_id r) (as_wire_name (mf_event_kind r)) (mf_market_id r) (mf_dex_id r)
                 (mf_asset_id r) (mf_outcome_id r) (mf_block_height r) (hex_encode (mf_payload_hash r)) (mf_rule_version r);
  from_wire w :=
    if negb (bool_decide (mfw_schema w = MARKET_FACT_SCHEMA)) || negb (bool_decide (mfw_rule_version w = MARKET_VERSION))
    then Err InvalidRecord else
    event ← field (string_id_new (mfw_event_id w));
    k ← kind_try_from (mfw_event_kind w) ?? InvalidRecord;
    market ← parse_optional string_id_new (mfw_market_id w);
    dex ← parse_optional string_id_new (mfw_dex_id w);
    asset ← parse_optional string_id_new (mfw_asset_id w);
    outcome ← parse_optional string_id_new (mfw_outcome_id w);
    hash ← record_hash (mfw_payload_blake3 w);
    Ok (mkMarketFact event k market dex asset outcome (mfw_block_height w) hash (mfw_rule_version w));
  rec_validate := market_fact_validate;
  rec_key r := market_fact_key (mf_event_id r);
}.

(** The JSON of the registry. *)
Class MarketJson := {
  json_market_fact :: Json MarketFactWire;
  json_dex :: Json DexWire;
  json_asset :: Json AssetWire;
  json_market :: Json MarketWire;
  json_metadata :: Json MetadataWire;
  json_outcome :: Json OutcomeWire;
}.
