(* ===== verification/MarketRegistry.v ===== *)
(** * The market reducer: [CanonicalMarketReducerV1] of [market.rs]

    Exchanges, assets and markets are created once; a market is halted and
    resumed, and its open interest cap, margin table, oracle price and funding
    rate move while its metadata is exact. A change of metadata closes the
    interval of the previous version and opens an unresolved one. Outcomes are
    resolved once. *)

From Stdlib Require Import Strings.Byte Strings.String.
From stdpp Require Import sorting.
From S2P Require Import Prelude Ordering BTreeMap Bytes FixedPoint Ids Store StateImage Blocks Ledger Payloads Records Markets.

Definition market_codec_error (e : RecordCodecError) : ReducerError :=
  match e with
  | InvalidRecordKey => mkReducerError "market_state.codec_invalid_key" "market state key encoding failed"
  | RecordLimitExceeded => mkReducerError "market_state.codec_limit_exceeded" "market state record exceeds its deterministic bound"
  | Codec | NonCanonical | InvalidRecord | KeyMismatch => mkReducerError "market_state.codec_failed" "market state record encoding failed"
  end.
Definition market_error (code message : string) : ReducerError := mkReducerError code message.
Definition invalid_status_transition : ReducerError :=
  market_error "market_state.invalid_status_transition" "market status transition is not allowed".
Definition invalid_fixed_point (message : string) : ReducerError := market_error "market_state.invalid_fixed_point" message.
Definition market_invalid_event : ReducerError := market_error "market_state.invalid_event" "market reducer received a non-market payload".
Definition non_monotonic_metadata (message : string) : ReducerError := market_error "market_state.non_monotonic_metadata" message.

Definition CREATION_METADATA_VERSION : string := "creation@1.0.0".

Definition market_supports (e : Envelope) : bool :=
  bool_decide (schema_version e = "1.0.0"%string) &&
  match event_kind e with
  | DexCreated | AssetContextUpdated | MarketCreated | MarketMetadataChanged | MarketHalted | MarketResumed
  | OpenInterestCapChanged | MarginTableChanged | OracleUpdated | FundingRateUpdated | OutcomeCreated | OutcomeResolved => true
  | _ => false
  end.

(** ** Guards *)

Definition require_no_markets (e : Envelope) : result ReducerError unit :=
  if is_empty (market_ids e) then Ok tt
  else Err (market_error "market_state.invalid_market_identity" "event must not carry envelope markets").
Definition require_market (e : Envelope) (m : MarketId) : result ReducerError unit :=
  if bool_decide (market_ids e = [m]) then Ok tt
  else Err (market_error "market_state.invalid_market_identity" "payload and envelope market must match exactly").
Definition require_accounts (e : Envelope) (expected : list Address) : result ReducerError unit :=
  if bool_decide (account_ids e = expected) then Ok tt
  else Err (market_error "market_state.invalid_account_identity" "payload and envelope accounts must match exactly").
Definition require_record (st : StateView) (key : StateKey) (error : ReducerError) : result ReducerError unit :=
  if bt_contains key st then Ok tt else Err error.
Definition require_absent (st : StateView) (key : StateKey) (error : ReducerError) : result ReducerError unit :=
  if bt_contains key st then Err error else Ok tt.
Definition require_exact_metadata (m : MarketCurrentRecordV1) : result ReducerError unit :=
  match mk_metadata_resolution m with
  | Unresolved => Err (market_error "market_state.metadata_unresolved" "market metadata values are unresolved")
  | Exact => Ok tt
  end.
Definition same_fixed (x y : QuoteAmount) : bool := (Decimal.raw x =? Decimal.raw y) && (Decimal.scale x =? Decimal.scale y).

(** [MarketFactRecordV1::from_event] *)
Definition market_fact_from_event (e : Envelope) : result ReducerError MarketFactRecordV1 :=
  '(market, dex, asset, outcome) ← match payload e with
    | Payload.DexCreated dex _ _ => Ok (None, Some dex, None, None)
    | Payload.AssetContextUpdated asset _ _ => Ok (None, None, Some asset, None)
    | Payload.MarketCreated m dex _ _ _ _ => Ok (Some m, Some dex, None, None)
    | Payload.MarketMetadataChanged m _ _ | Payload.MarketHalted m _ | Payload.MarketResumed m _
    | Payload.OpenInterestCapChanged m _ _ | Payload.MarginTableChanged m _ _ | Payload.OracleUpdated m _ _ _
    | Payload.FundingRateUpdated m _ _ => Ok (Some m, None, None, None)
    | Payload.OutcomeCreated m outcome _ | Payload.OutcomeResolved m outcome _ _ => Ok (Some m, None, None, Some outcome)
    | _ => Err market_invalid_event
    end;
  Ok (mkMarketFact (event_id e) (event_kind e) market dex asset outcome (ev_block_height e) (payload_hash e) MARKET_VERSION).

(** The current record of a market with one part of it changed. *)
Definition with_status (m : MarketCurrentRecordV1) (s : MarketStatusV1) (h : BlockHeight) : MarketCurrentRecordV1 :=
  mkMarket (mk_market_id m) (mk_dex_id m) (mk_base_asset_id m) (mk_quote_asset_id m) s (mk_metadata_resolution m)
    (mk_metadata_version m) (mk_metadata_hash m) (mk_tick_size m) (mk_lot_size m) (mk_price_scale m) (mk_quantity_scale m)
    (mk_open_interest_cap m) (mk_margin_table_hash m) (mk_oracle_price m) (mk_oracle_source m) (mk_oracle_effective_at m)
    (mk_funding_rate m) (mk_funding_effective_at m) (mk_created_at_block m) h.
Definition with_values (m : MarketCurrentRecordV1) (cap : option QuoteAmount) (table : option string) (oracle : option Price)
    (source : option string) (oracle_at : option ProtocolTime) (funding : option FundingRate) (funding_at : option ProtocolTime)
    (h : BlockHeight) : MarketCurrentRecordV1 :=
  mkMarket (mk_market_id m) (mk_dex_id m) (mk_base_asset_id m) (mk_quote_asset_id m) (mk_status m) (mk_metadata_resolution m)
    (mk_metadata_version m) (mk_metadata_hash m) (mk_tick_size m) (mk_lot_size m) (mk_price_scale m) (mk_quantity_scale m)
    cap table oracle source oracle_at funding funding_at (mk_created_at_block m) h.
(** Unresolved metadata of another version: every value that depended on the old one is gone. *)
Definition with_unresolved (m : MarketCurrentRecordV1) (version : string) (hash : Hash) (h : BlockHeight) : MarketCurrentRecordV1 :=
  mkMarket (mk_market_id m) (mk_dex_id m) (mk_base_asset_id m) (mk_quote_asset_id m) (mk_status m) Unresolved version hash
    None None None None None None None None None None None (mk_created_at_block m) h.

Section reducer.
Context `{Hex} `{MarketJson}.

Definition market_put {R W} `{StateRecord R W} `{Json W} (key : StateKey) (r : R) : result ReducerError StateMutation :=
  l ← map_err market_codec_error (record_encode r);
  Ok (Put key l).

Definition load_market (st : StateView) (key : StateKey) : result ReducerError MarketCurrentRecordV1 :=
  l ← bt_get key st ?? market_error "market_state.missing_market" "market prerequisite is missing";
  map_err market_codec_error (plain_decode_at key l).
Definition load_metadata (st : StateView) (key : StateKey) : result ReducerError MarketMetadataVersionRecordV1 :=
  l ← bt_get key st ?? market_error "market_state.missing_metadata" "market metadata prerequisite is missing";
  map_err market_codec_error (plain_decode_at key l).
Definition load_outcome (st : StateView) (key : StateKey) : result ReducerError OutcomeCurrentRecordV1 :=
  l ← bt_get key st ?? market_error "market_state.missing_outcome" "outcome prerequisite is missing";
  map_err market_codec_error (plain_decode_at key l).

(** ** Operations *)

Definition create_dex (st : StateView) (e : Envelope) (dex : DexId) (name : string) (operator : Address)
  : result ReducerError (list StateMutation) :=
  _ ← require_no_markets e;
  _ ← require_accounts e [operator];
  key ← map_err market_codec_error (dex_key dex);
  _ ← require_absent st key (market_error "market_state.dex_identity_collision" "DEX identity is already present");
  put ← market_put key (mkDex dex name operator (ev_block_height e));
  Ok [put].

Definition create_asset (st : StateView) (e : Envelope) (asset : AssetId) (version : string) (hash : Hash)
  : result ReducerError (list StateMutation) :=
  _ ← require_no_markets e;
  _ ← require_accounts e [];
  key ← map_err market_codec_error (asset_key asset);
  _ ← require_absent st key (market_error "market_state.asset_identity_collision" "asset identity is already present");
  put ← market_put key (mkAsset asset version hash (ev_block_height e));
  Ok [put].

Definition create_market (st : StateView) (e : Envelope) (m : MarketId) (dex : DexId) (base quote : AssetId) (tick : Price)
    (lot : Quantity) : result ReducerError (list StateMutation) :=
  _ ← require_market e m;
  _ ← require_accounts e [];
  if bool_decide (base = quote) then Err (market_error "market_state.invalid_assets" "market assets must be distinct") else
  dex_k ← map_err market_codec_error (dex_key dex);
  _ ← require_record st dex_k (market_error "market_state.missing_dex" "market DEX prerequisite is missing");
  base_k ← map_err market_codec_error (asset_key base);
  _ ← require_record st base_k (market_error "market_state.missing_asset" "market asset prerequisite is missing");
  quote_k ← map_err market_codec_error (asset_key quote);
  _ ← require_record st quote_k (market_error "market_state.missing_asset" "market asset prerequisite is missing");
  if (Decimal.raw tick <=? 0) || (Decimal.raw lot <=? 0)
  then Err (invalid_fixed_point "market tick and lot values must be positive") else
  key ← map_err market_codec_error (market_key m);
  _ ← require_absent st key (market_error "market_state.market_identity_collision" "market identity is already present");
  metadata_k ← map_err market_codec_error (metadata_key m CREATION_METADATA_VERSION);
  _ ← require_absent st metadata_k
        (market_error "market_state.metadata_identity_collision" "market metadata identity is already present");
  let h := ev_block_height e in
  put1 ← market_put key
           (mkMarket m dex base quote Active Exact CREATION_METADATA_VERSION (payload_hash e) (Some tick) (Some lot)
              (Some (Decimal.scale tick)) (Some (Decimal.scale lot)) None None None None None None None h h);
  put2 ← market_put metadata_k
           (mkMetadata m CREATION_METADATA_VERSION (payload_hash e) h None Exact (Some tick) (Some lot)
              (Some (Decimal.scale tick)) (Some (Decimal.scale lot)));
  Ok [put1; put2].

Definition change_metadata (st : StateView) (e : Envelope) (m : MarketId) (version : string) (hash : Hash)
  : result ReducerError (list StateMutation) :=
  _ ← require_market e m;
  _ ← require_accounts e [];
  key ← map_err market_codec_error (market_key m);
  current ← load_market st key;
  if leb version (mk_metadata_version current) || (ev_block_height e <=? mk_updated_at_block current)
  then Err (non_monotonic_metadata "market metadata versions and heights must increase") else
  prior_key ← map_err market_codec_error (metadata_key m (mk_metadata_version current));
  prior ← load_metadata st prior_key;
  if is_set (mv_effective_until_block prior) || (ev_block_height e <=? mv_effective_from_block prior)
  then Err (non_monotonic_metadata "market metadata interval cannot overlap") else
  next_key ← map_err market_codec_error (metadata_key m version);
  _ ← require_absent st next_key (market_error "market_state.metadata_identity_collision" "market metadata identity is already present");
  previous_height ← int_sub U64 (ev_block_height e) 1 ??
    market_error "market_state.arithmetic_overflow" "metadata interval height underflowed";
  put1 ← market_put prior_key
           (mkMetadata (mv_market_id prior) (mv_metadata_version prior) (mv_metadata_hash prior) (mv_effective_from_block prior)
              (Some previous_height) (mv_resolution prior) (mv_tick_size prior) (mv_lot_size prior) (mv_price_scale prior)
              (mv_quantity_scale prior));
  put2 ← market_put next_key (mkMetadata m version hash (ev_block_height e) None Unresolved None None None None);
  put3 ← market_put key (with_unresolved current version hash (ev_block_height e));
  Ok [put1; put2; put3].

(** The market an event is about, for the events that change its current record. *)
Definition current_market (st : StateView) (e : Envelope) (m : MarketId) : result ReducerError (StateKey * MarketCurrentRecordV1) :=
  _ ← require_market e m;
  _ ← require_accounts e [];
  key ← map_err market_codec_error (market_key m);
  current ← load_market st key;
  Ok (key, current).

Definition change_status (st : StateView) (e : Envelope) (m : MarketId) (from to : MarketStatusV1)
  : result ReducerError (list StateMutation) :=
  '(key, current) ← current_market st e m;
  if negb (bool_decide (mk_status current = from)) then Err invalid_status_transition else
  put ← market_put key (with_status current to (ev_block_height e));
  Ok [put].

Definition change_cap (st : StateView) (e : Envelope) (m : MarketId) (previous new : QuoteAmount)
  : result ReducerError (list StateMutation) :=
  '(key, c) ← current_market st e m;
  _ ← require_exact_metadata c;
  if (Decimal.raw previous <? 0) || (Decimal.raw new <? 0) || same_fixed previous new
  then Err (invalid_fixed_point "open-interest caps must be distinct nonnegative fixed-point values") else
  if is_set_and (fun v => negb (same_fixed v previous)) (mk_open_interest_cap c)
  then Err (market_error "market_state.previous_cap_mismatch" "previous open-interest cap does not match current state") else
  put ← market_put key (with_values c (Some new) (mk_margin_table_hash c) (mk_oracle_price c) (mk_oracle_source c)
          (mk_oracle_effective_at c) (mk_funding_rate c) (mk_funding_effective_at c) (ev_block_height e));
  Ok [put].

Definition change_margin_table (st : StateView) (e : Envelope) (m : MarketId) (previous new : string)
  : result ReducerError (list StateMutation) :=
  '(key, c) ← current_market st e m;
  _ ← require_exact_metadata c;
  if bool_decide (previous = new)
  then Err (market_error "market_state.invalid_margin_table" "margin table hashes must differ") else
  if is_set_and (fun v => negb (bool_decide (v = previous))) (mk_margin_table_hash c)
  then Err (market_error "market_state.previous_margin_table_mismatch" "previous margin table does not match current state") else
  put ← market_put key (with_values c (mk_open_interest_cap c) (Some new) (mk_oracle_price c) (mk_oracle_source c)
          (mk_oracle_effective_at c) (mk_funding_rate c) (mk_funding_effective_at c) (ev_block_height e));
  Ok [put].

Definition update_oracle (st : StateView) (e : Envelope) (m : MarketId) (price : Price) (source : string) (at_ : ProtocolTime)
  : result ReducerError (list StateMutation) :=
  '(key, c) ← current_market st e m;
  _ ← require_exact_metadata c;
  if Decimal.raw price <=? 0 then Err (invalid_fixed_point "oracle price must be positive") else
  if is_set_and (fun v => at_ <? v) (mk_oracle_effective_at c)
  then Err (market_error "market_state.stale_oracle_time" "oracle effective time cannot regress") else
  put ← market_put key (with_values c (mk_open_interest_cap c) (mk_margin_table_hash c) (Some price) (Some source) (Some at_)
          (mk_funding_rate c) (mk_funding_effective_at c) (ev_block_height e));
  Ok [put].

Definition update_funding (st : StateView) (e : Envelope) (m : MarketId) (rate : FundingRate) (at_ : ProtocolTime)
  : result ReducerError (list StateMutation) :=
  '(key, c) ← current_market st e m;
  _ ← require_exact_metadata c;
  if is_set_and (fun v => at_ <? v) (mk_funding_effective_at c)
  then Err (market_error "market_state.stale_funding_time" "funding effective time cannot regress") else
  put ← market_put key (with_values c (mk_open_interest_cap c) (mk_margin_table_hash c) (mk_oracle_price c) (mk_oracle_source c)
          (mk_oracle_effective_at c) (Some rate) (Some at_) (ev_block_height e));
  Ok [put].

Definition create_outcome (st : StateView) (e : Envelope) (m : MarketId) (outcome : OutcomeId) (description : string)
  : result ReducerError (list StateMutation) :=
  _ ← current_market st e m;
  key ← map_err market_codec_error (outcome_key m outcome);
  _ ← require_absent st key (market_error "market_state.outcome_identity_collision" "outcome identity is already present");
  put ← market_put key (mkOutcome m outcome description None None (ev_block_height e) (ev_block_height e));
  Ok [put].

Definition resolve_outcome (st : StateView) (e : Envelope) (m : MarketId) (outcome : OutcomeId) (value : Price) (resolved : ProtocolTime)
  : result ReducerError (list StateMutation) :=
  '(_, current) ← current_market st e m;
  _ ← require_exact_metadata current;
  key ← map_err market_codec_error (outcome_key m outcome);
  o ← load_outcome st key;
  if is_set (ou_resolved_at o)
  then Err (market_error "market_state.outcome_already_resolved" "outcome resolution is immutable") else
  if Decimal.raw value <? 0 then Err (invalid_fixed_point "outcome settlement value must be nonnegative") else
  put ← market_put key (mkOutcome (ou_market_id o) (ou_outcome_id o) (ou_description o) (Some value) (Some resolved)
          (ou_created_at_block o) (ev_block_height e));
  Ok [put].

Definition market_mutations (st : StateView) (e : Envelope) : result ReducerError (list StateMutation) :=
  match payload e with
  | Payload.DexCreated dex name operator => create_dex st e dex name operator
  | Payload.AssetContextUpdated asset version hash => create_asset st e asset version hash
  | Payload.MarketCreated m dex base quote tick lot => create_market st e m dex base quote tick lot
  | Payload.MarketMetadataChanged m version hash => change_metadata st e m version hash
  | Payload.MarketHalted m _ => change_status st e m Active Halted
  | Payload.MarketResumed m _ => change_status st e m Halted Active
  | Payload.OpenInterestCapChanged m previous new => change_cap st e m previous new
  | Payload.MarginTableChanged m previous new => change_margin_table st e m previous new
  | Payload.OracleUpdated m price source at_ => update_oracle st e m price source at_
  | Payload.FundingRateUpdated m rate at_ => update_funding st e m rate at_
  | Payload.OutcomeCreated m outcome description => create_outcome st e m outcome description
  | Payload.OutcomeResolved m outcome value resolved => resolve_outcome st e m outcome value resolved
  | _ => Err market_invalid_event
  end.

Definition market_reduce (st : StateView) (e : Envelope) : result ReducerError (list StateMutation) :=
  fact_key ← map_err market_codec_error (market_fact_key (event_id e));
  if bt_contains fact_key st
  then Err (market_error "market_state.event_identity_collision" "market event identity is already present") else
  fact ← market_fact_from_event e;
  put ← market_put fact_key fact;
  ms ← market_mutations st e;
  Ok (put :: ms).
End reducer.

Inductive CanonicalMarketReducerV1 := MarketReducer.
#[global] Instance market_reducer `{Hex} `{MarketJson} : EventReducer Payload.t CanonicalMarketReducerV1 := {
  reducer_version _ := MARKET_VERSION;
  supports _ := market_supports;
  reduce _ st e _ := market_reduce st e;
  validate_block_delta _ := default_validate_block_delta default_validate_block;
}.
