(* ===== verification/Accounts.v ===== *)
(** * The account reducer: [canonical-ledger/src/account/] and the payloads of
      [opaque.rs] it decodes

    Every accepted account event leaves an immutable fact and updates current
    records: flows per account and scope (credits and debits, both only
    growing), vault totals, subaccount and vault relations, account modes,
    margin modes and leverages. *)

From Stdlib Require Import Strings.Byte Strings.String.
From stdpp Require Import sorting.
From S2P Require Import Prelude Ordering BTreeMap Bytes FixedPoint Ids Store StateImage Blocks Ledger Payloads Records Opaque Markets.

(** ** Errors *)

Definition account_reason_code (e : RecordCodecError) : string :=
  match e with
  | InvalidRecordKey => "account_state.codec.invalid_key"
  | Codec => "account_state.codec.decode"
  | NonCanonical => "account_state.codec.noncanonical"
  | InvalidRecord => "account_state.codec.invalid_record"
  | KeyMismatch => "account_state.codec.key_mismatch"
  | RecordLimitExceeded => "account_state.codec.limit_exceeded"
  end.
Definition codec_error (e : RecordCodecError) : ReducerError :=
  mkReducerError (account_reason_code e) "account state codec or key operation failed".
Definition current_record_error (_ : RecordCodecError) : ReducerError :=
  mkReducerError "account_state.current_record_invalid" "existing account current record is corrupt or key mismatched".
Definition flow_error (_ : ValueError) : ReducerError :=
  mkReducerError "account_state.flow_arithmetic" "account flow arithmetic or exact scale expansion failed".
Definition unsupported_account_event : ReducerError :=
  mkReducerError "account_state.unsupported_event" "account reducer received an unsupported event".

(** ** Scopes of flows: [cashflow.rs] *)

Inductive AccountQuantityFlowScopeV1 :=
| ExternalAsset (asset_id : AssetId)
| SpotTransferAsset (asset_id : AssetId)
| SubaccountTransferAsset (asset_id : AssetId)
| FeeAsset (asset_id : AssetId)
| BuilderFeeAsset (asset_id : AssetId)
| ReferralRewardAsset (asset_id : AssetId)
| VaultShares (vault_id : VaultId)
| SpotGenesisAsset (asset_id : AssetId).
#[global] Instance AccountQuantityFlowScopeV1_eq_dec : EqDecision AccountQuantityFlowScopeV1.
Proof. solve_decision. Defined.

Definition quantity_scope_wire (s : AccountQuantityFlowScopeV1) : string :=
  match s with
  | ExternalAsset _ => "external_asset"
  | SpotTransferAsset _ => "spot_transfer_asset"
  | SubaccountTransferAsset _ => "subaccount_transfer_asset"
  | FeeAsset _ => "fee_asset"
  | BuilderFeeAsset _ => "builder_fee_asset"
  | ReferralRewardAsset _ => "referral_reward_asset"
  | VaultShares _ => "vault_shares"
  | SpotGenesisAsset _ => "spot_genesis_asset"
  end.

Definition parse_quantity_scope (scope : string) (asset vault : option string)
  : result RecordCodecError AccountQuantityFlowScopeV1 :=
  let asset_id := a ← asset ?? InvalidRecord; field (string_id_new a) in
  match vault with
  | None =>
      if bool_decide (scope = "external_asset"%string) then ExternalAsset <$> asset_id else
      if bool_decide (scope = "spot_transfer_asset"%string) then SpotTransferAsset <$> asset_id else
      if bool_decide (scope = "subaccount_transfer_asset"%string) then SubaccountTransferAsset <$> asset_id else
      if bool_decide (scope = "fee_asset"%string) then FeeAsset <$> asset_id else
      if bool_decide (scope = "builder_fee_asset"%string) then BuilderFeeAsset <$> asset_id else
      if bool_decide (scope = "referral_reward_asset"%string) then ReferralRewardAsset <$> asset_id else
      if bool_decide (scope = "spot_genesis_asset"%string) then SpotGenesisAsset <$> asset_id else Err InvalidRecord
  | Some v =>
      if bool_decide (scope = "vault_shares"%string) && bool_decide (asset = None)
      then VaultShares <$> field (string_id_new v) else Err InvalidRecord
  end.

Definition quantity_scope_identity (s : AccountQuantityFlowScopeV1) : bytes :=
  match s with
  | ExternalAsset a | SpotTransferAsset a | SubaccountTransferAsset a | FeeAsset a | BuilderFeeAsset a
  | ReferralRewardAsset a | SpotGenesisAsset a => as_bytes a
  | VaultShares v => as_bytes v
  end.
Definition quantity_scope_asset (s : AccountQuantityFlowScopeV1) : option string :=
  match s with
  | ExternalAsset a | SpotTransferAsset a | SubaccountTransferAsset a | FeeAsset a | BuilderFeeAsset a
  | ReferralRewardAsset a | SpotGenesisAsset a => Some a
  | VaultShares _ => None
  end.
Definition quantity_scope_vault (s : AccountQuantityFlowScopeV1) : option string :=
  match s with VaultShares v => Some v | _ => None end.

Inductive AccountQuoteFlowScopeV1 :=
| DefaultPerpQuote
| MarketFunding (market_id : MarketId)
| VaultPrincipal (vault_id : VaultId)
| SpotClassQuote
| RewardClaimedQuote.
#[global] Instance AccountQuoteFlowScopeV1_eq_dec : EqDecision AccountQuoteFlowScopeV1.
Proof. solve_decision. Defined.

Definition quote_scope_wire (s : AccountQuoteFlowScopeV1) : string :=
  match s with
  | DefaultPerpQuote => "default_perp_quote"
  | MarketFunding _ => "market_funding"
  | VaultPrincipal _ => "vault_principal"
  | SpotClassQuote => "spot_class_quote"
  | RewardClaimedQuote => "reward_claimed_quote"
  end.

Definition parse_quote_scope (scope : string) (market vault : option string)
  : result RecordCodecError AccountQuoteFlowScopeV1 :=
  match market, vault with
  | None, None =>
      if bool_decide (scope = "default_perp_quote"%string) then Ok DefaultPerpQuote else
      if bool_decide (scope = "spot_class_quote"%string) then Ok SpotClassQuote else
      if bool_decide (scope = "reward_claimed_quote"%string) then Ok RewardClaimedQuote else Err InvalidRecord
  | Some m, None =>
      if bool_decide (scope = "market_funding"%string) then MarketFunding <$> field (string_id_new m) else Err InvalidRecord
  | None, Some v =>
      if bool_decide (scope = "vault_principal"%string) then VaultPrincipal <$> field (string_id_new v) else Err InvalidRecord
  | Some _, Some _ => Err InvalidRecord
  end.

Definition quote_scope_identity (s : AccountQuoteFlowScopeV1) : option bytes :=
  match s with
  | DefaultPerpQuote | SpotClassQuote | RewardClaimedQuote => None
  | MarketFunding m => Some (as_bytes m)
  | VaultPrincipal v => Some (as_bytes v)
  end.
Definition quote_scope_market (s : AccountQuoteFlowScopeV1) : option string :=
  match s with MarketFunding m => Some m | _ => None end.
Definition quote_scope_vault (s : AccountQuoteFlowScopeV1) : option string :=
  match s with VaultPrincipal v => Some v | _ => None end.

(** ** Flow records *)

(** [valid_quantity_totals] and [valid_quote_totals] *)
Definition valid_totals (left right : Decimal.t) : bool :=
  (0 <=? Decimal.raw left) && (0 <=? Decimal.raw right) && (Decimal.scale left =? Decimal.scale right).

Record AccountQuantityFlowCurrentRecordV1 := mkQuantityFlow {
  qf_account_id : Address;
  qf_scope : AccountQuantityFlowScopeV1;
  qf_credits : Quantity;
  qf_debits : Quantity;
  qf_last_event_id : EventId;
  qf_last_block_height : BlockHeight;
}.
Record QuantityFlowWire := mkQuantityFlowWire {
  qfw_schema : string;
  qfw_account_id : string;
  qfw_scope : string;
  qfw_asset_id : option string;
  qfw_vault_id : option string;
  qfw_credits : string;
  qfw_debits : string;
  qfw_last_event_id : string;
  qfw_last_block_height : Z;
}.
#[global] Instance QuantityFlowWire_eq_dec : EqDecision QuantityFlowWire.
Proof. solve_decision. Defined.

Definition QUANTITY_NAMESPACE : string := "account-quantity-flow-current.v1".
Definition QUANTITY_SCHEMA : string := "hyperliquid-alpha-desk/account-quantity-flow-current/v1".
Definition quantity_flow_key (account : Address) (scope : AccountQuantityFlowScopeV1) : result RecordCodecError StateKey :=
  framed_key QUANTITY_NAMESPACE [account; as_bytes (quantity_scope_wire scope); quantity_scope_identity scope].

#[global] Instance quantity_flow_record `{Hex} : StateRecord AccountQuantityFlowCurrentRecordV1 QuantityFlowWire := {
  to_wire r := mkQuantityFlowWire QUANTITY_SCHEMA (to_api_string (qf_account_id r)) (quantity_scope_wire (qf_scope r))
                 (quantity_scope_asset (qf_scope r)) (quantity_scope_vault (qf_scope r))
                 (Decimal.to_string (qf_credits r)) (Decimal.to_string (qf_debits r)) (qf_last_event_id r)
                 (qf_last_block_height r);
  from_wire w :=
    if negb (bool_decide (qfw_schema w = QUANTITY_SCHEMA)) then Err InvalidRecord else
    account ← field (parse_api (qfw_account_id w));
    scope ← parse_quantity_scope (qfw_scope w) (qfw_asset_id w) (qfw_vault_id w);
    credits ← field (Decimal.from_str (qfw_credits w));
    debits ← field (Decimal.from_str (qfw_debits w));
    event ← field (string_id_new (qfw_last_event_id w));
    Ok (mkQuantityFlow account scope credits debits event (qfw_last_block_height w));
  rec_validate r := valid_totals (qf_credits r) (qf_debits r);
  rec_key r := quantity_flow_key (qf_account_id r) (qf_scope r);
}.

Record AccountQuoteFlowCurrentRecordV1 := mkQuoteFlow {
  cf_account_id : Address;
  cf_scope : AccountQuoteFlowScopeV1;
  cf_credits : QuoteAmount;
  cf_debits : QuoteAmount;
  cf_last_event_id : EventId;
  cf_last_block_height : BlockHeight;
}.
Record QuoteFlowWire := mkQuoteFlowWire {
  cfw_schema : string;
  cfw_account_id : string;
  cfw_scope : string;
  cfw_market_id : option string;
  cfw_vault_id : option string;
  cfw_credits : string;
  cfw_debits : string;
  cfw_last_event_id : string;
  cfw_last_block_height : Z;
}.
#[global] Instance QuoteFlowWire_eq_dec : EqDecision QuoteFlowWire.
Proof. solve_decision. Defined.

Definition QUOTE_NAMESPACE : string := "account-quote-flow-current.v1".
Definition QUOTE_SCHEMA : string := "hyperliquid-alpha-desk/account-quote-flow-current/v1".
Definition quote_flow_key (account : Address) (scope : AccountQuoteFlowScopeV1) : result RecordCodecError StateKey :=
  match quote_scope_identity scope with
  | Some identity => framed_key QUOTE_NAMESPACE [account; as_bytes (quote_scope_wire scope); identity]
  | None => framed_key QUOTE_NAMESPACE [account; as_bytes (quote_scope_wire scope)]
  end.

#[global] Instance quote_flow_record `{Hex} : StateRecord AccountQuoteFlowCurrentRecordV1 QuoteFlowWire := {
  to_wire r := mkQuoteFlowWire QUOTE_SCHEMA (to_api_string (cf_account_id r)) (quote_scope_wire (cf_scope r))
                 (quote_scope_market (cf_scope r)) (quote_scope_vault (cf_scope r))
                 (Decimal.to_string (cf_credits r)) (Decimal.to_string (cf_debits r)) (cf_last_event_id r)
                 (cf_last_block_height r);
  from_wire w :=
    if negb (bool_decide (cfw_schema w = QUOTE_SCHEMA)) then Err InvalidRecord else
    account ← field (parse_api (cfw_account_id w));
    scope ← parse_quote_scope (cfw_scope w) (cfw_market_id w) (cfw_vault_id w);
    credits ← field (Decimal.from_str (cfw_credits w));
    debits ← field (Decimal.from_str (cfw_debits w));
    event ← field (string_id_new (cfw_last_event_id w));
    Ok (mkQuoteFlow account scope credits debits event (cfw_last_block_height w));
  rec_validate r := valid_totals (cf_credits r) (cf_debits r);
  rec_key r := quote_flow_key (cf_account_id r) (cf_scope r);
}.

Record VaultPrincipalFlowCurrentRecordV1 := mkVaultPrincipal {
  vp_vault_id : VaultId;
  vp_deposits : QuoteAmount;
  vp_withdrawals : QuoteAmount;
  vp_last_event_id : EventId;
  vp_last_block_height : BlockHeight;
}.
Record VaultPrincipalWire := mkVaultPrincipalWire {
  vpw_schema : string;
  vpw_vault_id : string;
  vpw_deposits : string;
  vpw_withdrawals : string;
  vpw_last_event_id : string;
  vpw_last_block_height : Z;
}.
#[global] Instance VaultPrincipalWire_eq_dec : EqDecision VaultPrincipalWire.
Proof. solve_decision. Defined.

Definition VAULT_PRINCIPAL_NAMESPACE : string := "vault-principal-flow-current.v1".
Definition VAULT_PRINCIPAL_SCHEMA : string := "hyperliquid-alpha-desk/vault-principal-flow-current/v1".
Definition vault_principal_key (vault : VaultId) : result RecordCodecError StateKey :=
  framed_key VAULT_PRINCIPAL_NAMESPACE [as_bytes vault].

#[global] Instance vault_principal_record : StateRecord VaultPrincipalFlowCurrentRecordV1 VaultPrincipalWire := {
  to_wire r := mkVaultPrincipalWire VAULT_PRINCIPAL_SCHEMA (vp_vault_id r) (Decimal.to_string (vp_deposits r))
                 (Decimal.to_string (vp_withdrawals r)) (vp_last_event_id r) (vp_last_block_height r);
  from_wire w :=
    if negb (bool_decide (vpw_schema w = VAULT_PRINCIPAL_SCHEMA)) then Err InvalidRecord else
    vault ← field (string_id_new (vpw_vault_id w));
    deposits ← field (Decimal.from_str (vpw_deposits w));
    withdrawals ← field (Decimal.from_str (vpw_withdrawals w));
    event ← field (string_id_new (vpw_last_event_id w));
    Ok (mkVaultPrincipal vault deposits withdrawals event (vpw_last_block_height w));
  rec_validate r := valid_totals (vp_deposits r) (vp_withdrawals r);
  rec_key r := vault_principal_key (vp_vault_id r);
}.

Record VaultShareFlowCurrentRecordV1 := mkVaultShare {
  vs_vault_id : VaultId;
  vs_shares_issued : Quantity;
  vs_shares_redeemed : Quantity;
  vs_last_event_id : EventId;
  vs_last_block_height : BlockHeight;
}.
Record VaultShareWire := mkVaultShareWire {
  vsw_schema : string;
  vsw_vault_id : string;
  vsw_shares_issued : string;
  vsw_shares_redeemed : string;
  vsw_last_event_id : string;
  vsw_last_block_height : Z;
}.
#[global] Instance VaultShareWire_eq_dec : EqDecision VaultShareWire.
Proof. solve_decision. Defined.

Definition VAULT_SHARE_NAMESPACE : string := "vault-share-flow-current.v1".
Definition VAULT_SHARE_SCHEMA : string := "hyperliquid-alpha-desk/vault-share-flow-current/v1".
Definition vault_share_key (vault : VaultId) : result RecordCodecError StateKey :=
  framed_key VAULT_SHARE_NAMESPACE [as_bytes vault].

#[global] Instance vault_share_record : StateRecord VaultShareFlowCurrentRecordV1 VaultShareWire := {
  to_wire r := mkVaultShareWire VAULT_SHARE_SCHEMA (vs_vault_id r) (Decimal.to_string (vs_shares_issued r))
                 (Decimal.to_string (vs_shares_redeemed r)) (vs_last_event_id r) (vs_last_block_height r);
  from_wire w :=
    if negb (bool_decide (vsw_schema w = VAULT_SHARE_SCHEMA)) then Err InvalidRecord else
    vault ← field (string_id_new (vsw_vault_id w));
    issued ← field (Decimal.from_str (vsw_shares_issued w));
    redeemed ← field (Decimal.from_str (vsw_shares_redeemed w));
    event ← field (string_id_new (vsw_last_event_id w));
    Ok (mkVaultShare vault issued redeemed event (vsw_last_block_height w));
  rec_validate r := valid_totals (vs_shares_issued r) (vs_shares_redeemed r);
  rec_key r := vault_share_key (vs_vault_id r);
}.

(** ** Relations: [relations.rs] *)

Record SubaccountMasterCurrentRecordV1 := mkSubaccount {
  sm_subaccount_id : Address;
  sm_master_account_id : Address;
  sm_first_event_id : EventId;
  sm_last_event_id : EventId;
  sm_first_block_height : BlockHeight;
  sm_last_block_height : BlockHeight;
}.
Record SubaccountWire := mkSubaccountWire {
  smw_schema : string;
  smw_subaccount_id : string;
  smw_master_account_id : string;
  smw_first_event_id : string;
  smw_last_event_id : string;
  smw_first_block_height : Z;
  smw_last_block_height : Z;
}.
#[global] Instance SubaccountWire_eq_dec : EqDecision SubaccountWire.
Proof. solve_decision. Defined.

Definition SUBACCOUNT_NAMESPACE : string := "account-subaccount-master.v1".
Definition SUBACCOUNT_SCHEMA : string := "hyperliquid-alpha-desk/account-subaccount-master/v1".
Definition subaccount_key (subaccount : Address) : result RecordCodecError StateKey :=
  framed_key SUBACCOUNT_NAMESPACE [subaccount].

#[global] Instance subaccount_record `{Hex} : StateRecord SubaccountMasterCurrentRecordV1 SubaccountWire := {
  to_wire r := mkSubaccountWire SUBACCOUNT_SCHEMA (to_api_string (sm_subaccount_id r))
                 (to_api_string (sm_master_account_id r)) (sm_first_event_id r) (sm_last_event_id r)
                 (sm_first_block_height r) (sm_last_block_height r);
  from_wire w :=
    if negb (bool_decide (smw_schema w = SUBACCOUNT_SCHEMA)) then Err InvalidRecord else
    subaccount ← field (parse_api (smw_subaccount_id w));
    master ← field (parse_api (smw_master_account_id w));
    first ← field (string_id_new (smw_first_event_id w));
    last ← field (string_id_new (smw_last_event_id w));
    Ok (mkSubaccount subaccount master first last (smw_first_block_height w) (smw_last_block_height w));
  rec_validate r := negb (bool_decide (sm_subaccount_id r = sm_master_account_id r)) &&
                    (sm_first_block_height r <=? sm_last_block_height r);
  rec_key r := subaccount_key (sm_subaccount_id r);
}.

Record AccountVaultRelationCurrentRecordV1 := mkVaultRelation {
  vr_account_id : Address;
  vr_vault_id : VaultId;
  vr_first_event_id : EventId;
  vr_last_event_id : EventId;
  vr_first_block_height : BlockHeight;
  vr_last_block_height : BlockHeight;
}.
Record AccountVaultWire := mkAccountVaultWire {
  vrw_schema : string;
  vrw_account_id : string;
  vrw_vault_id : string;
  vrw_first_event_id : string;
  vrw_last_event_id : string;
  vrw_first_block_height : Z;
  vrw_last_block_height : Z;
}.
#[global] Instance AccountVaultWire_eq_dec : EqDecision AccountVaultWire.
Proof. solve_decision. Defined.

Definition VAULT_RELATION_NAMESPACE : string := "account-vault-relation.v1".
Definition VAULT_RELATION_SCHEMA : string := "hyperliquid-alpha-desk/account-vault-relation/v1".
Definition vault_relation_key (account : Address) (vault : VaultId) : result RecordCodecError StateKey :=
  framed_key VAULT_RELATION_NAMESPACE [account; as_bytes vault].

#[global] Instance vault_relation_record `{Hex} : StateRecord AccountVaultRelationCurrentRecordV1 AccountVaultWire := {
  to_wire r := mkAccountVaultWire VAULT_RELATION_SCHEMA (to_api_string (vr_account_id r)) (vr_vault_id r)
                 (vr_first_event_id r) (vr_last_event_id r) (vr_first_block_height r) (vr_last_block_height r);
  from_wire w :=
    if negb (bool_decide (vrw_schema w = VAULT_RELATION_SCHEMA)) then Err InvalidRecord else
    account ← field (parse_api (vrw_account_id w));
    vault ← field (string_id_new (vrw_vault_id w));
    first ← field (string_id_new (vrw_first_event_id w));
    last ← field (string_id_new (vrw_last_event_id w));
    Ok (mkVaultRelation account vault first last (vrw_first_block_height w) (vrw_last_block_height w));
  rec_validate r :=
    let same_endpoint := match parse_api (vr_vault_id r) with Ok a => bool_decide (a = vr_account_id r) | Err _ => false end in
    negb same_endpoint && (vr_first_block_height r <=? vr_last_block_height r);
  rec_key r := vault_relation_key (vr_account_id r) (vr_vault_id r);
}.

(** ** Modes: [modes.rs] *)

Record AccountModeCurrentRecordV1 := mkAccountMode {
  am_account_id : Address;
  am_initial_previous : AccountAbstractionModeV1;
  am_current : AccountAbstractionModeV1;
  am_first_event_id : EventId;
  am_last_event_id : EventId;
  am_first_block_height : BlockHeight;
  am_last_block_height : BlockHeight;
}.
Record AccountModeWire := mkAccountModeWire {
  amw_schema : string;
  amw_account_id : string;
  amw_initial_previous : string;
  amw_current : string;
  amw_first_event_id : string;
  amw_last_event_id : string;
  amw_first_block_height : Z;
  amw_last_block_height : Z;
}.
#[global] Instance AccountModeWire_eq_dec : EqDecision AccountModeWire.
Proof. solve_decision. Defined.

Definition ACCOUNT_MODE_NAMESPACE : string := "account-mode-current.v1".
Definition ACCOUNT_MODE_SCHEMA : string := "hyperliquid-alpha-desk/account-mode-current/v1".
Definition account_mode_key (account : Address) : result RecordCodecError StateKey :=
  framed_key ACCOUNT_MODE_NAMESPACE [account].

#[global] Instance account_mode_record `{Hex} : StateRecord AccountModeCurrentRecordV1 AccountModeWire := {
  to_wire r := mkAccountModeWire ACCOUNT_MODE_SCHEMA (to_api_string (am_account_id r))
                 (account_mode_wire (am_initial_previous r)) (account_mode_wire (am_current r)) (am_first_event_id r)
                 (am_last_event_id r) (am_first_block_height r) (am_last_block_height r);
  from_wire w :=
    if negb (bool_decide (amw_schema w = ACCOUNT_MODE_SCHEMA)) then Err InvalidRecord else
    account ← field (parse_api (amw_account_id w));
    initial ← field (parse_account_mode (amw_initial_previous w));
    current ← field (parse_account_mode (amw_current w));
    first ← field (string_id_new (amw_first_event_id w));
    last ← field (string_id_new (amw_last_event_id w));
    Ok (mkAccountMode account initial current first last (amw_first_block_height w) (amw_last_block_height w));
  rec_validate r := am_first_block_height r <=? am_last_block_height r;
  rec_key r := account_mode_key (am_account_id r);
}.

(** Margin modes and leverages are kept per account and market. *)
Record MarginModeCurrentRecordV1 := mkMarginMode {
  mm_account_id : Address;
  mm_market_id : MarketId;
  mm_initial_previous : MarginModeV1;
  mm_current : MarginModeV1;
  mm_first_event_id : EventId;
  mm_last_event_id : EventId;
  mm_first_block_height : BlockHeight;
  mm_last_block_height : BlockHeight;
}.
(** [MarginModeWire] and [LeverageWire] have the same fields. *)
Record ModeWire := mkModeWire {
  mmw_schema : string;
  mmw_account_id : string;
  mmw_market_id : string;
  mmw_initial_previous : string;
  mmw_current : string;
  mmw_first_event_id : string;
  mmw_last_event_id : string;
  mmw_first_block_height : Z;
  mmw_last_block_height : Z;
}.
#[global] Instance ModeWire_eq_dec : EqDecision ModeWire.
Proof. solve_decision. Defined.

Definition MARGIN_MODE_NAMESPACE : string := "account-margin-mode-current.v1".
Definition MARGIN_MODE_SCHEMA : string := "hyperliquid-alpha-desk/account-margin-mode-current/v1".
Definition margin_mode_key (account : Address) (market : MarketId) : result RecordCodecError StateKey :=
  framed_key MARGIN_MODE_NAMESPACE [account; as_bytes market].

#[global] Instance margin_mode_record `{Hex} : StateRecord MarginModeCurrentRecordV1 ModeWire := {
  to_wire r := mkModeWire MARGIN_MODE_SCHEMA (to_api_string (mm_account_id r)) (mm_market_id r)
                 (margin_mode_wire (mm_initial_previous r)) (margin_mode_wire (mm_current r)) (mm_first_event_id r)
                 (mm_last_event_id r) (mm_first_block_height r) (mm_last_block_height r);
  from_wire w :=
    if negb (bool_decide (mmw_schema w = MARGIN_MODE_SCHEMA)) then Err InvalidRecord else
    account ← field (parse_api (mmw_account_id w));
    market ← field (string_id_new (mmw_market_id w));
    initial ← field (parse_margin_mode (mmw_initial_previous w));
    current ← field (parse_margin_mode (mmw_current w));
    first ← field (string_id_new (mmw_first_event_id w));
    last ← field (string_id_new (mmw_last_event_id w));
    Ok (mkMarginMode account market initial current first last (mmw_first_block_height w) (mmw_last_block_height w));
  rec_validate r := mm_first_block_height r <=? mm_last_block_height r;
  rec_key r := margin_mode_key (mm_account_id r) (mm_market_id r);
}.

Record LeverageCurrentRecordV1 := mkLeverage {
  lv_account_id : Address;
  lv_market_id : MarketId;
  lv_initial_previous : Leverage;
  lv_current : Leverage;
  lv_first_event_id : EventId;
  lv_last_event_id : EventId;
  lv_first_block_height : BlockHeight;
  lv_last_block_height : BlockHeight;
}.

Definition LEVERAGE_NAMESPACE : string := "account-leverage-current.v1".
Definition LEVERAGE_SCHEMA : string := "hyperliquid-alpha-desk/account-leverage-current/v1".
Definition leverage_key (account : Address) (market : MarketId) : result RecordCodecError StateKey :=
  framed_key LEVERAGE_NAMESPACE [account; as_bytes market].

#[global] Instance leverage_record `{Hex} : StateRecord LeverageCurrentRecordV1 ModeWire := {
  to_wire r := mkModeWire LEVERAGE_SCHEMA (to_api_string (lv_account_id r)) (lv_market_id r)
                 (Decimal.to_string (lv_initial_previous r)) (Decimal.to_string (lv_current r)) (lv_first_event_id r)
                 (lv_last_event_id r) (lv_first_block_height r) (lv_last_block_height r);
  from_wire w :=
    if negb (bool_decide (mmw_schema w = LEVERAGE_SCHEMA)) then Err InvalidRecord else
    account ← field (parse_api (mmw_account_id w));
    market ← field (string_id_new (mmw_market_id w));
    initial ← field (Decimal.from_str (mmw_initial_previous w));
    current ← field (Decimal.from_str (mmw_current w));
    first ← field (string_id_new (mmw_first_event_id w));
    last ← field (string_id_new (mmw_last_event_id w));
    Ok (mkLeverage account market initial current first last (mmw_first_block_height w) (mmw_last_block_height w));
  rec_validate r := (0 <? Decimal.raw (lv_initial_previous r)) && (0 <? Decimal.raw (lv_current r)) &&
                    (lv_first_block_height r <=? lv_last_block_height r);
  rec_key r := leverage_key (lv_account_id r) (lv_market_id r);
}.

(** ** Facts: [mod.rs] *)

Definition ACCOUNT_VERSION : string := "hyperliquid-alpha-desk-canonical-account@1.0.0".

Record AccountFactRecordV1 := mkFact {
  af_event_id : EventId;
  af_event_kind : EventKind;
  af_account_ids : list Address;
  af_market_ids : list MarketId;
  af_asset_id : option AssetId;
  af_vault_id : option VaultId;
  af_block_height : BlockHeight;
  af_payload_hash : Hash;
  af_rule_version : string;
}.
Record FactWire := mkFactWire {
  afw_schema : string;
  afw_event_id : string;
  afw_event_kind : string;
  afw_account_ids : list string;
  afw_market_ids : list string;
  afw_asset_id : option string;
  afw_vault_id : option string;
  afw_block_height : Z;
  afw_payload_blake3 : string;
  afw_rule_version : string;
}.
#[global] Instance FactWire_eq_dec : EqDecision FactWire.
Proof. solve_decision. Defined.

Definition FACT_NAMESPACE : string := "account-fact.v1".
Definition FACT_SCHEMA : string := "hyperliquid-alpha-desk/account-fact/v1".
Definition MAX_FACT_ACCOUNTS : Z := 3.
Definition MAX_FACT_MARKETS : Z := 1.
Definition account_fact_key (id : EventId) : result RecordCodecError StateKey := framed_key FACT_NAMESPACE [as_bytes id].

Definition valid_fact_shape (k : EventKind) (accounts markets : Z) (has_asset has_vault : bool) : bool :=
  match k with
  | DepositCredited | WithdrawalDebited | FeeCharged => (accounts =? 1) && (markets =? 0) && has_asset && negb has_vault
  | SpotTransfer | BuilderFeeCharged | ReferralReward => (accounts =? 2) && (markets =? 0) && has_asset && negb has_vault
  | SubaccountTransfer => (accounts =? 3) && (markets =? 0) && has_asset && negb has_vault
  | PerpTransfer => (accounts =? 2) && (markets =? 0) && negb has_asset && negb has_vault
  | VaultDeposit | VaultWithdrawal => (accounts =? 1) && (markets =? 0) && negb has_asset && has_vault
  | FundingPaid | FundingReceived => (accounts =? 1) && (markets =? 1) && negb has_asset && negb has_vault
  | AccountModeChanged => (accounts =? 1) && (markets =? 0) && negb has_asset && negb has_vault
  | MarginModeChanged | LeverageChanged => (accounts =? 1) && (markets =? 1) && negb has_asset && negb has_vault
  | InternalTransfer => (accounts =? 2) && (markets =? 0) && negb has_asset && negb has_vault
  | AccountClassTransfer | RewardClaimed => (accounts =? 1) && (markets =? 0) && negb has_asset && negb has_vault
  | SpotGenesisApplied => (accounts <=? 1) && (markets =? 0) && has_asset && negb has_vault
  | _ => false
  end.

(** The elements of a list, parsed until the first failure. *)
Fixpoint parse_all {A B} (parse : A -> result ValueError B) (l : list A) : result RecordCodecError (list B) :=
  match l with
  | [] => Ok []
  | a :: l => b ← field (parse a); bs ← parse_all parse l; Ok (b :: bs)
  end.

Definition account_fact_validate (r : AccountFactRecordV1) : bool :=
  negb (negb (bool_decide (af_rule_version r = ACCOUNT_VERSION)) || (MAX_FACT_ACCOUNTS <? zlen (af_account_ids r)) ||
        (MAX_FACT_MARKETS <? zlen (af_market_ids r)) ||
        negb (valid_fact_shape (af_event_kind r) (zlen (af_account_ids r)) (zlen (af_market_ids r))
                (is_set (af_asset_id r)) (is_set (af_vault_id r)))).

#[global] Instance account_fact_record `{Hex} : StateRecord AccountFactRecordV1 FactWire := {
  to_wire r := mkFactWire FACT_SCHEMA (af_event_id r) (as_wire_name (af_event_kind r)) (to_api_string <$> af_account_ids r)
                 (af_market_ids r) (af_asset_id r) (af_vault_id r) (af_block_height r) (hex_encode (af_payload_hash r))
                 (af_rule_version r);
  from_wire w :=
    if negb (bool_decide (afw_schema w = FACT_SCHEMA)) || negb (bool_decide (afw_rule_version w = ACCOUNT_VERSION))
    then Err InvalidRecord else
    if (MAX_FACT_ACCOUNTS <? zlen (afw_account_ids w)) || (MAX_FACT_MARKETS <? zlen (afw_market_ids w))
    then Err InvalidRecord else
    id ← field (string_id_new (afw_event_id w));
    event_kind ← kind_try_from (afw_event_kind w) ?? InvalidRecord;
    accounts ← parse_all parse_api (afw_account_ids w);
    markets ← parse_all string_id_new (afw_market_ids w);
    asset ← parse_optional string_id_new (afw_asset_id w);
    vault ← parse_optional string_id_new (afw_vault_id w);
    hash ← record_hash (afw_payload_blake3 w);
    Ok (mkFact id event_kind accounts markets asset vault (afw_block_height w) hash (afw_rule_version w));
  rec_validate := account_fact_validate;
  rec_key r := account_fact_key (af_event_id r);
}.

(** ** Mutations *)

(** The JSON of every record the reducer reads or writes. *)
Class AccountJson := {
  json_fact :: Json FactWire;
  json_quantity_flow :: Json QuantityFlowWire;
  json_quote_flow :: Json QuoteFlowWire;
  json_vault_principal :: Json VaultPrincipalWire;
  json_vault_share :: Json VaultShareWire;
  json_subaccount :: Json SubaccountWire;
  json_vault_relation :: Json AccountVaultWire;
  json_account_mode :: Json AccountModeWire;
  json_mode :: Json ModeWire;
}.

Inductive FlowSide := Credit | Debit.

(** [normalize_quantity] and [normalize_quote] *)
Definition normalize (credits debits amount : Decimal.t) (side : FlowSide) : result ReducerError (Decimal.t * Decimal.t) :=
  let scale := Z.max (Z.max (Decimal.scale credits) (Decimal.scale debits)) (Decimal.scale amount) in
  credits ← map_err flow_error (Decimal.rescale credits scale TowardZero);
  debits ← map_err flow_error (Decimal.rescale debits scale TowardZero);
  amount ← map_err flow_error (Decimal.rescale amount scale TowardZero);
  match side with
  | Credit => sum ← map_err flow_error (Decimal.checked_add credits amount); Ok (sum, debits)
  | Debit => sum ← map_err flow_error (Decimal.checked_add debits amount); Ok (credits, sum)
  end.

Section mutations.
Context `{Hex} `{AccountJson}.
Context (st : StateView) (event : EventId) (height : BlockHeight).

Definition put_record {R W} `{StateRecord R W} `{Json W} (key : StateKey) (r : R) : result ReducerError StateMutation :=
  l ← map_err codec_error (record_encode r);
  Ok (Put key l).

(** The record a key holds, if any; a record that cannot be read stops the event. *)
Definition current_record {R W} `{StateRecord R W} `{Json W} (key : StateKey) : result ReducerError (option R) :=
  match bt_get key st with
  | Some l => r ← map_err current_record_error (record_decode_at key l); Ok (Some r)
  | None => Ok None
  end.

(** The totals of a flow record after an amount on one side. *)
Definition next_totals {R W} `{StateRecord R W} `{Json W} (totals : R -> Decimal.t * Decimal.t) (key : StateKey)
    (amount : Decimal.t) (side : FlowSide) : result ReducerError (Decimal.t * Decimal.t) :=
  zero ← map_err flow_error (Decimal.checked_sub amount amount);
  current ← current_record key;
  match current with
  | Some r => normalize (totals r).1 (totals r).2 amount side
  | None => Ok (match side with Credit => (amount, zero) | Debit => (zero, amount) end)
  end.

Definition quantity_flow_mutation (account : Address) (scope : AccountQuantityFlowScopeV1) (amount : Quantity)
    (side : FlowSide) : result ReducerError StateMutation :=
  key ← map_err codec_error (quantity_flow_key account scope);
  '(credits, debits) ← next_totals (fun r => (qf_credits r, qf_debits r)) key amount side;
  put_record key (mkQuantityFlow account scope credits debits event height).

Definition quote_flow_mutation (account : Address) (scope : AccountQuoteFlowScopeV1) (amount : QuoteAmount)
    (side : FlowSide) : result ReducerError StateMutation :=
  key ← map_err codec_error (quote_flow_key account scope);
  '(credits, debits) ← next_totals (fun r => (cf_credits r, cf_debits r)) key amount side;
  put_record key (mkQuoteFlow account scope credits debits event height).

Definition vault_principal_mutation (vault : VaultId) (amount : QuoteAmount) (side : FlowSide)
  : result ReducerError StateMutation :=
  key ← map_err codec_error (vault_principal_key vault);
  '(deposits, withdrawals) ← next_totals (fun r => (vp_deposits r, vp_withdrawals r)) key amount side;
  put_record key (mkVaultPrincipal vault deposits withdrawals event height).

Definition vault_share_mutation (vault : VaultId) (amount : Quantity) (side : FlowSide)
  : result ReducerError StateMutation :=
  key ← map_err codec_error (vault_share_key vault);
  '(issued, redeemed) ← next_totals (fun r => (vs_shares_issued r, vs_shares_redeemed r)) key amount side;
  put_record key (mkVaultShare vault issued redeemed event height).

Definition subaccount_of (master from to : Address) : result ReducerError Address :=
  if bool_decide (master = from) then Ok to else
  if bool_decide (master = to) then Ok from else
  Err (mkReducerError "account_state.subaccount_scope_ambiguous" "subaccount master must be exactly one transfer endpoint").

Definition subaccount_relation_mutation (master from to : Address) : result ReducerError StateMutation :=
  subaccount ← subaccount_of master from to;
  key ← map_err codec_error (subaccount_key subaccount);
  current ← current_record (R := SubaccountMasterCurrentRecordV1) key;
  match current with
  | Some r =>
      if negb (bool_decide (sm_master_account_id r = master))
      then Err (mkReducerError "account_state.master_conflict" "subaccount is already bound to another master") else
      put_record key (mkSubaccount subaccount master (sm_first_event_id r) event (sm_first_block_height r) height)
  | None => put_record key (mkSubaccount subaccount master event event height height)
  end.

Definition vault_relation_mutation (account : Address) (vault : VaultId) : result ReducerError StateMutation :=
  key ← map_err codec_error (vault_relation_key account vault);
  current ← current_record (R := AccountVaultRelationCurrentRecordV1) key;
  match current with
  | Some r => put_record key (mkVaultRelation account vault (vr_first_event_id r) event (vr_first_block_height r) height)
  | None => put_record key (mkVaultRelation account vault event event height height)
  end.

Definition account_mode_mutation (account : Address) (previous new : AccountAbstractionModeV1)
  : result ReducerError StateMutation :=
  key ← map_err codec_error (account_mode_key account);
  current ← current_record (R := AccountModeCurrentRecordV1) key;
  match current with
  | Some r =>
      if negb (bool_decide (am_current r = previous))
      then Err (mkReducerError "account_state.previous_account_mode_mismatch" "account mode predecessor does not match current state")
      else put_record key (mkAccountMode account (am_initial_previous r) new (am_first_event_id r) event
                             (am_first_block_height r) height)
  | None => put_record key (mkAccountMode account previous new event event height height)
  end.

Definition margin_mode_mutation (account : Address) (market : MarketId) (previous new : MarginModeV1)
  : result ReducerError StateMutation :=
  key ← map_err codec_error (margin_mode_key account market);
  current ← current_record (R := MarginModeCurrentRecordV1) key;
  match current with
  | Some r =>
      if negb (bool_decide (mm_current r = previous))
      then Err (mkReducerError "account_state.previous_margin_mode_mismatch" "margin mode predecessor does not match current state")
      else put_record key (mkMarginMode account market (mm_initial_previous r) new (mm_first_event_id r) event
                             (mm_first_block_height r) height)
  | None => put_record key (mkMarginMode account market previous new event event height height)
  end.

(** Leverages are compared by value. *)
Definition leverage_mutation (account : Address) (market : MarketId) (previous new : Leverage)
  : result ReducerError StateMutation :=
  key ← map_err codec_error (leverage_key account market);
  current ← current_record (R := LeverageCurrentRecordV1) key;
  match current with
  | Some r =>
      if negb (Decimal.eq (lv_current r) previous)
      then Err (mkReducerError "account_state.previous_leverage_mismatch" "leverage predecessor does not match current state")
      else put_record key (mkLeverage account market (lv_initial_previous r) new (lv_first_event_id r) event
                             (lv_first_block_height r) height)
  | None => put_record key (mkLeverage account market previous new event event height height)
  end.
End mutations.

(** ** The reducer: [mod.rs] *)


Definition identity_mismatch : ReducerError :=
  mkReducerError "account_state.identity_mismatch" "ordered envelope identities do not match the payload".
Definition identity_matches (e : Envelope) (accounts : list Address) (markets : list MarketId) : bool :=
  bool_decide (account_ids e = accounts) && bool_decide (market_ids e = markets).

Definition account_supports (e : Envelope) : bool :=
  bool_decide (schema_version e = "1.0.0"%string) &&
  match event_kind e with
  | DepositCredited | WithdrawalDebited | SpotTransfer | PerpTransfer | SubaccountTransfer | VaultDeposit
  | VaultWithdrawal | FeeCharged | BuilderFeeCharged | FundingPaid | FundingReceived | ReferralReward
  | AccountModeChanged | MarginModeChanged | LeverageChanged | InternalTransfer | AccountClassTransfer
  | RewardClaimed | SpotGenesisApplied => true
  | _ => false
  end.

Section reducer.
Context `{Hex} `{AccountJson} `{MarketJson} `{PayloadWire}.

Definition validate_event_identities (e : Envelope) : result ReducerError unit :=
  matches ← match payload e with
    | Payload.DepositCredited a _ _ _ | Payload.WithdrawalDebited a _ _ _ | Payload.VaultDeposit _ a _ _
    | Payload.VaultWithdrawal _ a _ _ | Payload.FeeCharged a _ _ _ _ | Payload.AccountModeChanged a _ _ =>
        Ok (identity_matches e [a] [])
    | Payload.SpotTransfer from to _ _ | Payload.PerpTransfer from to _ => Ok (identity_matches e [from; to] [])
    | Payload.SubaccountTransfer master from to _ _ => Ok (identity_matches e [master; from; to] [])
    | Payload.BuilderFeeCharged a builder _ _ => Ok (identity_matches e [a; builder] [])
    | Payload.FundingPaid a m _ _ | Payload.FundingReceived a m _ _ | Payload.MarginModeChanged a m _ _
    | Payload.LeverageChanged a m _ _ => Ok (identity_matches e [a] [m])
    | Payload.ReferralReward a referrer _ _ => Ok (identity_matches e [a; referrer] [])
    | Payload.InternalTransfer encoded =>
        '(from, to, _, _) ← decode_internal encoded; Ok (identity_matches e [from; to] [])
    | Payload.AccountClassTransfer encoded => '(a, _, _) ← decode_class_transfer encoded; Ok (identity_matches e [a] [])
    | Payload.RewardClaimed encoded => '(a, _) ← decode_reward encoded; Ok (identity_matches e [a] [])
    | Payload.SpotGenesisApplied _ => Ok ((zlen (account_ids e) <=? 1) && is_empty (market_ids e))
    | _ => Ok false
    end;
  if (matches : bool) then Ok tt else Err identity_mismatch.

(** The asset and the market an event needs. *)
Definition required_asset (p : Payload.t) : result ReducerError (option AssetId) :=
  match p with
  | Payload.DepositCredited _ a _ _ | Payload.WithdrawalDebited _ a _ _ | Payload.SpotTransfer _ _ a _
  | Payload.SubaccountTransfer _ _ _ a _ | Payload.FeeCharged _ a _ _ _ | Payload.BuilderFeeCharged _ _ a _
  | Payload.ReferralReward _ _ a _ => Ok (Some a)
  | Payload.SpotGenesisApplied encoded => '(token, _) ← decode_spot_genesis encoded; Ok (Some token)
  | _ => Ok None
  end.
Definition required_market (p : Payload.t) : option MarketId :=
  match p with
  | Payload.FundingPaid _ m _ _ | Payload.FundingReceived _ m _ _ | Payload.MarginModeChanged _ m _ _
  | Payload.LeverageChanged _ m _ _ => Some m
  | _ => None
  end.

Definition require_asset (st : StateView) (id : AssetId) : result ReducerError unit :=
  key ← map_err (fun _ => mkReducerError "account_state.codec_error" "asset prerequisite key construction failed") (asset_key id);
  l ← bt_get key st ?? mkReducerError "account_state.asset_prerequisite_missing" "asset prerequisite is missing";
  _ ← map_err (fun _ => mkReducerError "account_state.asset_prerequisite_invalid" "asset prerequisite is corrupt or key mismatched")
        (plain_decode_at (R := AssetContextCurrentRecordV1) key l);
  Ok tt.

Definition require_market (st : StateView) (id : MarketId) : result ReducerError unit :=
  key ← map_err (fun _ => mkReducerError "account_state.codec_error" "market prerequisite key construction failed") (market_key id);
  l ← bt_get key st ?? mkReducerError "account_state.market_prerequisite_missing" "market prerequisite is missing";
  market ← map_err (fun _ => mkReducerError "account_state.market_prerequisite_invalid" "market prerequisite is corrupt or key mismatched")
             (plain_decode_at (R := MarketCurrentRecordV1) key l);
  if negb (bool_decide (mk_metadata_resolution market = Exact))
  then Err (mkReducerError "account_state.market_metadata_unresolved" "market prerequisite metadata is unresolved") else Ok tt.

Definition validate_prerequisites (st : StateView) (e : Envelope) : result ReducerError unit :=
  asset ← required_asset (payload e);
  _ ← match asset with Some a => require_asset st a | None => Ok tt end;
  match required_market (payload e) with Some m => require_market st m | None => Ok tt end.

Definition fact_subject (p : Payload.t) : result ReducerError (option AssetId * option VaultId) :=
  match p with
  | Payload.DepositCredited _ a _ _ | Payload.WithdrawalDebited _ a _ _ | Payload.SpotTransfer _ _ a _
  | Payload.SubaccountTransfer _ _ _ a _ | Payload.FeeCharged _ a _ _ _ | Payload.BuilderFeeCharged _ _ a _
  | Payload.ReferralReward _ _ a _ => Ok (Some a, None)
  | Payload.VaultDeposit v _ _ _ | Payload.VaultWithdrawal v _ _ _ => Ok (None, Some v)
  | Payload.PerpTransfer _ _ _ | Payload.FundingPaid _ _ _ _ | Payload.FundingReceived _ _ _ _
  | Payload.AccountModeChanged _ _ _ | Payload.MarginModeChanged _ _ _ _ | Payload.LeverageChanged _ _ _ _
  | Payload.InternalTransfer _ | Payload.AccountClassTransfer _ | Payload.RewardClaimed _ => Ok (None, None)
  | Payload.SpotGenesisApplied encoded => '(token, _) ← decode_spot_genesis encoded; Ok (Some token, None)
  | _ => Err unsupported_account_event
  end.

Definition fact_from_event (e : Envelope) : result ReducerError AccountFactRecordV1 :=
  '(asset, vault) ← fact_subject (payload e);
  let record := mkFact (event_id e) (event_kind e) (account_ids e) (market_ids e) asset vault (ev_block_height e)
                  (payload_hash e) ACCOUNT_VERSION in
  _ ← map_err codec_error (check (rec_validate record));
  Ok record.

(** The scopes debited and credited by a transfer between account classes. *)
Definition class_scopes (to_perp : bool) : AccountQuoteFlowScopeV1 * AccountQuoteFlowScopeV1 :=
  if to_perp then (SpotClassQuote, DefaultPerpQuote) else (DefaultPerpQuote, SpotClassQuote).

(** The updates of the current records, in the order they are pushed. *)
Definition payload_mutations (st : StateView) (e : Envelope) : result ReducerError (list StateMutation) :=
  let quantity := quantity_flow_mutation st (event_id e) (ev_block_height e) in
  let quote := quote_flow_mutation st (event_id e) (ev_block_height e) in
  let principal := vault_principal_mutation st (event_id e) (ev_block_height e) in
  let shares := vault_share_mutation st (event_id e) (ev_block_height e) in
  let relation := vault_relation_mutation st (event_id e) (ev_block_height e) in
  match payload e with
  | Payload.DepositCredited a asset amount _ => m ← quantity a (ExternalAsset asset) amount Credit; Ok [m]
  | Payload.WithdrawalDebited a asset amount _ => m ← quantity a (ExternalAsset asset) amount Debit; Ok [m]
  | Payload.SpotTransfer from to asset amount =>
      m1 ← quantity from (SpotTransferAsset asset) amount Debit;
      m2 ← quantity to (SpotTransferAsset asset) amount Credit;
      Ok [m1; m2]
  | Payload.PerpTransfer from to amount =>
      m1 ← quote from DefaultPerpQuote amount Debit;
      m2 ← quote to DefaultPerpQuote amount Credit;
      Ok [m1; m2]
  | Payload.SubaccountTransfer master from to asset amount =>
      m1 ← quantity from (SubaccountTransferAsset asset) amount Debit;
      m2 ← quantity to (SubaccountTransferAsset asset) amount Credit;
      m3 ← subaccount_relation_mutation st (event_id e) (ev_block_height e) master from to;
      Ok [m1; m2; m3]
  | Payload.VaultDeposit vault a amount issued =>
      m1 ← quote a (VaultPrincipal vault) amount Debit;
      m2 ← quantity a (VaultShares vault) issued Credit;
      m3 ← principal vault amount Credit;
      m4 ← shares vault issued Credit;
      m5 ← relation a vault;
      Ok [m1; m2; m3; m4; m5]
  | Payload.VaultWithdrawal vault a amount redeemed =>
      m1 ← quote a (VaultPrincipal vault) amount Credit;
      m2 ← quantity a (VaultShares vault) redeemed Debit;
      m3 ← principal vault amount Debit;
      m4 ← shares vault redeemed Debit;
      m5 ← relation a vault;
      Ok [m1; m2; m3; m4; m5]
  | Payload.FeeCharged a asset amount _ fee_type =>
      m ← quantity a (FeeAsset asset) amount (if bool_decide (fee_type = MakerRebate) then Credit else Debit);
      Ok [m]
  | Payload.BuilderFeeCharged a builder asset amount =>
      m1 ← quantity a (BuilderFeeAsset asset) amount Debit;
      m2 ← quantity builder (BuilderFeeAsset asset) amount Credit;
      Ok [m1; m2]
  | Payload.FundingPaid a market amount _ => m ← quote a (MarketFunding market) amount Debit; Ok [m]
  | Payload.FundingReceived a market amount _ => m ← quote a (MarketFunding market) amount Credit; Ok [m]
  | Payload.ReferralReward _ referrer asset amount =>
      m ← quantity referrer (ReferralRewardAsset asset) amount Credit; Ok [m]
  | Payload.AccountModeChanged a previous new =>
      m ← account_mode_mutation st (event_id e) (ev_block_height e) a previous new; Ok [m]
  | Payload.MarginModeChanged a market previous new =>
      m ← margin_mode_mutation st (event_id e) (ev_block_height e) a market previous new; Ok [m]
  | Payload.LeverageChanged a market previous new =>
      m ← leverage_mutation st (event_id e) (ev_block_height e) a market previous new; Ok [m]
  | Payload.InternalTransfer encoded =>
      '(from, to, amount, fee) ← decode_internal encoded;
      debit ← map_err flow_error (Decimal.checked_add amount fee);
      m1 ← quote from DefaultPerpQuote debit Debit;
      m2 ← quote to DefaultPerpQuote amount Credit;
      Ok [m1; m2]
  | Payload.AccountClassTransfer encoded =>
      '(a, amount, to_perp) ← decode_class_transfer encoded;
      m1 ← quote a (class_scopes to_perp).1 amount Debit;
      m2 ← quote a (class_scopes to_perp).2 amount Credit;
      Ok [m1; m2]
  | Payload.RewardClaimed encoded =>
      '(a, amount) ← decode_reward encoded;
      m ← quote a RewardClaimedQuote amount Credit;
      Ok [m]
  | Payload.SpotGenesisApplied encoded =>
      '(token, amount) ← decode_spot_genesis encoded;
      match account_ids e with
      | [a] => m ← quantity a (SpotGenesisAsset token) amount Credit; Ok [m]
      | _ => Ok []
      end
  | _ => Err unsupported_account_event
  end.

Fixpoint unique_keys (seen : btmap StateKey unit) (ms : list StateMutation) : bool :=
  match ms with
  | [] => true
  | m :: ms => if bt_contains (mutation_key m) seen then false else unique_keys (bt_insert (mutation_key m) tt seen) ms
  end.
Definition ensure_unique_mutation_keys (ms : list StateMutation) : result ReducerError unit :=
  if unique_keys [] ms then Ok tt
  else Err (mkReducerError "account_state.duplicate_mutation_key" "account event produced duplicate mutation keys").

Definition account_reduce (st : StateView) (e : Envelope) : result ReducerError (list StateMutation) :=
  if negb (account_supports e) then Err unsupported_account_event else
  _ ← validate_event_identities e;
  _ ← validate_prerequisites st e;
  fact_key ← map_err codec_error (account_fact_key (event_id e));
  if bt_contains fact_key st
  then Err (mkReducerError "account_state.event_identity_collision" "account event identity is already present") else
  fact ← fact_from_event e;
  put ← put_record fact_key fact;
  ms ← payload_mutations st e;
  _ ← ensure_unique_mutation_keys (put :: ms);
  Ok (put :: ms).

Inductive CanonicalAccountReducerV1 := AccountReducer.

#[global] Instance account_reducer : EventReducer Payload.t CanonicalAccountReducerV1 := {
  reducer_version _ := ACCOUNT_VERSION;
  supports _ := account_supports;
  reduce _ st e _ := account_reduce st e;
  validate_block_delta _ := default_validate_block_delta default_validate_block;
}.
End reducer.
