(* ===== verification/Orders.v ===== *)
(** * Orders: [order.rs]

    The life of an order is kept as one current record per market and order:
    accepted, resting, modified, partially filled, and finally filled or
    cancelled. Every event also leaves a fact and a transition record with
    the hashes of the record before and after it. *)

From Stdlib Require Import Strings.Byte Strings.String.
From stdpp Require Import sorting.
From S2P Require Import Prelude Ordering BTreeMap Bytes FixedPoint Ids OrderBook Store StateImage Blocks Ledger Payloads Records Opaque Markets Accounts.

(** ** Errors *)

Definition order_codec_error (e : RecordCodecError) : ReducerError :=
  match e with
  | InvalidRecordKey => mkReducerError "order_state.codec_invalid_key" "order state key encoding failed"
  | RecordLimitExceeded => mkReducerError "order_state.codec_limit_exceeded" "order state record exceeds its deterministic bound"
  | Codec | NonCanonical | InvalidRecord | KeyMismatch => mkReducerError "order_state.codec_failed" "order state record encoding failed"
  end.
Definition order_reason_code (e : RecordCodecError) : string :=
  match e with
  | InvalidRecordKey => "order_state.codec.invalid_key"
  | Codec => "order_state.codec.decode"
  | NonCanonical => "order_state.codec.noncanonical"
  | InvalidRecord => "order_state.codec.invalid_record"
  | KeyMismatch => "order_state.codec.key_mismatch"
  | RecordLimitExceeded => "order_state.codec.limit_exceeded"
  end.
Definition order_arithmetic : ReducerError :=
  mkReducerError "order_state.arithmetic_overflow" "order quantity arithmetic overflowed".
Definition order_identity_mismatch (message : string) : ReducerError := mkReducerError "order_state.identity_mismatch" message.
Definition remaining_mismatch (message : string) : ReducerError := mkReducerError "order_state.remaining_mismatch" message.
Definition order_invalid_event : ReducerError :=
  mkReducerError "order_state.invalid_event" "order reducer received a non-order payload".

(** ** Life cycle *)

Module Lifecycle.
Inductive t := Accepted | Rested | Modified | PartiallyFilled | Filled | Cancelled.
#[global] Instance t_eq_dec : EqDecision t.
Proof. solve_decision. Defined.

Definition as_wire_name (l : t) : string :=
  match l with
  | Accepted => "accepted" | Rested => "rested" | Modified => "modified" | PartiallyFilled => "partially_filled"
  | Filled => "filled" | Cancelled => "cancelled"
  end.
Definition parse (value : string) : result RecordCodecError t :=
  if bool_decide (value = "accepted"%string) then Ok Accepted else
  if bool_decide (value = "rested"%string) then Ok Rested else
  if bool_decide (value = "modified"%string) then Ok Modified else
  if bool_decide (value = "partially_filled"%string) then Ok PartiallyFilled else
  if bool_decide (value = "filled"%string) then Ok Filled else
  if bool_decide (value = "cancelled"%string) then Ok Cancelled else
  Err InvalidRecord.
Definition is_terminal (l : t) : bool := match l with Filled | Cancelled => true | _ => false end.
Definition rests_on_book (l : t) : bool := negb (is_terminal l).
End Lifecycle.

Definition transition_allowed (l : Lifecycle.t) (k : EventKind) : bool :=
  match k with
  | OrderRested => match l with Lifecycle.Accepted | Lifecycle.Modified => true | _ => false end
  | OrderModified =>
      match l with Lifecycle.Accepted | Lifecycle.Rested | Lifecycle.Modified | Lifecycle.PartiallyFilled => true | _ => false end
  | OrderPartiallyFilled | OrderFilled | OrderCancelled | NonUserOrderCancelled => negb (Lifecycle.is_terminal l)
  | _ => false
  end.

Definition is_order_kind (k : EventKind) : bool :=
  match k with
  | OrderAccepted | OrderRested | OrderModified | OrderPartiallyFilled | OrderFilled | OrderCancelled
  | NonUserOrderCancelled | OrderRejected => true
  | _ => false
  end.
Definition parse_order_kind (value : string) : result RecordCodecError EventKind :=
  k ← kind_try_from value ?? InvalidRecord;
  if is_order_kind k then Ok k else Err InvalidRecord.

Inductive OrderTransitionStatusV1 := TransitionApplied | RecordedRejection.
Definition transition_status_wire (s : OrderTransitionStatusV1) : string :=
  match s with TransitionApplied => "applied" | RecordedRejection => "recorded_rejection" end.
Definition parse_transition_status (value : string) : result RecordCodecError OrderTransitionStatusV1 :=
  if bool_decide (value = "applied"%string) then Ok TransitionApplied else
  if bool_decide (value = "recorded_rejection"%string) then Ok RecordedRejection else
  Err InvalidRecord.

(** ** Keys *)

Definition ORDER_VERSION : string := "hyperliquid-alpha-desk-canonical-order@1.0.0".
Definition ORDER_FACT_NAMESPACE : string := "order-fact.v1".
Definition ORDER_NAMESPACE : string := "order-current.v1".
Definition ORDER_TRANSITION_NAMESPACE : string := "order-transition.v1".
Definition ORDER_FACT_SCHEMA : string := "hyperliquid-alpha-desk/order-fact/v1".
Definition ORDER_SCHEMA : string := "hyperliquid-alpha-desk/order-current/v1".
Definition ORDER_TRANSITION_SCHEMA : string := "hyperliquid-alpha-desk/order-transition/v1".
Definition CURRENT_HASH_CONTEXT : string := "hyperliquid-alpha-desk/order-current-hash/v1".

(** [extend_frame] of each part in turn. *)
Definition frames (parts : list bytes) : bytes := concat (frame 8 <$> parts).
Definition current_identity_key (m : MarketId) (o : OrderId) : bytes := x00 :: frames [as_bytes m; as_bytes o].
Definition order_identity_key (m : MarketId) (o : OrderId) (e : EventId) : bytes := current_identity_key m o ++ frames [as_bytes e].
Definition rejection_identity_key (a : Address) (c : ClientOrderId) (e : EventId) : bytes :=
  x01 :: frames [a; as_bytes c; as_bytes e].
Definition order_state_key (ns : string) (key : bytes) : result RecordCodecError StateKey :=
  map_err (fun _ => InvalidRecordKey) (key_try_new ns key).

(** The key of a fact or a transition by what it is about. *)
Definition identity_key (ns : string) (m : option MarketId) (o : option OrderId) (c : option ClientOrderId) (a : Address) (e : EventId)
  : result RecordCodecError StateKey :=
  match m, o, c with
  | Some m, Some o, None => order_state_key ns (order_identity_key m o e)
  | None, None, Some c => order_state_key ns (rejection_identity_key a c e)
  | _, _, _ => Err InvalidRecord
  end.

(** ** Facts *)

Record OrderFactRecordV1 := mkOrderFact {
  of_event_id : EventId;
  of_event_kind : EventKind;
  of_order_id : option OrderId;
  of_client_order_id : option ClientOrderId;
  of_account_id : Address;
  of_market_id : option MarketId;
  of_block_height : BlockHeight;
  of_payload_hash : Hash;
}.
Record OrderFactWire := mkOrderFactWire {
  ofw_schema : string;
  ofw_event_id : string;
  ofw_event_kind : string;
  ofw_order_id : option string;
  ofw_client_order_id : option string;
  ofw_account_id : string;
  ofw_market_id : option string;
  ofw_block_height : Z;
  ofw_payload_blake3 : string;
}.
#[global] Instance OrderFactWire_eq_dec : EqDecision OrderFactWire.
Proof. solve_decision. Defined.

Definition valid_identity_shape (r : OrderFactRecordV1) : bool :=
  match of_event_kind r with
  | OrderRejected => negb (is_set (of_order_id r)) && negb (is_set (of_market_id r)) && is_set (of_client_order_id r)
  | k => is_order_kind k && is_set (of_order_id r) && is_set (of_market_id r) && negb (is_set (of_client_order_id r))
  end.

#[global] Instance order_fact_record `{Hex} : StateRecord OrderFactRecordV1 OrderFactWire := {
  to_wire r := mkOrderFactWire ORDER_FACT_SCHEMA (of_event_id r) (as_wire_name (of_event_kind r)) (of_order_id r)
                 (of_client_order_id r) (to_api_string (of_account_id r)) (of_market_id r) (of_block_height r)
                 (hex_encode (of_payload_hash r));
  from_wire w :=
    if negb (bool_decide (ofw_schema w = ORDER_FACT_SCHEMA)) then Err InvalidRecord else
    k ← parse_order_kind (ofw_event_kind w);
    event ← field (string_id_new (ofw_event_id w));
    order ← parse_optional string_id_new (ofw_order_id w);
    client ← parse_optional string_id_new (ofw_client_order_id w);
    account ← field (parse_api (ofw_account_id w));
    market ← parse_optional string_id_new (ofw_market_id w);
    hash ← record_hash (ofw_payload_blake3 w);
    Ok (mkOrderFact event k order client account market (ofw_block_height w) hash);
  rec_validate := valid_identity_shape;
  rec_key r := identity_key ORDER_FACT_NAMESPACE (of_market_id r) (of_order_id r) (of_client_order_id r) (of_account_id r) (of_event_id r);
}.

(** ** Current orders *)

Record OrderCurrentRecordV1 := mkOrder {
  oc_order_id : OrderId;
  oc_account_id : Address;
  oc_market_id : MarketId;
  oc_side : OrderSide;
  oc_lifecycle : Lifecycle.t;
  oc_limit_price : Price;
  oc_accepted_quantity : Quantity;
  oc_filled_quantity : Quantity;
  oc_remaining_quantity : Quantity;
  oc_accepted_event_id : EventId;
  oc_last_event_id : EventId;
  oc_last_block_height : BlockHeight;
}.
Record OrderCurrentWire := mkOrderWire {
  ocw_schema : string;
  ocw_order_id : string;
  ocw_account_id : string;
  ocw_market_id : string;
  ocw_side : string;
  ocw_lifecycle : string;
  ocw_limit_price : string;
  ocw_accepted_quantity : string;
  ocw_filled_quantity : string;
  ocw_remaining_quantity : string;
  ocw_accepted_event_id : string;
  ocw_last_event_id : string;
  ocw_last_block_height : Z;
}.
#[global] Instance OrderCurrentWire_eq_dec : EqDecision OrderCurrentWire.
Proof. solve_decision. Defined.

Definition order_validate (r : OrderCurrentRecordV1) : bool :=
  if (Decimal.raw (oc_limit_price r) <=? 0) || (Decimal.raw (oc_accepted_quantity r) <=? 0) ||
     (Decimal.raw (oc_filled_quantity r) <? 0) || (Decimal.raw (oc_remaining_quantity r) <? 0)
  then false else
  match Decimal.checked_add (oc_filled_quantity r) (oc_remaining_quantity r) with
  | Err _ => false
  | Ok total =>
      let filled_remaining_invalid :=
        match oc_lifecycle r with Lifecycle.Filled => negb (Decimal.raw (oc_remaining_quantity r) =? 0) | _ => false end in
      negb (negb (Decimal.eq total (oc_accepted_quantity r)) || filled_remaining_invalid ||
            negb (Lifecycle.is_terminal (oc_lifecycle r)) && (Decimal.raw (oc_remaining_quantity r) <=? 0))
  end.

Definition order_key (m : MarketId) (o : OrderId) : result RecordCodecError StateKey :=
  order_state_key ORDER_NAMESPACE (current_identity_key m o).

#[global] Instance order_record `{Hex} : StateRecord OrderCurrentRecordV1 OrderCurrentWire := {
  to_wire r := mkOrderWire ORDER_SCHEMA (oc_order_id r) (to_api_string (oc_account_id r)) (oc_market_id r)
                 (side_as_wire_name (oc_side r)) (Lifecycle.as_wire_name (oc_lifecycle r)) (Decimal.to_string (oc_limit_price r))
                 (Decimal.to_string (oc_accepted_quantity r)) (Decimal.to_string (oc_filled_quantity r))
                 (Decimal.to_string (oc_remaining_quantity r)) (oc_accepted_event_id r) (oc_last_event_id r)
                 (oc_last_block_height r);
  from_wire w :=
    if negb (bool_decide (ocw_schema w = ORDER_SCHEMA)) then Err InvalidRecord else
    order ← field (string_id_new (ocw_order_id w));
    account ← field (parse_api (ocw_account_id w));
    market ← field (string_id_new (ocw_market_id w));
    side ← field (side_parse_wire (ocw_side w));
    lifecycle ← Lifecycle.parse (ocw_lifecycle w);
    price ← field (Decimal.from_str (ocw_limit_price w));
    accepted ← field (Decimal.from_str (ocw_accepted_quantity w));
    filled ← field (Decimal.from_str (ocw_filled_quantity w));
    remaining ← field (Decimal.from_str (ocw_remaining_quantity w));
    accepted_event ← field (string_id_new (ocw_accepted_event_id w));
    last_event ← field (string_id_new (ocw_last_event_id w));
    Ok (mkOrder order account market side lifecycle price accepted filled remaining accepted_event last_event
          (ocw_last_block_height w));
  rec_validate := order_validate;
  rec_key r := order_key (oc_market_id r) (oc_order_id r);
}.

(** [OrderCurrentRecordV1::try_resting] *)
Definition try_resting (r : OrderCurrentRecordV1) : option RestingOrder :=
  if negb (Lifecycle.rests_on_book (oc_lifecycle r)) || (Decimal.raw (oc_remaining_quantity r) <=? 0) then None else
  Some (RestingOrder.with_time_millis (oc_last_block_height r) (RestingOrder.with_account (oc_account_id r)
    (RestingOrder.with_original (oc_accepted_quantity r)
      (RestingOrder.new (oc_order_id r) (oc_side r) (oc_limit_price r) (oc_remaining_quantity r) (oc_last_block_height r))))).

(** ** Transitions *)

Record OrderTransitionRecordV1 := mkTransition {
  ot_event_id : EventId;
  ot_event_kind : EventKind;
  ot_order_id : option OrderId;
  ot_client_order_id : option ClientOrderId;
  ot_account_id : Address;
  ot_market_id : option MarketId;
  ot_block_height : BlockHeight;
  ot_payload_hash : Hash;
  ot_prior_state_hash : option Hash;
  ot_result_state_hash : option Hash;
  ot_rule_version : string;
  ot_status : OrderTransitionStatusV1;
}.
Record OrderTransitionWire := mkTransitionWire {
  otw_schema : string;
  otw_event_id : string;
  otw_event_kind : string;
  otw_order_id : option string;
  otw_client_order_id : option string;
  otw_account_id : string;
  otw_market_id : option string;
  otw_block_height : Z;
  otw_payload_blake3 : string;
  otw_prior_state_blake3 : option string;
  otw_result_state_blake3 : option string;
  otw_rule_version : string;
  otw_status : string;
}.
#[global] Instance OrderTransitionWire_eq_dec : EqDecision OrderTransitionWire.
Proof. solve_decision. Defined.

Definition transition_validate (r : OrderTransitionRecordV1) : bool :=
  if negb (bool_decide (ot_rule_version r = ORDER_VERSION)) then false else
  let is_rejected := match ot_event_kind r with OrderRejected => true | _ => false end in
  let is_accepted := match ot_event_kind r with OrderAccepted => true | _ => false end in
  match ot_status r with
  | TransitionApplied =>
      negb (is_rejected || negb (is_set (ot_order_id r)) || negb (is_set (ot_market_id r)) || is_set (ot_client_order_id r) ||
            negb (is_set (ot_result_state_hash r)) || is_accepted && is_set (ot_prior_state_hash r) ||
            negb is_accepted && negb (is_set (ot_prior_state_hash r)))
  | RecordedRejection =>
      negb (negb is_rejected || is_set (ot_order_id r) || is_set (ot_market_id r) || negb (is_set (ot_client_order_id r)) ||
            is_set (ot_prior_state_hash r) || is_set (ot_result_state_hash r))
  end.

(** [map(decode_hash).transpose()] *)
Definition optional_hash `{Hex} (o : option string) : result RecordCodecError (option Hash) :=
  match o with Some v => h ← record_hash v; Ok (Some h) | None => Ok None end.

#[global] Instance order_transition_record `{Hex} : StateRecord OrderTransitionRecordV1 OrderTransitionWire := {
  to_wire r := mkTransitionWire ORDER_TRANSITION_SCHEMA (ot_event_id r) (as_wire_name (ot_event_kind r)) (ot_order_id r)
                 (ot_client_order_id r) (to_api_string (ot_account_id r)) (ot_market_id r) (ot_block_height r)
                 (hex_encode (ot_payload_hash r)) (hex_encode <$> ot_prior_state_hash r) (hex_encode <$> ot_result_state_hash r)
                 (ot_rule_version r) (transition_status_wire (ot_status r));
  from_wire w :=
    if negb (bool_decide (otw_schema w = ORDER_TRANSITION_SCHEMA)) then Err InvalidRecord else
    event ← field (string_id_new (otw_event_id w));
    k ← parse_order_kind (otw_event_kind w);
    order ← parse_optional string_id_new (otw_order_id w);
    client ← parse_optional string_id_new (otw_client_order_id w);
    account ← field (parse_api (otw_account_id w));
    market ← parse_optional string_id_new (otw_market_id w);
    hash ← record_hash (otw_payload_blake3 w);
    prior ← optional_hash (otw_prior_state_blake3 w);
    after ← optional_hash (otw_result_state_blake3 w);
    status ← parse_transition_status (otw_status w);
    Ok (mkTransition event k order client account market (otw_block_height w) hash prior after (otw_rule_version w) status);
  rec_validate := transition_validate;
  rec_key r := identity_key ORDER_TRANSITION_NAMESPACE (ot_market_id r) (ot_order_id r) (ot_client_order_id r) (ot_account_id r)
                 (ot_event_id r);
}.

(** ** Payloads *)

Definition positive_price (value : Price) : result ReducerError unit :=
  if Decimal.raw value <=? 0 then Err (mkReducerError "order_state.invalid_price" "order price must be positive") else Ok tt.
Definition positive_quantity (value : Quantity) : result ReducerError unit :=
  if Decimal.raw value <=? 0 then Err (mkReducerError "order_state.invalid_quantity" "order quantity must be positive") else Ok tt.

(** The order a payload is about, for the payloads that name one. *)
Definition payload_order_id (p : Payload.t) : option OrderId :=
  match p with
  | Payload.OrderAccepted o _ _ _ _ _ | Payload.OrderRested o _ _ _ | Payload.OrderModified o _ _ _ _
  | Payload.OrderPartiallyFilled o _ _ _ _ | Payload.OrderFilled o _ _ _ | Payload.OrderCancelled o _ _ => Some o
  | _ => None
  end.

Section payloads.
Context `{PayloadWire}.

Definition validate_payload_semantics (p : Payload.t) : result ReducerError unit :=
  match p with
  | Payload.OrderAccepted _ _ _ _ limit_price quantity => _ ← positive_price limit_price; positive_quantity quantity
  | Payload.OrderRested _ _ remaining limit_price => _ ← positive_price limit_price; positive_quantity remaining
  | Payload.OrderModified _ previous_price new_price previous_quantity new_quantity =>
      _ ← positive_price previous_price;
      _ ← positive_price new_price;
      _ ← positive_quantity previous_quantity;
      _ ← positive_quantity new_quantity;
      if Decimal.eq previous_price new_price && Decimal.eq previous_quantity new_quantity
      then Err (mkReducerError "order_state.invalid_modification" "order modification must change price or quantity")
      else Ok tt
  | Payload.OrderPartiallyFilled _ _ fill_price fill_quantity remaining =>
      _ ← positive_price fill_price; _ ← positive_quantity fill_quantity; positive_quantity remaining
  | Payload.OrderFilled _ _ fill_price fill_quantity => _ ← positive_price fill_price; positive_quantity fill_quantity
  | Payload.OrderCancelled _ _ remaining =>
      if Decimal.raw remaining <? 0
      then Err (mkReducerError "order_state.invalid_quantity" "order quantity must be nonnegative") else Ok tt
  | Payload.NonUserOrderCancelled encoded => _ ← decode_non_user_cancel encoded; Ok tt
  | Payload.OrderRejected _ _ reason_code reason =>
      if negb (valid_text reason_code 128) || negb (valid_text reason 1024)
      then Err (mkReducerError "order_state.invalid_rejection" "order rejection reason contract is invalid") else Ok tt
  | _ => Err order_invalid_event
  end.

Definition order_identity (p : Payload.t) : result ReducerError OrderId :=
  match p with
  | Payload.NonUserOrderCancelled encoded => '(id, _) ← decode_non_user_cancel encoded; Ok id
  | p => payload_order_id p ?? order_invalid_event
  end.

(** ** Transitions *)

(** The current record with another life cycle, price and quantities. *)
Definition moved_order (c : OrderCurrentRecordV1) (l : Lifecycle.t) (price : Price) (accepted filled remaining : Quantity)
  : OrderCurrentRecordV1 :=
  mkOrder (oc_order_id c) (oc_account_id c) (oc_market_id c) (oc_side c) l price accepted filled remaining
    (oc_accepted_event_id c) (oc_last_event_id c) (oc_last_block_height c).
(** A cancellation of either kind. *)
Definition cancel_order (c : OrderCurrentRecordV1) (o : OrderId) (remaining : Quantity) : result ReducerError OrderCurrentRecordV1 :=
  if negb (bool_decide (o = oc_order_id c))
  then Err (order_identity_mismatch "cancelled order identity must match current state") else
  if negb (Decimal.eq remaining (oc_remaining_quantity c))
  then Err (remaining_mismatch "cancellation remainder must match current state") else
  Ok (moved_order c Lifecycle.Cancelled (oc_limit_price c) (oc_accepted_quantity c) (oc_filled_quantity c) (oc_remaining_quantity c)).
Definition stamped_order (c : OrderCurrentRecordV1) (e : Envelope) : OrderCurrentRecordV1 :=
  mkOrder (oc_order_id c) (oc_account_id c) (oc_market_id c) (oc_side c) (oc_lifecycle c) (oc_limit_price c)
    (oc_accepted_quantity c) (oc_filled_quantity c) (oc_remaining_quantity c) (oc_accepted_event_id c)
    (event_id e) (ev_block_height e).

Definition order_sum (r : result ValueError Quantity) : result ReducerError Quantity := map_err (fun _ => order_arithmetic) r.

Definition transition_payload (c : OrderCurrentRecordV1) (p : Payload.t) : result ReducerError OrderCurrentRecordV1 :=
  match p with
  | Payload.OrderRested o m remaining limit_price =>
      if negb (bool_decide (o = oc_order_id c)) || negb (bool_decide (m = oc_market_id c))
      then Err (order_identity_mismatch "rested order identity must match current state") else
      if negb (Decimal.eq limit_price (oc_limit_price c)) || negb (Decimal.eq remaining (oc_remaining_quantity c))
      then Err (remaining_mismatch "rested payload must match the exact current order") else
      Ok (moved_order c Lifecycle.Rested (oc_limit_price c) (oc_accepted_quantity c) (oc_filled_quantity c) (oc_remaining_quantity c))
  | Payload.OrderModified o previous_price new_price previous_quantity new_quantity =>
      if negb (bool_decide (o = oc_order_id c))
      then Err (order_identity_mismatch "modified order identity must match current state") else
      if negb (Decimal.eq previous_price (oc_limit_price c)) || negb (Decimal.eq previous_quantity (oc_remaining_quantity c))
      then Err (mkReducerError "order_state.previous_state_mismatch" "modification previous values must match current state") else
      accepted ← order_sum (Decimal.checked_add (oc_filled_quantity c) new_quantity);
      Ok (moved_order c Lifecycle.Modified new_price accepted (oc_filled_quantity c) new_quantity)
  | Payload.OrderPartiallyFilled o _ _ fill_quantity rest =>
      if negb (bool_decide (o = oc_order_id c))
      then Err (order_identity_mismatch "partial fill identity must match current state") else
      remaining ← order_sum (Decimal.checked_sub (oc_remaining_quantity c) fill_quantity);
      if Decimal.raw remaining <? 0
      then Err (mkReducerError "order_state.overfill" "partial fill exceeds remaining quantity") else
      if negb (Decimal.eq remaining rest)
      then Err (remaining_mismatch "partial fill remainder does not match checked arithmetic") else
      if Decimal.raw remaining =? 0
      then Err (remaining_mismatch "partial fill must leave positive remaining quantity") else
      filled ← order_sum (Decimal.checked_add (oc_filled_quantity c) fill_quantity);
      Ok (moved_order c Lifecycle.PartiallyFilled (oc_limit_price c) (oc_accepted_quantity c) filled remaining)
  | Payload.OrderFilled o _ _ fill_quantity =>
      if negb (bool_decide (o = oc_order_id c))
      then Err (order_identity_mismatch "terminal fill identity must match current state") else
      if ltb (oc_remaining_quantity c) fill_quantity
      then Err (mkReducerError "order_state.overfill" "terminal fill exceeds remaining quantity") else
      if negb (Decimal.eq fill_quantity (oc_remaining_quantity c))
      then Err (remaining_mismatch "terminal fill must consume exact remaining quantity") else
      filled ← order_sum (Decimal.checked_add (oc_filled_quantity c) fill_quantity);
      remaining ← order_sum (Decimal.checked_sub (oc_remaining_quantity c) (oc_remaining_quantity c));
      Ok (moved_order c Lifecycle.Filled (oc_limit_price c) (oc_accepted_quantity c) filled remaining)
  | Payload.OrderCancelled o _ remaining => cancel_order c o remaining
  | Payload.NonUserOrderCancelled encoded => '(o, remaining) ← decode_non_user_cancel encoded; cancel_order c o remaining
  | Payload.OrderAccepted _ _ _ _ _ _ | Payload.OrderRejected _ _ _ _ =>
      Err (mkReducerError "order_state.invalid_event" "invalid order transition payload")
  | _ => Err order_invalid_event
  end.

Definition apply_transition (c : OrderCurrentRecordV1) (e : Envelope) : result ReducerError OrderCurrentRecordV1 :=
  if negb (transition_allowed (oc_lifecycle c) (event_kind e))
  then Err (mkReducerError "order_state.invalid_transition" "order lifecycle transition is not allowed") else
  next ← transition_payload c (payload e);
  Ok (stamped_order next e).
End payloads.

(** ** The reducer *)

Class OrderJson := {
  json_order_fact :: Json OrderFactWire;
  json_order :: Json OrderCurrentWire;
  json_order_transition :: Json OrderTransitionWire;
}.

Definition order_supports (e : Envelope) : bool := bool_decide (schema_version e = "1.0.0"%string) && is_order_kind (event_kind e).

Definition reject_collision (st : StateView) (fact_key transition_key : StateKey) : result ReducerError unit :=
  if bt_contains fact_key st || bt_contains transition_key st
  then Err (mkReducerError "order_state.event_id_collision" "order event identity is already present in canonical state") else Ok tt.

Section reducer.
Context `{Hex} `{OrderJson} `{PayloadWire} `{Blake3}.

Definition hash_current (l : bytes) : Hash := derive_key_hash CURRENT_HASH_CONTEXT l.

Definition order_put {R W} `{StateRecord R W} `{Json W} (key : StateKey) (r : R) : result ReducerError StateMutation :=
  l ← map_err order_codec_error (record_encode r);
  Ok (Put key l).

Definition reduce_rejection (st : StateView) (e : Envelope) (client : ClientOrderId) (account : Address)
  : result ReducerError (list StateMutation) :=
  if negb (is_empty (market_ids e)) || negb (bool_decide (account_ids e = [account]))
  then Err (order_identity_mismatch "rejection payload and envelope identities must match exactly") else
  let fact := mkOrderFact (event_id e) OrderRejected None (Some client) account None (ev_block_height e) (payload_hash e) in
  fact_key ← map_err order_codec_error (rec_key fact);
  let transition := mkTransition (event_id e) OrderRejected None (Some client) account None (ev_block_height e) (payload_hash e)
                      None None ORDER_VERSION RecordedRejection in
  transition_key ← map_err order_codec_error (rec_key transition);
  _ ← reject_collision st fact_key transition_key;
  put_fact ← order_put fact_key fact;
  put_transition ← order_put transition_key transition;
  Ok [put_fact; put_transition].

(** The record of an order after an event, with the hash of the one before. *)
Definition next_order (existing : option OrderCurrentRecordV1) (e : Envelope) (o : OrderId) (m : MarketId) (a : Address)
  : result ReducerError (option Hash * OrderCurrentRecordV1) :=
  match payload e with
  | Payload.OrderAccepted order account market side limit_price quantity =>
      if is_set existing
      then Err (mkReducerError "order_state.order_id_collision" "order identity is already present in canonical state") else
      if negb (bool_decide (order = o)) || negb (bool_decide (market = m)) || negb (bool_decide (account = a))
      then Err (order_identity_mismatch "accepted payload and envelope identities must match exactly") else
      filled ← order_sum (Decimal.checked_sub quantity quantity);
      Ok (None, mkOrder order account market side Lifecycle.Accepted limit_price quantity filled quantity (event_id e) (event_id e)
                  (ev_block_height e))
  | _ =>
      previous ← existing ?? mkReducerError "order_state.order_not_found" "order transition requires an accepted order";
      if negb (bool_decide (oc_account_id previous = a)) || negb (bool_decide (oc_market_id previous = m))
      then Err (order_identity_mismatch "order payload and envelope identities must match current state") else
      if Lifecycle.is_terminal (oc_lifecycle previous)
      then Err (mkReducerError "order_state.terminal_order" "terminal order state cannot transition") else
      prior ← map_err order_codec_error (record_encode previous);
      next ← apply_transition previous e;
      Ok (Some (hash_current prior), next)
  end.

Definition reduce_order_event (st : StateView) (e : Envelope) : result ReducerError (list StateMutation) :=
  o ← order_identity (payload e);
  m ← match market_ids e with
      | [m] => Ok m
      | _ => Err (order_identity_mismatch "order event requires exactly one envelope market")
      end;
  a ← match account_ids e with
      | [a] => Ok a
      | _ => Err (order_identity_mismatch "order event requires exactly one envelope account")
      end;
  current_key ← map_err order_codec_error (order_key m o);
  existing ← match bt_get current_key st with
    | Some l => r ← map_err order_codec_error (plain_decode_at (R := OrderCurrentRecordV1) current_key l); Ok (Some r)
    | None => Ok None
    end;
  '(prior, current) ← next_order existing e o m a;
  current_bytes ← map_err order_codec_error (record_encode current);
  let fact := mkOrderFact (event_id e) (event_kind e) (Some o) None a (Some m) (ev_block_height e) (payload_hash e) in
  fact_key ← map_err order_codec_error (rec_key fact);
  let transition := mkTransition (event_id e) (event_kind e) (Some o) None a (Some m) (ev_block_height e) (payload_hash e)
                      prior (Some (hash_current current_bytes)) ORDER_VERSION TransitionApplied in
  transition_key ← map_err order_codec_error (rec_key transition);
  _ ← reject_collision st fact_key transition_key;
  put_fact ← order_put fact_key fact;
  put_transition ← order_put transition_key transition;
  Ok [put_fact; Put current_key current_bytes; put_transition].

Definition order_reduce (st : StateView) (e : Envelope) : result ReducerError (list StateMutation) :=
  _ ← validate_payload_semantics (payload e);
  match payload e with
  | Payload.OrderRejected client account _ _ => reduce_rejection st e client account
  | _ => reduce_order_event st e
  end.
End reducer.

Inductive CanonicalOrderReducerV1 := OrderReducer.
#[global] Instance order_reducer `{Hex} `{OrderJson} `{PayloadWire} `{Blake3} : EventReducer Payload.t CanonicalOrderReducerV1 := {
  reducer_version _ := ORDER_VERSION;
  supports _ := order_supports;
  reduce _ st e _ := order_reduce st e;
  validate_block_delta _ := default_validate_block_delta default_validate_block;
}.
