(* ===== verification/Activations.v ===== *)
(** * Triggers and TWAPs: [trigger.rs] and [twap.rs]

    An activated trigger and a time-weighted order each have a current record
    per market and order, and leave a fact and a transition record per event.
    The two files repeat the fact and transition records with other names,
    which are one family here, indexed by the activity they belong to. *)

From Stdlib Require Import Strings.Byte Strings.String.
From stdpp Require Import sorting.
From S2P Require Import Prelude Ordering BTreeMap Bytes FixedPoint Ids OrderBook Store StateImage Blocks Ledger Payloads Records Opaque Markets Accounts Orders.

(** ** What the two files share *)

Record activity := mkActivity {
  ac_version : string;
  ac_fact_namespace : string;
  ac_namespace : string;
  ac_transition_namespace : string;
  ac_fact_schema : string;
  ac_schema : string;
  ac_transition_schema : string;
  ac_hash_context : string;
  ac_kind : EventKind -> bool;
}.
Definition trigger_activity : activity :=
  mkActivity "hyperliquid-alpha-desk-canonical-trigger@1.0.0" "trigger-fact.v1" "trigger-current.v1" "trigger-transition.v1"
    "hyperliquid-alpha-desk/trigger-fact/v1" "hyperliquid-alpha-desk/trigger-current/v1" "hyperliquid-alpha-desk/trigger-transition/v1"
    "hyperliquid-alpha-desk/trigger-current-hash/v1" (fun k => match k with TriggerOrderActivated => true | _ => false end).
Definition twap_activity : activity :=
  mkActivity "hyperliquid-alpha-desk-canonical-twap@1.0.0" "twap-fact.v1" "twap-current.v1" "twap-transition.v1"
    "hyperliquid-alpha-desk/twap-fact/v1" "hyperliquid-alpha-desk/twap-current/v1" "hyperliquid-alpha-desk/twap-transition/v1"
    "hyperliquid-alpha-desk/twap-current-hash/v1"
    (fun k => match k with TwapStarted | TwapSliceFilled | TwapCompleted => true | _ => false end).

Definition activity_key (a : activity) (m : MarketId) (o : OrderId) : result RecordCodecError StateKey :=
  order_state_key (ac_namespace a) (frames [as_bytes m; as_bytes o]).
Definition activity_event_key (ns : string) (m : MarketId) (o : OrderId) (e : EventId) : result RecordCodecError StateKey :=
  order_state_key ns (frames [as_bytes m; as_bytes o; as_bytes e]).
Definition parse_activity_kind (a : activity) (value : string) : result RecordCodecError EventKind :=
  k ← kind_try_from value ?? InvalidRecord;
  if ac_kind a k then Ok k else Err InvalidRecord.
Definition valid_reducer_version (value : string) : bool :=
  negb (bool_decide (value = EmptyString)) && negb (trim_changes value) && (zlen (as_bytes value) <=? 128).

Record ActivityFact (a : activity) := mkActivityFact {
  af_event_id : EventId;
  af_event_kind : EventKind;
  af_order_id : OrderId;
  af_account_id : Address;
  af_market_id : MarketId;
  af_block_height : BlockHeight;
  af_payload_hash : Hash;
}.
Arguments mkActivityFact {a}.
Arguments af_event_id {a}.
Arguments af_event_kind {a}.
Arguments af_order_id {a}.
Arguments af_account_id {a}.
Arguments af_market_id {a}.
Arguments af_block_height {a}.
Arguments af_payload_hash {a}.
Record ActivityFactWire := mkActivityFactWire {
  acw_schema : string;
  acw_event_id : string;
  acw_event_kind : string;
  acw_order_id : string;
  acw_account_id : string;
  acw_market_id : string;
  acw_block_height : Z;
  acw_payload_blake3 : string;
}.
#[global] Instance ActivityFactWire_eq_dec : EqDecision ActivityFactWire.
Proof. solve_decision. Defined.

#[global] Instance activity_fact_record `{Hex} (a : activity) : StateRecord (ActivityFact a) ActivityFactWire := {
  to_wire r := mkActivityFactWire (ac_fact_schema a) (af_event_id r) (as_wire_name (af_event_kind r)) (af_order_id r)
                 (to_api_string (af_account_id r)) (af_market_id r) (af_block_height r) (hex_encode (af_payload_hash r));
  from_wire w :=
    if negb (bool_decide (acw_schema w = ac_fact_schema a)) then Err InvalidRecord else
    event ← field (string_id_new (acw_event_id w));
    k ← parse_activity_kind a (acw_event_kind w);
    order ← field (string_id_new (acw_order_id w));
    account ← field (parse_api (acw_account_id w));
    market ← field (string_id_new (acw_market_id w));
    hash ← record_hash (acw_payload_blake3 w);
    Ok (mkActivityFact event k order account market (acw_block_height w) hash);
  rec_validate _ := true;
  rec_key r := activity_event_key (ac_fact_namespace a) (af_market_id r) (af_order_id r) (af_event_id r);
}.

Record ActivityTransition (a : activity) := mkActivityTransition {
  at_event_id : EventId;
  at_event_kind : EventKind;
  at_order_id : OrderId;
  at_account_id : Address;
  at_market_id : MarketId;
  at_block_height : BlockHeight;
  at_payload_hash : Hash;
  at_prior_state_hash : option Hash;
  at_result_state_hash : Hash;
  at_rule_version : string;
}.
Arguments mkActivityTransition {a}.
Arguments at_event_id {a}.
Arguments at_event_kind {a}.
Arguments at_order_id {a}.
Arguments at_account_id {a}.
Arguments at_market_id {a}.
Arguments at_block_height {a}.
Arguments at_payload_hash {a}.
Arguments at_prior_state_hash {a}.
Arguments at_result_state_hash {a}.
Arguments at_rule_version {a}.
Record ActivityTransitionWire := mkActivityTransitionWire {
  atw_schema : string;
  atw_event_id : string;
  atw_event_kind : string;
  atw_order_id : string;
  atw_account_id : string;
  atw_market_id : string;
  atw_block_height : Z;
  atw_payload_blake3 : string;
  atw_prior_state_blake3 : option string;
  atw_result_state_blake3 : string;
  atw_rule_version : string;
}.
#[global] Instance ActivityTransitionWire_eq_dec : EqDecision ActivityTransitionWire.
Proof. solve_decision. Defined.

#[global] Instance activity_transition_record `{Hex} (a : activity) : StateRecord (ActivityTransition a) ActivityTransitionWire := {
  to_wire r := mkActivityTransitionWire (ac_transition_schema a) (at_event_id r) (as_wire_name (at_event_kind r)) (at_order_id r)
                 (to_api_string (at_account_id r)) (at_market_id r) (at_block_height r) (hex_encode (at_payload_hash r))
                 (hex_encode <$> at_prior_state_hash r) (hex_encode (at_result_state_hash r)) (at_rule_version r);
  from_wire w :=
    if negb (bool_decide (atw_schema w = ac_transition_schema a)) then Err InvalidRecord else
    event ← field (string_id_new (atw_event_id w));
    k ← parse_activity_kind a (atw_event_kind w);
    order ← field (string_id_new (atw_order_id w));
    account ← field (parse_api (atw_account_id w));
    market ← field (string_id_new (atw_market_id w));
    hash ← record_hash (atw_payload_blake3 w);
    prior ← optional_hash (atw_prior_state_blake3 w);
    after ← record_hash (atw_result_state_blake3 w);
    Ok (mkActivityTransition event k order account market (atw_block_height w) hash prior after (atw_rule_version w));
  rec_validate r := valid_reducer_version (at_rule_version r);
  rec_key r := activity_event_key (ac_transition_namespace a) (at_market_id r) (at_order_id r) (at_event_id r);
}.

(** ** Triggers *)

Definition trigger_codec_error (e : RecordCodecError) : ReducerError :=
  match e with
  | InvalidRecordKey => mkReducerError "trigger_state.codec_invalid_key" "trigger state key encoding failed"
  | RecordLimitExceeded => mkReducerError "trigger_state.codec_limit_exceeded" "trigger state record exceeds its deterministic bound"
  | Codec | NonCanonical | InvalidRecord | KeyMismatch =>
      mkReducerError "trigger_state.codec_failed" "trigger state record encoding failed"
  end.

Record TriggerCurrentRecordV1 := mkTrigger {
  tr_order_id : OrderId;
  tr_account_id : Address;
  tr_market_id : MarketId;
  tr_trigger_price : Price;
  tr_oracle_price : Price;
  tr_activated_event_id : EventId;
  tr_last_event_id : EventId;
  tr_last_block_height : BlockHeight;
}.
Record TriggerWire := mkTriggerWire {
  trw_schema : string;
  trw_order_id : string;
  trw_account_id : string;
  trw_market_id : string;
  trw_trigger_price : string;
  trw_oracle_price : string;
  trw_activated_event_id : string;
  trw_last_event_id : string;
  trw_last_block_height : Z;
}.
#[global] Instance TriggerWire_eq_dec : EqDecision TriggerWire.
Proof. solve_decision. Defined.

#[global] Instance trigger_record `{Hex} : StateRecord TriggerCurrentRecordV1 TriggerWire := {
  to_wire r := mkTriggerWire (ac_schema trigger_activity) (tr_order_id r) (to_api_string (tr_account_id r)) (tr_market_id r)
                 (Decimal.to_string (tr_trigger_price r)) (Decimal.to_string (tr_oracle_price r)) (tr_activated_event_id r)
                 (tr_last_event_id r) (tr_last_block_height r);
  from_wire w :=
    if negb (bool_decide (trw_schema w = ac_schema trigger_activity)) then Err InvalidRecord else
    order ← field (string_id_new (trw_order_id w));
    account ← field (parse_api (trw_account_id w));
    market ← field (string_id_new (trw_market_id w));
    trigger_price ← field (Decimal.from_str (trw_trigger_price w));
    oracle_price ← field (Decimal.from_str (trw_oracle_price w));
    activated ← field (string_id_new (trw_activated_event_id w));
    last ← field (string_id_new (trw_last_event_id w));
    Ok (mkTrigger order account market trigger_price oracle_price activated last (trw_last_block_height w));
  rec_validate r := negb ((Decimal.raw (tr_trigger_price r) <=? 0) || (Decimal.raw (tr_oracle_price r) <=? 0));
  rec_key r := activity_key trigger_activity (tr_market_id r) (tr_order_id r);
}.

(** ** TWAPs *)

Definition twap_codec_error (e : RecordCodecError) : ReducerError :=
  match e with
  | InvalidRecordKey => mkReducerError "twap_state.codec_invalid_key" "twap state key encoding failed"
  | RecordLimitExceeded => mkReducerError "twap_state.codec_limit_exceeded" "twap state record exceeds its deterministic bound"
  | Codec | NonCanonical | InvalidRecord | KeyMismatch => mkReducerError "twap_state.codec_failed" "twap state record encoding failed"
  end.
Definition twap_arithmetic : ReducerError :=
  mkReducerError "twap_state.arithmetic_overflow" "twap quantity arithmetic overflowed".
Definition twap_identity_mismatch (message : string) : ReducerError := mkReducerError "twap_state.identity_mismatch" message.
Definition twap_invalid_event : ReducerError := mkReducerError "twap_state.invalid_event" "twap reducer received a non-twap payload".

Inductive TwapLifecycleV1 := TwapActive | TwapDone.
#[global] Instance TwapLifecycleV1_eq_dec : EqDecision TwapLifecycleV1.
Proof. solve_decision. Defined.
Definition twap_lifecycle_wire (l : TwapLifecycleV1) : string := match l with TwapActive => "active" | TwapDone => "completed" end.
Definition parse_twap_lifecycle (value : string) : result RecordCodecError TwapLifecycleV1 :=
  if bool_decide (value = "active"%string) then Ok TwapActive else
  if bool_decide (value = "completed"%string) then Ok TwapDone else
  Err InvalidRecord.
Definition twap_is_terminal (l : TwapLifecycleV1) : bool := match l with TwapDone => true | TwapActive => false end.

Record TwapCurrentRecordV1 := mkTwap {
  tw_order_id : OrderId;
  tw_account_id : Address;
  tw_market_id : MarketId;
  tw_lifecycle : TwapLifecycleV1;
  tw_total_quantity : Quantity;
  tw_filled_quantity : Quantity;
  tw_remaining_quantity : Quantity;
  tw_last_slice_index : option Z;
  tw_end_time : ProtocolTime;
  tw_completed_average_price : option Price;
  tw_started_event_id : EventId;
  tw_last_event_id : EventId;
  tw_last_block_height : BlockHeight;
}.
Record TwapWire := mkTwapWire {
  tww_schema : string;
  tww_order_id : string;
  tww_account_id : string;
  tww_market_id : string;
  tww_lifecycle : string;
  tww_total_quantity : string;
  tww_filled_quantity : string;
  tww_remaining_quantity : string;
  tww_last_slice_index : option Z;
  tww_end_time_micros : Z;
  tww_completed_average_price : option string;
  tww_started_event_id : string;
  tww_last_event_id : string;
  tww_last_block_height : Z;
}.
#[global] Instance TwapWire_eq_dec : EqDecision TwapWire.
Proof. solve_decision. Defined.

Definition twap_validate (r : TwapCurrentRecordV1) : bool :=
  if (Decimal.raw (tw_total_quantity r) <=? 0) || (Decimal.raw (tw_filled_quantity r) <? 0) ||
     (Decimal.raw (tw_remaining_quantity r) <? 0)
  then false else
  match Decimal.checked_add (tw_filled_quantity r) (tw_remaining_quantity r) with
  | Err _ => false
  | Ok total =>
      if negb (Decimal.eq total (tw_total_quantity r)) then false else
      match tw_lifecycle r, tw_completed_average_price r with
      | TwapActive, average => negb (is_set average)
      | TwapDone, None => false
      | TwapDone, Some average =>
          negb ((Decimal.raw (tw_filled_quantity r) =? 0) && negb (Decimal.raw average =? 0) ||
                (0 <? Decimal.raw (tw_filled_quantity r)) && (Decimal.raw average <=? 0))
      end
  end.

#[global] Instance twap_record `{Hex} : StateRecord TwapCurrentRecordV1 TwapWire := {
  to_wire r := mkTwapWire (ac_schema twap_activity) (tw_order_id r) (to_api_string (tw_account_id r)) (tw_market_id r)
                 (twap_lifecycle_wire (tw_lifecycle r)) (Decimal.to_string (tw_total_quantity r))
                 (Decimal.to_string (tw_filled_quantity r)) (Decimal.to_string (tw_remaining_quantity r)) (tw_last_slice_index r)
                 (tw_end_time r) (Decimal.to_string <$> tw_completed_average_price r) (tw_started_event_id r)
                 (tw_last_event_id r) (tw_last_block_height r);
  from_wire w :=
    if negb (bool_decide (tww_schema w = ac_schema twap_activity)) then Err InvalidRecord else
    order ← field (string_id_new (tww_order_id w));
    account ← field (parse_api (tww_account_id w));
    market ← field (string_id_new (tww_market_id w));
    lifecycle ← parse_twap_lifecycle (tww_lifecycle w);
    total ← field (Decimal.from_str (tww_total_quantity w));
    filled ← field (Decimal.from_str (tww_filled_quantity w));
    remaining ← field (Decimal.from_str (tww_remaining_quantity w));
    end_time ← field (time_from_unix_micros (tww_end_time_micros w));
    average ← parse_optional Decimal.from_str (tww_completed_average_price w);
    started ← field (string_id_new (tww_started_event_id w));
    last ← field (string_id_new (tww_last_event_id w));
    Ok (mkTwap order account market lifecycle total filled remaining (tww_last_slice_index w) end_time average started last
          (tww_last_block_height w));
  rec_validate := twap_validate;
  rec_key r := activity_key twap_activity (tw_market_id r) (tw_order_id r);
}.

(** ** The reducers *)

Class ActivityJson := {
  json_activity_fact :: Json ActivityFactWire;
  json_activity_transition :: Json ActivityTransitionWire;
  json_trigger :: Json TriggerWire;
  json_twap :: Json TwapWire;
}.

Definition trigger_supports (e : Envelope) : bool :=
  bool_decide (schema_version e = "1.0.0"%string) && ac_kind trigger_activity (event_kind e).
Definition twap_supports (e : Envelope) : bool :=
  bool_decide (schema_version e = "1.0.0"%string) && ac_kind twap_activity (event_kind e).

Definition twap_order_id (p : Payload.t) : option OrderId :=
  match p with
  | Payload.TwapStarted o _ _ _ _ | Payload.TwapSliceFilled o _ _ _ | Payload.TwapCompleted o _ _ => Some o
  | _ => None
  end.

Definition twap_sum (r : result ValueError Quantity) : result ReducerError Quantity := map_err (fun _ => twap_arithmetic) r.

(** The [apply_transition] of [twap.rs] *)
Definition apply_twap (c : TwapCurrentRecordV1) (e : Envelope) : result ReducerError TwapCurrentRecordV1 :=
  match payload e with
  | Payload.TwapSliceFilled o slice_index _ fill_quantity =>
      if negb (bool_decide (o = tw_order_id c))
      then Err (twap_identity_mismatch "slice fill order identity must match current state") else
      if is_set_and (fun last => slice_index <=? last) (tw_last_slice_index c)
      then Err (mkReducerError "twap_state.slice_index_not_increasing" "twap slice index must strictly increase") else
      filled ← twap_sum (Decimal.checked_add (tw_filled_quantity c) fill_quantity);
      if ltb (tw_total_quantity c) filled
      then Err (mkReducerError "twap_state.overfill" "twap slice fill exceeds remaining quantity") else
      remaining ← twap_sum (Decimal.checked_sub (tw_total_quantity c) filled);
      Ok (mkTwap (tw_order_id c) (tw_account_id c) (tw_market_id c) (tw_lifecycle c) (tw_total_quantity c) filled remaining
            (Some slice_index) (tw_end_time c) (tw_completed_average_price c) (tw_started_event_id c) (event_id e)
            (ev_block_height e))
  | Payload.TwapCompleted o filled_quantity average_price =>
      if negb (bool_decide (o = tw_order_id c))
      then Err (twap_identity_mismatch "completed order identity must match current state") else
      if negb (Decimal.eq filled_quantity (tw_filled_quantity c))
      then Err (mkReducerError "twap_state.filled_mismatch" "completed filled quantity must equal accumulated slices") else
      if (Decimal.raw filled_quantity =? 0) && negb (Decimal.raw average_price =? 0)
      then Err (mkReducerError "twap_state.invalid_average_price" "zero-fill twap completion requires a zero average price") else
      if (0 <? Decimal.raw filled_quantity) && (Decimal.raw average_price <=? 0)
      then Err (mkReducerError "twap_state.invalid_average_price" "positive-fill twap completion requires a positive average price") else
      Ok (mkTwap (tw_order_id c) (tw_account_id c) (tw_market_id c) TwapDone (tw_total_quantity c) (tw_filled_quantity c)
            (tw_remaining_quantity c) (tw_last_slice_index c) (tw_end_time c) (Some average_price) (tw_started_event_id c)
            (event_id e) (ev_block_height e))
  | Payload.TwapStarted _ _ _ _ _ => Err (mkReducerError "twap_state.invalid_transition" "twap start cannot follow an existing current")
  | _ => Err twap_invalid_event
  end.

Section reducers.
Context `{Hex} `{ActivityJson} `{Blake3}.

Definition activity_hash (a : activity) (l : bytes) : Hash := derive_key_hash (ac_hash_context a) l.

(** The fact, the current record and the transition of an event, as both reducers write them. *)
Definition activity_puts (a : activity) (codec_error : RecordCodecError -> ReducerError) (collision : ReducerError)
    (st : StateView) (e : Envelope) (k : EventKind) (o : OrderId) (account : Address) (m : MarketId) (prior : option Hash)
    (current_key : StateKey) (current_bytes : bytes) : result ReducerError (list StateMutation) :=
  let fact : ActivityFact a := mkActivityFact (event_id e) k o account m (ev_block_height e) (payload_hash e) in
  fact_key ← map_err codec_error (rec_key fact);
  let transition : ActivityTransition a :=
    mkActivityTransition (event_id e) k o account m (ev_block_height e) (payload_hash e) prior (activity_hash a current_bytes)
      (ac_version a) in
  transition_key ← map_err codec_error (rec_key transition);
  if bt_contains fact_key st || bt_contains transition_key st then Err collision else
  fact_bytes ← map_err codec_error (record_encode fact);
  transition_bytes ← map_err codec_error (record_encode transition);
  Ok [Put fact_key fact_bytes; Put current_key current_bytes; Put transition_key transition_bytes].

Definition trigger_reduce (st : StateView) (e : Envelope) : result ReducerError (list StateMutation) :=
  match payload e with
  | Payload.TriggerOrderActivated o trigger_price oracle_price =>
      match market_ids e, account_ids e with
      | [m], [a] =>
          current_key ← map_err trigger_codec_error (activity_key trigger_activity m o);
          if bt_contains current_key st
          then Err (mkReducerError "trigger_state.order_id_collision" "trigger identity is already present in canonical state") else
          current_bytes ← map_err trigger_codec_error
            (record_encode (mkTrigger o a m trigger_price oracle_price (event_id e) (event_id e) (ev_block_height e)));
          activity_puts trigger_activity trigger_codec_error
            (mkReducerError "trigger_state.event_id_collision" "trigger event identity is already present in canonical state")
            st e TriggerOrderActivated o a m None current_key current_bytes
      | [_], _ => Err (mkReducerError "trigger_state.identity_mismatch" "trigger event requires exactly one envelope account")
      | _, _ => Err (mkReducerError "trigger_state.identity_mismatch" "trigger event requires exactly one envelope market")
      end
  | _ => Err (mkReducerError "trigger_state.invalid_event" "trigger reducer received a non-trigger payload")
  end.

Definition next_twap (existing : option TwapCurrentRecordV1) (e : Envelope) (o : OrderId) (m : MarketId) (a : Address)
  : result ReducerError (option Hash * TwapCurrentRecordV1) :=
  match payload e with
  | Payload.TwapStarted order account market total_quantity end_time =>
      if is_set existing
      then Err (mkReducerError "twap_state.order_id_collision" "twap identity is already present in canonical state") else
      if negb (bool_decide (order = o)) || negb (bool_decide (market = m)) || negb (bool_decide (account = a))
      then Err (twap_identity_mismatch "started payload and envelope identities must match exactly") else
      zero ← twap_sum (Decimal.checked_sub total_quantity total_quantity);
      Ok (None, mkTwap order account market TwapActive total_quantity zero total_quantity None end_time None (event_id e) (event_id e)
                  (ev_block_height e))
  | _ =>
      previous ← existing ?? mkReducerError "twap_state.twap_not_found" "twap transition requires an active started twap";
      if negb (bool_decide (tw_account_id previous = a)) || negb (bool_decide (tw_market_id previous = m))
      then Err (twap_identity_mismatch "twap payload and envelope identities must match current state") else
      if twap_is_terminal (tw_lifecycle previous)
      then Err (mkReducerError "twap_state.terminal_twap" "terminal twap state cannot transition") else
      prior ← map_err twap_codec_error (record_encode previous);
      next ← apply_twap previous e;
      Ok (Some (activity_hash twap_activity prior), next)
  end.

Definition twap_reduce (st : StateView) (e : Envelope) : result ReducerError (list StateMutation) :=
  o ← twap_order_id (payload e) ?? twap_invalid_event;
  m ← match market_ids e with [m] => Ok m | _ => Err (twap_identity_mismatch "twap event requires exactly one envelope market") end;
  a ← match account_ids e with [a] => Ok a | _ => Err (twap_identity_mismatch "twap event requires exactly one envelope account") end;
  current_key ← map_err twap_codec_error (activity_key twap_activity m o);
  existing ← match bt_get current_key st with
    | Some l => r ← map_err twap_codec_error (plain_decode_at (R := TwapCurrentRecordV1) current_key l); Ok (Some r)
    | None => Ok None
    end;
  '(prior, current) ← next_twap existing e o m a;
  current_bytes ← map_err twap_codec_error (record_encode current);
  activity_puts twap_activity twap_codec_error
    (mkReducerError "twap_state.event_id_collision" "twap event identity is already present in canonical state")
    st e (event_kind e) o a m prior current_key current_bytes.
End reducers.

Inductive CanonicalTriggerReducerV1 := TriggerReducer.
#[global] Instance trigger_reducer `{Hex} `{ActivityJson} `{Blake3} : EventReducer Payload.t CanonicalTriggerReducerV1 := {
  reducer_version _ := ac_version trigger_activity;
  supports _ := trigger_supports;
  reduce _ st e _ := trigger_reduce st e;
  validate_block_delta _ := default_validate_block_delta default_validate_block;
}.
Inductive CanonicalTwapReducerV1 := TwapReducer.
#[global] Instance twap_reducer `{Hex} `{ActivityJson} `{Blake3} : EventReducer Payload.t CanonicalTwapReducerV1 := {
  reducer_version _ := ac_version twap_activity;
  supports _ := twap_supports;
  reduce _ st e _ := twap_reduce st e;
  validate_block_delta _ := default_validate_block_delta default_validate_block;
}.
