(* ===== verification/Trades.v ===== *)
(** * Trades: [trade.rs]

    A matched trade is kept twice: as a record of its two participants with a
    check that both traded the same quantity (version 1), and, when the
    venue reports who bought and who sold from which position, as a record
    with the signed effects on both positions (version 2). *)

From Stdlib Require Import Strings.Byte Strings.String.
From stdpp Require Import sorting.
From S2P Require Import Prelude Ordering BTreeMap Bytes FixedPoint Ids Store StateImage Blocks Ledger Payloads Records Opaque Markets Accounts.

Definition trade_codec_error (e : RecordCodecError) : ReducerError :=
  match e with
  | InvalidRecordKey => mkReducerError "trade_state.codec_invalid_key" "trade state key encoding failed"
  | RecordLimitExceeded => mkReducerError "trade_state.codec_limit_exceeded" "trade state record exceeds its deterministic bound"
  | Codec | NonCanonical | InvalidRecord | KeyMismatch => mkReducerError "trade_state.codec_failed" "trade state record encoding failed"
  end.
Definition prior_fact_error (_ : RecordCodecError) : ReducerError :=
  mkReducerError "trade_state.prior_fact_invalid" "existing canonical V2 trade fact is corrupt or stored under the wrong key".

Definition TRADE_V1_VERSION : string := "hyperliquid-alpha-desk-canonical-trade@1.0.0".
Definition TRADE_V2_VERSION : string := "hyperliquid-alpha-desk-canonical-trade@2.0.0".
Definition TRADE_NAMESPACE : string := "trade.v1".
Definition PARTICIPANT_NAMESPACE : string := "trade-participant.v1".
Definition RECONCILIATION_NAMESPACE : string := "reconciliation.v1".
Definition TRADE_SCHEMA : string := "hyperliquid-alpha-desk/trade-state/v1".
Definition PARTICIPANT_SCHEMA : string := "hyperliquid-alpha-desk/trade-participant/v1".
Definition RECONCILIATION_SCHEMA : string := "hyperliquid-alpha-desk/trade-quantity-symmetry/v1".
Definition RECONCILIATION_CHECK_VERSION : string := "trade-quantity-symmetry@1.0.0".
Definition EVIDENCE_HASH_CONTEXT : string := "hyperliquid-alpha-desk/trade-reconciliation-evidence/v1".
Definition TRADE_V2_NAMESPACE : string := "trade.v2".
Definition PARTICIPANT_V2_NAMESPACE : string := "trade-participant.v2".
Definition RECONCILIATION_V2_NAMESPACE : string := "trade-reconciliation.v2".
Definition TRADE_V2_SCHEMA : string := "hyperliquid-alpha-desk/trade-state/v2".
Definition PARTICIPANT_V2_SCHEMA : string := "hyperliquid-alpha-desk/trade-participant/v2".
Definition RECONCILIATION_V2_SCHEMA : string := "hyperliquid-alpha-desk/trade-reconciliation/v2".
Definition RECONCILIATION_V2_CHECK_VERSION : string := "trade-position-symmetry@2.0.0".
Definition EVIDENCE_V2_HASH_CONTEXT : string := "hyperliquid-alpha-desk/trade-reconciliation-evidence/v2".

(** ** Keys and fields *)

Definition trade_key (ns : string) (id : TradeId) : result RecordCodecError StateKey :=
  map_err (fun _ => InvalidRecordKey) (key_try_new ns (as_bytes id)).
Definition framed_participant_key (ns : string) (id : TradeId) (ordinal : Z) : result RecordCodecError StateKey :=
  if 1 <? ordinal then Err InvalidRecordKey else
  length ← int_try U16 (zlen (as_bytes id)) ?? InvalidRecordKey;
  map_err (fun _ => InvalidRecordKey) (key_try_new ns (to_be_bytes 2 length ++ as_bytes id ++ [byte_of_Z ordinal])).

Definition is_canonical_trade_cloid (value : string) : bool :=
  (zlen (as_bytes value) =? 34) && bool_decide (take 2 (as_bytes value) = as_bytes "0x") &&
  forallb (fun b => byte_between 48 57 b || byte_between 97 102 b) (drop 2 (as_bytes value)).
Definition parse_optional_cloid (value : option string) : result RecordCodecError (option ClientOrderId) :=
  match value with
  | Some v => if negb (is_canonical_trade_cloid v) then Err InvalidRecord else id ← field (string_id_new v); Ok (Some id)
  | None => Ok None
  end.

Definition encode_role (role : TradeParticipantRoleV1) : string := match role with Buyer => "buyer" | Seller => "seller" end.
Definition decode_role (value : string) : result RecordCodecError TradeParticipantRoleV1 :=
  if bool_decide (value = "buyer"%string) then Ok Buyer else
  if bool_decide (value = "seller"%string) then Ok Seller else
  Err InvalidRecord.
Definition participant_ordinal_matches_role (ordinal : Z) (role : TradeParticipantRoleV1) : bool :=
  match role with Buyer => ordinal =? 0 | Seller => ordinal =? 1 end.

Definition signed_effect (quantity : Quantity) (role : TradeParticipantRoleV1) : result RecordCodecError PositionQuantity :=
  raw ← match role with
    | Buyer => Ok (Decimal.raw quantity)
    | Seller => int_try I128 (- Decimal.raw quantity) ?? InvalidRecord
    end;
  field (Decimal.from_raw raw (Decimal.scale quantity)).

(** ** Version 1 *)

Record TradeStateRecordV1 := mkTrade1 {
  t1_event_id : EventId;
  t1_trade_id : TradeId;
  t1_market_id : MarketId;
  t1_price : Price;
  t1_quantity : Quantity;
  t1_participant_0 : Address;
  t1_participant_1 : Address;
  t1_block_height : BlockHeight;
  t1_payload_hash : Hash;
}.
Record TradeStateWire := mkTrade1Wire {
  t1w_schema : string;
  t1w_event_id : string;
  t1w_trade_id : string;
  t1w_market_id : string;
  t1w_price : string;
  t1w_quantity : string;
  t1w_participant_0 : string;
  t1w_participant_1 : string;
  t1w_block_height : Z;
  t1w_payload_blake3 : string;
}.
#[global] Instance TradeStateWire_eq_dec : EqDecision TradeStateWire.
Proof. solve_decision. Defined.

(** Only reading checks the record. *)
#[global] Instance trade1_record `{Hex} : StateRecord TradeStateRecordV1 TradeStateWire := {
  to_wire r := mkTrade1Wire TRADE_SCHEMA (t1_event_id r) (t1_trade_id r) (t1_market_id r) (Decimal.to_string (t1_price r))
                 (Decimal.to_string (t1_quantity r)) (to_api_string (t1_participant_0 r)) (to_api_string (t1_participant_1 r))
                 (t1_block_height r) (hex_encode (t1_payload_hash r));
  from_wire w :=
    if negb (bool_decide (t1w_schema w = TRADE_SCHEMA)) then Err InvalidRecord else
    event ← field (string_id_new (t1w_event_id w));
    trade ← field (string_id_new (t1w_trade_id w));
    market ← field (string_id_new (t1w_market_id w));
    price ← field (Decimal.from_str (t1w_price w));
    quantity ← field (Decimal.from_str (t1w_quantity w));
    participant_0 ← field (parse_api (t1w_participant_0 w));
    participant_1 ← field (parse_api (t1w_participant_1 w));
    hash ← record_hash (t1w_payload_blake3 w);
    if (Decimal.raw price <=? 0) || (Decimal.raw quantity <=? 0) || bool_decide (participant_0 = participant_1)
    then Err InvalidRecord else
    Ok (mkTrade1 event trade market price quantity participant_0 participant_1 (t1w_block_height w) hash);
  rec_validate _ := true;
  rec_key r := trade_key TRADE_NAMESPACE (t1_trade_id r);
}.

Record TradeParticipantRecordV1 := mkParticipant1 {
  p1_event_id : EventId;
  p1_trade_id : TradeId;
  p1_ordinal : Z;
  p1_participant : Address;
  p1_quantity : Quantity;
  p1_block_height : BlockHeight;
}.
Record ParticipantWire := mkParticipant1Wire {
  p1w_schema : string;
  p1w_event_id : string;
  p1w_trade_id : string;
  p1w_ordinal : Z;
  p1w_participant : string;
  p1w_quantity : string;
  p1w_block_height : Z;
}.
#[global] Instance ParticipantWire_eq_dec : EqDecision ParticipantWire.
Proof. solve_decision. Defined.

#[global] Instance participant1_record `{Hex} : StateRecord TradeParticipantRecordV1 ParticipantWire := {
  to_wire r := mkParticipant1Wire PARTICIPANT_SCHEMA (p1_event_id r) (p1_trade_id r) (p1_ordinal r)
                 (to_api_string (p1_participant r)) (Decimal.to_string (p1_quantity r)) (p1_block_height r);
  from_wire w :=
    if negb (bool_decide (p1w_schema w = PARTICIPANT_SCHEMA)) || (1 <? p1w_ordinal w) then Err InvalidRecord else
    event ← field (string_id_new (p1w_event_id w));
    trade ← field (string_id_new (p1w_trade_id w));
    participant ← field (parse_api (p1w_participant w));
    quantity ← field (Decimal.from_str (p1w_quantity w));
    if Decimal.raw quantity <=? 0 then Err InvalidRecord else
    Ok (mkParticipant1 event trade (p1w_ordinal w) participant quantity (p1w_block_height w));
  rec_validate _ := true;
  rec_key r := framed_participant_key PARTICIPANT_NAMESPACE (p1_trade_id r) (p1_ordinal r);
}.

Record TradeReconciliationRecordV1 := mkReconciliation1 {
  r1_event_id : EventId;
  r1_trade_id : TradeId;
  r1_market_id : MarketId;
  r1_quantity : Quantity;
  r1_participant_count : Z;
  r1_block_height : BlockHeight;
  r1_evidence_hash : Hash;
}.
Record ReconciliationWire := mkReconciliation1Wire {
  r1w_schema : string;
  r1w_check_version : string;
  r1w_status : string;
  r1w_event_id : string;
  r1w_trade_id : string;
  r1w_market_id : string;
  r1w_quantity : string;
  r1w_participant_count : Z;
  r1w_block_height : Z;
  r1w_evidence_blake3 : string;
}.
#[global] Instance ReconciliationWire_eq_dec : EqDecision ReconciliationWire.
Proof. solve_decision. Defined.

#[global] Instance reconciliation1_record `{Hex} : StateRecord TradeReconciliationRecordV1 ReconciliationWire := {
  to_wire r := mkReconciliation1Wire RECONCILIATION_SCHEMA RECONCILIATION_CHECK_VERSION "passed" (r1_event_id r) (r1_trade_id r)
                 (r1_market_id r) (Decimal.to_string (r1_quantity r)) (r1_participant_count r) (r1_block_height r)
                 (hex_encode (r1_evidence_hash r));
  from_wire w :=
    if negb (bool_decide (r1w_schema w = RECONCILIATION_SCHEMA)) ||
       negb (bool_decide (r1w_check_version w = RECONCILIATION_CHECK_VERSION)) ||
       negb (bool_decide (r1w_status w = "passed"%string)) || negb (r1w_participant_count w =? 2)
    then Err InvalidRecord else
    event ← field (string_id_new (r1w_event_id w));
    trade ← field (string_id_new (r1w_trade_id w));
    market ← field (string_id_new (r1w_market_id w));
    quantity ← field (Decimal.from_str (r1w_quantity w));
    hash ← record_hash (r1w_evidence_blake3 w);
    if Decimal.raw quantity <=? 0 then Err InvalidRecord else
    Ok (mkReconciliation1 event trade market quantity (r1w_participant_count w) (r1w_block_height w) hash);
  rec_validate _ := true;
  rec_key r := trade_key RECONCILIATION_NAMESPACE (r1_trade_id r);
}.

(** ** Version 2 *)

Record TradeStateRecordV2 := mkTrade2 {
  t2_event_id : EventId;
  t2_trade_id : TradeId;
  t2_market_id : MarketId;
  t2_price : Price;
  t2_quantity : Quantity;
  t2_buyer_account_id : Address;
  t2_seller_account_id : Address;
  t2_buyer_start_position : PositionQuantity;
  t2_seller_start_position : PositionQuantity;
  t2_buyer_order_id : OrderId;
  t2_seller_order_id : OrderId;
  t2_buyer_twap_id : option TwapId;
  t2_seller_twap_id : option TwapId;
  t2_buyer_client_order_id : option ClientOrderId;
  t2_seller_client_order_id : option ClientOrderId;
  t2_block_height : BlockHeight;
  t2_payload_hash : Hash;
}.
Record TradeStateWireV2 := mkTrade2Wire {
  t2w_schema : string;
  t2w_event_id : string;
  t2w_trade_id : string;
  t2w_market_id : string;
  t2w_price : string;
  t2w_quantity : string;
  t2w_buyer_account_id : string;
  t2w_seller_account_id : string;
  t2w_buyer_start_position : string;
  t2w_seller_start_position : string;
  t2w_buyer_order_id : string;
  t2w_seller_order_id : string;
  t2w_buyer_twap_id : option Z;
  t2w_seller_twap_id : option Z;
  t2w_buyer_client_order_id : option string;
  t2w_seller_client_order_id : option string;
  t2w_block_height : Z;
  t2w_payload_blake3 : string;
}.
#[global] Instance TradeStateWireV2_eq_dec : EqDecision TradeStateWireV2.
Proof. solve_decision. Defined.

#[global] Instance trade2_record `{Hex} : StateRecord TradeStateRecordV2 TradeStateWireV2 := {
  to_wire r := mkTrade2Wire TRADE_V2_SCHEMA (t2_event_id r) (t2_trade_id r) (t2_market_id r) (Decimal.to_string (t2_price r))
                 (Decimal.to_string (t2_quantity r)) (to_api_string (t2_buyer_account_id r)) (to_api_string (t2_seller_account_id r))
                 (Decimal.to_string (t2_buyer_start_position r)) (Decimal.to_string (t2_seller_start_position r))
                 (t2_buyer_order_id r) (t2_seller_order_id r) (t2_buyer_twap_id r) (t2_seller_twap_id r)
                 (t2_buyer_client_order_id r) (t2_seller_client_order_id r) (t2_block_height r) (hex_encode (t2_payload_hash r));
  from_wire w :=
    if negb (bool_decide (t2w_schema w = TRADE_V2_SCHEMA)) then Err InvalidRecord else
    event ← field (string_id_new (t2w_event_id w));
    trade ← field (string_id_new (t2w_trade_id w));
    market ← field (string_id_new (t2w_market_id w));
    price ← field (Decimal.from_str (t2w_price w));
    quantity ← field (Decimal.from_str (t2w_quantity w));
    buyer ← field (parse_api (t2w_buyer_account_id w));
    seller ← field (parse_api (t2w_seller_account_id w));
    buyer_start ← field (Decimal.from_str (t2w_buyer_start_position w));
    seller_start ← field (Decimal.from_str (t2w_seller_start_position w));
    buyer_order ← field (string_id_new (t2w_buyer_order_id w));
    seller_order ← field (string_id_new (t2w_seller_order_id w));
    buyer_cloid ← parse_optional_cloid (t2w_buyer_client_order_id w);
    seller_cloid ← parse_optional_cloid (t2w_seller_client_order_id w);
    hash ← record_hash (t2w_payload_blake3 w);
    if (Decimal.raw price <=? 0) || (Decimal.raw quantity <=? 0) || bool_decide (buyer = seller) then Err InvalidRecord else
    Ok (mkTrade2 event trade market price quantity buyer seller buyer_start seller_start buyer_order seller_order
          (t2w_buyer_twap_id w) (t2w_seller_twap_id w) buyer_cloid seller_cloid (t2w_block_height w) hash);
  rec_validate _ := true;
  rec_key r := trade_key TRADE_V2_NAMESPACE (t2_trade_id r);
}.

Record TradeParticipantRecordV2 := mkParticipant2 {
  p2_event_id : EventId;
  p2_trade_id : TradeId;
  p2_ordinal : Z;
  p2_role : TradeParticipantRoleV1;
  p2_account_id : Address;
  p2_start_position : PositionQuantity;
  p2_order_id : OrderId;
  p2_twap_id : option TwapId;
  p2_client_order_id : option ClientOrderId;
  p2_fill_quantity : Quantity;
  p2_position_effect : PositionQuantity;
  p2_block_height : BlockHeight;
}.
Record ParticipantWireV2 := mkParticipant2Wire {
  p2w_schema : string;
  p2w_event_id : string;
  p2w_trade_id : string;
  p2w_ordinal : Z;
  p2w_role : string;
  p2w_account_id : string;
  p2w_start_position : string;
  p2w_order_id : string;
  p2w_twap_id : option Z;
  p2w_client_order_id : option string;
  p2w_fill_quantity : string;
  p2w_position_effect : string;
  p2w_block_height : Z;
}.
#[global] Instance ParticipantWireV2_eq_dec : EqDecision ParticipantWireV2.
Proof. solve_decision. Defined.

#[global] Instance participant2_record `{Hex} : StateRecord TradeParticipantRecordV2 ParticipantWireV2 := {
  to_wire r := mkParticipant2Wire PARTICIPANT_V2_SCHEMA (p2_event_id r) (p2_trade_id r) (p2_ordinal r) (encode_role (p2_role r))
                 (to_api_string (p2_account_id r)) (Decimal.to_string (p2_start_position r)) (p2_order_id r) (p2_twap_id r)
                 (p2_client_order_id r) (Decimal.to_string (p2_fill_quantity r)) (Decimal.to_string (p2_position_effect r))
                 (p2_block_height r);
  from_wire w :=
    if negb (bool_decide (p2w_schema w = PARTICIPANT_V2_SCHEMA)) || (1 <? p2w_ordinal w) then Err InvalidRecord else
    role ← decode_role (p2w_role w);
    event ← field (string_id_new (p2w_event_id w));
    trade ← field (string_id_new (p2w_trade_id w));
    account ← field (parse_api (p2w_account_id w));
    start ← field (Decimal.from_str (p2w_start_position w));
    order ← field (string_id_new (p2w_order_id w));
    cloid ← parse_optional_cloid (p2w_client_order_id w);
    fill ← field (Decimal.from_str (p2w_fill_quantity w));
    effect ← field (Decimal.from_str (p2w_position_effect w));
    if (Decimal.raw fill <=? 0) || negb (participant_ordinal_matches_role (p2w_ordinal w) role) then Err InvalidRecord else
    expected ← signed_effect fill role;
    if negb (Decimal.eq expected effect) then Err InvalidRecord else
    Ok (mkParticipant2 event trade (p2w_ordinal w) role account start order (p2w_twap_id w) cloid fill effect (p2w_block_height w));
  rec_validate _ := true;
  rec_key r := framed_participant_key PARTICIPANT_V2_NAMESPACE (p2_trade_id r) (p2_ordinal r);
}.

Record TradeReconciliationRecordV2 := mkReconciliation2 {
  r2_event_id : EventId;
  r2_trade_id : TradeId;
  r2_market_id : MarketId;
  r2_absolute_quantity : Quantity;
  r2_buyer_effect : PositionQuantity;
  r2_seller_effect : PositionQuantity;
  r2_participant_count : Z;
  r2_block_height : BlockHeight;
  r2_evidence_hash : Hash;
}.
Record ReconciliationWireV2 := mkReconciliation2Wire {
  r2w_schema : string;
  r2w_check_version : string;
  r2w_status : string;
  r2w_event_id : string;
  r2w_trade_id : string;
  r2w_market_id : string;
  r2w_absolute_quantity : string;
  r2w_buyer_effect : string;
  r2w_seller_effect : string;
  r2w_participant_count : Z;
  r2w_block_height : Z;
  r2w_evidence_blake3 : string;
}.
#[global] Instance ReconciliationWireV2_eq_dec : EqDecision ReconciliationWireV2.
Proof. solve_decision. Defined.

#[global] Instance reconciliation2_record `{Hex} : StateRecord TradeReconciliationRecordV2 ReconciliationWireV2 := {
  to_wire r := mkReconciliation2Wire RECONCILIATION_V2_SCHEMA RECONCILIATION_V2_CHECK_VERSION "passed" (r2_event_id r) (r2_trade_id r)
                 (r2_market_id r) (Decimal.to_string (r2_absolute_quantity r)) (Decimal.to_string (r2_buyer_effect r))
                 (Decimal.to_string (r2_seller_effect r)) (r2_participant_count r) (r2_block_height r)
                 (hex_encode (r2_evidence_hash r));
  from_wire w :=
    if negb (bool_decide (r2w_schema w = RECONCILIATION_V2_SCHEMA)) ||
       negb (bool_decide (r2w_check_version w = RECONCILIATION_V2_CHECK_VERSION)) ||
       negb (bool_decide (r2w_status w = "passed"%string)) || negb (r2w_participant_count w =? 2)
    then Err InvalidRecord else
    event ← field (string_id_new (r2w_event_id w));
    trade ← field (string_id_new (r2w_trade_id w));
    market ← field (string_id_new (r2w_market_id w));
    quantity ← field (Decimal.from_str (r2w_absolute_quantity w));
    buyer ← field (Decimal.from_str (r2w_buyer_effect w));
    seller ← field (Decimal.from_str (r2w_seller_effect w));
    hash ← record_hash (r2w_evidence_blake3 w);
    if Decimal.raw quantity <=? 0 then Err InvalidRecord else
    expected_buyer ← signed_effect quantity Buyer;
    if negb (Decimal.eq expected_buyer buyer) then Err InvalidRecord else
    expected_seller ← signed_effect quantity Seller;
    if negb (Decimal.eq expected_seller seller) then Err InvalidRecord else
    Ok (mkReconciliation2 event trade market quantity buyer seller (r2w_participant_count w) (r2w_block_height w) hash);
  rec_validate _ := true;
  rec_key r := trade_key RECONCILIATION_V2_NAMESPACE (r2_trade_id r);
}.

(** ** The reducers *)

Class TradeJson := {
  json_trade1 :: Json TradeStateWire;
  json_participant1 :: Json ParticipantWire;
  json_reconciliation1 :: Json ReconciliationWire;
  json_trade2 :: Json TradeStateWireV2;
  json_participant2 :: Json ParticipantWireV2;
  json_reconciliation2 :: Json ReconciliationWireV2;
}.

Definition trade_error (code message : string) : ReducerError := mkReducerError code message.
Definition invalid_trade_market (message : string) : ReducerError := mkReducerError "trade_state.invalid_market" message.
Definition invalid_trade_participants (message : string) : ReducerError := mkReducerError "trade_state.invalid_participants" message.

Definition trade1_supports (e : Envelope) : bool :=
  match event_kind e with TradeMatched => true | _ => false end && bool_decide (schema_version e = "1.0.0"%string).
Definition trade2_supports (e : Envelope) : bool :=
  match event_kind e with TradeMatched => true | _ => false end && bool_decide (schema_version e = "1.0.0"%string) &&
  match payload e with Payload.TradeMatched _ _ _ _ _ _ _ participants => is_set participants | _ => false end.

Section reducers.
Context `{Hex} `{TradeJson} `{Blake3}.

Definition trade_put {R W} `{StateRecord R W} `{Json W} (key : result RecordCodecError StateKey) (r : R)
  : result ReducerError StateMutation :=
  key ← map_err trade_codec_error key;
  l ← map_err trade_codec_error (record_encode r);
  Ok (Put key l).

(** The bytes both evidence hashes are taken of. *)
Definition evidence_frame (l : bytes) : bytes := frame 8 l.
Definition reconciliation_evidence_hash (r : TradeStateRecordV1) : Hash :=
  derive_key_hash EVIDENCE_HASH_CONTEXT
    (evidence_frame (as_bytes (t1_event_id r)) ++ evidence_frame (as_bytes (t1_trade_id r)) ++
     evidence_frame (as_bytes (t1_market_id r)) ++ evidence_frame (as_bytes (Decimal.to_string (t1_quantity r))) ++
     t1_participant_0 r ++ t1_participant_1 r ++ to_be_bytes 8 (t1_block_height r) ++ t1_payload_hash r).

Definition hash_optional_u64 (v : option Z) : bytes := match v with Some v => x01 :: to_be_bytes 8 v | None => [x00] end.
Definition hash_optional_text (v : option string) : bytes := match v with Some v => x01 :: evidence_frame (as_bytes v) | None => [x00] end.
Definition hash_v2_participant (p : TradeParticipantRecordV2) : bytes :=
  [byte_of_Z (p2_ordinal p)] ++ evidence_frame (as_bytes (encode_role (p2_role p))) ++ p2_account_id p ++
  evidence_frame (as_bytes (Decimal.to_string (p2_start_position p))) ++ evidence_frame (as_bytes (p2_order_id p)) ++
  hash_optional_u64 (p2_twap_id p) ++ hash_optional_text (p2_client_order_id p) ++
  evidence_frame (as_bytes (Decimal.to_string (p2_fill_quantity p))) ++
  evidence_frame (as_bytes (Decimal.to_string (p2_position_effect p))).
Definition reconciliation_v2_evidence_hash (r : TradeStateRecordV2) (buyer seller : TradeParticipantRecordV2) : Hash :=
  derive_key_hash EVIDENCE_V2_HASH_CONTEXT
    (evidence_frame (as_bytes (t2_event_id r)) ++ evidence_frame (as_bytes (t2_trade_id r)) ++
     evidence_frame (as_bytes (t2_market_id r)) ++ evidence_frame (as_bytes (Decimal.to_string (t2_price r))) ++
     evidence_frame (as_bytes (Decimal.to_string (t2_quantity r))) ++ hash_v2_participant buyer ++ hash_v2_participant seller ++
     to_be_bytes 8 (t2_block_height r) ++ t2_payload_hash r).

(** What both versions require of a trade: its identity, its market, and a positive price and quantity. *)
Definition trade_identity (p : Payload.t) : result ReducerError (TradeId * MarketId) :=
  match p with
  | Payload.TradeMatched trade_id market_id _ _ _ _ _ _ =>
      id ← trade_id ?? trade_error "trade_state.invalid_trade_id" "trade identity is required";
      market ← market_id ?? invalid_trade_market "trade payload market is required";
      Ok (id, market)
  | _ => Err (trade_error "trade_state.invalid_event" "trade reducer received a non-trade payload")
  end.
Definition trade_amounts (p : Payload.t) : Price * Quantity :=
  match p with Payload.TradeMatched _ _ _ _ price quantity _ _ => (price, quantity) | _ => (Decimal.mk 0 0, Decimal.mk 0 0) end.
Definition positive_trade (price : Price) (quantity : Quantity) : result ReducerError unit :=
  if Decimal.raw price <=? 0 then Err (trade_error "trade_state.invalid_price" "trade price must be positive") else
  if Decimal.raw quantity <=? 0 then Err (trade_error "trade_state.invalid_quantity" "trade quantity must be positive") else
  Ok tt.

Definition trade1_reduce (st : StateView) (e : Envelope) : result ReducerError (list StateMutation) :=
  '(id, market) ← trade_identity (payload e);
  if negb (bool_decide (market_ids e = [market]))
  then Err (invalid_trade_market "trade payload and envelope market must match exactly") else
  '(a, b) ← match account_ids e with
    | [a; b] => Ok (a, b)
    | _ => Err (invalid_trade_participants "trade requires exactly two participants")
    end;
  if bool_decide (a = b) then Err (invalid_trade_participants "trade participants must be distinct") else
  let '(price, quantity) := trade_amounts (payload e) in
  _ ← positive_trade price quantity;
  key ← map_err trade_codec_error (trade_key TRADE_NAMESPACE id);
  if bt_contains key st
  then Err (trade_error "trade_state.trade_id_collision" "trade identity is already present in canonical state") else
  let r := mkTrade1 (event_id e) id market price quantity a b (ev_block_height e) (payload_hash e) in
  let reconciliation := mkReconciliation1 (event_id e) id market quantity 2 (ev_block_height e) (reconciliation_evidence_hash r) in
  put ← trade_put (Ok key) r;
  put0 ← trade_put (framed_participant_key PARTICIPANT_NAMESPACE id 0) (mkParticipant1 (event_id e) id 0 a quantity (ev_block_height e));
  put1 ← trade_put (framed_participant_key PARTICIPANT_NAMESPACE id 1) (mkParticipant1 (event_id e) id 1 b quantity (ev_block_height e));
  put2 ← trade_put (trade_key RECONCILIATION_NAMESPACE id) reconciliation;
  Ok [put; put0; put1; put2].

Definition participant_record (e : Envelope) (id : TradeId) (quantity : Quantity) (ordinal : Z) (p : TradeParticipantV1)
    (effect : PositionQuantity) : TradeParticipantRecordV2 :=
  mkParticipant2 (event_id e) id ordinal (tp_role p) (tp_account_id p) (tp_start_position p) (tp_order_id p) (tp_twap_id p)
    (tp_client_order_id p) quantity effect (ev_block_height e).

(** Whether a fact is there already, which then has to be readable. *)
Definition prior_v2_fact (R : Type) {W} `{StateRecord R W} `{Json W} (st : StateView) (key : StateKey) : result ReducerError bool :=
  match bt_get key st with
  | Some l => _ ← map_err prior_fact_error (plain_decode_at (R := R) key l); Ok true
  | None => Ok false
  end.
Definition reject_prior_v2_facts (st : StateView) (trade buyer seller reconciliation : StateKey) : result ReducerError unit :=
  a ← prior_v2_fact TradeStateRecordV2 st trade;
  b ← prior_v2_fact TradeParticipantRecordV2 st buyer;
  c ← prior_v2_fact TradeParticipantRecordV2 st seller;
  d ← prior_v2_fact TradeReconciliationRecordV2 st reconciliation;
  if a || b || c || d
  then Err (trade_error "trade_state.trade_id_collision" "trade identity is already present in canonical V2 state") else Ok tt.

Definition trade_participants (p : Payload.t) : result ReducerError (TradeParticipantV1 * TradeParticipantV1) :=
  match p with
  | Payload.TradeMatched _ _ _ _ _ _ _ (Some participants) => Ok participants
  | _ => Err (trade_error "trade_state.missing_participant_anchors" "V2 trade state requires exact participant anchors")
  end.

Definition trade2_reduce (st : StateView) (e : Envelope) : result ReducerError (list StateMutation) :=
  '(id, market) ← trade_identity (payload e);
  if negb (bool_decide (schema_version e = "1.0.0"%string)) || negb (bool_decide (market_ids e = [market]))
  then Err (invalid_trade_market "trade payload and envelope market must match exactly") else
  let '(price, quantity) := trade_amounts (payload e) in
  _ ← positive_trade price quantity;
  '(buyer, seller) ← trade_participants (payload e);
  if negb (bool_decide (tp_role buyer = Buyer)) || negb (bool_decide (tp_role seller = Seller)) ||
     bool_decide (tp_account_id buyer = tp_account_id seller) ||
     negb (bool_decide (account_ids e = [tp_account_id buyer; tp_account_id seller]))
  then Err (invalid_trade_participants "trade participant anchors must be buyer then seller and match the envelope") else
  key ← map_err trade_codec_error (trade_key TRADE_V2_NAMESPACE id);
  buyer_key ← map_err trade_codec_error (framed_participant_key PARTICIPANT_V2_NAMESPACE id 0);
  seller_key ← map_err trade_codec_error (framed_participant_key PARTICIPANT_V2_NAMESPACE id 1);
  reconciliation_key ← map_err trade_codec_error (trade_key RECONCILIATION_V2_NAMESPACE id);
  _ ← reject_prior_v2_facts st key buyer_key seller_key reconciliation_key;
  buyer_effect ← map_err trade_codec_error (signed_effect quantity Buyer);
  seller_effect ← map_err trade_codec_error (signed_effect quantity Seller);
  let r := mkTrade2 (event_id e) id market price quantity (tp_account_id buyer) (tp_account_id seller)
             (tp_start_position buyer) (tp_start_position seller) (tp_order_id buyer) (tp_order_id seller)
             (tp_twap_id buyer) (tp_twap_id seller) (tp_client_order_id buyer) (tp_client_order_id seller)
             (ev_block_height e) (payload_hash e) in
  let buyer_record := participant_record e id quantity 0 buyer buyer_effect in
  let seller_record := participant_record e id quantity 1 seller seller_effect in
  let reconciliation := mkReconciliation2 (event_id e) id market quantity buyer_effect seller_effect 2 (ev_block_height e)
                          (reconciliation_v2_evidence_hash r buyer_record seller_record) in
  put ← trade_put (Ok key) r;
  put0 ← trade_put (Ok buyer_key) buyer_record;
  put1 ← trade_put (Ok seller_key) seller_record;
  put2 ← trade_put (Ok reconciliation_key) reconciliation;
  Ok [put; put0; put1; put2].
End reducers.

Inductive CanonicalTradeReducerV1 := TradeReducer1.
#[global] Instance trade1_reducer `{Hex} `{TradeJson} `{Blake3} : EventReducer Payload.t CanonicalTradeReducerV1 := {
  reducer_version _ := TRADE_V1_VERSION;
  supports _ := trade1_supports;
  reduce _ st e _ := trade1_reduce st e;
  validate_block_delta _ := default_validate_block_delta default_validate_block;
}.
Inductive CanonicalTradeReducerV2 := TradeReducer2.
#[global] Instance trade2_reducer `{Hex} `{TradeJson} `{Blake3} : EventReducer Payload.t CanonicalTradeReducerV2 := {
  reducer_version _ := TRADE_V2_VERSION;
  supports _ := trade2_supports;
  reduce _ st e _ := trade2_reduce st e;
  validate_block_delta _ := default_validate_block_delta default_validate_block;
}.

(** Both versions as one reducer set. *)
Inductive CanonicalTradeReducerSetV2 := TradeReducerSet2.
#[global] Instance trade_set_reducer `{Hex} `{TradeJson} `{Blake3} : EventReducer Payload.t CanonicalTradeReducerSetV2 := {
  reducer_version _ := "hyperliquid-alpha-desk-canonical-trade-set@2.0.0";
  supports _ := trade1_supports;
  reduce _ st e _ :=
    ms ← trade1_reduce st e;
    if trade2_supports e then v2 ← trade2_reduce st e; Ok (ms ++ v2) else Ok ms;
  validate_block_delta _ := default_validate_block_delta default_validate_block;
}.
