(* ===== verification/Positions.v ===== *)
(** * Position quantities: [position/quantity.rs] and the key codec of [position/codec.rs]

    An enriched trade tells both participants' positions before it. The reducer
    checks the trade against the market's tick and lot, carries each known
    position forward by the signed fill, and refuses a trade whose reported
    start disagrees with the position it knows. *)

From Stdlib Require Import Strings.Byte Strings.String.
From stdpp Require Import sorting.
From S2P Require Import Prelude Ordering BTreeMap Bytes FixedPoint Notional Ids Store StateImage Blocks Ledger Payloads Records Opaque Markets Accounts Trades.

Definition POSITION_VERSION : string := "hyperliquid-alpha-desk-canonical-position@1.0.0".
Definition POSITION_NAMESPACE : string := "position-quantity-current.v1".
Definition POSITION_EFFECT_NAMESPACE : string := "position-effect-fact.v1".
Definition UNRESOLVED_NAMESPACE : string := "position-unresolved-cause-fact.v1".
Definition POSITION_SCHEMA : string := "hyperliquid-alpha-desk/position-quantity-current/v1".
Definition POSITION_EFFECT_SCHEMA : string := "hyperliquid-alpha-desk/position-effect-fact/v1".
Definition UNRESOLVED_SCHEMA : string := "hyperliquid-alpha-desk/position-unresolved-cause-fact/v1".

Definition position_reason_code (e : RecordCodecError) : string :=
  match e with
  | InvalidRecordKey => "position_state.codec.invalid_key"
  | Codec => "position_state.codec.decode"
  | NonCanonical => "position_state.codec.noncanonical"
  | InvalidRecord => "position_state.codec.invalid_record"
  | KeyMismatch => "position_state.codec.key_mismatch"
  | RecordLimitExceeded => "position_state.codec.limit_exceeded"
  end.
Definition position_codec_error (e : RecordCodecError) : ReducerError :=
  mkReducerError (position_reason_code e) "position-state codec or key validation failed".

(** ** Keys *)

(** The frame at the front of the bytes, and the bytes after it. *)
Definition decode_key_frame (encoded : bytes) : result RecordCodecError (bytes * bytes) :=
  if zlen encoded <? KEY_FRAME_BYTES then Err InvalidRecordKey else
  let length := from_be_bytes (take 8 encoded) in
  let rest := drop 8 encoded in
  if length =? 0 then Err InvalidRecordKey else
  if zlen rest <? length then Err InvalidRecordKey else
  Ok (take (Z.to_nat length) rest, drop (Z.to_nat length) rest).

Definition decode_account_market_key (key : StateKey) : result RecordCodecError (Address * MarketId) :=
  '(account, rest) ← decode_key_frame (key_bytes key);
  if negb (zlen account =? 20) then Err InvalidRecordKey else
  '(market, rest) ← decode_key_frame rest;
  if negb (is_empty rest) then Err InvalidRecordKey else
  if negb (utf8_valid market) then Err InvalidRecordKey else
  market ← map_err (fun _ => InvalidRecordKey) (string_id_new (String.string_of_list_byte market));
  Ok (account, market).

Definition account_market_key (ns : string) (a : Address) (m : MarketId) : result RecordCodecError StateKey :=
  framed_key ns [a; as_bytes m].

(** ** Enumerations *)

Inductive PositionAnchorTransitionV1 := FirstObservation | Continued | ReanchoredFromUnresolved.
#[global] Instance PositionAnchorTransitionV1_eq_dec : EqDecision PositionAnchorTransitionV1.
Proof. solve_decision. Defined.
Definition anchor_wire (a : PositionAnchorTransitionV1) : string :=
  match a with
  | FirstObservation => "first_observation" | Continued => "continued" | ReanchoredFromUnresolved => "reanchored_from_unresolved"
  end.
Definition anchor_parse (value : string) : result RecordCodecError PositionAnchorTransitionV1 :=
  field (parse_wire anchor_wire [FirstObservation; Continued; ReanchoredFromUnresolved] value).

Inductive PositionUnresolvedCauseV1 := UnresolvedBackstop.
#[global] Instance PositionUnresolvedCauseV1_eq_dec : EqDecision PositionUnresolvedCauseV1.
Proof. solve_decision. Defined.
Definition cause_wire (c : PositionUnresolvedCauseV1) : string := match c with UnresolvedBackstop => "backstop_liquidation" end.
Definition cause_parse (value : string) : result RecordCodecError PositionUnresolvedCauseV1 :=
  field (parse_wire cause_wire [UnresolvedBackstop] value).

(** ** Records *)

Record PositionQuantityCurrentRecordV1 := mkPosition {
  pq_account_id : Address;
  pq_market_id : MarketId;
  pq_known_quantity : option PositionQuantity;
  pq_first_anchor_event_id : option EventId;
  pq_last_event_id : EventId;
  pq_last_block_height : BlockHeight;
}.
Record PositionQuantityCurrentWireV1 := mkPositionWire {
  pqw_schema : string;
  pqw_account_id : string;
  pqw_market_id : string;
  pqw_known_quantity : option string;
  pqw_first_anchor_event_id : option string;
  pqw_last_event_id : string;
  pqw_last_block_height : Z;
}.
#[global] Instance PositionQuantityCurrentWireV1_eq_dec : EqDecision PositionQuantityCurrentWireV1.
Proof. solve_decision. Defined.

Definition quantity_key (a : Address) (m : MarketId) : result RecordCodecError StateKey := account_market_key POSITION_NAMESPACE a m.

#[global] Instance quantity_record `{Hex} : StateRecord PositionQuantityCurrentRecordV1 PositionQuantityCurrentWireV1 := {
  to_wire r := mkPositionWire POSITION_SCHEMA (to_api_string (pq_account_id r)) (pq_market_id r)
                 (Decimal.to_string <$> pq_known_quantity r) (pq_first_anchor_event_id r) (pq_last_event_id r) (pq_last_block_height r);
  from_wire w :=
    if negb (bool_decide (pqw_schema w = POSITION_SCHEMA)) then Err InvalidRecord else
    account ← field (parse_api (pqw_account_id w));
    market ← field (string_id_new (pqw_market_id w));
    known ← parse_optional Decimal.from_str (pqw_known_quantity w);
    anchor ← parse_optional string_id_new (pqw_first_anchor_event_id w);
    event ← field (string_id_new (pqw_last_event_id w));
    Ok (mkPosition account market known anchor event (pqw_last_block_height w));
  rec_validate r := negb (is_set (pq_known_quantity r) && negb (is_set (pq_first_anchor_event_id r)));
  rec_key r := quantity_key (pq_account_id r) (pq_market_id r);
}.

Record PositionEffectFactRecordV1 := mkPositionEffect {
  pe_event_id : EventId;
  pe_trade_id : TradeId;
  pe_account_id : Address;
  pe_market_id : MarketId;
  pe_role : TradeParticipantRoleV1;
  pe_anchor_transition : PositionAnchorTransitionV1;
  pe_start_position : PositionQuantity;
  pe_fill_quantity : Quantity;
  pe_result_position : PositionQuantity;
  pe_rule_version : string;
}.
Record PositionEffectFactWireV1 := mkPositionEffectWire {
  pew_schema : string;
  pew_event_id : string;
  pew_trade_id : string;
  pew_account_id : string;
  pew_market_id : string;
  pew_role : string;
  pew_anchor_transition : string;
  pew_start_position : string;
  pew_fill_quantity : string;
  pew_result_position : string;
  pew_rule_version : string;
}.
#[global] Instance PositionEffectFactWireV1_eq_dec : EqDecision PositionEffectFactWireV1.
Proof. solve_decision. Defined.

(** A position moved by a fill: up for the buyer, down for the seller. *)
Definition moved_position (role : TradeParticipantRoleV1) (start effect : PositionQuantity) : result ValueError PositionQuantity :=
  match role with Buyer => Decimal.checked_add start effect | Seller => Decimal.checked_sub start effect end.

Definition position_effect_validate (r : PositionEffectFactRecordV1) : bool :=
  if negb (bool_decide (pe_rule_version r = POSITION_VERSION)) || (Decimal.raw (pe_fill_quantity r) <=? 0) ||
     negb (Decimal.scale (pe_start_position r) =? Decimal.scale (pe_fill_quantity r)) ||
     negb (Decimal.scale (pe_result_position r) =? Decimal.scale (pe_fill_quantity r))
  then false else
  match Decimal.from_raw (Decimal.raw (pe_fill_quantity r)) (Decimal.scale (pe_fill_quantity r)) with
  | Ok effect =>
      match moved_position (pe_role r) (pe_start_position r) effect with
      | Ok expected => Decimal.eq expected (pe_result_position r)
      | Err _ => false
      end
  | Err _ => false
  end.

Definition position_effect_key (id : TradeId) (role : TradeParticipantRoleV1) : result RecordCodecError StateKey :=
  framed_key POSITION_EFFECT_NAMESPACE [as_bytes id; as_bytes (encode_role role)].

#[global] Instance position_effect_record `{Hex} : StateRecord PositionEffectFactRecordV1 PositionEffectFactWireV1 := {
  to_wire r := mkPositionEffectWire POSITION_EFFECT_SCHEMA (pe_event_id r) (pe_trade_id r) (to_api_string (pe_account_id r))
                 (pe_market_id r) (encode_role (pe_role r)) (anchor_wire (pe_anchor_transition r))
                 (Decimal.to_string (pe_start_position r)) (Decimal.to_string (pe_fill_quantity r))
                 (Decimal.to_string (pe_result_position r)) (pe_rule_version r);
  from_wire w :=
    if negb (bool_decide (pew_schema w = POSITION_EFFECT_SCHEMA)) then Err InvalidRecord else
    event ← field (string_id_new (pew_event_id w));
    trade ← field (string_id_new (pew_trade_id w));
    account ← field (parse_api (pew_account_id w));
    market ← field (string_id_new (pew_market_id w));
    role ← decode_role (pew_role w);
    anchor ← anchor_parse (pew_anchor_transition w);
    start ← field (Decimal.from_str (pew_start_position w));
    fill ← field (Decimal.from_str (pew_fill_quantity w));
    result ← field (Decimal.from_str (pew_result_position w));
    Ok (mkPositionEffect event trade account market role anchor start fill result (pew_rule_version w));
  rec_validate := position_effect_validate;
  rec_key r := position_effect_key (pe_trade_id r) (pe_role r);
}.

Record PositionUnresolvedCauseFactRecordV1 := mkUnresolved {
  pu_account_id : Address;
  pu_market_id : MarketId;
  pu_event_id : EventId;
  pu_liquidation_id : LiquidationId;
  pu_cause : PositionUnresolvedCauseV1;
}.
Record PositionUnresolvedCauseFactWireV1 := mkUnresolvedWire {
  puw_schema : string;
  puw_account_id : string;
  puw_market_id : string;
  puw_event_id : string;
  puw_liquidation_id : string;
  puw_cause : string;
}.
#[global] Instance PositionUnresolvedCauseFactWireV1_eq_dec : EqDecision PositionUnresolvedCauseFactWireV1.
Proof. solve_decision. Defined.

#[global] Instance unresolved_record `{Hex} : StateRecord PositionUnresolvedCauseFactRecordV1 PositionUnresolvedCauseFactWireV1 := {
  to_wire r := mkUnresolvedWire UNRESOLVED_SCHEMA (to_api_string (pu_account_id r)) (pu_market_id r) (pu_event_id r)
                 (pu_liquidation_id r) (cause_wire (pu_cause r));
  from_wire w :=
    if negb (bool_decide (puw_schema w = UNRESOLVED_SCHEMA)) then Err InvalidRecord else
    account ← field (parse_api (puw_account_id w));
    market ← field (string_id_new (puw_market_id w));
    event ← field (string_id_new (puw_event_id w));
    liquidation ← field (string_id_new (puw_liquidation_id w));
    cause ← cause_parse (puw_cause w);
    Ok (mkUnresolved account market event liquidation cause);
  rec_validate _ := true;
  rec_key r := framed_key UNRESOLVED_NAMESPACE
                 [pu_account_id r; as_bytes (pu_market_id r); as_bytes (pu_event_id r); as_bytes (pu_liquidation_id r)];
}.

(** ** The checks of an enriched trade *)

Inductive TradeValidationError :=
| TradeIdentity
| MarketMissing
| MarketInvalid
| MarketUnresolved
| ScaleNormalization
| PriceTick
| QuantityLot
| PositionArithmetic
| NotionalArithmetic.

Record SourceTradeLeg := mkSourceLeg { sl_role : TradeParticipantRoleV1; sl_account_id : Address; sl_source_start : PositionQuantity }.
Record NormalizedTradeLeg := mkNormalizedLeg { nl_role : TradeParticipantRoleV1; nl_account_id : Address; nl_start : PositionQuantity }.
Record ValidatedTradeLeg := mkLeg {
  leg_role : TradeParticipantRoleV1;
  leg_account_id : Address;
  leg_start : PositionQuantity;
  leg_result : PositionQuantity;
}.

Record TradePrerequisites := mkPrerequisites {
  tq_trade_id : TradeId;
  tq_market_id : MarketId;
  tq_source_price : Price;
  tq_source_fill : Quantity;
  tq_price_scale : Z;
  tq_quantity_scale : Z;
  tq_tick_size : Price;
  tq_lot_size : Quantity;
  tq_legs : SourceTradeLeg * SourceTradeLeg;
}.
Record PreparedTrade := mkPrepared {
  pt_trade_id : TradeId;
  pt_market_id : MarketId;
  pt_price : Price;
  pt_fill : Quantity;
  pt_quantity_scale : Z;
  pt_lot_size : Quantity;
  pt_legs : SourceTradeLeg * SourceTradeLeg;
}.
Record ValidatedTrade := mkValidated {
  vt_trade_id : TradeId;
  vt_market_id : MarketId;
  vt_price : Price;
  vt_fill : Quantity;
  vt_full_notional : ExactQuoteNotional.t;
  vt_quantity_scale : Z;
  vt_legs : ValidatedTradeLeg * ValidatedTradeLeg;
}.

Definition exact_market_contract_validated (market : MarketCurrentRecordV1)
  : result TradeValidationError (Z * Z * Price * Quantity) :=
  if negb (bool_decide (mk_metadata_resolution market = Exact)) then Err MarketUnresolved else
  match mk_price_scale market ≫= int_try U8, mk_quantity_scale market ≫= int_try U8, mk_tick_size market, mk_lot_size market with
  | Some price_scale, Some quantity_scale, Some tick, Some lot =>
      if (0 <? Decimal.raw tick) && (0 <? Decimal.raw lot) && (Decimal.scale tick =? price_scale) && (Decimal.scale lot =? quantity_scale)
      then Ok (price_scale, quantity_scale, tick, lot) else Err MarketInvalid
  | _, _, _, _ => Err MarketInvalid
  end.

(** Prices and quantities are only brought to a finer scale. *)
Definition normalize_validated (value : Decimal.t) (target_scale : Z) : result TradeValidationError Decimal.t :=
  if target_scale <? Decimal.scale value then Err ScaleNormalization else
  map_err (fun _ => ScaleNormalization) (Decimal.rescale value target_scale TowardZero).
Definition normalize_position_validated (value : PositionQuantity) (target_scale : Z) : result TradeValidationError PositionQuantity :=
  map_err (fun _ => ScaleNormalization) (checked_rescale_up value target_scale).

Definition prepare_enriched_trade (p : TradePrerequisites) : result TradeValidationError PreparedTrade :=
  price ← normalize_validated (tq_source_price p) (tq_price_scale p);
  fill ← normalize_validated (tq_source_fill p) (tq_quantity_scale p);
  if (Decimal.raw price <=? 0) || negb (Z.rem (Decimal.raw price) (Decimal.raw (tq_tick_size p)) =? 0) then Err PriceTick else
  if (Decimal.raw fill <=? 0) || negb (Z.rem (Decimal.raw fill) (Decimal.raw (tq_lot_size p)) =? 0) then Err QuantityLot else
  Ok (mkPrepared (tq_trade_id p) (tq_market_id p) price fill (tq_quantity_scale p) (tq_lot_size p) (tq_legs p)).

(** [normalize_prepared_trade_leg] and [normalize_prerequisite_trade_leg], on the leg at their index. *)
Definition normalize_trade_leg (source : SourceTradeLeg) (quantity_scale : Z) : result TradeValidationError NormalizedTradeLeg :=
  start ← normalize_position_validated (sl_source_start source) quantity_scale;
  Ok (mkNormalizedLeg (sl_role source) (sl_account_id source) start).

Definition finish_leg (p : PreparedTrade) (effect : PositionQuantity) (source : SourceTradeLeg) : result TradeValidationError ValidatedTradeLeg :=
  leg ← normalize_trade_leg source (pt_quantity_scale p);
  if negb (Z.rem (Decimal.raw (nl_start leg)) (Decimal.raw (pt_lot_size p)) =? 0) then Err QuantityLot else
  result ← map_err (fun _ => PositionArithmetic) (moved_position (nl_role leg) (nl_start leg) effect);
  if negb (Z.rem (Decimal.raw result) (Decimal.raw (pt_lot_size p)) =? 0) then Err QuantityLot else
  Ok (mkLeg (nl_role leg) (nl_account_id leg) (nl_start leg) result).

Definition finish_prepared_enriched_trade (p : PreparedTrade) : result TradeValidationError ValidatedTrade :=
  effect ← map_err (fun _ => PositionArithmetic) (Decimal.from_raw (Decimal.raw (pt_fill p)) (pt_quantity_scale p));
  _ ← map_err (fun _ => PositionArithmetic) (Decimal.from_raw 0 (pt_quantity_scale p));
  first ← finish_leg p effect (pt_legs p).1;
  second ← finish_leg p effect (pt_legs p).2;
  notional ← map_err (fun _ => NotionalArithmetic) (ExactQuoteNotional.checked_product (pt_price p) (pt_fill p));
  Ok (mkValidated (pt_trade_id p) (pt_market_id p) (pt_price p) (pt_fill p) notional (pt_quantity_scale p) (first, second)).

Class PositionJson := {
  json_quantity :: Json PositionQuantityCurrentWireV1;
  json_position_effect :: Json PositionEffectFactWireV1;
  json_unresolved :: Json PositionUnresolvedCauseFactWireV1;
}.

Section validation.
Context `{Hex} `{MarketJson}.

Definition load_market_validated (st : StateView) (id : MarketId) : result TradeValidationError MarketCurrentRecordV1 :=
  key ← map_err (fun _ => MarketInvalid) (market_key id);
  l ← bt_get key st ?? MarketMissing;
  map_err (fun _ => MarketInvalid) (plain_decode_at (R := MarketCurrentRecordV1) key l).

Definition validate_exact_market (st : StateView) (id : MarketId) : result TradeValidationError (Z * Z * Price * Quantity) :=
  market ← load_market_validated st id;
  exact_market_contract_validated market.

Definition validate_enriched_trade_prerequisites (st : StateView) (e : Envelope) : result TradeValidationError TradePrerequisites :=
  match payload e with
  | Payload.TradeMatched trade_id market_id _ _ price quantity _ participants =>
      id ← trade_id ?? TradeIdentity;
      market ← market_id ?? TradeIdentity;
      '(buyer, seller) ← participants ?? TradeIdentity;
      if negb (bool_decide (tp_role buyer = Buyer)) || negb (bool_decide (tp_role seller = Seller)) ||
         bool_decide (tp_account_id buyer = tp_account_id seller) || negb (bool_decide (market_ids e = [market])) ||
         negb (bool_decide (account_ids e = [tp_account_id buyer; tp_account_id seller]))
      then Err TradeIdentity else
      '(price_scale, quantity_scale, tick, lot) ← validate_exact_market st market;
      Ok (mkPrerequisites id market price quantity price_scale quantity_scale tick lot
            (mkSourceLeg Buyer (tp_account_id buyer) (tp_start_position buyer),
             mkSourceLeg Seller (tp_account_id seller) (tp_start_position seller)))
  | _ => Err TradeIdentity
  end.

Definition validate_enriched_trade (st : StateView) (e : Envelope) : result TradeValidationError ValidatedTrade :=
  prerequisites ← validate_enriched_trade_prerequisites st e;
  prepared ← prepare_enriched_trade prerequisites;
  finish_prepared_enriched_trade prepared.
End validation.

(** ** The reducer *)

Definition position_error (code message : string) : ReducerError := mkReducerError code message.
Definition map_trade_validation_for_quantity (e : TradeValidationError) : ReducerError :=
  match e with
  | TradeIdentity => position_error "position_state.identity_mismatch" "trade payload and envelope identities must match exactly"
  | MarketMissing => position_error "position_state.market_prerequisite_missing" "market prerequisite is missing"
  | MarketInvalid => position_error "position_state.market_prerequisite_invalid" "market prerequisite is corrupt, key mismatched, or internally invalid"
  | MarketUnresolved => position_error "position_state.market_metadata_unresolved" "market prerequisite metadata is unresolved"
  | ScaleNormalization => position_error "position_state.scale_normalization" "trade values cannot be normalized upward exactly"
  | PriceTick => position_error "position_state.price_tick_misaligned" "trade price is not positive and tick aligned"
  | QuantityLot => position_error "position_state.quantity_lot_misaligned" "trade quantity or position is not lot aligned"
  | PositionArithmetic => position_error "position_state.position_arithmetic" "position arithmetic cannot be represented exactly"
  | NotionalArithmetic => position_error "position_state.notional_arithmetic" "normalized exact notional cannot be represented"
  end.

Definition position_supports (e : Envelope) : bool :=
  match event_kind e with TradeMatched => true | _ => false end && bool_decide (schema_version e = "1.0.0"%string) &&
  match payload e with Payload.TradeMatched _ _ _ _ _ _ _ participants => is_set participants | _ => false end.

Definition ensure_unique_position_keys (ms : list StateMutation) : result ReducerError unit :=
  if unique_keys [] ms then Ok tt
  else Err (position_error "position_state.duplicate_mutation_key" "position event produced duplicate mutation keys").

Section reducer.
Context `{Hex} `{MarketJson} `{PositionJson}.

Definition load_position (st : StateView) (key : StateKey) : result ReducerError (option PositionQuantityCurrentRecordV1) :=
  match bt_get key st with
  | Some l =>
      r ← map_err (fun _ => position_error "position_state.current_record_invalid" "position current record is corrupt or key mismatched")
            (record_decode_at (R := PositionQuantityCurrentRecordV1) key l);
      Ok (Some r)
  | None => Ok None
  end.

Definition reject_prior_effect (st : StateView) (key : StateKey) : result ReducerError unit :=
  match bt_get key st with
  | None => Ok tt
  | Some l =>
      _ ← map_err position_codec_error (record_decode_at (R := PositionEffectFactRecordV1) key l);
      Err (position_error "position_state.effect_collision" "position effect identity is already present")
  end.

(** How the position was known before the trade, and the event that first anchored it. *)
Definition anchor_of (current : option PositionQuantityCurrentRecordV1) (e : Envelope) (leg : ValidatedTradeLeg) (quantity_scale : Z)
  : result ReducerError (PositionAnchorTransitionV1 * EventId) :=
  match current with
  | None => Ok (FirstObservation, event_id e)
  | Some current =>
      match pq_known_quantity current with
      | Some known =>
          known ← map_err map_trade_validation_for_quantity (normalize_position_validated known quantity_scale);
          if negb (Decimal.eq known (leg_start leg))
          then Err (position_error "position_state.start_position_mismatch" "source start position does not match known current position") else
          anchor ← pq_first_anchor_event_id current ??
            position_error "position_state.current_record_invalid" "position current record violates its anchor invariant";
          Ok (Continued, anchor)
      | None => Ok (ReanchoredFromUnresolved, default (event_id e) (pq_first_anchor_event_id current))
      end
  end.

Definition position_leg (st : StateView) (e : Envelope) (trade : ValidatedTrade) (leg : ValidatedTradeLeg)
  : result ReducerError (StateMutation * StateMutation) :=
  current_key ← map_err position_codec_error (quantity_key (leg_account_id leg) (vt_market_id trade));
  current ← load_position st current_key;
  '(transition, anchor) ← anchor_of current e leg (vt_quantity_scale trade);
  effect_key ← map_err position_codec_error (position_effect_key (vt_trade_id trade) (leg_role leg));
  _ ← reject_prior_effect st effect_key;
  let effect := mkPositionEffect (event_id e) (vt_trade_id trade) (leg_account_id leg) (vt_market_id trade) (leg_role leg)
                  transition (leg_start leg) (vt_fill trade) (leg_result leg) POSITION_VERSION in
  current ← map_err position_codec_error
    (try_record (mkPosition (leg_account_id leg) (vt_market_id trade) (Some (leg_result leg)) (Some anchor) (event_id e) (ev_block_height e)));
  effect_bytes ← map_err position_codec_error (record_encode effect);
  current_bytes ← map_err position_codec_error (record_encode current);
  Ok (Put effect_key effect_bytes, Put current_key current_bytes).

Definition position_reduce (st : StateView) (e : Envelope) : result ReducerError (list StateMutation) :=
  if negb (position_supports e)
  then Err (position_error "position_state.unsupported_event" "position reducer received an unsupported event") else
  trade ← map_err map_trade_validation_for_quantity (validate_enriched_trade st e);
  '(effect0, current0) ← position_leg st e trade (vt_legs trade).1;
  '(effect1, current1) ← position_leg st e trade (vt_legs trade).2;
  let ms := [effect0; effect1; current0; current1] in
  _ ← ensure_unique_position_keys ms;
  Ok ms.
End reducer.

Inductive CanonicalPositionReducerV1 := PositionReducer.
#[global] Instance position_reducer `{Hex} `{MarketJson} `{PositionJson} : EventReducer Payload.t CanonicalPositionReducerV1 := {
  reducer_version _ := POSITION_VERSION;
  supports _ := position_supports;
  reduce _ st e _ := position_reduce st e;
  validate_block_delta _ := default_validate_block_delta default_validate_block;
}.
