(* ===== verification/Episodes.v ===== *)
(** * Position episodes: [position/episodes.rs]

    An episode runs from the event that opens a position to the one that
    closes it: its opening position, the quantities and notionals bought and
    sold, the funding paid and received. The reducer extends the open episode
    of each participant of a trade, closes it when the position is flat, and
    splits a trade that crosses zero between the episode it closes and the one
    it opens. Before a block is accepted, every position it touched is checked
    against its episode. *)

From Stdlib Require Import Strings.Ascii Strings.Byte Strings.String.
From stdpp Require Import sorting.
From S2P Require Import Prelude Ordering BTreeMap Bytes FixedPoint Notional Ids Store StateImage Blocks Ledger Payloads Records Opaque Markets Accounts Trades Positions.

Definition EPISODE_VERSION : string := "hyperliquid-alpha-desk-canonical-position-episode@1.0.0".
Definition EPISODE_NAMESPACE : string := "position-episode.v1".
Definition EPISODE_SCHEMA : string := "hyperliquid-alpha-desk/position-episode/v1".
Definition EPISODE_CURRENT_NAMESPACE : string := "position-episode-current.v1".
Definition EPISODE_CURRENT_SCHEMA : string := "hyperliquid-alpha-desk/position-episode-current/v1".
Definition EPISODE_EFFECT_NAMESPACE : string := "position-episode-effect-fact.v1".
Definition EPISODE_EFFECT_SCHEMA : string := "hyperliquid-alpha-desk/position-episode-effect-fact/v1".
Definition EPISODE_ID_CONTEXT : string := "hyperliquid-alpha-desk/position-episode-id/v1".
Definition EPISODE_ID_PREFIX : string := "pos_ep_".
Definition MAX_IDENTITY_BYTES : Z := 64 * 1024.
Definition MAX_LEG_ORDINAL : Z := 1.

Definition PositionEpisodeId := string.

(** ** Enumerations *)

Inductive EpisodeCompletenessV1 := CompleteFromFlat | PartialFromFirstObservation.
#[global] Instance EpisodeCompletenessV1_eq_dec : EqDecision EpisodeCompletenessV1.
Proof. solve_decision. Defined.
Definition completeness_wire (c : EpisodeCompletenessV1) : string :=
  match c with CompleteFromFlat => "complete_from_flat" | PartialFromFirstObservation => "partial_from_first_observation" end.
Definition completeness_parse (value : string) : result RecordCodecError EpisodeCompletenessV1 :=
  field (parse_wire completeness_wire [CompleteFromFlat; PartialFromFirstObservation] value).

Module CloseCause.
Inductive t := TradeFlat | TradeReversal | LiquidationFill | Settlement | BackstopInterrupted.
#[global] Instance t_eq_dec : EqDecision t.
Proof. solve_decision. Defined.
Definition wire (c : t) : string :=
  match c with
  | TradeFlat => "trade_flat" | TradeReversal => "trade_reversal" | LiquidationFill => "liquidation_fill"
  | Settlement => "settlement" | BackstopInterrupted => "backstop_interrupted"
  end.
Definition parse (value : string) : result RecordCodecError t :=
  field (parse_wire wire [TradeFlat; TradeReversal; LiquidationFill; Settlement; BackstopInterrupted] value).
(** A trade closes an episode, everything else interrupts it. *)
Definition by_trade (c : t) : bool := match c with TradeFlat | TradeReversal => true | _ => false end.
End CloseCause.

Module EpisodeStatus.
Inductive t := Open | Closed | Interrupted.
#[global] Instance t_eq_dec : EqDecision t.
Proof. solve_decision. Defined.
Definition wire (s : t) : string := match s with Open => "open" | Closed => "closed" | Interrupted => "interrupted" end.
Definition parse (value : string) : result RecordCodecError t := field (parse_wire wire [Open; Closed; Interrupted] value).
End EpisodeStatus.

Module Attribution.
Inductive t := NoOpenEpisode | Resolved | Interrupted.
#[global] Instance t_eq_dec : EqDecision t.
Proof. solve_decision. Defined.
Definition wire (a : t) : string :=
  match a with NoOpenEpisode => "no_open_episode" | Resolved => "resolved" | Interrupted => "interrupted" end.
Definition parse (value : string) : result RecordCodecError t := field (parse_wire wire [NoOpenEpisode; Resolved; Interrupted] value).
End Attribution.

Module EffectKind.
Inductive t := Opened | Updated | Closed | Interrupted.
#[global] Instance t_eq_dec : EqDecision t.
Proof. solve_decision. Defined.
Definition wire (k : t) : string :=
  match k with Opened => "opened" | Updated => "updated" | Closed => "closed" | Interrupted => "interrupted" end.
Definition parse (value : string) : result RecordCodecError t := field (parse_wire wire [Opened; Updated; Closed; Interrupted] value).
End EffectKind.

(** ** Identities and shared checks *)

Definition require_ordinal (value : Z) : bool := value <=? MAX_LEG_ORDINAL.

Definition episode_id_shape (id : PositionEpisodeId) : bool :=
  let text := as_bytes id in
  let prefix := as_bytes EPISODE_ID_PREFIX in
  (zlen text =? zlen prefix + 64) && bool_decide (take (length prefix) text = prefix) &&
  forallb (fun b => byte_between 48 57 b || byte_between 97 102 b) (drop (length prefix) text).

Fixpoint identity_len (total : Z) (identities : list bytes) : option Z :=
  match identities with
  | [] => Some total
  | i :: identities => int_add USIZE total 8 ≫= fun t => int_add USIZE t (zlen i) ≫= fun t => identity_len t identities
  end.

Definition derive_position_episode_id `{Hex} `{Blake3} (a : Address) (m : MarketId) (anchor : EventId) (ordinal : Z)
  : result RecordCodecError PositionEpisodeId :=
  _ ← check (require_ordinal ordinal);
  let identities := [a; as_bytes m; as_bytes anchor] in
  len ← identity_len 1 identities ?? InvalidRecordKey;
  if MAX_IDENTITY_BYTES <? len then Err InvalidRecordKey else
  let digest := derive_key_hash EPISODE_ID_CONTEXT (concat (frame 8 <$> identities) ++ [byte_of_Z ordinal]) in
  field (string_id_new (EPISODE_ID_PREFIX +:+ hex_encode digest)).

Definition valid_close (status : EpisodeStatus.t) (event : option EventId) (cause : option CloseCause.t) : bool :=
  match status, event, cause with
  | EpisodeStatus.Open, None, None => true
  | EpisodeStatus.Closed, Some _, Some c => CloseCause.by_trade c
  | EpisodeStatus.Interrupted, Some _, Some c => negb (CloseCause.by_trade c)
  | _, _, _ => false
  end.
Definition valid_effect_close (kind : EffectKind.t) (cause : option CloseCause.t) : bool :=
  match kind, cause with
  | (EffectKind.Opened | EffectKind.Updated), None => true
  | EffectKind.Closed, Some c => CloseCause.by_trade c
  | EffectKind.Interrupted, Some c => negb (CloseCause.by_trade c)
  | _, _ => false
  end.

Definition starts_with_minus (s : string) : bool := match s with String "-" _ => true | _ => false end%char.
Definition valid_amounts (buy_quantity : Quantity) (buy_notional : ExactQuoteNotional.t) (sell_quantity : Quantity)
    (sell_notional : ExactQuoteNotional.t) (funding_paid funding_received : QuoteAmount) : bool :=
  let buy_text := ExactQuoteNotional.to_string buy_notional in
  let sell_text := ExactQuoteNotional.to_string sell_notional in
  negb ((Decimal.raw buy_quantity <? 0) || (Decimal.raw sell_quantity <? 0) || (Decimal.raw funding_paid <? 0) ||
        (Decimal.raw funding_received <? 0) || starts_with_minus buy_text || starts_with_minus sell_text ||
        xorb (Decimal.raw buy_quantity =? 0) (bool_decide (buy_text = "0"%string)) ||
        xorb (Decimal.raw sell_quantity =? 0) (bool_decide (sell_text = "0"%string))).

(** ** Records *)

Record PositionEpisodeRecordV1 := mkEpisode {
  ep_episode_id : PositionEpisodeId;
  ep_account_id : Address;
  ep_market_id : MarketId;
  ep_opening_anchor_event_id : EventId;
  ep_opening_leg_ordinal : Z;
  ep_opening_position : PositionQuantity;
  ep_close_event_id : option EventId;
  ep_close_cause : option CloseCause.t;
  ep_completeness : EpisodeCompletenessV1;
  ep_buy_quantity : Quantity;
  ep_buy_notional : ExactQuoteNotional.t;
  ep_sell_quantity : Quantity;
  ep_sell_notional : ExactQuoteNotional.t;
  ep_funding_paid : QuoteAmount;
  ep_funding_received : QuoteAmount;
  ep_status : EpisodeStatus.t;
  ep_last_event_id : EventId;
  ep_last_block_height : BlockHeight;
}.
Record PositionEpisodeWireV1 := mkEpisodeWire {
  epw_schema : string;
  epw_episode_id : string;
  epw_account_id : string;
  epw_market_id : string;
  epw_opening_anchor_event_id : string;
  epw_opening_leg_ordinal : Z;
  epw_opening_position : string;
  epw_close_event_id : option string;
  epw_close_cause : option string;
  epw_completeness : string;
  epw_buy_quantity : string;
  epw_buy_notional : string;
  epw_sell_quantity : string;
  epw_sell_notional : string;
  epw_funding_paid : string;
  epw_funding_received : string;
  epw_status : string;
  epw_last_event_id : string;
  epw_last_block_height : Z;
}.
#[global] Instance PositionEpisodeWireV1_eq_dec : EqDecision PositionEpisodeWireV1.
Proof. solve_decision. Defined.

Definition episode_to_wire `{Hex} (r : PositionEpisodeRecordV1) : PositionEpisodeWireV1 :=
  mkEpisodeWire EPISODE_SCHEMA (ep_episode_id r) (to_api_string (ep_account_id r)) (ep_market_id r) (ep_opening_anchor_event_id r)
    (ep_opening_leg_ordinal r) (Decimal.to_string (ep_opening_position r)) (ep_close_event_id r)
    (CloseCause.wire <$> ep_close_cause r) (completeness_wire (ep_completeness r)) (Decimal.to_string (ep_buy_quantity r))
    (ExactQuoteNotional.to_string (ep_buy_notional r)) (Decimal.to_string (ep_sell_quantity r))
    (ExactQuoteNotional.to_string (ep_sell_notional r)) (Decimal.to_string (ep_funding_paid r))
    (Decimal.to_string (ep_funding_received r)) (EpisodeStatus.wire (ep_status r)) (ep_last_event_id r) (ep_last_block_height r).

Definition parse_close_cause (value : option string) : result RecordCodecError (option CloseCause.t) :=
  match value with Some v => c ← CloseCause.parse v; Ok (Some c) | None => Ok None end.

Definition episode_from_wire `{Hex} (w : PositionEpisodeWireV1) : result RecordCodecError PositionEpisodeRecordV1 :=
  if negb (bool_decide (epw_schema w = EPISODE_SCHEMA)) then Err InvalidRecord else
  id ← field (string_id_new (epw_episode_id w));
  account ← field (parse_api (epw_account_id w));
  market ← field (string_id_new (epw_market_id w));
  anchor ← field (string_id_new (epw_opening_anchor_event_id w));
  opening ← field (Decimal.from_str (epw_opening_position w));
  close_event ← parse_optional string_id_new (epw_close_event_id w);
  cause ← parse_close_cause (epw_close_cause w);
  completeness ← completeness_parse (epw_completeness w);
  buy ← field (Decimal.from_str (epw_buy_quantity w));
  buy_notional ← field (ExactQuoteNotional.from_str (epw_buy_notional w));
  sell ← field (Decimal.from_str (epw_sell_quantity w));
  sell_notional ← field (ExactQuoteNotional.from_str (epw_sell_notional w));
  paid ← field (Decimal.from_str (epw_funding_paid w));
  received ← field (Decimal.from_str (epw_funding_received w));
  status ← EpisodeStatus.parse (epw_status w);
  event ← field (string_id_new (epw_last_event_id w));
  Ok (mkEpisode id account market anchor (epw_opening_leg_ordinal w) opening close_event cause completeness buy buy_notional
        sell sell_notional paid received status event (epw_last_block_height w)).

Definition episode_key (id : PositionEpisodeId) : result RecordCodecError StateKey :=
  _ ← check (episode_id_shape id);
  framed_key EPISODE_NAMESPACE [as_bytes id].

Definition episode_validate `{Hex} `{Blake3} (r : PositionEpisodeRecordV1) : bool :=
  require_ordinal (ep_opening_leg_ordinal r) && episode_id_shape (ep_episode_id r) &&
  match derive_position_episode_id (ep_account_id r) (ep_market_id r) (ep_opening_anchor_event_id r) (ep_opening_leg_ordinal r) with
  | Ok expected => bool_decide (expected = ep_episode_id r)
  | Err _ => false
  end &&
  match ep_completeness r with
  | CompleteFromFlat => Decimal.raw (ep_opening_position r) =? 0
  | PartialFromFirstObservation => negb (Decimal.raw (ep_opening_position r) =? 0)
  end &&
  valid_close (ep_status r) (ep_close_event_id r) (ep_close_cause r) &&
  valid_amounts (ep_buy_quantity r) (ep_buy_notional r) (ep_sell_quantity r) (ep_sell_notional r) (ep_funding_paid r)
    (ep_funding_received r).

(** [validate] reports an identity that cannot be derived as an invalid key;
    nothing that reads or writes an episode tells the two errors apart. *)
#[global] Instance episode_record `{Hex} `{Blake3} : StateRecord PositionEpisodeRecordV1 PositionEpisodeWireV1 := {
  to_wire := episode_to_wire;
  from_wire := episode_from_wire;
  rec_validate := episode_validate;
  rec_key r := episode_key (ep_episode_id r);
}.

(** What a fully observed episode earned by trading. *)
Definition observed_signed_trade_notional_delta (r : PositionEpisodeRecordV1) : result RecordCodecError (option ExactQuoteNotional.t) :=
  if negb (bool_decide (ep_completeness r = CompleteFromFlat)) || negb (bool_decide (ep_status r = EpisodeStatus.Closed)) ||
     negb match ep_close_cause r with Some c => CloseCause.by_trade c | None => false end
  then Ok None else
  delta ← field (ExactQuoteNotional.checked_sub (ep_sell_notional r) (ep_buy_notional r));
  Ok (Some delta).

Record PositionEpisodeCurrentRecordV1 := mkEpisodeCurrent {
  ec_account_id : Address;
  ec_market_id : MarketId;
  ec_episode_id : option PositionEpisodeId;
  ec_attribution_resolution : Attribution.t;
  ec_last_event_id : EventId;
  ec_last_block_height : BlockHeight;
}.
Record PositionEpisodeCurrentWireV1 := mkEpisodeCurrentWire {
  ecw_schema : string;
  ecw_account_id : string;
  ecw_market_id : string;
  ecw_episode_id : option string;
  ecw_attribution_resolution : string;
  ecw_last_event_id : string;
  ecw_last_block_height : Z;
}.
#[global] Instance PositionEpisodeCurrentWireV1_eq_dec : EqDecision PositionEpisodeCurrentWireV1.
Proof. solve_decision. Defined.

Definition episode_current_key (a : Address) (m : MarketId) : result RecordCodecError StateKey :=
  account_market_key EPISODE_CURRENT_NAMESPACE a m.

#[global] Instance episode_current_record `{Hex} : StateRecord PositionEpisodeCurrentRecordV1 PositionEpisodeCurrentWireV1 := {
  to_wire r := mkEpisodeCurrentWire EPISODE_CURRENT_SCHEMA (to_api_string (ec_account_id r)) (ec_market_id r) (ec_episode_id r)
                 (Attribution.wire (ec_attribution_resolution r)) (ec_last_event_id r) (ec_last_block_height r);
  from_wire w :=
    if negb (bool_decide (ecw_schema w = EPISODE_CURRENT_SCHEMA)) then Err InvalidRecord else
    account ← field (parse_api (ecw_account_id w));
    market ← field (string_id_new (ecw_market_id w));
    id ← parse_optional string_id_new (ecw_episode_id w);
    attribution ← Attribution.parse (ecw_attribution_resolution w);
    event ← field (string_id_new (ecw_last_event_id w));
    Ok (mkEpisodeCurrent account market id attribution event (ecw_last_block_height w));
  rec_validate r :=
    match ec_attribution_resolution r, ec_episode_id r with
    | Attribution.Resolved, Some id => episode_id_shape id
    | (Attribution.NoOpenEpisode | Attribution.Interrupted), None => true
    | _, _ => false
    end;
  rec_key r := episode_current_key (ec_account_id r) (ec_market_id r);
}.

Record PositionEpisodeEffectFactRecordV1 := mkEpisodeEffect {
  ee_event_id : EventId;
  ee_account_id : Address;
  ee_market_id : MarketId;
  ee_leg_ordinal : Z;
  ee_episode_id : PositionEpisodeId;
  ee_effect_kind : EffectKind.t;
  ee_buy_quantity_delta : Quantity;
  ee_buy_notional_delta : ExactQuoteNotional.t;
  ee_sell_quantity_delta : Quantity;
  ee_sell_notional_delta : ExactQuoteNotional.t;
  ee_funding_paid_delta : QuoteAmount;
  ee_funding_received_delta : QuoteAmount;
  ee_close_cause : option CloseCause.t;
  ee_rule_version : string;
}.
Record PositionEpisodeEffectFactWireV1 := mkEpisodeEffectWire {
  eew_schema : string;
  eew_event_id : string;
  eew_account_id : string;
  eew_market_id : string;
  eew_leg_ordinal : Z;
  eew_episode_id : string;
  eew_effect_kind : string;
  eew_buy_quantity_delta : string;
  eew_buy_notional_delta : string;
  eew_sell_quantity_delta : string;
  eew_sell_notional_delta : string;
  eew_funding_paid_delta : string;
  eew_funding_received_delta : string;
  eew_close_cause : option string;
  eew_rule_version : string;
}.
#[global] Instance PositionEpisodeEffectFactWireV1_eq_dec : EqDecision PositionEpisodeEffectFactWireV1.
Proof. solve_decision. Defined.

Definition episode_effect_key (event : EventId) (a : Address) (m : MarketId) (ordinal : Z) : result RecordCodecError StateKey :=
  _ ← check (require_ordinal ordinal);
  framed_key EPISODE_EFFECT_NAMESPACE [as_bytes event; a; as_bytes m; [byte_of_Z ordinal]].

Definition episode_effect_to_wire `{Hex} (r : PositionEpisodeEffectFactRecordV1) : PositionEpisodeEffectFactWireV1 :=
  mkEpisodeEffectWire EPISODE_EFFECT_SCHEMA (ee_event_id r) (to_api_string (ee_account_id r)) (ee_market_id r) (ee_leg_ordinal r)
    (ee_episode_id r) (EffectKind.wire (ee_effect_kind r)) (Decimal.to_string (ee_buy_quantity_delta r))
    (ExactQuoteNotional.to_string (ee_buy_notional_delta r)) (Decimal.to_string (ee_sell_quantity_delta r))
    (ExactQuoteNotional.to_string (ee_sell_notional_delta r)) (Decimal.to_string (ee_funding_paid_delta r))
    (Decimal.to_string (ee_funding_received_delta r)) (CloseCause.wire <$> ee_close_cause r) (ee_rule_version r).

Definition episode_effect_from_wire `{Hex} (w : PositionEpisodeEffectFactWireV1)
  : result RecordCodecError PositionEpisodeEffectFactRecordV1 :=
  if negb (bool_decide (eew_schema w = EPISODE_EFFECT_SCHEMA)) then Err InvalidRecord else
  event ← field (string_id_new (eew_event_id w));
  account ← field (parse_api (eew_account_id w));
  market ← field (string_id_new (eew_market_id w));
  id ← field (string_id_new (eew_episode_id w));
  kind ← EffectKind.parse (eew_effect_kind w);
  buy ← field (Decimal.from_str (eew_buy_quantity_delta w));
  buy_notional ← field (ExactQuoteNotional.from_str (eew_buy_notional_delta w));
  sell ← field (Decimal.from_str (eew_sell_quantity_delta w));
  sell_notional ← field (ExactQuoteNotional.from_str (eew_sell_notional_delta w));
  paid ← field (Decimal.from_str (eew_funding_paid_delta w));
  received ← field (Decimal.from_str (eew_funding_received_delta w));
  cause ← parse_close_cause (eew_close_cause w);
  Ok (mkEpisodeEffect event account market (eew_leg_ordinal w) id kind buy buy_notional sell sell_notional paid received cause
        (eew_rule_version w)).

Definition episode_effect_validate (r : PositionEpisodeEffectFactRecordV1) : bool :=
  require_ordinal (ee_leg_ordinal r) && episode_id_shape (ee_episode_id r) && bool_decide (ee_rule_version r = EPISODE_VERSION) &&
  valid_effect_close (ee_effect_kind r) (ee_close_cause r) &&
  valid_amounts (ee_buy_quantity_delta r) (ee_buy_notional_delta r) (ee_sell_quantity_delta r) (ee_sell_notional_delta r)
    (ee_funding_paid_delta r) (ee_funding_received_delta r).

#[global] Instance episode_effect_record `{Hex} : StateRecord PositionEpisodeEffectFactRecordV1 PositionEpisodeEffectFactWireV1 := {
  to_wire := episode_effect_to_wire;
  from_wire := episode_effect_from_wire;
  rec_validate := episode_effect_validate;
  rec_key r := episode_effect_key (ee_event_id r) (ee_account_id r) (ee_market_id r) (ee_leg_ordinal r);
}.

(** ** Errors *)

Definition episode_error (code message : string) : ReducerError := mkReducerError code message.
Definition episode_identity_mismatch := episode_error "position_episode.identity_mismatch" "payload and envelope identities must match exactly".
Definition quantity_current_invalid :=
  episode_error "position_episode.quantity_current_invalid" "position quantity current is corrupt or key mismatched".
Definition episode_current_invalid :=
  episode_error "position_episode.episode_current_invalid" "position episode current is corrupt or key mismatched".
Definition episode_reference_invalid :=
  episode_error "position_episode.episode_reference_invalid" "resolved position episode reference is missing or invalid".
Definition current_pair_mismatch :=
  episode_error "position_episode.current_pair_mismatch" "position quantity and episode currents disagree".
Definition start_position_mismatch :=
  episode_error "position_episode.start_position_mismatch" "source start position does not match known current position".
Definition episode_quantity_arithmetic :=
  episode_error "position_episode.quantity_arithmetic" "position episode quantity arithmetic failed".
Definition notional_arithmetic := episode_error "position_episode.notional_arithmetic" "position episode notional arithmetic failed".
Definition funding_arithmetic := episode_error "position_episode.funding_arithmetic" "position episode funding arithmetic failed".
Definition effect_prior_invalid := episode_error "position_episode.effect_prior_invalid" "prior position episode effect is invalid".
Definition episode_prior_invalid := episode_error "position_episode.episode_prior_invalid" "prior position episode is invalid".
Definition market_prerequisite_missing :=
  episode_error "position_episode.market_prerequisite_missing" "market prerequisite is missing".
Definition market_prerequisite_invalid :=
  episode_error "position_episode.market_prerequisite_invalid" "market prerequisite is corrupt, key mismatched, or internally invalid".
Definition market_prerequisite_unresolved :=
  episode_error "position_episode.market_prerequisite_unresolved" "market prerequisite metadata is unresolved".

Definition map_trade_validation_for_episode (e : TradeValidationError) : ReducerError :=
  match e with
  | TradeIdentity => episode_identity_mismatch
  | MarketMissing => market_prerequisite_missing
  | MarketInvalid => market_prerequisite_invalid
  | MarketUnresolved => market_prerequisite_unresolved
  | NotionalArithmetic => notional_arithmetic
  | ScaleNormalization | PriceTick | QuantityLot | PositionArithmetic => episode_quantity_arithmetic
  end.
Definition map_funding_market_validation (e : TradeValidationError) : ReducerError :=
  match e with
  | MarketMissing => market_prerequisite_missing
  | MarketInvalid => market_prerequisite_invalid
  | MarketUnresolved => market_prerequisite_unresolved
  | _ => episode_error "position_episode.market_prerequisite_invalid" "market prerequisite validation failed"
  end.

(** ** Arithmetic *)

Definition quantity_step {A} (r : result ValueError A) : result ReducerError A := map_err (fun _ => episode_quantity_arithmetic) r.
Definition notional_step {A} (r : result ValueError A) : result ReducerError A := map_err (fun _ => notional_arithmetic) r.
Definition funding_step {A} (r : result ValueError A) : result ReducerError A := map_err (fun _ => funding_arithmetic) r.

Definition zero_quantity (scale : Z) : result ReducerError Quantity := quantity_step (Decimal.from_raw 0 scale).
Definition zero_quote (scale : Z) : result ReducerError QuoteAmount := funding_step (Decimal.from_raw 0 scale).
(** The literal ["0"], which parses. *)
Definition zero_notional : ExactQuoteNotional.t := ExactQuoteNotional.mk 0 0.
Lemma zero_notional_literal : ExactQuoteNotional.from_str "0" = Ok zero_notional.
Proof. reflexivity. Qed.

Definition completeness_for_start (start : PositionQuantity) : EpisodeCompletenessV1 :=
  if Decimal.raw start =? 0 then CompleteFromFlat else PartialFromFirstObservation.
Definition checked_position_magnitude (p : PositionQuantity) : result ReducerError Z :=
  if Decimal.raw p <? 0 then int_try I128 (- Decimal.raw p) ?? episode_quantity_arithmetic else Ok (Decimal.raw p).
Definition add_quantities (left right : Quantity) : result ReducerError Quantity :=
  let scale := Z.max (Decimal.scale left) (Decimal.scale right) in
  left ← quantity_step (Decimal.rescale left scale TowardZero);
  right ← quantity_step (Decimal.rescale right scale TowardZero);
  quantity_step (Decimal.checked_add left right).
Definition align_funding_amounts (paid received incoming : QuoteAmount) : result ReducerError (QuoteAmount * QuoteAmount * QuoteAmount) :=
  let scale := Z.max (Z.max (Decimal.scale paid) (Decimal.scale received)) (Decimal.scale incoming) in
  paid ← funding_step (Decimal.rescale paid scale TowardZero);
  received ← funding_step (Decimal.rescale received scale TowardZero);
  incoming ← funding_step (Decimal.rescale incoming scale TowardZero);
  Ok (paid, received, incoming).

Class EpisodeJson := {
  json_episode :: Json PositionEpisodeWireV1;
  json_episode_current :: Json PositionEpisodeCurrentWireV1;
  json_episode_effect :: Json PositionEpisodeEffectFactWireV1;
}.

(** ** Reading a position and its episode *)

Module LoadedPair.
Inductive t :=
| Absent
| NoOpenEpisode
| Resolved (episode : PositionEpisodeRecordV1) (known_quantity : PositionQuantity)
| Interrupted.
End LoadedPair.

(** [load_episode_pair] and [load_nontrade_pair] differ in the errors they report. *)
Record PairErrors := mkPairErrors {
  pair_quantity_invalid : ReducerError;
  pair_current_invalid : ReducerError;
  pair_reference_invalid : ReducerError;
  pair_mismatch : ReducerError;
}.
Definition episode_pair_errors : PairErrors :=
  mkPairErrors quantity_current_invalid episode_current_invalid episode_reference_invalid current_pair_mismatch.

Section pairs.
Context `{Hex} `{Blake3} `{PositionJson} `{EpisodeJson}.

(** The record under a key, if there is one. *)
Definition load_record {R W} `{StateRecord R W} `{Json W} (st : StateView) (key : StateKey) (err : ReducerError) : result ReducerError (option R) :=
  match bt_get key st with
  | Some l => r ← map_err (fun _ => err) (record_decode_at (R := R) key l); Ok (Some r)
  | None => Ok None
  end.

Definition load_pair (errors : PairErrors) (st : StateView) (a : Address) (m : MarketId)
  : result ReducerError (option EventId * LoadedPair.t) :=
  quantity_key ← map_err (fun _ => pair_quantity_invalid errors) (quantity_key a m);
  current_key ← map_err (fun _ => pair_current_invalid errors) (episode_current_key a m);
  quantity ← load_record (R := PositionQuantityCurrentRecordV1) st quantity_key (pair_quantity_invalid errors);
  current ← load_record (R := PositionEpisodeCurrentRecordV1) st current_key (pair_current_invalid errors);
  match quantity, current with
  | None, None => Ok (None, LoadedPair.Absent)
  | Some quantity, Some current =>
      loaded ← match pq_known_quantity quantity, ec_attribution_resolution current, ec_episode_id current with
        | Some value, Attribution.NoOpenEpisode, None =>
            if Decimal.raw value =? 0 then Ok LoadedPair.NoOpenEpisode else Err (pair_mismatch errors)
        | None, Attribution.Interrupted, None => Ok LoadedPair.Interrupted
        | Some value, Attribution.Resolved, Some target =>
            if Decimal.raw value =? 0 then Err (pair_mismatch errors) else
            target_key ← map_err (fun _ => pair_reference_invalid errors) (episode_key target);
            l ← bt_get target_key st ?? pair_reference_invalid errors;
            episode ← map_err (fun _ => pair_reference_invalid errors) (record_decode_at (R := PositionEpisodeRecordV1) target_key l);
            if negb (bool_decide (ep_account_id episode = a)) || negb (bool_decide (ep_market_id episode = m)) ||
               negb (bool_decide (ep_status episode = EpisodeStatus.Open))
            then Err (pair_reference_invalid errors) else
            Ok (LoadedPair.Resolved episode value)
        | _, _, _ => Err (pair_mismatch errors)
        end;
      Ok (pq_first_anchor_event_id quantity, loaded)
  | _, _ => Err (pair_mismatch errors)
  end.

Definition load_episode_pair (st : StateView) (a : Address) (m : MarketId) : result ReducerError LoadedPair.t :=
  '(_, loaded) ← load_pair episode_pair_errors st a m;
  Ok loaded.

Definition validate_proposed_pair (known : option PositionQuantity) (current : PositionEpisodeCurrentRecordV1)
    (episodes : list PositionEpisodeRecordV1) : result ReducerError unit :=
  match known, ec_attribution_resolution current, ec_episode_id current with
  | Some quantity, Attribution.NoOpenEpisode, None => if Decimal.raw quantity =? 0 then Ok tt else Err current_pair_mismatch
  | None, Attribution.Interrupted, None => Ok tt
  | Some quantity, Attribution.Resolved, Some target =>
      if Decimal.raw quantity =? 0 then Err current_pair_mismatch else
      match list_find (fun episode => ep_episode_id episode = target) episodes with
      | None => Err current_pair_mismatch
      | Some (_, episode) =>
          if negb (bool_decide (ep_account_id episode = ec_account_id current)) ||
             negb (bool_decide (ep_market_id episode = ec_market_id current)) ||
             negb (bool_decide (ep_status episode = EpisodeStatus.Open))
          then Err current_pair_mismatch else Ok tt
      end
  | _, _, _ => Err current_pair_mismatch
  end.

Definition reject_prior_episode_effect (st : StateView) (key : StateKey) : result ReducerError unit :=
  match bt_get key st with
  | None => Ok tt
  | Some l =>
      _ ← map_err (fun _ => effect_prior_invalid) (record_decode_at (R := PositionEpisodeEffectFactRecordV1) key l);
      Err (episode_error "position_episode.effect_identity_collision" "position episode effect identity is already present")
  end.
Definition reject_prior_episode (st : StateView) (key : StateKey) : result ReducerError unit :=
  match bt_get key st with
  | None => Ok tt
  | Some l =>
      _ ← map_err (fun _ => episode_prior_invalid) (record_decode_at (R := PositionEpisodeRecordV1) key l);
      Err (episode_error "position_episode.episode_identity_collision" "position episode identity is already present")
  end.
Definition ensure_unique_episode_mutation_keys (ms : list StateMutation) : result ReducerError unit :=
  if unique_keys [] ms then Ok tt
  else Err (episode_error "position_episode.duplicate_mutation_key" "position episode event produced duplicate mutation keys").
End pairs.

(** ** Trades *)

Section trades.
Context `{Hex} `{Blake3} `{MarketJson} `{PositionJson} `{EpisodeJson}.

Definition validate_loaded_trade_start (loaded : LoadedPair.t) (leg : NormalizedTradeLeg) (quantity_scale : Z) : result ReducerError unit :=
  match loaded with
  | LoadedPair.NoOpenEpisode => if negb (Decimal.raw (nl_start leg) =? 0) then Err start_position_mismatch else Ok tt
  | LoadedPair.Resolved _ known =>
      known ← quantity_step (checked_rescale_up known quantity_scale);
      if negb (Decimal.eq known (nl_start leg)) then Err start_position_mismatch else Ok tt
  | LoadedPair.Absent | LoadedPair.Interrupted => Ok tt
  end.

Definition new_trade_episode (e : Envelope) (trade : ValidatedTrade) (leg : ValidatedTradeLeg) (completeness : EpisodeCompletenessV1)
    (ordinal : Z) : result ReducerError PositionEpisodeRecordV1 :=
  id ← map_err (fun _ => episode_prior_invalid)
         (derive_position_episode_id (leg_account_id leg) (vt_market_id trade) (event_id e) ordinal);
  zero ← zero_quantity (vt_quantity_scale trade);
  quote ← zero_quote 0;
  map_err (fun _ => episode_prior_invalid)
    (try_record (mkEpisode id (leg_account_id leg) (vt_market_id trade) (event_id e) ordinal (leg_start leg) None None completeness
       zero zero_notional zero zero_notional quote quote EpisodeStatus.Open (event_id e) (ev_block_height e))).

Definition apply_trade_delta (r : PositionEpisodeRecordV1) (role : TradeParticipantRoleV1) (quantity : Quantity)
    (notional : ExactQuoteNotional.t) (e : Envelope) (cause : option CloseCause.t) : result ReducerError PositionEpisodeRecordV1 :=
  '(buy, buy_notional, sell, sell_notional) ←
    match role with
    | Buyer =>
        buy ← add_quantities (ep_buy_quantity r) quantity;
        n ← notional_step (ExactQuoteNotional.checked_add (ep_buy_notional r) notional);
        Ok (buy, n, ep_sell_quantity r, ep_sell_notional r)
    | Seller =>
        sell ← add_quantities (ep_sell_quantity r) quantity;
        n ← notional_step (ExactQuoteNotional.checked_add (ep_sell_notional r) notional);
        Ok (ep_buy_quantity r, ep_buy_notional r, sell, n)
    end;
  map_err (fun _ => episode_quantity_arithmetic)
    (try_record (mkEpisode (ep_episode_id r) (ep_account_id r) (ep_market_id r) (ep_opening_anchor_event_id r)
       (ep_opening_leg_ordinal r) (ep_opening_position r) ((fun _ => event_id e) <$> cause) cause (ep_completeness r)
       buy buy_notional sell sell_notional (ep_funding_paid r) (ep_funding_received r)
       (if is_set cause then EpisodeStatus.Closed else EpisodeStatus.Open) (event_id e) (ev_block_height e))).

Definition trade_effect (e : Envelope) (leg : ValidatedTradeLeg) (m : MarketId) (ordinal : Z) (id : PositionEpisodeId)
    (kind : EffectKind.t) (quantity : Quantity) (notional : ExactQuoteNotional.t) (cause : option CloseCause.t)
  : result ReducerError PositionEpisodeEffectFactRecordV1 :=
  zero ← zero_quantity (Decimal.scale quantity);
  quote ← zero_quote 0;
  let '(buy, buy_notional, sell, sell_notional) :=
    match leg_role leg with
    | Buyer => (quantity, notional, zero, zero_notional)
    | Seller => (zero, zero_notional, quantity, notional)
    end in
  map_err (fun _ => effect_prior_invalid)
    (try_record (mkEpisodeEffect (event_id e) (leg_account_id leg) m ordinal id kind buy buy_notional sell sell_notional quote quote cause
       EPISODE_VERSION)).

(** The episode a leg starts from, and whether it is new. *)
Definition leg_episode (e : Envelope) (trade : ValidatedTrade) (leg : ValidatedTradeLeg) (loaded : LoadedPair.t)
  : result ReducerError (PositionEpisodeRecordV1 * bool) :=
  match loaded with
  | LoadedPair.Absent | LoadedPair.Interrupted =>
      r ← new_trade_episode e trade leg (completeness_for_start (leg_start leg)) 0;
      Ok (r, true)
  | LoadedPair.NoOpenEpisode =>
      if negb (Decimal.raw (leg_start leg) =? 0) then Err start_position_mismatch else
      r ← new_trade_episode e trade leg CompleteFromFlat 0;
      Ok (r, true)
  | LoadedPair.Resolved existing known =>
      known ← quantity_step (checked_rescale_up known (vt_quantity_scale trade));
      if negb (Decimal.eq known (leg_start leg)) then Err start_position_mismatch else
      Ok (existing, false)
  end.

(** What a leg leaves behind: its effects by ordinal, the episodes with whether
    they are new, and the record that points at the open one. *)
Definition StagedLeg : Type :=
  list (Z * PositionEpisodeEffectFactRecordV1) * list (bool * PositionEpisodeRecordV1) * PositionEpisodeCurrentRecordV1.

Definition reversal_leg (e : Envelope) (trade : ValidatedTrade) (leg : ValidatedTradeLeg) (r : PositionEpisodeRecordV1) (is_new : bool)
  : result ReducerError StagedLeg :=
  magnitude ← checked_position_magnitude (leg_start leg);
  let closed_raw := Z.min magnitude (Decimal.raw (vt_fill trade)) in
  residual_raw ← int_sub I128 (Decimal.raw (vt_fill trade)) closed_raw ?? episode_quantity_arithmetic;
  if (closed_raw <=? 0) || (residual_raw <=? 0) then Err episode_quantity_arithmetic else
  closed ← quantity_step (Decimal.from_raw closed_raw (vt_quantity_scale trade));
  residual ← quantity_step (Decimal.from_raw residual_raw (vt_quantity_scale trade));
  closed_notional ← notional_step (ExactQuoteNotional.checked_product (vt_price trade) closed);
  residual_notional ← notional_step (ExactQuoteNotional.checked_product (vt_price trade) residual);
  total ← quantity_step (Decimal.checked_add closed residual);
  split ← if negb (Decimal.eq total (vt_fill trade)) then Ok true else
          n ← notional_step (ExactQuoteNotional.checked_add closed_notional residual_notional);
          Ok (negb (bool_decide (n = vt_full_notional trade)));
  if (split : bool) then Err notional_arithmetic else
  old ← apply_trade_delta r (leg_role leg) closed closed_notional e (Some CloseCause.TradeReversal);
  old_effect ← trade_effect e leg (vt_market_id trade) 0 (ep_episode_id old) EffectKind.Closed closed closed_notional
                 (Some CloseCause.TradeReversal);
  zero ← quantity_step (Decimal.from_raw 0 (vt_quantity_scale trade));
  fresh ← new_trade_episode e trade (mkLeg (leg_role leg) (leg_account_id leg) zero (leg_result leg)) CompleteFromFlat 1;
  opened ← apply_trade_delta fresh (leg_role leg) residual residual_notional e None;
  new_effect ← trade_effect e leg (vt_market_id trade) 1 (ep_episode_id opened) EffectKind.Opened residual residual_notional None;
  current ← map_err (fun _ => current_pair_mismatch)
    (try_record (mkEpisodeCurrent (leg_account_id leg) (vt_market_id trade) (Some (ep_episode_id opened)) Attribution.Resolved
       (event_id e) (ev_block_height e)));
  Ok ([(0, old_effect); (1, new_effect)], [(is_new, old); (true, opened)], current).

Definition plain_leg (e : Envelope) (trade : ValidatedTrade) (leg : ValidatedTradeLeg) (r : PositionEpisodeRecordV1) (is_new : bool)
  : result ReducerError StagedLeg :=
  let close := if Decimal.raw (leg_result leg) =? 0 then Some CloseCause.TradeFlat else None in
  next ← apply_trade_delta r (leg_role leg) (vt_fill trade) (vt_full_notional trade) e close;
  let kind := if is_set close then EffectKind.Closed else if is_new then EffectKind.Opened else EffectKind.Updated in
  effect ← trade_effect e leg (vt_market_id trade) 0 (ep_episode_id next) kind (vt_fill trade) (vt_full_notional trade) close;
  let open_id := if is_set close then None else Some (ep_episode_id next) in
  current ← map_err (fun _ => current_pair_mismatch)
    (try_record (mkEpisodeCurrent (leg_account_id leg) (vt_market_id trade) open_id
       (if is_set close then Attribution.NoOpenEpisode else Attribution.Resolved) (event_id e) (ev_block_height e)));
  Ok ([(0, effect)], [(is_new, next)], current).

Definition is_reversal (leg : ValidatedTradeLeg) : bool :=
  let start_sign := Z.sgn (Decimal.raw (leg_start leg)) in
  let result_sign := Z.sgn (Decimal.raw (leg_result leg)) in
  negb (start_sign =? 0) && negb (result_sign =? 0) && negb (start_sign =? result_sign).

Definition effect_put (st : StateView) (e : Envelope) (a : Address) (m : MarketId) (effect : Z * PositionEpisodeEffectFactRecordV1)
  : result ReducerError StateMutation :=
  key ← map_err (fun _ => effect_prior_invalid) (episode_effect_key (event_id e) a m effect.1);
  _ ← reject_prior_episode_effect st key;
  l ← map_err (fun _ => effect_prior_invalid) (record_encode effect.2);
  Ok (Put key l).
Definition episode_put (st : StateView) (r : bool * PositionEpisodeRecordV1) : result ReducerError StateMutation :=
  key ← map_err (fun _ => episode_prior_invalid) (episode_key (ep_episode_id r.2));
  _ ← if r.1 then reject_prior_episode st key else Ok tt;
  l ← map_err (fun _ => episode_prior_invalid) (record_encode r.2);
  Ok (Put key l).

Definition stage_trade_leg (st : StateView) (e : Envelope) (trade : ValidatedTrade) (leg : ValidatedTradeLeg) (loaded : LoadedPair.t)
  : result ReducerError (list StateMutation) :=
  '(r, is_new) ← leg_episode e trade leg loaded;
  '(effects, episodes, current) ← if is_reversal leg then reversal_leg e trade leg r is_new else plain_leg e trade leg r is_new;
  _ ← validate_proposed_pair (Some (leg_result leg)) current (snd <$> episodes);
  effect_puts ← collect (effect_put st e (leg_account_id leg) (vt_market_id trade)) effects;
  episode_puts ← collect (episode_put st) episodes;
  current_key ← map_err (fun _ => episode_current_invalid) (episode_current_key (leg_account_id leg) (vt_market_id trade));
  l ← map_err (fun _ => episode_current_invalid) (record_encode current);
  Ok (effect_puts ++ episode_puts ++ [Put current_key l]).

Definition episode_reduce_trade (st : StateView) (e : Envelope) : result ReducerError (list StateMutation) :=
  p ← map_err map_trade_validation_for_episode (validate_enriched_trade_prerequisites st e);
  let '(leg0, leg1) := tq_legs p in
  loaded0 ← load_episode_pair st (sl_account_id leg0) (tq_market_id p);
  loaded1 ← load_episode_pair st (sl_account_id leg1) (tq_market_id p);
  start0 ← map_err map_trade_validation_for_episode (normalize_trade_leg leg0 (tq_quantity_scale p));
  _ ← validate_loaded_trade_start loaded0 start0 (tq_quantity_scale p);
  start1 ← map_err map_trade_validation_for_episode (normalize_trade_leg leg1 (tq_quantity_scale p));
  _ ← validate_loaded_trade_start loaded1 start1 (tq_quantity_scale p);
  prepared ← map_err map_trade_validation_for_episode (prepare_enriched_trade p);
  trade ← map_err map_trade_validation_for_episode (finish_prepared_enriched_trade prepared);
  ms0 ← stage_trade_leg st e trade (vt_legs trade).1 loaded0;
  ms1 ← stage_trade_leg st e trade (vt_legs trade).2 loaded1;
  let ms := ms0 ++ ms1 in
  _ ← ensure_unique_episode_mutation_keys ms;
  Ok ms.

(** ** Funding *)

Definition funded_episode (r : PositionEpisodeRecordV1) (paid received : QuoteAmount) (e : Envelope) : PositionEpisodeRecordV1 :=
  mkEpisode (ep_episode_id r) (ep_account_id r) (ep_market_id r) (ep_opening_anchor_event_id r) (ep_opening_leg_ordinal r)
    (ep_opening_position r) (ep_close_event_id r) (ep_close_cause r) (ep_completeness r) (ep_buy_quantity r) (ep_buy_notional r)
    (ep_sell_quantity r) (ep_sell_notional r) paid received (ep_status r) (event_id e) (ev_block_height e).

Definition reduce_funding (st : StateView) (e : Envelope) (a : Address) (m : MarketId) (amount : QuoteAmount) (is_paid : bool)
  : result ReducerError (list StateMutation) :=
  if negb match event_kind e, is_paid with FundingPaid, true | FundingReceived, false => true | _, _ => false end ||
     negb (bool_decide (market_ids e = [m])) || negb (bool_decide (account_ids e = [a])) || (Decimal.raw amount <=? 0)
  then Err episode_identity_mismatch else
  _ ← map_err map_funding_market_validation (validate_exact_market st m);
  loaded ← load_episode_pair st a m;
  match loaded with
  | LoadedPair.Resolved r known =>
      '(paid, received, incoming) ← align_funding_amounts (ep_funding_paid r) (ep_funding_received r) amount;
      zero_delta ← zero_quote (Decimal.scale incoming);
      '(paid, received, paid_delta, received_delta) ←
        (if is_paid
         then sum ← funding_step (Decimal.checked_add paid incoming); Ok (sum, received, incoming, zero_delta)
         else sum ← funding_step (Decimal.checked_add received incoming); Ok (paid, sum, zero_delta, incoming));
      next ← map_err (fun _ => funding_arithmetic) (try_record (funded_episode r paid received e));
      zero ← zero_quantity (Z.max (Decimal.scale (ep_buy_quantity next)) (Decimal.scale (ep_sell_quantity next)));
      effect ← map_err (fun _ => effect_prior_invalid)
        (try_record (mkEpisodeEffect (event_id e) a m 0 (ep_episode_id next) EffectKind.Updated zero zero_notional zero zero_notional
           paid_delta received_delta None EPISODE_VERSION));
      effect_key ← map_err (fun _ => effect_prior_invalid) (episode_effect_key (event_id e) a m 0);
      _ ← reject_prior_episode_effect st effect_key;
      key ← map_err (fun _ => episode_prior_invalid) (episode_key (ep_episode_id next));
      current ← map_err (fun _ => episode_current_invalid)
        (try_record (mkEpisodeCurrent a m (Some (ep_episode_id next)) Attribution.Resolved (event_id e) (ev_block_height e)));
      current_key ← map_err (fun _ => episode_current_invalid) (episode_current_key a m);
      _ ← validate_proposed_pair (Some known) current [next];
      effect_bytes ← map_err (fun _ => effect_prior_invalid) (record_encode effect);
      episode_bytes ← map_err (fun _ => episode_prior_invalid) (record_encode next);
      current_bytes ← map_err (fun _ => episode_current_invalid) (record_encode current);
      let ms := [Put effect_key effect_bytes; Put key episode_bytes; Put current_key current_bytes] in
      _ ← ensure_unique_episode_mutation_keys ms;
      Ok ms
  | _ => Ok []
  end.

Definition episode_supports (e : Envelope) : bool :=
  bool_decide (schema_version e = "1.0.0"%string) &&
  match payload e with
  | Payload.TradeMatched _ _ _ _ _ _ _ participants => is_set participants
  | Payload.FundingPaid _ _ _ _ | Payload.FundingReceived _ _ _ _ => true
  | _ => false
  end.

Definition episode_reduce (st : StateView) (e : Envelope) : result ReducerError (list StateMutation) :=
  let unsupported := episode_error "position_episode.unsupported_event" "position episode reducer received an unsupported event" in
  if negb (episode_supports e) then Err unsupported else
  match payload e with
  | Payload.TradeMatched _ _ _ _ _ _ _ _ => episode_reduce_trade st e
  | Payload.FundingPaid a m amount _ => reduce_funding st e a m amount true
  | Payload.FundingReceived a m amount _ => reduce_funding st e a m amount false
  | _ => Err unsupported
  end.
End trades.

(** ** The check of a block *)

Section deltas.
Context `{Hex} `{Blake3} `{PositionJson} `{EpisodeJson}.

Definition validate_reference (st : StateView) (current : PositionEpisodeCurrentRecordV1) : result RecordCodecError unit :=
  _ ← check (rec_validate current);
  match ec_attribution_resolution current, ec_episode_id current with
  | Attribution.Resolved, Some id =>
      key ← episode_key id;
      l ← bt_get key st ?? InvalidRecord;
      episode ← record_decode_at (R := PositionEpisodeRecordV1) key l;
      check (bool_decide (ep_account_id episode = ec_account_id current) && bool_decide (ep_market_id episode = ec_market_id current) &&
             bool_decide (ep_status episode = EpisodeStatus.Open))
  | (Attribution.NoOpenEpisode | Attribution.Interrupted), None => Ok tt
  | _, _ => Err InvalidRecord
  end.

Abbreviation Touched := (btmap StateKey (Address * MarketId)).

Definition insert_touched_pair (touched : Touched) (a : Address) (m : MarketId) : result ReducerError Touched :=
  key ← map_err (fun _ => quantity_current_invalid) (quantity_key a m);
  Ok (if bt_contains key touched then touched else bt_insert key (a, m) touched).

Definition delta_values (d : BlockDeltaEntry) : list bytes := option_list (block_start_value d) ++ option_list (block_final_value d).

(** The loops over the quantities and over the records of the current episodes. *)
Definition touch_current (R : Type) {W} `{StateRecord R W} `{Json W} (ns : string) (err : ReducerError) (touched : Touched)
    (d : BlockDeltaEntry) : result ReducerError Touched :=
  if negb (bool_decide (namespace (delta_key d) = ns)) then Ok touched else
  '(a, m) ← map_err (fun _ => err) (decode_account_market_key (delta_key d));
  _ ← collect (fun l => map_err (fun _ => err) (record_decode_at (R := R) (delta_key d) l)) (delta_values d);
  insert_touched_pair touched a m.

Fixpoint touch_episode_values (key : StateKey) (touched : Touched) (values : list bytes) : result ReducerError Touched :=
  match values with
  | [] => Ok touched
  | l :: values =>
      episode ← map_err (fun _ => episode_prior_invalid) (record_decode_at (R := PositionEpisodeRecordV1) key l);
      touched ← insert_touched_pair touched (ep_account_id episode) (ep_market_id episode);
      touch_episode_values key touched values
  end.
Definition touch_episode (touched : Touched) (d : BlockDeltaEntry) : result ReducerError Touched :=
  if negb (bool_decide (namespace (delta_key d) = EPISODE_NAMESPACE)) then Ok touched else
  touched ← touch_episode_values (delta_key d) touched (delta_values d);
  if is_empty (delta_values d) then Err episode_prior_invalid else Ok touched.

Fixpoint touch_all (step : Touched -> BlockDeltaEntry -> result ReducerError Touched) (touched : Touched) (delta : list BlockDeltaEntry)
  : result ReducerError Touched :=
  match delta with
  | [] => Ok touched
  | d :: delta => touched ← step touched d; touch_all step touched delta
  end.

Definition validate_final_episode_pair (final : StateView) (a : Address) (m : MarketId) : result ReducerError unit :=
  quantity_key ← map_err (fun _ => quantity_current_invalid) (quantity_key a m);
  current_key ← map_err (fun _ => episode_current_invalid) (episode_current_key a m);
  quantity ← load_record (R := PositionQuantityCurrentRecordV1) final quantity_key quantity_current_invalid;
  current ← load_record (R := PositionEpisodeCurrentRecordV1) final current_key episode_current_invalid;
  _ ← match current with
      | Some current => map_err (fun _ => episode_reference_invalid) (validate_reference final current)
      | None => Ok tt
      end;
  match quantity, current with
  | None, None => Ok tt
  | Some quantity, Some current =>
      match pq_known_quantity quantity, ec_attribution_resolution current, ec_episode_id current with
      | Some value, Attribution.NoOpenEpisode, None => if Decimal.raw value =? 0 then Ok tt else Err current_pair_mismatch
      | Some value, Attribution.Resolved, Some _ => if Decimal.raw value =? 0 then Err current_pair_mismatch else Ok tt
      | None, Attribution.Interrupted, None => Ok tt
      | _, _, _ => Err current_pair_mismatch
      end
  | _, _ => Err current_pair_mismatch
  end.

Fixpoint validate_touched (final : StateView) (touched : list (StateKey * (Address * MarketId))) : result ReducerError unit :=
  match touched with
  | [] => Ok tt
  | (_, (a, m)) :: touched => _ ← validate_final_episode_pair final a m; validate_touched final touched
  end.

Definition validate_episode_block_delta (final : StateView) (delta : list BlockDeltaEntry) : result ReducerError unit :=
  touched ← touch_all (touch_current PositionQuantityCurrentRecordV1 POSITION_NAMESPACE quantity_current_invalid) [] delta;
  touched ← touch_all (touch_current PositionEpisodeCurrentRecordV1 EPISODE_CURRENT_NAMESPACE episode_current_invalid) touched delta;
  touched ← touch_all touch_episode touched delta;
  validate_touched final touched.
End deltas.

Inductive CanonicalPositionEpisodeReducerV1 := EpisodeReducer.
#[global] Instance episode_reducer `{Hex} `{Blake3} `{MarketJson} `{PositionJson} `{EpisodeJson}
  : EventReducer Payload.t CanonicalPositionEpisodeReducerV1 := {
  reducer_version _ := EPISODE_VERSION;
  supports _ := episode_supports;
  reduce _ st e _ := episode_reduce st e;
  validate_block_delta _ final delta _ := validate_episode_block_delta final delta;
}.

(** ** Changes without a trade *)

Module NonTradeQuantityResult.
Inductive t := Exact (value : PositionQuantity) | Ambiguous.
End NonTradeQuantityResult.

Definition LoadedNonTradePair : Type := option EventId * LoadedPair.t.
Definition nontrade_known_quantity (loaded : LoadedNonTradePair) : option PositionQuantity :=
  match loaded.2 with
  | LoadedPair.Resolved _ known => Some known
  | LoadedPair.NoOpenEpisode => Some (Decimal.mk 0 0)
  | LoadedPair.Absent | LoadedPair.Interrupted => None
  end.
Definition is_known_zero (loaded : LoadedNonTradePair) : bool := match loaded.2 with LoadedPair.NoOpenEpisode => true | _ => false end.

Definition liquidation_error (code message : string) : ReducerError := mkReducerError code message.
Definition liquidation_pair_errors : PairErrors := mkPairErrors
  (liquidation_error "liquidation_state.quantity_current_invalid" "position quantity current is invalid")
  (liquidation_error "liquidation_state.episode_current_invalid" "position episode current is invalid")
  (liquidation_error "liquidation_state.episode_reference_invalid" "position episode reference is invalid")
  (liquidation_error "liquidation_state.current_pair_mismatch" "position quantity and episode currents do not form a valid pair").
Definition nontrade_quantity_arithmetic :=
  liquidation_error "liquidation_state.quantity_arithmetic" "non-trade position quantity arithmetic failed".
Definition liquidation_episode_effect_prior_invalid :=
  liquidation_error "liquidation_state.episode_effect_prior_invalid" "prior position episode effect is invalid".
Definition liquidation_episode_prior_invalid :=
  liquidation_error "liquidation_state.episode_prior_invalid" "prior position episode is invalid".
Definition liquidation_proposed_pair_invalid :=
  liquidation_error "liquidation_state.proposed_pair_invalid" "proposed position quantity and episode pair is invalid".

Section nontrade.
Context `{Hex} `{Blake3} `{PositionJson} `{EpisodeJson}.

Definition load_nontrade_pair : StateView -> Address -> MarketId -> result ReducerError LoadedNonTradePair :=
  load_pair liquidation_pair_errors.

Definition proposed {A} (r : result RecordCodecError A) : result ReducerError A := map_err (fun _ => liquidation_proposed_pair_invalid) r.

Definition interrupted_episode (r : PositionEpisodeRecordV1) (e : Envelope) (cause : CloseCause.t) : PositionEpisodeRecordV1 :=
  mkEpisode (ep_episode_id r) (ep_account_id r) (ep_market_id r) (ep_opening_anchor_event_id r) (ep_opening_leg_ordinal r)
    (ep_opening_position r) (Some (event_id e)) (Some cause) (ep_completeness r) (ep_buy_quantity r) (ep_buy_notional r)
    (ep_sell_quantity r) (ep_sell_notional r) (ep_funding_paid r) (ep_funding_received r) EpisodeStatus.Interrupted
    (event_id e) (ev_block_height e).

(** The effect of an event that moves no quantity and no funding. *)
Definition still_effect (e : Envelope) (a : Address) (m : MarketId) (ordinal : Z) (id : PositionEpisodeId) (kind : EffectKind.t)
    (zero : Quantity) (zero_funding : QuoteAmount) (cause : option CloseCause.t) : PositionEpisodeEffectFactRecordV1 :=
  mkEpisodeEffect (event_id e) a m ordinal id kind zero zero_notional zero zero_notional zero_funding zero_funding cause EPISODE_VERSION.

(** The open episode is interrupted. *)
Definition stage_interruption (e : Envelope) (a : Address) (m : MarketId) (loaded : LoadedPair.t) (outcome : NonTradeQuantityResult.t)
    (cause : CloseCause.t) (zero : Quantity) (zero_funding : QuoteAmount)
  : result ReducerError (list (PositionEpisodeEffectFactRecordV1 * PositionEpisodeRecordV1)) :=
  match loaded, outcome with
  | LoadedPair.Resolved episode _, _ =>
      interrupted ← proposed (try_record (interrupted_episode episode e cause));
      effect ← proposed (try_record (still_effect e a m 0 (ep_episode_id interrupted) EffectKind.Interrupted zero zero_funding (Some cause)));
      Ok [(effect, interrupted)]
  | _, NonTradeQuantityResult.Exact _ => Err (pair_mismatch liquidation_pair_errors)
  | _, NonTradeQuantityResult.Ambiguous => Ok []
  end.

(** An episode is opened for the position that remains. *)
Definition stage_remainder (e : Envelope) (a : Address) (m : MarketId) (outcome : NonTradeQuantityResult.t) (zero : Quantity)
    (zero_funding : QuoteAmount) : result ReducerError (list (PositionEpisodeEffectFactRecordV1 * PositionEpisodeRecordV1)) :=
  match outcome with
  | NonTradeQuantityResult.Exact value =>
      if Decimal.raw value =? 0 then Ok [] else
      id ← proposed (derive_position_episode_id a m (event_id e) 1);
      opened ← proposed (try_record (mkEpisode id a m (event_id e) 1 value None None PartialFromFirstObservation zero zero_notional
                 zero zero_notional zero_funding zero_funding EpisodeStatus.Open (event_id e) (ev_block_height e)));
      effect ← proposed (try_record (still_effect e a m 1 id EffectKind.Opened zero zero_funding None));
      Ok [(effect, opened)]
  | NonTradeQuantityResult.Ambiguous => Ok []
  end.

Definition result_known (outcome : NonTradeQuantityResult.t) : option PositionQuantity :=
  match outcome with NonTradeQuantityResult.Exact value => Some value | NonTradeQuantityResult.Ambiguous => None end.
Definition result_attribution (outcome : NonTradeQuantityResult.t) : Attribution.t :=
  match outcome with
  | NonTradeQuantityResult.Exact value => if Decimal.raw value =? 0 then Attribution.NoOpenEpisode else Attribution.Resolved
  | NonTradeQuantityResult.Ambiguous => Attribution.Interrupted
  end.

Definition still_effect_put (a : Address) (m : MarketId) (effect : PositionEpisodeEffectFactRecordV1) : result ReducerError StateMutation :=
  key ← map_err (fun _ => liquidation_episode_effect_prior_invalid) (episode_effect_key (ee_event_id effect) a m (ee_leg_ordinal effect));
  l ← map_err (fun _ => liquidation_episode_effect_prior_invalid) (record_encode effect);
  Ok (Put key l).
Definition still_episode_put (r : PositionEpisodeRecordV1) : result ReducerError StateMutation :=
  key ← map_err (fun _ => liquidation_episode_prior_invalid) (episode_key (ep_episode_id r));
  l ← map_err (fun _ => liquidation_episode_prior_invalid) (record_encode r);
  Ok (Put key l).

Definition stage_nontrade_transition (e : Envelope) (a : Address) (m : MarketId) (loaded : LoadedNonTradePair)
    (outcome : NonTradeQuantityResult.t) (cause : CloseCause.t) (zero_scale : Z) : result ReducerError (list StateMutation) :=
  zero ← map_err (fun _ => nontrade_quantity_arithmetic) (Decimal.from_raw 0 zero_scale);
  zero_funding ← map_err (fun _ => nontrade_quantity_arithmetic) (Decimal.from_raw 0 0);
  quantity ← proposed (try_record (mkPosition a m (result_known outcome) loaded.1 (event_id e) (ev_block_height e)));
  quantity_key ← proposed (quantity_key a m);
  closing ← stage_interruption e a m loaded.2 outcome cause zero zero_funding;
  opening ← stage_remainder e a m outcome zero zero_funding;
  let open_id := ep_episode_id <$> (snd <$> head opening) in
  current ← proposed (try_record (mkEpisodeCurrent a m open_id (result_attribution outcome) (event_id e) (ev_block_height e)));
  current_key ← proposed (episode_current_key a m);
  let staged := closing ++ opening in
  _ ← map_err (fun _ => liquidation_proposed_pair_invalid) (validate_proposed_pair (result_known outcome) current (snd <$> staged));
  effect_puts ← collect (still_effect_put a m) (fst <$> staged);
  episode_puts ← collect still_episode_put (snd <$> staged);
  quantity_bytes ← proposed (record_encode quantity);
  current_bytes ← proposed (record_encode current);
  Ok (effect_puts ++ episode_puts ++ [Put quantity_key quantity_bytes; Put current_key current_bytes]).
End nontrade.
