(* ===== verification/Liquidations.v ===== *)
(** * Liquidations and settlements: [position/liquidations.rs]

    A liquidation is a process that a start event opens and fills and backstop
    transfers extend, each strictly later than the last. A fill reduces a known
    position towards zero and never past it; a backstop transfer makes both
    positions unknown; a settlement reduces the position or makes it unknown. *)

From Stdlib Require Import Strings.Byte Strings.String.
From stdpp Require Import sorting.
From S2P Require Import Prelude Ordering BTreeMap Bytes FixedPoint Notional Ids Store StateImage Blocks Publication Ledger Payloads Records Opaque Markets Accounts Trades Positions Episodes.

Definition LIQUIDATION_VERSION : string := "hyperliquid-alpha-desk-canonical-position-liquidation@1.0.0".
Definition LIQUIDATION_NAMESPACE : string := "liquidation-current.v1".
Definition LIQUIDATION_SCHEMA : string := "hyperliquid-alpha-desk/liquidation-current/v1".
Definition START_FACT_NAMESPACE : string := "liquidation-start-fact.v1".
Definition START_FACT_SCHEMA : string := "hyperliquid-alpha-desk/liquidation-start-fact/v1".
Definition FILL_FACT_NAMESPACE : string := "liquidation-fill-fact.v1".
Definition FILL_FACT_SCHEMA : string := "hyperliquid-alpha-desk/liquidation-fill-fact/v1".
Definition MARKET_FLOW_NAMESPACE : string := "liquidation-market-flow-current.v1".
Definition MARKET_FLOW_SCHEMA : string := "hyperliquid-alpha-desk/liquidation-market-flow-current/v1".
Definition BACKSTOP_FACT_NAMESPACE : string := "backstop-liquidation-fact.v1".
Definition BACKSTOP_FACT_SCHEMA : string := "hyperliquid-alpha-desk/backstop-liquidation-fact/v1".
Definition SETTLEMENT_FACT_NAMESPACE : string := "position-settlement-fact.v1".
Definition SETTLEMENT_FACT_SCHEMA : string := "hyperliquid-alpha-desk/position-settlement-fact/v1".

(** ** Positions in the event stream *)

(** Block height, transaction index and event index, compared in this order. *)
Definition EventPosition : Type := Z * Z * Z.
Definition event_position (e : Envelope) : EventPosition := (ev_block_height e, transaction_index e, event_index e).

Definition valid_position_pair (first_id : EventId) (first : EventPosition) (last_id : EventId) (last : EventPosition) : bool :=
  (bool_decide (first_id = last_id) && bool_decide (first = last)) || (negb (bool_decide (first_id = last_id)) && ltb first last).

Definition parse_payload_blake3 `{Hex} (value : string) : result RecordCodecError Hash :=
  if negb (zlen (as_bytes value) =? 64) || existsb (fun b => negb (is_hex_digit b)) (as_bytes value) then Err InvalidRecord else
  hex_decode_to_slice 32 value ?? InvalidRecord.

Definition valid_rule_version (value : string) : bool := bool_decide (value = LIQUIDATION_VERSION).
Definition valid_start_margin (margin maintenance : UsdAmount) : bool :=
  negb ((Decimal.raw margin <? 0) || (Decimal.raw maintenance <? 0) || negb (Decimal.scale margin =? Decimal.scale maintenance) ||
        (Decimal.raw maintenance <=? Decimal.raw margin)).

(** ** Enumerations *)

Inductive LiquidationObservedStatusV1 := LiquidationOpened | BackstopObserved.
#[global] Instance LiquidationObservedStatusV1_eq_dec : EqDecision LiquidationObservedStatusV1.
Proof. solve_decision. Defined.
Definition observed_wire (s : LiquidationObservedStatusV1) : string :=
  match s with LiquidationOpened => "started" | BackstopObserved => "backstop_observed" end.
Definition observed_parse (value : string) : result RecordCodecError LiquidationObservedStatusV1 :=
  field (parse_wire observed_wire [LiquidationOpened; BackstopObserved] value).

Inductive LiquidationSourceValueResolutionV1 := UnavailableFromSource.
#[global] Instance LiquidationSourceValueResolutionV1_eq_dec : EqDecision LiquidationSourceValueResolutionV1.
Proof. solve_decision. Defined.
Definition source_value_wire (r : LiquidationSourceValueResolutionV1) : string :=
  match r with UnavailableFromSource => "unavailable_from_source" end.
Definition source_value_parse (value : string) : result RecordCodecError LiquidationSourceValueResolutionV1 :=
  field (parse_wire source_value_wire [UnavailableFromSource] value).

(** ** The process *)

Record LiquidationCurrentRecordV1 := mkLiquidation {
  lq_liquidation_id : LiquidationId;
  lq_account_id : Address;
  lq_start_margin_value : UsdAmount;
  lq_start_maintenance_requirement : UsdAmount;
  lq_observed_status : LiquidationObservedStatusV1;
  lq_start_event_id : EventId;
  lq_start_position : EventPosition;
  lq_first_backstop_event_id : option EventId;
  lq_first_backstop_position : option EventPosition;
  lq_last_observation_event_id : EventId;
  lq_last_observation_position : EventPosition;
  lq_rule_version : string;
}.
Record LiquidationCurrentWire := mkLiquidationWire {
  lqw_schema : string;
  lqw_liquidation_id : string;
  lqw_account_id : string;
  lqw_start_margin_value : string;
  lqw_start_maintenance_requirement : string;
  lqw_observed_status : string;
  lqw_start_event_id : string;
  lqw_start_block_height : Z;
  lqw_start_transaction_index : Z;
  lqw_start_canonical_event_index : Z;
  lqw_first_backstop_event_id : option string;
  lqw_first_backstop_block_height : option Z;
  lqw_first_backstop_transaction_index : option Z;
  lqw_first_backstop_canonical_event_index : option Z;
  lqw_last_observation_event_id : string;
  lqw_last_observation_block_height : Z;
  lqw_last_observation_transaction_index : Z;
  lqw_last_observation_canonical_event_index : Z;
  lqw_rule_version : string;
}.
#[global] Instance LiquidationCurrentWire_eq_dec : EqDecision LiquidationCurrentWire.
Proof. solve_decision. Defined.

Definition optional_position (height transaction event : option Z) : result RecordCodecError (option EventPosition) :=
  match height, transaction, event with
  | None, None, None => Ok None
  | Some h, Some t, Some i => Ok (Some (h, t, i))
  | _, _, _ => Err InvalidRecord
  end.

Definition liquidation_to_wire `{Hex} (r : LiquidationCurrentRecordV1) : LiquidationCurrentWire :=
  let '(sh, stx, si) := lq_start_position r in
  let '(lh, lt, li) := lq_last_observation_position r in
  mkLiquidationWire LIQUIDATION_SCHEMA (lq_liquidation_id r) (to_api_string (lq_account_id r)) (Decimal.to_string (lq_start_margin_value r))
    (Decimal.to_string (lq_start_maintenance_requirement r)) (observed_wire (lq_observed_status r)) (lq_start_event_id r) sh stx si
    (lq_first_backstop_event_id r) ((fun p => p.1.1) <$> lq_first_backstop_position r) ((fun p => p.1.2) <$> lq_first_backstop_position r)
    ((fun p => p.2) <$> lq_first_backstop_position r) (lq_last_observation_event_id r) lh lt li (lq_rule_version r).

Definition liquidation_from_wire `{Hex} (w : LiquidationCurrentWire) : result RecordCodecError LiquidationCurrentRecordV1 :=
  if negb (bool_decide (lqw_schema w = LIQUIDATION_SCHEMA)) then Err InvalidRecord else
  backstop ← optional_position (lqw_first_backstop_block_height w) (lqw_first_backstop_transaction_index w)
               (lqw_first_backstop_canonical_event_index w);
  id ← field (string_id_new (lqw_liquidation_id w));
  account ← field (parse_api (lqw_account_id w));
  margin ← field (Decimal.from_str (lqw_start_margin_value w));
  maintenance ← field (Decimal.from_str (lqw_start_maintenance_requirement w));
  status ← observed_parse (lqw_observed_status w);
  start ← field (string_id_new (lqw_start_event_id w));
  backstop_event ← parse_optional string_id_new (lqw_first_backstop_event_id w);
  last ← field (string_id_new (lqw_last_observation_event_id w));
  Ok (mkLiquidation id account margin maintenance status start
        (lqw_start_block_height w, lqw_start_transaction_index w, lqw_start_canonical_event_index w) backstop_event backstop last
        (lqw_last_observation_block_height w, lqw_last_observation_transaction_index w, lqw_last_observation_canonical_event_index w)
        (lqw_rule_version w)).

Definition liquidation_validate (r : LiquidationCurrentRecordV1) : bool :=
  valid_rule_version (lq_rule_version r) && valid_start_margin (lq_start_margin_value r) (lq_start_maintenance_requirement r) &&
  valid_position_pair (lq_start_event_id r) (lq_start_position r) (lq_last_observation_event_id r) (lq_last_observation_position r) &&
  match lq_observed_status r, lq_first_backstop_event_id r, lq_first_backstop_position r with
  | LiquidationOpened, None, None => true
  | BackstopObserved, Some backstop_id, Some backstop =>
      negb (bool_decide (lq_start_event_id r = backstop_id) || leb backstop (lq_start_position r)) &&
      valid_position_pair backstop_id backstop (lq_last_observation_event_id r) (lq_last_observation_position r)
  | _, _, _ => false
  end.

Definition liquidation_key (id : LiquidationId) : result RecordCodecError StateKey := framed_key LIQUIDATION_NAMESPACE [as_bytes id].
#[global] Instance liquidation_record `{Hex} : StateRecord LiquidationCurrentRecordV1 LiquidationCurrentWire := {
  to_wire := liquidation_to_wire;
  from_wire := liquidation_from_wire;
  rec_validate := liquidation_validate;
  rec_key r := liquidation_key (lq_liquidation_id r);
}.

(** ** Facts *)

Record LiquidationStartFactRecordV1 := mkStartFact {
  sf_liquidation_id : LiquidationId;
  sf_event_id : EventId;
  sf_account_id : Address;
  sf_margin_value : UsdAmount;
  sf_maintenance_requirement : UsdAmount;
  sf_position : EventPosition;
  sf_payload_blake3 : Hash;
  sf_rule_version : string;
}.
Record LiquidationStartFactWire := mkStartFactWire {
  sfw_schema : string;
  sfw_liquidation_id : string;
  sfw_event_id : string;
  sfw_account_id : string;
  sfw_margin_value : string;
  sfw_maintenance_requirement : string;
  sfw_block_height : Z;
  sfw_transaction_index : Z;
  sfw_canonical_event_index : Z;
  sfw_payload_blake3 : string;
  sfw_rule_version : string;
}.
#[global] Instance LiquidationStartFactWire_eq_dec : EqDecision LiquidationStartFactWire.
Proof. solve_decision. Defined.

Definition process_fact_key (ns : string) (id : LiquidationId) (event : EventId) : result RecordCodecError StateKey :=
  framed_key ns [as_bytes id; as_bytes event].

#[global] Instance start_fact_record `{Hex} : StateRecord LiquidationStartFactRecordV1 LiquidationStartFactWire := {
  to_wire r :=
    let '(h, t, i) := sf_position r in
    mkStartFactWire START_FACT_SCHEMA (sf_liquidation_id r) (sf_event_id r) (to_api_string (sf_account_id r))
      (Decimal.to_string (sf_margin_value r)) (Decimal.to_string (sf_maintenance_requirement r)) h t i
      (hex_encode (sf_payload_blake3 r)) (sf_rule_version r);
  from_wire w :=
    if negb (bool_decide (sfw_schema w = START_FACT_SCHEMA)) then Err InvalidRecord else
    id ← field (string_id_new (sfw_liquidation_id w));
    event ← field (string_id_new (sfw_event_id w));
    account ← field (parse_api (sfw_account_id w));
    margin ← field (Decimal.from_str (sfw_margin_value w));
    maintenance ← field (Decimal.from_str (sfw_maintenance_requirement w));
    hash ← parse_payload_blake3 (sfw_payload_blake3 w);
    Ok (mkStartFact id event account margin maintenance (sfw_block_height w, sfw_transaction_index w, sfw_canonical_event_index w) hash
          (sfw_rule_version w));
  rec_validate r := valid_rule_version (sf_rule_version r) && valid_start_margin (sf_margin_value r) (sf_maintenance_requirement r);
  rec_key r := process_fact_key START_FACT_NAMESPACE (sf_liquidation_id r) (sf_event_id r);
}.

Record LiquidationFillFactRecordV1 := mkFillFact {
  ff_liquidation_id : LiquidationId;
  ff_event_id : EventId;
  ff_account_id : Address;
  ff_market_id : MarketId;
  ff_price : Price;
  ff_quantity : Quantity;
  ff_position : EventPosition;
  ff_payload_blake3 : Hash;
  ff_rule_version : string;
}.
Record LiquidationFillFactWire := mkFillFactWire {
  ffw_schema : string;
  ffw_liquidation_id : string;
  ffw_event_id : string;
  ffw_account_id : string;
  ffw_market_id : string;
  ffw_price : string;
  ffw_quantity : string;
  ffw_block_height : Z;
  ffw_transaction_index : Z;
  ffw_canonical_event_index : Z;
  ffw_payload_blake3 : string;
  ffw_rule_version : string;
}.
#[global] Instance LiquidationFillFactWire_eq_dec : EqDecision LiquidationFillFactWire.
Proof. solve_decision. Defined.

#[global] Instance fill_fact_record `{Hex} : StateRecord LiquidationFillFactRecordV1 LiquidationFillFactWire := {
  to_wire r :=
    let '(h, t, i) := ff_position r in
    mkFillFactWire FILL_FACT_SCHEMA (ff_liquidation_id r) (ff_event_id r) (to_api_string (ff_account_id r)) (ff_market_id r)
      (Decimal.to_string (ff_price r)) (Decimal.to_string (ff_quantity r)) h t i (hex_encode (ff_payload_blake3 r)) (ff_rule_version r);
  from_wire w :=
    if negb (bool_decide (ffw_schema w = FILL_FACT_SCHEMA)) then Err InvalidRecord else
    id ← field (string_id_new (ffw_liquidation_id w));
    event ← field (string_id_new (ffw_event_id w));
    account ← field (parse_api (ffw_account_id w));
    market ← field (string_id_new (ffw_market_id w));
    price ← field (Decimal.from_str (ffw_price w));
    quantity ← field (Decimal.from_str (ffw_quantity w));
    hash ← parse_payload_blake3 (ffw_payload_blake3 w);
    Ok (mkFillFact id event account market price quantity (ffw_block_height w, ffw_transaction_index w, ffw_canonical_event_index w) hash
          (ffw_rule_version w));
  rec_validate r := valid_rule_version (ff_rule_version r) && negb ((Decimal.raw (ff_price r) <=? 0) || (Decimal.raw (ff_quantity r) <=? 0));
  rec_key r := process_fact_key FILL_FACT_NAMESPACE (ff_liquidation_id r) (ff_event_id r);
}.

Record LiquidationMarketFlowCurrentRecordV1 := mkMarketFlow {
  mf_liquidation_id : LiquidationId;
  mf_account_id : Address;
  mf_market_id : MarketId;
  mf_observed_filled_quantity : Quantity;
  mf_first_fill_event_id : EventId;
  mf_first_fill_position : EventPosition;
  mf_last_fill_event_id : EventId;
  mf_last_fill_position : EventPosition;
  mf_rule_version : string;
}.
Record LiquidationMarketFlowWire := mkMarketFlowWire {
  mfw_schema : string;
  mfw_liquidation_id : string;
  mfw_account_id : string;
  mfw_market_id : string;
  mfw_observed_filled_quantity : string;
  mfw_first_fill_event_id : string;
  mfw_first_fill_block_height : Z;
  mfw_first_fill_transaction_index : Z;
  mfw_first_fill_canonical_event_index : Z;
  mfw_last_fill_event_id : string;
  mfw_last_fill_block_height : Z;
  mfw_last_fill_transaction_index : Z;
  mfw_last_fill_canonical_event_index : Z;
  mfw_rule_version : string;
}.
#[global] Instance LiquidationMarketFlowWire_eq_dec : EqDecision LiquidationMarketFlowWire.
Proof. solve_decision. Defined.

Definition market_flow_key (id : LiquidationId) (a : Address) (m : MarketId) : result RecordCodecError StateKey :=
  framed_key MARKET_FLOW_NAMESPACE [as_bytes id; a; as_bytes m].

#[global] Instance market_flow_record `{Hex} : StateRecord LiquidationMarketFlowCurrentRecordV1 LiquidationMarketFlowWire := {
  to_wire r :=
    let '(fh, ft, fi) := mf_first_fill_position r in
    let '(lh, lt, li) := mf_last_fill_position r in
    mkMarketFlowWire MARKET_FLOW_SCHEMA (mf_liquidation_id r) (to_api_string (mf_account_id r)) (mf_market_id r)
      (Decimal.to_string (mf_observed_filled_quantity r)) (mf_first_fill_event_id r) fh ft fi (mf_last_fill_event_id r) lh lt li
      (mf_rule_version r);
  from_wire w :=
    if negb (bool_decide (mfw_schema w = MARKET_FLOW_SCHEMA)) then Err InvalidRecord else
    id ← field (string_id_new (mfw_liquidation_id w));
    account ← field (parse_api (mfw_account_id w));
    market ← field (string_id_new (mfw_market_id w));
    quantity ← field (Decimal.from_str (mfw_observed_filled_quantity w));
    first ← field (string_id_new (mfw_first_fill_event_id w));
    last ← field (string_id_new (mfw_last_fill_event_id w));
    Ok (mkMarketFlow id account market quantity first
          (mfw_first_fill_block_height w, mfw_first_fill_transaction_index w, mfw_first_fill_canonical_event_index w) last
          (mfw_last_fill_block_height w, mfw_last_fill_transaction_index w, mfw_last_fill_canonical_event_index w) (mfw_rule_version w));
  rec_validate r :=
    valid_rule_version (mf_rule_version r) && negb (Decimal.raw (mf_observed_filled_quantity r) <=? 0) &&
    valid_position_pair (mf_first_fill_event_id r) (mf_first_fill_position r) (mf_last_fill_event_id r) (mf_last_fill_position r);
  rec_key r := market_flow_key (mf_liquidation_id r) (mf_account_id r) (mf_market_id r);
}.

Record BackstopLiquidationFactRecordV1 := mkBackstopFact {
  bf_liquidation_id : LiquidationId;
  bf_event_id : EventId;
  bf_account_id : Address;
  bf_backstop_account_id : Address;
  bf_market_id : MarketId;
  bf_quantity : Quantity;
  bf_transfer_price_resolution : LiquidationSourceValueResolutionV1;
  bf_entry_price_resolution : LiquidationSourceValueResolutionV1;
  bf_position : EventPosition;
  bf_payload_blake3 : Hash;
  bf_rule_version : string;
}.
Record BackstopLiquidationFactWire := mkBackstopFactWire {
  bfw_schema : string;
  bfw_liquidation_id : string;
  bfw_event_id : string;
  bfw_account_id : string;
  bfw_backstop_account_id : string;
  bfw_market_id : string;
  bfw_quantity : string;
  bfw_transfer_price_resolution : string;
  bfw_entry_price_resolution : string;
  bfw_block_height : Z;
  bfw_transaction_index : Z;
  bfw_canonical_event_index : Z;
  bfw_payload_blake3 : string;
  bfw_rule_version : string;
}.
#[global] Instance BackstopLiquidationFactWire_eq_dec : EqDecision BackstopLiquidationFactWire.
Proof. solve_decision. Defined.

#[global] Instance backstop_fact_record `{Hex} : StateRecord BackstopLiquidationFactRecordV1 BackstopLiquidationFactWire := {
  to_wire r :=
    let '(h, t, i) := bf_position r in
    mkBackstopFactWire BACKSTOP_FACT_SCHEMA (bf_liquidation_id r) (bf_event_id r) (to_api_string (bf_account_id r))
      (to_api_string (bf_backstop_account_id r)) (bf_market_id r) (Decimal.to_string (bf_quantity r))
      (source_value_wire (bf_transfer_price_resolution r)) (source_value_wire (bf_entry_price_resolution r)) h t i
      (hex_encode (bf_payload_blake3 r)) (bf_rule_version r);
  from_wire w :=
    if negb (bool_decide (bfw_schema w = BACKSTOP_FACT_SCHEMA)) then Err InvalidRecord else
    id ← field (string_id_new (bfw_liquidation_id w));
    event ← field (string_id_new (bfw_event_id w));
    account ← field (parse_api (bfw_account_id w));
    backstop ← field (parse_api (bfw_backstop_account_id w));
    market ← field (string_id_new (bfw_market_id w));
    quantity ← field (Decimal.from_str (bfw_quantity w));
    transfer ← source_value_parse (bfw_transfer_price_resolution w);
    entry ← source_value_parse (bfw_entry_price_resolution w);
    hash ← parse_payload_blake3 (bfw_payload_blake3 w);
    Ok (mkBackstopFact id event account backstop market quantity transfer entry
          (bfw_block_height w, bfw_transaction_index w, bfw_canonical_event_index w) hash (bfw_rule_version w));
  rec_validate r :=
    valid_rule_version (bf_rule_version r) &&
    negb (bool_decide (bf_account_id r = bf_backstop_account_id r) || (Decimal.raw (bf_quantity r) <=? 0) ||
          negb (bool_decide (bf_transfer_price_resolution r = UnavailableFromSource)) ||
          negb (bool_decide (bf_entry_price_resolution r = UnavailableFromSource)));
  rec_key r := process_fact_key BACKSTOP_FACT_NAMESPACE (bf_liquidation_id r) (bf_event_id r);
}.

Record PositionSettlementFactRecordV1 := mkSettlementFact {
  st_event_id : EventId;
  st_account_id : Address;
  st_market_id : MarketId;
  st_settlement_price : Price;
  st_settled_quantity : Quantity;
  st_realized_pnl : QuoteAmount;
  st_position : EventPosition;
  st_payload_blake3 : Hash;
  st_rule_version : string;
}.
Record PositionSettlementFactWire := mkSettlementFactWire {
  stw_schema : string;
  stw_event_id : string;
  stw_account_id : string;
  stw_market_id : string;
  stw_settlement_price : string;
  stw_settled_quantity : string;
  stw_realized_pnl : string;
  stw_block_height : Z;
  stw_transaction_index : Z;
  stw_canonical_event_index : Z;
  stw_payload_blake3 : string;
  stw_rule_version : string;
}.
#[global] Instance PositionSettlementFactWire_eq_dec : EqDecision PositionSettlementFactWire.
Proof. solve_decision. Defined.

#[global] Instance settlement_fact_record `{Hex} : StateRecord PositionSettlementFactRecordV1 PositionSettlementFactWire := {
  to_wire r :=
    let '(h, t, i) := st_position r in
    mkSettlementFactWire SETTLEMENT_FACT_SCHEMA (st_event_id r) (to_api_string (st_account_id r)) (st_market_id r)
      (Decimal.to_string (st_settlement_price r)) (Decimal.to_string (st_settled_quantity r)) (Decimal.to_string (st_realized_pnl r))
      h t i (hex_encode (st_payload_blake3 r)) (st_rule_version r);
  from_wire w :=
    if negb (bool_decide (stw_schema w = SETTLEMENT_FACT_SCHEMA)) then Err InvalidRecord else
    event ← field (string_id_new (stw_event_id w));
    account ← field (parse_api (stw_account_id w));
    market ← field (string_id_new (stw_market_id w));
    price ← field (Decimal.from_str (stw_settlement_price w));
    quantity ← field (Decimal.from_str (stw_settled_quantity w));
    pnl ← field (Decimal.from_str (stw_realized_pnl w));
    hash ← parse_payload_blake3 (stw_payload_blake3 w);
    Ok (mkSettlementFact event account market price quantity pnl
          (stw_block_height w, stw_transaction_index w, stw_canonical_event_index w) hash (stw_rule_version w));
  rec_validate r :=
    valid_rule_version (st_rule_version r) && negb ((Decimal.raw (st_settlement_price r) <? 0) || (Decimal.raw (st_settled_quantity r) <=? 0));
  rec_key r := framed_key SETTLEMENT_FACT_NAMESPACE [as_bytes (st_event_id r); st_account_id r; as_bytes (st_market_id r)];
}.

(** ** Errors *)

Definition liquidation_identity_mismatch := liquidation_error "liquidation_state.identity_mismatch" "liquidation payload is invalid".
Definition fill_fact_prior_invalid := liquidation_error "liquidation_state.fill_fact_prior_invalid" "prior liquidation fill fact is invalid".
Definition backstop_fact_prior_invalid := liquidation_error "liquidation_state.backstop_fact_prior_invalid" "prior backstop fact is invalid".
Definition settlement_fact_prior_invalid :=
  liquidation_error "liquidation_state.settlement_fact_prior_invalid" "prior settlement fact is invalid".
Definition process_prior_invalid := liquidation_error "liquidation_state.process_prior_invalid" "prior liquidation process is invalid".
Definition flow_prior_invalid := liquidation_error "liquidation_state.flow_prior_invalid" "prior liquidation flow is invalid".
Definition liquidation_quantity_arithmetic :=
  liquidation_error "liquidation_state.quantity_arithmetic" "liquidation position arithmetic failed".
Definition flow_arithmetic := liquidation_error "liquidation_state.flow_arithmetic" "liquidation flow arithmetic failed".
Definition unresolved_prior_invalid := liquidation_error "liquidation_state.unresolved_prior_invalid" "prior unresolved cause fact is invalid".
Definition fill_overrun := liquidation_error "liquidation_state.fill_overrun" "liquidation fill overruns a known position".

(** ** Quantities *)

Definition toward_zero_result (position : PositionQuantity) (quantity : Quantity) (reject_overrun : bool)
  : result ReducerError NonTradeQuantityResult.t :=
  let step {A} (r : result ValueError A) := map_err (fun _ => liquidation_quantity_arithmetic) r in
  let scale := Z.max (Decimal.scale position) (Decimal.scale quantity) in
  position ← step (checked_rescale_up position scale);
  quantity ← step (Decimal.rescale quantity scale TowardZero);
  unsigned ← step (Decimal.from_raw (Decimal.raw quantity) scale);
  candidate ← step (if 0 <? Decimal.raw position then Decimal.checked_sub position unsigned else Decimal.checked_add position unsigned);
  let overrun := ((0 <? Decimal.raw position) && (Decimal.raw candidate <? 0)) ||
                 ((Decimal.raw position <? 0) && (0 <? Decimal.raw candidate)) in
  if overrun then (if reject_overrun then Err fill_overrun else Ok NonTradeQuantityResult.Ambiguous)
  else Ok (NonTradeQuantityResult.Exact candidate).

(** A known position other than zero. *)
Definition open_quantity (loaded : LoadedNonTradePair) : option PositionQuantity :=
  match nontrade_known_quantity loaded with
  | Some position => if Decimal.raw position =? 0 then None else Some position
  | None => None
  end.
Definition fill_result (loaded : LoadedNonTradePair) (quantity : Quantity) : result ReducerError NonTradeQuantityResult.t :=
  if is_known_zero loaded then Err fill_overrun else
  match open_quantity loaded with
  | Some position => toward_zero_result position quantity true
  | None => Ok NonTradeQuantityResult.Ambiguous
  end.
Definition settlement_result (loaded : LoadedNonTradePair) (quantity : Quantity) : result ReducerError NonTradeQuantityResult.t :=
  match open_quantity loaded with
  | Some position => toward_zero_result position quantity false
  | None => Ok NonTradeQuantityResult.Ambiguous
  end.
(** The scale of the zero quantities an event writes. *)
Definition zero_scale (quantity : Quantity) (outcome : NonTradeQuantityResult.t) : Z :=
  match outcome with
  | NonTradeQuantityResult.Exact value => Z.max (Decimal.scale quantity) (Decimal.scale value)
  | NonTradeQuantityResult.Ambiguous => Decimal.scale quantity
  end.

(** ** The reducer *)

Class LiquidationJson := {
  json_liquidation :: Json LiquidationCurrentWire;
  json_start_fact :: Json LiquidationStartFactWire;
  json_fill_fact :: Json LiquidationFillFactWire;
  json_market_flow :: Json LiquidationMarketFlowWire;
  json_backstop_fact :: Json BackstopLiquidationFactWire;
  json_settlement_fact :: Json PositionSettlementFactWire;
}.

Definition exact_identity (e : Envelope) (kind : EventKind) (markets : list MarketId) (accounts : list Address) : result ReducerError unit :=
  if bool_decide (event_kind e = kind) && bool_decide (market_ids e = markets) && bool_decide (account_ids e = accounts) then Ok tt
  else Err (liquidation_error "liquidation_state.identity_mismatch" "liquidation envelope identity does not match its payload").

Definition ensure_unique_liquidation_keys (ms : list StateMutation) : result ReducerError unit :=
  if unique_keys [] ms then Ok tt
  else Err (liquidation_error "liquidation_state.duplicate_mutation_key" "liquidation reducer emitted duplicate mutation keys").

Definition validate_process_observation (process : LiquidationCurrentRecordV1) (a : Address) (e : Envelope) : result ReducerError unit :=
  if negb (bool_decide (lq_account_id process = a))
  then Err (liquidation_error "liquidation_state.process_account_mismatch" "liquidation process account does not match event") else
  if bool_decide (event_id e = lq_last_observation_event_id process) || leb (event_position e) (lq_last_observation_position process)
  then Err (liquidation_error "liquidation_state.process_provenance_regression" "liquidation process provenance did not advance") else
  Ok tt.

Definition validate_flow_observation (flow : LiquidationMarketFlowCurrentRecordV1) (process : LiquidationCurrentRecordV1) (e : Envelope)
  : result ReducerError unit :=
  let coherent :=
    if bool_decide (mf_last_fill_event_id flow = lq_last_observation_event_id process)
    then bool_decide (mf_last_fill_position flow = lq_last_observation_position process)
    else ltb (mf_last_fill_position flow) (lq_last_observation_position process) in
  if negb coherent || bool_decide (event_id e = mf_last_fill_event_id flow) || leb (event_position e) (mf_last_fill_position flow)
  then Err flow_prior_invalid else Ok tt.

(** Both parts of the first backstop are present together in a checked process. *)
Definition observed_process (process : LiquidationCurrentRecordV1) (e : Envelope) (backstop : bool) : LiquidationCurrentRecordV1 :=
  let '(backstop_event, backstop_position) :=
    match lq_first_backstop_event_id process with
    | Some id => (Some id, lq_first_backstop_position process)
    | None => if backstop then (Some (event_id e), Some (event_position e)) else (None, None)
    end in
  mkLiquidation (lq_liquidation_id process) (lq_account_id process) (lq_start_margin_value process)
    (lq_start_maintenance_requirement process) (if backstop then BackstopObserved else lq_observed_status process)
    (lq_start_event_id process) (lq_start_position process) backstop_event backstop_position (event_id e) (event_position e)
    LIQUIDATION_VERSION.

Definition updated_flow `{Hex} (prior : option LiquidationMarketFlowCurrentRecordV1) (id : LiquidationId) (a : Address) (m : MarketId)
    (quantity : Quantity) (e : Envelope) : result ReducerError LiquidationMarketFlowCurrentRecordV1 :=
  let step {A} (r : result ValueError A) := map_err (fun _ => flow_arithmetic) r in
  '(total, first, first_position) ←
    match prior with
    | Some prior =>
        let scale := Z.max (Decimal.scale (mf_observed_filled_quantity prior)) (Decimal.scale quantity) in
        left ← step (Decimal.rescale (mf_observed_filled_quantity prior) scale TowardZero);
        right ← step (Decimal.rescale quantity scale TowardZero);
        sum ← step (Decimal.checked_add left right);
        Ok (sum, mf_first_fill_event_id prior, mf_first_fill_position prior)
    | None => Ok (quantity, event_id e, event_position e)
    end;
  map_err (fun _ => flow_arithmetic)
    (try_record (mkMarketFlow id a m total first first_position (event_id e) (event_position e) LIQUIDATION_VERSION)).

Section reducer.
Context `{Hex} `{Blake3} `{PositionJson} `{EpisodeJson} `{LiquidationJson}.

Definition put_with {R W} `{StateRecord R W} `{Json W} (err : ReducerError) (key : StateKey) (r : R) : result ReducerError StateMutation :=
  l ← map_err (fun _ => err) (record_encode r);
  Ok (Put key l).

(** A record that has to be new: one that is there already is a collision, or corrupt. *)
Definition reject_record (R : Type) {W} `{StateRecord R W} `{Json W} (st : StateView) (key : StateKey) (invalid collision : ReducerError)
  : result ReducerError unit :=
  match bt_get key st with
  | Some l => _ ← map_err (fun _ => invalid) (record_decode_at (R := R) key l); Err collision
  | None => Ok tt
  end.

Definition load_process (st : StateView) (id : LiquidationId) : result ReducerError LiquidationCurrentRecordV1 :=
  key ← map_err (fun _ => process_prior_invalid) (liquidation_key id);
  l ← bt_get key st ?? liquidation_error "liquidation_state.process_missing" "liquidation process is missing";
  map_err (fun _ => process_prior_invalid) (record_decode_at (R := LiquidationCurrentRecordV1) key l).

Definition updated_process_mutation (process : LiquidationCurrentRecordV1) (e : Envelope) (backstop : bool) : result ReducerError StateMutation :=
  updated ← map_err (fun _ => liquidation_error "liquidation_state.process_transition_invalid" "liquidation process transition is invalid")
    (try_record (observed_process process e backstop));
  key ← map_err (fun _ => process_prior_invalid) (liquidation_key (lq_liquidation_id updated));
  put_with process_prior_invalid key updated.

Definition reduce_start (st : StateView) (e : Envelope) (a : Address) (id : LiquidationId) (margin maintenance : UsdAmount)
  : result ReducerError (list StateMutation) :=
  _ ← exact_identity e LiquidationStarted [] [a];
  current_key ← map_err (fun _ => liquidation_error "liquidation_state.process_prior_invalid" "invalid process key") (liquidation_key id);
  _ ← reject_record LiquidationCurrentRecordV1 st current_key
        (liquidation_error "liquidation_state.process_prior_invalid" "existing liquidation process is invalid")
        (liquidation_error "liquidation_state.process_identity_collision" "liquidation process identity already exists");
  fact ← map_err (fun _ => liquidation_error "liquidation_state.identity_mismatch" "liquidation start payload is invalid")
    (try_record (mkStartFact id (event_id e) a margin maintenance (event_position e) (payload_hash e) LIQUIDATION_VERSION));
  fact_key ← map_err (fun _ => liquidation_error "liquidation_state.start_fact_prior_invalid" "invalid liquidation start fact key") (rec_key fact);
  _ ← reject_record LiquidationStartFactRecordV1 st fact_key
        (liquidation_error "liquidation_state.start_fact_prior_invalid" "existing liquidation start fact is invalid")
        (liquidation_error "liquidation_state.start_fact_identity_collision" "liquidation start fact identity already exists");
  current ← map_err (fun _ => liquidation_error "liquidation_state.process_transition_invalid" "liquidation start process transition is invalid")
    (try_record (mkLiquidation id a margin maintenance LiquidationOpened (event_id e) (event_position e) None None (event_id e)
       (event_position e) LIQUIDATION_VERSION));
  put_fact ← put_with (liquidation_error "liquidation_state.start_fact_prior_invalid" "could not encode liquidation start fact") fact_key fact;
  put_current ← put_with (liquidation_error "liquidation_state.process_transition_invalid" "could not encode liquidation process") current_key current;
  Ok [put_fact; put_current].

(** Episode effects must be new, and so must an episode this event opens. *)
Definition secondary_collision (st : StateView) (e : Envelope) (m : StateMutation) : result ReducerError unit :=
  match m with
  | Put key proposed_bytes =>
      if bool_decide (namespace key = EPISODE_EFFECT_NAMESPACE)
      then reject_record PositionEpisodeEffectFactRecordV1 st key liquidation_episode_effect_prior_invalid
             (liquidation_error "liquidation_state.episode_effect_identity_collision" "position episode effect identity already exists")
      else if negb (bool_decide (namespace key = EPISODE_NAMESPACE)) then Ok tt else
      opened ← map_err (fun _ => liquidation_episode_prior_invalid) (record_decode_at (R := PositionEpisodeRecordV1) key proposed_bytes);
      if negb (bool_decide (ep_opening_anchor_event_id opened = event_id e)) || negb (ep_opening_leg_ordinal opened =? 1) then Ok tt else
      reject_record PositionEpisodeRecordV1 st key liquidation_episode_prior_invalid
        (liquidation_error "liquidation_state.episode_identity_collision" "position episode identity already exists")
  | Delete key =>
      if bool_decide (namespace key = EPISODE_EFFECT_NAMESPACE)
      then reject_record PositionEpisodeEffectFactRecordV1 st key liquidation_episode_effect_prior_invalid
             (liquidation_error "liquidation_state.episode_effect_identity_collision" "position episode effect identity already exists")
      else Ok tt
  end.
Definition validate_episode_secondary_collisions (st : StateView) (e : Envelope) (ms : list StateMutation) : result ReducerError unit :=
  _ ← collect (secondary_collision st e) ms;
  Ok tt.

Definition reduce_fill (st : StateView) (e : Envelope) (id : LiquidationId) (a : Address) (m : MarketId) (price : Price) (quantity : Quantity)
  : result ReducerError (list StateMutation) :=
  _ ← exact_identity e LiquidationFill [m] [a];
  fact ← map_err (fun _ => liquidation_identity_mismatch)
    (try_record (mkFillFact id (event_id e) a m price quantity (event_position e) (payload_hash e) LIQUIDATION_VERSION));
  fact_key ← map_err (fun _ => fill_fact_prior_invalid) (rec_key fact);
  _ ← reject_record LiquidationFillFactRecordV1 st fact_key fill_fact_prior_invalid
        (liquidation_error "liquidation_state.fill_fact_identity_collision" "liquidation fill fact identity already exists");
  process ← load_process st id;
  _ ← validate_process_observation process a e;
  put_process ← updated_process_mutation process e false;
  flow_key ← map_err (fun _ => flow_prior_invalid) (market_flow_key id a m);
  prior ← load_record (R := LiquidationMarketFlowCurrentRecordV1) st flow_key flow_prior_invalid;
  _ ← match prior with Some flow => validate_flow_observation flow process e | None => Ok tt end;
  loaded ← load_nontrade_pair st a m;
  outcome ← fill_result loaded quantity;
  flow ← updated_flow prior id a m quantity e;
  account_mutations ← stage_nontrade_transition e a m loaded outcome CloseCause.LiquidationFill (zero_scale quantity outcome);
  _ ← validate_episode_secondary_collisions st e account_mutations;
  put_fact ← put_with fill_fact_prior_invalid fact_key fact;
  put_flow ← put_with flow_prior_invalid flow_key flow;
  let ms := [put_fact; put_flow; put_process] ++ account_mutations in
  _ ← ensure_unique_liquidation_keys ms;
  Ok ms.

(** The fact that a position became unknown, before the changes to its pair. *)
Definition backstop_bundle (st : StateView) (e : Envelope) (id : LiquidationId) (m : MarketId) (a : Address) (staged : list StateMutation)
  : result ReducerError (list StateMutation) :=
  let cause := mkUnresolved a m (event_id e) id UnresolvedBackstop in
  key ← map_err (fun _ => unresolved_prior_invalid) (rec_key cause);
  _ ← reject_record PositionUnresolvedCauseFactRecordV1 st key unresolved_prior_invalid
        (liquidation_error "liquidation_state.unresolved_identity_collision" "position unresolved cause identity already exists");
  _ ← validate_episode_secondary_collisions st e staged;
  put ← put_with unresolved_prior_invalid key cause;
  Ok (put :: staged).

Definition reduce_backstop (st : StateView) (e : Envelope) (id : LiquidationId) (a backstop : Address) (m : MarketId) (quantity : Quantity)
  : result ReducerError (list StateMutation) :=
  _ ← exact_identity e BackstopLiquidation [m] [a; backstop];
  fact ← map_err (fun _ => liquidation_identity_mismatch)
    (try_record (mkBackstopFact id (event_id e) a backstop m quantity UnavailableFromSource UnavailableFromSource (event_position e)
       (payload_hash e) LIQUIDATION_VERSION));
  fact_key ← map_err (fun _ => backstop_fact_prior_invalid) (rec_key fact);
  _ ← reject_record BackstopLiquidationFactRecordV1 st fact_key backstop_fact_prior_invalid
        (liquidation_error "liquidation_state.backstop_fact_identity_collision" "backstop fact identity already exists");
  process ← load_process st id;
  _ ← validate_process_observation process a e;
  put_process ← updated_process_mutation process e true;
  loaded0 ← load_nontrade_pair st a m;
  loaded1 ← load_nontrade_pair st backstop m;
  let stage account loaded := stage_nontrade_transition e account m loaded NonTradeQuantityResult.Ambiguous CloseCause.BackstopInterrupted
                                (Decimal.scale quantity) in
  staged0 ← stage a loaded0;
  staged1 ← stage backstop loaded1;
  bundle0 ← backstop_bundle st e id m a staged0;
  bundle1 ← backstop_bundle st e id m backstop staged1;
  put_fact ← put_with backstop_fact_prior_invalid fact_key fact;
  let ms := [put_fact; put_process] ++ bundle0 ++ bundle1 in
  _ ← ensure_unique_liquidation_keys ms;
  Ok ms.

Definition reduce_settlement (st : StateView) (e : Envelope) (a : Address) (m : MarketId) (price : Price) (quantity : Quantity)
    (pnl : QuoteAmount) : result ReducerError (list StateMutation) :=
  _ ← exact_identity e PositionSettled [m] [a];
  fact ← map_err (fun _ => liquidation_identity_mismatch)
    (try_record (mkSettlementFact (event_id e) a m price quantity pnl (event_position e) (payload_hash e) LIQUIDATION_VERSION));
  fact_key ← map_err (fun _ => settlement_fact_prior_invalid) (rec_key fact);
  _ ← reject_record PositionSettlementFactRecordV1 st fact_key settlement_fact_prior_invalid
        (liquidation_error "liquidation_state.settlement_fact_identity_collision" "position settlement fact identity already exists");
  loaded ← load_nontrade_pair st a m;
  outcome ← settlement_result loaded quantity;
  account_mutations ← stage_nontrade_transition e a m loaded outcome CloseCause.Settlement (zero_scale quantity outcome);
  _ ← validate_episode_secondary_collisions st e account_mutations;
  put_fact ← put_with settlement_fact_prior_invalid fact_key fact;
  let ms := put_fact :: account_mutations in
  _ ← ensure_unique_liquidation_keys ms;
  Ok ms.

Definition liquidation_supports (e : Envelope) : bool :=
  bool_decide (schema_version e = "1.0.0"%string) &&
  match event_kind e with LiquidationStarted | LiquidationFill | BackstopLiquidation | PositionSettled => true | _ => false end.

Definition liquidation_reduce (st : StateView) (e : Envelope) : result ReducerError (list StateMutation) :=
  if negb (liquidation_supports e)
  then Err (liquidation_error "liquidation_state.unsupported_event" "liquidation reducer received an unsupported event") else
  match payload e with
  | Payload.LiquidationStarted a id margin maintenance => reduce_start st e a id margin maintenance
  | Payload.LiquidationFill id a m price quantity => reduce_fill st e id a m price quantity
  | Payload.BackstopLiquidation id a backstop m quantity => reduce_backstop st e id a backstop m quantity
  | Payload.PositionSettled a m price quantity pnl => reduce_settlement st e a m price quantity pnl
  | _ => Err (liquidation_error "liquidation_state.unsupported_event" "liquidation reducer received an unsupported payload")
  end.
End reducer.

Inductive CanonicalLiquidationReducerV1 := LiquidationReducer.
#[global] Instance liquidation_reducer `{Hex} `{Blake3} `{PositionJson} `{EpisodeJson} `{LiquidationJson}
  : EventReducer Payload.t CanonicalLiquidationReducerV1 := {
  reducer_version _ := LIQUIDATION_VERSION;
  supports _ := liquidation_supports;
  reduce _ st e _ := liquidation_reduce st e;
  validate_block_delta _ := default_validate_block_delta default_validate_block;
}.
