(* ===== verification/Staking.v ===== *)
(** * Staking and validator rewards: [staking.rs] and [validator.rs]

    Staked quantity moves between three balances of an account: liquid,
    pending withdrawal and delegated to a validator. Each balance is a record
    of credits and debits whose debits may not exceed its credits. Rewards of
    validators are credited per validator. *)

From Stdlib Require Import Strings.Byte Strings.String.
From stdpp Require Import sorting.
From S2P Require Import Prelude Ordering BTreeMap Bytes FixedPoint Ids Store StateImage Blocks Ledger Payloads Records Opaque Markets Accounts.

(** ** Errors *)

Definition staking_codec_error (e : RecordCodecError) : ReducerError :=
  match e with
  | InvalidRecordKey => mkReducerError "staking_state.codec_invalid_key" "staking state key encoding failed"
  | RecordLimitExceeded => mkReducerError "staking_state.codec_limit_exceeded" "staking state record exceeds its deterministic bound"
  | Codec | NonCanonical | InvalidRecord | KeyMismatch =>
      mkReducerError "staking_state.codec_failed" "staking state record is not canonical"
  end.
Definition staking_arithmetic : ReducerError :=
  mkReducerError "staking_state.flow_arithmetic" "staking quantity arithmetic failed".
Definition staking_unsupported : ReducerError :=
  mkReducerError "staking_state.unsupported_event" "staking reducer received an unsupported event".

(** ** Records *)

Definition STAKING_VERSION : string := "hyperliquid-alpha-desk-canonical-staking@1.0.0".
Definition STAKING_FACT_NAMESPACE : string := "staking-fact.v1".
Definition LIQUID_NAMESPACE : string := "staking-liquid-current.v1".
Definition PENDING_NAMESPACE : string := "staking-pending-current.v1".
Definition DELEGATION_NAMESPACE : string := "staking-delegation-current.v1".
Definition STAKING_FACT_SCHEMA : string := "hyperliquid-alpha-desk/staking-fact/v1".
Definition LIQUID_SCHEMA : string := "hyperliquid-alpha-desk/staking-liquid-current/v1".
Definition PENDING_SCHEMA : string := "hyperliquid-alpha-desk/staking-pending-current/v1".
Definition DELEGATION_SCHEMA : string := "hyperliquid-alpha-desk/staking-delegation-current/v1".

Record StakingFactRecordV1 := mkStakingFact {
  sf_event_id : EventId;
  sf_event_kind : EventKind;
  sf_account_id : Address;
  sf_validator : option string;
  sf_block_height : BlockHeight;
  sf_payload_hash : Hash;
}.
Record StakingFactWire := mkStakingFactWire {
  sfw_schema : string;
  sfw_event_id : string;
  sfw_event_kind : string;
  sfw_account_id : string;
  sfw_validator : option string;
  sfw_block_height : Z;
  sfw_payload_blake3 : string;
  sfw_rule_version : string;
}.
#[global] Instance StakingFactWire_eq_dec : EqDecision StakingFactWire.
Proof. solve_decision. Defined.

Definition staking_fact_key (id : EventId) : result RecordCodecError StateKey := framed_key STAKING_FACT_NAMESPACE [as_bytes id].
Definition staking_fact_valid (r : StakingFactRecordV1) : bool :=
  match sf_event_kind r with
  | StakingDelegated | StakingUndelegated => is_set_and (fun v => negb (bool_decide (v = EmptyString))) (sf_validator r)
  | StakingDeposit | StakingWithdrawalQueued | StakingWithdrawalCompleted => negb (is_set (sf_validator r))
  | _ => false
  end.
Definition staking_fact_encode `{Hex} `{Json StakingFactWire} (r : StakingFactRecordV1) : result RecordCodecError bytes :=
  _ ← check (staking_fact_valid r);
  encode_json (mkStakingFactWire STAKING_FACT_SCHEMA (sf_event_id r) (as_wire_name (sf_event_kind r))
    (to_api_string (sf_account_id r)) (sf_validator r) (sf_block_height r) (hex_encode (sf_payload_hash r)) STAKING_VERSION).

Record StakingLiquidCurrentRecordV1 := mkLiquid {
  sl_account_id : Address;
  sl_credits : Quantity;
  sl_debits : Quantity;
  sl_last_event_id : EventId;
  sl_last_block_height : BlockHeight;
}.
Record StakingPendingCurrentRecordV1 := mkPending {
  sp_account_id : Address;
  sp_credits : Quantity;
  sp_debits : Quantity;
  sp_last_event_id : EventId;
  sp_last_block_height : BlockHeight;
}.
Record BalanceWire := mkBalanceWire {
  bw_schema : string;
  bw_account_id : string;
  bw_credits : string;
  bw_debits : string;
  bw_last_event_id : string;
  bw_last_block_height : Z;
}.
#[global] Instance BalanceWire_eq_dec : EqDecision BalanceWire.
Proof. solve_decision. Defined.

(** The fields of [decode_balance] *)
Definition balance_fields `{Hex} {R} (schema : string) (make : Address -> Quantity -> Quantity -> EventId -> BlockHeight -> R)
    (w : BalanceWire) : result RecordCodecError R :=
  if negb (bool_decide (bw_schema w = schema)) then Err InvalidRecord else
  account ← field (parse_api (bw_account_id w));
  credits ← field (Decimal.from_str (bw_credits w));
  debits ← field (Decimal.from_str (bw_debits w));
  event ← field (string_id_new (bw_last_event_id w));
  Ok (make account credits debits event (bw_last_block_height w)).

Definition liquid_key (account : Address) : result RecordCodecError StateKey := framed_key LIQUID_NAMESPACE [account].
#[global] Instance liquid_record `{Hex} : StateRecord StakingLiquidCurrentRecordV1 BalanceWire := {
  to_wire r := mkBalanceWire LIQUID_SCHEMA (to_api_string (sl_account_id r)) (Decimal.to_string (sl_credits r))
                 (Decimal.to_string (sl_debits r)) (sl_last_event_id r) (sl_last_block_height r);
  from_wire := balance_fields LIQUID_SCHEMA mkLiquid;
  rec_validate _ := true;
  rec_key r := liquid_key (sl_account_id r);
}.

Definition pending_key (account : Address) : result RecordCodecError StateKey := framed_key PENDING_NAMESPACE [account].
#[global] Instance pending_record `{Hex} : StateRecord StakingPendingCurrentRecordV1 BalanceWire := {
  to_wire r := mkBalanceWire PENDING_SCHEMA (to_api_string (sp_account_id r)) (Decimal.to_string (sp_credits r))
                 (Decimal.to_string (sp_debits r)) (sp_last_event_id r) (sp_last_block_height r);
  from_wire := balance_fields PENDING_SCHEMA mkPending;
  rec_validate _ := true;
  rec_key r := pending_key (sp_account_id r);
}.

Record StakingDelegationCurrentRecordV1 := mkDelegation {
  sd_account_id : Address;
  sd_validator : string;
  sd_credits : Quantity;
  sd_debits : Quantity;
  sd_last_event_id : EventId;
  sd_last_block_height : BlockHeight;
}.
Record DelegationWire := mkDelegationWire {
  sdw_schema : string;
  sdw_account_id : string;
  sdw_validator : string;
  sdw_credits : string;
  sdw_debits : string;
  sdw_last_event_id : string;
  sdw_last_block_height : Z;
}.
#[global] Instance DelegationWire_eq_dec : EqDecision DelegationWire.
Proof. solve_decision. Defined.

Definition delegation_key (account : Address) (validator : string) : result RecordCodecError StateKey :=
  framed_key DELEGATION_NAMESPACE [account; as_bytes validator].
#[global] Instance delegation_record `{Hex} : StateRecord StakingDelegationCurrentRecordV1 DelegationWire := {
  to_wire r := mkDelegationWire DELEGATION_SCHEMA (to_api_string (sd_account_id r)) (sd_validator r)
                 (Decimal.to_string (sd_credits r)) (Decimal.to_string (sd_debits r)) (sd_last_event_id r)
                 (sd_last_block_height r);
  from_wire w :=
    if negb (bool_decide (sdw_schema w = DELEGATION_SCHEMA)) then Err InvalidRecord else
    account ← field (parse_api (sdw_account_id w));
    credits ← field (Decimal.from_str (sdw_credits w));
    debits ← field (Decimal.from_str (sdw_debits w));
    event ← field (string_id_new (sdw_last_event_id w));
    if bool_decide (sdw_validator w = EmptyString) then Err InvalidRecord else
    Ok (mkDelegation account (sdw_validator w) credits debits event (sdw_last_block_height w));
  rec_validate _ := true;
  rec_key r := delegation_key (sd_account_id r) (sd_validator r);
}.

(** ** Flows *)

(** The JSON of the records of this file. *)
Class StakingJson := {
  json_staking_fact :: Json StakingFactWire;
  json_balance :: Json BalanceWire;
  json_delegation :: Json DelegationWire;
}.

Definition zero_of (amount : Quantity) : result ReducerError Quantity :=
  map_err (fun _ => staking_arithmetic) (Decimal.checked_sub amount amount).

(** The [apply] of the three balances: the credits and debits after an amount on one side. *)
Definition apply_flow (insufficient : ReducerError) (credits debits amount : Quantity) (side : FlowSide)
  : result ReducerError (Quantity * Quantity) :=
  '(credits, debits) ← match side with
    | Credit => c ← map_err (fun _ => staking_arithmetic) (Decimal.checked_add credits amount); Ok (c, debits)
    | Debit => d ← map_err (fun _ => staking_arithmetic) (Decimal.checked_add debits amount); Ok (credits, d)
    end;
  if ltb credits debits then Err insufficient else Ok (credits, debits).

Section staking.
Context `{Hex} `{StakingJson} `{PayloadWire}.

Definition liquid_apply (r : StakingLiquidCurrentRecordV1) (amount : Quantity) (side : FlowSide) (event : EventId)
    (height : BlockHeight) : result ReducerError StakingLiquidCurrentRecordV1 :=
  '(c, d) ← apply_flow (mkReducerError "staking_state.insufficient_liquid" "staking liquid debit exceeds credits")
              (sl_credits r) (sl_debits r) amount side;
  Ok (mkLiquid (sl_account_id r) c d event height).
Definition pending_apply (r : StakingPendingCurrentRecordV1) (amount : Quantity) (side : FlowSide) (event : EventId)
    (height : BlockHeight) : result ReducerError StakingPendingCurrentRecordV1 :=
  '(c, d) ← apply_flow (mkReducerError "staking_state.insufficient_pending" "staking pending debit exceeds credits")
              (sp_credits r) (sp_debits r) amount side;
  Ok (mkPending (sp_account_id r) c d event height).
Definition delegation_apply (r : StakingDelegationCurrentRecordV1) (amount : Quantity) (side : FlowSide) (event : EventId)
    (height : BlockHeight) : result ReducerError StakingDelegationCurrentRecordV1 :=
  '(c, d) ← apply_flow (mkReducerError "staking_state.insufficient_delegation" "undelegate exceeds delegated credits")
              (sd_credits r) (sd_debits r) amount side;
  Ok (mkDelegation (sd_account_id r) (sd_validator r) c d event height).

Definition staking_put {R W} `{StateRecord R W} `{Json W} (key : StateKey) (r : R) : result ReducerError StateMutation :=
  l ← map_err staking_codec_error (record_encode r);
  Ok (Put key l).

Definition liquid_mutation (st : StateView) (account : Address) (amount : Quantity) (side : FlowSide) (e : Envelope)
  : result ReducerError StateMutation :=
  key ← map_err staking_codec_error (liquid_key account);
  current ← match bt_get key st with
    | Some l => map_err staking_codec_error (record_decode_at (R := StakingLiquidCurrentRecordV1) key l)
    | None => zero ← zero_of amount; Ok (mkLiquid account zero zero (event_id e) (ev_block_height e))
    end;
  r ← liquid_apply current amount side (event_id e) (ev_block_height e);
  staking_put key r.

Definition pending_mutation (st : StateView) (account : Address) (amount : Quantity) (side : FlowSide) (e : Envelope)
  : result ReducerError StateMutation :=
  key ← map_err staking_codec_error (pending_key account);
  current ← match bt_get key st with
    | Some l => map_err staking_codec_error (record_decode_at (R := StakingPendingCurrentRecordV1) key l)
    | None => zero ← zero_of amount; Ok (mkPending account zero zero (event_id e) (ev_block_height e))
    end;
  r ← pending_apply current amount side (event_id e) (ev_block_height e);
  staking_put key r.

Definition delegation_mutation (st : StateView) (account : Address) (validator : string) (amount : Quantity)
    (side : FlowSide) (e : Envelope) : result ReducerError StateMutation :=
  key ← map_err staking_codec_error (delegation_key account validator);
  current ← match bt_get key st, side with
    | Some l, _ => map_err staking_codec_error (strict_decode_at (R := StakingDelegationCurrentRecordV1) key l)
    | None, Debit => Err (mkReducerError "staking_state.missing_delegation" "undelegate requires an existing delegation")
    | None, Credit => zero ← zero_of amount; Ok (mkDelegation account validator zero zero (event_id e) (ev_block_height e))
    end;
  r ← delegation_apply current amount side (event_id e) (ev_block_height e);
  staking_put key r.

(** ** The staking reducer *)

Definition staking_supports (e : Envelope) : bool :=
  bool_decide (schema_version e = "1.0.0"%string) &&
  match event_kind e with
  | StakingDeposit | StakingDelegated | StakingUndelegated | StakingWithdrawalQueued | StakingWithdrawalCompleted => true
  | _ => false
  end.

Definition require_account (e : Envelope) (account : Address) : result ReducerError unit :=
  match account_ids e with
  | [observed] => if bool_decide (observed = account) then Ok tt else
      Err (mkReducerError "staking_state.identity_mismatch" "staking envelope account must match the payload user")
  | _ => Err (mkReducerError "staking_state.identity_mismatch" "staking envelope account must match the payload user")
  end.

Definition staking_fact_from_event (e : Envelope) (account : Address) (validator : option string)
  : result ReducerError StakingFactRecordV1 :=
  let r := mkStakingFact (event_id e) (event_kind e) account validator (ev_block_height e) (payload_hash e) in
  _ ← map_err staking_codec_error (check (staking_fact_valid r));
  Ok r.
Definition staking_fact_put (fact_key : StateKey) (fact : StakingFactRecordV1) : result ReducerError StateMutation :=
  l ← map_err staking_codec_error (staking_fact_encode fact);
  Ok (Put fact_key l).

Definition reduce_delegation (st : StateView) (e : Envelope) (fact_key : StateKey) (account : Address)
    (validator : string) (amount : Quantity) (delegating : bool) : result ReducerError (list StateMutation) :=
  _ ← require_account e account;
  fact ← staking_fact_from_event e account (Some validator);
  put ← staking_fact_put fact_key fact;
  m1 ← liquid_mutation st account amount (if delegating then Debit else Credit) e;
  m2 ← delegation_mutation st account validator amount (if delegating then Credit else Debit) e;
  Ok [put; m1; m2].

Definition staking_reduce (st : StateView) (e : Envelope) : result ReducerError (list StateMutation) :=
  if negb (staking_supports e) then Err staking_unsupported else
  fact_key ← map_err staking_codec_error (staking_fact_key (event_id e));
  if bt_contains fact_key st
  then Err (mkReducerError "staking_state.event_identity_collision" "staking event identity is already present") else
  match payload e with
  | Payload.StakingDeposit encoded =>
      '(account, amount) ← decode_staking_deposit_amount encoded;
      _ ← require_account e account;
      fact ← staking_fact_from_event e account None;
      put ← staking_fact_put fact_key fact;
      m ← liquid_mutation st account amount Credit e;
      Ok [put; m]
  | Payload.StakingDelegated encoded =>
      '(account, validator, amount) ← decode_staking_delegate encoded;
      reduce_delegation st e fact_key account validator amount true
  | Payload.StakingUndelegated encoded =>
      '(account, validator, amount) ← decode_staking_undelegate encoded;
      reduce_delegation st e fact_key account validator amount false
  | Payload.StakingWithdrawalQueued encoded =>
      '(account, amount) ← decode_staking_withdraw_queued encoded;
      _ ← require_account e account;
      fact ← staking_fact_from_event e account None;
      put ← staking_fact_put fact_key fact;
      m1 ← liquid_mutation st account amount Debit e;
      m2 ← pending_mutation st account amount Credit e;
      Ok [put; m1; m2]
  | Payload.StakingWithdrawalCompleted encoded =>
      '(account, amount) ← decode_staking_withdraw_completed encoded;
      _ ← require_account e account;
      fact ← staking_fact_from_event e account None;
      put ← staking_fact_put fact_key fact;
      m ← pending_mutation st account amount Debit e;
      Ok [put; m]
  | _ => Err staking_unsupported
  end.
End staking.

Inductive CanonicalStakingReducerV1 := StakingReducer.
#[global] Instance staking_reducer `{Hex} `{StakingJson} `{PayloadWire} : EventReducer Payload.t CanonicalStakingReducerV1 := {
  reducer_version _ := STAKING_VERSION;
  supports _ := staking_supports;
  reduce _ st e _ := staking_reduce st e;
  validate_block_delta _ := default_validate_block_delta default_validate_block;
}.

(** ** Validator rewards: [validator.rs] *)

Definition validator_codec_error (e : RecordCodecError) : ReducerError :=
  match e with
  | InvalidRecordKey => mkReducerError "validator_state.codec_invalid_key" "validator state key encoding failed"
  | RecordLimitExceeded => mkReducerError "validator_state.codec_limit_exceeded" "validator state record exceeds its deterministic bound"
  | Codec | NonCanonical | InvalidRecord | KeyMismatch =>
      mkReducerError "validator_state.codec_failed" "validator state record is not canonical"
  end.
Definition validator_unsupported : ReducerError :=
  mkReducerError "validator_state.unsupported_event" "validator reducer received an unsupported event".

Definition VALIDATOR_VERSION : string := "hyperliquid-alpha-desk-canonical-validator@1.0.0".
Definition VALIDATOR_FACT_NAMESPACE : string := "validator-fact.v1".
Definition VALIDATOR_NAMESPACE : string := "validator-reward-current.v1".
Definition VALIDATOR_FACT_SCHEMA : string := "hyperliquid-alpha-desk/validator-fact/v1".
Definition VALIDATOR_SCHEMA : string := "hyperliquid-alpha-desk/validator-reward-current/v1".

Record ValidatorFactRecordV1 := mkValidatorFact {
  vf_event_id : EventId;
  vf_validator : string;
  vf_block_height : BlockHeight;
  vf_payload_hash : Hash;
}.
Record ValidatorFactWire := mkValidatorFactWire {
  vfw_schema : string;
  vfw_event_id : string;
  vfw_validator : string;
  vfw_block_height : Z;
  vfw_payload_blake3 : string;
  vfw_rule_version : string;
}.
#[global] Instance ValidatorFactWire_eq_dec : EqDecision ValidatorFactWire.
Proof. solve_decision. Defined.
Definition validator_fact_key (id : EventId) : result RecordCodecError StateKey := framed_key VALIDATOR_FACT_NAMESPACE [as_bytes id].
Definition validator_fact_encode `{Hex} `{Json ValidatorFactWire} (r : ValidatorFactRecordV1) : result RecordCodecError bytes :=
  encode_json (mkValidatorFactWire VALIDATOR_FACT_SCHEMA (vf_event_id r) (vf_validator r) (vf_block_height r)
    (hex_encode (vf_payload_hash r)) VALIDATOR_VERSION).

Record ValidatorRewardCurrentRecordV1 := mkValidatorReward {
  vc_validator : string;
  vc_credits : Quantity;
  vc_last_event_id : EventId;
  vc_last_block_height : BlockHeight;
}.
Record ValidatorCurrentWire := mkValidatorWire {
  vcw_schema : string;
  vcw_validator : string;
  vcw_credits : string;
  vcw_last_event_id : string;
  vcw_last_block_height : Z;
}.
#[global] Instance ValidatorCurrentWire_eq_dec : EqDecision ValidatorCurrentWire.
Proof. solve_decision. Defined.
Definition validator_key (validator : string) : result RecordCodecError StateKey := framed_key VALIDATOR_NAMESPACE [as_bytes validator].
#[global] Instance validator_record : StateRecord ValidatorRewardCurrentRecordV1 ValidatorCurrentWire := {
  to_wire r := mkValidatorWire VALIDATOR_SCHEMA (vc_validator r) (Decimal.to_string (vc_credits r)) (vc_last_event_id r)
                 (vc_last_block_height r);
  from_wire w :=
    if negb (bool_decide (vcw_schema w = VALIDATOR_SCHEMA)) || bool_decide (vcw_validator w = EmptyString)
    then Err InvalidRecord else
    credits ← field (Decimal.from_str (vcw_credits w));
    event ← field (string_id_new (vcw_last_event_id w));
    Ok (mkValidatorReward (vcw_validator w) credits event (vcw_last_block_height w));
  rec_validate _ := true;
  rec_key r := validator_key (vc_validator r);
}.

Class ValidatorJson := {
  json_validator_fact :: Json ValidatorFactWire;
  json_validator :: Json ValidatorCurrentWire;
}.

Definition validator_supports (e : Envelope) : bool :=
  bool_decide (schema_version e = "1.0.0"%string) && match event_kind e with ValidatorRewardPaid => true | _ => false end.

Section validator.
Context `{Hex} `{ValidatorJson} `{PayloadWire}.

(** The record of a validator after a reward. *)
Definition next_reward (st : StateView) (key : StateKey) (validator : string) (amount : Quantity) (e : Envelope)
  : result ReducerError ValidatorRewardCurrentRecordV1 :=
  match bt_get key st with
  | Some l =>
      current ← map_err validator_codec_error (record_decode_at (R := ValidatorRewardCurrentRecordV1) key l);
      credits ← map_err (fun _ => mkReducerError "validator_state.flow_arithmetic" "validator reward quantity arithmetic failed")
                  (Decimal.checked_add (vc_credits current) amount);
      Ok (mkValidatorReward validator credits (event_id e) (ev_block_height e))
  | None => Ok (mkValidatorReward validator amount (event_id e) (ev_block_height e))
  end.

Definition validator_reduce (st : StateView) (e : Envelope) : result ReducerError (list StateMutation) :=
  if negb (validator_supports e) then Err validator_unsupported else
  if negb (is_empty (account_ids e))
  then Err (mkReducerError "validator_state.account_inferred" "validator rewards are not account-owned") else
  match payload e with
  | Payload.ValidatorRewardPaid encoded =>
      '(validator, amount) ← decode_validator_reward encoded;
      fact_key ← map_err validator_codec_error (validator_fact_key (event_id e));
      if bt_contains fact_key st
      then Err (mkReducerError "validator_state.event_identity_collision" "validator event identity is already present") else
      key ← map_err validator_codec_error (validator_key validator);
      current ← next_reward st key validator amount e;
      fact ← map_err validator_codec_error
               (validator_fact_encode (mkValidatorFact (event_id e) validator (ev_block_height e) (payload_hash e)));
      l ← map_err validator_codec_error (record_encode current);
      Ok [Put fact_key fact; Put key l]
  | _ => Err validator_unsupported
  end.
End validator.

Inductive CanonicalValidatorReducerV1 := ValidatorReducer.
#[global] Instance validator_reducer `{Hex} `{ValidatorJson} `{PayloadWire} : EventReducer Payload.t CanonicalValidatorReducerV1 := {
  reducer_version _ := VALIDATOR_VERSION;
  supports _ := validator_supports;
  reduce _ st e _ := validator_reduce st e;
  validate_block_delta _ := default_validate_block_delta default_validate_block;
}.
