(* ===== verification/Vaults.v ===== *)
(** * Vaults and relationships: [vault.rs], [relationships.rs] and [borrow_lend.rs]

    Creating a vault and distributing from it move the principal of the vault
    and of the account behind the event, through the flow records of the
    account reducer. The relationship reducer keeps which accounts are
    connected to which vaults and validators. *)

From Stdlib Require Import Strings.Byte Strings.String.
From stdpp Require Import sorting.
From S2P Require Import Prelude Ordering BTreeMap Bytes FixedPoint Ids Store StateImage Blocks Ledger Payloads Records Opaque Markets Accounts.

(** ** Vaults *)

Definition vault_codec_error (e : RecordCodecError) : ReducerError :=
  match e with
  | InvalidRecordKey => mkReducerError "vault_state.codec_invalid_key" "vault state key encoding failed"
  | RecordLimitExceeded => mkReducerError "vault_state.codec_limit_exceeded" "vault state record exceeds its deterministic bound"
  | Codec | NonCanonical | InvalidRecord | KeyMismatch =>
      mkReducerError "vault_state.codec_failed" "vault state record is not canonical"
  end.
Definition vault_unsupported : ReducerError :=
  mkReducerError "vault_state.unsupported_event" "vault reducer received an unsupported event".

Definition VAULT_VERSION : string := "hyperliquid-alpha-desk-canonical-vault@1.0.0".
Definition VAULT_FACT_NAMESPACE : string := "vault-fact.v1".
Definition VAULT_NAMESPACE : string := "vault-current.v1".
Definition VAULT_FACT_SCHEMA : string := "hyperliquid-alpha-desk/vault-fact/v1".
Definition VAULT_SCHEMA : string := "hyperliquid-alpha-desk/vault-current/v1".

Record VaultFactRecordV1 := mkVaultFact {
  wf_event_id : EventId;
  wf_event_kind : EventKind;
  wf_vault_id : option VaultId;
  wf_account_ids : list Address;
  wf_block_height : BlockHeight;
  wf_payload_hash : Hash;
}.
Record VaultFactWire := mkVaultFactWire {
  wfw_schema : string;
  wfw_event_id : string;
  wfw_event_kind : string;
  wfw_vault_id : option string;
  wfw_account_ids : list string;
  wfw_block_height : Z;
  wfw_payload_blake3 : string;
  wfw_rule_version : string;
}.
#[global] Instance VaultFactWire_eq_dec : EqDecision VaultFactWire.
Proof. solve_decision. Defined.

Definition vault_fact_key (id : EventId) : result RecordCodecError StateKey := framed_key VAULT_FACT_NAMESPACE [as_bytes id].
Definition vault_fact_valid (r : VaultFactRecordV1) : bool :=
  match wf_event_kind r with VaultCreated | VaultDistribution => true | _ => false end && is_set (wf_vault_id r) &&
  (zlen (wf_account_ids r) <=? 1).
Definition vault_fact_encode `{Hex} `{Json VaultFactWire} (r : VaultFactRecordV1) : result RecordCodecError bytes :=
  _ ← check (vault_fact_valid r);
  encode_json (mkVaultFactWire VAULT_FACT_SCHEMA (wf_event_id r) (as_wire_name (wf_event_kind r)) (wf_vault_id r)
    (to_api_string <$> wf_account_ids r) (wf_block_height r) (hex_encode (wf_payload_hash r)) VAULT_VERSION).

Record VaultCurrentRecordV1 := mkVault {
  va_vault_id : VaultId;
  va_created_event_id : EventId;
  va_last_event_id : EventId;
  va_first_block_height : BlockHeight;
  va_last_block_height : BlockHeight;
  va_creation_amount : QuoteAmount;
  va_creation_fee : QuoteAmount;
}.
Record VaultCurrentWire := mkVaultWire {
  vaw_schema : string;
  vaw_vault_id : string;
  vaw_created_event_id : string;
  vaw_last_event_id : string;
  vaw_first_block_height : Z;
  vaw_last_block_height : Z;
  vaw_creation_amount : string;
  vaw_creation_fee : string;
}.
#[global] Instance VaultCurrentWire_eq_dec : EqDecision VaultCurrentWire.
Proof. solve_decision. Defined.

Definition vault_key (vault : VaultId) : result RecordCodecError StateKey := framed_key VAULT_NAMESPACE [as_bytes vault].
#[global] Instance vault_record : StateRecord VaultCurrentRecordV1 VaultCurrentWire := {
  to_wire r := mkVaultWire VAULT_SCHEMA (va_vault_id r) (va_created_event_id r) (va_last_event_id r) (va_first_block_height r)
                 (va_last_block_height r) (Decimal.to_string (va_creation_amount r)) (Decimal.to_string (va_creation_fee r));
  from_wire w :=
    if negb (bool_decide (vaw_schema w = VAULT_SCHEMA)) then Err InvalidRecord else
    vault ← field (string_id_new (vaw_vault_id w));
    created ← field (string_id_new (vaw_created_event_id w));
    last ← field (string_id_new (vaw_last_event_id w));
    amount ← field (Decimal.from_str (vaw_creation_amount w));
    fee ← field (Decimal.from_str (vaw_creation_fee w));
    Ok (mkVault vault created last (vaw_first_block_height w) (vaw_last_block_height w) amount fee);
  rec_validate r := (va_first_block_height r <=? va_last_block_height r) && (0 <? Decimal.raw (va_creation_amount r)) &&
                    (0 <=? Decimal.raw (va_creation_fee r));
  rec_key r := vault_key (va_vault_id r);
}.

(** ** Delegation relations *)

Definition RELATION_VERSION : string := "hyperliquid-alpha-desk-canonical-relationships@1.0.0".
Definition STAKING_RELATION_NAMESPACE : string := "staking-delegation-relation.v1".
Definition STAKING_RELATION_SCHEMA : string := "hyperliquid-alpha-desk/staking-delegation-relation/v1".

Definition relation_codec_error (e : RecordCodecError) : ReducerError :=
  match e with
  | InvalidRecordKey => mkReducerError "relationship_state.codec_invalid_key" "relationship state key encoding failed"
  | RecordLimitExceeded =>
      mkReducerError "relationship_state.codec_limit_exceeded" "relationship state record exceeds its deterministic bound"
  | Codec | NonCanonical | InvalidRecord | KeyMismatch =>
      mkReducerError "relationship_state.codec_failed" "relationship state record is not canonical"
  end.
Definition relation_unsupported : ReducerError :=
  mkReducerError "relationship_state.unsupported_event" "relationship reducer received an unsupported event".

Record StakingDelegationRelationCurrentRecordV1 := mkStakingRelation {
  sr_account_id : Address;
  sr_validator : string;
  sr_first_event_id : EventId;
  sr_last_event_id : EventId;
  sr_first_block_height : BlockHeight;
  sr_last_block_height : BlockHeight;
}.
Record StakingRelationWire := mkStakingRelationWire {
  srw_schema : string;
  srw_account_id : string;
  srw_validator : string;
  srw_first_event_id : string;
  srw_last_event_id : string;
  srw_first_block_height : Z;
  srw_last_block_height : Z;
}.
#[global] Instance StakingRelationWire_eq_dec : EqDecision StakingRelationWire.
Proof. solve_decision. Defined.

Definition staking_relation_key (account : Address) (validator : string) : result RecordCodecError StateKey :=
  framed_key STAKING_RELATION_NAMESPACE [account; as_bytes validator].
(** Only reading checks the heights. *)
#[global] Instance staking_relation_record `{Hex} : StateRecord StakingDelegationRelationCurrentRecordV1 StakingRelationWire := {
  to_wire r := mkStakingRelationWire STAKING_RELATION_SCHEMA (to_api_string (sr_account_id r)) (sr_validator r)
                 (sr_first_event_id r) (sr_last_event_id r) (sr_first_block_height r) (sr_last_block_height r);
  from_wire w :=
    if negb (bool_decide (srw_schema w = STAKING_RELATION_SCHEMA)) || bool_decide (srw_validator w = EmptyString)
    then Err InvalidRecord else
    account ← field (parse_api (srw_account_id w));
    first ← field (string_id_new (srw_first_event_id w));
    last ← field (string_id_new (srw_last_event_id w));
    if srw_last_block_height w <? srw_first_block_height w then Err InvalidRecord else
    Ok (mkStakingRelation account (srw_validator w) first last (srw_first_block_height w) (srw_last_block_height w));
  rec_validate _ := true;
  rec_key r := staking_relation_key (sr_account_id r) (sr_validator r);
}.

(** ** The reducers *)

Class VaultJson := {
  json_vault_fact :: Json VaultFactWire;
  json_vault :: Json VaultCurrentWire;
  json_staking_relation :: Json StakingRelationWire;
}.

Definition vault_supports (e : Envelope) : bool :=
  bool_decide (schema_version e = "1.0.0"%string) && match event_kind e with VaultCreated | VaultDistribution => true | _ => false end.

(** [optional_single_account] *)
Definition optional_single_account (e : Envelope) : result ReducerError (option Address) :=
  match account_ids e with
  | [] => Ok None
  | [account] => Ok (Some account)
  | _ => Err (mkReducerError "vault_state.ambiguous_accounts"
                "vault event with a lumped amount cannot split across multiple accounts")
  end.

Section vaults.
Context `{Hex} `{AccountJson} `{VaultJson} `{PayloadWire}.

Definition vault_fact_put (e : Envelope) (vault : VaultId) (fact_key : StateKey) : result ReducerError StateMutation :=
  let r := mkVaultFact (event_id e) (event_kind e) (Some vault) (account_ids e) (ev_block_height e) (payload_hash e) in
  _ ← map_err vault_codec_error (check (vault_fact_valid r));
  l ← map_err vault_codec_error (vault_fact_encode r);
  Ok (Put fact_key l).

(** The flow of the account behind the event, if there is one. *)
Definition account_principal (st : StateView) (e : Envelope) (account : option Address) (vault : VaultId)
    (amount : result ReducerError QuoteAmount) (side : FlowSide) : result ReducerError (list StateMutation) :=
  match account with
  | Some account =>
      amount ← amount;
      m ← quote_flow_mutation st (event_id e) (ev_block_height e) account (VaultPrincipal vault) amount side;
      Ok [m]
  | None => Ok []
  end.

Definition reduce_created (st : StateView) (e : Envelope) (vault : VaultId) (amount fee : QuoteAmount)
    (fact_key : StateKey) : result ReducerError (list StateMutation) :=
  account ← optional_single_account e;
  key ← map_err vault_codec_error (vault_key vault);
  if bt_contains key st then Err (mkReducerError "vault_state.vault_id_collision" "vault identity is already present") else
  fact ← vault_fact_put e vault fact_key;
  l ← map_err vault_codec_error
        (record_encode (mkVault vault (event_id e) (event_id e) (ev_block_height e) (ev_block_height e) amount fee));
  principal ← vault_principal_mutation st (event_id e) (ev_block_height e) vault amount Credit;
  own ← account_principal st e account vault
          (map_err (fun _ => mkReducerError "vault_state.flow_arithmetic" "vault amount plus fee could not be added exactly")
             (Decimal.checked_add amount fee)) Debit;
  Ok ([fact; Put key l; principal] ++ own).

Definition load_current (st : StateView) (key : StateKey) : result ReducerError VaultCurrentRecordV1 :=
  l ← bt_get key st ?? mkReducerError "vault_state.missing_vault" "vault must exist before distribution";
  map_err vault_codec_error (record_decode_at key l).

Definition reduce_distribution (st : StateView) (e : Envelope) (vault : VaultId) (amount : QuoteAmount)
    (fact_key : StateKey) : result ReducerError (list StateMutation) :=
  account ← optional_single_account e;
  key ← map_err vault_codec_error (vault_key vault);
  current ← load_current st key;
  fact ← vault_fact_put e vault fact_key;
  l ← map_err vault_codec_error
        (record_encode (mkVault (va_vault_id current) (va_created_event_id current) (event_id e)
           (va_first_block_height current) (ev_block_height e) (va_creation_amount current) (va_creation_fee current)));
  principal ← vault_principal_mutation st (event_id e) (ev_block_height e) vault amount Debit;
  own ← account_principal st e account vault (Ok amount) Credit;
  Ok ([fact; Put key l; principal] ++ own).

Definition vault_reduce (st : StateView) (e : Envelope) : result ReducerError (list StateMutation) :=
  if negb (vault_supports e) then Err vault_unsupported else
  fact_key ← map_err vault_codec_error (vault_fact_key (event_id e));
  if bt_contains fact_key st
  then Err (mkReducerError "vault_state.event_identity_collision" "vault event identity is already present") else
  match payload e with
  | Payload.VaultCreated encoded =>
      '(vault, amount, fee) ← decode_vault_create encoded;
      reduce_created st e vault amount fee fact_key
  | Payload.VaultDistribution encoded =>
      '(vault, amount) ← decode_vault_dist encoded;
      reduce_distribution st e vault amount fact_key
  | _ => Err vault_unsupported
  end.

(** ** Relationships *)

Definition relation_supports (e : Envelope) : bool :=
  bool_decide (schema_version e = "1.0.0"%string) &&
  match event_kind e with VaultCreated | VaultDistribution | StakingDelegated | StakingUndelegated => true | _ => false end.

Definition vault_relation (st : StateView) (e : Envelope) (vault : VaultId) : result ReducerError (list StateMutation) :=
  match account_ids e with
  | [account] => m ← vault_relation_mutation st (event_id e) (ev_block_height e) account vault; Ok [m]
  | _ => Ok []
  end.

Definition staking_relation (st : StateView) (e : Envelope) (account : Address) (validator : string)
    (require_existing : bool) : result ReducerError (list StateMutation) :=
  if negb (bool_decide (account_ids e = [account]))
  then Err (mkReducerError "relationship_state.identity_mismatch" "staking relation account must match the payload user") else
  key ← map_err relation_codec_error (staking_relation_key account validator);
  r ← match bt_get key st with
    | Some l =>
        current ← map_err relation_codec_error (strict_decode_at (R := StakingDelegationRelationCurrentRecordV1) key l);
        Ok (mkStakingRelation account (sr_validator current) (sr_first_event_id current) (event_id e)
              (sr_first_block_height current) (ev_block_height e))
    | None =>
        if require_existing
        then Err (mkReducerError "relationship_state.missing_delegation" "undelegate requires an existing staking relation")
        else Ok (mkStakingRelation account validator (event_id e) (event_id e) (ev_block_height e) (ev_block_height e))
    end;
  l ← map_err relation_codec_error (record_encode r);
  Ok [Put key l].

Definition relation_reduce (st : StateView) (e : Envelope) : result ReducerError (list StateMutation) :=
  if negb (relation_supports e) then Err relation_unsupported else
  match payload e with
  | Payload.VaultCreated encoded => '(vault, _, _) ← decode_vault_create encoded; vault_relation st e vault
  | Payload.VaultDistribution encoded => '(vault, _) ← decode_vault_dist encoded; vault_relation st e vault
  | Payload.StakingDelegated encoded =>
      '(account, validator, _) ← decode_staking_delegate encoded; staking_relation st e account validator false
  | Payload.StakingUndelegated encoded =>
      '(account, validator, _) ← decode_staking_undelegate encoded; staking_relation st e account validator true
  | _ => Err relation_unsupported
  end.
End vaults.

Inductive CanonicalVaultReducerV1 := VaultReducer.
#[global] Instance vault_reducer `{Hex} `{AccountJson} `{VaultJson} `{PayloadWire}
  : EventReducer Payload.t CanonicalVaultReducerV1 := {
  reducer_version _ := VAULT_VERSION;
  supports _ := vault_supports;
  reduce _ st e _ := vault_reduce st e;
  validate_block_delta _ := default_validate_block_delta default_validate_block;
}.
Inductive CanonicalRelationshipReducerV1 := RelationshipReducer.
#[global] Instance relationship_reducer `{Hex} `{AccountJson} `{VaultJson} `{PayloadWire}
  : EventReducer Payload.t CanonicalRelationshipReducerV1 := {
  reducer_version _ := RELATION_VERSION;
  supports _ := relation_supports;
  reduce _ st e _ := relation_reduce st e;
  validate_block_delta _ := default_validate_block_delta default_validate_block;
}.

(** ** Borrowing and lending: no kind of event is supported yet *)

Inductive CanonicalBorrowLendReducerV1 := BorrowLendReducer.
#[global] Instance borrow_lend_reducer {P} : EventReducer P CanonicalBorrowLendReducerV1 := {
  reducer_version _ := "hyperliquid-alpha-desk-canonical-borrow-lend@1.0.0";
  supports _ _ := false;
  reduce _ _ _ _ := Err (mkReducerError "borrow_lend_state.unsupported_event"
                           "borrow/lend kinds were not shipped in catalog 1.1.0");
  validate_block_delta _ := default_validate_block_delta default_validate_block;
}.
