(* ===== verification/Flows.v ===== *)
(** * Books and postings

    An event that moves money or stake is understood by its postings: amounts
    on the credit or debit side of books, where a book is a flow of an account
    in a scope, a total of a vault, a staking balance or the rewards of a
    validator. The records of the account, vault, staking and validator
    reducers are read as books, and each mutation they emit is shown to move
    the books by the postings it stands for and to leave a record that reads
    back. *)

From Stdlib Require Import Strings.Byte Strings.String.
From stdpp Require Import sorting sets.
From S2P Require Import Prelude Ordering BTreeMap Bytes FixedPoint Ids Store StateImage Blocks Ledger Payloads Records Opaque Markets Accounts Staking Vaults.

Class AccountJsonLaws `{AccountJson} : Prop := {
  json_fact_laws :: JsonLaws FactWire;
  json_quantity_flow_laws :: JsonLaws QuantityFlowWire;
  json_quote_flow_laws :: JsonLaws QuoteFlowWire;
  json_vault_principal_laws :: JsonLaws VaultPrincipalWire;
  json_vault_share_laws :: JsonLaws VaultShareWire;
  json_subaccount_laws :: JsonLaws SubaccountWire;
  json_vault_relation_laws :: JsonLaws AccountVaultWire;
  json_account_mode_laws :: JsonLaws AccountModeWire;
  json_mode_laws :: JsonLaws ModeWire;
}.
(** The JSON of all records of money and stake. *)
Class FlowJson := {
  fj_account :: AccountJson;
  fj_staking :: StakingJson;
  fj_validator :: ValidatorJson;
  fj_vault :: VaultJson;
}.
Class FlowJsonLaws `{FlowJson} : Prop := {
  fj_account_laws :: AccountJsonLaws;
  json_balance_laws :: JsonLaws BalanceWire;
  json_delegation_laws :: JsonLaws DelegationWire;
  json_validator_laws :: JsonLaws ValidatorCurrentWire;
  json_vault_laws :: JsonLaws VaultCurrentWire;
}.

(** ** Amounts as integers *)

(** A decimal in units of its smallest possible place. *)
Definition atoms (d : Decimal.t) : Z := Decimal.raw d * 10 ^ (MAX_DECIMAL_SCALE - Decimal.scale d).

Lemma rescale_atoms d s r : Decimal.wf d -> Decimal.scale d <= s <= MAX_DECIMAL_SCALE ->
  Decimal.rescale d s TowardZero = Ok r -> Decimal.wf r /\ Decimal.scale r = s /\ atoms r = atoms d.
Proof.
  intros W L E. destruct (W) as [_ Sd]. rewrite rescale_up in E by (done || lia). cbv zeta in E.
  destruct (in_ity I128 _) eqn:I; [|done]. injection E as <-. apply in_ity_true in I.
  split; [split; cbn; [done|lia]|]. split; [done|]. unfold atoms. cbn. rewrite <- Z.mul_assoc, <- Z.pow_add_r by lia.
  do 2 f_equal. lia.
Qed.

Lemma add_atoms a b r : Decimal.wf a -> Decimal.wf b -> Decimal.checked_add a b = Ok r ->
  Decimal.wf r /\ atoms r = atoms a + atoms b.
Proof.
  intros Wa Wb E. apply checked_add_Ok in E as (W & Sa & Sb & Er); [|done..]. split; [done|].
  unfold atoms. rewrite Sa, Sb, Er. lia.
Qed.

Lemma sub_self_atoms a r : Decimal.wf a -> Decimal.checked_sub a a = Ok r -> Decimal.wf r /\ atoms r = 0.
Proof.
  intros W E. apply checked_sub_Ok in E as (Wr & _ & _ & Er); [|done..]. split; [done|]. unfold atoms. rewrite Er. lia.
Qed.

Lemma no_atoms : atoms (Decimal.mk 0 0) = 0.
Proof. done. Qed.

(** What an amount on a side adds to the credits and to the debits. *)
Definition credit_part (side : FlowSide) (n : Z) : Z := match side with Credit => n | Debit => 0 end.
Definition debit_part (side : FlowSide) (n : Z) : Z := match side with Credit => 0 | Debit => n end.

Lemma normalize_atoms c d a side c' d' : Decimal.wf c -> Decimal.wf d -> Decimal.wf a -> normalize c d a side = Ok (c', d') ->
  Decimal.wf c' /\ Decimal.wf d' /\ atoms c' = atoms c + credit_part side (atoms a) /\
  atoms d' = atoms d + debit_part side (atoms a).
Proof.
  intros Wc Wd Wa E. unfold normalize in E. set (s := Z.max _ _) in E.
  assert (Decimal.scale c <= s <= MAX_DECIMAL_SCALE /\ Decimal.scale d <= s <= MAX_DECIMAL_SCALE /\
          Decimal.scale a <= s <= MAX_DECIMAL_SCALE) as (Lc & Ld & La)
    by (destruct Wc, Wd, Wa; lia).
  clearbody s. destruct (Decimal.rescale c s _) as [c1|] eqn:Ec; [|done]. destruct (Decimal.rescale d s _) as [d1|] eqn:Ed; [|done].
  destruct (Decimal.rescale a s _) as [a1|] eqn:Ea; [|done]. cbn in E.
  apply rescale_atoms in Ec as (Wc1 & _ & Ac), Ed as (Wd1 & _ & Ad), Ea as (Wa1 & _ & Aa); [|done..].
  destruct side; cbn in E |- *.
  - destruct (Decimal.checked_add c1 a1) as [r|] eqn:Er; [|done]. injection E as <- <-.
    apply add_atoms in Er as [Wr Ar]; [|done..]. split_and!; [done|done|lia|lia].
  - destruct (Decimal.checked_add d1 a1) as [r|] eqn:Er; [|done]. injection E as <- <-.
    apply add_atoms in Er as [Wr Ar]; [|done..]. split_and!; [done|done|lia|lia].
Qed.

(** Decimals compare as their atoms do. *)
Lemma cmp_atoms a b : Decimal.wf a -> Decimal.wf b -> Decimal.numeric_cmp a b = (atoms a ?= atoms b).
Proof.
  intros [_ Sa] [_ Sb]. unfold Decimal.numeric_cmp, atoms. rewrite !pow10_big_spec by lia.
  set (m := MAX_DECIMAL_SCALE) in *. assert (0 < 10 ^ (m - Decimal.scale a)) by (apply Z.pow_pos_nonneg; lia).
  assert (0 < 10 ^ (m - Decimal.scale b)) by (apply Z.pow_pos_nonneg; lia).
  assert (0 < 10 ^ Decimal.scale a) by (apply Z.pow_pos_nonneg; lia). assert (0 < 10 ^ Decimal.scale b) by (apply Z.pow_pos_nonneg; lia).
  assert (10 ^ (m - Decimal.scale a) * 10 ^ Decimal.scale a = 10 ^ (m - Decimal.scale b) * 10 ^ Decimal.scale b) as E
    by (rewrite <- !Z.pow_add_r by lia; f_equal; lia).
  rewrite (Zmult_compare_compat_l (Decimal.raw a * 10 ^ Decimal.scale b) _ (10 ^ (m - Decimal.scale b))) by lia.
  rewrite (Zmult_compare_compat_l (Decimal.raw a * 10 ^ (m - Decimal.scale a)) _ (10 ^ Decimal.scale a)) by lia. f_equal; [|ring].
  transitivity (Decimal.raw a * (10 ^ (m - Decimal.scale b) * 10 ^ Decimal.scale b)); [ring|rewrite <- E; ring].
Qed.

Lemma apply_flow_atoms f c d a side c' d' : Decimal.wf c -> Decimal.wf d -> Decimal.wf a -> apply_flow f c d a side = Ok (c', d') ->
  Decimal.wf c' /\ Decimal.wf d' /\ atoms c' = atoms c + credit_part side (atoms a) /\
  atoms d' = atoms d + debit_part side (atoms a) /\ atoms d' <= atoms c'.
Proof.
  intros Wc Wd Wa ([c1 d1] & F & E)%bind_Ok. cbv beta iota in E.
  match type of E with (if ?b then _ else _) = _ => destruct b eqn:L end; [done|]. injection E as -> ->.
  assert (Decimal.wf c' /\ Decimal.wf d' /\ atoms c' = atoms c + credit_part side (atoms a) /\
          atoms d' = atoms d + debit_part side (atoms a)) as (Wc' & Wd' & Ac & Ad).
  { destruct side; apply bind_Ok in F as (x & X & [= <- <-]).
    - destruct (Decimal.checked_add c a) eqn:A; [|done]. injection X as ->. apply add_atoms in A as [? ?]; [|done..]. cbn. split_and!; (done || lia).
    - destruct (Decimal.checked_add d a) eqn:A; [|done]. injection X as ->. apply add_atoms in A as [? ?]; [|done..]. cbn. split_and!; (done || lia). }
  split_and!; [done..|]. change (match Decimal.numeric_cmp c' d' with Lt => true | _ => false end = false) in L. rewrite cmp_atoms in L by done. destruct (Z.compare_spec (atoms c') (atoms d')); (done || lia).
Qed.

(** ** Books and postings *)

Inductive book :=
| QuantityBook (account : Address) (scope : AccountQuantityFlowScopeV1)
| QuoteBook (account : Address) (scope : AccountQuoteFlowScopeV1)
| PrincipalBook (vault : VaultId)
| SharesBook (vault : VaultId)
| LiquidBook (account : Address)
| PendingBook (account : Address)
| DelegationBook (account : Address) (validator : string)
| RewardBook (validator : string).
#[global] Instance book_eq_dec : EqDecision book.
Proof. solve_decision. Defined.

Record posting := mkPosting { po_book : book; po_side : FlowSide; po_amount : Decimal.t }.

Definition transfer (b_from b_to : book) (amount : Decimal.t) : list posting :=
  [mkPosting b_from Debit amount; mkPosting b_to Credit amount].

(** The postings of an event. *)
Definition postings `{Hex} `{PayloadWire} (e : Envelope) : list posting :=
  match payload e with
  | Payload.DepositCredited a asset amount _ => [mkPosting (QuantityBook a (ExternalAsset asset)) Credit amount]
  | Payload.WithdrawalDebited a asset amount _ => [mkPosting (QuantityBook a (ExternalAsset asset)) Debit amount]
  | Payload.SpotTransfer from to asset amount =>
      transfer (QuantityBook from (SpotTransferAsset asset)) (QuantityBook to (SpotTransferAsset asset)) amount
  | Payload.PerpTransfer from to amount => transfer (QuoteBook from DefaultPerpQuote) (QuoteBook to DefaultPerpQuote) amount
  | Payload.SubaccountTransfer _ from to asset amount =>
      transfer (QuantityBook from (SubaccountTransferAsset asset)) (QuantityBook to (SubaccountTransferAsset asset)) amount
  | Payload.VaultDeposit vault a amount issued =>
      [mkPosting (QuoteBook a (VaultPrincipal vault)) Debit amount; mkPosting (QuantityBook a (VaultShares vault)) Credit issued;
       mkPosting (PrincipalBook vault) Credit amount; mkPosting (SharesBook vault) Credit issued]
  | Payload.VaultWithdrawal vault a amount redeemed =>
      [mkPosting (QuoteBook a (VaultPrincipal vault)) Credit amount; mkPosting (QuantityBook a (VaultShares vault)) Debit redeemed;
       mkPosting (PrincipalBook vault) Debit amount; mkPosting (SharesBook vault) Debit redeemed]
  | Payload.FeeCharged a asset amount _ fee_type =>
      [mkPosting (QuantityBook a (FeeAsset asset)) (if bool_decide (fee_type = MakerRebate) then Credit else Debit) amount]
  | Payload.BuilderFeeCharged a builder asset amount =>
      transfer (QuantityBook a (BuilderFeeAsset asset)) (QuantityBook builder (BuilderFeeAsset asset)) amount
  | Payload.FundingPaid a market amount _ => [mkPosting (QuoteBook a (MarketFunding market)) Debit amount]
  | Payload.FundingReceived a market amount _ => [mkPosting (QuoteBook a (MarketFunding market)) Credit amount]
  | Payload.ReferralReward _ referrer asset amount => [mkPosting (QuantityBook referrer (ReferralRewardAsset asset)) Credit amount]
  | Payload.InternalTransfer encoded =>
      match decode_internal encoded with
      | Ok (from, to, amount, fee) =>
          match Decimal.checked_add amount fee with
          | Ok debit => [mkPosting (QuoteBook from DefaultPerpQuote) Debit debit; mkPosting (QuoteBook to DefaultPerpQuote) Credit amount]
          | Err _ => []
          end
      | Err _ => []
      end
  | Payload.AccountClassTransfer encoded =>
      match decode_class_transfer encoded with
      | Ok (a, amount, to_perp) => transfer (QuoteBook a (class_scopes to_perp).1) (QuoteBook a (class_scopes to_perp).2) amount
      | Err _ => []
      end
  | Payload.RewardClaimed encoded =>
      match decode_reward encoded with Ok (a, amount) => [mkPosting (QuoteBook a RewardClaimedQuote) Credit amount] | Err _ => [] end
  | Payload.SpotGenesisApplied encoded =>
      match decode_spot_genesis encoded, account_ids e with
      | Ok (token, amount), [a] => [mkPosting (QuantityBook a (SpotGenesisAsset token)) Credit amount]
      | _, _ => []
      end
  | Payload.VaultCreated encoded =>
      match decode_vault_create encoded with
      | Ok (vault, amount, fee) =>
          mkPosting (PrincipalBook vault) Credit amount ::
          match account_ids e, Decimal.checked_add amount fee with
          | [a], Ok debit => [mkPosting (QuoteBook a (VaultPrincipal vault)) Debit debit]
          | _, _ => []
          end
      | Err _ => []
      end
  | Payload.VaultDistribution encoded =>
      match decode_vault_dist encoded with
      | Ok (vault, amount) =>
          mkPosting (PrincipalBook vault) Debit amount ::
          match account_ids e with [a] => [mkPosting (QuoteBook a (VaultPrincipal vault)) Credit amount] | _ => [] end
      | Err _ => []
      end
  | Payload.StakingDeposit encoded =>
      match decode_staking_deposit_amount encoded with Ok (a, amount) => [mkPosting (LiquidBook a) Credit amount] | Err _ => [] end
  | Payload.StakingDelegated encoded =>
      match decode_staking_delegate encoded with
      | Ok (a, validator, amount) => transfer (LiquidBook a) (DelegationBook a validator) amount
      | Err _ => []
      end
  | Payload.StakingUndelegated encoded =>
      match decode_staking_undelegate encoded with
      | Ok (a, validator, amount) => [mkPosting (LiquidBook a) Credit amount; mkPosting (DelegationBook a validator) Debit amount]
      | Err _ => []
      end
  | Payload.StakingWithdrawalQueued encoded =>
      match decode_staking_withdraw_queued encoded with
      | Ok (a, amount) => transfer (LiquidBook a) (PendingBook a) amount
      | Err _ => []
      end
  | Payload.StakingWithdrawalCompleted encoded =>
      match decode_staking_withdraw_completed encoded with Ok (a, amount) => [mkPosting (PendingBook a) Debit amount] | Err _ => [] end
  | Payload.ValidatorRewardPaid encoded =>
      match decode_validator_reward encoded with Ok (validator, amount) => [mkPosting (RewardBook validator) Credit amount] | Err _ => [] end
  | _ => []
  end.

(** A weight says how much a unit of credit and a unit of debit of a book counts. *)
Definition weight := book -> Z * Z.
Definition posting_weight (w : weight) (p : posting) : Z :=
  (match po_side p with Credit => (w (po_book p)).1 | Debit => (w (po_book p)).2 end) * atoms (po_amount p).
Definition postings_weight (w : weight) (ps : list posting) : Z := foldr (fun p n => posting_weight w p + n) 0 ps.

(** ** Records that read back *)

Lemma field_address `{HexLaws} a : address_wf a -> field (parse_api (to_api_string a)) = Ok a.
Proof. intros W. by rewrite address_roundtrip. Qed.
Lemma field_id v : id_wf v -> field (string_id_new v) = Ok v.
Proof. intros W. by rewrite W. Qed.
Lemma field_decimal d : Decimal.wf d -> field (Decimal.from_str (Decimal.to_string d)) = Ok d.
Proof. intros W. by rewrite (decimal_text_spec d W). Qed.
Lemma field_account_mode m : field (parse_account_mode (account_mode_wire m)) = Ok m.
Proof. by rewrite account_mode_roundtrip. Qed.
Lemma field_margin_mode m : field (parse_margin_mode (margin_mode_wire m)) = Ok m.
Proof. by rewrite margin_mode_roundtrip. Qed.

(** Reads the fields of a wire form back one by one. *)
Ltac parse_back :=
  cbn -[parse_api to_api_string Decimal.from_str Decimal.to_string string_id_new parse_account_mode account_mode_wire
        parse_margin_mode margin_mode_wire parse_quantity_scope parse_quote_scope field];
  rewrite ?bool_decide_true by done; cbn [negb];
  repeat first
    [ rewrite field_address by done | rewrite field_id by done | rewrite field_decimal by done
    | rewrite field_account_mode | rewrite field_margin_mode | rewrite bind_of_Ok ];
  try done.

Definition quantity_scope_wf (s : AccountQuantityFlowScopeV1) : Prop :=
  match s with
  | ExternalAsset a | SpotTransferAsset a | SubaccountTransferAsset a | FeeAsset a | BuilderFeeAsset a
  | ReferralRewardAsset a | SpotGenesisAsset a => id_wf a
  | VaultShares v => id_wf v
  end.
Definition quote_scope_wf (s : AccountQuoteFlowScopeV1) : Prop :=
  match s with DefaultPerpQuote | SpotClassQuote | RewardClaimedQuote => True | MarketFunding m => id_wf m | VaultPrincipal v => id_wf v end.

Lemma quantity_scope_roundtrip s : quantity_scope_wf s ->
  parse_quantity_scope (quantity_scope_wire s) (quantity_scope_asset s) (quantity_scope_vault s) = Ok s.
Proof. destruct s; cbn -[string_id_new field]; intros W; by rewrite field_id. Qed.
Lemma quote_scope_roundtrip s : quote_scope_wf s ->
  parse_quote_scope (quote_scope_wire s) (quote_scope_market s) (quote_scope_vault s) = Ok s.
Proof. destruct s; cbn -[string_id_new field]; intros W; try done; by rewrite field_id. Qed.

Lemma quantity_scope_inj s s' : quantity_scope_wire s = quantity_scope_wire s' ->
  quantity_scope_identity s = quantity_scope_identity s' -> s = s'.
Proof. destruct s, s'; cbn; intros E I; try discriminate; f_equal; by apply as_bytes_inj. Qed.

Lemma quantity_flow_key_inj a s a' s' k : quantity_flow_key a s = Ok k -> quantity_flow_key a' s' = Ok k -> a = a' /\ s = s'.
Proof.
  intros K K'. destruct (framed_key_inj _ _ _ _ _ K K') as [_ [= -> Ew Ei]]. split; [done|].
  apply quantity_scope_inj; [by apply as_bytes_inj|done].
Qed.
Lemma quote_flow_key_framed a s :
  quote_flow_key a s = framed_key QUOTE_NAMESPACE (a :: as_bytes (quote_scope_wire s) :: option_list (quote_scope_identity s)).
Proof. by destruct s. Qed.
Lemma quote_flow_key_inj a s a' s' k : quote_flow_key a s = Ok k -> quote_flow_key a' s' = Ok k -> a = a' /\ s = s'.
Proof.
  rewrite !quote_flow_key_framed. intros K K'.
  destruct (framed_key_inj _ _ _ _ _ K K') as [_ E]. clear K K'. destruct s, s'; cbn in E; try discriminate E.
  all: injection E; intros; subst; split; try done; f_equal; by apply as_bytes_inj.
Qed.

Section roundtrips.
Context `{HexLaws}.

Lemma quantity_flow_back a s c d event height : address_wf a -> quantity_scope_wf s -> Decimal.wf c -> Decimal.wf d -> id_wf event ->
  let r := mkQuantityFlow a s c d event height in from_wire (to_wire r) = Ok r.
Proof using Type*. intros Wa Ws Wc Wd We r. unfold r. parse_back. by rewrite quantity_scope_roundtrip; parse_back. Qed.

Lemma quote_flow_back a s c d event height : address_wf a -> quote_scope_wf s -> Decimal.wf c -> Decimal.wf d -> id_wf event ->
  let r := mkQuoteFlow a s c d event height in from_wire (to_wire r) = Ok r.
Proof using Type*. intros Wa Ws Wc Wd We r. unfold r. parse_back. by rewrite quote_scope_roundtrip; parse_back. Qed.

Lemma vault_principal_back v c d event height : id_wf v -> Decimal.wf c -> Decimal.wf d -> id_wf event ->
  let r := mkVaultPrincipal v c d event height in from_wire (to_wire r) = Ok r.
Proof using Type*. intros Wv Wc Wd We r. unfold r. parse_back. Qed.

Lemma vault_share_back v c d event height : id_wf v -> Decimal.wf c -> Decimal.wf d -> id_wf event ->
  let r := mkVaultShare v c d event height in from_wire (to_wire r) = Ok r.
Proof using Type*. intros Wv Wc Wd We r. unfold r. parse_back. Qed.

Lemma liquid_back a c d event height : address_wf a -> Decimal.wf c -> Decimal.wf d -> id_wf event ->
  let r := mkLiquid a c d event height in from_wire (to_wire r) = Ok r.
Proof using Type*. intros Wa Wc Wd We r. unfold r. cbn [from_wire liquid_record]. unfold balance_fields. parse_back. Qed.

Lemma pending_back a c d event height : address_wf a -> Decimal.wf c -> Decimal.wf d -> id_wf event ->
  let r := mkPending a c d event height in from_wire (to_wire r) = Ok r.
Proof using Type*. intros Wa Wc Wd We r. unfold r. cbn [from_wire pending_record]. unfold balance_fields. parse_back. Qed.

Lemma delegation_back a v c d event height : address_wf a -> v <> EmptyString -> Decimal.wf c -> Decimal.wf d -> id_wf event ->
  let r := mkDelegation a v c d event height in from_wire (to_wire r) = Ok r.
Proof using Type*. intros Wa Nv Wc Wd We r. unfold r. parse_back. by rewrite bool_decide_eq_false_2. Qed.

Lemma validator_back v c event height : v <> EmptyString -> Decimal.wf c -> id_wf event ->
  let r := mkValidatorReward v c event height in from_wire (to_wire r) = Ok r.
Proof using Type. intros Nv Wc We r. unfold r. parse_back. rewrite (bool_decide_eq_false_2 (v = _)) by done. cbn [orb]. parse_back. Qed.
End roundtrips.

(** ** Flow records *)

(** What the records of credits and debits have in common. *)
Class FlowRecord (R W : Type) `{StateRecord R W} := {
  flow_book : R -> book;
  flow_totals : R -> Decimal.t * Decimal.t;
  flow_namespace : string;
  (** Whether the debits may not exceed the credits. *)
  flow_backed : bool;
}.
Class FlowLaws (R W : Type) `{FlowRecord R W} : Prop := {
  flow_key_namespace (r : R) k : rec_key r = Ok k -> namespace k = flow_namespace;
  flow_key_book (r r' : R) k : rec_key r = Ok k -> rec_key r' = Ok k -> flow_book r = flow_book r';
  flow_totals_wf (w : W) (r : R) : from_wire w = Ok r -> Decimal.wf (flow_totals r).1 /\ Decimal.wf (flow_totals r).2;
}.

#[global] Instance quantity_flow `{Hex} : FlowRecord AccountQuantityFlowCurrentRecordV1 QuantityFlowWire := {
  flow_book r := QuantityBook (qf_account_id r) (qf_scope r);
  flow_totals r := (qf_credits r, qf_debits r);
  flow_namespace := QUANTITY_NAMESPACE;
  flow_backed := false;
}.
#[global] Instance quote_flow `{Hex} : FlowRecord AccountQuoteFlowCurrentRecordV1 QuoteFlowWire := {
  flow_book r := QuoteBook (cf_account_id r) (cf_scope r);
  flow_totals r := (cf_credits r, cf_debits r);
  flow_namespace := QUOTE_NAMESPACE;
  flow_backed := false;
}.
#[global] Instance principal_flow : FlowRecord VaultPrincipalFlowCurrentRecordV1 VaultPrincipalWire := {
  flow_book r := PrincipalBook (vp_vault_id r);
  flow_totals r := (vp_deposits r, vp_withdrawals r);
  flow_namespace := VAULT_PRINCIPAL_NAMESPACE;
  flow_backed := false;
}.
#[global] Instance share_flow : FlowRecord VaultShareFlowCurrentRecordV1 VaultShareWire := {
  flow_book r := SharesBook (vs_vault_id r);
  flow_totals r := (vs_shares_issued r, vs_shares_redeemed r);
  flow_namespace := VAULT_SHARE_NAMESPACE;
  flow_backed := false;
}.
#[global] Instance liquid_flow `{Hex} : FlowRecord StakingLiquidCurrentRecordV1 BalanceWire := {
  flow_book r := LiquidBook (sl_account_id r);
  flow_totals r := (sl_credits r, sl_debits r);
  flow_namespace := LIQUID_NAMESPACE;
  flow_backed := true;
}.
#[global] Instance pending_flow `{Hex} : FlowRecord StakingPendingCurrentRecordV1 BalanceWire := {
  flow_book r := PendingBook (sp_account_id r);
  flow_totals r := (sp_credits r, sp_debits r);
  flow_namespace := PENDING_NAMESPACE;
  flow_backed := true;
}.
#[global] Instance delegation_flow `{Hex} : FlowRecord StakingDelegationCurrentRecordV1 DelegationWire := {
  flow_book r := DelegationBook (sd_account_id r) (sd_validator r);
  flow_totals r := (sd_credits r, sd_debits r);
  flow_namespace := DELEGATION_NAMESPACE;
  flow_backed := true;
}.
(** Rewards have no debits. *)
#[global] Instance reward_flow : FlowRecord ValidatorRewardCurrentRecordV1 ValidatorCurrentWire := {
  flow_book r := RewardBook (vc_validator r);
  flow_totals r := (vc_credits r, Decimal.mk 0 0);
  flow_namespace := VALIDATOR_NAMESPACE;
  flow_backed := false;
}.

Lemma field_wf v d : field (Decimal.from_str v) = Ok d -> Decimal.wf d.
Proof. unfold field. destruct (Decimal.from_str v) eqn:E; [|done]. intros [= <-]. by eapply from_str_wf. Qed.
Lemma field_id_wf v i : field (string_id_new v) = Ok i -> id_wf i.
Proof. unfold field. destruct (string_id_new v) eqn:E; [|done]. intros [= <-]. by eapply string_id_new_inv. Qed.

(** Opens a successful [from_wire]. *)
Ltac open_wire :=
  lazymatch goal with |- from_wire _ = Ok _ -> _ => idtac end;
  cbn -[field parse_api Decimal.from_str string_id_new parse_account_mode parse_margin_mode parse_quantity_scope parse_quote_scope];
  unfold balance_fields; intros E;
  repeat first
    [ match type of E with (if ?b then Err _ else _) = Ok _ => destruct b; [done|] end
    | let v := fresh "v" in let F := fresh "F" in apply bind_Ok in E as (v & F & E);
      first [apply field_wf in F | apply field_id_wf in F | idtac] ];
  injection E as <-; cbn.

#[global] Instance quantity_flow_laws `{Hex} : FlowLaws AccountQuantityFlowCurrentRecordV1 QuantityFlowWire.
Proof.
  split.
  - intros r k K. by apply framed_key_Ok in K as (_ & -> & _).
  - intros r r' k K K'. destruct (quantity_flow_key_inj _ _ _ _ _ K K') as [E1 E2]. cbn. congruence.
  - intros w r. open_wire. done.
Qed.
#[global] Instance quote_flow_laws `{Hex} : FlowLaws AccountQuoteFlowCurrentRecordV1 QuoteFlowWire.
Proof.
  split.
  - intros r k K. cbn [rec_key quote_flow_record] in K. rewrite quote_flow_key_framed in K. by apply framed_key_Ok in K as (_ & -> & _).
  - intros r r' k K K'. destruct (quote_flow_key_inj _ _ _ _ _ K K') as [E1 E2]. cbn. congruence.
  - intros w r. open_wire. done.
Qed.
#[global] Instance principal_flow_laws : FlowLaws VaultPrincipalFlowCurrentRecordV1 VaultPrincipalWire.
Proof.
  split.
  - intros r k K. by apply framed_key_Ok in K as (_ & -> & _).
  - intros r r' k K K'. destruct (framed_key_inj _ _ _ _ _ K K') as [_ [= E]]. cbn. f_equal. by apply as_bytes_inj.
  - intros w r. open_wire. done.
Qed.
#[global] Instance share_flow_laws : FlowLaws VaultShareFlowCurrentRecordV1 VaultShareWire.
Proof.
  split.
  - intros r k K. by apply framed_key_Ok in K as (_ & -> & _).
  - intros r r' k K K'. destruct (framed_key_inj _ _ _ _ _ K K') as [_ [= E]]. cbn. f_equal. by apply as_bytes_inj.
  - intros w r. open_wire. done.
Qed.

#[global] Instance liquid_flow_laws `{Hex} : FlowLaws StakingLiquidCurrentRecordV1 BalanceWire.
Proof.
  split.
  - intros r k K. by apply framed_key_Ok in K as (_ & -> & _).
  - intros r r' k K K'. destruct (framed_key_inj _ _ _ _ _ K K') as [_ [= E]]. cbn. by f_equal.
  - intros w r. open_wire. done.
Qed.
#[global] Instance pending_flow_laws `{Hex} : FlowLaws StakingPendingCurrentRecordV1 BalanceWire.
Proof.
  split.
  - intros r k K. by apply framed_key_Ok in K as (_ & -> & _).
  - intros r r' k K K'. destruct (framed_key_inj _ _ _ _ _ K K') as [_ [= E]]. cbn. by f_equal.
  - intros w r. open_wire. done.
Qed.
#[global] Instance delegation_flow_laws `{Hex} : FlowLaws StakingDelegationCurrentRecordV1 DelegationWire.
Proof.
  split.
  - intros r k K. by apply framed_key_Ok in K as (_ & -> & _).
  - intros r r' k K K'. destruct (framed_key_inj _ _ _ _ _ K K') as [_ [= E E']]. cbn. f_equal; [done|by apply as_bytes_inj].
  - intros w r. open_wire. done.
Qed.
#[global] Instance reward_flow_laws : FlowLaws ValidatorRewardCurrentRecordV1 ValidatorCurrentWire.
Proof.
  split.
  - intros r k K. by apply framed_key_Ok in K as (_ & -> & _).
  - intros r r' k K K'. destruct (framed_key_inj _ _ _ _ _ K K') as [_ [= E]]. cbn. f_equal. by apply as_bytes_inj.
  - intros w r. open_wire. split; [done|]. split; vm_compute; intuition discriminate.
Qed.

(** ** The books in the state *)

Section books.
Context `{Hex} `{FlowJson}.

(** The book a flow record at an entry is about, with its credits and debits. *)
Definition flow_entry (R : Type) {W} `{FlowRecord R W} `{Json W} (e : StateKey * bytes) : option (book * (Z * Z)) :=
  match record_decode_at (R := R) e.1 e.2 with
  | Ok r => Some (flow_book r, (atoms (flow_totals r).1, atoms (flow_totals r).2))
  | Err _ => None
  end.
Definition entry_totals (e : StateKey * bytes) : option (book * (Z * Z)) :=
  let ns := namespace e.1 in
  if bool_decide (ns = QUANTITY_NAMESPACE) then flow_entry AccountQuantityFlowCurrentRecordV1 e else
  if bool_decide (ns = QUOTE_NAMESPACE) then flow_entry AccountQuoteFlowCurrentRecordV1 e else
  if bool_decide (ns = VAULT_PRINCIPAL_NAMESPACE) then flow_entry VaultPrincipalFlowCurrentRecordV1 e else
  if bool_decide (ns = VAULT_SHARE_NAMESPACE) then flow_entry VaultShareFlowCurrentRecordV1 e else
  if bool_decide (ns = LIQUID_NAMESPACE) then flow_entry StakingLiquidCurrentRecordV1 e else
  if bool_decide (ns = PENDING_NAMESPACE) then flow_entry StakingPendingCurrentRecordV1 e else
  if bool_decide (ns = DELEGATION_NAMESPACE) then flow_entry StakingDelegationCurrentRecordV1 e else
  if bool_decide (ns = VALIDATOR_NAMESPACE) then flow_entry ValidatorRewardCurrentRecordV1 e else
  None.

Definition entry_weight (w : weight) (e : StateKey * bytes) : Z :=
  match entry_totals e with Some (b, (c, d)) => (w b).1 * c + (w b).2 * d | None => 0 end.
Definition total (w : weight) (st : Entries) : Z := bt_sum (entry_weight w) st.

(** What a mutation changes in the weighted total. *)
Definition old_weight (w : weight) (st : Entries) (k : StateKey) : Z :=
  match bt_get k st with Some l => entry_weight w (k, l) | None => 0 end.
Definition shift (w : weight) (st : Entries) (m : StateMutation) : Z :=
  match m with Put k l => entry_weight w (k, l) | Delete _ => 0 end - old_weight w st (mutation_key m).

Lemma total_put w st m : bt_sorted st -> total w (put_mutation st m) = total w st + shift w st m.
Proof using Type.
  intros S. unfold total, shift, old_weight. destruct m as [k l|k]; cbn [put_mutation mutation_key].
  - rewrite bt_sum_put by done. destruct (bt_get k st); cbn; lia.
  - rewrite bt_sum_remove by done. destruct (bt_get k st); cbn; lia.
Qed.

Lemma get_put_ne st m k : bt_sorted st -> mutation_key m <> k -> bt_get k (put_mutation st m) = bt_get k st.
Proof using Type.
  intros S N. assert (cmp k (mutation_key m) <> Eq) as C by (intros E; by apply cmp_eq_leibniz in E as ->).
  destruct m as [k1 l|k1]; cbn in *; [by apply bt_get_insert_ne|by apply bt_get_remove_ne].
Qed.

Lemma total_put_all w st ms : bt_sorted st -> NoDup (mutation_key <$> ms) ->
  total w (put_all st ms) = total w st + foldr (fun m n => shift w st m + n) 0 ms.
Proof using Type.
  revert st. induction ms as [|m ms IH]; intros st S N; [cbn [put_all fold_left foldr]; by rewrite Z.add_0_r|]. cbn [fmap list_fmap foldr] in *. apply NoDup_cons in N as [Nm N].
  change (put_all st (m :: ms)) with (put_all (put_mutation st m) ms).
  rewrite IH; [|by apply (put_all_sorted st [m])|done]. rewrite total_put by done.
  enough (foldr (fun m' n => shift w (put_mutation st m) m' + n) 0 ms = foldr (fun m' n => shift w st m' + n) 0 ms) by lia.
  clear IH N. induction ms as [|m' ms IH]; [done|]. cbn. rewrite IH by set_solver. f_equal.
  unfold shift, old_weight. rewrite get_put_ne; [done|done|set_solver].
Qed.
End books.


(** ** What a mutation posts *)

(** The reading of an entry by its namespace. *)
Ltac by_namespace N :=
  rewrite N;
  repeat match goal with
  | |- context [bool_decide (?a = ?b)] =>
      first [rewrite (bool_decide_eq_true_2 (a = b)) by reflexivity | rewrite (bool_decide_eq_false_2 (a = b)) by discriminate]
  end; reflexivity.

Section posting.
Context `{HexLaws} `{FJ : FlowJson} `{!FlowJsonLaws}.

Definition reads (R : Type) {W} `{StateRecord R W} `{Json W} (e : StateKey * bytes) : bool :=
  is_ok (record_decode_at (R := R) e.1 e.2).

(** A record of credits and debits that reads and is backed where it has to be. *)
Definition flow_sound (R : Type) {W} `{FlowRecord R W} `{Json W} (e : StateKey * bytes) : bool :=
  match record_decode_at (R := R) e.1 e.2 with
  | Ok r => negb flow_backed || (atoms (flow_totals r).2 <=? atoms (flow_totals r).1)
  | Err _ => false
  end.

(** What the entry at a key of these reducers has to be: a record that can be read, and for a balance of stake one that is not overdrawn. *)
Definition entry_sound (e : StateKey * bytes) : bool :=
  let ns := namespace e.1 in
  if bool_decide (ns = FACT_NAMESPACE) then reads AccountFactRecordV1 e else
  if bool_decide (ns = QUANTITY_NAMESPACE) then flow_sound AccountQuantityFlowCurrentRecordV1 e else
  if bool_decide (ns = QUOTE_NAMESPACE) then flow_sound AccountQuoteFlowCurrentRecordV1 e else
  if bool_decide (ns = VAULT_PRINCIPAL_NAMESPACE) then flow_sound VaultPrincipalFlowCurrentRecordV1 e else
  if bool_decide (ns = VAULT_SHARE_NAMESPACE) then flow_sound VaultShareFlowCurrentRecordV1 e else
  if bool_decide (ns = SUBACCOUNT_NAMESPACE) then reads SubaccountMasterCurrentRecordV1 e else
  if bool_decide (ns = VAULT_RELATION_NAMESPACE) then reads AccountVaultRelationCurrentRecordV1 e else
  if bool_decide (ns = ACCOUNT_MODE_NAMESPACE) then reads AccountModeCurrentRecordV1 e else
  if bool_decide (ns = MARGIN_MODE_NAMESPACE) then reads MarginModeCurrentRecordV1 e else
  if bool_decide (ns = LEVERAGE_NAMESPACE) then reads LeverageCurrentRecordV1 e else
  if bool_decide (ns = LIQUID_NAMESPACE) then flow_sound StakingLiquidCurrentRecordV1 e else
  if bool_decide (ns = PENDING_NAMESPACE) then flow_sound StakingPendingCurrentRecordV1 e else
  if bool_decide (ns = DELEGATION_NAMESPACE) then flow_sound StakingDelegationCurrentRecordV1 e else
  if bool_decide (ns = VALIDATOR_NAMESPACE) then flow_sound ValidatorRewardCurrentRecordV1 e else
  if bool_decide (ns = VAULT_NAMESPACE) then reads VaultCurrentRecordV1 e else
  true.

(** A mutation writes a sound record and moves the books by some postings. *)
Definition posted (st : Entries) (ps : list posting) (m : StateMutation) : Prop :=
  match m with Put k l => entry_sound (k, l) = true | Delete _ => False end /\
  forall w, shift w st m = postings_weight w ps.

(** A record written at its key. *)
Definition written {R W} `{StateRecord R W} `{Json W} (key : StateKey) (r : R) (m : StateMutation) : Prop :=
  exists l, m = Put key l /\ record_decode_at key l = Ok r.

Lemma encode_written {R W E} `{StateRecord R W} `{JsonLaws W} (f : RecordCodecError -> E) key (r : R) m :
  from_wire (to_wire r) = Ok r -> rec_key r = Ok key ->
  (l ← map_err f (record_encode r); Ok (Put key l)) = Ok m -> written key r m.
Proof using Type.
  intros B K (l & L & [= <-])%bind_Ok. destruct (record_encode r) as [l'|] eqn:Er; [|done]. injection L as ->.
  exists l. split; [done|]. by apply record_roundtrip_at.
Qed.

Lemma current_record_Ok {R W} `{StateRecord R W} `{Json W} st key (o : option R) :
  current_record st key = Ok o ->
  match o with
  | Some r => exists l w, bt_get key st = Some l /\ record_decode_at key l = Ok r /\ from_wire w = Ok r
  | None => bt_get key st = None
  end.
Proof using Type.
  unfold current_record. destruct (bt_get key st) as [l|]; [|by intros [= <-]].
  intros (r & D & [= <-])%bind_Ok. destruct (record_decode_at key l) as [r'|] eqn:Dr; [|done]. injection D as ->.
  pose proof Dr as (Dr' & _)%record_decode_at_inv. unfold record_decode in Dr'.
  apply bind_Ok in Dr' as (w & _ & (r1 & F & (u & _ & (again & _ & E)%bind_Ok)%bind_Ok)%bind_Ok).
  case_bool_decide; [|done]. injection E as ->. by exists l, w.
Qed.

Section flow.
Context {R W : Type} `{FL : FlowLaws R W} `{!Json W} `{!JsonLaws W}.
Hypothesis flow_totals_at : forall e, namespace e.1 = flow_namespace -> entry_totals e = flow_entry R e.
Hypothesis flow_sound_at : forall e, namespace e.1 = flow_namespace -> entry_sound e = flow_sound R e.

(** The totals at a key after an amount on a side. *)
Definition moved (st : Entries) (key : StateKey) (side : FlowSide) (amount : Decimal.t) (totals : Decimal.t * Decimal.t) : Prop :=
  match bt_get key st with
  | Some l => exists r : R, record_decode_at key l = Ok r /\
      atoms totals.1 = atoms (flow_totals r).1 + credit_part side (atoms amount) /\
      atoms totals.2 = atoms (flow_totals r).2 + debit_part side (atoms amount)
  | None => atoms totals.1 = credit_part side (atoms amount) /\ atoms totals.2 = debit_part side (atoms amount)
  end.

Lemma next_totals_moved st key amount side c d : Decimal.wf amount ->
  next_totals st (flow_totals (R := R)) key amount side = Ok (c, d) ->
  Decimal.wf c /\ Decimal.wf d /\ moved st key side amount (c, d).
Proof using Type*.
  unfold next_totals, moved. intros Wa (zero & Z & (o & C & E)%bind_Ok)%bind_Ok.
  destruct (Decimal.checked_sub amount amount) as [z|] eqn:Es; [|done]. injection Z as ->.
  apply sub_self_atoms in Es as [Wz Az]; [|done]. apply current_record_Ok in C. destruct o as [r|].
  - destruct C as (l & w & -> & D & F). destruct (flow_totals_wf _ _ F).
    apply normalize_atoms in E as (Wc & Wd & Ac & Ad); [|done..]. split_and!; [done..|]. by exists r.
  - rewrite C. destruct side; injection E as <- <-; cbn; split_and!; (done || lia).
Qed.

Lemma moved_posted st key amount side (r : R) m : rec_key r = Ok key -> moved st key side amount (flow_totals r) ->
  flow_backed = false \/ atoms (flow_totals r).2 <= atoms (flow_totals r).1 ->
  written key r m -> posted st [mkPosting (flow_book r) side amount] m.
Proof using Type*.
  intros K N Bk (l & -> & D). destruct (flow_totals r) as [c d] eqn:T. unfold moved in N. cbn [fst snd] in N.
  pose proof (flow_key_namespace _ _ K) as Kn. split.
  { rewrite flow_sound_at by done. unfold flow_sound. cbn [fst snd]. rewrite D, T. destruct Bk as [->|Bk]; [done|].
    apply orb_true_iff. right. by apply Z.leb_le. }
  intros w. unfold shift, old_weight, entry_weight. cbn [mutation_key]. rewrite flow_totals_at by done.
  unfold flow_entry at 1. cbn [fst snd]. rewrite D, T. unfold postings_weight, posting_weight. cbn [foldr po_side po_book po_amount fst snd].
  destruct (bt_get key st) as [l'|]; [|destruct N as [-> ->]; destruct side; cbn; lia].
  destruct N as (r' & D' & -> & ->). rewrite flow_totals_at by done. unfold flow_entry. cbn [fst snd]. rewrite D'.
  apply record_decode_at_inv in D' as [_ K']. rewrite (flow_key_book _ _ _ K' K). destruct side; cbn; lia.
Qed.

Lemma flow_posted st key amount side (r : R) m : flow_backed = false -> Decimal.wf amount -> rec_key r = Ok key ->
  next_totals st flow_totals key amount side = Ok (flow_totals r) ->
  (Decimal.wf (flow_totals r).1 -> Decimal.wf (flow_totals r).2 -> from_wire (to_wire r) = Ok r) ->
  put_record key r = Ok m -> posted st [mkPosting (flow_book r) side amount] m.
Proof using Type*.
  intros Nb Wa K N B P. destruct (flow_totals r) as [c d] eqn:T. apply next_totals_moved in N as (Wc & Wd & N); [|done].
  rewrite <- T in N. eapply moved_posted; [done..|by left|]. by apply (encode_written _ _ _ _ (B Wc Wd) K P).
Qed.

Lemma decoded_totals_wf key l (r : R) : record_decode_at key l = Ok r -> Decimal.wf (flow_totals r).1 /\ Decimal.wf (flow_totals r).2.
Proof using FL.
  intros [D _]%record_decode_at_inv. unfold record_decode in D.
  apply bind_Ok in D as (w & _ & (r1 & F & (u & _ & (again & _ & E)%bind_Ok)%bind_Ok)%bind_Ok).
  case_bool_decide; [|done]. injection E as ->. by eapply flow_totals_wf.
Qed.

(** The balance the staking reducer applies an amount to: the one at the key, or an empty one. *)
Definition balance_at (st : Entries) (key : StateKey) (amount : Decimal.t) (current : R) : Prop :=
  rec_key current = Ok key /\
  match bt_get key st with
  | Some l => record_decode_at key l = Ok current
  | None => exists zero, Decimal.checked_sub amount amount = Ok zero /\ flow_totals current = (zero, zero)
  end.

Lemma balance_at_Ok g st key amount (empty : Decimal.t -> R) current :
  (forall z, rec_key (empty z) = Ok key /\ flow_totals (empty z) = (z, z)) ->
  match bt_get key st with
  | Some l => map_err g (record_decode_at key l)
  | None => z ← zero_of amount; Ok (empty z)
  end = Ok current ->
  balance_at st key amount current.
Proof using Type.
  intros F C. unfold balance_at. destruct (bt_get key st) as [l|].
  - destruct (record_decode_at key l) as [r|] eqn:D; [|done]. injection C as ->. by apply record_decode_at_inv in D as [_ K].
  - apply bind_Ok in C as (z & Z & [= <-]). unfold zero_of in Z. destruct (Decimal.checked_sub _ _) as [z'|]; [|done].
    injection Z as ->. destruct (F z). split; [done|]. by exists z.
Qed.

Lemma balance_posted f (g : RecordCodecError -> ReducerError) st key amount side (current next : R) m : Decimal.wf amount -> balance_at st key amount current ->
  apply_flow f (flow_totals current).1 (flow_totals current).2 amount side = Ok (flow_totals next) ->
  rec_key next = Ok key ->
  (Decimal.wf (flow_totals next).1 -> Decimal.wf (flow_totals next).2 -> from_wire (to_wire next) = Ok next) ->
  (l ← map_err g (record_encode next); Ok (Put key l)) = Ok m ->
  posted st [mkPosting (flow_book next) side amount] m.
Proof using Type*.
  intros Wa [_ C] A K B P. destruct (flow_totals next) as [c d] eqn:T.
  assert (Decimal.wf c /\ Decimal.wf d /\ moved st key side amount (c, d) /\ atoms d <= atoms c) as (Wc & Wd & M & L).
  { unfold moved. destruct (bt_get key st) as [l|].
    - destruct (decoded_totals_wf _ _ _ C). apply apply_flow_atoms in A as (Wc & Wd & Ac & Ad & L); [|done..].
      split_and!; [done..| |done]. by exists current.
    - destruct C as (zero & [Wz Az]%sub_self_atoms & Tz); [|done]. rewrite Tz in A. cbn in A.
      apply apply_flow_atoms in A as (Wc & Wd & Ac & Ad & L); [|done..]. cbn. split_and!; (done || lia). }
  rewrite <- T in M. eapply moved_posted; [done..| |by apply (encode_written _ _ _ _ (B Wc Wd) K P)]. right. by rewrite T.
Qed.
End flow.

(** A record that is no flow moves no book. *)
Lemma encoded_posted {R W} `{StateRecord R W} `{JsonLaws W} ns st key (r : R) (f : RecordCodecError -> ReducerError) l :
  (forall e, namespace e.1 = ns -> entry_totals e = None) ->
  (forall e, namespace e.1 = ns -> entry_sound e = reads R e) ->
  rec_key r = Ok key -> namespace key = ns -> from_wire (to_wire r) = Ok r -> map_err f (record_encode r) = Ok l ->
  posted st [] (Put key l).
Proof using Type*.
  intros T Rd K N B P. destruct (encode_written f key r (Put key l) B K) as (l' & [= <-] & D); [by rewrite P|]. split.
  { rewrite Rd by done. unfold reads. cbn. by rewrite D. }
  intros w. unfold shift, old_weight, entry_weight. cbn [mutation_key]. rewrite T by done.
  destruct (bt_get key st); [by rewrite T|done].
Qed.
Lemma plain_posted {R W} `{StateRecord R W} `{JsonLaws W} ns st key (r : R) m :
  (forall e, namespace e.1 = ns -> entry_totals e = None) ->
  (forall e, namespace e.1 = ns -> entry_sound e = reads R e) ->
  rec_key r = Ok key -> namespace key = ns -> from_wire (to_wire r) = Ok r -> put_record key r = Ok m -> posted st [] m.
Proof using Type*. intros T Rd K N B (l & L & [= <-])%bind_Ok. by eapply encoded_posted. Qed.

(** The namespaces whose records are read as books or have to stay readable. *)
Definition record_namespaces : list string :=
  [FACT_NAMESPACE; QUANTITY_NAMESPACE; QUOTE_NAMESPACE; VAULT_PRINCIPAL_NAMESPACE; VAULT_SHARE_NAMESPACE; SUBACCOUNT_NAMESPACE;
   VAULT_RELATION_NAMESPACE; ACCOUNT_MODE_NAMESPACE; MARGIN_MODE_NAMESPACE; LEVERAGE_NAMESPACE; LIQUID_NAMESPACE;
   PENDING_NAMESPACE; DELEGATION_NAMESPACE; VALIDATOR_NAMESPACE; VAULT_NAMESPACE].
Lemma foreign_posted st k l : namespace k ∉ record_namespaces -> posted st [] (Put k l).
Proof using Type*.
  intros N.
  assert (forall v, entry_totals (k, v) = None /\ entry_sound (k, v) = true) as F.
  { intros v. unfold entry_totals, entry_sound. cbn [fst].
    repeat match goal with |- context [bool_decide ?P] => rewrite (bool_decide_eq_false_2 P) by (intros E; apply N; rewrite E; set_solver) end.
    done. }
  split; [apply F|]. intros w. unfold shift, old_weight, entry_weight. cbn [mutation_key]. rewrite (proj1 (F l)).
  destruct (bt_get k st) as [v|]; [by rewrite (proj1 (F v))|done].
Qed.

Section mutations_posted.
Context (st : Entries) (event : EventId) (height : BlockHeight).
Hypothesis event_wf : id_wf event.

Lemma quantity_flow_posted a s amount side m : address_wf a -> quantity_scope_wf s -> Decimal.wf amount ->
  quantity_flow_mutation st event height a s amount side = Ok m -> posted st [mkPosting (QuantityBook a s) side amount] m.
Proof using Type*.
  intros Wa Ws Wd (key & K & ([c d] & N & P)%bind_Ok)%bind_Ok. destruct (quantity_flow_key a s) as [k|] eqn:Ek; [|done].
  injection K as ->. refine (flow_posted _ _ st key amount side (mkQuantityFlow a s c d event height) m eq_refl Wd Ek N _ P).
  1,2: intros [k' l'] N'; cbn in N'; unfold entry_totals, entry_sound; cbn [fst]; by_namespace N'.
  intros Wc Wd'. by apply quantity_flow_back.
Qed.

Lemma quote_flow_posted a s amount side m : address_wf a -> quote_scope_wf s -> Decimal.wf amount ->
  quote_flow_mutation st event height a s amount side = Ok m -> posted st [mkPosting (QuoteBook a s) side amount] m.
Proof using Type*.
  intros Wa Ws Wd (key & K & ([c d] & N & P)%bind_Ok)%bind_Ok. destruct (quote_flow_key a s) as [k|] eqn:Ek; [|done].
  injection K as ->. refine (flow_posted _ _ st key amount side (mkQuoteFlow a s c d event height) m eq_refl Wd Ek N _ P).
  1,2: intros [k' l'] N'; cbn in N'; unfold entry_totals, entry_sound; cbn [fst]; by_namespace N'.
  intros Wc Wd'. by apply quote_flow_back.
Qed.

Lemma vault_principal_posted v amount side m : id_wf v -> Decimal.wf amount ->
  vault_principal_mutation st event height v amount side = Ok m -> posted st [mkPosting (PrincipalBook v) side amount] m.
Proof using Type*.
  intros Wv Wd (key & K & ([c d] & N & P)%bind_Ok)%bind_Ok. destruct (vault_principal_key v) as [k|] eqn:Ek; [|done].
  injection K as ->. refine (flow_posted _ _ st key amount side (mkVaultPrincipal v c d event height) m eq_refl Wd Ek N _ P).
  1,2: intros [k' l'] N'; cbn in N'; unfold entry_totals, entry_sound; cbn [fst]; by_namespace N'.
  intros Wc Wd'. by apply vault_principal_back.
Qed.

Lemma vault_share_posted v amount side m : id_wf v -> Decimal.wf amount ->
  vault_share_mutation st event height v amount side = Ok m -> posted st [mkPosting (SharesBook v) side amount] m.
Proof using Type*.
  intros Wv Wd (key & K & ([c d] & N & P)%bind_Ok)%bind_Ok. destruct (vault_share_key v) as [k|] eqn:Ek; [|done].
  injection K as ->. refine (flow_posted _ _ st key amount side (mkVaultShare v c d event height) m eq_refl Wd Ek N _ P).
  1,2: intros [k' l'] N'; cbn in N'; unfold entry_totals, entry_sound; cbn [fst]; by_namespace N'.
  intros Wc Wd'. by apply vault_share_back.
Qed.

(** A record put over the current one, or as the first at its key. *)
Ltac plain_put ns P :=
  refine (plain_posted ns st _ _ _ _ _ _ _ _ P);
  [ intros [k' l'] N'; cbn in N'; unfold entry_totals; cbn [fst]; by_namespace N'
  | intros [k' l'] N'; cbn in N'; unfold entry_sound; cbn [fst]; by_namespace N'
  | done | by eapply framed_key_Ok | parse_back ].

Lemma subaccount_relation_posted master from to m : address_wf master -> address_wf from -> address_wf to ->
  subaccount_relation_mutation st event height master from to = Ok m -> posted st [] m.
Proof using Type*.
  intros Wm Wf Wt (sub & S & (key & K & (o & C & P)%bind_Ok)%bind_Ok)%bind_Ok.
  assert (address_wf sub) as Wsub by (unfold subaccount_of in S; repeat case_bool_decide; by simplify_eq).
  destruct (subaccount_key sub) as [k|] eqn:Ek; [|done]. injection K as ->. apply current_record_Ok in C. destruct o as [r|].
  - destruct C as (l & w & _ & _ & F). revert F. open_wire. cbn in P. case_bool_decide; [|done]. cbn in P. plain_put SUBACCOUNT_NAMESPACE P.
  - plain_put SUBACCOUNT_NAMESPACE P.
Qed.

Lemma vault_relation_posted a v m : address_wf a -> id_wf v -> vault_relation_mutation st event height a v = Ok m -> posted st [] m.
Proof using Type*.
  intros Wa Wv (key & K & (o & C & P)%bind_Ok)%bind_Ok.
  destruct (vault_relation_key a v) as [k|] eqn:Ek; [|done]. injection K as ->. apply current_record_Ok in C. destruct o as [r|].
  - destruct C as (l & w & _ & _ & F). revert F. open_wire. plain_put VAULT_RELATION_NAMESPACE P.
  - plain_put VAULT_RELATION_NAMESPACE P.
Qed.

Lemma account_mode_posted a previous new m : address_wf a ->
  account_mode_mutation st event height a previous new = Ok m -> posted st [] m.
Proof using Type*.
  intros Wa (key & K & (o & C & P)%bind_Ok)%bind_Ok.
  destruct (account_mode_key a) as [k|] eqn:Ek; [|done]. injection K as ->. apply current_record_Ok in C. destruct o as [r|].
  - destruct C as (l & w & _ & _ & F). revert F. open_wire. case_bool_decide; [|done]. plain_put ACCOUNT_MODE_NAMESPACE P.
  - plain_put ACCOUNT_MODE_NAMESPACE P.
Qed.

Lemma margin_mode_posted a market previous new m : address_wf a -> id_wf market ->
  margin_mode_mutation st event height a market previous new = Ok m -> posted st [] m.
Proof using Type*.
  intros Wa Wm (key & K & (o & C & P)%bind_Ok)%bind_Ok.
  destruct (margin_mode_key a market) as [k|] eqn:Ek; [|done]. injection K as ->. apply current_record_Ok in C. destruct o as [r|].
  - destruct C as (l & w & _ & _ & F). revert F. open_wire. case_bool_decide; [|done]. plain_put MARGIN_MODE_NAMESPACE P.
  - plain_put MARGIN_MODE_NAMESPACE P.
Qed.

Lemma leverage_posted a market previous new m : address_wf a -> id_wf market -> Decimal.wf previous -> Decimal.wf new ->
  leverage_mutation st event height a market previous new = Ok m -> posted st [] m.
Proof using Type*.
  intros Wa Wm Wp Wn (key & K & (o & C & P)%bind_Ok)%bind_Ok.
  destruct (leverage_key a market) as [k|] eqn:Ek; [|done]. injection K as ->. apply current_record_Ok in C. destruct o as [r|].
  - destruct C as (l & w & _ & _ & F). revert F. open_wire. destruct (negb _); [done|]. plain_put LEVERAGE_NAMESPACE P.
  - plain_put LEVERAGE_NAMESPACE P.
Qed.
End mutations_posted.

Section stake_posted.
Context (st : Entries) (e : Envelope).
Hypothesis event_wf : id_wf (event_id e).

Lemma liquid_posted a amount side m : address_wf a -> Decimal.wf amount ->
  liquid_mutation st a amount side e = Ok m -> posted st [mkPosting (LiquidBook a) side amount] m.
Proof using Type*.
  intros Wa Wd (key & K & (current & C & (r & ([c d] & A & [= <-])%bind_Ok & P)%bind_Ok)%bind_Ok)%bind_Ok.
  destruct (liquid_key a) as [k|] eqn:Ek; [|done]. injection K as ->.
  apply balance_at_Ok in C; [|done]. destruct C as [Kc C].
  destruct (framed_key_inj _ _ _ _ _ Kc Ek) as [_ [= Ea]]. rewrite Ea in P.
  refine (balance_posted _ _ _ _ st key amount side current (mkLiquid a c d _ _) m Wd (conj Kc C) A Ek _ P).
  1,2: intros [k' l'] N'; cbn in N'; unfold entry_totals, entry_sound; cbn [fst]; by_namespace N'.
  intros Wc Wd'. by apply liquid_back.
Qed.

Lemma pending_posted a amount side m : address_wf a -> Decimal.wf amount ->
  pending_mutation st a amount side e = Ok m -> posted st [mkPosting (PendingBook a) side amount] m.
Proof using Type*.
  intros Wa Wd (key & K & (current & C & (r & ([c d] & A & [= <-])%bind_Ok & P)%bind_Ok)%bind_Ok)%bind_Ok.
  destruct (pending_key a) as [k|] eqn:Ek; [|done]. injection K as ->.
  apply balance_at_Ok in C; [|done]. destruct C as [Kc C].
  destruct (framed_key_inj _ _ _ _ _ Kc Ek) as [_ [= Ea]]. rewrite Ea in P.
  refine (balance_posted _ _ _ _ st key amount side current (mkPending a c d _ _) m Wd (conj Kc C) A Ek _ P).
  1,2: intros [k' l'] N'; cbn in N'; unfold entry_totals, entry_sound; cbn [fst]; by_namespace N'.
  intros Wc Wd'. by apply pending_back.
Qed.

Lemma delegation_posted a v amount side m : address_wf a -> v <> EmptyString -> Decimal.wf amount ->
  delegation_mutation st a v amount side e = Ok m -> posted st [mkPosting (DelegationBook a v) side amount] m.
Proof using Type*.
  intros Wa Nv Wd (key & K & (current & C & (r & ([c d] & A & [= <-])%bind_Ok & P)%bind_Ok)%bind_Ok)%bind_Ok.
  destruct (delegation_key a v) as [k|] eqn:Ek; [|done]. injection K as ->.
  assert (balance_at st key amount current) as [Kc C'].
  { apply (balance_at_Ok staking_codec_error st key amount (fun z => mkDelegation a v z z (event_id e) (ev_block_height e))); [done|].
    destruct (bt_get key st) as [l|]; [|by destruct side].
    destruct (strict_decode_at key l) as [r|] eqn:D; [|done]. apply strict_decode_at_Ok in D. by rewrite D. }
  destruct (framed_key_inj _ _ _ _ _ Kc Ek) as [_ [= Ea Ev%as_bytes_inj]]. rewrite Ea, Ev in P.
  refine (balance_posted _ _ _ _ st key amount side current (mkDelegation a v c d _ _) m Wd (conj Kc C') A Ek _ P).
  1,2: intros [k' l'] N'; cbn in N'; unfold entry_totals, entry_sound; cbn [fst]; by_namespace N'.
  intros Wc Wd'. by apply delegation_back.
Qed.

Lemma reward_posted key v amount r (f : RecordCodecError -> ReducerError) l : v <> EmptyString -> Decimal.wf amount ->
  validator_key v = Ok key -> next_reward st key v amount e = Ok r -> map_err f (record_encode r) = Ok l ->
  posted st [mkPosting (RewardBook v) Credit amount] (Put key l).
Proof using Type*.
  intros Nv Wa K N P.
  assert (exists credits, Decimal.wf credits /\ r = mkValidatorReward v credits (event_id e) (ev_block_height e) /\
    moved (R := ValidatorRewardCurrentRecordV1) st key Credit amount (credits, Decimal.mk 0 0)) as (credits & Wc & -> & M).
  { unfold next_reward in N. unfold moved. destruct (bt_get key st) as [l'|]; [|injection N as <-; exists amount; split_and!; [done..| |]; cbn -[atoms]; [done|exact no_atoms]].
    apply bind_Ok in N as (current & D & (c & A & [= <-])%bind_Ok). exists c.
    destruct (record_decode_at key l') as [current'|] eqn:D'; [|done]. injection D as ->.
    destruct (Decimal.checked_add _ _) eqn:A'; [|done]. injection A as ->.
    destruct (decoded_totals_wf _ _ _ D') as [Wc _]. apply add_atoms in A' as [? Ac]; [|done..].
    split_and!; [done..|]. exists current. cbn -[atoms]. split_and!; [done..|]. by rewrite no_atoms. }
  refine (moved_posted _ _ st key amount Credit (mkValidatorReward v credits (event_id e) (ev_block_height e)) _ K M (or_introl eq_refl) _).
  1,2: intros [k' l'] N'; cbn in N'; unfold entry_totals, entry_sound; cbn [fst]; by_namespace N'.
  apply (encode_written f); [by apply validator_back|exact K|by rewrite P].
Qed.
End stake_posted.

End posting.
