(* ===== verification/FlowEvents.v ===== *)
(** * What the events of money and stake post

    Each event the account, vault, staking, validator or relationship reducer
    reduces moves the books by the postings of the event and writes records
    that read back. *)

From Stdlib Require Import Strings.Byte Strings.String.
From stdpp Require Import sorting sets.
From S2P Require Import Prelude Ordering BTreeMap Bytes FixedPoint Ids Store StateImage Blocks Ledger Payloads Records Opaque Markets Accounts Staking Vaults Flows.

(** A namespace whose records are not read here. *)
Ltac foreign_namespace := refine (bool_decide_unpack _ _); vm_compute; exact I.

Section events.
Context `{HexLaws} `{FJ : FlowJson} `{!FlowJsonLaws} `{MJ : MarketJson} `{PW : PayloadWire}.

(** ** What an event posts *)

(** The types of the fields of a payload. *)
Definition payload_typed (p : Payload.t) : Prop :=
  match p with
  | Payload.DepositCredited _ asset amount _ | Payload.WithdrawalDebited _ asset amount _ | Payload.SpotTransfer _ _ asset amount
  | Payload.SubaccountTransfer _ _ _ asset amount | Payload.FeeCharged _ asset amount _ _
  | Payload.BuilderFeeCharged _ _ asset amount | Payload.ReferralReward _ _ asset amount => id_wf asset /\ Decimal.wf amount
  | Payload.PerpTransfer _ _ amount | Payload.FundingPaid _ _ amount _ | Payload.FundingReceived _ _ amount _ => Decimal.wf amount
  | Payload.VaultDeposit vault _ amount shares | Payload.VaultWithdrawal vault _ amount shares =>
      id_wf vault /\ Decimal.wf amount /\ Decimal.wf shares
  | Payload.LeverageChanged _ _ previous new => Decimal.wf previous /\ Decimal.wf new
  | Payload.TradeMatched _ _ _ _ price quantity _ (Some (buyer, seller)) =>
      Decimal.wf price /\ Decimal.wf quantity /\ Decimal.wf (tp_start_position buyer) /\ Decimal.wf (tp_start_position seller)
  | Payload.LiquidationFill _ _ _ price quantity | Payload.PositionSettled _ _ price quantity _ => Decimal.wf price /\ Decimal.wf quantity
  | Payload.BackstopLiquidation _ _ _ _ quantity => Decimal.wf quantity
  | Payload.OrderAccepted order _ _ _ price quantity => id_wf order /\ Decimal.wf price /\ Decimal.wf quantity
  | Payload.OrderModified _ _ price _ quantity => Decimal.wf price /\ Decimal.wf quantity
  | Payload.OrderPartiallyFilled _ _ price quantity _ | Payload.OrderFilled _ _ price quantity => Decimal.wf price /\ Decimal.wf quantity
  | Payload.TriggerOrderActivated order trigger oracle => id_wf order /\ Decimal.wf trigger /\ Decimal.wf oracle
  | _ => True
  end.
Record envelope_typed (e : Envelope) : Prop := {
  typed_event : id_wf (event_id e);
  typed_accounts : Forall address_wf (account_ids e);
  typed_markets : Forall id_wf (market_ids e);
  typed_hash : length (payload_hash e) = 32%nat;
  typed_payload : payload_typed (payload e);
}.

Lemma parse_all_back {A B} (parse : A -> result ValueError B) (print : B -> A) l :
  Forall (fun b => parse (print b) = Ok b) l -> parse_all parse (print <$> l) = Ok l.
Proof using Type. induction 1 as [|b l E _ IH]; [done|]. cbn. rewrite E. cbn. by rewrite IH. Qed.

Definition subject_wf (o : option string) : Prop := match o with Some v => id_wf v | None => True end.
Lemma parse_optional_back o : subject_wf o -> parse_optional string_id_new o = Ok o.
Proof using Type. destruct o as [v|]; [|done]. cbn. intros W. by rewrite W. Qed.

Lemma fact_subject_wf e asset vault : envelope_typed e -> fact_subject (payload e) = Ok (asset, vault) ->
  subject_wf asset /\ subject_wf vault.
Proof using Type.
  intros [_ _ _ _ T] E. destruct (payload e); cbn in E, T; try done.
  all: try (injection E as <- <-; cbn; tauto).
  apply bind_Ok in E as ([token amount] & D & [= <- <-]). split; [by apply decode_genesis_Ok in D as [? _]|done].
Qed.

Lemma fact_back e fact : envelope_typed e -> fact_from_event e = Ok fact ->
  from_wire (to_wire fact) = Ok fact /\ rec_key fact = account_fact_key (event_id e).
Proof using Type*.
  intros T F. unfold fact_from_event in F. apply bind_Ok in F as ([asset vault] & S & (u & C & [= <-])%bind_Ok).
  destruct (fact_subject_wf _ _ _ T S) as [Wa Wv]. destruct T as [Te Ta Tm Th _]. split; [|done].
  assert (account_fact_validate (mkFact (event_id e) (event_kind e) (account_ids e) (market_ids e) asset vault (ev_block_height e)
                  (payload_hash e) ACCOUNT_VERSION) = true) as V.
  { cbn [rec_validate account_fact_record] in C. unfold check in C. by destruct (account_fact_validate _). }
  unfold account_fact_validate in V. cbn in V. apply negb_true_iff in V.
  apply orb_false_iff in V as [[[V0 V1]%orb_false_iff V2]%orb_false_iff V3].
  cbn -[parse_api to_api_string string_id_new field parse_all kind_try_from as_wire_name parse_optional record_hash]. unfold zlen in *.
  rewrite length_fmap, V1, (V2 : (MAX_FACT_MARKETS <? Z.of_nat (@length string (market_ids e))) = false).
  cbn [negb orb]. rewrite !bool_decide_true by done. cbn [negb orb].
  rewrite field_id, bind_of_Ok, kind_roundtrip by done. cbn [ok_or]. rewrite bind_of_Ok.
  rewrite (parse_all_back parse_api to_api_string) by (eapply Forall_impl; [done|]; intros a Wad; by apply address_roundtrip).
  rewrite bind_of_Ok, <- (list_fmap_id (market_ids e)) at 1. rewrite (parse_all_back string_id_new id) by done.
  rewrite bind_of_Ok, !parse_optional_back by done. by rewrite record_hash_roundtrip.
Qed.

Lemma fact_posted st e key fact m : envelope_typed e -> account_fact_key (event_id e) = Ok key ->
  fact_from_event e = Ok fact -> put_record key fact = Ok m -> posted st [] m.
Proof using Type*.
  intros T K F P. destruct (fact_back _ _ T F) as [B Kf].
  refine (plain_posted FACT_NAMESPACE st _ _ _ _ _ _ _ B P); [..|by rewrite Kf|by eapply framed_key_Ok].
  1,2: intros [k' l'] N'; cbn in N'; unfold entry_totals, entry_sound; cbn [fst]; by_namespace N'.
Qed.

Lemma identities_wf (e : Envelope) accounts markets : envelope_typed e -> identity_matches e accounts markets = true ->
  Forall address_wf accounts /\ Forall id_wf markets.
Proof using Type. intros [_ Ta Tm _ _]. unfold identity_matches. intros [A M]%andb_true_iff. bool_to_prop. by subst. Qed.

(** The accounts and markets of a payload are those of its envelope. *)
Ltac open_identities T V :=
  apply bind_Ok in V as (?b & V & ?V'); destruct b; [|done];
  repeat (let D := fresh "D" in apply bind_Ok in V as ([[[? ?] ?] ?] & D & V) || apply bind_Ok in V as ([[? ?] ?] & D & V)
    || apply bind_Ok in V as ([? ?] & D & V));
  try (injection V as V; destruct (identities_wf _ _ _ T V)); rewrite ?Forall_cons in *; destruct_and?.

(** Splits a chain of successful binds. *)
Ltac open_binds M :=
  repeat lazymatch type of M with
  | (_ ≫= _) = Ok _ => let m := fresh "m" in let F := fresh "F" in apply bind_Ok in M as (m & F & M)
  end; injection M as <-.

Ltac one_posted :=
  match goal with F : ?call = Ok ?m |- posted _ _ ?m =>
    lazymatch call with
    | quantity_flow_mutation _ _ _ _ _ _ _ => eapply quantity_flow_posted
    | quote_flow_mutation _ _ _ _ _ _ _ => eapply quote_flow_posted
    | vault_principal_mutation _ _ _ _ _ _ => eapply vault_principal_posted
    | vault_share_mutation _ _ _ _ _ _ => eapply vault_share_posted
    | subaccount_relation_mutation _ _ _ _ _ _ => eapply subaccount_relation_posted
    | vault_relation_mutation _ _ _ _ _ => eapply vault_relation_posted
    | account_mode_mutation _ _ _ _ _ _ => eapply account_mode_posted
    | margin_mode_mutation _ _ _ _ _ _ _ => eapply margin_mode_posted
    | leverage_mutation _ _ _ _ _ _ _ => eapply leverage_posted
    end; [..|exact F]; done
  end.
Ltac all_posted := eexists; split; [repeat (constructor; [one_posted|]); constructor|reflexivity].

Lemma payload_posted st e ms : envelope_typed e -> validate_event_identities e = Ok tt -> payload_mutations st e = Ok ms ->
  exists pss, Forall2 (posted st) pss ms /\ concat pss = postings e.
Proof using Type*.
  intros T V M. pose proof (typed_event _ T) as We. pose proof (typed_payload _ T) as Tp. pose proof (typed_accounts _ T) as Ta.
  unfold validate_event_identities in V. unfold payload_mutations in M. unfold postings.
  destruct (payload e); try done; cbn in Tp; open_identities T V.
  5-19: open_binds M; all_posted.
  1-3: rewrite D in M; rewrite bind_of_Ok in M; rewrite D.
  - destruct (decode_internal_Ok _ _ _ _ _ D) as (W & _ & Wf & _).
    apply bind_Ok in M as (debit & F & M). destruct (Decimal.checked_add _ _) as [x|] eqn:A; [|done]. injection F as ->.
    destruct (add_atoms _ _ _ W Wf A). open_binds M. all_posted.
  - pose proof (decode_class_Ok _ _ _ _ D). match goal with b : bool |- _ => destruct b end; open_binds M; all_posted.
  - pose proof (decode_reward_Ok _ _ _ D). open_binds M. all_posted.
  - apply bind_Ok in M as ([token amount] & Dg & M). rewrite Dg. destruct (decode_genesis_Ok _ _ _ Dg).
    destruct (account_ids e) as [|a [|]]; open_binds M; rewrite ?Forall_cons in Ta; destruct_and?; all_posted.
Qed.

(** ** One event *)

Lemma unique_keys_NoDup seen ms : unique_keys seen ms = true ->
  NoDup (mutation_key <$> ms) /\ Forall (fun m => bt_get (mutation_key m) seen = None) ms.
Proof using Type.
  revert seen. induction ms as [|m ms IH]; intros seen; [by split; constructor|]. cbn [unique_keys fmap list_fmap].
  destruct (bt_contains (mutation_key m) seen) eqn:C; [done|]. intros [N F]%IH. apply bt_contains_false in C.
  rewrite Forall_forall in F. split.
  - apply NoDup_cons. split; [|done]. intros (m' & E & I)%list_elem_of_fmap. specialize (F _ I). rewrite <- E in F.
    by rewrite bt_get_insert_eq in F.
  - apply Forall_cons. split; [done|]. apply Forall_forall. intros m' I. specialize (F _ I). rewrite bt_get_insert in F.
    by destruct (eqb _ _).
Qed.

Lemma account_reduce_Ok st e ms : account_reduce st e = Ok ms -> exists key fact put ms',
  ms = put :: ms' /\ validate_event_identities e = Ok tt /\ account_fact_key (event_id e) = Ok key /\ bt_get key st = None /\
  fact_from_event e = Ok fact /\ put_record key fact = Ok put /\ payload_mutations st e = Ok ms' /\
  NoDup (mutation_key <$> ms).
Proof using Type.
  unfold account_reduce. destruct (negb _); [done|]. intros ([] & V & (u & _ & (key & K & E)%bind_Ok)%bind_Ok)%bind_Ok.
  destruct (bt_contains key st) eqn:C; [done|]. apply bt_contains_false in C.
  apply bind_Ok in E as (fact & F & (put & P & (ms' & M & (u' & U & [= <-])%bind_Ok)%bind_Ok)%bind_Ok).
  destruct (account_fact_key _) as [k|] eqn:Ek; [|done]. injection K as ->.
  unfold ensure_unique_mutation_keys in U. destruct (unique_keys [] _) eqn:N; [|done]. apply unique_keys_NoDup in N as [N _].
  by exists key, fact, put, ms'.
Qed.

Lemma postings_weight_app w ps qs : postings_weight w (ps ++ qs) = postings_weight w ps + postings_weight w qs.
Proof using Type. induction ps as [|p ps IH]; [done|]. cbn. fold (postings_weight w (ps ++ qs)). rewrite IH. unfold postings_weight. lia. Qed.

Lemma shifts_posted w st pss ms : Forall2 (posted st) pss ms ->
  foldr (fun m n => shift w st m + n) 0 ms = postings_weight w (concat pss).
Proof using Type.
  induction 1 as [|ps m pss ms [_ P] _ IH]; [done|]. cbn [foldr concat]. by rewrite postings_weight_app, P, IH.
Qed.

Lemma account_reduce_posted st e ms : envelope_typed e -> account_reduce st e = Ok ms ->
  exists pss, Forall2 (posted st) pss ms /\ concat pss = postings e.
Proof using Type*.
  intros T (key & fact & put & ms' & -> & V & K & _ & F & P & M & _)%account_reduce_Ok.
  destruct (payload_posted _ _ _ T V M) as (pss & Fp & E). exists ([] :: pss). split; [|done].
  constructor; [by eapply fact_posted|done].
Qed.

(** Every entry is sound. *)
Definition sound (st : Entries) : Prop := forall k l, bt_get k st = Some l -> entry_sound (k, l) = true.

Lemma posted_sound st pss ms st' : Forall2 (posted st) pss ms -> sound st' -> sound (put_all st' ms).
Proof using Type.
  intros F. revert st'. induction F as [|ps m pss ms [P _] _ IH]; intros st' R; [done|]. apply IH.
  destruct m as [k l|k]; [|done]. intros k' l'. cbn [put_mutation]. rewrite bt_get_insert. unfold eqb.
  destruct (cmp k' k) eqn:C; [apply cmp_eq_leibniz in C as ->|by apply R..]. by intros [= ->].
Qed.

Lemma put_all_get st ms k : bt_sorted st -> Forall (fun m => mutation_key m <> k) ms -> bt_get k (put_all st ms) = bt_get k st.
Proof using Type.
  intros S F. revert st S. induction F as [|m ms N _ IH]; intros st S; [done|].
  change (put_all st (m :: ms)) with (put_all (put_mutation st m) ms).
  rewrite IH by by apply (put_all_sorted st [m]). by rewrite get_put_ne.
Qed.

(** ** Vaults *)

Lemma framed_foreign ns ids key st l : framed_key ns ids = Ok key -> ns ∉ record_namespaces -> posted st [] (Put key l).
Proof using Type*. intros (_ & <- & _)%framed_key_Ok N. by apply foreign_posted. Qed.

Lemma vault_fact_posted st e vault key m : vault_fact_key (event_id e) = Ok key -> vault_fact_put e vault key = Ok m -> posted st [] m.
Proof using Type*.
  intros K (u & _ & (l & _ & [= <-])%bind_Ok)%bind_Ok. eapply framed_foreign; [exact K|]. foreign_namespace.
Qed.

Lemma vault_back vault created last first_height last_height amount fee : id_wf vault -> id_wf created -> id_wf last ->
  Decimal.wf amount -> Decimal.wf fee ->
  let r := mkVault vault created last first_height last_height amount fee in from_wire (to_wire r) = Ok r.
Proof using Type. intros Wv Wc Wl Wa Wf r. unfold r. parse_back. Qed.

Lemma vault_put_posted st key (r : VaultCurrentRecordV1) l : rec_key r = Ok key -> from_wire (to_wire r) = Ok r ->
  map_err vault_codec_error (record_encode r) = Ok l -> posted st [] (Put key l).
Proof using Type*.
  intros K B P. refine (encoded_posted VAULT_NAMESPACE st key r vault_codec_error l _ _ K _ B P);
    [..|by destruct (framed_key_Ok _ _ _ K) as (_ & ? & _)].
  1,2: intros [k' l'] N'; cbn in N'; unfold entry_totals, entry_sound; cbn [fst]; by_namespace N'.
Qed.

Definition own_postings (account : option Address) (vault : VaultId) (amount : result ReducerError QuoteAmount) (side : FlowSide)
  : list posting :=
  match account, amount with Some a, Ok amount => [mkPosting (QuoteBook a (VaultPrincipal vault)) side amount] | _, _ => [] end.

Lemma account_principal_posted st e account vault amount side ms : id_wf (event_id e) -> id_wf vault ->
  (forall a, account = Some a -> address_wf a) -> (forall d, amount = Ok d -> Decimal.wf d) ->
  account_principal st e account vault amount side = Ok ms ->
  exists pss, Forall2 (posted st) pss ms /\ concat pss = own_postings account vault amount side.
Proof using Type*.
  intros We Wv Wa Wd E. destruct account as [a|]; [|injection E as <-; by exists []; split; constructor].
  destruct amount as [d|]; [|done]. cbn in E. apply bind_Ok in E as (m & M & [= <-]).
  apply quote_flow_posted in M; [|done|by apply Wa|done|by apply Wd]. eexists [_]. split; [constructor; [exact M|constructor]|done].
Qed.

Lemma optional_account (e : Envelope) account : envelope_typed e -> optional_single_account e = Ok account ->
  (forall a, account = Some a -> address_wf a) /\ account_ids e = option_list account.
Proof using Type.
  intros [_ Ta _ _ _]. unfold optional_single_account. destruct (account_ids e) as [|a [|]]; try done; intros [= <-].
  - by split.
  - split; [|done]. intros a' [= <-]. by apply Forall_inv in Ta.
Qed.

Lemma created_posted st e vault amount fee key ms : envelope_typed e -> id_wf vault -> Decimal.wf amount -> Decimal.wf fee ->
  vault_fact_key (event_id e) = Ok key -> reduce_created st e vault amount fee key = Ok ms ->
  exists account, account_ids e = option_list account /\ exists pss, Forall2 (posted st) pss ms /\
  concat pss = mkPosting (PrincipalBook vault) Credit amount ::
    own_postings account vault (map_err (fun _ => mkReducerError "vault_state.flow_arithmetic" "vault amount plus fee could not be added exactly")
       (Decimal.checked_add amount fee)) Debit.
Proof using Type*.
  intros T Wv Wa Wf Kf (account & O & (vkey & K & E)%bind_Ok)%bind_Ok. destruct (bt_contains vkey st); [done|].
  destruct (vault_key vault) as [k|] eqn:Ek; [|done]. injection K as ->. pose proof (typed_event _ T) as We.
  apply bind_Ok in E as (fact & F & (l & L & (principal & P & (own & A & [= <-])%bind_Ok)%bind_Ok)%bind_Ok).
  destruct (optional_account _ _ T O) as [Wo Eo]. exists account. split; [done|].
  apply account_principal_posted in A as (pss & Fp & Ep); [|done..|].
  2:{ intros d D. destruct (Decimal.checked_add amount fee) eqn:Ad; [|done]. injection D as ->. by apply add_atoms in Ad as [? _]. }
  exists ([] :: [] :: [mkPosting (PrincipalBook vault) Credit amount] :: pss). split; [|cbn; by rewrite Ep].
  constructor; [by eapply vault_fact_posted|]. constructor; [|constructor; [by eapply vault_principal_posted|done]].
  eapply vault_put_posted; [| |exact L]; [done|]. by apply vault_back.
Qed.

Lemma distribution_posted st e vault amount key ms : envelope_typed e -> id_wf vault -> Decimal.wf amount ->
  vault_fact_key (event_id e) = Ok key -> reduce_distribution st e vault amount key = Ok ms ->
  exists account, account_ids e = option_list account /\ exists pss, Forall2 (posted st) pss ms /\
  concat pss = mkPosting (PrincipalBook vault) Debit amount :: own_postings account vault (Ok amount) Credit.
Proof using Type*.
  intros T Wv Wa Kf (account & O & (vkey & K & (current & C & E)%bind_Ok)%bind_Ok)%bind_Ok.
  destruct (vault_key vault) as [k|] eqn:Ek; [|done]. injection K as ->. pose proof (typed_event _ T) as We.
  apply bind_Ok in E as (fact & F & (l & L & (principal & P & (own & A & [= <-])%bind_Ok)%bind_Ok)%bind_Ok).
  destruct (optional_account _ _ T O) as [Wo Eo]. exists account. split; [done|].
  apply account_principal_posted in A as (pss & Fp & Ep); [|done..|by intros d [= <-]].
  exists ([] :: [] :: [mkPosting (PrincipalBook vault) Debit amount] :: pss). split; [|cbn; by rewrite Ep].
  constructor; [by eapply vault_fact_posted|]. constructor; [|constructor; [by eapply vault_principal_posted|done]].
  unfold load_current in C. apply bind_Ok in C as (l0 & _ & C). destruct (record_decode_at vkey l0) as [r|] eqn:D; [|done].
  injection C as ->. pose proof (proj2 (record_decode_at_inv _ _ _ D)) as Kc.
  eapply vault_put_posted; [| |exact L]; [exact Kc|].
  apply record_decode_at_inv in D as [D _]. unfold record_decode in D.
  apply bind_Ok in D as (w & _ & (r1 & Fw & (u & _ & (again & _ & Er)%bind_Ok)%bind_Ok)%bind_Ok).
  case_bool_decide; [|done]. injection Er as ->. revert Fw. open_wire. by apply vault_back.
Qed.

Lemma vault_reduce_posted st e ms : envelope_typed e -> vault_reduce st e = Ok ms ->
  exists pss, Forall2 (posted st) pss ms /\ concat pss = postings e.
Proof using Type*.
  intros T R. unfold vault_reduce in R. destruct (negb _); [done|]. apply bind_Ok in R as (key & K & R).
  destruct (vault_fact_key _) as [k|] eqn:Ek; [|done]. injection K as ->. destruct (bt_contains key st); [done|].
  unfold postings. destruct (payload e); try done.
  - apply bind_Ok in R as ([[vault amount] fee] & D & R). rewrite D.
    destruct (decode_vault_create_Ok _ _ _ _ D) as (Wv & Wa & _ & Wf & _).
    destruct (created_posted _ _ _ _ _ _ _ T Wv Wa Wf Ek R) as (account & -> & pss & F & E). exists pss. split; [done|].
    rewrite E. f_equal. destruct account; [|done]. cbn. by destruct (Decimal.checked_add amount fee).
  - apply bind_Ok in R as ([vault amount] & D & R). rewrite D. destruct (decode_vault_dist_Ok _ _ _ D) as [Wv Wa].
    destruct (distribution_posted _ _ _ _ _ _ T Wv Wa Ek R) as (account & -> & pss & F & E). exists pss. split; [done|].
    rewrite E. by destruct account.
Qed.

(** ** Stake *)

Lemma required_account e a : envelope_typed e -> require_account e a = Ok tt -> address_wf a.
Proof using Type.
  intros [_ Ta _ _ _]. unfold require_account. destruct (account_ids e) as [|o [|]]; try done. case_bool_decide; [|done].
  subst. intros _. by apply Forall_inv in Ta.
Qed.

Lemma staking_fact_posted st (e : Envelope) key fact m : staking_fact_key (event_id e) = Ok key -> staking_fact_put key fact = Ok m -> posted st [] m.
Proof using Type*. intros K (l & _ & [= <-])%bind_Ok. eapply framed_foreign; [exact K|]. foreign_namespace. Qed.

Lemma delegation_reduce_posted st e key a v amount delegating ms : envelope_typed e -> v <> EmptyString -> Decimal.wf amount ->
  staking_fact_key (event_id e) = Ok key -> reduce_delegation st e key a v amount delegating = Ok ms ->
  exists pss, Forall2 (posted st) pss ms /\
  concat pss = [mkPosting (LiquidBook a) (if delegating then Debit else Credit) amount;
                mkPosting (DelegationBook a v) (if delegating then Credit else Debit) amount].
Proof using Type*.
  intros T Nv Wa K ([] & Q & (fact & _ & (put & P & (m1 & M1 & (m2 & M2 & [= <-])%bind_Ok)%bind_Ok)%bind_Ok)%bind_Ok)%bind_Ok.
  pose proof (required_account _ _ T Q). pose proof (typed_event _ T).
  eexists [[]; [_]; [_]]. split; [|done]. constructor; [by eapply staking_fact_posted|].
  constructor; [by eapply liquid_posted|]. constructor; [by eapply delegation_posted|constructor].
Qed.

Lemma staking_reduce_posted st e ms : envelope_typed e -> staking_reduce st e = Ok ms ->
  exists pss, Forall2 (posted st) pss ms /\ concat pss = postings e.
Proof using Type*.
  intros T R. unfold staking_reduce in R. destruct (negb _); [done|]. apply bind_Ok in R as (key & K & R).
  destruct (staking_fact_key _) as [k|] eqn:Ek; [|done]. injection K as ->. destruct (bt_contains key st); [done|].
  pose proof (typed_event _ T). unfold postings. destruct (payload e); try done.
  - apply bind_Ok in R as ([a amount] & D & ([] & Q & (fact & _ & (put & P & (m & M & [= <-])%bind_Ok)%bind_Ok)%bind_Ok)%bind_Ok).
    rewrite D. destruct (staking_amount_Ok _ _ _ D). pose proof (required_account _ _ T Q).
    eexists [[]; [_]]. split; [|done]. constructor; [by eapply staking_fact_posted|]. constructor; [by eapply liquid_posted|constructor].
  - apply bind_Ok in R as ([[a v] amount] & D & R). rewrite D. destruct (staking_delegation_Ok _ _ _ _ D) as (Nv & Wa & _).
    exact (delegation_reduce_posted _ _ _ _ _ _ true _ T Nv Wa Ek R).
  - apply bind_Ok in R as ([[a v] amount] & D & R). rewrite D. destruct (staking_delegation_Ok _ _ _ _ D) as (Nv & Wa & _).
    exact (delegation_reduce_posted _ _ _ _ _ _ false _ T Nv Wa Ek R).
  - apply bind_Ok in R as ([a amount] & D & ([] & Q & (fact & _ & (put & P & (m1 & M1 & (m2 & M2 & [= <-])%bind_Ok)%bind_Ok)%bind_Ok)%bind_Ok)%bind_Ok).
    rewrite D. destruct (staking_amount_Ok _ _ _ D). pose proof (required_account _ _ T Q).
    eexists [[]; [_]; [_]]. split; [|done]. constructor; [by eapply staking_fact_posted|].
    constructor; [by eapply liquid_posted|]. constructor; [by eapply pending_posted|constructor].
  - apply bind_Ok in R as ([a amount] & D & ([] & Q & (fact & _ & (put & P & (m & M & [= <-])%bind_Ok)%bind_Ok)%bind_Ok)%bind_Ok).
    rewrite D. destruct (staking_amount_Ok _ _ _ D). pose proof (required_account _ _ T Q).
    eexists [[]; [_]]. split; [|done]. constructor; [by eapply staking_fact_posted|]. constructor; [by eapply pending_posted|constructor].
Qed.

Lemma validator_reduce_posted st e ms : envelope_typed e -> validator_reduce st e = Ok ms ->
  exists pss, Forall2 (posted st) pss ms /\ concat pss = postings e.
Proof using Type*.
  intros T R. unfold validator_reduce in R. destruct (negb (validator_supports e)); [done|].
  match type of R with (if ?b then _ else _) = _ => destruct b end; [done|].
  pose proof (typed_event _ T). unfold postings. destruct (payload e); try done.
  apply bind_Ok in R as ([v amount] & D & (key & K & R)%bind_Ok). rewrite D.
  destruct (validator_fact_key _) as [k|] eqn:Ek; [|done]. injection K as ->. destruct (bt_contains key st); [done|].
  apply bind_Ok in R as (vkey & Kv & (current & C & (fact & F & (l & L & [= <-])%bind_Ok)%bind_Ok)%bind_Ok).
  destruct (validator_key v) as [k|] eqn:Ev; [|done]. injection Kv as ->. destruct (decode_validator_reward_Ok _ _ _ D) as (Nv & Wa & _).
  eexists [[]; [_]]. split; [|done]. constructor; [|constructor; [by eapply reward_posted|constructor]].
  eapply framed_foreign; [exact Ek|]. foreign_namespace.
Qed.

(** ** Relations *)

Lemma relation_reduce_posted st e ms : envelope_typed e -> relation_reduce st e = Ok ms ->
  exists pss, Forall2 (posted st) pss ms /\ concat pss = [].
Proof using Type*.
  intros T R. pose proof (typed_event _ T). pose proof (typed_accounts _ T) as Ta.
  assert (forall v, id_wf v -> vault_relation st e v = Ok ms -> exists pss, Forall2 (posted st) pss ms /\ concat pss = []) as V.
  { intros v Wv. unfold vault_relation. destruct (account_ids e) as [|a [|]]; try (intros [= <-]; exists []; split; [constructor|done]).
    intros (m & M & [= <-])%bind_Ok. apply Forall_inv in Ta. exists [[]]. split; [|done].
    constructor; [eapply vault_relation_posted; [..|exact M]; done|constructor]. }
  assert (forall a v b, staking_relation st e a v b = Ok ms -> exists pss, Forall2 (posted st) pss ms /\ concat pss = []) as S.
  { intros a v b. unfold staking_relation. match goal with |- (if ?b then _ else _) = _ -> _ => destruct b end; [done|].
    intros (key & K & (r & _ & (l & _ & [= <-])%bind_Ok)%bind_Ok)%bind_Ok.
    destruct (staking_relation_key a v) as [k|] eqn:Ek; [|done]. injection K as ->. exists [[]]. split; [|done].
    constructor; [|constructor]. eapply framed_foreign; [exact Ek|]. foreign_namespace. }
  unfold relation_reduce in R. destruct (negb _); [done|]. destruct (payload e); try done.
  - apply bind_Ok in R as ([[v amount] fee] & D & R). destruct (decode_vault_create_Ok _ _ _ _ D). by apply (V v).
  - apply bind_Ok in R as ([v amount] & D & R). destruct (decode_vault_dist_Ok _ _ _ D). by apply (V v).
  - apply bind_Ok in R as ([[a v] amount] & D & R). by eapply S.
  - apply bind_Ok in R as ([[a v] amount] & D & R). by eapply S.
Qed.
End events.
