(* ===== verification/Composite.v ===== *)
(** * The production reducer: [composite.rs]

    Fourteen reducers behind one: each event has fixed owners, which all see
    the state before the event; their mutations are joined and may not write
    the same key twice. A block is accepted when every component accepts it.
    The L4 book of a market is projected from the orders and triggers of the
    state. *)

From Stdlib Require Import Strings.Byte Strings.String.
From stdpp Require Import sorting.
From S2P Require Import Prelude Ordering Sorting BTreeMap Bytes FixedPoint Ids OrderBook Store StateImage Blocks Ledger Payloads Records Opaque Markets MarketRegistry Accounts Orders Activations Trades Positions Episodes Liquidations Staking Vaults Flows.

Definition STATE_VERSION : string := "hyperliquid-alpha-desk-canonical-state@1.2.0".

Module Component.
Inductive t :=
| Market | Order | TradeV1 | TradeV2 | Account | PositionQuantity | PositionEpisode | PositionLiquidation
| Trigger | Twap | Vault | Staking | Validator | Relationships.
#[global] Instance t_eq_dec : EqDecision t.
Proof. solve_decision. Defined.
Definition all : list t :=
  [Market; Order; TradeV1; TradeV2; Account; PositionQuantity; PositionEpisode; PositionLiquidation;
   Trigger; Twap; Vault; Staking; Validator; Relationships].
End Component.

(** The JSON of every record in the state. *)
Class StateJson := {
  sj_market :: MarketJson;
  sj_order :: OrderJson;
  sj_trade :: TradeJson;
  sj_position :: PositionJson;
  sj_episode :: EpisodeJson;
  sj_liquidation :: LiquidationJson;
  sj_activity :: ActivityJson;
  sj_flow :: FlowJson;
}.

(** ** Owners *)

Definition owners (e : Envelope) : list Component.t :=
  if negb (bool_decide (schema_version e = "1.0.0"%string)) then [] else
  match event_kind e with
  | DexCreated | AssetContextUpdated | MarketCreated | MarketMetadataChanged | MarketHalted | MarketResumed
  | OpenInterestCapChanged | MarginTableChanged | OracleUpdated | FundingRateUpdated | OutcomeCreated | OutcomeResolved =>
      [Component.Market]
  | OrderAccepted | OrderRested | OrderModified | OrderPartiallyFilled | OrderFilled | OrderCancelled | OrderRejected
  | NonUserOrderCancelled => [Component.Order]
  | TradeMatched =>
      match payload e with
      | Payload.TradeMatched _ _ _ _ _ _ _ (Some _) =>
          [Component.TradeV1; Component.TradeV2; Component.PositionQuantity; Component.PositionEpisode]
      | Payload.TradeMatched _ _ _ _ _ _ _ None => [Component.TradeV1]
      | _ => []
      end
  | FundingPaid | FundingReceived => [Component.Account; Component.PositionEpisode]
  | DepositCredited | WithdrawalDebited | SpotTransfer | PerpTransfer | SubaccountTransfer | VaultDeposit | VaultWithdrawal
  | FeeCharged | BuilderFeeCharged | ReferralReward | AccountModeChanged | MarginModeChanged | LeverageChanged
  | InternalTransfer | AccountClassTransfer | RewardClaimed | SpotGenesisApplied => [Component.Account]
  | LiquidationStarted | LiquidationFill | BackstopLiquidation | PositionSettled => [Component.PositionLiquidation]
  | TriggerOrderActivated => [Component.Trigger]
  | TwapStarted | TwapSliceFilled | TwapCompleted => [Component.Twap]
  | VaultCreated | VaultDistribution => [Component.Vault; Component.Relationships]
  | VaultLeaderCommissionPaid => []
  | StakingDeposit | StakingWithdrawalQueued | StakingWithdrawalCompleted => [Component.Staking]
  | StakingDelegated | StakingUndelegated => [Component.Staking; Component.Relationships]
  | ValidatorRewardPaid => [Component.Validator]
  end.

(** ** Component versions *)

Definition expected_component_manifest : list (string * string) :=
  [("market", "hyperliquid-alpha-desk-canonical-market@1.0.0");
   ("order", "hyperliquid-alpha-desk-canonical-order@1.0.0");
   ("trade_v1", "hyperliquid-alpha-desk-canonical-trade@1.0.0");
   ("trade_v2", "hyperliquid-alpha-desk-canonical-trade@2.0.0");
   ("account", "hyperliquid-alpha-desk-canonical-account@1.0.0");
   ("position_quantity", "hyperliquid-alpha-desk-canonical-position@1.0.0");
   ("position_episode", "hyperliquid-alpha-desk-canonical-position-episode@1.0.0");
   ("position_liquidation", "hyperliquid-alpha-desk-canonical-position-liquidation@1.0.0");
   ("trigger", "hyperliquid-alpha-desk-canonical-trigger@1.0.0");
   ("twap", "hyperliquid-alpha-desk-canonical-twap@1.0.0");
   ("vault", "hyperliquid-alpha-desk-canonical-vault@1.0.0");
   ("staking", "hyperliquid-alpha-desk-canonical-staking@1.0.0");
   ("validator", "hyperliquid-alpha-desk-canonical-validator@1.0.0");
   ("relationships", "hyperliquid-alpha-desk-canonical-relationships@1.0.0")]%string.

Inductive CanonicalStateError := ComponentVersionMismatch (component expected actual : string).

Fixpoint validate_component_manifest (expected actual : list (string * string)) : result CanonicalStateError unit :=
  match expected, actual with
  | e :: expected, a :: actual =>
      if negb (bool_decide (e.1 = a.1)) || negb (bool_decide (e.2 = a.2))
      then Err (ComponentVersionMismatch e.1 e.2 a.2)
      else validate_component_manifest expected actual
  | _, _ => Ok tt
  end.

(** ** The reducer *)

Definition composite_error (code message : string) : ReducerError := mkReducerError code message.

(** [merge_selected_children]: in the order of the owners, up to the first error or repeated key. *)
Fixpoint add_keys (keys : btmap StateKey unit) (ms : list StateMutation) : option (btmap StateKey unit) :=
  match ms with
  | [] => Some keys
  | m :: ms => if bt_contains (mutation_key m) keys then None else add_keys (bt_insert (mutation_key m) tt keys) ms
  end.
Fixpoint merge_children (keys : btmap StateKey unit) (selected : list Component.t)
    (invoke : Component.t -> result ReducerError (list StateMutation)) : result ReducerError (list StateMutation) :=
  match selected with
  | [] => Ok []
  | c :: selected =>
      ms ← invoke c;
      keys ← add_keys keys ms ??
        composite_error "canonical_state.duplicate_mutation_key" "canonical state children emitted the same mutation key";
      rest ← merge_children keys selected invoke;
      Ok (ms ++ rest)
  end.

Section composite.
Context `{Hex} `{Blake3} `{PayloadWire} `{StateJson}.

Definition child_version (c : Component.t) : string :=
  match c with
  | Component.Market => reducer_version MarketReducer
  | Component.Order => reducer_version OrderReducer
  | Component.TradeV1 => reducer_version TradeReducer1
  | Component.TradeV2 => reducer_version TradeReducer2
  | Component.Account => reducer_version AccountReducer
  | Component.PositionQuantity => reducer_version PositionReducer
  | Component.PositionEpisode => reducer_version EpisodeReducer
  | Component.PositionLiquidation => reducer_version LiquidationReducer
  | Component.Trigger => reducer_version TriggerReducer
  | Component.Twap => reducer_version TwapReducer
  | Component.Vault => reducer_version VaultReducer
  | Component.Staking => reducer_version StakingReducer
  | Component.Validator => reducer_version ValidatorReducer
  | Component.Relationships => reducer_version RelationshipReducer
  end.

Definition child_supports (c : Component.t) (e : Envelope) : bool :=
  match c with
  | Component.Market => supports MarketReducer e
  | Component.Order => supports OrderReducer e
  | Component.TradeV1 => supports TradeReducer1 e
  | Component.TradeV2 => supports TradeReducer2 e
  | Component.Account => supports AccountReducer e
  | Component.PositionQuantity => supports PositionReducer e
  | Component.PositionEpisode => supports EpisodeReducer e
  | Component.PositionLiquidation => supports LiquidationReducer e
  | Component.Trigger => supports TriggerReducer e
  | Component.Twap => supports TwapReducer e
  | Component.Vault => supports VaultReducer e
  | Component.Staking => supports StakingReducer e
  | Component.Validator => supports ValidatorReducer e
  | Component.Relationships => supports RelationshipReducer e
  end.

Definition reduce_child (c : Component.t) (st : StateView) (e : Envelope) (ctx : ApplyContext) : result ReducerError (list StateMutation) :=
  match c with
  | Component.Market => reduce MarketReducer st e ctx
  | Component.Order => reduce OrderReducer st e ctx
  | Component.TradeV1 => reduce TradeReducer1 st e ctx
  | Component.TradeV2 => reduce TradeReducer2 st e ctx
  | Component.Account => reduce AccountReducer st e ctx
  | Component.PositionQuantity => reduce PositionReducer st e ctx
  | Component.PositionEpisode => reduce EpisodeReducer st e ctx
  | Component.PositionLiquidation => reduce LiquidationReducer st e ctx
  | Component.Trigger => reduce TriggerReducer st e ctx
  | Component.Twap => reduce TwapReducer st e ctx
  | Component.Vault => reduce VaultReducer st e ctx
  | Component.Staking => reduce StakingReducer st e ctx
  | Component.Validator => reduce ValidatorReducer st e ctx
  | Component.Relationships => reduce RelationshipReducer st e ctx
  end.

Definition validate_child_delta (c : Component.t) (final : StateView) (delta : list BlockDeltaEntry) (ctx : ApplyContext)
  : result ReducerError unit :=
  match c with
  | Component.Market => validate_block_delta MarketReducer final delta ctx
  | Component.Order => validate_block_delta OrderReducer final delta ctx
  | Component.TradeV1 => validate_block_delta TradeReducer1 final delta ctx
  | Component.TradeV2 => validate_block_delta TradeReducer2 final delta ctx
  | Component.Account => validate_block_delta AccountReducer final delta ctx
  | Component.PositionQuantity => validate_block_delta PositionReducer final delta ctx
  | Component.PositionEpisode => validate_block_delta EpisodeReducer final delta ctx
  | Component.PositionLiquidation => validate_block_delta LiquidationReducer final delta ctx
  | Component.Trigger => validate_block_delta TriggerReducer final delta ctx
  | Component.Twap => validate_block_delta TwapReducer final delta ctx
  | Component.Vault => validate_block_delta VaultReducer final delta ctx
  | Component.Staking => validate_block_delta StakingReducer final delta ctx
  | Component.Validator => validate_block_delta ValidatorReducer final delta ctx
  | Component.Relationships => validate_block_delta RelationshipReducer final delta ctx
  end.

Fixpoint fanout_all_components (cs : list Component.t) (validate : Component.t -> result ReducerError unit) : result ReducerError unit :=
  match cs with
  | [] => Ok tt
  | c :: cs => _ ← validate c; fanout_all_components cs validate
  end.

Definition actual_component_manifest : list (string * string) :=
  zip (fst <$> expected_component_manifest) (child_version <$> Component.all).

Definition composite_reduce (st : StateView) (e : Envelope) (ctx : ApplyContext) : result ReducerError (list StateMutation) :=
  let selected := owners e in
  if is_empty selected
  then Err (composite_error "canonical_state.unsupported_event" "canonical state reducer received an unsupported event") else
  if existsb (fun c => negb (child_supports c e)) selected
  then Err (composite_error "canonical_state.component_support_mismatch" "frozen canonical state owner does not support the selected event") else
  merge_children [] selected (fun c => reduce_child c st e ctx).
End composite.

(** The reducer has no state of its own: its fields are the fourteen reducers. *)
Inductive CanonicalStateReducerV1 := StateReducer.
Definition state_try_new `{Hex} `{Blake3} `{PayloadWire} `{StateJson} : result CanonicalStateError CanonicalStateReducerV1 :=
  _ ← validate_component_manifest expected_component_manifest actual_component_manifest;
  Ok StateReducer.
#[global] Instance state_reducer `{Hex} `{Blake3} `{PayloadWire} `{StateJson} : EventReducer Payload.t CanonicalStateReducerV1 := {
  reducer_version _ := STATE_VERSION;
  supports _ e := negb (is_empty (owners e));
  reduce _ := composite_reduce;
  validate_block_delta _ final delta ctx :=
    fanout_all_components Component.all (fun c => validate_child_delta c final delta ctx);
}.

(** ** The L4 book of a market *)

Inductive L4ProjectionError := MissingWatermark | InvalidOrder | InvalidTrigger | Unhealthy (reason : string).

Section projection.
Context `{Hex} `{OrderJson} `{ActivityJson}.

(** One pass over the state collects the activated triggers and the resting orders of the market. *)
Fixpoint collect_book (m : MarketId) (es : list (StateKey * bytes)) (triggers : btmap OrderId Price) (orders : list RestingOrder)
  : result L4ProjectionError (btmap OrderId Price * list RestingOrder) :=
  match es with
  | [] => Ok (triggers, orders)
  | (key, l) :: es =>
      if bool_decide (namespace key = "trigger-current.v1"%string) then
        r ← map_err (fun _ => InvalidTrigger) (plain_decode (R := TriggerCurrentRecordV1) l);
        collect_book m es (if bool_decide (tr_market_id r = m) then bt_insert (tr_order_id r) (tr_trigger_price r) triggers else triggers) orders
      else if bool_decide (namespace key = "order-current.v1"%string) then
        r ← map_err (fun _ => InvalidOrder) (plain_decode (R := OrderCurrentRecordV1) l);
        collect_book m es triggers
          (if bool_decide (oc_market_id r = m) then match try_resting r with Some o => orders ++ [o] | None => orders end else orders)
      else collect_book m es triggers orders
  end.

Definition attach_trigger (triggers : btmap OrderId Price) (o : RestingOrder) : RestingOrder :=
  match bt_get (order_id o) triggers with
  | Some trigger_px => RestingOrder.with_trigger (Activated trigger_px) o
  | None => o
  end.

Definition project_l4_book (m : MarketId) (image : StateImage) : result L4ProjectionError OrderBook :=
  as_of ← (wm_height <$> img_watermark image) ?? MissingWatermark;
  '(triggers, orders) ← collect_book m (img_entries image) [] [];
  let orders := @sort _ (pull_cmp order_id) (attach_trigger triggers <$> orders) in
  let book := apply_snapshot as_of as_of orders (awaiting_snapshot m as_of) in
  match health book with
  | Healthy => Ok book
  | AwaitingSnapshot reason | Red reason => Err (Unhealthy reason)
  end.
End projection.
