(* ===== verification/Samples.v ===== *)
(** * Sample components

    Concrete instances of the parameters of the production reducer, from which
    the examples of the files that follow are built: JSON that prints nothing
    for each group of records, accounts, and events of one block. *)

From Stdlib Require Import Strings.Byte Strings.String.
From S2P Require Import Prelude Ordering BTreeMap Bytes FixedPoint Ids Store StateImage Publication Blocks Ledger Payloads Records Opaque Markets Accounts Orders Activations Trades Positions Episodes Liquidations Staking Vaults Flows Composite.

(** ** JSON that prints nothing *)

Ltac no_json := split; exact (table_json []).
Definition no_market_json : MarketJson := ltac:(no_json).
Definition no_order_json : OrderJson := ltac:(no_json).
Definition no_trade_json : TradeJson := ltac:(no_json).
Definition no_position_json : PositionJson := ltac:(no_json).
Definition no_episode_json : EpisodeJson := ltac:(no_json).
Definition no_liquidation_json : LiquidationJson := ltac:(no_json).
Definition no_activity_json : ActivityJson := ltac:(no_json).
Definition no_account_json : AccountJson := ltac:(no_json).
Definition no_staking_json : StakingJson := ltac:(no_json).
Definition no_validator_json : ValidatorJson := ltac:(no_json).
Definition no_vault_json : VaultJson := ltac:(no_json).
Definition no_flow_json : FlowJson := Build_FlowJson no_account_json no_staking_json no_validator_json no_vault_json.

(** ** Accounts, amounts and events *)

Definition alice : Address := replicate 20 x01.
Definition bob : Address := replicate 20 x02.
Definition five : Decimal.t := Decimal.mk 5 0.
Definition two : Decimal.t := Decimal.mk 25 1.
Definition nothing (scale : Z) : Decimal.t := Decimal.mk 0 scale.

Definition desk_event (height index : Z) (id : EventId) (markets : list MarketId) (accounts : list Address) (p : Payload.t) : Envelope :=
  mkEvent Payload.t "1.0.0" "hl" height 1000 "tx" 0 index id markets accounts [sample_evidence "node"] CommittedPrimary 1000 1001 1002
    (replicate 32 x09) "p1" p [x7b; x7d] None.
Definition desk_block (height : Z) (es : list Envelope) : BlockEnvelope Payload.t :=
  mkBlock Payload.t "hl" height 1000 CommittedPrimary es [("node"%string, replicate 32 x05)] (replicate 32 x05).

(** A ledger of the production reducer with nothing in it. *)
Definition desk_ledger `{Blake3} : CanonicalLedger CanonicalStateReducerV1 :=
  let image := image_empty "hl" 5 STATE_VERSION in
  mkLedger StateReducer (mkLedgerLimits 64 64 256 256 65536 64 65536) image (image_state_hash image).
