(* ===== verification/TradeRun.v ===== *)
(** * A trade through the production reducer

    A concrete run that the examples of the following files share: a state
    with one market, and a block with a trade in it between two accounts that
    hold nothing before, and a second one in which they change sides. *)

From Stdlib Require Import Strings.Byte Strings.String.
From S2P Require Import Prelude Ordering BTreeMap Bytes FixedPoint Notional Ids Store StateImage Publication Blocks Ledger Payloads Records Opaque Markets Accounts Trades Positions Episodes Liquidations Flows Composite Samples.

#[local] Existing Instances sample_hex short_blake3 no_payloads.

Definition unit_size : Decimal.t := Decimal.mk 1 0.
Definition btc_market : MarketCurrentRecordV1 :=
  mkMarket "BTC" "dex" "BTC" "USDC" Active Exact "v1" (replicate 32 x07) (Some unit_size) (Some unit_size) (Some 0) (Some 0)
    None None None None None None None 1 1.

(** A trade at price 2. *)
Definition trade_event (index : Z) (id trade : string) (buyer seller : Address) (buyer_start seller_start quantity : Z) : Envelope :=
  desk_event 5 index id ["BTC"%string] [buyer; seller]
    (Payload.TradeMatched (Some trade) (Some "BTC"%string) None None (Decimal.mk 2 0) (Decimal.mk quantity 0) 0
       (Some (mkParticipant Buyer buyer (Decimal.mk buyer_start 0) "ob" None None,
              mkParticipant Seller seller (Decimal.mk seller_start 0) "os" None None))).
Definition first_trade : Envelope := trade_event 0 "t0" "trade0" alice bob 0 0 5.
Definition second_trade : Envelope := trade_event 1 "t1" "trade1" bob alice (-5) 5 7.
Definition trade_block : BlockEnvelope Payload.t := desk_block 5 [first_trade; second_trade].

(** ** The records the run writes *)

Definition trade_record (e : string) (id : string) (buyer seller : Address) (bs ss quantity : Z) : TradeStateRecordV2 :=
  mkTrade2 e id "BTC" (Decimal.mk 2 0) (Decimal.mk quantity 0) buyer seller (Decimal.mk bs 0) (Decimal.mk ss 0) "ob" "os" None None None None 5
    (replicate 32 x09).
Definition leg_record (e id : string) (ordinal : Z) (role : TradeParticipantRoleV1) (a : Address) (start : Z) (order : string) (quantity effect : Z)
  : TradeParticipantRecordV2 :=
  mkParticipant2 e id ordinal role a (Decimal.mk start 0) order None None (Decimal.mk quantity 0) (Decimal.mk effect 0) 5.
Definition reconciliation_record (t : TradeStateRecordV2) (b s : TradeParticipantRecordV2) : TradeReconciliationRecordV2 :=
  mkReconciliation2 (t2_event_id t) (t2_trade_id t) "BTC" (t2_quantity t) (p2_position_effect b) (p2_position_effect s) 2 5
    (reconciliation_v2_evidence_hash t b s).

Definition trade0 := trade_record "t0" "trade0" alice bob 0 0 5.
Definition buyer0 := leg_record "t0" "trade0" 0 Buyer alice 0 "ob" 5 5.
Definition seller0 := leg_record "t0" "trade0" 1 Seller bob 0 "os" 5 (-5).
Definition trade1 := trade_record "t1" "trade1" bob alice (-5) 5 7.
Definition buyer1 := leg_record "t1" "trade1" 0 Buyer bob (-5) "ob" 7 7.
Definition seller1 := leg_record "t1" "trade1" 1 Seller alice 5 "os" 7 (-7).

Definition old_trade (t : TradeStateRecordV2) (a b : Address) : TradeStateRecordV1 :=
  mkTrade1 (t2_event_id t) (t2_trade_id t) "BTC" (t2_price t) (t2_quantity t) a b 5 (replicate 32 x09).
Definition old_leg (t : TradeStateRecordV2) (i : Z) (a : Address) := mkParticipant1 (t2_event_id t) (t2_trade_id t) i a (t2_quantity t) 5.
Definition old_reconciliation (t : TradeStateRecordV1) :=
  mkReconciliation1 (t1_event_id t) (t1_trade_id t) "BTC" (t1_quantity t) 2 5 (reconciliation_evidence_hash t).
Definition old0 := old_trade trade0 alice bob.
Definition old1 := old_trade trade1 bob alice.

Definition trade_json : TradeJson := {|
  json_trade1 := table_json [to_wire old0; to_wire old1];
  json_participant1 := table_json [to_wire (old_leg trade0 0 alice); to_wire (old_leg trade0 1 bob);
                                   to_wire (old_leg trade1 0 bob); to_wire (old_leg trade1 1 alice)];
  json_reconciliation1 := table_json [to_wire (old_reconciliation old0); to_wire (old_reconciliation old1)];
  json_trade2 := table_json [to_wire trade0; to_wire trade1];
  json_participant2 := table_json [to_wire buyer0; to_wire seller0; to_wire buyer1; to_wire seller1];
  json_reconciliation2 := table_json [to_wire (reconciliation_record trade0 buyer0 seller0); to_wire (reconciliation_record trade1 buyer1 seller1)];
|}.

Definition position_record (a : Address) (quantity : Z) (event : string) : PositionQuantityCurrentRecordV1 :=
  mkPosition a "BTC" (Some (Decimal.mk quantity 0)) (Some "t0"%string) event 5.
Definition effect_record (e id : string) (a : Address) (role : TradeParticipantRoleV1) (anchor : PositionAnchorTransitionV1) (start quantity result : Z)
  : PositionEffectFactRecordV1 :=
  mkPositionEffect e id a "BTC" role anchor (Decimal.mk start 0) (Decimal.mk quantity 0) (Decimal.mk result 0) POSITION_VERSION.
Definition trade_position_json : PositionJson := {|
  json_quantity := table_json [to_wire (position_record alice 5 "t0"); to_wire (position_record bob (-5) "t0");
                               to_wire (position_record alice (-2) "t1"); to_wire (position_record bob 2 "t1")];
  json_position_effect := table_json [
    to_wire (effect_record "t0" "trade0" alice Buyer FirstObservation 0 5 5);
    to_wire (effect_record "t0" "trade0" bob Seller FirstObservation 0 5 (-5));
    to_wire (effect_record "t1" "trade1" bob Buyer Continued (-5) 7 2);
    to_wire (effect_record "t1" "trade1" alice Seller Continued 5 7 (-2))];
  json_unresolved := table_json [];
|}.

(** Episodes: opened by the first trade, and by what is left of the second. *)
Definition episode_id (a : Address) (event : string) (ordinal : Z) : string :=
  match derive_position_episode_id a "BTC" event ordinal with Ok id => id | Err _ => "" end.
Definition episode_record (a : Address) (anchor : string) (ordinal buy sell : Z) (closed : bool) (event : string) : PositionEpisodeRecordV1 :=
  mkEpisode (episode_id a anchor ordinal) a "BTC" anchor ordinal (Decimal.mk 0 0) (if closed then Some event else None)
    (if closed then Some CloseCause.TradeReversal else None) CompleteFromFlat (Decimal.mk buy 0) (ExactQuoteNotional.mk (2 * buy) 0)
    (Decimal.mk sell 0) (ExactQuoteNotional.mk (2 * sell) 0) (Decimal.mk 0 0) (Decimal.mk 0 0)
    (if closed then EpisodeStatus.Closed else EpisodeStatus.Open) event 5.
Definition episode_effect (a : Address) (event : string) (ordinal : Z) (id : string) (kind : EffectKind.t) (buy sell : Z) (closed : bool)
  : PositionEpisodeEffectFactRecordV1 :=
  mkEpisodeEffect event a "BTC" ordinal id kind (Decimal.mk buy 0) (ExactQuoteNotional.mk (2 * buy) 0) (Decimal.mk sell 0)
    (ExactQuoteNotional.mk (2 * sell) 0) (Decimal.mk 0 0) (Decimal.mk 0 0) (if closed then Some CloseCause.TradeReversal else None) EPISODE_VERSION.
Definition episode_current (a : Address) (id event : string) : PositionEpisodeCurrentRecordV1 :=
  mkEpisodeCurrent a "BTC" (Some id) Attribution.Resolved event 5.
Definition trade_episode_json : EpisodeJson := {|
  json_episode := table_json [
    to_wire (episode_record alice "t0" 0 5 0 false "t0"); to_wire (episode_record bob "t0" 0 0 5 false "t0");
    to_wire (episode_record bob "t0" 0 5 5 true "t1"); to_wire (episode_record bob "t1" 1 2 0 false "t1");
    to_wire (episode_record alice "t0" 0 5 5 true "t1"); to_wire (episode_record alice "t1" 1 0 2 false "t1")];
  json_episode_current := table_json [
    to_wire (episode_current alice (episode_id alice "t0" 0) "t0"); to_wire (episode_current bob (episode_id bob "t0" 0) "t0");
    to_wire (episode_current alice (episode_id alice "t1" 1) "t1"); to_wire (episode_current bob (episode_id bob "t1" 1) "t1")];
  json_episode_effect := table_json [
    to_wire (episode_effect alice "t0" 0 (episode_id alice "t0" 0) EffectKind.Opened 5 0 false);
    to_wire (episode_effect bob "t0" 0 (episode_id bob "t0" 0) EffectKind.Opened 0 5 false);
    to_wire (episode_effect bob "t1" 0 (episode_id bob "t0" 0) EffectKind.Closed 5 0 true);
    to_wire (episode_effect bob "t1" 1 (episode_id bob "t1" 1) EffectKind.Opened 2 0 false);
    to_wire (episode_effect alice "t1" 0 (episode_id alice "t0" 0) EffectKind.Closed 0 5 true);
    to_wire (episode_effect alice "t1" 1 (episode_id alice "t1" 1) EffectKind.Opened 0 2 false)];
|}.

Definition trade_market_json : MarketJson := {|
  json_market_fact := table_json []; json_dex := table_json []; json_asset := table_json [];
  json_market := table_json [to_wire btc_market]; json_metadata := table_json []; json_outcome := table_json [];
|}.
Definition trade_state_json : StateJson :=
  Build_StateJson trade_market_json no_order_json trade_json trade_position_json trade_episode_json no_liquidation_json no_activity_json no_flow_json.
#[local] Existing Instance trade_state_json.

(** ** The run *)

Definition market_entry : StateKey * bytes := (mkKey MARKET_NAMESPACE (concat (frame 8 <$> [as_bytes "BTC"])), [x2e]).
Definition market_ledger : CanonicalLedger CanonicalStateReducerV1 :=
  let image := image_commit (mkStateWatermark 4 (replicate 32 x04)) [market_entry] (image_empty "hl" 4 STATE_VERSION) in
  mkLedger StateReducer (mkLedgerLimits 64 64 256 256 65536 64 65536) image (image_state_hash image).
Definition trade_run := apply_blocks [trade_block] market_ledger.

Lemma market_ledger_inv : ledger_inv market_ledger.
Proof. split; [reflexivity| |reflexivity|]; vm_compute; repeat (constructor || reflexivity || discriminate). Qed.
Lemma trade_block_typed : Forall block_typed [trade_block].
Proof. repeat constructor; vm_compute; (reflexivity || discriminate). Qed.
