(* ===== verification/Namespaces.v ===== *)
(** * Where each reducer writes

    Every component of the production reducer only puts records, and only
    under its own namespaces. The components that share an event share no
    namespace. *)

From Stdlib Require Import Strings.Byte Strings.String.
From stdpp Require Import sorting sets.
From S2P Require Import Prelude Ordering BTreeMap Bytes FixedPoint Ids Store StateImage Blocks Publication Ledger Payloads Records Opaque Markets MarketRegistry Accounts Orders Activations Trades Positions Episodes Liquidations Staking Vaults Flows FlowEvents Composite.

Ltac open_mutation M :=
  lazymatch type of M with
  | (_ ≫= _) = Ok _ => let K := fresh "K" in apply bind_Ok in M as (? & K & M); open_mutation M
  | match ?o with _ => _ end = Ok _ => destruct o; try done; open_mutation M
  | _ => idtac
  end.

(** ** Puts under given namespaces *)

Definition placed (nss : list string) (m : StateMutation) : Prop :=
  exists k l, m = Put k l /\ key_wf k /\ namespace k ∈ nss.

Lemma try_new_placed nss ns l' k l : key_try_new ns l' = Ok k -> ns ∈ nss -> placed nss (Put k l).
Proof. intros (-> & W)%key_try_new_Ok I. by exists (mkKey ns l'), l. Qed.
Lemma framed_placed nss ns ids k l : framed_key ns ids = Ok k -> ns ∈ nss -> placed nss (Put k l).
Proof. intros (W & <- & _)%framed_key_Ok I. by exists k, l. Qed.
Lemma order_placed nss ns key k l : order_state_key ns key = Ok k -> ns ∈ nss -> placed nss (Put k l).
Proof. unfold order_state_key. intros K%map_err_Ok. by eapply try_new_placed. Qed.
Lemma identity_placed nss ns m o c a e k l : identity_key ns m o c a e = Ok k -> ns ∈ nss -> placed nss (Put k l).
Proof. unfold identity_key. intros K. destruct m, o, c; try done; by eapply order_placed. Qed.
Lemma trade_placed nss ns id k l : trade_key ns id = Ok k -> ns ∈ nss -> placed nss (Put k l).
Proof. unfold trade_key. intros K%map_err_Ok. by eapply try_new_placed. Qed.
Lemma participant_placed nss ns id i k l : framed_participant_key ns id i = Ok k -> ns ∈ nss -> placed nss (Put k l).
Proof. unfold framed_participant_key. intros K. inv_ok. by eapply try_new_placed. Qed.
Lemma checked_placed nss ns ids b k l : (_ ← check b; framed_key ns ids) = Ok k -> ns ∈ nss -> placed nss (Put k l).
Proof. intros (u & _ & K)%bind_Ok. by eapply framed_placed. Qed.

(** Membership of a literal namespace. *)
Ltac member := refine (bool_decide_unpack _ _); vm_compute; exact I.

(** Opens every step of a reducer that ended well. *)
Ltac open_steps :=
  repeat first
    [ inv_ok_step
    | match goal with
      | H : (let '(_, _) := ?p in _) = Ok _ |- _ => destruct p
      | H : match ?o with _ => _ end = Ok _ |- _ => destruct o eqn:?; try discriminate H
      end ].

(** Places a list of puts whose keys were built in the context. *)
Ltac place_one :=
  match goal with
  | K : ?f = Ok ?k |- placed _ (Put ?k _) =>
      first [ eapply (framed_placed _ _ _ _ _ K) | eapply (order_placed _ _ _ _ _ K) | eapply (identity_placed _ _ _ _ _ _ _ _ _ K)
            | eapply (trade_placed _ _ _ _ _ K) | eapply (participant_placed _ _ _ _ _ _ K) | eapply (checked_placed _ _ _ _ _ _ K) ];
      member
  end.
Ltac place := repeat (apply Forall_cons_2; [place_one|]); apply Forall_nil_2.

Definition market_namespaces : list string :=
  [MARKET_FACT_NAMESPACE; DEX_NAMESPACE; ASSET_NAMESPACE; MARKET_NAMESPACE; METADATA_NAMESPACE; OUTCOME_NAMESPACE].
Definition order_namespaces : list string := [ORDER_FACT_NAMESPACE; ORDER_NAMESPACE; ORDER_TRANSITION_NAMESPACE].
Definition trade1_namespaces : list string := [TRADE_NAMESPACE; PARTICIPANT_NAMESPACE; RECONCILIATION_NAMESPACE].
Definition trade2_namespaces : list string := [TRADE_V2_NAMESPACE; PARTICIPANT_V2_NAMESPACE; RECONCILIATION_V2_NAMESPACE].
Definition account_current_namespaces : list string :=
  [QUANTITY_NAMESPACE; QUOTE_NAMESPACE; VAULT_PRINCIPAL_NAMESPACE; VAULT_SHARE_NAMESPACE; SUBACCOUNT_NAMESPACE;
   VAULT_RELATION_NAMESPACE; ACCOUNT_MODE_NAMESPACE; MARGIN_MODE_NAMESPACE; LEVERAGE_NAMESPACE].
Definition account_namespaces : list string := FACT_NAMESPACE :: account_current_namespaces.
Definition position_namespaces : list string := [POSITION_EFFECT_NAMESPACE; POSITION_NAMESPACE].
Definition episode_namespaces : list string := [EPISODE_EFFECT_NAMESPACE; EPISODE_NAMESPACE; EPISODE_CURRENT_NAMESPACE].
Definition pair_namespaces : list string := POSITION_NAMESPACE :: episode_namespaces.
Definition liquidation_namespaces : list string :=
  [LIQUIDATION_NAMESPACE; START_FACT_NAMESPACE; FILL_FACT_NAMESPACE; MARKET_FLOW_NAMESPACE; BACKSTOP_FACT_NAMESPACE;
   SETTLEMENT_FACT_NAMESPACE; UNRESOLVED_NAMESPACE] ++ pair_namespaces.
Definition activity_namespaces (a : activity) : list string := [ac_fact_namespace a; ac_namespace a; ac_transition_namespace a].
Definition vault_namespaces : list string := [VAULT_FACT_NAMESPACE; VAULT_NAMESPACE; VAULT_PRINCIPAL_NAMESPACE; QUOTE_NAMESPACE].
Definition staking_namespaces : list string := [STAKING_FACT_NAMESPACE; LIQUID_NAMESPACE; PENDING_NAMESPACE; DELEGATION_NAMESPACE].
Definition validator_namespaces : list string := [VALIDATOR_FACT_NAMESPACE; VALIDATOR_NAMESPACE].
Definition relation_namespaces : list string := [VAULT_RELATION_NAMESPACE; STAKING_RELATION_NAMESPACE].

Section reducers.
Context `{Hex} `{Blake3} `{PayloadWire} `{StateJson}.
Implicit Types (st : StateView) (e : Envelope) (ms : list StateMutation).

Lemma market_placed st e ms : market_reduce st e = Ok ms -> Forall (placed market_namespaces) ms.
Proof using Type.
  unfold market_reduce, market_mutations, create_dex, create_asset, create_market, change_metadata, change_status, change_cap,
    change_margin_table, update_oracle, update_funding, create_outcome, resolve_outcome, current_market, market_put.
  intros E. open_steps; place.
Qed.

Lemma rejection_placed st e client a ms : reduce_rejection st e client a = Ok ms -> Forall (placed order_namespaces) ms.
Proof using Type. unfold reduce_rejection, order_put. intros E. open_steps; place. Qed.

Lemma order_event_placed st e ms : reduce_order_event st e = Ok ms -> Forall (placed order_namespaces) ms.
Proof using Type. unfold reduce_order_event, order_put. intros E. open_steps; place. Qed.

Lemma order_reduce_placed st e ms : order_reduce st e = Ok ms -> Forall (placed order_namespaces) ms.
Proof using Type.
  intros (u & _ & E)%bind_Ok. destruct (payload e); first [by eapply order_event_placed|by eapply rejection_placed].
Qed.

Lemma trade1_placed st e ms : trade1_reduce st e = Ok ms -> Forall (placed trade1_namespaces) ms.
Proof using Type. unfold trade1_reduce, trade_put. intros E. open_steps; place. Qed.

Lemma trade2_placed st e ms : trade2_reduce st e = Ok ms -> Forall (placed trade2_namespaces) ms.
Proof using Type. unfold trade2_reduce, trade_put. intros E. open_steps; place. Qed.

(** ** Money and stake *)

Lemma put_record_placed {R W} `{StateRecord R W} `{Json W} nss ns ids key (r : R) m :
  framed_key ns ids = Ok key -> put_record key r = Ok m -> ns ∈ nss -> placed nss m.
Proof using Type. intros K (l & _ & [= <-])%bind_Ok I. by eapply framed_placed. Qed.

Ltac place_record :=
  let M := fresh "M" in intros M; open_steps;
  match goal with K : _ = Ok ?k, P : put_record ?k _ = Ok _ |- _ => eapply (put_record_placed _ _ _ _ _ _ K P); member end.

Lemma quantity_flow_placed st event height a s amount side m :
  quantity_flow_mutation st event height a s amount side = Ok m -> placed [QUANTITY_NAMESPACE] m.
Proof using Type. unfold quantity_flow_mutation. place_record. Qed.
Lemma quote_flow_placed st event height a s amount side m :
  quote_flow_mutation st event height a s amount side = Ok m -> placed [QUOTE_NAMESPACE] m.
Proof using Type. unfold quote_flow_mutation. rewrite quote_flow_key_framed. place_record. Qed.
Lemma vault_principal_placed st event height v amount side m :
  vault_principal_mutation st event height v amount side = Ok m -> placed [VAULT_PRINCIPAL_NAMESPACE] m.
Proof using Type. unfold vault_principal_mutation. place_record. Qed.
Lemma vault_share_placed st event height v amount side m :
  vault_share_mutation st event height v amount side = Ok m -> placed [VAULT_SHARE_NAMESPACE] m.
Proof using Type. unfold vault_share_mutation. place_record. Qed.
Lemma subaccount_relation_placed st event height master from to m :
  subaccount_relation_mutation st event height master from to = Ok m -> placed [SUBACCOUNT_NAMESPACE] m.
Proof using Type. unfold subaccount_relation_mutation. place_record. Qed.
Lemma vault_relation_placed st event height a v m :
  vault_relation_mutation st event height a v = Ok m -> placed [VAULT_RELATION_NAMESPACE] m.
Proof using Type. unfold vault_relation_mutation. place_record. Qed.
Lemma account_mode_placed st event height a p n m :
  account_mode_mutation st event height a p n = Ok m -> placed [ACCOUNT_MODE_NAMESPACE] m.
Proof using Type. unfold account_mode_mutation. place_record. Qed.
Lemma margin_mode_placed st event height a k p n m :
  margin_mode_mutation st event height a k p n = Ok m -> placed [MARGIN_MODE_NAMESPACE] m.
Proof using Type. unfold margin_mode_mutation. place_record. Qed.
Lemma leverage_placed st event height a k p n m :
  leverage_mutation st event height a k p n = Ok m -> placed [LEVERAGE_NAMESPACE] m.
Proof using Type. unfold leverage_mutation. place_record. Qed.

Lemma placed_mono nss nss' m : placed nss m -> forallb (fun ns => bool_decide (ns ∈ nss')) nss = true -> placed nss' m.
Proof using Type.
  intros (k & l & -> & W & I) F. exists k, l. split_and!; [done..|]. rewrite forallb_forall in F.
  apply list_elem_of_In, F in I. by apply bool_decide_eq_true in I.
Qed.

Lemma placed_all_mono nss nss' ms : Forall (placed nss) ms -> forallb (fun ns => bool_decide (ns ∈ nss')) nss = true -> Forall (placed nss') ms.
Proof using Type. intros P F. eapply Forall_impl; [exact P|]. intros m Pm. by eapply placed_mono. Qed.

(** A put made by one of the mutations above. *)
Ltac place_mutation :=
  match goal with M : ?call = Ok ?m |- placed _ ?m =>
    eapply placed_mono;
    [ lazymatch call with
      | quantity_flow_mutation _ _ _ _ _ _ _ => eapply quantity_flow_placed
      | quote_flow_mutation _ _ _ _ _ _ _ => eapply quote_flow_placed
      | vault_principal_mutation _ _ _ _ _ _ => eapply vault_principal_placed
      | vault_share_mutation _ _ _ _ _ _ => eapply vault_share_placed
      | subaccount_relation_mutation _ _ _ _ _ _ => eapply subaccount_relation_placed
      | vault_relation_mutation _ _ _ _ _ => eapply vault_relation_placed
      | account_mode_mutation _ _ _ _ _ _ => eapply account_mode_placed
      | margin_mode_mutation _ _ _ _ _ _ _ => eapply margin_mode_placed
      | leverage_mutation _ _ _ _ _ _ _ => eapply leverage_placed
      end; exact M
    | vm_compute; reflexivity ]
  end.
Ltac place_all := repeat (apply Forall_cons_2; [first [place_mutation | place_one]|]); apply Forall_nil_2.

Lemma payload_placed st e ms : payload_mutations st e = Ok ms -> Forall (placed account_current_namespaces) ms.
Proof using Type.
  unfold payload_mutations. intros E. destruct (payload e); try done; open_mutation E; injection E as <-; place_all.
Qed.

Lemma account_placed st e ms : account_reduce st e = Ok ms -> Forall (placed account_namespaces) ms.
Proof using Type.
  unfold account_reduce. intros E. open_steps. apply Forall_cons_2; [|eapply placed_all_mono; [by eapply payload_placed|vm_compute; reflexivity]].
  match goal with K : account_fact_key _ = Ok ?k, P : put_record ?k _ = Ok _ |- _ => eapply (put_record_placed _ _ _ _ _ _ K P); member end.
Qed.

Lemma vault_placed st e ms : vault_reduce st e = Ok ms -> Forall (placed vault_namespaces) ms.
Proof using Type.
  unfold vault_reduce, reduce_created, reduce_distribution, vault_fact_put, account_principal. intros E. open_steps; place_all.
Qed.

Lemma relation_placed st e ms : relation_reduce st e = Ok ms -> Forall (placed relation_namespaces) ms.
Proof using Type.
  unfold relation_reduce, vault_relation, staking_relation. intros E. open_steps; place_all.
Qed.

Lemma liquid_placed st a amount side e m : liquid_mutation st a amount side e = Ok m -> placed staking_namespaces m.
Proof using Type. unfold liquid_mutation, staking_put. intros E. open_steps; place_one. Qed.
Lemma pending_placed st a amount side e m : pending_mutation st a amount side e = Ok m -> placed staking_namespaces m.
Proof using Type. unfold pending_mutation, staking_put. intros E. open_steps; place_one. Qed.
Lemma delegation_placed st a v amount side e m : delegation_mutation st a v amount side e = Ok m -> placed staking_namespaces m.
Proof using Type. unfold delegation_mutation, staking_put. intros E. open_steps; place_one. Qed.

Lemma staking_placed st e ms : staking_reduce st e = Ok ms -> Forall (placed staking_namespaces) ms.
Proof using Type.
  unfold staking_reduce, reduce_delegation, staking_fact_put. intros E. open_steps;
  repeat (apply Forall_cons_2; [first [place_one|by eapply liquid_placed|by eapply pending_placed|by eapply delegation_placed]|]);
  apply Forall_nil_2.
Qed.

Lemma validator_placed st e ms : validator_reduce st e = Ok ms -> Forall (placed validator_namespaces) ms.
Proof using Type. unfold validator_reduce. intros E. open_steps; place. Qed.

(** ** Triggers and TWAPs *)

Lemma activity_placed a codec collision st e k o account m prior key l ms : activity_key a m o = Ok key ->
  activity_puts a codec collision st e k o account m prior key l = Ok ms -> Forall (placed (activity_namespaces a)) ms.
Proof using Type.
  unfold activity_puts, activity_key. intros K E. open_steps. unfold activity_namespaces.
  repeat (apply Forall_cons_2; [match goal with K : _ = Ok ?k |- placed _ (Put ?k _) => apply (order_placed _ _ _ _ _ K); set_solver end|]).
  apply Forall_nil_2.
Qed.

Lemma trigger_placed st e ms : trigger_reduce st e = Ok ms -> Forall (placed (activity_namespaces trigger_activity)) ms.
Proof using Type. unfold trigger_reduce. intros E. open_steps. by eapply activity_placed. Qed.

Lemma twap_placed st e ms : twap_reduce st e = Ok ms -> Forall (placed (activity_namespaces twap_activity)) ms.
Proof using Type. unfold twap_reduce. intros E. open_steps; by eapply activity_placed. Qed.

(** ** Positions *)

Lemma position_placed st e ms : position_reduce st e = Ok ms -> Forall (placed position_namespaces) ms.
Proof using Type. unfold position_reduce, position_leg. intros E. open_steps; place. Qed.

Lemma effect_put_placed st e a m p mu : effect_put st e a m p = Ok mu -> placed episode_namespaces mu.
Proof using Type. unfold effect_put, episode_effect_key. intros E. open_steps; place_one. Qed.
Lemma episode_put_placed st r mu : episode_put st r = Ok mu -> placed episode_namespaces mu.
Proof using Type. unfold episode_put, episode_key. intros (key & K%map_err_Ok & (u & _ & (l & _ & [= <-])%bind_Ok)%bind_Ok)%bind_Ok. place_one. Qed.

Lemma collect_placed {E A} (f : A -> result E StateMutation) nss l ms :
  (forall a m, f a = Ok m -> placed nss m) -> collect f l = Ok ms -> Forall (placed nss) ms.
Proof using Type. intros P C%collect_Ok. induction C; constructor; eauto. Qed.

Lemma stage_leg_placed st e trade leg loaded ms : stage_trade_leg st e trade leg loaded = Ok ms -> Forall (placed episode_namespaces) ms.
Proof using Type.
  intros ([r is_new] & _ & ([[effects episodes] current] & _ & (u & _ & (ps & P & (qs & Q & (key & K%map_err_Ok & (l & _ & [= <-])%bind_Ok)%bind_Ok)%bind_Ok)%bind_Ok)%bind_Ok)%bind_Ok)%bind_Ok.
  apply Forall_app. split; [eapply collect_placed; [apply effect_put_placed|exact P]|].
  apply Forall_app. split; [eapply collect_placed; [apply episode_put_placed|exact Q]|]. place.
Qed.

Lemma episode_placed st e ms : episode_reduce st e = Ok ms -> Forall (placed episode_namespaces) ms.
Proof using Type.
  unfold episode_reduce, reduce_funding. intros E. destruct (negb _); [done|]. destruct (payload e); try done; open_steps; try apply Forall_nil_2.
  1,2: unfold episode_effect_key, episode_key in *; place.
  unfold episode_reduce_trade in E. open_steps. apply Forall_app; split; by eapply stage_leg_placed.
Qed.

Lemma nontrade_placed e a m loaded outcome cause scale ms :
  stage_nontrade_transition e a m loaded outcome cause scale = Ok ms -> Forall (placed pair_namespaces) ms.
Proof using Type.
  unfold stage_nontrade_transition, proposed. intros E. open_steps.
  apply Forall_app. split; [eapply collect_placed; [|eassumption]|apply Forall_app; split; [eapply collect_placed; [|eassumption]|place]].
  - unfold still_effect_put, episode_effect_key. intros. open_steps. place_one.
  - unfold still_episode_put, episode_key. intros. open_steps. place_one.
Qed.

Lemma liquidation_placed st e ms : liquidation_reduce st e = Ok ms -> Forall (placed liquidation_namespaces) ms.
Proof using Type.
  unfold liquidation_reduce, reduce_start, reduce_fill, reduce_backstop, reduce_settlement, backstop_bundle, updated_process_mutation, put_with.
  intros E. destruct (negb _); [done|]. destruct (payload e); try done; open_steps; cbn [app];
  repeat first [place_one | eapply placed_all_mono; [by eapply nontrade_placed|vm_compute; reflexivity] | apply Forall_nil_2 | apply Forall_app; split | apply Forall_cons_2].
Qed.
End reducers.

(** ** Repeated keys *)

Definition mutation_namespace (m : StateMutation) : string := namespace (mutation_key m).

Lemma nodup_namespaces ms : NoDup (mutation_namespace <$> ms) -> NoDup (mutation_key <$> ms).
Proof.
  intros N. assert (mutation_namespace <$> ms = namespace <$> (mutation_key <$> ms)) as E by by rewrite <- list_fmap_compose.
  rewrite E in N. by apply NoDup_fmap_1 in N.
Qed.

Definition keyed (ns : string) (k : StateKey) : Prop := namespace k = ns.
Lemma framed_keyed ns ids k : framed_key ns ids = Ok k -> keyed ns k.
Proof. by intros (_ & ? & _)%framed_key_Ok. Qed.
Lemma checked_keyed ns ids b k : (_ ← check b; framed_key ns ids) = Ok k -> keyed ns k.
Proof. intros (u & _ & K)%bind_Ok. by eapply framed_keyed. Qed.
Lemma order_keyed ns key k : order_state_key ns key = Ok k -> keyed ns k.
Proof. unfold order_state_key. by intros (-> & _)%map_err_Ok%key_try_new_Ok. Qed.
Lemma identity_keyed ns m o c a e k : identity_key ns m o c a e = Ok k -> keyed ns k.
Proof. unfold identity_key. intros K. destruct m, o, c; try done; by eapply order_keyed. Qed.
Lemma trade_keyed ns id k : trade_key ns id = Ok k -> keyed ns k.
Proof. unfold trade_key. by intros (-> & _)%map_err_Ok%key_try_new_Ok. Qed.
Lemma participant_key_Ok ns id i k : framed_participant_key ns id i = Ok k ->
  keyed ns k /\ last (key_bytes k) = Some (byte_of_Z i).
Proof.
  unfold framed_participant_key. intros K. inv_ok. match goal with E : key_try_new _ _ = Ok _ |- _ => apply key_try_new_Ok in E as [-> _] end.
  split; [done|]. cbn [key_bytes]. rewrite app_assoc. apply last_snoc.
Qed.

Lemma placed_one ns m : placed [ns] m -> mutation_namespace m = ns.
Proof. intros (k & l & -> & _ & I). by apply list_elem_of_singleton in I. Qed.

(** Keys under different namespaces. *)
Ltac distinct_namespaces :=
  apply nodup_namespaces; unfold mutation_namespace; cbn [fmap list_fmap mutation_key];
  repeat match goal with
  | K : _ = Ok ?k |- context [namespace ?k] =>
      first [ rewrite (framed_keyed _ _ _ K : namespace k = _) | rewrite (order_keyed _ _ _ K : namespace k = _)
            | rewrite (identity_keyed _ _ _ _ _ _ _ K : namespace k = _) | rewrite (trade_keyed _ _ _ K : namespace k = _) ]
  | M : quote_flow_mutation _ _ _ _ _ _ _ = Ok ?m |- context [namespace (mutation_key ?m)] =>
      rewrite (placed_one _ _ (quote_flow_placed _ _ _ _ _ _ _ _ M) : namespace (mutation_key m) = _)
  | M : vault_principal_mutation _ _ _ _ _ _ = Ok ?m |- context [namespace (mutation_key ?m)] =>
      rewrite (placed_one _ _ (vault_principal_placed _ _ _ _ _ _ _ M) : namespace (mutation_key m) = _)
  end; member.

Section distinct.
Context `{Hex} `{Blake3} `{PayloadWire} `{StateJson}.
Implicit Types (st : StateView) (e : Envelope) (ms : list StateMutation).

Lemma metadata_keys_distinct m version current k k' : leb version current = false -> metadata_key m current = Ok k ->
  metadata_key m version = Ok k' -> k <> k'.
Proof using Type.
  intros L K K' ->. destruct (framed_key_inj _ _ _ _ _ K K') as [_ [= E%as_bytes_inj]]. subst. unfold leb in L. by rewrite cmp_refl in L.
Qed.

Lemma nodup_three (k1 k2 k3 k4 : StateKey) : namespace k1 <> namespace k2 -> k2 <> k3 -> namespace k2 = namespace k3 ->
  namespace k4 <> namespace k2 -> namespace k4 <> namespace k1 -> NoDup [k1; k2; k3; k4].
Proof using Type. intros. rewrite !NoDup_cons, !not_elem_of_cons. repeat split; try apply not_elem_of_nil; try apply NoDup_nil_2; congruence. Qed.

Lemma market_distinct st e ms : market_reduce st e = Ok ms -> NoDup (mutation_key <$> ms).
Proof using Type.
  unfold market_reduce, market_mutations, create_dex, create_asset, create_market, change_status, change_cap,
    change_margin_table, update_oracle, update_funding, create_outcome, resolve_outcome, current_market, market_put.
  intros E. open_steps; try distinct_namespaces.
  match goal with C : change_metadata _ _ _ _ _ = _ |- _ => unfold change_metadata, market_put in C end. open_steps.
  cbn [fmap list_fmap mutation_key]. bool_to_prop.
  apply nodup_three; [..|by eapply metadata_keys_distinct| | |];
    repeat match goal with K : _ = Ok ?k |- context [namespace ?k] => rewrite (framed_keyed _ _ _ K : namespace k = _) end;
    first [done|member].
Qed.

Lemma order_distinct st e ms : order_reduce st e = Ok ms -> NoDup (mutation_key <$> ms).
Proof using Type.
  assert (forall client a, reduce_rejection st e client a = Ok ms -> NoDup (mutation_key <$> ms)) as R.
  { unfold reduce_rejection, order_put. intros client a E. open_steps; distinct_namespaces. }
  assert (reduce_order_event st e = Ok ms -> NoDup (mutation_key <$> ms)) as O.
  { unfold reduce_order_event, order_put. intros E. open_steps; distinct_namespaces. }
  intros (u & _ & E)%bind_Ok. destruct (payload e); first [by apply O|by eapply R].
Qed.

Lemma trade_keys_distinct ns ns1 ns2 id k k0 k1 k2 : trade_key ns id = Ok k -> framed_participant_key ns1 id 0 = Ok k0 ->
  framed_participant_key ns1 id 1 = Ok k1 -> trade_key ns2 id = Ok k2 -> NoDup [ns; ns1; ns2] -> NoDup [k; k0; k1; k2].
Proof using Type.
  intros K%trade_keyed (K0 & L0)%participant_key_Ok (K1 & L1)%participant_key_Ok K2%trade_keyed N. unfold keyed in *.
  rewrite !NoDup_cons, !not_elem_of_cons in N. destruct_and?. apply nodup_three; try congruence.
  intros ->. rewrite L0 in L1. discriminate L1.
Qed.

Lemma trade1_distinct st e ms : trade1_reduce st e = Ok ms -> NoDup (mutation_key <$> ms).
Proof using Type. unfold trade1_reduce, trade_put. intros E. open_steps. eapply trade_keys_distinct; [eassumption..|]. member. Qed.
Lemma trade2_distinct st e ms : trade2_reduce st e = Ok ms -> NoDup (mutation_key <$> ms).
Proof using Type. unfold trade2_reduce, trade_put. intros E. open_steps. eapply trade_keys_distinct; [eassumption..|]. member. Qed.

Lemma activity_distinct a codec collision st e k o account m prior key l ms : activity_key a m o = Ok key ->
  NoDup (activity_namespaces a) ->
  activity_puts a codec collision st e k o account m prior key l = Ok ms -> NoDup (mutation_key <$> ms).
Proof using Type.
  unfold activity_puts, activity_key. intros K N E. open_steps. apply nodup_namespaces. unfold mutation_namespace. cbn [fmap list_fmap mutation_key].
  repeat match goal with K : _ = Ok ?k |- context [namespace ?k] => rewrite (order_keyed _ _ _ K : namespace k = _) end. exact N.
Qed.
Lemma trigger_distinct st e ms : trigger_reduce st e = Ok ms -> NoDup (mutation_key <$> ms).
Proof using Type. unfold trigger_reduce. intros E. open_steps. eapply activity_distinct; [eassumption| |eassumption]. member. Qed.
Lemma twap_distinct st e ms : twap_reduce st e = Ok ms -> NoDup (mutation_key <$> ms).
Proof using Type. unfold twap_reduce. intros E. open_steps; (eapply activity_distinct; [eassumption| |eassumption]; member). Qed.

Lemma vault_distinct st e ms : vault_reduce st e = Ok ms -> NoDup (mutation_key <$> ms).
Proof using Type.
  unfold vault_reduce, reduce_created, reduce_distribution, vault_fact_put, account_principal. intros E. open_steps; cbn [app]; distinct_namespaces.
Qed.
Lemma relation_distinct st e ms : relation_reduce st e = Ok ms -> NoDup (mutation_key <$> ms).
Proof using Type.
  unfold relation_reduce, vault_relation, staking_relation. intros E. open_steps; first [apply NoDup_nil_2|apply NoDup_singleton].
Qed.
Lemma staking_distinct st e ms : staking_reduce st e = Ok ms -> NoDup (mutation_key <$> ms).
Proof using Type.
  unfold staking_reduce, reduce_delegation, staking_fact_put, liquid_mutation, pending_mutation, delegation_mutation, staking_put.
  intros E. open_steps; distinct_namespaces.
Qed.
Lemma validator_distinct st e ms : validator_reduce st e = Ok ms -> NoDup (mutation_key <$> ms).
Proof using Type. unfold validator_reduce. intros E. open_steps; distinct_namespaces. Qed.

(** The other reducers check their keys themselves. *)
Lemma unique_distinct err ms : (if unique_keys [] ms then Ok tt else Err err : result ReducerError unit) = Ok tt -> NoDup (mutation_key <$> ms).
Proof using Type. destruct (unique_keys [] ms) eqn:U; [|done]. intros _. by apply unique_keys_NoDup in U as [? _]. Qed.
Lemma position_distinct st e ms : position_reduce st e = Ok ms -> NoDup (mutation_key <$> ms).
Proof using Type.
  unfold position_reduce. intros E. open_steps. match goal with u : unit |- _ => destruct u end. by eapply unique_distinct.
Qed.
Lemma episode_distinct st e ms : episode_reduce st e = Ok ms -> NoDup (mutation_key <$> ms).
Proof using Type.
  unfold episode_reduce, reduce_funding, episode_reduce_trade. intros E. destruct (negb _); [done|].
  destruct (payload e); try done; open_steps; try apply NoDup_nil_2;
  match goal with U : ensure_unique_episode_mutation_keys _ = Ok ?u |- _ => destruct u; by apply unique_distinct in U end.
Qed.
Lemma liquidation_distinct st e ms : liquidation_reduce st e = Ok ms -> NoDup (mutation_key <$> ms).
Proof using Type.
  unfold liquidation_reduce, reduce_fill, reduce_backstop, reduce_settlement. intros E. destruct (negb _); [done|].
  destruct (payload e); try done.
  { unfold reduce_start, put_with in E. open_steps. distinct_namespaces. }
  all: open_steps; match goal with U : ensure_unique_liquidation_keys _ = Ok ?u |- _ => destruct u; by apply unique_distinct in U end.
Qed.

(** ** The components of the production reducer *)

Definition component_namespaces (c : Component.t) : list string :=
  match c with
  | Component.Market => market_namespaces
  | Component.Order => order_namespaces
  | Component.TradeV1 => trade1_namespaces
  | Component.TradeV2 => trade2_namespaces
  | Component.Account => account_namespaces
  | Component.PositionQuantity => position_namespaces
  | Component.PositionEpisode => episode_namespaces
  | Component.PositionLiquidation => liquidation_namespaces
  | Component.Trigger => activity_namespaces trigger_activity
  | Component.Twap => activity_namespaces twap_activity
  | Component.Vault => vault_namespaces
  | Component.Staking => staking_namespaces
  | Component.Validator => validator_namespaces
  | Component.Relationships => relation_namespaces
  end.

Lemma child_placed c st e ctx ms : reduce_child c st e ctx = Ok ms -> Forall (placed (component_namespaces c)) ms.
Proof using Type.
  destruct c; [apply market_placed|apply order_reduce_placed|apply trade1_placed|apply trade2_placed|apply account_placed
    |apply position_placed|apply episode_placed|apply liquidation_placed|apply trigger_placed|apply twap_placed|apply vault_placed
    |apply staking_placed|apply validator_placed|apply relation_placed].
Qed.

Lemma child_distinct c st e ctx ms : reduce_child c st e ctx = Ok ms -> NoDup (mutation_key <$> ms).
Proof using Type.
  destruct c; [apply market_distinct|apply order_distinct|apply trade1_distinct|apply trade2_distinct
    |by intros (? & ? & ? & ? & -> & _ & _ & _ & _ & _ & _ & N)%account_reduce_Ok
    |apply position_distinct|apply episode_distinct|apply liquidation_distinct|apply trigger_distinct|apply twap_distinct|apply vault_distinct
    |apply staking_distinct|apply validator_distinct|apply relation_distinct].
Qed.

(** Every owner of an event supports it. *)
Lemma owners_supported e : Forall (fun c => child_supports c e = true) (owners e).
Proof using Type.
  unfold owners. destruct (bool_decide (schema_version e = _)) eqn:S; cbn [negb]; [|constructor].
  assert (event_kind e = payload_kind (payload e)) as K by done.
  destruct (payload e) eqn:P; rewrite K; cbn [payload_kind]; repeat case_match; try constructor;
    repeat apply Forall_cons_2; try apply Forall_nil_2;
    cbn; unfold market_supports, order_supports, trade1_supports, trade2_supports, account_supports, position_supports, episode_supports,
      liquidation_supports, trigger_supports, twap_supports, vault_supports, staking_supports, validator_supports, relation_supports;
    rewrite ?K, ?S, ?P; try done.
Qed.

(** The owners of an event share no namespace. *)
Lemma owners_disjoint e : NoDup (concat (component_namespaces <$> owners e)).
Proof using Type. unfold owners. repeat case_match; first [apply NoDup_nil_2|member]. Qed.

Lemma children_distinct cs mss :
  Forall2 (fun c ms => Forall (placed (component_namespaces c)) ms /\ NoDup (mutation_key <$> ms)) cs mss ->
  NoDup (concat (component_namespaces <$> cs)) -> NoDup (mutation_key <$> concat mss).
Proof using Type.
  assert (forall cs mss, Forall2 (fun c ms => Forall (placed (component_namespaces c)) ms /\ NoDup (mutation_key <$> ms)) cs mss ->
    Forall (placed (concat (component_namespaces <$> cs))) (concat mss)) as P.
  { clear. induction 1 as [|c ms cs mss [P _] _ IH]; [constructor|]. cbn. apply Forall_app.
    split; eapply Forall_impl; [exact P| |exact IH|]; cbn; intros m (k & l & ? & ? & ?); exists k, l; (split_and!; [done..|]); apply elem_of_app; auto. }
  intros F. induction F as [|c ms cs mss [Pm Nm] F IH]; [constructor|]. cbn. intros (N1 & D & N2)%NoDup_app.
  rewrite fmap_app. apply NoDup_app. split_and!; [done| |by apply IH].
  intros k (m & -> & I)%list_elem_of_fmap (m' & E & I')%list_elem_of_fmap. apply P in F.
  rewrite Forall_forall in Pm, F. destruct (Pm _ I) as (k1 & l1 & -> & _ & M1), (F _ I') as (k2 & l2 & -> & _ & M2).
  cbn in E. subst. by eapply D.
Qed.

Lemma add_keys_Ok keys ms : NoDup (mutation_key <$> ms) -> (forall k, k ∈ mutation_key <$> ms -> bt_get k keys = None) ->
  exists keys', add_keys keys ms = Some keys' /\
    forall k, bt_get k keys = None -> k ∉ mutation_key <$> ms -> bt_get k keys' = None.
Proof using Type.
  revert keys. induction ms as [|m ms IH]; intros keys N F; cbn [add_keys fmap list_fmap] in *; [eauto|]. apply NoDup_cons in N as [Nm N].
  destruct (bt_contains (mutation_key m) keys) eqn:C.
  { apply bt_contains_true in C as [u C]. rewrite F in C; [done|set_solver]. }
  assert (forall k, k <> mutation_key m -> bt_get k keys = None -> bt_get k (bt_insert (mutation_key m) tt keys) = None) as G.
  { intros k Nk Ek. rewrite bt_get_insert. unfold eqb. destruct (cmp k (mutation_key m)) eqn:Ck; [by apply cmp_eq_leibniz in Ck|done..]. }
  destruct (IH (bt_insert (mutation_key m) tt keys) N) as (keys' & E & K).
  { intros k I. apply G; [by intros ->|apply F; set_solver]. }
  exists keys'. split; [done|]. intros k Ek [Nk Ni]%not_elem_of_cons. by apply K, Ni; apply G.
Qed.

Lemma merge_children_Ok invoke keys cs mss : Forall2 (fun c ms => invoke c = Ok ms) cs mss ->
  NoDup (mutation_key <$> concat mss) -> (forall k, k ∈ mutation_key <$> concat mss -> bt_get k keys = None) ->
  merge_children keys cs invoke = Ok (concat mss).
Proof using Type.
  intros F. revert keys. induction F as [|c ms cs mss I F IH]; intros keys N K; [done|]. cbn [merge_children concat] in *.
  rewrite I, bind_of_Ok. rewrite fmap_app in N, K. apply NoDup_app in N as (N1 & D & N2).
  destruct (add_keys_Ok keys ms N1) as (keys' & -> & G); [intros; apply K; set_solver|]. cbn [ok_or]. rewrite bind_of_Ok, IH, bind_of_Ok; [done..|].
  intros k Ik. apply G; [apply K; set_solver|]. intros Ik'. by eapply D.
Qed.

Lemma merge_children_inv invoke keys cs ms : merge_children keys cs invoke = Ok ms ->
  exists mss, Forall2 (fun c ms => invoke c = Ok ms) cs mss /\ ms = concat mss.
Proof using Type.
  revert keys ms. induction cs as [|c cs IH]; intros keys ms E; cbn in E; [injection E as <-; by exists []; split; [constructor|]|].
  apply bind_Ok in E as (m & I & (keys' & _ & (rest & R & [= <-])%bind_Ok)%bind_Ok). apply IH in R as (mss & F & ->).
  exists (m :: mss). by split; [constructor|].
Qed.

Lemma composite_children st e ctx mss : Forall2 (fun c ms => reduce_child c st e ctx = Ok ms) (owners e) mss ->
  NoDup (mutation_key <$> concat mss).
Proof using Type.
  intros F. eapply children_distinct; [|apply owners_disjoint]. eapply Forall2_impl; [exact F|]. cbn. intros c ms R.
  split; [by eapply child_placed|by eapply child_distinct].
Qed.

Lemma composite_reduce_inv st e ctx ms : composite_reduce st e ctx = Ok ms ->
  owners e <> [] /\ exists mss, Forall2 (fun c ms => reduce_child c st e ctx = Ok ms) (owners e) mss /\ ms = concat mss.
Proof using Type.
  unfold composite_reduce. destruct (is_empty (owners e)) eqn:Em; [done|]. destruct (existsb _ _); [done|]. intros E.
  split; [by destruct (owners e)|by eapply merge_children_inv].
Qed.

(** C17. The production reducer is the union of its components. It accepts an
    event exactly when the event has owners and each owner accepts it in the
    state before the event, and then it returns the mutations of the owners one
    after the other. In particular the checks of [reduce] itself never refuse
    an event its owners accept: every owner supports the event, and no two
    mutations have the same key, within a component or across components. *)
Theorem composite_exact st e ctx ms : composite_reduce st e ctx = Ok ms <->
  owners e <> [] /\ exists mss, Forall2 (fun c ms => reduce_child c st e ctx = Ok ms) (owners e) mss /\ ms = concat mss.
Proof using Type.
  split; [apply composite_reduce_inv|]. intros (Ne & mss & F & ->). unfold composite_reduce.
  destruct (is_empty (owners e)) eqn:Em; [by destruct (owners e)|].
  assert (existsb (fun c => negb (child_supports c e)) (owners e) = false) as ->.
  { pose proof (owners_supported e) as S. clear -S. induction S as [|c cs Sc _ IH]; [done|]. cbn [existsb]. by rewrite Sc. }
  apply merge_children_Ok; [done|by eapply composite_children|done].
Qed.

(** Keys of the production reducer are valid. *)
#[global] Instance state_typed : ReducerTyped Payload.t CanonicalStateReducerV1.
Proof using Type.
  intros r view e ctx ms (_ & mss & F & ->)%composite_reduce_inv. apply Forall_concat.
  induction F as [|c ms cs mss R _ IH]; constructor; [|done]. apply child_placed in R. eapply Forall_impl; [exact R|].
  intros m (k & l & -> & W & _). exact W.
Qed.
End distinct.
