(* ===== verification/Production.v ===== *)
(** * The ledger with the production reducer: money and stake

    What the records of money and stake say after any run of the ledger with
    the production reducer: the books are the sums of the postings of the
    applied blocks, transfers balance, no balance of stake is overdrawn, every
    record stays readable, and there is exactly one fact for every applied
    event of an account. *)

From Stdlib Require Import Strings.Byte Strings.String.
From stdpp Require Import sorting sets.
From S2P Require Import Prelude Ordering BTreeMap Bytes FixedPoint Ids Store StateImage Publication Blocks Ledger Payloads Records Opaque Markets Accounts Staking Vaults Flows FlowEvents Composite Samples Namespaces.

Section components.
Context `{HexLaws} `{Blake3} `{PW : PayloadWire} `{SJ : StateJson} `{!FlowJsonLaws}.
Implicit Types (st : Entries) (e : Envelope).

(** The components that post. *)
Definition component_postings (c : Component.t) (e : Envelope) : list posting :=
  match c with Component.Account | Component.Vault | Component.Staking | Component.Validator => postings e | _ => [] end.

Lemma placed_posted st nss ms : Forall (placed nss) ms -> forallb (fun ns => bool_decide (ns ∉ record_namespaces)) nss = true ->
  exists pss, Forall2 (posted st) pss ms /\ concat pss = [].
Proof using Type*.
  intros P F. rewrite forallb_forall in F. induction P as [|m ms (k & l & -> & _ & I) _ (pss & Fp & Ep)]; [by exists []; split; [constructor|]|].
  exists ([] :: pss). split; [|done]. constructor; [|done]. apply foreign_posted.
  apply list_elem_of_In, F in I. by apply bool_decide_eq_true in I.
Qed.

Lemma child_posted c st e ctx ms : envelope_typed e -> reduce_child c st e ctx = Ok ms ->
  exists pss, Forall2 (posted st) pss ms /\ concat pss = component_postings c e.
Proof using Type*.
  intros T R. destruct c.
  5: by apply account_reduce_posted.
  10: by apply vault_reduce_posted.
  10: by apply staking_reduce_posted.
  10: by apply validator_reduce_posted.
  10: by apply relation_reduce_posted in R.
  all: eapply placed_posted; [by eapply child_placed|vm_compute; reflexivity].
Qed.

(** Each event is posted by one of its owners. *)
Lemma owners_postings e : owners e <> [] -> concat ((fun c => component_postings c e) <$> owners e) = postings e.
Proof using Type.
  unfold owners. destruct (negb _); [done|]. assert (event_kind e = payload_kind (payload e)) as -> by done. unfold component_postings, postings.
  destruct (payload e); cbn [payload_kind]; cbn -[postings]; repeat case_match; intros; try done; cbn; rewrite ?app_nil_r; done.
Qed.

Lemma composite_posted st e ctx ms : envelope_typed e -> composite_reduce st e ctx = Ok ms ->
  exists pss, Forall2 (posted st) pss ms /\ concat pss = postings e.
Proof using Type*.
  intros T (Ne & mss & F & ->)%composite_reduce_inv. rewrite <- owners_postings by done. clear Ne.
  induction F as [|c ms cs mss R _ (pss & Fp & Ep)]; [by exists []; split; [constructor|]|].
  destruct (child_posted _ _ _ _ _ T R) as (ps & Fc & Ec). exists (ps ++ pss). split; [by apply Forall2_app|].
  cbn. by rewrite concat_app, Ec, Ep.
Qed.

Lemma composite_distinct st e ctx ms : composite_reduce st e ctx = Ok ms -> NoDup (mutation_key <$> ms).
Proof using Type. intros (_ & mss & F & ->)%composite_reduce_inv. by eapply composite_children. Qed.

Lemma composite_total w st e ctx ms : bt_sorted st -> envelope_typed e -> composite_reduce st e ctx = Ok ms ->
  total w (put_all st ms) = total w st + postings_weight w (postings e).
Proof using Type*.
  intros S T R. destruct (composite_posted _ _ _ _ T R) as (pss & F & E).
  rewrite total_put_all by (done || by eapply composite_distinct). by rewrite (shifts_posted w st pss ms F), E.
Qed.
End components.

(** ** Pools: what moves inside the venue *)

Inductive pool :=
| SpotPool (asset : AssetId)
| SubaccountPool (asset : AssetId)
| BuilderFeePool (asset : AssetId)
| SharesPool (vault : VaultId)
| PrincipalPool (vault : VaultId)
| StakePool (account : Address).

(** The sign with which the net amount of a book counts in a pool. *)
Definition pool_sign (p : pool) (b : book) : Z :=
  match p, b with
  | SpotPool x, QuantityBook _ (SpotTransferAsset y) | SubaccountPool x, QuantityBook _ (SubaccountTransferAsset y)
  | BuilderFeePool x, QuantityBook _ (BuilderFeeAsset y) | SharesPool x, QuantityBook _ (VaultShares y)
  | PrincipalPool x, QuoteBook _ (VaultPrincipal y) | PrincipalPool x, PrincipalBook y => if bool_decide (x = y) then 1 else 0
  | SharesPool x, SharesBook y => if bool_decide (x = y) then -1 else 0
  | StakePool a, LiquidBook c | StakePool a, PendingBook c | StakePool a, DelegationBook c _ => if bool_decide (a = c) then 1 else 0
  | _, _ => 0
  end.
(** The quote held by the perpetual and spot classes of the accounts. *)
Definition quote_sign (b : book) : Z :=
  match b with QuoteBook _ DefaultPerpQuote | QuoteBook _ SpotClassQuote => 1 | _ => 0 end.
Definition net (sign : book -> Z) : weight := fun b => (sign b, - sign b).

Section runs.
Context `{HexLaws} `{Blake3} `{PW : PayloadWire} `{SJ : StateJson} `{!FlowJsonLaws}.
Implicit Types (l : CanonicalLedger CanonicalStateReducerV1) (b : BlockEnvelope Payload.t) (e : Envelope).

(** What an event brings into a pool from outside it: stake is deposited and
    withdrawn, a vault is created at a fee, and it may be created or pay out
    without naming an account. *)
Definition from_outside (p : pool) (e : Envelope) : Z :=
  match p, payload e with
  | StakePool a, Payload.StakingDeposit encoded =>
      match decode_staking_deposit_amount encoded with Ok (c, amount) => if bool_decide (a = c) then atoms amount else 0 | Err _ => 0 end
  | StakePool a, Payload.StakingWithdrawalCompleted encoded =>
      match decode_staking_withdraw_completed encoded with Ok (c, amount) => if bool_decide (a = c) then - atoms amount else 0 | Err _ => 0 end
  | PrincipalPool v, Payload.VaultCreated encoded =>
      match decode_vault_create encoded with
      | Ok (w, amount, fee) =>
          if bool_decide (v = w)
          then match account_ids e with [_] => if is_ok (Decimal.checked_add amount fee) then - atoms fee else atoms amount | _ => atoms amount end
          else 0
      | Err _ => 0
      end
  | PrincipalPool v, Payload.VaultDistribution encoded =>
      match decode_vault_dist encoded with
      | Ok (w, amount) => if bool_decide (v = w) then match account_ids e with [_] => 0 | _ => - atoms amount end else 0
      | Err _ => 0
      end
  | _, _ => 0
  end.

Ltac weigh := unfold postings_weight, posting_weight, net; cbn -[atoms Z.mul]; repeat case_bool_decide; lia.

Lemma pool_outside p e : postings_weight (net (pool_sign p)) (postings e) = from_outside p e.
Proof using Type.
  unfold postings, from_outside. destruct (payload e); try (destruct p; weigh).
  all: try (destruct (decode_internal _) as [[[[? ?] ?] ?]|]; [destruct (Decimal.checked_add _ _)|]; destruct p; weigh).
  all: try (destruct (decode_class_transfer _) as [[[? ?] []]|]; destruct p; weigh).
  all: try (destruct (decode_reward _) as [[? ?]|]; destruct p; weigh).
  all: try (destruct (decode_spot_genesis _) as [[? ?]|]; [destruct (account_ids e) as [|? []]|]; destruct p; weigh).
  all: try (destruct (decode_staking_deposit_amount _) as [[? ?]|]; destruct p; weigh).
  all: try (destruct (decode_staking_delegate _) as [[[? ?] ?]|]; destruct p; weigh).
  all: try (destruct (decode_staking_undelegate _) as [[[? ?] ?]|]; destruct p; weigh).
  all: try (destruct (decode_staking_withdraw_queued _) as [[? ?]|]; destruct p; weigh).
  all: try (destruct (decode_staking_withdraw_completed _) as [[? ?]|]; destruct p; weigh).
  all: try (destruct (decode_validator_reward _) as [[? ?]|]; destruct p; weigh).
  all: try (destruct (decode_vault_dist _) as [[? ?]|]; [destruct (account_ids e) as [|? []]|]; destruct p; weigh).
  destruct (decode_vault_create _) as [[[? amount] fee]|] eqn:D; [|by destruct p].
  destruct (decode_vault_create_Ok _ _ _ _ D) as (_ & Wa & _ & Wf & _).
  destruct (account_ids e) as [|? []]; [destruct p; weigh| |destruct p; weigh].
  destruct (Decimal.checked_add amount fee) as [debit|] eqn:A; [|destruct p; weigh].
  apply add_atoms in A as [_ A]; [|done..]. destruct p; weigh.
Qed.

Lemma quote_never_minted e : postings_weight (net quote_sign) (postings e) <= 0.
Proof using Type.
  unfold postings. destruct (payload e); try weigh.
  all: try (destruct (decode_class_transfer _) as [[[? ?] []]|]; weigh).
  all: try (destruct (decode_reward _) as [[? ?]|]; weigh).
  all: try (destruct (decode_spot_genesis _) as [[? ?]|]; [destruct (account_ids e) as [|? []]|]; weigh).
  all: try (destruct (decode_staking_deposit_amount _) as [[? ?]|]; weigh).
  all: try (destruct (decode_staking_delegate _) as [[[? ?] ?]|]; weigh).
  all: try (destruct (decode_staking_undelegate _) as [[[? ?] ?]|]; weigh).
  all: try (destruct (decode_staking_withdraw_queued _) as [[? ?]|]; weigh).
  all: try (destruct (decode_staking_withdraw_completed _) as [[? ?]|]; weigh).
  all: try (destruct (decode_validator_reward _) as [[? ?]|]; weigh).
  all: try (destruct (decode_vault_dist _) as [[? ?]|]; [destruct (account_ids e) as [|? []]|]; weigh).
  all: try (destruct (decode_vault_create _) as [[[? amount] fee]|]; [destruct (account_ids e) as [|? []], (Decimal.checked_add amount fee)|]; weigh).
  destruct (decode_internal _) as [[[[? ?] amount] fee]|] eqn:D; [|done]. destruct (Decimal.checked_add _ _) as [debit|] eqn:A; [|done].
  apply decode_internal_Ok in D as (Wa & _ & Wf & Pf). apply add_atoms in A as [_ A]; [|done..].
  assert (0 <= atoms fee) by (unfold atoms; apply Z.mul_nonneg_nonneg; [done|by apply Z.pow_nonneg]). weigh.
Qed.

Definition block_fields_typed b : Prop := Forall envelope_typed (events b).
(** The events of the blocks a run applied, in order. *)
Definition applied_events (rs : list (BlockEnvelope Payload.t * result LedgerError ApplyOutcome)) : list Envelope :=
  concat (events <$> applied_blocks rs).

Lemma run_total w l bs rs l' : bt_sorted (img_entries (state l)) -> Forall block_fields_typed bs ->
  apply_blocks bs l = (rs, l') ->
  total w (img_entries (state l')) =
  fold_left (fun n e => n + postings_weight w (postings e)) (applied_events rs) (total w (img_entries (state l))).
Proof using Type*.
  intros S F E. refine (apply_blocks_sim envelope_typed (fun es n => total w es = n) _ (reducer l) _ l bs rs l' _ eq_refl S F eq_refl E).
  intros es n e ctx ms Se Te <- R. exact (composite_total w es e ctx ms Se Te R).
Qed.

Lemma fold_sum (f : Envelope -> Z) (es : list Envelope) (n : Z) : fold_left (fun n e => n + f e) es n = n + foldr (fun e n => f e + n) 0 es.
Proof using Type. revert n. induction es as [|e es IH]; intros n; cbn; [lia|]. rewrite IH. lia. Qed.

(** C11. The books are exact. Over any run of the ledger with the production
    reducer, whatever blocks it refuses or has seen before, the credits and
    debits the state records for accounts, vaults, stakes and validators move
    by the postings of the events of the blocks it applied, and by nothing
    else; this holds for every way of weighing books, so for each book on its
    own. *)
Theorem flows_exact w l bs rs l' : bt_sorted (img_entries (state l)) -> Forall block_fields_typed bs ->
  apply_blocks bs l = (rs, l') ->
  total w (img_entries (state l')) =
  total w (img_entries (state l)) + postings_weight w (concat (postings <$> applied_events rs)).
Proof using Type*.
  intros S F E. rewrite (run_total w l bs rs l' S F E), fold_sum. f_equal. clear.
  induction (applied_events rs) as [|e es IH]; [done|]. cbn [foldr fmap list_fmap concat]. by rewrite postings_weight_app, IH.
Qed.

(** C8. Transfers conserve. Over any run of the ledger with the production
    reducer the net amounts of the spot transfers, subaccount transfers and
    builder fees of every asset stay as they were, summed over all accounts;
    the shares the accounts hold of every vault stay equal to the shares the
    vault has outstanding; the stake of every account, free, delegated and
    pending together, and the principal of every vault move only by what
    enters or leaves the venue; and the quote in the perpetual and spot classes
    together never grows, since only the fees of internal transfers leave it. *)
Theorem transfers_conserve l bs rs l' : bt_sorted (img_entries (state l)) -> Forall block_fields_typed bs ->
  apply_blocks bs l = (rs, l') ->
  (forall p, total (net (pool_sign p)) (img_entries (state l')) =
    total (net (pool_sign p)) (img_entries (state l)) + foldr (fun e n => from_outside p e + n) 0 (applied_events rs)) /\
  total (net quote_sign) (img_entries (state l')) <= total (net quote_sign) (img_entries (state l)).
Proof using Type*.
  intros S F E. split; [intros p|]; rewrite (run_total _ l bs rs l' S F E), fold_sum.
  - f_equal. clear. induction (applied_events rs) as [|e es IH]; [done|]. cbn [foldr]. by rewrite IH, pool_outside.
  - enough (foldr (fun e n => postings_weight (net quote_sign) (postings e) + n) 0 (applied_events rs) <= 0) by lia. clear.
    induction (applied_events rs) as [|e es IH]; [done|]. cbn [foldr]. pose proof (quote_never_minted e). lia.
Qed.

(** C15. Records stay sound. In a state in which every record of money or stake
    decodes at its key and no balance of stake is overdrawn, the same holds
    after any run of the ledger with the production reducer: it never meets a
    record of its own it cannot read, and nobody withdraws or undelegates more
    than they hold. *)
Theorem records_stay_sound l bs rs l' : bt_sorted (img_entries (state l)) -> sound (img_entries (state l)) ->
  Forall block_fields_typed bs -> apply_blocks bs l = (rs, l') -> sound (img_entries (state l')).
Proof using Type*.
  intros S R F E.
  refine (apply_blocks_sim envelope_typed (fun es (_ : unit) => sound es) (fun u _ => u) (reducer l) _ l bs rs l' tt eq_refl S F R E).
  intros es u e ctx ms Se Te Re Rd. destruct (composite_posted _ _ _ _ Te Rd) as (pss & Fp & _). by eapply posted_sound.
Qed.
End runs.

(** ** A concrete run: a deposit into a vault, a transfer and a stake *)

#[local] Existing Instances sample_hex sample_hex_laws sample_blake3.
Definition stake_payloads : PayloadWire := {|
  decode_non_user_order_cancelled _ := None; decode_internal_transfer _ := None; decode_account_class_transfer _ := None;
  decode_vault_created _ := None; decode_vault_distribution _ := None; decode_reward_claimed _ := None;
  decode_spot_genesis_applied _ := None; decode_staking_deposit _ := Some (to_api_string alice, "5"%string);
  decode_staking_withdrawal_queued _ := None; decode_staking_withdrawal_completed _ := None; decode_staking_delegated _ := None;
  decode_staking_undelegated _ := None; decode_validator_reward_paid _ := None |}.
#[local] Existing Instance stake_payloads.

Definition deposit_event : Envelope := desk_event 5 0 "e0" [] [alice] (Payload.VaultDeposit "vault" alice five two).
Definition transfer_event : Envelope := desk_event 5 1 "e1" [] [alice; bob] (Payload.PerpTransfer alice bob two).
Definition stake_event : Envelope := desk_event 6 0 "e2" [] [alice] (Payload.StakingDeposit [x01]).
Definition money_block := desk_block 5 [deposit_event; transfer_event].
Definition stake_block := desk_block 6 [stake_event].

(** The wire forms the run needs to print. *)
Definition money_account_json : AccountJson := {|
  json_fact := table_json [
    to_wire (mkFact "e0" VaultDeposit [alice] [] None (Some "vault"%string) 5 (replicate 32 x09) ACCOUNT_VERSION);
    to_wire (mkFact "e1" PerpTransfer [alice; bob] [] None None 5 (replicate 32 x09) ACCOUNT_VERSION)];
  json_quantity_flow := table_json [to_wire (mkQuantityFlow alice (VaultShares "vault") two (nothing 1) "e0" 5)];
  json_quote_flow := table_json [
    to_wire (mkQuoteFlow alice (VaultPrincipal "vault") (nothing 0) five "e0" 5);
    to_wire (mkQuoteFlow alice DefaultPerpQuote (nothing 1) two "e1" 5);
    to_wire (mkQuoteFlow bob DefaultPerpQuote two (nothing 1) "e1" 5)];
  json_vault_principal := table_json [to_wire (mkVaultPrincipal "vault" five (nothing 0) "e0" 5)];
  json_vault_share := table_json [to_wire (mkVaultShare "vault" two (nothing 1) "e0" 5)];
  json_subaccount := table_json [];
  json_vault_relation := table_json [to_wire (mkVaultRelation alice "vault" "e0" "e0" 5 5)];
  json_account_mode := table_json [];
  json_mode := table_json [];
|}.
Definition money_staking_json : StakingJson := {|
  json_staking_fact := table_json [mkStakingFactWire STAKING_FACT_SCHEMA "e2" (as_wire_name StakingDeposit) (to_api_string alice)
    None 6 (hex_encode (replicate 32 x09)) STAKING_VERSION];
  json_balance := table_json [to_wire (mkLiquid alice five (nothing 0) "e2" 6)];
  json_delegation := table_json [];
|}.
#[local] Instance money_json : StateJson :=
  Build_StateJson no_market_json no_order_json no_trade_json no_position_json no_episode_json no_liquidation_json no_activity_json
    (Build_FlowJson money_account_json money_staking_json no_validator_json no_vault_json).
#[local] Instance money_json_laws : FlowJsonLaws.
Proof. split; try split; apply table_json_laws. Qed.

Definition money_run := apply_blocks [money_block; stake_block] desk_ledger.

Lemma money_blocks_typed : Forall block_fields_typed [money_block; stake_block].
Proof. repeat constructor; vm_compute; (reflexivity || discriminate). Qed.

Lemma flows_exact_witness :
  length (applied_events money_run.1) = 3%nat /\
  total (fun b => if bool_decide (b = PrincipalBook "vault") then (1, -1) else (0, 0)) (img_entries (state money_run.2)) = 5 * 10 ^ 38.
Proof.
  split; [vm_compute; reflexivity|].
  rewrite (flows_exact _ desk_ledger [money_block; stake_block] money_run.1 money_run.2);
    [vm_compute; reflexivity|constructor|exact money_blocks_typed|vm_compute; reflexivity].
Defined.

Lemma transfers_conserve_witness :
  total (net (pool_sign (SharesPool "vault"))) (img_entries (state money_run.2)) = 0 /\
  total (net (pool_sign (StakePool alice))) (img_entries (state money_run.2)) = 5 * 10 ^ 38 /\
  total (net quote_sign) (img_entries (state money_run.2)) <= 0.
Proof.
  destruct (transfers_conserve desk_ledger [money_block; stake_block] money_run.1 money_run.2) as [P Q];
    [constructor|exact money_blocks_typed|vm_compute; reflexivity|].
  split_and!; [rewrite P; vm_compute; reflexivity..|exact Q].
Defined.

Lemma records_stay_sound_witness : length (img_entries (state money_run.2)) = 11%nat /\ sound (img_entries (state money_run.2)).
Proof.
  split; [vm_compute; reflexivity|].
  apply (records_stay_sound desk_ledger [money_block; stake_block] money_run.1 money_run.2);
    [constructor|intros k l E; discriminate E|exact money_blocks_typed|vm_compute; reflexivity].
Defined.
