(* ===== verification/Trail.v ===== *)
(** * The audit trail

    The production reducer keeps a fact of what each event did under namespaces
    of their own. A fact is put only where there is none, so facts are never
    changed or lost, and every applied event of an account has its own. *)

From Stdlib Require Import Strings.Byte Strings.String.
From stdpp Require Import sorting sets.
From S2P Require Import Prelude Ordering BTreeMap Bytes FixedPoint Ids Store StateImage Publication Blocks Ledger Payloads Records Opaque Markets MarketRegistry Accounts Orders Activations Trades Positions Episodes Liquidations Staking Vaults Flows FlowEvents Composite Samples Namespaces Production.

Definition fact_namespaces : list string :=
  [MARKET_FACT_NAMESPACE; ORDER_FACT_NAMESPACE; ORDER_TRANSITION_NAMESPACE; TRADE_NAMESPACE; TRADE_V2_NAMESPACE;
   PARTICIPANT_V2_NAMESPACE; RECONCILIATION_V2_NAMESPACE; FACT_NAMESPACE; POSITION_EFFECT_NAMESPACE; UNRESOLVED_NAMESPACE;
   EPISODE_EFFECT_NAMESPACE; START_FACT_NAMESPACE; FILL_FACT_NAMESPACE; BACKSTOP_FACT_NAMESPACE; SETTLEMENT_FACT_NAMESPACE;
   ac_fact_namespace trigger_activity; ac_transition_namespace trigger_activity; ac_fact_namespace twap_activity;
   ac_transition_namespace twap_activity; VAULT_FACT_NAMESPACE; STAKING_FACT_NAMESPACE; VALIDATOR_FACT_NAMESPACE].

(** A put that changes no fact. *)
Definition appended (st : Entries) (m : StateMutation) : Prop :=
  match m with Put k _ => namespace k ∈ fact_namespaces -> bt_get k st = None | Delete _ => False end.

Definition no_fact (ns : string) : bool := bool_decide (ns ∉ fact_namespaces).

Lemma keyed_appended st ns k l : keyed ns k -> no_fact ns = true -> appended st (Put k l).
Proof. intros <- N%bool_decide_eq_true I. done. Qed.
Lemma placed_appended nss st m : placed nss m -> forallb no_fact nss = true -> appended st m.
Proof.
  intros (k & l & -> & _ & I) F. rewrite forallb_forall in F. apply list_elem_of_In, F in I. by eapply keyed_appended.
Qed.
Lemma placed_all_appended nss st ms : Forall (placed nss) ms -> forallb no_fact nss = true -> Forall (appended st) ms.
Proof. intros P F. eapply Forall_impl; [exact P|]. intros m Pm. by eapply placed_appended. Qed.
Lemma absent_appended (st : Entries) k l : bt_get k st = None -> appended st (Put k l).
Proof. by intros ? _. Qed.

(** Puts where the code has checked that there is nothing, or under other namespaces. *)
Ltac append_one :=
  match goal with
  | C : bt_contains ?k ?st = false |- appended ?st (Put ?k _) => apply absent_appended, bt_contains_false; exact C
  | C : bt_get ?k _ = None |- appended _ (Put ?k _) => apply absent_appended; exact C
  | K : _ = Ok ?k |- appended _ (Put ?k _) =>
      first [ eapply (keyed_appended _ _ _ _ (framed_keyed _ _ _ K)) | eapply (keyed_appended _ _ _ _ (order_keyed _ _ _ K))
            | eapply (keyed_appended _ _ _ _ (identity_keyed _ _ _ _ _ _ _ K)) | eapply (keyed_appended _ _ _ _ (trade_keyed _ _ _ K))
            | eapply (keyed_appended _ _ _ _ (checked_keyed _ _ _ _ K)) | eapply (keyed_appended _ _ _ _ (proj1 (participant_key_Ok _ _ _ _ K))) ]; vm_compute; reflexivity
  end.
Ltac split_absent := repeat match goal with C : _ || _ = false |- _ => apply orb_false_iff in C as [? ?] end.
Ltac append := split_absent; repeat (apply Forall_cons_2; [append_one|]); apply Forall_nil_2.

Section reducers.
Context `{Hex} `{Blake3} `{PayloadWire} `{StateJson}.
Implicit Types (st : Entries) (e : Envelope) (ms : list StateMutation).

Lemma market_appended st e ms : market_reduce st e = Ok ms -> Forall (appended st) ms.
Proof using Type.
  unfold market_reduce, market_mutations, create_dex, create_asset, create_market, change_metadata, change_status, change_cap,
    change_margin_table, update_oracle, update_funding, create_outcome, resolve_outcome, current_market, market_put.
  intros E. open_steps; append.
Qed.
Lemma order_appended st e ms : order_reduce st e = Ok ms -> Forall (appended st) ms.
Proof using Type.
  intros (u & _ & E)%bind_Ok. unfold reduce_order_event, reduce_rejection, reject_collision, order_put in E.
  destruct (payload e); open_steps; append.
Qed.
Lemma trade1_appended st e ms : trade1_reduce st e = Ok ms -> Forall (appended st) ms.
Proof using Type. unfold trade1_reduce, trade_put. intros E. open_steps; append. Qed.
Lemma prior_v2_absent R W (SR : StateRecord R W) (J : Json W) st k : prior_v2_fact R st k = Ok false -> bt_get k st = None.
Proof using Type. unfold prior_v2_fact. destruct (bt_get k st); [|done]. by intros (r & _ & ?)%bind_Ok. Qed.
Lemma trade2_appended st e ms : trade2_reduce st e = Ok ms -> Forall (appended st) ms.
Proof using Type.
  unfold trade2_reduce, trade_put, reject_prior_v2_facts. intros E. open_steps. split_absent. subst.
  repeat match goal with P : prior_v2_fact _ _ _ = Ok false |- _ => apply prior_v2_absent in P end. append.
Qed.
Lemma account_appended st e ms : account_reduce st e = Ok ms -> Forall (appended st) ms.
Proof using Type.
  intros (key & fact & put & ms' & -> & _ & _ & N & _ & (l & _ & [= <-])%bind_Ok & M & _)%account_reduce_Ok.
  apply Forall_cons_2; [by apply absent_appended|]. by eapply placed_all_appended; [eapply payload_placed|vm_compute; reflexivity].
Qed.

Lemma activity_appended a codec collision st e k o account m prior key l ms : activity_key a m o = Ok key -> no_fact (ac_namespace a) = true ->
  activity_puts a codec collision st e k o account m prior key l = Ok ms -> Forall (appended st) ms.
Proof using Type.
  unfold activity_puts, activity_key. intros K N E. open_steps. split_absent.
  apply Forall_cons_2; [append_one|]. apply Forall_cons_2; [|append]. by eapply keyed_appended; [eapply order_keyed|].
Qed.
Lemma trigger_appended st e ms : trigger_reduce st e = Ok ms -> Forall (appended st) ms.
Proof using Type. unfold trigger_reduce. intros E. open_steps. eapply activity_appended; [eassumption|vm_compute; reflexivity|eassumption]. Qed.
Lemma twap_appended st e ms : twap_reduce st e = Ok ms -> Forall (appended st) ms.
Proof using Type. unfold twap_reduce. intros E. open_steps; (eapply activity_appended; [eassumption|vm_compute; reflexivity|eassumption]). Qed.

Lemma vault_appended st e ms : vault_reduce st e = Ok ms -> Forall (appended st) ms.
Proof using Type.
  unfold vault_reduce, reduce_created, reduce_distribution, vault_fact_put, account_principal. intros E. open_steps;
  repeat (apply Forall_cons_2;
    [first [append_one|eapply placed_appended; [first [by eapply quote_flow_placed|by eapply vault_principal_placed]|vm_compute; reflexivity]]|]);
  apply Forall_nil_2.
Qed.
Lemma staking_appended st e ms : staking_reduce st e = Ok ms -> Forall (appended st) ms.
Proof using Type.
  unfold staking_reduce, reduce_delegation, staking_fact_put, liquid_mutation, pending_mutation, delegation_mutation, staking_put.
  intros E. open_steps; append.
Qed.
Lemma validator_appended st e ms : validator_reduce st e = Ok ms -> Forall (appended st) ms.
Proof using Type. unfold validator_reduce. intros E. open_steps; append. Qed.

(** ** Positions *)

Lemma position_appended st e ms : position_reduce st e = Ok ms -> Forall (appended st) ms.
Proof using Type. unfold position_reduce, position_leg, reject_prior_effect. intros E. open_steps; append. Qed.

Lemma collect_all {E A} (f : A -> result E StateMutation) (P : StateMutation -> Prop) l ms :
  (forall a m, f a = Ok m -> P m) -> collect f l = Ok ms -> Forall P ms.
Proof using Type. intros F C%collect_Ok. induction C; constructor; eauto. Qed.

Lemma stage_leg_appended st e trade leg loaded ms : stage_trade_leg st e trade leg loaded = Ok ms -> Forall (appended st) ms.
Proof using Type.
  intros ([r is_new] & _ & ([[effects episodes] current] & _ & (u & _ & (ps & P & (qs & Q & (key & K%map_err_Ok & (l & _ & [= <-])%bind_Ok)%bind_Ok)%bind_Ok)%bind_Ok)%bind_Ok)%bind_Ok)%bind_Ok.
  apply Forall_app. split; [eapply collect_all; [|exact P]|apply Forall_app; split; [eapply collect_all; [|exact Q]|append]].
  - unfold effect_put, reject_prior_episode_effect. intros a m E. open_steps. append_one.
  - unfold episode_put, episode_key. intros a m (k & Kk%map_err_Ok & (v & _ & (b & _ & [= <-])%bind_Ok)%bind_Ok)%bind_Ok. append_one.
Qed.
Lemma episode_appended st e ms : episode_reduce st e = Ok ms -> Forall (appended st) ms.
Proof using Type.
  unfold episode_reduce, reduce_funding, reject_prior_episode_effect. intros E. destruct (negb _); [done|].
  destruct (payload e); try done; open_steps; try apply Forall_nil_2.
  1,2: unfold episode_effect_key, episode_key in *; append.
  unfold episode_reduce_trade in E. open_steps. apply Forall_app; split; by eapply stage_leg_appended.
Qed.

Lemma reject_record_absent R W (SR : StateRecord R W) (J : Json W) st k invalid collision u :
  reject_record R st k invalid collision = Ok u -> bt_get k st = None.
Proof using Type. unfold reject_record. destruct (bt_get k st); [|done]. by intros (r & _ & ?)%bind_Ok. Qed.
(** The changes to a pair, whose effects the reducer has checked to be new. *)
Lemma secondary_appended st e a m loaded outcome cause scale ms u :
  stage_nontrade_transition e a m loaded outcome cause scale = Ok ms -> validate_episode_secondary_collisions st e ms = Ok u ->
  Forall (appended st) ms.
Proof using Type.
  intros P%nontrade_placed (us & C%collect_Ok & _)%bind_Ok. revert P. induction C as [|m0 v ms us C _ IH]; [constructor|].
  intros [P Ps]%Forall_cons. apply Forall_cons_2; [|by apply IH]. destruct P as (k & l & -> & _ & I). cbn [secondary_collision] in C.
  case_bool_decide as Ek; [by apply reject_record_absent in C; apply absent_appended|].
  assert (forallb (fun ns => bool_decide (ns = EPISODE_EFFECT_NAMESPACE) || no_fact ns) pair_namespaces = true) as F by done.
  rewrite forallb_forall in F. apply list_elem_of_In, F in I. rewrite bool_decide_eq_false_2 in I by done. by eapply keyed_appended.
Qed.
Lemma liquidation_appended st e ms : liquidation_reduce st e = Ok ms -> Forall (appended st) ms.
Proof using Type.
  unfold liquidation_reduce, reduce_start, reduce_fill, reduce_backstop, reduce_settlement, backstop_bundle, updated_process_mutation, put_with.
  intros E. destruct (negb _); [done|]. destruct (payload e); try done; open_steps; cbn [app];
  repeat match goal with R : reject_record _ _ _ _ _ = Ok _ |- _ => apply reject_record_absent in R end;
  repeat first [append_one | by eapply secondary_appended | apply Forall_nil_2 | apply Forall_app; split | apply Forall_cons_2].
Qed.

Lemma child_appended c st e ctx ms : reduce_child c st e ctx = Ok ms -> Forall (appended st) ms.
Proof using Type.
  destruct c; [apply market_appended|apply order_appended|apply trade1_appended|apply trade2_appended|apply account_appended
    |apply position_appended|apply episode_appended|apply liquidation_appended|apply trigger_appended|apply twap_appended|apply vault_appended
    |apply staking_appended|apply validator_appended|].
  intros R%relation_placed. by eapply placed_all_appended.
Qed.
Lemma composite_appended st e ctx ms : composite_reduce st e ctx = Ok ms -> Forall (appended st) ms.
Proof using Type.
  intros (_ & mss & F & ->)%composite_reduce_inv. apply Forall_concat.
  induction F as [|c ms cs mss R _ IH]; constructor; [by eapply child_appended|done].
Qed.
End reducers.

(** ** Runs *)

Section runs.
Context `{HexLaws} `{Blake3} `{PW : PayloadWire} `{SJ : StateJson} `{!FlowJsonLaws}.
Implicit Types (l : CanonicalLedger CanonicalStateReducerV1) (e : Envelope) (st : Entries).

Lemma appended_keeps st ms k v : bt_sorted st -> Forall (appended st) ms -> namespace k ∈ fact_namespaces ->
  bt_get k st = Some v -> bt_get k (put_all st ms) = Some v.
Proof using Type.
  intros S A I G. rewrite put_all_get; [done..|]. eapply Forall_impl; [exact A|].
  intros [k' l'|k'] Am; [|done]. cbn in *. intros ->. by rewrite Am in G.
Qed.

(** C16. The audit trail is append-only. Over any run of the ledger with the
    production reducer, every fact the state holds about a market, an order, a
    trade, an account, a position, an episode, a liquidation, a trigger, a
    TWAP, a vault, a stake or a validator stays there with the bytes it was
    recorded with. *)
Theorem facts_append_only l bs rs l' k v : bt_sorted (img_entries (state l)) ->
  apply_blocks bs l = (rs, l') -> namespace k ∈ fact_namespaces ->
  bt_get k (img_entries (state l)) = Some v -> bt_get k (img_entries (state l')) = Some v.
Proof using Type.
  intros S E I G.
  refine (apply_blocks_sim (fun _ => True) (fun es (_ : unit) => bt_get k es = Some v) (fun u _ => u) (reducer l) _ l bs rs l' tt eq_refl S _ G E);
    [|by apply Forall_true; intros b; apply Forall_true].
  intros es u e ctx ms Se _ Ge R. apply appended_keeps; [done| |done..]. exact (composite_appended es e ctx ms R).
Qed.

(** ** Facts of accounts *)

Definition account_event e : bool := bool_decide (Component.Account ∈ owners e).
(** The state has the fact of an event, and it reads back. *)
Definition fact_kept st e : Prop := exists key v fact,
  account_fact_key (event_id e) = Ok key /\ bt_get key st = Some v /\ fact_from_event e = Ok fact /\ record_decode_at key v = Ok fact.

Lemma put_all_in st ms k v : bt_sorted st -> NoDup (mutation_key <$> ms) -> Put k v ∈ ms -> bt_get k (put_all st ms) = Some v.
Proof using Type.
  intros S N I. apply list_elem_of_split in I as (ms1 & ms2 & ->). rewrite fmap_app in N. apply NoDup_app in N as (_ & _ & N).
  cbn [fmap list_fmap mutation_key] in N. apply NoDup_cons in N as [N _]. unfold put_all. rewrite fold_left_app. cbn [fold_left].
  change (bt_get k (put_all (put_mutation (put_all st ms1) (Put k v)) ms2) = Some v).
  assert (bt_sorted (put_all st ms1)) by by apply put_all_sorted.
  rewrite put_all_get; [by apply bt_get_insert_eq|by apply bt_insert_sorted|].
  apply Forall_forall. intros m I <-. by apply N, list_elem_of_fmap_2.
Qed.

Lemma reduce_keeps_facts st e ctx ms : bt_sorted st -> envelope_typed e -> composite_reduce st e ctx = Ok ms ->
  (account_event e = true -> fact_kept (put_all st ms) e) /\
  (forall e', fact_kept st e' -> fact_kept (put_all st ms) e' /\ (account_event e = true -> event_id e' <> event_id e)).
Proof using Type*.
  intros S T R. pose proof (composite_appended _ _ _ _ R) as A. pose proof (composite_distinct _ _ _ _ R) as N.
  apply composite_reduce_inv in R as (_ & mss & F & ->).
  assert (account_event e = true -> exists key fact v, account_fact_key (event_id e) = Ok key /\ bt_get key st = None /\
    fact_from_event e = Ok fact /\ record_decode_at key v = Ok fact /\ Put key v ∈ concat mss) as P.
  { intros I%bool_decide_eq_true. apply list_elem_of_lookup in I as [i Li]. destruct (Forall2_lookup_l _ _ _ _ _ F Li) as (ms & Lm & R).
    apply account_reduce_Ok in R as (key & fact & put & ms' & -> & _ & K & Nk & Ff & P & _).
    destruct (fact_back _ _ T Ff) as [B Kf]. apply (encode_written _) in P as (v & -> & Dv); [|done|congruence].
    exists key, fact, v. split_and!; [done..|]. apply list_elem_of_In, in_concat. exists (Put key v :: ms').
    split; apply list_elem_of_In; [by eapply list_elem_of_lookup_2|set_solver]. }
  split.
  { intros (key & fact & v & K & _ & Ff & D & I)%P. exists key, v, fact. by rewrite (put_all_in _ _ _ _ S N I). }
  intros e' (k & v & f & K & G & Ff & D). pose proof (framed_key_Ok _ _ _ K) as (_ & Kn & _). split.
  - exists k, v, f. rewrite (appended_keeps _ _ _ v S A); [done| |done]. rewrite Kn. member.
  - intros (key & fact & v' & K' & G' & _)%P Ei. rewrite Ei in K. congruence.
Qed.

(** C13. One fact per event of an account. After any run of the ledger with the
    production reducer the state holds, for every account event of the blocks it
    applied, the fact of that event under its id, with the accounts, markets and
    payload hash of the event, and it reads back; and no two of those events
    share an id, so no event is counted twice. *)
Theorem facts_exact l bs rs l' : bt_sorted (img_entries (state l)) -> Forall block_fields_typed bs ->
  apply_blocks bs l = (rs, l') ->
  let es := List.filter account_event (applied_events rs) in
  NoDup (event_id <$> es) /\ Forall (fact_kept (img_entries (state l'))) es.
Proof using Type*.
  intros S F E es. set (step a e := if account_event e then a ++ [e] else a).
  assert (let a := fold_left step (applied_events rs) [] in
    NoDup (event_id <$> a) /\ Forall (fact_kept (img_entries (state l'))) a) as A.
  { refine (apply_blocks_sim envelope_typed (fun st a => NoDup (event_id <$> a) /\ Forall (fact_kept st) a) step
      (reducer l) _ l bs rs l' [] eq_refl S F _ E); [|by split; constructor].
    intros st a e ctx ms Se Te [N Fk] R. destruct (reduce_keeps_facts st e ctx ms Se Te R) as [Ke Ka]. rewrite Forall_forall in Fk.
    assert (Forall (fact_kept (put_all st ms)) a) as Fa by (apply Forall_forall; intros e' I; by apply Ka, Fk).
    unfold step. destruct (account_event e); [|done]. rewrite fmap_app. split; [|apply Forall_app; split; [done|]; by constructor; [apply Ke|]].
    apply NoDup_app. split_and!; [done| |by apply NoDup_singleton].
    intros i (e' & -> & I)%list_elem_of_fmap [= Ei]%list_elem_of_singleton. by apply (Ka e' (Fk _ I)). }
  assert (forall es a, fold_left step es a = a ++ List.filter account_event es) as Fa.
  { clear. unfold step. induction es as [|e es IH]; intros a; cbn [fold_left List.filter]; [by rewrite app_nil_r|].
    rewrite IH. destruct (account_event e); [by rewrite <- app_assoc|done]. }
  cbv zeta in A. by rewrite Fa in A.
Qed.
End runs.

(** ** The money run leaves its facts *)

#[local] Existing Instances sample_hex sample_hex_laws sample_blake3 stake_payloads money_json money_json_laws.

Lemma facts_exact_witness :
  event_id <$> List.filter account_event (applied_events money_run.1) = ["e0"; "e1"]%string /\
  Forall (fact_kept (img_entries (state money_run.2))) (List.filter account_event (applied_events money_run.1)).
Proof.
  split; [vm_compute; reflexivity|].
  apply (facts_exact desk_ledger [money_block; stake_block] money_run.1 money_run.2);
    [constructor|exact money_blocks_typed|vm_compute; reflexivity].
Defined.

(** The fact of the first event, after the block that follows it. *)
Definition deposit_fact : StateKey := mkKey FACT_NAMESPACE (framed [as_bytes "e0"]).
Definition money_ledger := (apply_blocks [money_block] desk_ledger).2.
Definition stake_run := apply_blocks [stake_block] money_ledger.

Lemma facts_append_only_witness : length (applied_events stake_run.1) = 1%nat /\
  bt_get deposit_fact (img_entries (state stake_run.2)) = bt_get deposit_fact (img_entries (state money_ledger)) /\
  bt_get deposit_fact (img_entries (state money_ledger)) <> None.
Proof.
  split; [vm_compute; reflexivity|].
  destruct (bt_get deposit_fact (img_entries (state money_ledger))) as [v|] eqn:G; [|vm_compute in G; discriminate G].
  split; [|done]. apply (facts_append_only money_ledger [stake_block] stake_run.1 stake_run.2); [..|exact G].
  - vm_compute. repeat constructor.
  - vm_compute. reflexivity.
  - member.
Defined.
