(* ===== verification/Coherence.v ===== *)
(** * Positions and their episodes agree

    The production reducer keeps the quantity of a position and the episode it
    belongs to in two records that different components write. The check the
    episode component makes of every block keeps the two in step: after any
    run a position that is known and not flat belongs to an open episode of
    its own, a flat position to none, and an unknown one is interrupted. *)

From Stdlib Require Import Strings.Byte Strings.String.
From stdpp Require Import sorting sets.
From S2P Require Import Prelude Ordering BTreeMap Bytes FixedPoint Ids Store StateImage Publication Blocks Ledger Payloads Records Opaque Markets Accounts Trades Positions Episodes Liquidations Flows FlowEvents Composite Samples TradeRun Namespaces.

(** ** Keys of a pair *)

Lemma key_frame_back x rest : 0 < zlen x < 256 ^ 8 -> decode_key_frame (frame 8 x ++ rest) = Ok (x, rest).
Proof.
  intros B. unfold decode_key_frame, frame, KEY_FRAME_BYTES. rewrite <- app_assoc.
  assert (length (to_be_bytes 8 (zlen x)) = 8%nat) as L by apply to_be_bytes_length.
  rewrite take_app_length', drop_app_length' by done. rewrite from_to_be_bytes by (cbn; lia).
  unfold zlen in *. rewrite !length_app, L.
  destruct (Z.ltb_spec (Z.of_nat (8 + (length x + length rest))) 8); [lia|].
  destruct (Z.eqb_spec (Z.of_nat (length x)) 0); [lia|].
  destruct (Z.ltb_spec (Z.of_nat (length x + length rest)) (Z.of_nat (length x))); [lia|].
  by rewrite Nat2Z.id, take_app_length, drop_app_length.
Qed.
Lemma key_frame_empty rest : decode_key_frame (frame 8 [] ++ rest) = Err InvalidRecordKey.
Proof.
  unfold decode_key_frame, frame, KEY_FRAME_BYTES. rewrite app_nil_r.
  assert (length (to_be_bytes 8 (zlen (A := byte) [])) = 8%nat) as L by apply to_be_bytes_length.
  rewrite take_app_length', drop_app_length' by done. rewrite from_to_be_bytes by (by split; vm_compute).
  by destruct (_ <? _).
Qed.
Lemma key_frame_exact x rest y rest' : zlen x < 256 ^ 8 -> decode_key_frame (frame 8 x ++ rest) = Ok (y, rest') -> y = x /\ rest' = rest.
Proof.
  intros B. destruct x as [|b x]; [by rewrite key_frame_empty|]. rewrite key_frame_back by (unfold zlen in *; cbn in *; lia).
  by intros [= <- <-].
Qed.

Lemma account_market_key_back ns a m k a' m' : account_market_key ns a m = Ok k -> decode_account_market_key k = Ok (a', m') ->
  a' = a /\ m' = m.
Proof.
  intros (_ & _ & B & F)%framed_key_Ok. unfold decode_account_market_key. rewrite B. clear B. cbn [fmap list_fmap concat].
  rewrite Forall_cons, Forall_singleton in F. destruct F as [Fa Fm].
  intros ([x rest] & [-> ->]%key_frame_exact & D)%bind_Ok; [|done]. destruct (negb _); [done|].
  apply bind_Ok in D as ([y rest'] & [-> ->]%key_frame_exact & D); [|done]. destruct (negb _); [done|]. destruct (negb _); [done|].
  apply bind_Ok in D as (v & [V _]%map_err_Ok%string_id_new_inv & [= <- <-]). split; [done|].
  apply as_bytes_inj. rewrite <- V. unfold as_bytes. apply String.list_byte_of_string_of_list_byte.
Qed.
Lemma account_market_key_inj ns ns' a m a' m' k : account_market_key ns a m = Ok k -> account_market_key ns' a' m' = Ok k ->
  a' = a /\ m' = m.
Proof. intros K K'. destruct (framed_key_inj _ _ _ _ _ K K') as [_ [= -> E%as_bytes_inj]]. done. Qed.

Section coherence.
Context `{Hex} `{Blake3} `{PositionJson} `{EpisodeJson}.
Implicit Types (st before after : Entries) (a : Address) (m : MarketId).

(** ** What a pair says *)

(** A record that the state holds under a key and that reads back. *)
Definition holds {R W} `{StateRecord R W} `{Json W} st (key : StateKey) (r : R) : Prop :=
  exists l, bt_get key st = Some l /\ record_decode_at key l = Ok r.

Lemma holds_unique {R W} `{StateRecord R W} `{Json W} st key (r r' : R) : holds st key r -> holds st key r' -> r = r'.
Proof using Type. intros (l & G & D) (l' & G' & D'). congruence. Qed.
Lemma holds_key {R W} `{StateRecord R W} `{Json W} st key (r : R) : holds st key r -> rec_key r = Ok key.
Proof using Type. intros (l & _ & (_ & K)%record_decode_at_inv). done. Qed.
Lemma holds_get {R W} `{StateRecord R W} `{Json W} st st' key (r : R) : bt_get key st' = bt_get key st -> holds st key r -> holds st' key r.
Proof using Type. intros E (l & G & D). exists l. by rewrite E. Qed.
Lemma load_record_Ok {R W} `{StateRecord R W} `{Json W} st key err (o : option R) : load_record st key err = Ok o ->
  match o with Some r => holds st key r | None => bt_get key st = None end.
Proof using Type.
  unfold load_record, holds. destruct (bt_get key st) as [l|]; [|by intros [= <-]].
  intros (r & D%map_err_Ok & [= <-])%bind_Ok. by exists l.
Qed.

(** The episode a position belongs to. *)
Record open_episode st a m (id : PositionEpisodeId) (r : PositionEpisodeRecordV1) : Prop := {
  oe_held : exists key, episode_key id = Ok key /\ holds st key r;
  oe_account : ep_account_id r = a;
  oe_market : ep_market_id r = m;
  oe_open : ep_status r = EpisodeStatus.Open;
}.

(** The two records of an account in a market, under their keys. *)
Inductive pair_of st (qk ck : StateKey) a m : LoadedPair.t -> Prop :=
| pair_absent : bt_get qk st = None -> bt_get ck st = None -> pair_of st qk ck a m LoadedPair.Absent
| pair_flat q c v : holds st qk q -> holds st ck c -> pq_known_quantity q = Some v -> Decimal.raw v = 0 ->
    ec_attribution_resolution c = Attribution.NoOpenEpisode -> ec_episode_id c = None -> pair_of st qk ck a m LoadedPair.NoOpenEpisode
| pair_open q c v id r : holds st qk q -> holds st ck c -> pq_known_quantity q = Some v -> Decimal.raw v <> 0 ->
    ec_attribution_resolution c = Attribution.Resolved -> ec_episode_id c = Some id -> open_episode st a m id r ->
    pair_of st qk ck a m (LoadedPair.Resolved r v)
| pair_unknown q c : holds st qk q -> holds st ck c -> pq_known_quantity q = None ->
    ec_attribution_resolution c = Attribution.Interrupted -> ec_episode_id c = None -> pair_of st qk ck a m LoadedPair.Interrupted.

Definition coherent st a m : Prop := forall qk ck, quantity_key a m = Ok qk -> episode_current_key a m = Ok ck ->
  exists loaded, pair_of st qk ck a m loaded.

Lemma load_pair_Ok errors st a m qk ck anchor loaded : quantity_key a m = Ok qk -> episode_current_key a m = Ok ck ->
  load_pair errors st a m = Ok (anchor, loaded) -> pair_of st qk ck a m loaded.
Proof using Type.
  intros Q C. unfold load_pair. rewrite Q, C. cbn [map_err]. rewrite !bind_of_Ok.
  intros (q & Lq%load_record_Ok & (c & Lc%load_record_Ok & E)%bind_Ok)%bind_Ok.
  destruct q as [q|], c as [c|]; try done; [|injection E as <- <-; by apply pair_absent].
  apply bind_Ok in E as (loaded' & E & [= <- <-]).
  destruct (pq_known_quantity q) as [v|] eqn:Eq, (ec_attribution_resolution c) eqn:Ec, (ec_episode_id c) as [id|] eqn:Ei; try done.
  - destruct (Z.eqb_spec (Decimal.raw v) 0); [|done]. injection E as <-. by eapply pair_flat.
  - destruct (Z.eqb_spec (Decimal.raw v) 0); [done|].
    apply bind_Ok in E as (key & K%map_err_Ok & (l & G%ok_or_Ok & (r & D%map_err_Ok & E)%bind_Ok)%bind_Ok).
    destruct (negb _ || _ || _) eqn:B; [done|]. injection E as <-. bool_to_prop.
    eapply (pair_open _ _ _ _ _ q c v id r); try done. split; [|done..]. exists key. split; [done|]. by exists l.
  - injection E as <-. by eapply pair_unknown.
Qed.

Lemma final_pair st a m qk ck u : quantity_key a m = Ok qk -> episode_current_key a m = Ok ck ->
  validate_final_episode_pair st a m = Ok u -> exists loaded, pair_of st qk ck a m loaded.
Proof using Type.
  intros Q C. unfold validate_final_episode_pair. rewrite Q, C. cbn [map_err]. rewrite !bind_of_Ok.
  intros (q & Lq%load_record_Ok & (c & Lc%load_record_Ok & (v & V & E)%bind_Ok)%bind_Ok)%bind_Ok.
  destruct q as [q|], c as [c|]; try done; [|eexists; by apply pair_absent].
  apply map_err_Ok, bind_Ok in V as (w & _ & V).
  destruct (pq_known_quantity q) as [p|] eqn:Eq, (ec_attribution_resolution c) eqn:Ec, (ec_episode_id c) as [id|] eqn:Ei; try done.
  - destruct (Z.eqb_spec (Decimal.raw p) 0); [|done]. eexists. by eapply pair_flat.
  - destruct (Z.eqb_spec (Decimal.raw p) 0); [done|]. apply bind_Ok in V as (key & K & (l & G%ok_or_Ok & (r & D & V)%bind_Ok)%bind_Ok).
    destruct (account_market_key_inj _ _ _ _ _ _ _ (holds_key _ _ _ Lc) C) as [Ea Em]. unfold check in V. destruct (_ && _) eqn:B; [|done]. bool_to_prop.
    eexists. eapply (pair_open _ _ _ _ _ q c p id r); try done. split; [|congruence..]. exists key. split; [done|]. by exists l.
  - eexists. by eapply pair_unknown.
Qed.

(** ** What the check of a block looks at *)

Implicit Types (t : btmap StateKey (Address * MarketId)).

Definition touched_wf t : Prop := bt_sorted t /\ forall k a m, bt_get k t = Some (a, m) -> quantity_key a m = Ok k.
Definition marked t a m : Prop := exists k, quantity_key a m = Ok k /\ bt_get k t <> None.
Definition grows t t' : Prop := (touched_wf t -> touched_wf t') /\ forall a m, marked t a m -> marked t' a m.

Lemma grows_refl t : grows t t.
Proof using Type. done. Qed.
Lemma grows_trans t1 t2 t3 : grows t1 t2 -> grows t2 t3 -> grows t1 t3.
Proof using Type. intros [W1 M1] [W2 M2]. split; auto. Qed.

Lemma insert_touched_Ok t a m t' : insert_touched_pair t a m = Ok t' -> grows t t' /\ marked t' a m.
Proof using Type.
  intros (k & K%map_err_Ok & [= <-])%bind_Ok. destruct (bt_contains k t) eqn:C.
  { split; [done|]. exists k. split; [done|]. apply bt_contains_true in C as [v ->]. done. }
  split; [split|].
  - intros [S W]. split; [by apply bt_insert_sorted|]. intros k' a' m'. rewrite bt_get_insert, eqb_decide. case_bool_decide as E; [|apply W].
    subst. by intros [= <- <-].
  - intros a' m' (k' & K' & G). exists k'. split; [done|]. rewrite bt_get_insert. by destruct (eqb k' k).
  - exists k. split; [done|]. by rewrite bt_get_insert_eq.
Qed.

Lemma touch_all_Ok step t delta t' : (forall t1 d t2, step t1 d = Ok t2 -> grows t1 t2) -> touch_all step t delta = Ok t' ->
  grows t t' /\ forall d, d ∈ delta -> exists t1 t2, step t1 d = Ok t2 /\ grows t2 t'.
Proof using Type.
  intros G. revert t. induction delta as [|d delta IH]; intros t E; cbn in E.
  { injection E as <-. split; [done|]. by intros d ?%elem_of_nil. }
  apply bind_Ok in E as (t1 & S & E). destruct (IH _ E) as [G1 M]. split; [eapply grows_trans; [by eapply G|done]|].
  intros d' [->|I]%elem_of_cons; [by exists t, t1|by apply M].
Qed.

Lemma touch_current_Ok R W (SR : StateRecord R W) (J : Json W) ns err t d t' : touch_current R ns err t d = Ok t' ->
  grows t t' /\ forall a m, account_market_key ns a m = Ok (delta_key d) -> marked t' a m.
Proof using Type.
  unfold touch_current. case_bool_decide as N; cbn [negb].
  - intros ([a m] & D%map_err_Ok & (vs & _ & [G M]%insert_touched_Ok)%bind_Ok)%bind_Ok. split; [done|].
    intros a' m' K. by destruct (account_market_key_back _ _ _ _ _ _ K D) as [-> ->].
  - intros [= <-]. split; [done|]. intros a m K. by apply framed_keyed in K.
Qed.

Lemma touch_values_Ok key t vs t' : touch_episode_values key t vs = Ok t' ->
  grows t t' /\ forall l r, l ∈ vs -> record_decode_at key l = Ok r -> marked t' (ep_account_id r) (ep_market_id r).
Proof using Type.
  revert t. induction vs as [|v vs IH]; intros t E; cbn in E.
  { injection E as <-. split; [done|]. by intros l r ?%elem_of_nil. }
  apply bind_Ok in E as (r & D%map_err_Ok & (t1 & [G1 M1]%insert_touched_Ok & [G2 M2]%IH)%bind_Ok).
  split; [by eapply grows_trans|]. intros l r' [->|I]%elem_of_cons D'; [|by eapply M2].
  rewrite D' in D. injection D as ->. by apply G2.
Qed.
Lemma touch_episode_Ok t d t' : touch_episode t d = Ok t' ->
  grows t t' /\ forall l r, namespace (delta_key d) = EPISODE_NAMESPACE -> l ∈ delta_values d -> record_decode_at (delta_key d) l = Ok r ->
    marked t' (ep_account_id r) (ep_market_id r).
Proof using Type.
  unfold touch_episode. case_bool_decide as N; cbn [negb]; [|by intros [= <-]].
  intros (t1 & [G M]%touch_values_Ok & E)%bind_Ok. destruct (is_empty _); [done|]. injection E as <-. split; [done|]. eauto.
Qed.

Lemma validate_touched_Ok st t a m u : touched_wf t -> marked t a m -> validate_touched st t = Ok u ->
  exists v, validate_final_episode_pair st a m = Ok v.
Proof using Type.
  intros [S W] (k & K & G) V. destruct (bt_get k t) as [[a' m']|] eqn:Gk; [|done].
  destruct (account_market_key_inj _ _ _ _ _ _ _ K (W _ _ _ Gk)) as [-> ->]. apply bt_get_Some in Gk as (k' & _ & Gk). clear -Gk V.
  induction t as [|[k1 [a1 m1]] t IH]; [by apply elem_of_nil in Gk|]. cbn in V. apply bind_Ok in V as (v & V1 & V2).
  apply elem_of_cons in Gk as [[= -> -> ->]|Gk]; [by exists v|by apply IH].
Qed.

(** ** One block *)

Lemma validated_pairs st delta u : validate_episode_block_delta st delta = Ok u ->
  let checked a m := exists v, validate_final_episode_pair st a m = Ok v in
  forall d, d ∈ delta ->
    (forall a m, quantity_key a m = Ok (delta_key d) -> checked a m) /\
    (forall a m, episode_current_key a m = Ok (delta_key d) -> checked a m) /\
    (forall l r, namespace (delta_key d) = EPISODE_NAMESPACE -> block_start_value d = Some l -> record_decode_at (delta_key d) l = Ok r ->
       checked (ep_account_id r) (ep_market_id r)).
Proof using Type.
  intros (t1 & E1 & (t2 & E2 & (t3 & E3 & V)%bind_Ok)%bind_Ok)%bind_Ok checked d I.
  apply touch_all_Ok in E1 as [G1 M1]; [|intros ? ? ? [? _]%touch_current_Ok; done].
  apply touch_all_Ok in E2 as [G2 M2]; [|intros ? ? ? [? _]%touch_current_Ok; done].
  apply touch_all_Ok in E3 as [G3 M3]; [|intros ? ? ? [? _]%touch_episode_Ok; done].
  assert (touched_wf t3) as W by (apply G3, G2, G1; split; [constructor|done]).
  assert (forall a m, marked t3 a m -> checked a m) as C by (intros; by eapply validate_touched_Ok).
  split_and!.
  - intros a m K. destruct (M1 _ I) as (x & y & S & G). apply C, G3, G2, G. by apply (touch_current_Ok _ _ _ _ _ _ _ _ _ S).
  - intros a m K. destruct (M2 _ I) as (x & y & S & G). apply C, G3, G. by apply (touch_current_Ok _ _ _ _ _ _ _ _ _ S).
  - intros l r N B D. destruct (M3 _ I) as (x & y & S & G). apply C, G. apply (proj2 (touch_episode_Ok _ _ _ S) l r); [done| |done].
    unfold delta_values. rewrite B. cbn. by constructor.
Qed.

Lemma episode_key_namespace id k : episode_key id = Ok k -> namespace k = EPISODE_NAMESPACE.
Proof using Type. unfold episode_key. apply checked_keyed. Qed.

Lemma validated_coherent before after ms view u : validate_episode_block_delta after view = Ok u -> view_exact before after ms view ->
  (forall k, k ∉ delta_key <$> view -> bt_get k after = bt_get k before) ->
  (forall a m, coherent before a m) -> forall a m, coherent after a m.
Proof using Type.
  intros V X U C a m qk ck Q Ck. destruct (C a m qk ck Q Ck) as [loaded P]. pose proof (validated_pairs _ _ _ V) as T. cbv zeta in T.
  destruct (decide (qk ∈ delta_key <$> view)) as [(d & -> & I)%list_elem_of_fmap|Nq].
  { destruct (T _ I) as (T1 & _). destruct (T1 _ _ Q) as [v Va]. by eapply final_pair. }
  destruct (decide (ck ∈ delta_key <$> view)) as [(d & -> & I)%list_elem_of_fmap|Nc].
  { destruct (T _ I) as (_ & T2 & _). destruct (T2 _ _ Ck) as [v Va]. by eapply final_pair. }
  assert (forall q, holds before qk q -> holds (R := PositionQuantityCurrentRecordV1) after qk q) as Hq by (intros q; by apply holds_get, U).
  assert (forall c, holds before ck c -> holds (R := PositionEpisodeCurrentRecordV1) after ck c) as Hc by (intros c; by apply holds_get, U).
  destruct P as [Gq Gc|q c v|q c v id r Lq Lc Eq Nv Ec Ei [(ek & Ek & He) Ea Em Eo]|q c].
  - exists LoadedPair.Absent. apply pair_absent; by rewrite U.
  - eexists. eapply (pair_flat _ _ _ _ _ q c v); eauto.
  - destruct (decide (ek ∈ delta_key <$> view)) as [(d & -> & I)%list_elem_of_fmap|Ne].
    + destruct He as (l & G & D). destruct (T _ I) as (_ & _ & T3). destruct X as [_ _ X]. destruct (X _ I) as [Bs _].
      destruct (T3 l r) as [w Va]; [by eapply episode_key_namespace|by rewrite Bs|done|]. rewrite Ea, Em in Va. by eapply final_pair.
    + eexists. eapply (pair_open _ _ _ _ _ q c v id r); eauto. split; [|done..]. exists ek. split; [done|]. eapply holds_get; [by apply U|done].
  - eexists. eapply (pair_unknown _ _ _ _ _ q c); eauto.
Qed.
End coherence.

(** ** Runs *)

Section runs.
Context `{Hex} `{Blake3} `{PW : PayloadWire} `{SJ : StateJson}.
Implicit Types (l : CanonicalLedger CanonicalStateReducerV1).

Lemma fanout_component validate cs c u : fanout_all_components cs validate = Ok u -> c ∈ cs -> exists v, validate c = Ok v.
Proof using Type.
  induction cs as [|c' cs IH]; [by intros _ ?%elem_of_nil|]. intros (v & V & F)%bind_Ok [->|I]%elem_of_cons; [by exists v|by apply IH].
Qed.

(** C12. Positions and episodes agree. If in the state of a ledger with the
    production reducer every account and market has no records of a position at
    all, or a known quantity other than zero with an open episode of that account
    and market, or a quantity of zero with no open episode, or an unknown
    quantity with an interrupted episode, then the same holds after any run:
    no block that would break the pairing is ever applied. *)
Theorem positions_coherent l bs rs l' : ledger_inv l -> Forall block_typed bs -> apply_blocks bs l = (rs, l') ->
  (forall a m, coherent (img_entries (state l)) a m) -> forall a m, coherent (img_entries (state l')) a m.
Proof using Type.
  intros L B A. refine (apply_blocks_validated (fun st => forall a m, coherent st a m) (reducer l) l bs rs l' _ eq_refl L B A).
  intros before after ms view ctx V X U C. destruct (fanout_component _ _ Component.PositionEpisode _ V) as [v Ve]; [member|].
  exact (validated_coherent before after ms view v Ve X U C).
Qed.
End runs.

(** ** The trade run keeps its pairs *)

#[local] Existing Instances sample_hex short_blake3 no_payloads trade_state_json.

Lemma market_ledger_coherent a m : coherent (img_entries (state market_ledger)) a m.
Proof.
  intros qk ck Q%framed_keyed C%framed_keyed. exists LoadedPair.Absent.
  assert (forall k, namespace k <> MARKET_NAMESPACE -> bt_get k (img_entries (state market_ledger)) = None) as N.
  { intros k Nk. destruct (bt_get k (img_entries (state market_ledger))) as [v|] eqn:G; [|done].
    apply bt_get_Some in G as (k' & M & I). apply cmp_eq_leibniz in M as <-.
    apply list_elem_of_singleton in I as [= -> _]. by destruct Nk. }
  apply pair_absent; apply N; [rewrite Q|rewrite C]; member.
Qed.

Lemma positions_coherent_witness :
  length (applied_blocks trade_run.1) = 1%nat /\ coherent (img_entries (state trade_run.2)) alice "BTC".
Proof.
  split; [vm_compute; reflexivity|].
  apply (positions_coherent market_ledger [trade_block] trade_run.1 trade_run.2);
    [apply market_ledger_inv|apply trade_block_typed|vm_compute; reflexivity|apply market_ledger_coherent].
Defined.
