(* ===== verification/Balance.v ===== *)
(** * Episodes balance

    An episode records the position it was opened with and what was bought and
    sold since. The file shows that the production reducer keeps these amounts
    exact: along any run the position of an open episode is what it was opened
    with plus what was bought minus what was sold, and in an episode closed by a
    trade they cancel out. *)

From Stdlib Require Import Strings.Byte Strings.String.
From stdpp Require Import sorting sets.
From S2P Require Import Prelude Ordering BTreeMap Bytes FixedPoint Notional Ids Store StateImage Publication Blocks Ledger Payloads Records Opaque Markets Accounts Trades Positions Episodes Liquidations Flows FlowEvents Composite Samples TradeRun Namespaces Production Trail Coherence.

(** ** Amounts *)

Lemma rescale_up_atoms d s r : Decimal.wf d -> 0 <= s -> checked_rescale_up d s = Ok r ->
  Decimal.wf r /\ Decimal.scale r = s /\ atoms r = atoms d.
Proof.
  intros W P (u & V%validate_scale_inv & E)%bind_Ok. destruct (Z.ltb_spec s (Decimal.scale d)); [done|].
  apply rescale_atoms in E; [done..|lia].
Qed.
Lemma eq_atoms a b : Decimal.wf a -> Decimal.wf b -> Decimal.eq a b = true -> atoms a = atoms b.
Proof.
  intros Wa Wb E. destruct (decimal_eq_ord_spec a b Wa Wb) as (_ & Q & _). apply Q in E.
  change (Decimal.numeric_cmp a b = Eq) in E. rewrite cmp_atoms in E by done. by apply Z.compare_eq.
Qed.
Lemma sub_atoms a b r : Decimal.wf a -> Decimal.wf b -> Decimal.checked_sub a b = Ok r ->
  Decimal.wf r /\ atoms r = atoms a - atoms b.
Proof.
  intros Wa Wb E. apply checked_sub_Ok in E as (W & Sa & Sb & Er); [|done..]. split; [done|].
  unfold atoms. rewrite Sa, Sb, Er. lia.
Qed.
Lemma add_quantities_atoms a b r : Decimal.wf a -> Decimal.wf b -> add_quantities a b = Ok r ->
  Decimal.wf r /\ atoms r = atoms a + atoms b.
Proof.
  intros Wa Wb (a' & A%map_err_Ok & (b' & B%map_err_Ok & E%map_err_Ok)%bind_Ok)%bind_Ok.
  destruct (Wa) as [_ Sa], (Wb) as [_ Sb].
  apply rescale_atoms in A as (Wa' & _ & Aa), B as (Wb' & _ & Ab); [|done|lia|done|lia].
  apply add_atoms in E as [Wr Ar]; [|done..]. split; [done|lia].
Qed.
Lemma zero_atoms s : 0 <= s <= MAX_DECIMAL_SCALE -> Decimal.wf (Decimal.mk 0 s) /\ atoms (Decimal.mk 0 s) = 0.
Proof. intros B. split; [split; [by split; vm_compute|done]|done]. Qed.
Lemma raw_zero_atoms d : Decimal.raw d = 0 -> atoms d = 0.
Proof. unfold atoms. by intros ->. Qed.

(** ** The legs of a trade *)

(** What a side of a trade adds to a position. *)
Definition signed (role : TradeParticipantRoleV1) (n : Z) : Z := match role with Buyer => n | Seller => - n end.

Record leg_ok (scale : Z) (fill : Quantity) (leg : ValidatedTradeLeg) : Prop := {
  lo_start : Decimal.wf (leg_start leg) /\ Decimal.scale (leg_start leg) = scale;
  lo_result : Decimal.wf (leg_result leg) /\ Decimal.scale (leg_result leg) = scale;
  lo_moved : Decimal.raw (leg_result leg) = Decimal.raw (leg_start leg) + signed (leg_role leg) (Decimal.raw fill);
}.
Record trade_ok (e : Envelope) (t : ValidatedTrade) : Prop := {
  to_fill : Decimal.wf (vt_fill t) /\ Decimal.scale (vt_fill t) = vt_quantity_scale t /\ 0 < Decimal.raw (vt_fill t);
  to_scale : 0 <= vt_quantity_scale t <= MAX_DECIMAL_SCALE;
  to_roles : leg_role (vt_legs t).1 = Buyer /\ leg_role (vt_legs t).2 = Seller;
  to_accounts : account_ids e = [leg_account_id (vt_legs t).1; leg_account_id (vt_legs t).2];
  to_distinct : leg_account_id (vt_legs t).1 <> leg_account_id (vt_legs t).2;
  to_legs : leg_ok (vt_quantity_scale t) (vt_fill t) (vt_legs t).1 /\ leg_ok (vt_quantity_scale t) (vt_fill t) (vt_legs t).2;
}.

Lemma finish_leg_ok p effect source leg : 0 <= pt_quantity_scale p -> effect = Decimal.mk (Decimal.raw (pt_fill p)) (pt_quantity_scale p) ->
  Decimal.wf effect -> Decimal.wf (sl_source_start source) -> finish_leg p effect source = Ok leg ->
  leg_ok (pt_quantity_scale p) (pt_fill p) leg /\ leg_role leg = sl_role source /\ leg_account_id leg = sl_account_id source.
Proof.
  intros P Ee We Ws (n & (start & S%map_err_Ok & [= <-])%bind_Ok & E)%bind_Ok. cbn [nl_start nl_role nl_account_id] in E.
  destruct (negb _); [done|]. apply bind_Ok in E as (outcome & M%map_err_Ok & E). destruct (negb _); [done|]. injection E as <-.
  apply rescale_up_atoms in S as (Wst & Ss & _); [|done..]. cbn. split; [|done].
  unfold moved_position in M. destruct (sl_role source);
    [apply checked_add_Ok in M as (Wo & So & _ & Er)|apply checked_sub_Ok in M as (Wo & So & _ & Er)]; try done;
    (split; cbn; [done|split; [done|congruence]|]; rewrite Er, Ee; cbn; lia).
Qed.

Section trades.
Context `{Hex} `{MarketJson}.

Lemma exact_market_scale st m ps qs tick lot : validate_exact_market st m = Ok (ps, qs, tick, lot) -> 0 <= qs.
Proof using Type.
  intros (market & _ & E)%bind_Ok. unfold exact_market_contract_validated in E. destruct (negb _); [done|].
  destruct (mk_price_scale market ≫= int_try U8); [|done].
  destruct (mk_quantity_scale market) as [q|]; cbn in E; [|done]. destruct (int_try U8 q) as [q'|] eqn:Q; [|done].
  destruct (mk_tick_size market), (mk_lot_size market); try done. destruct (_ && _); [|done]. injection E as _ <- _ _.
  apply int_try_Some in Q as [-> [? _]]. done.
Qed.

Lemma validated_ok st e t : envelope_typed e -> validate_enriched_trade st e = Ok t -> trade_ok e t.
Proof using Type.
  intros T (p & V & (prepared & R & F)%bind_Ok)%bind_Ok. pose proof (typed_payload _ T) as Tp.
  unfold validate_enriched_trade_prerequisites in V. destruct (payload e); try done.
  apply bind_Ok in V as (id & _ & (market & _ & ([buyer seller] & [= ->]%ok_or_Ok & V)%bind_Ok)%bind_Ok). destruct Tp as (_ & Wq & Wb & Ws).
  destruct (negb _ || _ || _ || _ || _) eqn:C; [done|]. bool_to_prop.
  apply bind_Ok in V as ([[[ps qs] tick] lot] & Hs%exact_market_scale & [= <-]). cbn in R.
  apply bind_Ok in R as (x & _ & (fill & Fn & R)%bind_Ok). destruct (_ || _); [done|]. destruct (Z.leb_spec (Decimal.raw fill) 0); [done|].
  destruct (negb _); [done|]. injection R as <-. unfold normalize_validated in Fn. cbn in Fn.
  destruct (Z.ltb_spec qs (Decimal.scale quantity)); [done|]. apply map_err_Ok in Fn.
  assert (qs <= MAX_DECIMAL_SCALE) as Hq.
  { apply bind_Ok in F as (effect & [_ M]%map_err_Ok%from_raw_inv & _). done. }
  apply rescale_atoms in Fn as (Wf & Sf & _); [|done|lia].
  apply bind_Ok in F as (effect & [Ee _]%map_err_Ok%from_raw_inv & (z & _ & (leg0 & L0 & (leg1 & L1 & (n & _ & [= <-])%bind_Ok)%bind_Ok)%bind_Ok)%bind_Ok).
  cbn in Ee, L0, L1. assert (Decimal.wf effect) as We by (rewrite Ee; destruct Wf; by split).
  apply finish_leg_ok in L0 as (O0 & R0 & A0); [|done..]. apply finish_leg_ok in L1 as (O1 & R1 & A1); [|done..].
  split; cbn in *; try done; congruence.
Qed.
End trades.

(** ** The amounts of an episode *)

Record amounts_wf (r : PositionEpisodeRecordV1) : Prop := {
  aw_opening : Decimal.wf (ep_opening_position r);
  aw_buy : Decimal.wf (ep_buy_quantity r);
  aw_sell : Decimal.wf (ep_sell_quantity r);
}.
(** The position the amounts of an episode add up to. *)
Definition net_position (r : PositionEpisodeRecordV1) : Z :=
  atoms (ep_opening_position r) + atoms (ep_buy_quantity r) - atoms (ep_sell_quantity r).

Lemma try_record_Ok {R W} `{StateRecord R W} (r r' : R) : try_record r = Ok r' -> r' = r.
Proof. by intros (u & _ & [= <-])%bind_Ok. Qed.

Record episode_of (a : Address) (m : MarketId) (r : PositionEpisodeRecordV1) : Prop := {
  eo_account : ep_account_id r = a;
  eo_market : ep_market_id r = m;
  eo_amounts : amounts_wf r;
}.
Definition closed_balanced (r : PositionEpisodeRecordV1) : Prop := ep_status r = EpisodeStatus.Closed -> net_position r = 0.

(** What a change of a position leaves behind: episodes of its own, of which
    the closed ones cancel out and the one it points at adds up to what is
    known. *)
Record staged (a : Address) (m : MarketId) (known : option PositionQuantity) (open_id : option PositionEpisodeId)
    (episodes : list PositionEpisodeRecordV1) : Prop := {
  sg_episodes : Forall (fun r => episode_of a m r /\ closed_balanced r) episodes;
  sg_open : forall id, open_id = Some id ->
    exists r v, r ∈ episodes /\ ep_episode_id r = id /\ known = Some v /\ net_position r = atoms v;
}.

Definition loaded_ok (a : Address) (m : MarketId) (loaded : LoadedPair.t) : Prop :=
  match loaded with LoadedPair.Resolved r v => episode_of a m r /\ Decimal.wf v /\ net_position r = atoms v | _ => True end.

Section staging.
Context `{Hex} `{Blake3}.

Lemma new_episode_ok e t leg c o r : trade_ok e t -> Decimal.wf (leg_start leg) -> new_trade_episode e t leg c o = Ok r ->
  episode_of (leg_account_id leg) (vt_market_id t) r /\ net_position r = atoms (leg_start leg) /\ ep_status r = EpisodeStatus.Open.
Proof using Type.
  intros O W (id & _ & (z & [-> _]%map_err_Ok%from_raw_inv & (q & _ & ->%map_err_Ok%try_record_Ok)%bind_Ok)%bind_Ok)%bind_Ok.
  destruct (zero_atoms (vt_quantity_scale t)) as [Wz Az]; [apply O|]. split; [|split; [unfold net_position; cbn; rewrite Az; lia|done]].
  split; [done..|]. by split.
Qed.

Lemma trade_delta_ok a m r role q n e cause r' : episode_of a m r -> Decimal.wf q -> apply_trade_delta r role q n e cause = Ok r' ->
  episode_of a m r' /\ net_position r' = net_position r + signed role (atoms q) /\ ep_episode_id r' = ep_episode_id r /\
  ep_status r' = (if is_set cause then EpisodeStatus.Closed else EpisodeStatus.Open).
Proof using Type.
  intros [Ea Em [Wo Wb Ws]] Wq ([[[buy bn] sell] sn] & D & ->%map_err_Ok%try_record_Ok)%bind_Ok.
  destruct role; apply bind_Ok in D as (x & X & (y & _ & [= <- <- <- <-])%bind_Ok); apply add_quantities_atoms in X as [Wx Ax]; try done.
  all: split; [split; [done..|by split]|]; split; [unfold net_position; cbn; lia|done].
Qed.

(** The episode a leg starts from adds up to the position before the trade. *)
Lemma leg_episode_ok e t leg loaded r is_new : trade_ok e t -> leg_ok (vt_quantity_scale t) (vt_fill t) leg ->
  loaded_ok (leg_account_id leg) (vt_market_id t) loaded -> leg_episode e t leg loaded = Ok (r, is_new) ->
  episode_of (leg_account_id leg) (vt_market_id t) r /\ net_position r = atoms (leg_start leg).
Proof using Type.
  intros O [[Ws Ss] _ _] L E. unfold leg_episode in E. destruct loaded as [| |r0 known|].
  - apply bind_Ok in E as (x & (? & ? & _)%new_episode_ok & [= <- _]); done.
  - destruct (negb _); [done|]. apply bind_Ok in E as (x & (? & ? & _)%new_episode_ok & [= <- _]); done.
  - destruct L as (Ep & Wk & En). apply bind_Ok in E as (k & K%map_err_Ok & E). destruct (Decimal.eq k _) eqn:Q; [|done]. injection E as <- _.
    apply rescale_up_atoms in K as (Wk' & _ & Ak); [|done|apply O]. apply eq_atoms in Q; [|done..]. split; [done|lia].
  - apply bind_Ok in E as (x & (? & ? & _)%new_episode_ok & [= <- _]); done.
Qed.

Lemma leg_atoms t leg : leg_ok (vt_quantity_scale t) (vt_fill t) leg -> Decimal.scale (vt_fill t) = vt_quantity_scale t ->
  atoms (leg_result leg) = atoms (leg_start leg) + signed (leg_role leg) (atoms (vt_fill t)).
Proof using Type. intros [[_ Ss] [_ Sr] M] Sf. unfold atoms. rewrite Ss, Sr, Sf, M. destruct (leg_role leg); cbn; lia. Qed.

Lemma plain_leg_staged e t leg r is_new effects episodes current : trade_ok e t -> leg_ok (vt_quantity_scale t) (vt_fill t) leg ->
  episode_of (leg_account_id leg) (vt_market_id t) r -> net_position r = atoms (leg_start leg) ->
  plain_leg e t leg r is_new = Ok (effects, episodes, current) ->
  staged (leg_account_id leg) (vt_market_id t) (Some (leg_result leg)) (ec_episode_id current) (snd <$> episodes).
Proof using Type.
  intros O L Ep N (next & D & (effect & _ & (c & ->%map_err_Ok%try_record_Ok & [= _ <- <-])%bind_Ok)%bind_Ok)%bind_Ok.
  destruct (to_fill _ _ O) as (Wf & Sf & _). destruct (trade_delta_ok _ _ _ _ _ _ _ _ _ Ep Wf D) as (Ep' & N' & _ & St).
  pose proof (leg_atoms _ _ L Sf) as A. assert (net_position next = atoms (leg_result leg)) as Nr by lia.
  destruct (Z.eqb_spec (Decimal.raw (leg_result leg)) 0) as [Z0|NZ]; cbn in *; split.
  - apply Forall_singleton. split; [done|]. intros _. rewrite Nr. by apply raw_zero_atoms.
  - done.
  - apply Forall_singleton. split; [done|]. unfold closed_balanced. by rewrite St.
  - intros id [= <-]. exists next, (leg_result leg). split_and!; [by constructor|done..].
Qed.

(** A position that changes side is closed by its size, and opened by the rest. *)
Lemma reversal_parts t leg magnitude : leg_ok (vt_quantity_scale t) (vt_fill t) leg -> 0 < Decimal.raw (vt_fill t) -> is_reversal leg = true ->
  checked_position_magnitude (leg_start leg) = Ok magnitude ->
  let closed := Z.min magnitude (Decimal.raw (vt_fill t)) in
  Decimal.raw (leg_start leg) + signed (leg_role leg) closed = 0 /\
  signed (leg_role leg) (Decimal.raw (vt_fill t) - closed) = Decimal.raw (leg_result leg).
Proof using Type.
  intros [_ _ M] P R C. unfold is_reversal in R. bool_to_prop.
  assert (magnitude = Z.abs (Decimal.raw (leg_start leg))) as ->.
  { unfold checked_position_magnitude in C. destruct (Z.ltb_spec (Decimal.raw (leg_start leg)) 0); [|injection C as <-; lia].
    apply ok_or_Ok, int_try_Some in C as [-> _]. lia. }
  cbv zeta. destruct (leg_role leg); cbn in *; lia.
Qed.

Lemma reversal_leg_staged e t leg r is_new effects episodes current : trade_ok e t -> leg_ok (vt_quantity_scale t) (vt_fill t) leg ->
  is_reversal leg = true -> episode_of (leg_account_id leg) (vt_market_id t) r -> net_position r = atoms (leg_start leg) ->
  reversal_leg e t leg r is_new = Ok (effects, episodes, current) ->
  staged (leg_account_id leg) (vt_market_id t) (Some (leg_result leg)) (ec_episode_id current) (snd <$> episodes).
Proof using Type.
  intros O L Rv Ep N (mag & Mg & E)%bind_Ok. destruct (to_fill _ _ O) as (Wf & Sf & Pf). pose proof (to_scale _ _ O) as Sc.
  destruct (reversal_parts _ _ _ L Pf Rv Mg) as [Cz Cr]. set (closed_raw := Z.min mag _) in *.
  apply bind_Ok in E as (res & [-> Wr]%ok_or_Ok%int_try_Some & E). destruct (_ || _) eqn:B; [done|].
  apply bind_Ok in E as (closed & [-> _]%map_err_Ok%from_raw_inv & (residual & [-> _]%map_err_Ok%from_raw_inv & E)%bind_Ok).
  apply bind_Ok in E as (cn & _ & (rn & _ & (total & _ & (split & _ & E)%bind_Ok)%bind_Ok)%bind_Ok). destruct split; [done|].
  apply bind_Ok in E as (old & Dold & (oe & _ & (zero & [-> _]%map_err_Ok%from_raw_inv & (fresh & Fr & E)%bind_Ok)%bind_Ok)%bind_Ok).
  apply bind_Ok in E as (opened & Dnew & (ne & _ & (c & ->%map_err_Ok%try_record_Ok & [= _ <- <-])%bind_Ok)%bind_Ok).
  assert (Decimal.wf (Decimal.mk closed_raw (vt_quantity_scale t))) as Wc.
  { split; [|done]. destruct Wf as [Wf _]. unfold closed_raw. cbn. bool_to_prop. revert Wf. unfold ity_wf. cbn. lia. }
  apply new_episode_ok in Fr as (Epf & Nf & _); [|done|by apply zero_atoms]. cbn in Epf, Nf.
  destruct (trade_delta_ok _ _ _ _ _ _ _ _ _ Ep Wc Dold) as (Epo & No & _ & _).
  destruct (trade_delta_ok _ _ _ _ _ _ _ _ _ Epf (conj Wr Sc : Decimal.wf (Decimal.mk _ _)) Dnew) as (Epn & Nn & _ & St).
  destruct L as [[_ Ss] [_ Sr] _]. unfold atoms in *. cbn in *. rewrite Ss in *.
  split; cbn.
  - apply Forall_cons. split; [split; [done|]|apply Forall_singleton; split; [done|unfold closed_balanced; by rewrite St]].
    intros _. rewrite No, N. destruct (leg_role leg); cbn in *; nia.
  - intros id [= <-]. exists opened, (leg_result leg). split_and!; [by do 2 constructor|done..|].
    unfold atoms. rewrite Nn, Nf, Sr, <- Cr. destruct (leg_role leg); cbn in *; lia.
Qed.

Lemma staged_leg e t leg loaded : trade_ok e t -> leg_ok (vt_quantity_scale t) (vt_fill t) leg ->
  loaded_ok (leg_account_id leg) (vt_market_id t) loaded -> forall r is_new effects episodes current,
  leg_episode e t leg loaded = Ok (r, is_new) ->
  (if is_reversal leg then reversal_leg e t leg r is_new else plain_leg e t leg r is_new) = Ok (effects, episodes, current) ->
  staged (leg_account_id leg) (vt_market_id t) (Some (leg_result leg)) (ec_episode_id current) (snd <$> episodes).
Proof using Type.
  intros O L Lo r is_new effects episodes current E S. destruct (leg_episode_ok _ _ _ _ _ _ O L Lo E) as [Ep N].
  destruct (is_reversal leg) eqn:Rv; [by eapply reversal_leg_staged|by eapply plain_leg_staged].
Qed.
End staging.

(** ** What the state says *)

Class PairJsonLaws `{PositionJson} `{EpisodeJson} : Prop := {
  json_quantity_laws :: JsonLaws PositionQuantityCurrentWireV1;
  json_episode_laws :: JsonLaws PositionEpisodeWireV1;
  json_episode_current_laws :: JsonLaws PositionEpisodeCurrentWireV1;
}.

Lemma encoded_read {R W} `{StateRecord R W} `{JsonLaws W} key (r r' : R) l :
  record_encode r = Ok l -> record_decode_at key l = Ok r' -> from_wire (to_wire r) = Ok r'.
Proof.
  intros (u & _ & J)%bind_Ok (D & _)%record_decode_at_inv. unfold record_decode in D.
  rewrite (json_record_roundtrip _ _ J), bind_of_Ok in D. apply bind_Ok in D as (x & F & (v & _ & (again & _ & E)%bind_Ok)%bind_Ok).
  case_bool_decide; [|done]. by injection E as <-.
Qed.

Lemma put_all_get_inv st ms k l : bt_sorted st -> Forall (fun m => exists k l, m = Put k l) ms ->
  bt_get k (put_all st ms) = Some l -> Put k l ∈ ms \/ bt_get k st = Some l.
Proof.
  intros S F. revert st S. induction F as [|m ms (k' & l' & ->) F IH]; intros st S G; [by right|].
  change (put_all st (Put k' l' :: ms)) with (put_all (bt_insert k' l' st) ms) in G.
  apply IH in G as [I|G]; [left; set_solver| |by apply bt_insert_sorted].
  rewrite bt_get_insert, eqb_decide in G. case_bool_decide; [|by right]. left. injection G as ->. subst. set_solver.
Qed.

(** Opens a chain of steps that ended well. *)
Ltac open_chain M :=
  repeat lazymatch type of M with
  | (_ ≫= _) = Ok _ => let x := fresh "x" in let F := fresh "F" in apply bind_Ok in M as (x & F & M)
  end; injection M as <-.

Section balance.
Context `{HexLaws} `{Blake3} `{PositionJson} `{EpisodeJson} `{!PairJsonLaws}.
Implicit Types (st : Entries) (a : Address) (m : MarketId) (r : PositionEpisodeRecordV1).

Definition balanced_pair st a m : Prop := forall qk ck r v, quantity_key a m = Ok qk -> episode_current_key a m = Ok ck ->
  pair_of st qk ck a m (LoadedPair.Resolved r v) -> net_position r = atoms v.
Definition closed_ok st : Prop := forall key r, namespace key = EPISODE_NAMESPACE -> holds st key r -> closed_balanced r.
(** Open episodes add up to their positions, and closed ones cancel out. *)
Definition balanced st : Prop := (forall a m, balanced_pair st a m) /\ closed_ok st.

Lemma quantity_read key q q' l : (forall v, pq_known_quantity q = Some v -> Decimal.wf v) -> record_encode q = Ok l ->
  record_decode_at key l = Ok q' -> pq_known_quantity q' = pq_known_quantity q.
Proof using Type*.
  intros W E D. pose proof (encoded_read _ _ _ _ E D) as F. cbn -[field parse_api string_id_new Decimal.from_str Decimal.to_string] in F.
  rewrite bool_decide_true in F by done. cbn [negb] in F.
  apply bind_Ok in F as (x & _ & (y & _ & (z & Z & (u & _ & (w & _ & [= <-])%bind_Ok)%bind_Ok)%bind_Ok)%bind_Ok). cbn.
  destruct (pq_known_quantity q) as [v|]; cbn -[field Decimal.from_str Decimal.to_string] in Z; [|by injection Z as <-].
  rewrite field_decimal, bind_of_Ok in Z by auto. by injection Z as <-.
Qed.
Lemma current_read key c c' l : record_encode c = Ok l -> record_decode_at key l = Ok c' -> ec_episode_id c' = ec_episode_id c.
Proof using Type*.
  intros E D. pose proof (encoded_read _ _ _ _ E D) as F. cbn -[field parse_api string_id_new Attribution.parse] in F.
  rewrite bool_decide_true in F by done. cbn [negb] in F.
  apply bind_Ok in F as (x & _ & (y & _ & (z & Z & (u & _ & (w & _ & [= <-])%bind_Ok)%bind_Ok)%bind_Ok)%bind_Ok). cbn.
  destruct (ec_episode_id c) as [id|]; cbn -[field string_id_new] in Z; [|by injection Z as <-].
  apply bind_Ok in Z as (i & I & [= <-]). unfold field in I. by apply map_err_Ok, string_id_new_inv in I as [-> _].
Qed.
Lemma episode_read key r r' l : amounts_wf r -> address_wf (ep_account_id r) -> record_encode r = Ok l -> record_decode_at key l = Ok r' ->
  ep_account_id r' = ep_account_id r /\ ep_market_id r' = ep_market_id r /\ ep_status r' = ep_status r /\
  net_position r' = net_position r.
Proof using Type*.
  intros [Wo Wb Ws] Wa E D. pose proof (encoded_read _ _ _ _ E D) as F. change (episode_from_wire (episode_to_wire r) = Ok r') in F.
  unfold episode_from_wire in F. rewrite bool_decide_true in F by done. cbn [negb episode_to_wire] in F.
  open_chain F. cbn [ep_account_id ep_market_id ep_status]. unfold net_position.
  unfold episode_to_wire in *. cbn [ep_opening_position ep_buy_quantity ep_sell_quantity epw_account_id epw_market_id epw_opening_position epw_buy_quantity epw_sell_quantity epw_status] in *.
  repeat match goal with
  | X : field (Decimal.from_str (Decimal.to_string _)) = Ok ?d |- context [?d] => rewrite field_decimal in X by done; injection X as <-
  | X : field (parse_api _) = Ok _ |- _ => rewrite field_address in X by done; injection X as <-
  | X : field (string_id_new _) = Ok _ |- _ => unfold field in X; apply map_err_Ok, string_id_new_inv in X as [X _]
  | X : EpisodeStatus.parse (EpisodeStatus.wire ?s) = Ok _ |- _ =>
      assert (EpisodeStatus.parse (EpisodeStatus.wire s) = Ok s) as Y by (by destruct s); rewrite X in Y; injection Y as ->; clear X
  end.
  done.
Qed.

Lemma holds_amounts st key r : holds st key r -> amounts_wf r.
Proof using Type.
  intros (l & _ & (D & _)%record_decode_at_inv). unfold record_decode in D.
  apply bind_Ok in D as (w & _ & (r' & F & (u & _ & (again & _ & E)%bind_Ok)%bind_Ok)%bind_Ok). case_bool_decide; [|done]. injection E as ->.
  change (episode_from_wire w = Ok r) in F. unfold episode_from_wire in F. destruct (negb _); [done|]. open_chain F.
  split; cbn; by eapply field_wf.
Qed.
Lemma holds_quantity st key q v : holds (R := PositionQuantityCurrentRecordV1) st key q -> pq_known_quantity q = Some v -> Decimal.wf v.
Proof using Type.
  intros (l & _ & (D & _)%record_decode_at_inv) K. unfold record_decode in D.
  apply bind_Ok in D as (w & _ & (r' & F & (u & _ & (again & _ & E)%bind_Ok)%bind_Ok)%bind_Ok). case_bool_decide; [|done]. injection E as ->.
  cbn -[field parse_api string_id_new Decimal.from_str] in F. destruct (negb _); [done|]. open_chain F. cbn in K. subst.
  match goal with X : parse_optional _ (pqw_known_quantity w) = Ok (Some v) |- _ => unfold parse_optional in X end.
  destruct (pqw_known_quantity w); [|done].
  match goal with X : (_ ≫= _) = Ok (Some v) |- _ => apply bind_Ok in X as (y & Y & [= <-]) end. by eapply field_wf.
Qed.

(** ** Puts that concern given pairs *)

Definition confined (T : list (Address * MarketId)) (mu : StateMutation) : Prop :=
  match mu with
  | Delete _ => False
  | Put k l =>
      (namespace k = POSITION_NAMESPACE -> exists a m, (a, m) ∈ T /\ quantity_key a m = Ok k) /\
      (namespace k = EPISODE_CURRENT_NAMESPACE -> exists a m, (a, m) ∈ T /\ episode_current_key a m = Ok k) /\
      (namespace k = EPISODE_NAMESPACE -> exists a m r, (a, m) ∈ T /\ address_wf a /\ episode_of a m r /\ closed_balanced r /\ record_encode r = Ok l)
  end.

Lemma confined_puts T ms : Forall (confined T) ms -> Forall (fun mu => exists k l, mu = Put k l) ms.
Proof using Type. intros F. eapply Forall_impl; [exact F|]. intros [k l|k] C; [by exists k, l|done]. Qed.

Lemma confined_holds T st ms k {R W} `{StateRecord R W} `{Json W} (r : R) : bt_sorted st -> Forall (confined T) ms -> holds (put_all st ms) k r ->
  (exists l, confined T (Put k l) /\ record_decode_at k l = Ok r) \/ holds st k r.
Proof using Type.
  intros S C (l & G & D). apply put_all_get_inv in G as [I|G]; [|right; by exists l|done|by eapply confined_puts].
  left. exists l. rewrite Forall_forall in C. split; [exact (C _ I)|done].
Qed.

Lemma confined_episode T k l r : confined T (Put k l) -> namespace k = EPISODE_NAMESPACE -> record_decode_at k l = Ok r ->
  closed_balanced r /\ (ep_account_id r, ep_market_id r) ∈ T.
Proof using Type*.
  intros (_ & _ & C) N D. destruct (C N) as (a' & m' & r' & I & Wa & [Ea Em Aw] & Cb & E).
  rewrite <- Ea in Wa. destruct (episode_read _ _ _ _ Aw Wa E D) as (-> & -> & Es & En). split; [|congruence].
  unfold closed_balanced. rewrite Es, En. exact Cb.
Qed.

(** Pairs that an event does not concern stay balanced. *)
Lemma confined_balanced T st ms a m : bt_sorted st -> Forall (confined T) ms -> (a, m) ∉ T -> balanced_pair st a m -> balanced_pair (put_all st ms) a m.
Proof using Type*.
  intros S C N B qk ck r v Q Ck P. inversion P as [|?|q c v' id r' Hq Hc Eq Nv Ec Ei [(ek & Ek & He) Ea Em Eo]|]; subst.
  pose proof (framed_keyed _ _ _ Q) as Nq. pose proof (framed_keyed _ _ _ Ck) as Nc. pose proof (episode_key_namespace _ _ Ek) as Ne.
  apply (confined_holds T) in Hq as [(l & (Cq & _) & _)|Hq]; [|..|done|done].
  { destruct (Cq Nq) as (a' & m' & I & K). by destruct (account_market_key_inj _ _ _ _ _ _ _ Q K) as [-> ->]. }
  apply (confined_holds T) in Hc as [(l & (_ & Cc & _) & _)|Hc]; [|..|done|done].
  { destruct (Cc Nc) as (a' & m' & I & K). by destruct (account_market_key_inj _ _ _ _ _ _ _ Ck K) as [-> ->]. }
  apply (confined_holds T) in He as [(l & Ce & D)|He]; [|..|done|done].
  { by destruct (confined_episode _ _ _ _ Ce Ne D). }
  apply (B qk ck r v Q Ck). eapply (pair_open _ _ _ _ _ q c v id r); try done. split; try done. by exists ek.
Qed.
Lemma confined_closed T st ms : bt_sorted st -> Forall (confined T) ms -> closed_ok st -> closed_ok (put_all st ms).
Proof using Type*.
  intros S C B key r N Hr. apply (confined_holds T) in Hr as [(l & Cl & D)|Hr]; [|by eapply B|done|done].
  by destruct (confined_episode _ _ _ _ Cl N D).
Qed.

(** ** Pairs that an event writes *)

Record pair_written st (ms : list StateMutation) a m (known : option PositionQuantity) (open_id : option PositionEpisodeId) (eps : list PositionEpisodeRecordV1) : Prop := {
  pw_quantity : forall qk q, quantity_key a m = Ok qk -> holds st qk q -> pq_known_quantity q = known;
  pw_current : forall ck c, episode_current_key a m = Ok ck -> holds st ck c -> ec_episode_id c = open_id;
  pw_episodes : forall r, r ∈ eps -> exists ek l, episode_key (ep_episode_id r) = Ok ek /\ Put ek l ∈ ms /\ record_encode r = Ok l;
  pw_staged : staged a m known open_id eps;
}.

Lemma written_balanced st ms a m known open_id eps : bt_sorted st -> NoDup (mutation_key <$> ms) -> address_wf a ->
  pair_written (put_all st ms) ms a m known open_id eps -> balanced_pair (put_all st ms) a m.
Proof using Type*.
  intros S N Wa [Pq Pc Pe [Se So]] qk ck r v Q Ck P. inversion P as [|?|q c v' id r' Hq Hc Eq Nv Ec Ei [(ek & Ek & He) Ea Em Eo]|]; subst.
  rewrite (Pq _ _ Q Hq) in Eq. rewrite (Pc _ _ Ck Hc) in Ei. destruct (So _ Ei) as (r0 & v0 & I & Eid & Ev & En).
  destruct (Pe _ I) as (ek' & l & Ek' & Ip & El). rewrite Eid, Ek in Ek'. injection Ek' as <-.
  destruct He as (l' & G & D). rewrite (put_all_in _ _ _ _ S N Ip) in G. injection G as <-.
  rewrite Forall_forall in Se. destruct (Se _ I) as [[Ea0 Em0 Aw] _]. rewrite <- Ea0 in Wa.
  destruct (episode_read _ _ _ _ Aw Wa El D) as (_ & _ & _ & ->). congruence.
Qed.

(** ** Puts, one by one *)

Lemma confined_mono T T' mu : T ⊆ T' -> confined T mu -> confined T' mu.
Proof using Type.
  intros S. destruct mu as [k l|k]; [|done]. intros (Q & C & E). split_and!.
  - intros (a & m & I & K)%Q. exists a, m. auto.
  - intros (a & m & I & K)%C. exists a, m. auto.
  - intros (a & m & r & I & K)%E. exists a, m, r. auto.
Qed.
Lemma confined_all_mono T T' ms : T ⊆ T' -> Forall (confined T) ms -> Forall (confined T') ms.
Proof using Type. intros S F. eapply Forall_impl; [exact F|]. intros mu. by apply confined_mono. Qed.

Definition no_pair (ns : string) : bool := bool_decide (ns ∉ [POSITION_NAMESPACE; EPISODE_CURRENT_NAMESPACE; EPISODE_NAMESPACE]).
Lemma keyed_confined T ns k l : keyed ns k -> no_pair ns = true -> confined T (Put k l).
Proof using Type.
  intros <- N%bool_decide_eq_true. rewrite !not_elem_of_cons in N. destruct N as (N1 & N2 & N3 & _).
  cbn. split_and!; intros E; [by destruct (N1 E)|by destruct (N2 E)|by destruct (N3 E)].
Qed.
Lemma placed_confined T nss ms : Forall (placed nss) ms -> forallb no_pair nss = true -> Forall (confined T) ms.
Proof using Type.
  intros P F. rewrite forallb_forall in F. eapply Forall_impl; [exact P|]. intros mu (k & l & -> & _ & I).
  apply list_elem_of_In, F in I. by eapply keyed_confined.
Qed.
Lemma quantity_confined T a m k l : quantity_key a m = Ok k -> (a, m) ∈ T -> confined T (Put k l).
Proof using Type. intros K I. pose proof (framed_keyed _ _ _ K) as N. unfold keyed in N. cbn. rewrite N. split_and!; [by exists a, m|done..]. Qed.
Lemma current_confined T a m k l : episode_current_key a m = Ok k -> (a, m) ∈ T -> confined T (Put k l).
Proof using Type. intros K I. pose proof (framed_keyed _ _ _ K) as N. unfold keyed in N. cbn. rewrite N. split_and!; [done|by exists a, m|done]. Qed.
Lemma episode_confined T a m r k l : episode_key (ep_episode_id r) = Ok k -> record_encode r = Ok l -> (a, m) ∈ T -> address_wf a ->
  episode_of a m r -> closed_balanced r -> confined T (Put k l).
Proof using Type.
  intros K E I W O C. pose proof (episode_key_namespace _ _ K) as N. cbn. rewrite N. split_and!; [done..|]. intros _. by exists a, m, r.
Qed.
Lemma effect_confined T event a m o k l : episode_effect_key event a m o = Ok k -> confined T (Put k l).
Proof using Type. intros K%checked_keyed. by eapply keyed_confined. Qed.

Lemma load_pair_ok errors st a m anchor loaded : balanced_pair st a m -> load_pair errors st a m = Ok (anchor, loaded) -> loaded_ok a m loaded.
Proof using Type.
  intros B E. pose proof E as E'. unfold load_pair in E'.
  apply bind_Ok in E' as (qk & Q%map_err_Ok & (ck & C%map_err_Ok & _)%bind_Ok). apply (load_pair_Ok _ _ _ _ _ _ _ _ Q C) in E.
  destruct loaded as [| |r v|]; try done. pose proof (B qk ck r v Q C E) as En.
  inversion E as [|?|q c v' id r' Hq Hc Eq Nv Ec Ei [(ek & Ek & He) Ea Em Eo]|]; subst.
  split; [split; [done..|by eapply holds_amounts]|]. split; [by eapply holds_quantity|done].
Qed.
End balance.

(** ** Events *)

Section events.
Context `{HexLaws} `{Blake3} `{MarketJson} `{PositionJson} `{EpisodeJson} `{!PairJsonLaws}.
Implicit Types (st : Entries) (a : Address) (m : MarketId) (r : PositionEpisodeRecordV1) (e : Envelope) (ms : list StateMutation).

(** The puts of the episodes of a pair, and of the record that points at the open one. *)
Record episodes_put ms a m (open_id : option PositionEpisodeId) (eps : list PositionEpisodeRecordV1) : Prop := {
  xp_current : exists ck c l, episode_current_key a m = Ok ck /\ Put ck l ∈ ms /\ record_encode c = Ok l /\ ec_episode_id c = open_id;
  xp_episodes : forall r, r ∈ eps -> exists ek l, episode_key (ep_episode_id r) = Ok ek /\ Put ek l ∈ ms /\ record_encode r = Ok l;
}.

Lemma episodes_put_mono ms ms' a m open_id eps : ms ⊆ ms' -> episodes_put ms a m open_id eps -> episodes_put ms' a m open_id eps.
Proof using Type.
  intros S [(ck & c & l & K & I & E) X]. split; [exists ck, c, l; split_and!; try apply E; auto|].
  intros r (ek & l' & Ke & Ie & Ee)%X. exists ek, l'. auto.
Qed.

Lemma collect_elem {E A} (f : A -> result E StateMutation) l ms x : collect f l = Ok ms -> x ∈ l -> exists mu, f x = Ok mu /\ mu ∈ ms.
Proof using Type.
  intros C%collect_Ok I. apply list_elem_of_lookup in I as [i L]. destruct (Forall2_lookup_l _ _ _ _ _ C L) as (mu & Lm & F).
  exists mu. split; [done|]. by eapply list_elem_of_lookup_2.
Qed.

Lemma stage_leg_ok st e t leg loaded ms : trade_ok e t -> leg_ok (vt_quantity_scale t) (vt_fill t) leg ->
  address_wf (leg_account_id leg) -> loaded_ok (leg_account_id leg) (vt_market_id t) loaded -> stage_trade_leg st e t leg loaded = Ok ms ->
  Forall (confined [(leg_account_id leg, vt_market_id t)]) ms /\ exists open_id eps,
    staged (leg_account_id leg) (vt_market_id t) (Some (leg_result leg)) open_id eps /\
    episodes_put ms (leg_account_id leg) (vt_market_id t) open_id eps.
Proof using Type.
  intros O L Wa Lo ([r is_new] & R & ([[effects episodes] current] & S & (u & _ & (ps & P & (qs & Q & (ck & K%map_err_Ok & (l & El%map_err_Ok & [= <-])%bind_Ok)%bind_Ok)%bind_Ok)%bind_Ok)%bind_Ok)%bind_Ok)%bind_Ok.
  pose proof (staged_leg _ _ _ _ O L Lo _ _ _ _ _ R S) as G. split.
  - apply Forall_app. split; [eapply collect_all; [|exact P]|apply Forall_app; split].
    + intros x mu (key & Ke%map_err_Ok & (v & _ & (b & _ & [= <-])%bind_Ok)%bind_Ok)%bind_Ok. by eapply effect_confined.
    + apply Forall_forall. intros mu I. apply collect_Ok in Q. apply list_elem_of_lookup in I as [i Li].
      destruct (Forall2_lookup_r _ _ _ _ _ Q Li) as (x & Lx & (key & Ke%map_err_Ok & (v & _ & (b & Eb%map_err_Ok & [= <-])%bind_Ok)%bind_Ok)%bind_Ok).
      pose proof (sg_episodes _ _ _ _ _ G) as F. rewrite Forall_forall in F. destruct (F x.2) as [Ep Cb].
      { apply list_elem_of_fmap_2. by eapply list_elem_of_lookup_2. }
      eapply episode_confined; [exact Ke|exact Eb|by constructor|done..].
    + apply Forall_singleton. eapply current_confined; [exact K|by constructor].
  - exists (ec_episode_id current), (snd <$> episodes). split; [done|]. split.
    + exists ck, current, l. split_and!; [done| |done|done]. rewrite !elem_of_app. do 2 right. by constructor.
    + intros r' (x & -> & I)%list_elem_of_fmap. destruct (collect_elem _ _ _ _ Q I) as (mu & (key & Ke%map_err_Ok & (v & _ & (b & Eb%map_err_Ok & [= <-])%bind_Ok)%bind_Ok)%bind_Ok & Im).
      exists key, b. split_and!; [done| |done]. rewrite !elem_of_app. by right; left.
Qed.

Definition trade_pairs (t : ValidatedTrade) : list (Address * MarketId) :=
  [(leg_account_id (vt_legs t).1, vt_market_id t); (leg_account_id (vt_legs t).2, vt_market_id t)].
Definition trade_leg (t : ValidatedTrade) (leg : ValidatedTradeLeg) : Prop := leg = (vt_legs t).1 \/ leg = (vt_legs t).2.

Lemma trade_leg_pair t leg : trade_leg t leg -> [(leg_account_id leg, vt_market_id t)] ⊆ trade_pairs t.
Proof using Type. unfold trade_pairs. intros [->| ->] x ->%list_elem_of_singleton; [by constructor|by do 2 constructor]. Qed.
Lemma trade_leg_ok e t leg : trade_ok e t -> trade_leg t leg -> leg_ok (vt_quantity_scale t) (vt_fill t) leg.
Proof using Type. intros O [->| ->]; apply O. Qed.
Lemma trade_leg_wf e t leg : envelope_typed e -> trade_ok e t -> trade_leg t leg -> address_wf (leg_account_id leg).
Proof using Type.
  intros T O L. pose proof (typed_accounts _ T) as F. rewrite (to_accounts _ _ O), Forall_cons, Forall_singleton in F. by destruct F, L as [->| ->].
Qed.

Lemma finish_accounts p pr t : prepare_enriched_trade p = Ok pr -> finish_prepared_enriched_trade pr = Ok t ->
  vt_market_id t = tq_market_id p /\ leg_account_id (vt_legs t).1 = sl_account_id (tq_legs p).1 /\
  leg_account_id (vt_legs t).2 = sl_account_id (tq_legs p).2.
Proof using Type.
  assert (forall pr x source leg, finish_leg pr x source = Ok leg -> leg_account_id leg = sl_account_id source) as L.
  { intros pr' x source leg (n & (start & _ & [= <-])%bind_Ok & E)%bind_Ok. destruct (negb _); [done|].
    apply bind_Ok in E as (y & _ & E). destruct (negb _); [done|]. by injection E as <-. }
  intros (x & _ & (y & _ & E)%bind_Ok)%bind_Ok F. destruct (_ || _); [done|]. destruct (_ || _); [done|]. injection E as <-.
  apply bind_Ok in F as (z & _ & (u & _ & (l0 & L0%L & (l1 & L1%L & (n & _ & [= <-])%bind_Ok)%bind_Ok)%bind_Ok)%bind_Ok). done.
Qed.

Lemma episode_trade_ok st e ms : envelope_typed e -> (forall a m, balanced_pair st a m) -> episode_reduce_trade st e = Ok ms ->
  exists t, validate_enriched_trade st e = Ok t /\ Forall (confined (trade_pairs t)) ms /\
    forall leg, trade_leg t leg -> exists open_id eps,
      staged (leg_account_id leg) (vt_market_id t) (Some (leg_result leg)) open_id eps /\
      episodes_put ms (leg_account_id leg) (vt_market_id t) open_id eps.
Proof using Type*.
  intros T B (p & V%map_err_Ok & E)%bind_Ok. destruct (tq_legs p) as [s0 s1] eqn:Lp.
  apply bind_Ok in E as (l0 & ([w0 l0'] & P0 & [= <-])%bind_Ok & (l1 & ([w1 l1'] & P1 & [= <-])%bind_Ok & E)%bind_Ok).
  apply bind_Ok in E as (st0 & _ & (u0 & _ & (st1 & _ & (u1 & _ & (pr & R%map_err_Ok & (t & F%map_err_Ok & E)%bind_Ok)%bind_Ok)%bind_Ok)%bind_Ok)%bind_Ok).
  apply bind_Ok in E as (ms0 & S0 & (ms1 & S1 & (u & _ & [= <-])%bind_Ok)%bind_Ok).
  destruct (finish_accounts _ _ _ R F) as (Em & A0 & A1). rewrite Lp in A0, A1. cbn in A0, A1.
  assert (validate_enriched_trade st e = Ok t) as Vt by (unfold validate_enriched_trade; by rewrite V, bind_of_Ok, R, bind_of_Ok).
  pose proof (validated_ok _ _ _ T Vt) as O. exists t. split; [done|].
  rewrite <- A0, <- Em in P0. rewrite <- A1, <- Em in P1. apply load_pair_ok in P0, P1; [|done..].
  assert (trade_leg t (vt_legs t).1 /\ trade_leg t (vt_legs t).2) as [L0 L1] by (split; [by left|by right]).
  apply stage_leg_ok in S0 as [C0 (o0 & e0 & G0 & X0)]; [|done|by eapply trade_leg_ok|by eapply trade_leg_wf|done].
  apply stage_leg_ok in S1 as [C1 (o1 & e1 & G1 & X1)]; [|done|by eapply trade_leg_ok|by eapply trade_leg_wf|done].
  split; [apply Forall_app; split; [exact (confined_all_mono _ _ _ (trade_leg_pair _ _ L0) C0)|exact (confined_all_mono _ _ _ (trade_leg_pair _ _ L1) C1)]|].
  intros leg [->| ->].
  - exists o0, e0. split; [done|]. eapply episodes_put_mono; [|exact X0]. set_solver.
  - exists o1, e1. split; [done|]. eapply episodes_put_mono; [|exact X1]. set_solver.
Qed.

Lemma position_trade_ok st e ms : position_reduce st e = Ok ms ->
  exists t, validate_enriched_trade st e = Ok t /\ Forall (confined (trade_pairs t)) ms /\
    forall leg, trade_leg t leg -> exists qk q l, quantity_key (leg_account_id leg) (vt_market_id t) = Ok qk /\ Put qk l ∈ ms /\
      record_encode q = Ok l /\ pq_known_quantity q = Some (leg_result leg).
Proof using Type*.
  assert (forall t leg effect current, position_leg st e t leg = Ok (effect, current) ->
    (forall T, confined T effect) /\ exists qk q l, quantity_key (leg_account_id leg) (vt_market_id t) = Ok qk /\ current = Put qk l /\
      record_encode q = Ok l /\ pq_known_quantity q = Some (leg_result leg)) as P.
  { intros t leg effect current (qk & K%map_err_Ok & (c & _ & ([tr anchor] & _ & (ek & Ke%map_err_Ok & (u & _ & E)%bind_Ok)%bind_Ok)%bind_Ok)%bind_Ok)%bind_Ok.
    apply bind_Ok in E as (q & ->%map_err_Ok%try_record_Ok & (le & _ & (lq & Eq%map_err_Ok & [= <- <-])%bind_Ok)%bind_Ok).
    split; [intros T; by eapply keyed_confined; [eapply framed_keyed|]|]. by eexists qk, _, lq. }
  unfold position_reduce. destruct (negb _); [done|].
  intros (t & V%map_err_Ok & ([f0 c0] & P0 & ([f1 c1] & P1 & (u & _ & [= <-])%bind_Ok)%bind_Ok)%bind_Ok)%bind_Ok.
  apply P in P0 as (F0 & qk0 & q0 & l0 & K0 & -> & E0 & N0), P1 as (F1 & qk1 & q1 & l1 & K1 & -> & E1 & N1).
  exists t. split; [done|]. split.
  - repeat apply Forall_cons_2; try apply Forall_nil_2; auto; eapply quantity_confined; eauto; unfold trade_pairs; set_solver.
  - intros leg [->| ->]; [exists qk0, q0, l0|exists qk1, q1, l1]; split_and!; try done; set_solver.
Qed.

(** ** Changes without a trade *)

Definition outcome_wf (o : NonTradeQuantityResult.t) : Prop := match o with NonTradeQuantityResult.Exact v => Decimal.wf v | _ => True end.

Lemma toward_zero_wf position quantity b o : Decimal.wf position -> Decimal.wf quantity -> toward_zero_result position quantity b = Ok o -> outcome_wf o.
Proof using Type.
  intros Wp Wq E. unfold toward_zero_result in E. destruct (Wp) as [_ Sp], (Wq) as [_ Sq].
  apply bind_Ok in E as (p & P%map_err_Ok & (q & Q%map_err_Ok & (u & [-> _]%map_err_Ok%from_raw_inv & (c & C%map_err_Ok & E)%bind_Ok)%bind_Ok)%bind_Ok).
  apply rescale_up_atoms in P as (Wp' & _ & _); [|done|lia]. apply rescale_atoms in Q as (Wq' & Sq' & _); [|done|lia].
  assert (Decimal.wf c).
  { rewrite <- Sq' in C. destruct (0 <? _); [apply checked_sub_Ok in C as (? & _)|apply checked_add_Ok in C as (? & _)]; try done; by destruct Wq'. }
  destruct (_ || _); [destruct b; by try injection E as <-|by injection E as <-].
Qed.
Lemma open_quantity_wf a m loaded v : loaded_ok a m loaded.2 -> open_quantity loaded = Some v -> Decimal.wf v.
Proof using Type.
  unfold open_quantity, nontrade_known_quantity. destruct loaded as [anchor [| |r k|]]; cbn; try done; [].
  intros (_ & W & _). destruct (_ =? 0); [done|]. by intros [= <-].
Qed.
Lemma fill_result_wf a m loaded q o : loaded_ok a m loaded.2 -> Decimal.wf q -> fill_result loaded q = Ok o -> outcome_wf o.
Proof using Type.
  intros L W E. unfold fill_result in E. destruct (is_known_zero _); [done|]. destruct (open_quantity loaded) eqn:O; [|by injection E as <-].
  eapply toward_zero_wf; [by eapply open_quantity_wf|done..].
Qed.
Lemma settlement_result_wf a m loaded q o : loaded_ok a m loaded.2 -> Decimal.wf q -> settlement_result loaded q = Ok o -> outcome_wf o.
Proof using Type.
  intros L W E. unfold settlement_result in E. destruct (open_quantity loaded) eqn:O; [|by injection E as <-].
  eapply toward_zero_wf; [by eapply open_quantity_wf|done..].
Qed.
Lemma zero_scale_nonneg q o : Decimal.wf q -> 0 <= zero_scale q o.
Proof using Type. intros [_ S]. destruct o; cbn; lia. Qed.

Lemma interruption_staged e a m loaded outcome cause zero zf closing : loaded_ok a m loaded ->
  stage_interruption e a m loaded outcome cause zero zf = Ok closing -> Forall (fun r => episode_of a m r /\ closed_balanced r) (snd <$> closing).
Proof using Type.
  intros L E. unfold stage_interruption in E. destruct loaded as [| |r v|]; [destruct outcome; [done|by injection E as <-; constructor]..| |
    destruct outcome; [done|by injection E as <-; constructor]].
  destruct L as ([Ea Em [Wo Wb Ws]] & _).
  apply bind_Ok in E as (i & ->%map_err_Ok%try_record_Ok & (f & _ & [= <-])%bind_Ok). apply Forall_singleton. split; [|done]. by split.
Qed.
Lemma remainder_staged e a m outcome s zf opening : outcome_wf outcome -> 0 <= s <= MAX_DECIMAL_SCALE ->
  stage_remainder e a m outcome (Decimal.mk 0 s) zf = Ok opening ->
  staged a m (result_known outcome) (ep_episode_id <$> (snd <$> head opening)) (snd <$> opening).
Proof using Type.
  intros W B E. destruct (zero_atoms s B) as [Wz Az]. destruct outcome as [v|]; cbn in E; [|injection E as <-; by split; [constructor|]].
  destruct (_ =? 0); [injection E as <-; by split; [constructor|]|].
  apply bind_Ok in E as (id & _ & (r & ->%map_err_Ok%try_record_Ok & (f & _ & [= <-])%bind_Ok)%bind_Ok). split.
  - apply Forall_singleton. split; [|done]. split; [done..|]. by split.
  - intros id' [= <-]. eexists _, v. split_and!; [by constructor|done..|]. unfold net_position. cbn. rewrite Az. lia.
Qed.

Lemma nontrade_ok e a m loaded outcome cause s ms : address_wf a -> loaded_ok a m loaded.2 -> outcome_wf outcome -> 0 <= s ->
  stage_nontrade_transition e a m loaded outcome cause s = Ok ms ->
  Forall (confined [(a, m)]) ms /\
  (exists qk q l, quantity_key a m = Ok qk /\ Put qk l ∈ ms /\ record_encode q = Ok l /\ pq_known_quantity q = result_known outcome) /\
  exists open_id eps, staged a m (result_known outcome) open_id eps /\ episodes_put ms a m open_id eps.
Proof using Type.
  intros Wa L Wo Ps E. unfold stage_nontrade_transition in E.
  apply bind_Ok in E as (z & [-> Bs]%map_err_Ok%from_raw_inv & (zf & _ & (q & ->%map_err_Ok%try_record_Ok & (qk & Qk%map_err_Ok & E)%bind_Ok)%bind_Ok)%bind_Ok).
  apply bind_Ok in E as (closing & C & (opening & O & (c & ->%map_err_Ok%try_record_Ok & (ck & Ck%map_err_Ok & E)%bind_Ok)%bind_Ok)%bind_Ok).
  apply bind_Ok in E as (u & _ & (fs & F & (ps & P & (lq & Lq%map_err_Ok & (lc & Lc%map_err_Ok & [= <-])%bind_Ok)%bind_Ok)%bind_Ok)%bind_Ok).
  apply interruption_staged in C; [|done]. apply remainder_staged in O as [O1 O2]; [|done..].
  assert (Forall (fun r => episode_of a m r /\ closed_balanced r) (snd <$> (closing ++ opening))) as Ep by (rewrite fmap_app; by apply Forall_app).
  split; [|split].
  - apply Forall_app. split; [eapply collect_all; [|exact F]|apply Forall_app; split].
    + intros x mu (key & Ke%map_err_Ok & (b & _ & [= <-])%bind_Ok)%bind_Ok. by eapply effect_confined.
    + apply Forall_forall. intros mu I. apply collect_Ok in P. apply list_elem_of_lookup in I as [i Li].
      destruct (Forall2_lookup_r _ _ _ _ _ P Li) as (r & Lr & (key & Ke%map_err_Ok & (b & Eb%map_err_Ok & [= <-])%bind_Ok)%bind_Ok).
      rewrite Forall_forall in Ep. destruct (Ep r) as [Eo Cb]; [by eapply list_elem_of_lookup_2|].
      eapply episode_confined; [exact Ke|exact Eb|by constructor|done..].
    + apply Forall_cons_2; [eapply quantity_confined; [exact Qk|by constructor]|].
      apply Forall_singleton. eapply current_confined; [exact Ck|by constructor].
  - eexists qk, _, lq. split_and!; [done| |exact Lq|done]. rewrite !elem_of_app. do 2 right. by constructor.
  - eexists _, (snd <$> (closing ++ opening)). split; [split; [done|]|split].
    + intros id Ei. destruct (O2 id Ei) as (r & v & I & Er). exists r, v. split; [|done]. rewrite fmap_app, elem_of_app. by right.
    + eexists ck, _, lc. split_and!; [done| |exact Lc|done]. rewrite !elem_of_app. do 2 right. do 2 constructor.
    + intros r I. destruct (collect_elem _ _ _ _ P I) as (mu & (key & Ke%map_err_Ok & (b & Eb%map_err_Ok & [= <-])%bind_Ok)%bind_Ok & Im).
      exists key, b. split_and!; [done| |done]. rewrite !elem_of_app. by right; left.
Qed.

(** ** Funding *)

Lemma funding_ok st e a m amount paid ms : envelope_typed e -> balanced_pair st a m -> reduce_funding st e a m amount paid = Ok ms -> ms <> [] ->
  address_wf a /\ Forall (confined [(a, m)]) ms /\ Forall (placed episode_namespaces) ms /\
  exists known open_id eps, staged a m (Some known) open_id eps /\ episodes_put ms a m open_id eps /\
    forall qk q, quantity_key a m = Ok qk -> holds st qk q -> pq_known_quantity q = Some known.
Proof using Type*.
  intros T B E Ne. unfold reduce_funding in E. destruct (negb _ || _ || _ || _) eqn:C; [done|]. bool_to_prop.
  assert (address_wf a) as Wa.
  { pose proof (typed_accounts _ T) as F. match goal with X : account_ids e = _ |- _ => rewrite X, Forall_singleton in F end. done. }
  apply bind_Ok in E as (mk & _ & (loaded & ([anchor l'] & P & [= <-])%bind_Ok & E)%bind_Ok).
  pose proof (load_pair_ok _ _ _ _ _ _ B P) as L. destruct l' as [| |r known|]; try (injection E as <-; by destruct Ne).
  destruct L as ([Ea Em [Wo Wb Ws]] & _ & En).
  apply bind_Ok in E as ([[x y] incoming] & _ & (zd & _ & ([[[p q] pd] qd] & _ & (next & ->%map_err_Ok%try_record_Ok & E)%bind_Ok)%bind_Ok)%bind_Ok).
  apply bind_Ok in E as (z & _ & (f & _ & (fk & Fk%map_err_Ok & (u & _ & (ek & Ek%map_err_Ok & E)%bind_Ok)%bind_Ok)%bind_Ok)%bind_Ok).
  apply bind_Ok in E as (c & ->%map_err_Ok%try_record_Ok & (ck & Ck%map_err_Ok & (v & Vp & (fl & _ & (el & El%map_err_Ok & (cl & Cl%map_err_Ok & E)%bind_Ok)%bind_Ok)%bind_Ok)%bind_Ok)%bind_Ok).
  apply bind_Ok in E as (w & _ & [= <-]). set (next := funded_episode r p q e) in *.
  assert (ep_status next = EpisodeStatus.Open) as Eo.
  { unfold validate_proposed_pair in Vp. cbn in Vp. destruct (_ =? 0); [done|]. rewrite decide_True in Vp by done. cbn in Vp.
    destruct (negb _ || _ || _) eqn:Vb; [done|]. bool_to_prop. done. }
  assert (episode_of a m next /\ closed_balanced next) as [Ep Cb] by (split; [by split; [..|split]|unfold closed_balanced; by rewrite Eo]).
  split; [done|]. split; [|split].
  - repeat apply Forall_cons_2; [by eapply effect_confined| | |apply Forall_nil_2].
    + eapply episode_confined; [exact Ek|exact El|by constructor|done..].
    + eapply current_confined; [exact Ck|by constructor].
  - unfold episode_effect_key, episode_key in *. place.
  - exists known, (Some (ep_episode_id next)), [next]. split; [split|split; [split|]].
    + by apply Forall_singleton.
    + intros id [= <-]. exists next, known. split_and!; [by constructor|done..].
    + eexists ck, _, cl. split_and!; [done| |exact Cl|done]. by do 3 constructor.
    + intros r' ->%list_elem_of_singleton. exists ek, el. split_and!; [done|by do 2 constructor|done].
    + intros qk q' Q Hq. pose proof (load_pair_Ok _ _ _ _ _ _ _ _ Q Ck P) as Pr.
      inversion Pr as [|?|q0 c0 v' id r' Hq0 Hc Eq|]; subst. by rewrite (holds_unique _ _ _ _ Hq Hq0).
Qed.
End events.

(** ** The production reducer *)

Section composite.
Context `{HexLaws} `{Blake3} `{PW : PayloadWire} `{SJ : StateJson} `{!PairJsonLaws}.
Implicit Types (st : Entries) (a : Address) (m : MarketId) (e : Envelope) (ms : list StateMutation).

Lemma event_balanced st ms T : bt_sorted st -> Forall (confined T) ms -> balanced st ->
  (forall a m, (a, m) ∈ T -> balanced_pair (put_all st ms) a m) -> balanced (put_all st ms).
Proof using Type*.
  intros S C [B Cl] W. split; [|by eapply confined_closed]. intros a m. destruct (decide ((a, m) ∈ T)) as [I|N]; [by apply W|].
  by eapply confined_balanced.
Qed.

(** The puts of a pair are what its keys hold afterwards. *)
Lemma puts_written st ms a m known open_id eps : bt_sorted st -> NoDup (mutation_key <$> ms) ->
  (forall qk q, quantity_key a m = Ok qk -> holds (put_all st ms) qk q -> pq_known_quantity q = known) ->
  episodes_put ms a m open_id eps -> staged a m known open_id eps -> pair_written (put_all st ms) ms a m known open_id eps.
Proof using Type*.
  intros S N Q [(ck & c & l & Ck & I & E & Eo) X] G. split; try done. intros ck' c' Ck' (l' & Gl & D).
  rewrite Ck in Ck'. injection Ck' as <-. rewrite (put_all_in _ _ _ _ S N I) in Gl. injection Gl as <-.
  by rewrite (current_read _ _ _ _ E D).
Qed.
Lemma put_quantity st ms a m known : bt_sorted st -> NoDup (mutation_key <$> ms) -> (forall v, known = Some v -> Decimal.wf v) ->
  (exists qk q l, quantity_key a m = Ok qk /\ Put qk l ∈ ms /\ record_encode q = Ok l /\ pq_known_quantity q = known) ->
  forall qk q, quantity_key a m = Ok qk -> holds (put_all st ms) qk q -> pq_known_quantity q = known.
Proof using Type*.
  intros S N W (qk & q & l & Q & I & E & Eq) qk' q' Q' (l' & G & D). rewrite Q in Q'. injection Q' as <-.
  rewrite (put_all_in _ _ _ _ S N I) in G. injection G as <-. subst known. by eapply quantity_read.
Qed.

Lemma trade_event_balanced st e ctx ms1 ms2 msp mse ms : ms = ms1 ++ ms2 ++ msp ++ mse -> bt_sorted st -> envelope_typed e -> balanced st ->
  NoDup (mutation_key <$> ms) -> reduce_child Component.TradeV1 st e ctx = Ok ms1 -> reduce_child Component.TradeV2 st e ctx = Ok ms2 ->
  position_reduce st e = Ok msp -> episode_reduce_trade st e = Ok mse -> balanced (put_all st ms).
Proof using Type*.
  intros Em S T B N R1%child_placed R2%child_placed (t & V & Cp & P)%position_trade_ok E.
  apply episode_trade_ok in E as (t' & V' & Ce & X); [|done|apply B]. rewrite V in V'. injection V' as <-.
  pose proof (validated_ok _ _ _ T V) as O. apply (event_balanced _ _ (trade_pairs t)); [done| |done|].
  { subst ms. repeat (apply Forall_app; split); try done; (eapply placed_confined; [eassumption|vm_compute; reflexivity]). }
  assert (forall leg, trade_leg t leg -> balanced_pair (put_all st ms) (leg_account_id leg) (vt_market_id t)) as W.
  { intros leg L. destruct (X _ L) as (open_id & eps & G & Xp), (P _ L) as (qk & q & l & Q & I & Eq & Ek).
    eapply (written_balanced _ _ _ _ (Some (leg_result leg))); [done..|by eapply trade_leg_wf|]. apply puts_written; [done..| | |done].
    - apply put_quantity; [done..| |].
      + intros v [= <-]. by apply (trade_leg_ok _ _ _ O L).
      + exists qk, q, l. split_and!; try done. subst ms. rewrite !elem_of_app. auto.
    - eapply episodes_put_mono; [|exact Xp]. subst ms. intros x Ix. rewrite !elem_of_app. auto. }
  intros a m I. unfold trade_pairs in I. rewrite !elem_of_cons in I. destruct I as [[= -> ->]|[[= -> ->]|I%elem_of_nil]]; [| |done].
  - apply W. by left.
  - apply W. by right.
Qed.

Lemma funding_event_balanced st e a m amount paid ms1 ms2 ms : ms = ms1 ++ ms2 -> bt_sorted st -> envelope_typed e -> balanced st ->
  NoDup (mutation_key <$> ms) -> account_reduce st e = Ok ms1 -> reduce_funding st e a m amount paid = Ok ms2 -> balanced (put_all st ms).
Proof using Type*.
  intros Em S T B N R1%account_placed R2. assert (forall T, Forall (confined T) ms1) as C1
    by (intros; eapply placed_confined; [exact R1|vm_compute; reflexivity]).
  destruct ms2 as [|mu ms2].
  { apply (event_balanced _ _ []); [done| |done|by intros ? ? ?%elem_of_nil]. rewrite app_nil_r in Em. by subst. }
  apply funding_ok in R2 as (Wa & C2 & P2 & known & open_id & eps & G & X & Q); [|done|apply B|done].
  apply (event_balanced _ _ [(a, m)]); [done|subst ms; by apply Forall_app|done|]. intros a' m' [= -> ->]%list_elem_of_singleton.
  eapply (written_balanced _ _ _ _ (Some known)); [done..|]. apply puts_written; [done..| | |done].
  - intros qk q Qk Hq. apply (Q qk q Qk). eapply holds_get; [|exact Hq]. symmetry. apply put_all_get; [done|]. subst ms.
    pose proof (framed_keyed _ _ _ Qk) as Nq. unfold keyed in Nq. apply Forall_app. split; eapply Forall_impl; [exact R1| |exact P2|]; cbn beta;
      intros x (k & l & -> & _ & I) <-; cbn in *; rewrite Nq in I; revert I; member.
  - eapply episodes_put_mono; [|exact X]. subst ms. intros x Ix. rewrite elem_of_app. auto.
Qed.

(** A pair changed without a trade. *)
Lemma nontrade_balanced st ms e a m errors anchor loaded outcome cause s msn : bt_sorted st -> NoDup (mutation_key <$> ms) -> msn ⊆ ms ->
  balanced_pair st a m -> address_wf a -> load_pair errors st a m = Ok (anchor, loaded) -> outcome_wf outcome -> 0 <= s ->
  stage_nontrade_transition e a m (anchor, loaded) outcome cause s = Ok msn ->
  Forall (confined [(a, m)]) msn /\ balanced_pair (put_all st ms) a m.
Proof using Type*.
  intros S N Sub B Wa P Wo Ps E. apply load_pair_ok in P; [|done].
  apply nontrade_ok in E as (C & (qk & q & l & Q & I & Eq & Ek) & open_id & eps & G & X); [|done..]. split; [done|].
  eapply (written_balanced _ _ _ _ (result_known outcome)); [done..|]. apply puts_written; [done..| | |done].
  - apply put_quantity; [done..| |].
    + intros v Ev. destruct outcome as [v'|]; [|done]. by injection Ev as <-.
    + exists qk, q, l. split_and!; auto.
  - by eapply episodes_put_mono.
Qed.

Lemma identity_accounts e kind markets accounts u : envelope_typed e -> exact_identity e kind markets accounts = Ok u -> Forall address_wf accounts.
Proof using Type.
  intros T E. unfold exact_identity in E. destruct (_ && _) eqn:B; [|done]. bool_to_prop.
  pose proof (typed_accounts _ T) as F. congruence.
Qed.
Lemma put_with_inv R W (SR : StateRecord R W) (J : Json W) err k (r : R) mu : put_with err k r = Ok mu -> exists l, mu = Put k l.
Proof using Type. intros (l & _ & [= <-])%bind_Ok. by exists l. Qed.
Lemma framed_confined T ns ids k l : framed_key ns ids = Ok k -> no_pair ns = true -> confined T (Put k l).
Proof using Type. intros K%framed_keyed. by apply keyed_confined. Qed.
Lemma process_confined T p e b mu : updated_process_mutation p e b = Ok mu -> confined T mu.
Proof using Type.
  intros (r & _ & (k & K%map_err_Ok & [l ->]%put_with_inv)%bind_Ok)%bind_Ok. by apply (framed_confined _ _ _ _ _ K).
Qed.

Lemma start_balanced st e a id margin maintenance ms : bt_sorted st -> balanced st -> reduce_start st e a id margin maintenance = Ok ms ->
  balanced (put_all st ms).
Proof using Type*.
  intros S B E. apply (event_balanced _ _ []); [done| |done|by intros ? ? ?%elem_of_nil]. unfold reduce_start, put_with in E. open_steps.
  repeat apply Forall_cons_2; try apply Forall_nil_2;
    (match goal with K : _ = Ok ?k |- confined _ (Put ?k _) => by eapply keyed_confined; [eapply framed_keyed; exact K|] end).
Qed.

Lemma fill_balanced st e id a m price quantity ms : bt_sorted st -> envelope_typed e -> Decimal.wf quantity -> balanced st ->
  reduce_fill st e id a m price quantity = Ok ms -> balanced (put_all st ms).
Proof using Type*.
  intros S T Wq B (u & [Wa _]%(identity_accounts _ _ _ _ _ T)%Forall_cons & E)%bind_Ok.
  apply bind_Ok in E as (fact & _ & (fk & Fk%map_err_Ok & (v1 & _ & (process & _ & (v2 & _ & (pp & Pp & E)%bind_Ok)%bind_Ok)%bind_Ok)%bind_Ok)%bind_Ok).
  apply bind_Ok in E as (wk & Wk%map_err_Ok & (prior & _ & (v3 & _ & ([anchor loaded] & L & (outcome & O & E)%bind_Ok)%bind_Ok)%bind_Ok)%bind_Ok).
  apply bind_Ok in E as (flow & _ & (msn & Sg & (v4 & _ & (pf & [lf ->]%put_with_inv & (pw & [lw ->]%put_with_inv & (v5 & U & [= <-])%bind_Ok)%bind_Ok)%bind_Ok)%bind_Ok)%bind_Ok).
  destruct v5. apply unique_distinct in U. set (ms := [Put fk lf; Put wk lw; pp] ++ msn) in *.
  pose proof (load_pair_ok _ _ _ _ _ _ (proj1 B _ _) L) as Lo. pose proof (fill_result_wf a m (anchor, loaded) _ _ Lo Wq O) as Wo.
  assert (msn ⊆ ms) as Sub by (intros x; unfold ms; rewrite elem_of_app; auto).
  destruct (nontrade_balanced st ms _ _ _ _ _ _ _ _ _ _ S U Sub (proj1 B _ _) Wa L Wo
    (zero_scale_nonneg _ _ Wq) Sg) as [C Bp].
  apply (event_balanced _ _ [(a, m)]); [done| |done|by intros ? ? [= -> ->]%list_elem_of_singleton].
  repeat apply Forall_cons_2; [by apply (framed_confined _ _ _ _ _ Fk)|by apply (framed_confined _ _ _ _ _ Wk)|by eapply process_confined|done].
Qed.

Lemma settlement_balanced st e a m price quantity pnl ms : bt_sorted st -> envelope_typed e -> Decimal.wf quantity -> balanced st ->
  reduce_settlement st e a m price quantity pnl = Ok ms -> balanced (put_all st ms).
Proof using Type*.
  intros S T Wq B (u & [Wa _]%(identity_accounts _ _ _ _ _ T)%Forall_cons & E)%bind_Ok.
  apply bind_Ok in E as (fact & _ & (fk & Fk%map_err_Ok & (v1 & _ & ([anchor loaded] & L & (outcome & O & E)%bind_Ok)%bind_Ok)%bind_Ok)%bind_Ok).
  apply bind_Ok in E as (msn & Sg & (v4 & _ & (pf & [lf ->]%put_with_inv & (v5 & U & [= <-])%bind_Ok)%bind_Ok)%bind_Ok).
  destruct v5. apply unique_distinct in U. set (ms := Put fk lf :: msn) in *.
  pose proof (load_pair_ok _ _ _ _ _ _ (proj1 B _ _) L) as Lo. pose proof (settlement_result_wf a m (anchor, loaded) _ _ Lo Wq O) as Wo.
  assert (msn ⊆ ms) as Sub by (intros x; unfold ms; by constructor).
  destruct (nontrade_balanced st ms _ _ _ _ _ _ _ _ _ _ S U Sub (proj1 B _ _) Wa L Wo
    (zero_scale_nonneg _ _ Wq) Sg) as [C Bp].
  apply (event_balanced _ _ [(a, m)]); [done| |done|by intros ? ? [= -> ->]%list_elem_of_singleton].
  apply Forall_cons_2; [by apply (framed_confined _ _ _ _ _ Fk)|done].
Qed.

Lemma backstop_bundle_inv st e id m a staged bundle : backstop_bundle st e id m a staged = Ok bundle ->
  exists mu, bundle = mu :: staged /\ forall T, confined T mu.
Proof using Type.
  intros (k & K%map_err_Ok & (u & _ & (v & _ & (mu & [l ->]%put_with_inv & [= <-])%bind_Ok)%bind_Ok)%bind_Ok)%bind_Ok. eexists. split; [done|].
  intros T. by apply (framed_confined _ _ _ _ _ K).
Qed.
Lemma backstop_balanced st e id a b m quantity ms : bt_sorted st -> envelope_typed e -> Decimal.wf quantity -> balanced st ->
  reduce_backstop st e id a b m quantity = Ok ms -> balanced (put_all st ms).
Proof using Type*.
  intros S T Wq B (u & [Wa [Wb _]%Forall_cons]%(identity_accounts _ _ _ _ _ T)%Forall_cons & E)%bind_Ok.
  apply bind_Ok in E as (fact & _ & (fk & Fk%map_err_Ok & (v1 & _ & (process & _ & (v2 & _ & (pp & Pp & E)%bind_Ok)%bind_Ok)%bind_Ok)%bind_Ok)%bind_Ok).
  apply bind_Ok in E as ([an0 l0] & L0 & ([an1 l1] & L1 & (s0 & S0 & (s1 & S1 & (b0 & B0 & (b1 & B1 & E)%bind_Ok)%bind_Ok)%bind_Ok)%bind_Ok)%bind_Ok).
  apply bind_Ok in E as (pf & [lf ->]%put_with_inv & (v5 & U & [= <-])%bind_Ok). destruct v5. apply unique_distinct in U. set (ms := [Put fk lf; pp] ++ b0 ++ b1) in *.
  apply backstop_bundle_inv in B0 as (m0 & -> & C0), B1 as (m1 & -> & C1). destruct (Wq) as [_ [Ps _]].
  assert (s0 ⊆ ms) as Sub0 by (intros x; unfold ms; rewrite !elem_of_app, !elem_of_cons; auto).
  destruct (nontrade_balanced st ms _ _ _ _ _ _ _ _ _ _ S U Sub0 (proj1 B _ _) Wa L0
    (I : outcome_wf NonTradeQuantityResult.Ambiguous) Ps S0) as [Cs0 Bp0].
  assert (s1 ⊆ ms) as Sub1 by (intros x; unfold ms; rewrite !elem_of_app, !elem_of_cons; auto).
  destruct (nontrade_balanced st ms _ _ _ _ _ _ _ _ _ _ S U Sub1 (proj1 B _ _) Wb L1
    (I : outcome_wf NonTradeQuantityResult.Ambiguous) Ps S1) as [Cs1 Bp1].
  apply (event_balanced _ _ [(a, m); (b, m)]); [done| |done|].
  - apply Forall_cons_2; [by apply (framed_confined _ _ _ _ _ Fk)|]. apply Forall_cons_2; [by eapply process_confined|].
    apply Forall_app. split; (apply Forall_cons_2; [done|]); eapply confined_all_mono; [|exact Cs0| |exact Cs1]; set_solver.
  - intros a' m' [[= -> ->]|[[= -> ->]|I%elem_of_nil]%elem_of_cons]%elem_of_cons; done.
Qed.

Lemma other_balanced st ms nss : bt_sorted st -> balanced st -> Forall (placed nss) ms -> forallb no_pair nss = true -> balanced (put_all st ms).
Proof using Type*.
  intros S B P F. apply (event_balanced _ _ []); [done|by eapply placed_confined|done|by intros ? ? ?%elem_of_nil].
Qed.

Lemma episode_payload st e ctx ms : reduce_child Component.PositionEpisode st e ctx = Ok ms ->
  match payload e with
  | Payload.TradeMatched _ _ _ _ _ _ _ _ => episode_reduce_trade st e = Ok ms
  | Payload.FundingPaid a m amount _ => reduce_funding st e a m amount true = Ok ms
  | Payload.FundingReceived a m amount _ => reduce_funding st e a m amount false = Ok ms
  | _ => False
  end.
Proof using Type.
  intros R. assert (episode_reduce st e = Ok ms) as E by exact R. unfold episode_reduce in E. destruct (negb _); [done|].
  by destruct (payload e).
Qed.
Lemma liquidation_payload st e ctx ms : reduce_child Component.PositionLiquidation st e ctx = Ok ms ->
  match payload e with
  | Payload.LiquidationStarted a id margin maintenance => reduce_start st e a id margin maintenance = Ok ms
  | Payload.LiquidationFill id a m price quantity => reduce_fill st e id a m price quantity = Ok ms
  | Payload.BackstopLiquidation id a b m quantity => reduce_backstop st e id a b m quantity = Ok ms
  | Payload.PositionSettled a m price quantity pnl => reduce_settlement st e a m price quantity pnl = Ok ms
  | _ => False
  end.
Proof using Type.
  intros R. assert (liquidation_reduce st e = Ok ms) as E by exact R. unfold liquidation_reduce in E. destruct (negb _); [done|].
  by destruct (payload e).
Qed.

Lemma composite_placed st e ctx mss : Forall2 (fun c ms => reduce_child c st e ctx = Ok ms) (owners e) mss ->
  Forall (placed (concat (component_namespaces <$> owners e))) (concat mss).
Proof using Type.
  induction 1 as [|c ms cs mss R%child_placed _ IH]; [constructor|]. cbn. apply Forall_app.
  split; (eapply Forall_impl; [eassumption|]); intros mu (k & l & -> & W & I); exists k, l; rewrite elem_of_app; auto.
Qed.

Lemma composite_balanced st e ctx ms : bt_sorted st -> envelope_typed e -> balanced st -> composite_reduce st e ctx = Ok ms ->
  balanced (put_all st ms).
Proof using Type*.
  intros S T B R. pose proof (composite_distinct _ _ _ _ R) as N. apply composite_reduce_inv in R as (Ne & mss & F & ->).
  pose proof (composite_placed _ _ _ _ F) as P. pose proof (typed_payload _ T) as Tp.
  assert (event_kind e = payload_kind (payload e)) as K by done. unfold owners in *. destruct (negb _); [done|]. rewrite K in *.
  destruct (payload e) eqn:Ep; cbn [payload_kind canonical_payload kind] in *; try done;
    try (by eapply other_balanced; [done|done|exact P|vm_compute; reflexivity]).
  all: try match goal with p : option (TradeParticipantV1 * _) |- _ => destruct p as [[buyer seller]|] end;
    try (by eapply other_balanced; [done|done|exact P|vm_compute; reflexivity]).
  all: clear P; repeat match goal with X : Forall2 _ (_ :: _) _ |- _ => apply Forall2_cons_inv_l in X as (? & ? & ? & X & ->) | X : Forall2 _ [] _ |- _ => apply Forall2_nil_inv_l in X as -> end.
  all: cbn [concat] in *; rewrite ?app_nil_r in *;
    try match goal with X : reduce_child Component.PositionEpisode _ _ _ = Ok _ |- _ => apply episode_payload in X; rewrite Ep in X end;
    try match goal with X : reduce_child Component.PositionLiquidation _ _ _ = Ok _ |- _ => apply liquidation_payload in X; rewrite Ep in X end.
  all: lazymatch goal with
    | X : reduce_start _ _ _ _ _ _ = Ok _ |- _ => exact (start_balanced _ _ _ _ _ _ _ S B X)
    | X : reduce_fill _ _ _ _ _ _ _ = Ok _ |- _ => exact (fill_balanced _ _ _ _ _ _ _ _ S T (proj2 Tp) B X)
    | X : reduce_backstop _ _ _ _ _ _ _ = Ok _ |- _ => exact (backstop_balanced _ _ _ _ _ _ _ _ S T Tp B X)
    | X : reduce_settlement _ _ _ _ _ _ _ = Ok _ |- _ => exact (settlement_balanced _ _ _ _ _ _ _ _ S T (proj2 Tp) B X)
    | X : reduce_funding _ _ _ _ _ _ = Ok _, Y : reduce_child Component.Account _ _ _ = Ok _ |- _ =>
        exact (funding_event_balanced _ _ _ _ _ _ _ _ _ eq_refl S T B N Y X)
    | X : episode_reduce_trade _ _ = Ok _, Y : reduce_child Component.PositionQuantity _ _ _ = Ok _,
      Y1 : reduce_child Component.TradeV1 _ _ _ = Ok _, Y2 : reduce_child Component.TradeV2 _ _ _ = Ok _ |- _ =>
        exact (trade_event_balanced _ _ _ _ _ _ _ _ eq_refl S T B N Y1 Y2 Y X)
    end.
Qed.
End composite.

Section runs.
Context `{HexLaws} `{Blake3} `{PW : PayloadWire} `{SJ : StateJson} `{!PairJsonLaws}.
Implicit Types (l : CanonicalLedger CanonicalStateReducerV1).

(** C7. Episodes balance. If in the state of a ledger with the production
    reducer every known position of an open episode is what the episode was
    opened with plus what was bought minus what was sold, and these cancel out
    in every episode that a trade closed, then the same holds after any run,
    through trades that open, grow, shrink, close and reverse positions,
    funding, liquidations and settlements. *)
Theorem episodes_balance l bs rs l' : bt_sorted (img_entries (state l)) -> Forall block_fields_typed bs ->
  apply_blocks bs l = (rs, l') -> balanced (img_entries (state l)) -> balanced (img_entries (state l')).
Proof using Type*.
  intros S F E B.
  refine (apply_blocks_sim envelope_typed (fun es (_ : unit) => balanced es) (fun u _ => u) (reducer l) _ l bs rs l' tt eq_refl S F B E).
  intros es u e ctx ms Se Te Be R. exact (composite_balanced es e ctx ms Se Te Be R).
Qed.
End runs.

(** ** The trade run balances *)

#[local] Existing Instances sample_hex sample_hex_laws short_blake3 no_payloads trade_state_json.
#[local] Instance trade_pair_laws : PairJsonLaws.
Proof. split; apply table_json_laws. Qed.

Lemma market_ledger_balanced : balanced (img_entries (state market_ledger)).
Proof.
  assert (forall k l, bt_get k (img_entries (state market_ledger)) = Some l -> namespace k = MARKET_NAMESPACE) as N.
  { intros k l (k' & M & I)%bt_get_Some. apply cmp_eq_leibniz in M as <-. by apply list_elem_of_singleton in I as [= -> _]. }
  split.
  - intros a m qk ck r v Q%framed_keyed _ P. inversion P as [|?|q c v' id r' (l & G & _)|]; subst. apply N in G. rewrite Q in G.
    exfalso. revert G. member.
  - intros key r K (l & G & _). apply N in G. rewrite K in G. exfalso. revert G. member.
Qed.
Lemma trade_block_fields : Forall block_fields_typed [trade_block].
Proof. repeat constructor; vm_compute; (reflexivity || discriminate). Qed.

Lemma episodes_balance_witness :
  (exists r, load_episode_pair (img_entries (state trade_run.2)) alice "BTC" = Ok (LoadedPair.Resolved r (Decimal.mk (-2) 0)) /\
     ep_opening_leg_ordinal r = 1) /\
  balanced (img_entries (state trade_run.2)).
Proof.
  split; [eexists; split; vm_compute; reflexivity|].
  apply (episodes_balance market_ledger [trade_block] trade_run.1 trade_run.2);
    [repeat constructor|apply trade_block_fields|vm_compute; reflexivity|apply market_ledger_balanced].
Defined.
