(* ===== verification/OrderRuns.v ===== *)
(** * Orders under the production reducer

    What the records of orders say after any run of the ledger: an order is
    filled by exactly the fills applied to it, and an order that has ended
    never changes again. *)

From Stdlib Require Import Strings.Byte Strings.String.
From stdpp Require Import sorting sets.
From S2P Require Import Prelude Ordering Sorting BTreeMap Bytes FixedPoint Ids OrderBook Store StateImage Publication Blocks Ledger Payloads Records Opaque Markets Accounts Orders Activations Flows FlowEvents Composite Samples Namespaces Production Trail Coherence Balance.

(** ** Keys *)

Lemma frames_bound parts p : p ∈ parts -> zlen p <= zlen (frames parts).
Proof.
  unfold frames. induction parts as [|q parts IH]; [by intros ?%elem_of_nil|]. cbn [fmap list_fmap concat]. unfold frame at 1.
  unfold zlen in *. rewrite !length_app. intros [->|I]%elem_of_cons; [lia|]. apply IH in I. lia.
Qed.
Lemma order_frames ns p parts k : order_state_key ns (p ++ frames parts) = Ok k ->
  key_bytes k = p ++ frames parts /\ Forall (fun i => zlen i < 256 ^ 8) parts.
Proof.
  unfold order_state_key. intros K%map_err_Ok. pose proof K as [-> _]%key_try_new_Ok. split; [done|].
  unfold key_try_new in K. destruct (negb _); [done|]. destruct (_ || _) eqn:L; [done|]. bool_to_prop.
  apply Forall_forall. intros q I%frames_bound. unfold zlen in *. rewrite length_app in *. unfold MAX_ABSOLUTE_KEY_BYTES in *. lia.
Qed.
(** Two ids in a key after a fixed prefix determine it. *)
Lemma pair_keys_inj p ns m o m' o' k : order_state_key ns (p ++ frames [as_bytes m; as_bytes o]) = Ok k ->
  order_state_key ns (p ++ frames [as_bytes m'; as_bytes o']) = Ok k -> m = m' /\ o = o'.
Proof.
  intros [B F]%order_frames [B' F']%order_frames. rewrite B in B'. apply app_inv_head in B'.
  apply frames_inj in B' as [= E1%as_bytes_inj E2%as_bytes_inj]; done.
Qed.
Lemma order_keys_inj m o m' o' k : order_key m o = Ok k -> order_key m' o' = Ok k -> m = m' /\ o = o'.
Proof. apply (pair_keys_inj [x00]). Qed.
Lemma activity_keys_inj a m o m' o' k : activity_key a m o = Ok k -> activity_key a m' o' = Ok k -> m = m' /\ o = o'.
Proof. apply (pair_keys_inj []). Qed.

(** ** One event *)

Section events.
Context `{HexLaws} `{Blake3} `{PW : PayloadWire} `{SJ : StateJson}.
Implicit Types (st : Entries) (e : Envelope) (ms : list StateMutation).

(** The order an event is about. *)
Definition order_target e : option (MarketId * OrderId) :=
  match market_ids e, order_identity (payload e) with [m], Ok o => Some (m, o) | _, _ => None end.
(** The record of an order, if there is one. *)
Definition read_order st (key : StateKey) : result ReducerError (option OrderCurrentRecordV1) :=
  match bt_get key st with
  | Some l => r ← map_err order_codec_error (plain_decode_at (R := OrderCurrentRecordV1) key l); Ok (Some r)
  | None => Ok None
  end.

Lemma order_reduce_inv st e ms : order_reduce st e = Ok ms ->
  (order_target e = None /\ Forall (placed [ORDER_FACT_NAMESPACE; ORDER_TRANSITION_NAMESPACE]) ms) \/
  exists m o a key existing prior next l f t,
    order_target e = Some (m, o) /\ account_ids e = [a] /\ order_key m o = Ok key /\ read_order st key = Ok existing /\
    next_order existing e o m a = Ok (prior, next) /\ record_encode next = Ok l /\ ms = [f; Put key l; t] /\
    placed [ORDER_FACT_NAMESPACE] f /\ placed [ORDER_TRANSITION_NAMESPACE] t.
Proof using Type.
  intros (u & _ & E)%bind_Ok.
  assert ((exists c a x y, payload e = Payload.OrderRejected c a x y /\ reduce_rejection st e c a = Ok ms) \/ reduce_order_event st e = Ok ms) as [(c & a & x & y & Ep & R)|R]
    by (destruct (payload e); eauto 10).
  { left. split; [unfold order_target; rewrite Ep; by repeat case_match|]. unfold reduce_rejection, order_put in R. open_steps; place. }
  right. unfold reduce_order_event in R. apply bind_Ok in R as (o & Eo & (m & Em & (a & Ea & (key & K%map_err_Ok & (existing & Ex & R)%bind_Ok)%bind_Ok)%bind_Ok)%bind_Ok).
  apply bind_Ok in R as ([prior next] & Nx & (l & L%map_err_Ok & (fk & Fk%map_err_Ok & (tk & Tk%map_err_Ok & R)%bind_Ok)%bind_Ok)%bind_Ok).
  apply bind_Ok in R as (v & _ & (f & (fl & _ & [= <-])%bind_Ok & (t & (tl & _ & [= <-])%bind_Ok & [= <-])%bind_Ok)%bind_Ok).
  destruct (market_ids e) as [|m' []] eqn:Mi; try done. injection Em as ->. destruct (account_ids e) as [|a' []] eqn:Ai; try done. injection Ea as ->.
  exists m, o, a, key, existing, prior, next, l, (Put fk fl), (Put tk tl). split_and!; try done.
  - unfold order_target. by rewrite Mi, Eo.
  - by eapply (identity_placed _ _ _ _ _ _ _ _ _ Fk); constructor.
  - by eapply (identity_placed _ _ _ _ _ _ _ _ _ Tk); constructor.
Qed.

(** What the order component writes under the key of an order. *)
Lemma order_written st e ms key m o : bt_sorted st -> order_key m o = Ok key -> order_reduce st e = Ok ms ->
  (order_target e = Some (m, o) /\ exists a existing prior next l, account_ids e = [a] /\ read_order st key = Ok existing /\
     next_order existing e o m a = Ok (prior, next) /\ record_encode next = Ok l /\ bt_get key (put_all st ms) = Some l) \/
  (order_target e <> Some (m, o) /\ bt_get key (put_all st ms) = bt_get key st).
Proof using Type.
  intros S K R. pose proof (order_distinct _ _ _ R) as N. pose proof (order_keyed _ _ _ K) as Nk. unfold keyed in Nk.
  apply order_reduce_inv in R as [[Et P]|(m' & o' & a & key' & existing & prior & next & l & f & t & Et & Ea & K' & Ex & Nx & El & -> & Pf & Pt)].
  { right. rewrite Et. split; [done|]. apply put_all_get; [done|]. eapply Forall_impl; [exact P|]. cbn beta.
    intros mu (k & l & -> & _ & I) <-. cbn in Nk. rewrite Nk in I. revert I. member. }
  destruct (decide (key' = key)) as [->|Ne].
  - left. destruct (order_keys_inj _ _ _ _ _ K K') as [<- <-]. split; [done|]. exists a, existing, prior, next, l. split_and!; try done.
    apply put_all_in; [done..|]. do 2 constructor.
  - right. split; [rewrite Et; intros [= -> ->]; rewrite K in K'; congruence|]. apply put_all_get; [done|].
    apply placed_one in Pf, Pt. unfold mutation_namespace in *.
    apply Forall_cons_2; [|apply Forall_cons_2; [done|apply Forall_singleton]].
    + intros Eq. rewrite Eq, Nk in Pf. revert Pf. member.
    + intros Eq. rewrite Eq, Nk in Pt. revert Pt. member.
Qed.

Lemma composite_order st e ctx ms key m o : bt_sorted st -> order_key m o = Ok key -> composite_reduce st e ctx = Ok ms ->
  (order_target e = Some (m, o) /\ exists a existing prior next l, account_ids e = [a] /\ read_order st key = Ok existing /\
     next_order existing e o m a = Ok (prior, next) /\ record_encode next = Ok l /\ bt_get key (put_all st ms) = Some l) \/
  (order_target e <> Some (m, o) /\ bt_get key (put_all st ms) = bt_get key st).
Proof using Type.
  intros S K (Ne & mss & F & ->)%composite_reduce_inv. pose proof (composite_placed _ _ _ _ F) as P.
  assert (owners e = [Component.Order] \/ (order_target e = None /\ ORDER_NAMESPACE ∉ concat (component_namespaces <$> owners e))) as [Eo|[Et No]].
  { assert (event_kind e = payload_kind (payload e)) as Ek by done. unfold owners in *. destruct (negb _); [done|]. rewrite Ek in *. clear P F.
    unfold order_target. destruct (payload e); cbn [payload_kind canonical_payload kind] in *; try done; try (by left).
    all: right; split; [by repeat case_match|]; repeat case_match; member. }
  - rewrite Eo in F. apply Forall2_cons_inv_l in F as (ms1 & mss' & R & F & ->). apply Forall2_nil_inv_l in F as ->. cbn [concat].
    rewrite app_nil_r. by apply order_written.
  - right. rewrite Et. split; [done|]. apply put_all_get; [done|]. eapply Forall_impl; [exact P|]. cbn beta.
    intros mu (k & l & -> & _ & I) <-. cbn in K. apply order_keyed in K. unfold keyed in K. by rewrite K in I.
Qed.

Lemma order_target_market e m o : order_target e = Some (m, o) -> market_ids e = [m].
Proof using Type. unfold order_target. by repeat case_match; intros [= <- <-]. Qed.

(** ** Records that read back *)

Record order_typed (r : OrderCurrentRecordV1) : Prop := {
  ow_order : id_wf (oc_order_id r);
  ow_account : address_wf (oc_account_id r);
  ow_market : id_wf (oc_market_id r);
  ow_price : Decimal.wf (oc_limit_price r);
  ow_accepted : Decimal.wf (oc_accepted_quantity r);
  ow_filled : Decimal.wf (oc_filled_quantity r);
  ow_remaining : Decimal.wf (oc_remaining_quantity r);
  ow_first_event : id_wf (oc_accepted_event_id r);
  ow_last_event : id_wf (oc_last_event_id r);
}.

Lemma lifecycle_roundtrip c : Lifecycle.parse (Lifecycle.as_wire_name c) = Ok c.
Proof using Type. by destruct c. Qed.
Lemma field_side s : field (side_parse_wire (side_as_wire_name s)) = Ok s.
Proof using Type. by rewrite side_wire_roundtrip. Qed.

Lemma order_back r : order_typed r -> from_wire (to_wire r) = Ok r.
Proof using Type*.
  intros [? ? ? ? ? ? ? ? ?].
  cbn -[parse_api to_api_string Decimal.from_str Decimal.to_string string_id_new field Lifecycle.parse Lifecycle.as_wire_name side_parse_wire side_as_wire_name].
  rewrite bool_decide_true by done. cbn [negb].
  repeat first [rewrite field_id by done|rewrite field_address by done|rewrite field_decimal by done|rewrite field_side|rewrite lifecycle_roundtrip|rewrite bind_of_Ok].
  by destruct r.
Qed.

Lemma plain_roundtrip_at {R W} `{StateRecord R W} `{JsonLaws W} (r : R) l key :
  from_wire (to_wire r) = Ok r -> record_encode r = Ok l -> rec_key r = Ok key -> plain_decode_at key l = Ok r.
Proof using Type.
  intros P E K. pose proof (record_encode_valid _ _ E) as V. unfold record_encode in E. apply bind_Ok in E as (u & _ & J).
  unfold plain_decode_at, plain_decode. rewrite (json_record_roundtrip _ _ J), bind_of_Ok, P, bind_of_Ok. unfold check.
  rewrite V, !bind_of_Ok, K, bind_of_Ok. by rewrite bool_decide_eq_true_2.
Qed.
Lemma plain_decode_at_inv {R W} `{StateRecord R W} `{Json W} (r : R) l key : plain_decode_at key l = Ok r ->
  rec_key r = Ok key /\ rec_validate r = true /\ exists w, from_wire w = Ok r.
Proof using Type.
  intros (r' & (w & _ & (r1 & F & (u & V & [= <-])%bind_Ok)%bind_Ok)%bind_Ok & (k & K & E)%bind_Ok)%bind_Ok.
  case_bool_decide; [|done]. injection E as <-. subst. unfold check in V. destruct (rec_validate r1) eqn:Ev; [|done]. eauto.
Qed.

Lemma order_read_wf key l r : plain_decode_at key l = Ok r ->
  Decimal.wf (oc_accepted_quantity r) /\ Decimal.wf (oc_filled_quantity r) /\ Decimal.wf (oc_remaining_quantity r).
Proof using Type.
  intros (_ & _ & w & F)%plain_decode_at_inv.
  cbn -[field parse_api string_id_new Decimal.from_str side_parse_wire Lifecycle.parse] in F. destruct (negb _); [done|].
  open_chain F. split_and!; cbn in *; by eapply field_wf.
Qed.
Lemma order_read_typed key l r : plain_decode_at key l = Ok r -> address_wf (oc_account_id r) -> order_typed r.
Proof using Type.
  intros (_ & _ & w & F)%plain_decode_at_inv Wa.
  cbn -[field parse_api string_id_new Decimal.from_str side_parse_wire Lifecycle.parse] in F. destruct (negb _); [done|].
  open_chain F. split; cbn in *; try done; first [by eapply field_wf|by eapply field_id_wf].
Qed.

(** ** Fills *)

(** What an event fills of an order. *)
Definition payload_fill (p : Payload.t) : Z :=
  match p with Payload.OrderPartiallyFilled _ _ _ quantity _ | Payload.OrderFilled _ _ _ quantity => atoms quantity | _ => 0 end.
Definition event_fill (m : MarketId) (o : OrderId) e : Z := if bool_decide (order_target e = Some (m, o)) then payload_fill (payload e) else 0.
Definition filled_of (r : option OrderCurrentRecordV1) : Z := match r with Some r => atoms (oc_filled_quantity r) | None => 0 end.

Lemma read_order_Ok st key r : read_order st key = Ok (Some r) -> exists l, bt_get key st = Some l /\ plain_decode_at key l = Ok r.
Proof using Type.
  unfold read_order. destruct (bt_get key st) as [l|]; [|done]. intros (r' & D%map_err_Ok & [= <-])%bind_Ok. by exists l.
Qed.

Lemma atoms_nonneg d : Decimal.wf d -> 0 <= Decimal.raw d -> 0 <= atoms d.
Proof using Type. intros [? ?] ?. unfold atoms. nia. Qed.
Lemma order_valid_sum r : Decimal.wf (oc_accepted_quantity r) -> Decimal.wf (oc_filled_quantity r) -> Decimal.wf (oc_remaining_quantity r) ->
  order_validate r = true ->
  0 <= atoms (oc_filled_quantity r) /\ 0 <= atoms (oc_remaining_quantity r) /\
  atoms (oc_accepted_quantity r) = atoms (oc_filled_quantity r) + atoms (oc_remaining_quantity r).
Proof using Type.
  intros Wa Wf Wr. unfold order_validate. destruct (_ || _) eqn:B; [done|]. bool_to_prop.
  destruct (Decimal.checked_add _ _) as [total|] eqn:A; [|done]. intros V. apply add_atoms in A as [Wt At]; [|done..]. bool_to_prop.
  split_and!; [by apply atoms_nonneg..|]. rewrite <- At. symmetry. by apply eq_atoms.
Qed.

Lemma transition_ok r p next : order_typed r -> payload_typed p -> transition_payload r p = Ok next ->
  order_typed next /\ oc_order_id next = oc_order_id r /\ oc_market_id next = oc_market_id r /\
  atoms (oc_filled_quantity next) = atoms (oc_filled_quantity r) + payload_fill p.
Proof using Type.
  intros [? ? ? ? ? ? ? ? ?] T E.
  assert (forall o q, cancel_order r o q = Ok next -> order_typed next /\ oc_order_id next = oc_order_id r /\ oc_market_id next = oc_market_id r /\
    atoms (oc_filled_quantity next) = atoms (oc_filled_quantity r) + 0) as C.
  { intros o q Ec. unfold cancel_order in Ec. destruct (negb _); [done|]. destruct (negb _); [done|]. injection Ec as <-. split; [by split|]. split_and!; [done..|]. symmetry; apply Z.add_0_r. }
  destruct p; cbn [transition_payload payload_typed] in *; try done; repeat (case_match; [done|]).
  - apply bind_Ok in E as ([o q] & _ & E). by eapply C.
  - injection E as <-. split; [by split|]. split_and!; [done..|]. symmetry; apply Z.add_0_r.
  - apply bind_Ok in E as (acc & A%map_err_Ok & [= <-]). destruct T.
    apply add_atoms in A as [Wa _]; [|done..]. split; [by split|]. split_and!; [done..|]. symmetry; apply Z.add_0_r.
  - apply bind_Ok in E as (rem & R%map_err_Ok & E). repeat (case_match; [done|]).
    apply bind_Ok in E as (f & F%map_err_Ok & [= <-]). destruct T. apply sub_atoms in R as [Wr _]; [|done..].
    apply add_atoms in F as [Wf Af]; [|done..]. split; [by split|]. done.
  - apply bind_Ok in E as (f & F%map_err_Ok & (rem & R%map_err_Ok & [= <-])%bind_Ok). destruct T. apply sub_atoms in R as [Wr _]; [|done..].
    apply add_atoms in F as [Wf Af]; [|done..]. split; [by split|]. done.
  - by eapply C.
Qed.

Lemma next_order_ok st e key m o a existing prior next : envelope_typed e -> market_ids e = [m] -> account_ids e = [a] -> order_key m o = Ok key ->
  read_order st key = Ok existing -> next_order existing e o m a = Ok (prior, next) ->
  order_typed next /\ rec_key next = Ok key /\ atoms (oc_filled_quantity next) = filled_of existing + payload_fill (payload e).
Proof using Type.
  intros T Em Ea K R E. pose proof (typed_event _ T) as We. pose proof (typed_payload _ T) as Tp.
  pose proof (typed_accounts _ T) as Ta. rewrite Ea, Forall_singleton in Ta. pose proof (typed_markets _ T) as Tm. rewrite Em, Forall_singleton in Tm.
  assert ((exists order account market side price quantity, payload e = Payload.OrderAccepted order account market side price quantity) \/
    exists r, existing = Some r /\ oc_account_id r = a /\ oc_market_id r = m /\ exists t, apply_transition r e = Ok t /\ t = next)
    as [(order & account & market & side & price & quantity & Ep)|(r & -> & Ea' & Em' & t & A & ->)].
  { unfold next_order in E. destruct (payload e); try (left; by eauto 10); right; apply bind_Ok in E as (r & ->%ok_or_Ok & E);
      (destruct (negb _ || _) eqn:B; [done|]); (destruct (Lifecycle.is_terminal _); [done|]); apply bind_Ok in E as (x & _ & (t & A & [= _ <-])%bind_Ok);
      bool_to_prop; eauto 10. }
  - unfold next_order in E. rewrite Ep in *. destruct existing; [done|]. cbn [is_set] in E. destruct (negb _ || _ || _) eqn:B; [done|]. bool_to_prop. subst.
    apply bind_Ok in E as (z & Z%map_err_Ok & [= _ <-]). destruct Tp as (Wo & Wp & Wq). apply sub_self_atoms in Z as [Wz Az]; [|done].
    split; [by split|]. split; [done|]. cbn. lia.
  - apply read_order_Ok in R as (l & _ & D). pose proof (plain_decode_at_inv _ _ _ D) as (Kr & _). rewrite <- Ea' in Ta.
    apply order_read_typed in D; [|done]. unfold apply_transition in A. destruct (negb _); [done|].
    apply bind_Ok in A as (t & Tr & [= <-]). apply transition_ok in Tr as ([? ? ? ? ? ? ? ? ?] & Eo & Emk & Ef); [|done..].
    split; [by split|]. split; [|done]. cbn in *. by rewrite Eo, Emk.
Qed.
End events.

(** ** Runs *)

Lemma fold_left_snoc {A} (xs acc : list A) : fold_left (fun acc x => acc ++ [x]) xs acc = acc ++ xs.
Proof.
  revert acc. induction xs as [|x xs IH]; intros acc; cbn [fold_left]; [by rewrite app_nil_r|]. by rewrite IH, <- app_assoc.
Qed.
Lemma fold_left_plus {A} (f : A -> Z) xs n : fold_left (fun n x => n + f x) xs n = n + foldr (fun x n => f x + n) 0 xs.
Proof. revert n. induction xs as [|x xs IH]; intros n; cbn [fold_left foldr]; [lia|]. rewrite IH. lia. Qed.

Section runs.
Context `{HexLaws} `{Blake3} `{PW : PayloadWire} `{SJ : StateJson}.
Implicit Types (l : CanonicalLedger CanonicalStateReducerV1) (e : Envelope) (st : Entries).

(** C14. An order that has ended is final. If the state of a ledger with the
    production reducer holds an order that is filled or cancelled, then after
    any run its record has the same bytes, and no block that was applied has an
    event for it: every block with one is refused. *)
Theorem ended_orders_final l bs rs l' m o key v r : bt_sorted (img_entries (state l)) -> order_key m o = Ok key ->
  bt_get key (img_entries (state l)) = Some v -> plain_decode_at key v = Ok r -> Lifecycle.is_terminal (oc_lifecycle r) = true ->
  apply_blocks bs l = (rs, l') ->
  bt_get key (img_entries (state l')) = Some v /\ Forall (fun e => order_target e <> Some (m, o)) (applied_events rs).
Proof using Type.
  intros S K G D T E. set (P e := order_target e <> Some (m, o)).
  assert (let a := fold_left (fun a e => a ++ [e]) (applied_events rs) [] in
    bt_get key (img_entries (state l')) = Some v /\ Forall P a) as A; [|cbv zeta in A; by rewrite fold_left_snoc in A].
  refine (apply_blocks_sim (fun _ => True) (fun st a => bt_get key st = Some v /\ Forall P a) (fun a e => a ++ [e])
    (reducer l) _ l bs rs l' [] eq_refl S _ _ E); [|by apply Forall_true; intros b; apply Forall_true|by split; [|constructor]].
  intros st a e ctx ms Se _ [Ge Fa] R.
  apply (composite_order _ _ _ _ _ _ _ Se K) in R as [(Et & a' & existing & prior & next & x & Ea & Ro & Nx & _)|[Et G']].
  - exfalso. unfold read_order in Ro. rewrite Ge, D in Ro. cbn in Ro. injection Ro as <-. unfold next_order in Nx.
    destruct (payload e); cbn in Nx; try done; destruct (negb _ || _); try done; by rewrite T in Nx.
  - rewrite G'. split; [done|]. apply Forall_app. by split; [|apply Forall_singleton].
Qed.

Context `{LO : !JsonLaws OrderCurrentWire}.

(** What the state says an order has been filled. *)
Definition filled st (key : StateKey) : Z := match read_order st key with Ok r => filled_of r | Err _ => 0 end.

Lemma composite_filled st e ctx ms key m o : bt_sorted st -> envelope_typed e -> order_key m o = Ok key -> composite_reduce st e ctx = Ok ms ->
  filled (put_all st ms) key = filled st key + event_fill m o e.
Proof using Type*.
  intros S T K R. unfold event_fill.
  apply (composite_order _ _ _ _ _ _ _ S K) in R as [(Et & a & existing & prior & next & x & Ea & Ro & Nx & Ex & Gx)|[Et Gx]].
  - rewrite bool_decide_eq_true_2 by done. pose proof (order_target_market _ _ _ Et) as Em.
    destruct (next_order_ok _ _ _ _ _ _ _ _ _ T Em Ea K Ro Nx) as (Tn & Kn & Fn).
    unfold filled. unfold read_order at 1. rewrite Gx, (plain_roundtrip_at _ _ _ (order_back _ Tn) Ex Kn), Ro. done.
  - rewrite bool_decide_eq_false_2 by done. unfold filled, read_order. rewrite Gx. lia.
Qed.

(** C10. Orders are filled exactly. Over any run of the ledger with the
    production reducer, what the record of an order says was filled grows by
    exactly the fills of the blocks that were applied, no fill lost and none
    counted twice; and the record always has what was accepted equal to what is
    filled plus what remains, neither of them negative. *)
Theorem orders_fill_exact l bs rs l' m o key : bt_sorted (img_entries (state l)) -> Forall block_fields_typed bs ->
  order_key m o = Ok key -> apply_blocks bs l = (rs, l') ->
  filled (img_entries (state l')) key = filled (img_entries (state l)) key + foldr (fun e n => event_fill m o e + n) 0 (applied_events rs) /\
  forall r, read_order (img_entries (state l')) key = Ok (Some r) ->
    0 <= atoms (oc_filled_quantity r) /\ 0 <= atoms (oc_remaining_quantity r) /\
    atoms (oc_accepted_quantity r) = atoms (oc_filled_quantity r) + atoms (oc_remaining_quantity r).
Proof using Type*.
  intros S F K E. split.
  - rewrite <- (fold_left_plus (event_fill m o)).
    refine (apply_blocks_sim envelope_typed (fun st n => filled st key = n) (fun n e => n + event_fill m o e)
      (reducer l) _ l bs rs l' _ eq_refl S F eq_refl E).
    intros st a e ctx ms Se Te <- R. exact (composite_filled _ _ _ _ _ _ _ Se Te K R).
  - intros r (x & _ & D)%read_order_Ok. destruct (order_read_wf _ _ _ D) as (? & ? & ?).
    apply plain_decode_at_inv in D as (_ & V & _). by apply order_valid_sum.
Qed.
End runs.

(** ** A concrete run: one order rests and is filled in parts, another is filled *)

#[local] Existing Instances sample_hex sample_hex_laws sample_blake3 no_payloads.

Definition dec (n : Z) : Decimal.t := Decimal.mk n 0.
Definition order_event (height index : Z) (id : string) (a : Address) (p : Payload.t) : Envelope := desk_event height index id ["BTC"%string] [a] p.
Definition accept1 := order_event 5 0 "a0" alice (Payload.OrderAccepted "o1" alice "BTC" Buy (dec 2) (dec 5)).
Definition rest1 := order_event 5 1 "a1" alice (Payload.OrderRested "o1" "BTC" (dec 5) (dec 2)).
Definition fill1 := order_event 5 2 "a2" alice (Payload.OrderPartiallyFilled "o1" "t" (dec 2) (dec 2) (dec 3)).
Definition accept2 := order_event 5 3 "a3" bob (Payload.OrderAccepted "o2" bob "BTC" Sell (dec 3) (dec 4)).
Definition fill2 := order_event 5 4 "a4" bob (Payload.OrderFilled "o2" "t" (dec 3) (dec 4)).
Definition trigger1 := order_event 6 0 "a5" alice (Payload.TriggerOrderActivated "o1" (dec 2) (dec 2)).
Definition fill3 := order_event 6 1 "a6" alice (Payload.OrderPartiallyFilled "o1" "t" (dec 2) (dec 1) (dec 2)).
(** A cancellation of the order that is already filled. *)
Definition late_cancel := order_event 7 0 "a7" bob (Payload.OrderCancelled "o2" "late" (dec 4)).
Definition order_blocks := [desk_block 5 [accept1; rest1; fill1; accept2; fill2]; desk_block 6 [trigger1; fill3]].

Definition order1 (c : Lifecycle.t) (filled remaining : Z) (last : string) (height : Z) : OrderCurrentRecordV1 :=
  mkOrder "o1" alice "BTC" Buy c (dec 2) (dec 5) (dec filled) (dec remaining) "a0" last height.
Definition order2 (c : Lifecycle.t) (filled remaining : Z) (last : string) : OrderCurrentRecordV1 :=
  mkOrder "o2" bob "BTC" Sell c (dec 3) (dec 4) (dec filled) (dec remaining) "a3" last 5.
Definition order_records : list OrderCurrentRecordV1 :=
  [order1 Lifecycle.Accepted 0 5 "a0" 5; order1 Lifecycle.Rested 0 5 "a1" 5; order1 Lifecycle.PartiallyFilled 2 3 "a2" 5;
   order2 Lifecycle.Accepted 0 4 "a3"; order2 Lifecycle.Filled 4 0 "a4"; order1 Lifecycle.PartiallyFilled 3 2 "a6" 6].
Definition order_fact (e : Envelope) (o : string) (a : Address) : OrderFactRecordV1 :=
  mkOrderFact (event_id e) (event_kind e) (Some o) None a (Some "BTC"%string) (ev_block_height e) (replicate 32 x09).
(** The transition of an event from one record of the table to another. *)
Definition order_step (e : Envelope) (o : string) (a : Address) (from : option nat) (to : nat) : OrderTransitionRecordV1 :=
  let hash n := hash_current (replicate (S n) x2e) in
  mkTransition (event_id e) (event_kind e) (Some o) None a (Some "BTC"%string) (ev_block_height e) (replicate 32 x09) (hash <$> from)
    (Some (hash to)) ORDER_VERSION TransitionApplied.

Definition order_json : OrderJson := {|
  json_order_fact := table_json (to_wire <$> [order_fact accept1 "o1" alice; order_fact rest1 "o1" alice; order_fact fill1 "o1" alice;
    order_fact accept2 "o2" bob; order_fact fill2 "o2" bob; order_fact fill3 "o1" alice]);
  json_order := table_json (to_wire <$> order_records);
  json_order_transition := table_json (to_wire <$> [order_step accept1 "o1" alice None 0; order_step rest1 "o1" alice (Some 0%nat) 1;
    order_step fill1 "o1" alice (Some 1%nat) 2; order_step accept2 "o2" bob None 3; order_step fill2 "o2" bob (Some 3%nat) 4;
    order_step fill3 "o1" alice (Some 2%nat) 5]);
|}.
Definition trigger_fact : ActivityFact trigger_activity := mkActivityFact "a5" TriggerOrderActivated "o1" alice "BTC" 6 (replicate 32 x09).
Definition trigger_step : ActivityTransition trigger_activity :=
  mkActivityTransition "a5" TriggerOrderActivated "o1" alice "BTC" 6 (replicate 32 x09) None (activity_hash trigger_activity [x2e])
    (ac_version trigger_activity).
Definition order_activity_json : ActivityJson := {|
  json_activity_fact := table_json [to_wire trigger_fact]; json_activity_transition := table_json [to_wire trigger_step];
  json_trigger := table_json [to_wire (mkTrigger "o1" alice "BTC" (dec 2) (dec 2) "a5" "a5" 6)]; json_twap := table_json [];
|}.
Definition order_state_json : StateJson :=
  Build_StateJson no_market_json order_json no_trade_json no_position_json no_episode_json no_liquidation_json order_activity_json no_flow_json.
#[local] Existing Instance order_state_json.
Lemma order_table_laws : JsonLaws OrderCurrentWire.
Proof. apply table_json_laws. Qed.
Lemma trigger_table_laws : JsonLaws TriggerWire.
Proof. apply table_json_laws. Qed.
#[local] Existing Instance order_table_laws.

Definition order_run := apply_blocks order_blocks desk_ledger.
Definition key_of (o : string) : StateKey := match order_key "BTC" o with Ok k => k | Err _ => mkKey "" [] end.

Lemma order_blocks_typed : Forall block_fields_typed order_blocks.
Proof. repeat constructor; vm_compute; (reflexivity || discriminate). Qed.

Lemma orders_fill_exact_witness : length (applied_events order_run.1) = 7%nat /\ filled (img_entries (state order_run.2)) (key_of "o1") = 3 * 10 ^ 38.
Proof.
  split; [vm_compute; reflexivity|].
  destruct (orders_fill_exact desk_ledger order_blocks order_run.1 order_run.2 "BTC" "o1" (key_of "o1")) as [E _];
    [constructor|exact order_blocks_typed|vm_compute; reflexivity..|]. rewrite E. vm_compute. reflexivity.
Defined.

Definition late_run := apply_blocks [desk_block 7 [late_cancel]] order_run.2.
Lemma ended_orders_final_witness : length late_run.1 = 1%nat /\ Forall (fun e => order_target e <> Some ("BTC"%string, "o2"%string)) (applied_events late_run.1).
Proof.
  split; [vm_compute; reflexivity|].
  apply (ended_orders_final order_run.2 [desk_block 7 [late_cancel]] late_run.1 late_run.2 "BTC" "o2" (key_of "o2") (replicate 5 x2e)
    (order2 Lifecycle.Filled 4 0 "a4")); [vm_compute; repeat constructor|vm_compute; reflexivity..].
Defined.
