(* ===== verification/ProjectedBook.v ===== *)
(** * The order book of the canonical state

    [l4_projection.rs] reads the level-4 book of a market out of the state. The
    records of orders and of activated triggers stay readable along every run
    of the ledger with the production reducer, and the book read from them
    holds exactly the orders that rest in the state. *)

From Stdlib Require Import Strings.Byte Strings.String.
From stdpp Require Import sorting sets.
From S2P Require Import Prelude Ordering Sorting BTreeMap Bytes FixedPoint Ids OrderBook Store StateImage Publication Blocks Ledger Payloads Records Opaque Markets Accounts Orders Activations Flows FlowEvents Composite Samples Namespaces Production Trail Coherence Balance OrderRuns.

(** A mutation placed in one namespace does not write in another. *)
Ltac elsewhere P N :=
  exfalso; apply placed_one in P; unfold mutation_namespace in P; cbn [mutation_key] in P; rewrite N in P; revert P; member.

Definition add_trigger (triggers : btmap OrderId Price) (x : OrderId * Price) : btmap OrderId Price := bt_insert x.1 x.2 triggers.

Lemma omap_keys_NoDup {A B} (f : StateKey * bytes -> option A) (g : A -> B) (es : Entries) :
  (forall k l k' l' x x', f (k, l) = Some x -> f (k', l') = Some x' -> g x = g x' -> k = k') ->
  NoDup es.*1 -> NoDup (g <$> omap f es).
Proof.
  intros I. induction es as [|[k l] es IH]; cbn; [constructor|]. intros [N Nd]%NoDup_cons. apply IH in Nd.
  destruct (f (k, l)) as [x|] eqn:E; [|done]. cbn. apply NoDup_cons. split; [|done].
  intros (x' & Eg & ([k' l'] & Ie & E')%list_elem_of_omap)%list_elem_of_fmap. apply N. rewrite (I _ _ _ _ _ _ E E' Eg).
  by apply (list_elem_of_fmap_2 fst _ (k', l')).
Qed.
Lemma add_triggers_get ts (id : OrderId) p : NoDup ts.*1 -> bt_get id (fold_left add_trigger ts []) = Some p <-> (id, p) ∈ ts.
Proof.
  induction ts as [|[i q] ts IH] using rev_ind; [cbn; by rewrite elem_of_nil|]. rewrite fmap_app, fold_left_app. cbn [fold_left].
  intros (N & D & _)%NoDup_app. unfold add_trigger at 1. cbn [fst snd]. rewrite bt_get_insert, eqb_decide, elem_of_app, list_elem_of_singleton.
  case_bool_decide as E; subst.
  - split; [intros [= ->]; by right|]. intros [I|[= ->]]; [|done]. exfalso. apply (D i); [|set_solver]. by apply (list_elem_of_fmap_2 fst _ (i, p)).
  - rewrite IH by done. naive_solver.
Qed.

Lemma sorted_keys_NoDup (es : Entries) : bt_sorted es -> NoDup es.*1.
Proof.
  induction 1 as [|x es S IH F]; cbn; constructor; [|done]. intros (y & E & I)%list_elem_of_fmap.
  rewrite Forall_forall in F. apply F in I. unfold bt_lt in I. rewrite E in I. by rewrite cmp_refl in I.
Qed.
Lemma entry_of_get (es : Entries) k l : bt_get k es = Some l -> (k, l) ∈ es.
Proof. intros (k' & ->%cmp_eq_leibniz & I)%bt_get_Some. exact I. Qed.

Section books.
Context `{HexLaws} `{Blake3} `{PW : PayloadWire} `{SJ : StateJson}.
Implicit Types (e : Envelope) (st es : Entries) (m : MarketId) (id : OrderId).

(** ** Readable records *)

(** Every record of an order or of a trigger decodes, at the key it is under. *)
Record book_readable st : Prop := {
  br_orders : forall k l, bt_get k st = Some l -> namespace k = ORDER_NAMESPACE -> exists r : OrderCurrentRecordV1, plain_decode_at k l = Ok r;
  br_triggers : forall k l, bt_get k st = Some l -> namespace k = ac_namespace trigger_activity ->
    exists r : TriggerCurrentRecordV1, plain_decode_at k l = Ok r;
}.

Record trigger_typed (r : TriggerCurrentRecordV1) : Prop := {
  tt_order : id_wf (tr_order_id r);
  tt_account : address_wf (tr_account_id r);
  tt_market : id_wf (tr_market_id r);
  tt_price : Decimal.wf (tr_trigger_price r);
  tt_oracle : Decimal.wf (tr_oracle_price r);
  tt_activated : id_wf (tr_activated_event_id r);
  tt_last : id_wf (tr_last_event_id r);
}.
Lemma trigger_back r : trigger_typed r -> from_wire (to_wire r) = Ok r.
Proof using Type*.
  intros [? ? ? ? ? ? ?]. cbn -[parse_api to_api_string Decimal.from_str Decimal.to_string string_id_new field].
  rewrite bool_decide_true by done. cbn [negb].
  repeat first [rewrite field_id by done|rewrite field_address by done|rewrite field_decimal by done|rewrite bind_of_Ok].
  by destruct r.
Qed.

Context `{LO : !JsonLaws OrderCurrentWire} `{LT : !JsonLaws TriggerWire}.

Lemma order_puts_readable st e ms k l : envelope_typed e -> order_reduce st e = Ok ms -> Put k l ∈ ms -> namespace k = ORDER_NAMESPACE ->
  exists r : OrderCurrentRecordV1, plain_decode_at k l = Ok r.
Proof using Type*.
  intros T [[_ P]|(m & o & a & key & existing & prior & next & x & f & t & Et & Ea & K & Ro & Nx & Ex & -> & Pf & Pt)]%order_reduce_inv I N.
  { rewrite Forall_forall in P. destruct (P _ I) as (k' & l' & [= <- <-] & _ & In). rewrite N in In. exfalso. revert In. member. }
  rewrite !elem_of_cons in I. destruct I as [<-|[[= -> ->]|[<-|[]%elem_of_nil]]].
  - elsewhere Pf N.
  - destruct (next_order_ok _ _ _ _ _ _ _ _ _ T (order_target_market _ _ _ Et) Ea K Ro Nx) as (Tn & Kn & _).
    exists next. by apply (plain_roundtrip_at _ _ _ (order_back _ Tn)).
  - elsewhere Pt N.
Qed.

Lemma trigger_puts_readable st e ms k l : envelope_typed e -> trigger_reduce st e = Ok ms -> Put k l ∈ ms ->
  namespace k = ac_namespace trigger_activity -> exists r : TriggerCurrentRecordV1, plain_decode_at k l = Ok r.
Proof using Type*.
  intros T R I N. pose proof (typed_payload _ T) as Tp. pose proof (typed_event _ T) as We.
  pose proof (typed_accounts _ T) as Ta. pose proof (typed_markets _ T) as Tm.
  unfold trigger_reduce in R. destruct (payload e) eqn:Ep; try done. destruct (market_ids e) as [|m [|]] eqn:Em; try done.
  destruct (account_ids e) as [|a [|]] eqn:Ea; try done. apply Forall_inv in Ta, Tm. destruct Tp as (Wo & Wt & Wp).
  apply bind_Ok in R as (key & K%map_err_Ok & R). destruct (bt_contains _ _); [done|].
  apply bind_Ok in R as (x & X%map_err_Ok & R). unfold activity_puts in R.
  apply bind_Ok in R as (fk & Fk%map_err_Ok & (tk & Tk%map_err_Ok & R)%bind_Ok). destruct (_ || _); [done|].
  apply bind_Ok in R as (fl & _ & (tl & _ & [= <-])%bind_Ok).
  rewrite !elem_of_cons in I. destruct I as [[= -> ->]|[[= -> ->]|[[= -> ->]|[]%elem_of_nil]]].
  - apply (order_placed [ac_fact_namespace trigger_activity] _ _ _ []) in Fk; [|constructor]. elsewhere Fk N.
  - eexists. refine (plain_roundtrip_at _ _ _ (trigger_back _ _) X K). by split.
  - apply (order_placed [ac_transition_namespace trigger_activity] _ _ _ []) in Tk; [|constructor]. elsewhere Tk N.
Qed.

(** Whoever writes a record of an order or of a trigger is its reducer. *)
Lemma composite_puts st e ctx ms k l : composite_reduce st e ctx = Ok ms -> Put k l ∈ ms ->
  exists c ms', reduce_child c st e ctx = Ok ms' /\ Put k l ∈ ms' /\ namespace k ∈ component_namespaces c.
Proof using Type.
  intros (_ & mss & F & ->)%composite_reduce_inv I. apply list_elem_of_In, in_concat in I as (ms' & I1 & I2).
  apply list_elem_of_In in I1, I2. apply list_elem_of_lookup in I1 as [i L]. destruct (Forall2_lookup_r _ _ _ _ _ F L) as (c & _ & R).
  exists c, ms'. split_and!; [done..|]. apply child_placed in R. rewrite Forall_forall in R. by destruct (R _ I2) as (k' & l' & [= <- <-] & _ & N).
Qed.

Lemma composite_readable st e ctx ms : bt_sorted st -> envelope_typed e -> composite_reduce st e ctx = Ok ms ->
  book_readable st -> book_readable (put_all st ms).
Proof using Type*.
  intros S T R [Ro Rt].
  assert (Forall (fun mu => exists k l, mu = Put k l) ms) as P.
  { apply composite_reduce_inv in R as (_ & mss & F & ->). eapply Forall_impl; [by eapply composite_placed|]. intros mu (k & l & -> & _). eauto. }
  split; intros k l [I|G]%put_all_get_inv N; try done; try (by eapply Ro); try (by eapply Rt);
    destruct (composite_puts _ _ _ _ _ _ R I) as (c & ms' & Rc & I' & Nc); rewrite N in Nc.
  - destruct c; try (exfalso; revert Nc; member). exact (order_puts_readable st e ms' k l T Rc I' N).
  - destruct c; try (exfalso; revert Nc; member). exact (trigger_puts_readable st e ms' k l T Rc I' N).
Qed.

(** ** Reading the book *)

Definition entry_order m (x : StateKey * bytes) : option RestingOrder :=
  if bool_decide (namespace x.1 = ORDER_NAMESPACE) then
    match plain_decode_at (R := OrderCurrentRecordV1) x.1 x.2 with Ok r => if bool_decide (oc_market_id r = m) then try_resting r else None | Err _ => None end
  else None.
Definition entry_trigger m (x : StateKey * bytes) : option (OrderId * Price) :=
  if bool_decide (namespace x.1 = ac_namespace trigger_activity) then
    match plain_decode_at (R := TriggerCurrentRecordV1) x.1 x.2 with
    | Ok r => if bool_decide (tr_market_id r = m) then Some (tr_order_id r, tr_trigger_price r) else None
    | Err _ => None
    end
  else None.

Definition entry_readable (x : StateKey * bytes) : Prop :=
  (namespace x.1 = ORDER_NAMESPACE -> exists r : OrderCurrentRecordV1, plain_decode_at x.1 x.2 = Ok r) /\
  (namespace x.1 = ac_namespace trigger_activity -> exists r : TriggerCurrentRecordV1, plain_decode_at x.1 x.2 = Ok r).

Lemma plain_decode_at_plain {R W} `{StateRecord R W} `{Json W} (r : R) l key : plain_decode_at key l = Ok r -> plain_decode l = Ok r.
Proof using Type. intros (r' & D & (k & _ & E)%bind_Ok)%bind_Ok. case_bool_decide; [|done]. by injection E as <-. Qed.

Lemma collect_book_Ok m es triggers orders : Forall entry_readable es ->
  collect_book m es triggers orders = Ok (fold_left add_trigger (omap (entry_trigger m) es) triggers, orders ++ omap (entry_order m) es).
Proof using Type.
  intros F. revert triggers orders. induction F as [|[k l] es [Fo Ft] F IH]; intros triggers orders; cbn -[plain_decode plain_decode_at].
  { by rewrite app_nil_r. }
  unfold entry_trigger at 1, entry_order at 1. cbn [fst snd] in *. destruct (bool_decide_reflect (namespace k = ac_namespace trigger_activity)) as [N|N].
  - destruct (Ft N) as [r D]. rewrite D, (plain_decode_at_plain _ _ _ D). rewrite bool_decide_eq_true_2 by done.
    rewrite (bool_decide_eq_false_2 (namespace k = ORDER_NAMESPACE)) by (rewrite N; member). cbn. rewrite IH. by case_bool_decide.
  - rewrite bool_decide_eq_false_2 by done. destruct (bool_decide_reflect (namespace k = ORDER_NAMESPACE)) as [No|No].
    + destruct (Fo No) as [r D]. rewrite D, (plain_decode_at_plain _ _ _ D). rewrite bool_decide_eq_true_2 by done. cbn. rewrite IH.
      case_bool_decide; [|done]. destruct (try_resting r); [|done]. by rewrite <- app_assoc.
    + rewrite bool_decide_eq_false_2 by done. apply IH.
Qed.

(** ** What the book holds *)

(** The price of the trigger that was activated for an order. *)
Definition trigger_at st m id : option Price :=
  match activity_key trigger_activity m id with
  | Ok key =>
      match bt_get key st with
      | Some l => match plain_decode_at (R := TriggerCurrentRecordV1) key l with Ok r => Some (tr_trigger_price r) | Err _ => None end
      | None => None
      end
  | Err _ => None
  end.
(** The order that rests under an id, with its trigger. *)
Definition resting_at st m id : option RestingOrder :=
  match order_key m id with
  | Ok key =>
      match read_order st key with
      | Ok (Some r) =>
          o ← try_resting r;
          Some (match trigger_at st m id with Some p => RestingOrder.with_trigger (Activated p) o | None => o end)
      | _ => None
      end
  | Err _ => None
  end.

Lemma try_resting_Some r o : try_resting r = Some o -> order_id o = oc_order_id r /\ (order_validate r = true -> order_positive o).
Proof using Type.
  unfold try_resting. destruct (_ || _) eqn:B; [done|]. bool_to_prop. intros [= <-]. split; [done|]. unfold order_validate.
  destruct (_ || _) eqn:V; [done|]. intros _. bool_to_prop. unfold order_positive. cbn. lia.
Qed.

Lemma entry_order_Some m k l o : entry_order m (k, l) = Some o ->
  order_key m (order_id o) = Ok k /\ order_positive o /\ exists r, plain_decode_at k l = Ok r /\ try_resting r = Some o.
Proof using Type.
  unfold entry_order. cbn [fst snd]. case_bool_decide; [|done]. destruct (plain_decode_at k l) as [r|] eqn:D; [|done]. case_bool_decide; [|done].
  intros T. pose proof (plain_decode_at_inv _ _ _ D) as (K & V & _). destruct (try_resting_Some _ _ T) as [Ei P]. split_and!; [|by apply P|eauto].
  rewrite Ei. cbn in K. congruence.
Qed.
Lemma entry_trigger_Some m k l id p : entry_trigger m (k, l) = Some (id, p) ->
  activity_key trigger_activity m id = Ok k /\ exists r, plain_decode_at k l = Ok r /\ tr_trigger_price r = p.
Proof using Type.
  unfold entry_trigger. cbn [fst snd]. case_bool_decide; [|done]. destruct (plain_decode_at k l) as [r|] eqn:D; [|done]. case_bool_decide; [|done].
  intros [= <- <-]. pose proof (plain_decode_at_inv _ _ _ D) as (K & _). split; [|eauto]. cbn in K. congruence.
Qed.

(** What [collect_book] finds, and the orders the snapshot is made of. *)
Definition book_triggers st m : btmap OrderId Price := fold_left add_trigger (omap (entry_trigger m) st) [].
Definition book_orders st m : list RestingOrder := @sort _ (pull_cmp order_id) (attach_trigger (book_triggers st m) <$> omap (entry_order m) st).

Section reading.
Context (st : Entries) (S : bt_sorted st) (B : book_readable st) (m : MarketId).

Lemma entries_readable : Forall entry_readable st.
Proof using S B.
  apply Forall_forall. intros [k l] I. apply (bt_get_elem _ _ _ S) in I. destruct B as [Bo Bt]. split; intros N; [by eapply Bo|by eapply Bt].
Qed.

Lemma entry_trigger_at id p : (exists x, x ∈ st /\ entry_trigger m x = Some (id, p)) <-> trigger_at st m id = Some p.
Proof using S B.
  unfold trigger_at. split.
  - intros ([k l] & I & (K & r & D & <-)%entry_trigger_Some). by rewrite K, (bt_get_elem _ _ _ S I), D.
  - destruct (activity_key _ m id) as [k|] eqn:K; [|done]. destruct (bt_get k st) as [l|] eqn:G; [|done].
    destruct (plain_decode_at k l) as [r|] eqn:D; [|done]. intros [= <-]. exists (k, l). split; [by apply entry_of_get|].
    unfold entry_trigger. cbn [fst snd]. rewrite bool_decide_eq_true_2 by exact (order_keyed _ _ _ K). rewrite D.
    apply plain_decode_at_inv in D as (K' & _). destruct (activity_keys_inj _ _ _ _ _ _ K K') as [Em ->]. by rewrite bool_decide_eq_true_2.
Qed.
Lemma triggers_at id : bt_get id (book_triggers st m) = trigger_at st m id.
Proof using S B.
  assert (NoDup (omap (entry_trigger m) st).*1) as N.
  { apply omap_keys_NoDup; [|by apply sorted_keys_NoDup]. intros k l k' l' [i p] [i' p'] [K _]%entry_trigger_Some [K' _]%entry_trigger_Some [= <-]. congruence. }
  apply option_eq. intros p. unfold book_triggers. rewrite add_triggers_get by done. rewrite <- entry_trigger_at, list_elem_of_omap. naive_solver.
Qed.

Lemma attach_trigger_id triggers o : order_id (attach_trigger triggers o) = order_id o.
Proof using Type. unfold attach_trigger. by case_match. Qed.

Lemma orders_at id o : o ∈ book_orders st m /\ order_id o = id <-> resting_at st m id = Some o.
Proof using S B.
  unfold book_orders. rewrite elem_of_sort, list_elem_of_fmap. unfold resting_at. split.
  - intros [(o' & -> & ([k l] & I & (K & _ & r & D & T)%entry_order_Some)%list_elem_of_omap) <-]. rewrite attach_trigger_id, K.
    unfold read_order. rewrite (bt_get_elem _ _ _ S I), D. cbn. rewrite T. cbn. unfold attach_trigger. rewrite triggers_at. by case_match.
  - destruct (order_key m id) as [k|] eqn:K; [|done]. destruct (read_order st k) as [[r|]|] eqn:R; try done.
    destruct (try_resting r) as [o'|] eqn:T; [|done]. cbn. intros [= <-]. apply read_order_Ok in R as (l & G & D).
    pose proof (plain_decode_at_inv _ _ _ D) as (K' & _). destruct (order_keys_inj _ _ _ _ _ K K') as [Em ->].
    destruct (try_resting_Some _ _ T) as [<- _]. unfold attach_trigger. split; [|by case_match].
    exists o'. split; [by rewrite triggers_at|]. apply list_elem_of_omap. exists (k, l). split; [by apply entry_of_get|].
    unfold entry_order. cbn [fst snd]. rewrite bool_decide_eq_true_2 by exact (order_keyed _ _ _ K). rewrite D. by rewrite bool_decide_eq_true_2.
Qed.

Lemma orders_valid : Forall order_positive (book_orders st m) /\ NoDup (order_id <$> book_orders st m).
Proof using S B.
  split.
  - apply Forall_forall. intros o (o' & -> & ([k l] & _ & (_ & P & _)%entry_order_Some)%list_elem_of_omap)%elem_of_sort%list_elem_of_fmap.
    unfold attach_trigger. by case_match.
  - unfold book_orders. rewrite sort_perm, <- list_fmap_compose.
    rewrite (list_fmap_ext _ order_id) by (intros; apply attach_trigger_id).
    apply omap_keys_NoDup; [|by apply sorted_keys_NoDup]. intros k l k' l' x x' (K & _)%entry_order_Some (K' & _)%entry_order_Some E. congruence.
Qed.

(** A book with exactly the orders of the market that rest in the state. *)
Definition holds_resting b : Prop := forall id, lookup_order b id = resting_at st m id.

Lemma loaded_resting b : (forall id o, lookup_order b id = Some o <-> o ∈ book_orders st m /\ order_id o = id) -> holds_resting b.
Proof using S B. intros L id. apply option_eq. intros o. by rewrite L, orders_at. Qed.

Lemma project_book image : img_entries image = st ->
  match project_l4_book m image with
  | Ok b => exists w, img_watermark image = Some w /\ health b = Healthy /\ book_sequence b = wm_height w /\ as_of_block b = wm_height w /\
      lifecycle b = [] /\ uncrossed b /\ holds_resting b
  | Err MissingWatermark => img_watermark image = None
  | Err InvalidOrder | Err InvalidTrigger => False
  | Err (Unhealthy _) => DEFAULT_MAX_ORDERS < zlen (book_orders st m) \/
      exists b, index_wf b /\ holds_resting b /\ ~ (uncrossed b /\ is_ok (aggregate_l2 (bt_values (bids b)) true) = true /\
        is_ok (aggregate_l2 (bt_values (asks b)) false) = true)
  end.
Proof using S B.
  intros Es. unfold project_l4_book. destruct (img_watermark image) as [w|]; [|done]. cbn [fmap option_fmap option_map ok_or].
  rewrite bind_of_Ok, Es, (collect_book_Ok _ _ _ _ entries_readable), bind_of_Ok. cbn [app].
  change (fold_left add_trigger (omap (entry_trigger m) st) []) with (book_triggers st m). fold (book_orders st m).
  assert (reachable (awaiting_snapshot m (wm_height w))) as Rb by (by constructor).
  destruct (apply_snapshot_loads _ (wm_height w) (wm_height w) (book_orders st m) Rb) as [Lh Lv]. cbv zeta in Lh, Lv.
  set (b' := apply_snapshot _ _ _ _) in *.
  assert (health b' <> Healthy -> DEFAULT_MAX_ORDERS < zlen (book_orders st m) \/
      exists b, index_wf b /\ holds_resting b /\ ~ (uncrossed b /\ is_ok (aggregate_l2 (bt_values (bids b)) true) = true /\
        is_ok (aggregate_l2 (bt_values (asks b)) false) = true)) as U.
  { intros Nh. destruct (Z.lt_ge_cases DEFAULT_MAX_ORDERS (zlen (book_orders st m))) as [C|C]; [by left|]. right.
    destruct orders_valid as [Fp Nd]. destruct Lv as (b & W & Hb & Lb & Eb); [done|]. exists b. split_and!; [done|by apply loaded_resting|].
    intros Au. apply (assert_invariants_Ok _ W) in Au. rewrite Au in Eb. congruence. }
  destruct (health b') eqn:Hb; [|by apply U..]. destruct (Lh eq_refl) as (_ & Un & Lf & Sq & Blk & Lo).
  exists w. split_and!; try done. by apply loaded_resting.
Qed.
End reading.
End books.

Section runs.
Context `{HexLaws} `{Blake3} `{PW : PayloadWire} `{SJ : StateJson} `{LO : !JsonLaws OrderCurrentWire} `{LT : !JsonLaws TriggerWire}.
Implicit Types (l : CanonicalLedger CanonicalStateReducerV1).

(** C9. The projected book is the state's book. In a state whose orders and
    triggers decode, the same holds after any run of the ledger with the
    production reducer, so that the projection of a market never stops at a
    record it cannot read. It fails only without a watermark, or when the orders
    that rest are too many, cross or do not add up; otherwise it is a healthy
    book at the height of the state, uncrossed, which holds under each id
    exactly the order of that market that rests in the state, with the trigger
    that was activated for it. *)
Theorem projected_book_exact l bs rs l' m : bt_sorted (img_entries (state l)) -> book_readable (img_entries (state l)) ->
  Forall block_fields_typed bs -> apply_blocks bs l = (rs, l') ->
  let st := img_entries (state l') in
  book_readable st /\
  match project_l4_book m (state l') with
  | Ok b => exists w, img_watermark (state l') = Some w /\ health b = Healthy /\ book_sequence b = wm_height w /\
      as_of_block b = wm_height w /\ lifecycle b = [] /\ uncrossed b /\ holds_resting st m b
  | Err MissingWatermark => img_watermark (state l') = None
  | Err InvalidOrder | Err InvalidTrigger => False
  | Err (Unhealthy _) => DEFAULT_MAX_ORDERS < zlen (book_orders st m) \/
      exists b, index_wf b /\ holds_resting st m b /\
        ~ (uncrossed b /\ is_ok (aggregate_l2 (bt_values (bids b)) true) = true /\ is_ok (aggregate_l2 (bt_values (asks b)) false) = true)
  end.
Proof using Type*.
  intros S B F E st.
  assert (bt_sorted st /\ book_readable st) as [S' B'].
  { refine (apply_blocks_sim envelope_typed (fun st (_ : unit) => bt_sorted st /\ book_readable st) (fun u _ => u)
      (reducer l) _ l bs rs l' tt eq_refl S F (conj S B) E).
    intros st0 u e ctx ms Se Te [_ Be] R. split; [by apply put_all_sorted|]. exact (composite_readable st0 e ctx ms Se Te R Be). }
  split; [done|]. exact (project_book st S' B' m (state l') eq_refl).
Qed.
End runs.

(** ** The book of the order run *)

#[local] Existing Instances sample_hex sample_hex_laws sample_blake3 no_payloads order_state_json order_table_laws trigger_table_laws.

Lemma projected_book_exact_witness : exists b, project_l4_book "BTC" (state order_run.2) = Ok b /\
  uncrossed b /\ OrderBook.remaining <$> (lookup_order b "o1") = Some (dec 2) /\ lookup_order b "o2" = None.
Proof.
  destruct (projected_book_exact desk_ledger order_blocks order_run.1 order_run.2 "BTC") as [_ P];
    [constructor|split; intros k l G; discriminate G|exact order_blocks_typed|vm_compute; reflexivity|].
  destruct (project_l4_book "BTC" (state order_run.2)) as [b|x] eqn:E; [|vm_compute in E; discriminate E].
  destruct P as (w & _ & _ & _ & _ & _ & U & L). exists b. split_and!; [done..| |]; rewrite L; vm_compute; reflexivity.
Defined.
